(* ===== verification/_CoqProject ===== *)
-Q . S2P
Prelude.v
GoStrings.v
Csv.v
Float64.v
Strconv.v
GoTime.v
Grading.v
Json.v
Judge.v
Similarity.v
Gateway.v
Service.v
Shop.v
Referral.v
Cashfree.v
Checkout.v
Certify.v
CertifyDesk.v
Certified.v
Hub.v
Reset.v
ResetRuns.v
ShopRuns.v
CertRuns.v
Integrity.v
IntegrityRuns.v
Wire.v
PgTypes.v
Worker.v
Messages.v
Submissions.v
Progress.v
Store.v
Concrete.v
Scoring.v
Attempts.v
Papers.v
Authoring.v
Results.v
Consumer.v
Pipeline.v
Answers.v
Bank.v
Companies.v
BankRuns.v
Drafts.v
Available.v
Reports.v
Recruiter.v
Confined.v
RecruiterRuns.v
Rpc.v
Guarantee.v
Sound.v
Examples.v
ServiceRuns.v
Runs.v
