(* ===== verification/Prelude.v ===== *)
(** * The SkillofIDE backend: judging, tests, payments and certification

    The repository is the backend of an online judge with practice problems
    and timed tests, and of the shop around it.  A candidate starts an attempt
    at a test (assessment service), answers questions and submits code; code
    goes through the submission service to the execution worker, which runs it
    on the problem's test cases and judges the outputs; the verdict comes back
    to the submission service, is awarded as progress when it is practice, and
    marks the question of the attempt when it is a test.  Recruiters author
    tests, invite candidates and read ranked results through the API gateway,
    which also sells courses and certification exams, runs a referral
    programme, reports on integrity and resets passwords; the notification
    service tells connected browsers what happened.

    ** Parts, files and source

    Go's standard library, as far as the code relies on it:
    - GoStrings.v: [strings] and [strconv] on byte strings;
    - Csv.v: [encoding/csv]'s writer and an RFC 4180 reader;
    - Float64.v: binary64 arithmetic with one rounding per operation, on the
      Standard Library's [spec_float], with monotonicity and error lemmas;
    - Strconv.v: [strconv.ParseFloat] and [FormatFloat], shortest digits;
    - GoTime.v: instants as nanoseconds since 1970, RFC 3339 both ways;
    - Json.v: [encoding/json] parsing and printing of any value;
    - Wire.v: [encoding/json] on structs, by tables of fields, and its round
      trip.

    The execution service:
    - Judge.v: internal/judge (judge.go, compare.go, resultset.go), the verdict
      of one test case under text, typed JSON and SQL comparison;
    - Worker.v: internal/worker/worker.go and internal/handler/grpc.go, the
      runs of a job's cases, and module [Dispatch], the job queue as a step
      relation.

    The submission, progress and notification services:
    - PgTypes.v: PostgreSQL's text, uuid, JSONB and INT types, [ids.IsUUID];
    - Service.v: the effects of these services, with failures and interleaving;
    - Messages.v: the JSON messages on NATS and their round trips;
    - Submissions.v: submission-service: repository/postgres.go,
      orchestrator/orchestrator.go, handler/grpc.go;
    - Progress.v: progress-service: repository/postgres.go, cache/redis.go,
      handler/grpc.go;
    - Hub.v: notification-service: handler/websocket.go, the goroutines of the
      hub as a step relation over its shared state.

    The assessment service, over one database record [Store.DB] with a finite
    map per table:
    - Grading.v: internal/grading/scoring.go, the marking rules;
    - Store.v: the tables, the monad of SQL statements and transactions
      under faults and interference, and rely-guarantee reasoning on it;
    - Scoring.v: repository/scoring.go, closing, verdicts, totals, summaries;
    - Attempts.v and Papers.v: the starting half of repository/attempts.go,
      eligibility and the drawing of a paper;
    - Answers.v: the answering half, proctoring, results, and the handlers of
      internal/handler/grpc.go that compose repository calls; Available.v, the
      list of tests a student sees;
    - Authoring.v and Drafts.v: repository/authoring.go; Bank.v:
      repository/bank.go; Companies.v: repository/companies.go;
    - Results.v and Reports.v: repository/results.go, shortlists on the one
      side, invitations, tables, reports and the export on the other;
    - Consumer.v: internal/consumer/graded.go and internal/sweeper/sweeper.go;
    - Rpc.v: internal/handler/grpc.go, every method of the service with its
      status codes, and the service as one function of the call;
    - Guarantee.v and Sound.v: every request of the service as a relation
      between databases, what no interleaving of requests can do, and what
      they all keep.

    The API gateway (services/api-gateway/graph/resolvers and pkg/auth):
    - Gateway.v: input helpers of inquiry.go, the rate limiter, password.go,
      jwt.go and middleware/auth.go;
    - Recruiter.v: recruiter.go, every route with its guards, on the operations
      of the assessment service; Confined.v: what its requests can change;
    - Shop.v: the tables of users, orders, referrals and certification, and
      crypto/rand tokens; Referral.v: referral.go and referral_admin.go;
      Cashfree.v: cashfree.go; Checkout.v: enroll.go;
    - Certify.v: certification.go; CertifyDesk.v: certification_admin.go;
      Certified.v: the invariants of both together;
    - Reset.v: password_reset.go;
    - Similarity.v: similarity.go; Integrity.v: integrity.go.

    Pipeline.v composes worker, submission service and assessment (or
    progress) service along their messages.  Concrete.v, Examples.v, Runs.v and
    the files that end in Runs hold concrete instances of the interfaces and
    runs on them.

    ** How state and operations correspond to the code

    A table is a [gmap] from its key to a record with the table's columns (the
    migrations or [ensureTables] name them); NUMERIC(_,2) columns are integers
    in hundredths, timestamps nanoseconds, NULL is [None].  A repository method
    or handler is a Rocq function of the same name in a state and error monad:
    [Store.M] for the assessment service, [Service.Svc] for the others.  Each
    SQL statement, published message, remote call and reading of the clock is
    one step; the environment decides of each step whether it fails, with or
    without having taken effect, and what other requests did before it.  A
    transaction is one step whose body runs on a copy that is kept or dropped
    whole.  Go errors are the error side of the monad; handlers turn them into
    gRPC codes, and the gateway these into HTTP codes.  A request body is given
    by what it decodes to.

    ** What is outside, as parameters

    The Docker sandbox ([Run]), the problem service ([GetTestCases]), NATS
    ([publish] may fail; delivery repeats until acknowledged), the payment
    gateway's answers ([CashfreeAPI]), mail; PostgreSQL's conversions and
    collations (classes [Store.Postgres], [PgTypes.PgTypes], [PgLower],
    [PgSearch], [PgCollation], [PgCase], [PgScore], with their documented laws
    where one is used; [CertEnv]), [math/rand] ([GoRand]), [crypto/rand]
    ([Random], [Randomness], [Passwords]), bcrypt and JWT signatures
    ([Vault]), SHA-256 and HMAC ([Digests]), Unicode's tables ([Unicode]),
    [net/mail] ([Addresses]), the order of map iteration and of unstable sorts
    ([GoRuntime]), and the order in which the server gives rows that the query
    does not order.  Each class is instantiated by concrete functions where
    runs use it.

    ** What the theorems show

    - Attempts: answers and paper are final once an attempt is closed, and
      attempts only move forward, under any interleaving of requests that do
      not delete their test (Guarantee.v); a start is offered in the list
      (Available.v); a denied call writes nothing (Rpc.v); closing
      settles status and score once (Scoring.v); starting requires eligibility
      and stores exactly the drawn paper (Papers.v); saves are guarded, papers
      hide the key, results are withheld, proctoring counts (Answers.v).
    - Marks: the marking loops compute the marking rule, and marks stay in
      range with floating-point rounding (Grading.v); a question ends with its
      best submission, and a repeated verdict changes nothing (Scoring.v,
      Consumer.v).
    - Judging: typed comparison ignores layout, unordered comparison pairs the
      elements, result sets are equal as rows (Judge.v); Accepted means that
      every case passed, and the queue is bounded (Worker.v).
    - Composition: the verdict that reaches an attempt is that of the run, a
      program that passes everything gets full marks, and a practice verdict is
      awarded once however often it is delivered (Pipeline.v).
    - Submissions: what is accepted is enqueued, what is graded reads back, and
      redelivery is harmless (Submissions.v).  Progress: totals are counts of
      rows, under any interleaving of whole transactions (Progress.v).
      Notifications reach a registered connection in order and without loss
      (Hub.v).
    - Authoring and results: a validated test's total is every paper's maximum,
      lists read back, stored tests and bank questions stay well formed under
      any interleaving of all requests (Sound.v), edits stay in their company, invitations are unique, shortlists rank and are
      shown as computed, and an export reads back (Authoring.v, Drafts.v,
      Bank.v, Results.v, Reports.v).
    - Access: the decision is membership of the owning company (Companies.v),
      and over all routes a recruiter's request writes to one such company,
      sections excepted (Confined.v).
    - Payments: a paid order enrols, nothing is granted without payment of the
      exact amount, fulfilment happens once (Checkout.v); discounts are
      bounded, the reward ledger stays sound under any interleaving
      (Referral.v).
    - Certification: a paid registration opens the exam, links open only what
      they were made for, certificates are earned and verify, and the tables
      stay sound under any interleaving (Certified.v).
    - Accounts: a mailed code resets the password once and nothing else does
      (Reset.v); the rate limiter keeps its limit in every window (Gateway.v).
    - Integrity: fingerprints ignore disguises and winnowing misses no long
      copy (Similarity.v); what crosses the threshold is reported
      (Integrity.v).

    ** Fuel

    The JSON parser spends at most two calls per byte and is given them
    ([Json.parse_terminates]); [Json.unquote] takes a step per byte;
    [digits_of] has a digit per bit; [shortest] stops at 17 digits, which
    determine a binary64 number.  The similarity tokenizer has a round per
    rune, and every round moves on ([Similarity.simTokens_terminates]).  The
    search for a free referral code, retries and sweeper ticks take their
    number from the code or as an argument.

    ** What the development found

    Each is a lemma: a NUL byte in a program's output keeps its result from
    ever being stored ([Submissions.onResult_nul]); a graded event that cannot
    be published is lost ([Submissions.onResult_event_lost]); streaks forgive
    any single day off ([Progress.calculateStreak_gaps]); two transactions that
    read before either writes both award a solve ([Progress.race_double_counts]);
    a wrong resubmission overwrites a solution's run time
    ([Progress.resubmission_overwrites_runtime]); a problem's cached status
    outlives an update ([Progress.update_invalidates]); a failed update leaves
    a paid order stuck ([Checkout.paid_order_stuck]); an old result burns a
    resit ([Certified.old_result_burns_resit]); a reset code can be used twice
    ([Reset.code_used_twice]); an event without a user reaches everybody
    ([Hub.unaddressed_reaches_all]); a recruiter can remove the sections of any
    test ([Confined.section_unguarded]); deleting a test can take along an
    attempt started meanwhile ([ServiceRuns.delete_loses_attempt]).  Smaller ones are next to the code
    they concern.

    ** Not modelled

    Docker, NATS, Redis and PostgreSQL themselves; generated driver code
    (internal/codegen), whose meaning is that of five other languages; the
    gateway's GraphQL resolvers, its scholarship, attendance and administration
    screens, and the user and problem services, which are glue over single SQL
    statements and HTTP; seed data; HTML and mail texts.  Timestamps keep
    their nanoseconds where PostgreSQL keeps microseconds, except in the tables
    that Drafts.v, Bank.v and Reports.v write, which truncate; contexts and
    their deadlines appear only as failures; a value in a Redis cache is kept
    as the value it was, not as its JSON text. *)

From stdpp Require Export base list strings gmap sorting.
From Stdlib Require Export ZArith Lia.

#[global] Open Scope bool_scope.

(** ** Machine integers *)

(** Two's complement wrap-around of an int64. *)
Definition int64 (z : Z) : Z := ((z + 2 ^ 63) mod 2 ^ 64 - 2 ^ 63)%Z.

(** Of an int32. *)
Definition int32 (z : Z) : Z := ((z + 2 ^ 31) mod 2 ^ 32 - 2 ^ 31)%Z.

Lemma int64_id z : (- 2 ^ 63 ≤ z < 2 ^ 63)%Z → int64 z = z.
Proof. intros Hz. unfold int64. rewrite Z.mod_small; lia. Qed.

(** ** Tactics of the development *)

(** [bool_to_prop] turns the boolean connectives the code's conditions are
    built from into propositions, everywhere. *)
Ltac bool_to_prop :=
  repeat match goal with
  | H : _ && _ = true |- _ => apply andb_true_iff in H; destruct H
  | H : _ || _ = false |- _ => apply orb_false_iff in H; destruct H
  | H : negb _ = true |- _ => apply negb_true_iff in H
  | H : negb _ = false |- _ => apply negb_false_iff in H
  | H : bool_decide _ = true |- _ => apply bool_decide_eq_true in H
  | H : bool_decide _ = false |- _ => apply bool_decide_eq_false in H
  end.

(** [case_bool] splits on the scrutinee of the first [if] or [match] of the
    goal and simplifies the equations it leaves. *)
Ltac case_bool := case_match; simplify_eq/=.

(** [decide_now] evaluates a decidable proposition without variables. *)
Ltac decide_now := apply (bool_decide_unpack _); vm_compute; exact I.

(** ** Stable sorting by a key, as [sort.SliceStable] and [sort.Strings] do *)
Section StableSort.
Context {A : Type} (key : A → string).

(** [less a b] of the Go comparator: the keys compared as byte strings. *)
Definition key_less (a b : A) : bool :=
  match String.compare (key a) (key b) with Lt => true | _ => false end.

(** Places [x], which stood before every element of [l], behind the
    elements strictly below it only: equal keys keep their order. *)
Fixpoint insert_by (x : A) (l : list A) : list A :=
  match l with
  | [] => [x]
  | y :: t => if key_less y x then y :: insert_by x t else x :: y :: t
  end.

Definition stable_sort (l : list A) : list A := foldr insert_by [] l.

Lemma insert_by_perm x l : insert_by x l ≡ₚ x :: l.
Proof.
  induction l as [|y t IH]; simpl; [done|].
  destruct (key_less y x); [|done]. rewrite IH. apply Permutation_swap.
Qed.

Lemma stable_sort_perm l : stable_sort l ≡ₚ l.
Proof.
  induction l as [|x l IH]; simpl; [done|]. by rewrite insert_by_perm, IH.
Qed.

Lemma stable_sort_length l : length (stable_sort l) = length l.
Proof. apply Permutation_length, stable_sort_perm. Qed.
End StableSort.

Definition sort_strings : list string → list string := stable_sort id.

Definition str_less (a b : string) : bool := key_less id a b.

Lemma str_less_leb a b : str_less a b = false → String.le b a.
Proof.
  unfold str_less, key_less, id, String.le, String.leb. simpl.
  rewrite (String.compare_antisym b a).
  by destruct (String.compare a b).
Qed.

Lemma str_less_le a b : str_less a b = true → String.le a b.
Proof.
  unfold str_less, key_less, id, String.le, String.leb. simpl.
  by destruct (String.compare a b).
Qed.

Lemma str_less_false a b : str_less a b = false ↔ String.le b a.
Proof.
  split; [apply str_less_leb|]. unfold str_less, key_less, id, String.le, String.leb.
  rewrite (String.compare_antisym a b). by destruct (String.compare b a).
Qed.

Section StableSortKeys.
Context {A : Type} (key : A → string).

Lemma insert_by_keys x l :
  map key (insert_by key x l) = insert_by id (key x) (map key l).
Proof.
  induction l as [|y t IH]; simpl; [done|].
  replace (key_less id (key y) (key x)) with (key_less key y x) by done.
  destruct (key_less key y x); simpl; by rewrite ?IH.
Qed.

Lemma stable_sort_keys l : map key (stable_sort key l) = sort_strings (map key l).
Proof.
  induction l as [|x l IH]; simpl; [done|]. by rewrite insert_by_keys, IH.
Qed.
End StableSortKeys.

Lemma insert_by_sorted x l :
  StronglySorted String.le l → StronglySorted String.le (insert_by id x l).
Proof.
  induction 1 as [|y t Hs IH Hall]; simpl; [by repeat constructor|].
  destruct (key_less id y x) eqn:E; fold (str_less y x) in E.
  - constructor; [done|]. apply Forall_forall. intros z Hz.
    rewrite insert_by_perm in Hz. apply elem_of_cons in Hz as [->|Hz].
    + by apply str_less_le.
    + by eapply Forall_forall in Hall.
  - apply str_less_leb in E. constructor; [by constructor|].
    constructor; [done|]. eapply Forall_impl; [exact Hall|].
    intros z Hz. by etrans.
Qed.

Lemma sort_strings_sorted l : StronglySorted String.le (sort_strings l).
Proof. induction l; simpl; [constructor|]. by apply insert_by_sorted. Qed.

(** Two string lists with the same elements sort to the same list. *)
Lemma sort_strings_perm l k : l ≡ₚ k → sort_strings l = sort_strings k.
Proof.
  intros HP. apply (StronglySorted_unique String.le); auto using sort_strings_sorted.
  unfold sort_strings. by rewrite !stable_sort_perm.
Qed.

(** Lists sorted by a key that tells their elements apart are equal when
    they have the same elements. *)
Lemma stable_sort_perm_eq {A} (key : A → string) (l k : list A) :
  l ≡ₚ k →
  (∀ x y, x ∈ l → y ∈ l → key x = key y → x = y) →
  stable_sort key l = stable_sort key k.
Proof.
  intros HP Hinj.
  assert (Hk : map key (stable_sort key l) = map key (stable_sort key k)).
  { rewrite !stable_sort_keys. apply sort_strings_perm. by rewrite HP. }
  assert (Hl : ∀ x, x ∈ stable_sort key l → x ∈ l)
    by (intros x; by rewrite stable_sort_perm).
  assert (Hk' : ∀ x, x ∈ stable_sort key k → x ∈ l)
    by (intros x; by rewrite stable_sort_perm, HP).
  revert Hk Hl Hk'. generalize (stable_sort key l), (stable_sort key k).
  intros l1. induction l1 as [|x l1 IH]; intros [|y l2] Heq H1 H2; simplify_eq/=; [done|].
  f_equal.
  - apply Hinj; [apply H1|apply H2|done]; constructor.
  - apply IH; [done|..]; intros z Hz; [apply H1|apply H2]; by constructor.
Qed.

#[export] Hint Resolve stable_sort_perm sort_strings_sorted : core.

(** ** Ordering rows *)

#[local] Open Scope Z_scope.

(** Insertion sort by a key under [<=], stable: SQL's ORDER BY. *)
Section OrderBy.
Context {A : Type} (le : A → A → bool).
Fixpoint insert_order (x : A) (l : list A) : list A :=
  match l with
  | [] => [x]
  | y :: t => if le x y then x :: y :: t else y :: insert_order x t
  end.
Definition order_by (l : list A) : list A := foldr insert_order [] l.

Lemma insert_order_perm x l : insert_order x l ≡ₚ x :: l.
Proof.
  induction l as [|y t IH]; simpl; [done|]. destruct (le x y); [done|].
  rewrite IH. apply Permutation_swap.
Qed.

Lemma order_by_perm l : order_by l ≡ₚ l.
Proof. induction l as [|x l IH]; simpl; [done|]. by rewrite insert_order_perm, IH. Qed.
End OrderBy.

(** Rows ordered by an integer column come out in its order. *)
Lemma insert_order_sorted {A} (key : A → Z) x l :
  StronglySorted Z.le (map key l) →
  StronglySorted Z.le (map key (insert_order (λ a b, key a <=? key b) x l)).
Proof.
  induction l as [|y l IH]; simpl; [by repeat constructor|]. intros [Hs Hall]%StronglySorted_inv.
  destruct (Z.leb_spec (key x) (key y)).
  - constructor; [by constructor|]. constructor; [done|]. eapply Forall_impl; [exact Hall|]. simpl. lia.
  - simpl. constructor; [by apply IH|].
    assert (HP : map key (insert_order (λ a b, key a <=? key b) x l) ≡ₚ key x :: map key l)
      by (by rewrite insert_order_perm).
    rewrite HP. constructor; [lia|done].
Qed.

Lemma order_by_sorted {A} (key : A → Z) l :
  StronglySorted Z.le (map key (order_by (λ a b, key a <=? key b) l)).
Proof. induction l as [|x l IH]; simpl; [constructor|]. by apply insert_order_sorted. Qed.

(** Under a total and transitive order the result is ordered. *)
Section OrderBySorted.
Context {A : Type} (le : A → A → bool) (P : A → Prop).
Context (le_total : ∀ a b, P a → P b → le a b = false → le b a = true).
Context (le_trans : ∀ a b c, P a → P b → P c → le a b = true → le b c = true → le a c = true).

Lemma insert_order_ordered x l :
  P x → Forall P l → StronglySorted (λ a b, le a b = true) l →
  StronglySorted (λ a b, le a b = true) (insert_order le x l).
Proof.
  intros Hx. induction 1 as [|y l Hy Hl IH]; simpl; [by repeat constructor|].
  intros [Hs Hall]%StronglySorted_inv. destruct (le x y) eqn:E.
  - constructor; [by constructor|]. constructor; [done|]. rewrite Forall_forall in *.
    intros z Hz. eapply (le_trans x y z); auto.
  - constructor; [by apply IH|]. rewrite insert_order_perm. constructor; [by apply le_total|done].
Qed.

Lemma order_by_ordered l : Forall P l → StronglySorted (λ a b, le a b = true) (order_by le l).
Proof.
  induction 1 as [|x l Hx Hl IH]; simpl; [constructor|].
  apply insert_order_ordered; [done| |done]. by rewrite (order_by_perm le l).
Qed.
End OrderBySorted.

Lemma strongly_sorted_weaken {A} (R Q : A → A → Prop) l :
  (∀ a b, R a b → Q a b) → StronglySorted R l → StronglySorted Q l.
Proof.
  intros H. induction 1 as [|x l Hs IH Hall]; [constructor|]. constructor; [done|].
  eapply Forall_impl; [exact Hall|]. auto.
Qed.
