(* ===== verification/GoStrings.v ===== *)
(** The part of Go's [strings] and [strconv] packages the modelled code calls,
    on byte strings: trimming, splitting, prefix tests, case folding and
    decimal rendering of integers.

    A Go string is a sequence of bytes; Rocq's [string] is one too, so [len],
    indexing and comparison are the byte operations of Go.  White space is
    Unicode's, recognised in its UTF-8 encoding exactly as
    [strings.TrimSpace] does.  [to_lower] and [equal_fold] fold the ASCII
    letters; bytes above 0x7f are left as they are (the keywords the code
    folds against are ASCII and contain neither k nor s, the two letters with
    a non-ASCII simple fold). *)

From S2P Require Import Prelude.
From Stdlib Require Import Ascii String.

#[global] Open Scope string_scope.
#[global] Open Scope list_scope.

Abbreviation bytes := (list ascii).

Definition to_bytes : string → bytes := list_ascii_of_string.
Definition of_bytes : bytes → string := string_of_list_ascii.

Definition code (a : ascii) : nat := nat_of_ascii a.

(** ** White space *)

Definition ascii_space (a : ascii) : bool :=
  let n := code a in ((9 <=? n) && (n <=? 13) || (n =? 32))%nat.

(** U+0085 and U+00A0. *)
Definition space2 (a b : ascii) : bool :=
  ((code a =? 0xC2) && ((code b =? 0x85) || (code b =? 0xA0)))%nat.

(** U+1680, U+2000-U+200A, U+2028, U+2029, U+202F, U+205F and U+3000. *)
Definition space3 (a b c : ascii) : bool :=
  let a := code a in let b := code b in let c := code c in
  ((a =? 0xE1) && (b =? 0x9A) && (c =? 0x80)
   || (a =? 0xE2) && (b =? 0x80)
      && ((0x80 <=? c) && (c <=? 0x8A) || (c =? 0xA8) || (c =? 0xA9) || (c =? 0xAF))
   || (a =? 0xE2) && (b =? 0x81) && (c =? 0x9F)
   || (a =? 0xE3) && (b =? 0x80) && (c =? 0x80))%nat.

Fixpoint trim_left_space (s : bytes) : bytes :=
  match s with
  | a :: r =>
      if ascii_space a then trim_left_space r
      else match r with
           | b :: r2 =>
               if space2 a b then trim_left_space r2
               else match r2 with
                    | c :: r3 => if space3 a b c then trim_left_space r3 else s
                    | [] => s
                    end
           | [] => s
           end
  | [] => []
  end.

(** The same on a reversed string: the last byte of a rune comes first. *)
Fixpoint trim_left_space_rev (s : bytes) : bytes :=
  match s with
  | c :: r =>
      if ascii_space c then trim_left_space_rev r
      else match r with
           | b :: r2 =>
               if space2 b c then trim_left_space_rev r2
               else match r2 with
                    | a :: r3 => if space3 a b c then trim_left_space_rev r3 else s
                    | [] => s
                    end
           | [] => s
           end
  | [] => []
  end.

Definition trim_space_bytes (s : bytes) : bytes :=
  rev (trim_left_space_rev (rev (trim_left_space s))).

(** [strings.TrimSpace] *)
Definition trim_space (s : string) : string := of_bytes (trim_space_bytes (to_bytes s)).

(** ** Cut sets, splitting and joining *)

Fixpoint drop_while {A} (p : A → bool) (l : list A) : list A :=
  match l with
  | x :: t => if p x then drop_while p t else l
  | [] => []
  end.

(** [strings.TrimRight(s, cutset)] for a cut set of ASCII bytes. *)
Definition trim_right (cut : ascii → bool) (s : bytes) : bytes :=
  rev (drop_while cut (rev s)).

Definition newline : ascii := "010"%char.
Definition carriage : ascii := "013"%char.

(** [strings.ReplaceAll(s, "\r\n", "\n")] *)
Fixpoint replace_crlf (s : bytes) : bytes :=
  match s with
  | a :: r =>
      if Ascii.eqb a carriage
      then match r with
           | b :: r2 => if Ascii.eqb b newline then newline :: replace_crlf r2
                        else a :: replace_crlf r
           | [] => [a]
           end
      else a :: replace_crlf r
  | [] => []
  end.

(** [strings.Split(s, "\n")]: never empty. *)
Fixpoint split_lines (s : bytes) : list bytes :=
  match s with
  | [] => [[]]
  | a :: r =>
      let rest := split_lines r in
      if Ascii.eqb a newline then [] :: rest
      else match rest with
           | l :: ls => (a :: l) :: ls
           | [] => [[a]]
           end
  end.

(** [strings.Join(lines, "\n")] *)
Fixpoint join_lines (ls : list bytes) : bytes :=
  match ls with
  | [] => []
  | [l] => l
  | l :: t => l ++ newline :: join_lines t
  end.

(** [strings.HasPrefix(s, p)] *)
Definition has_prefix (p s : string) : bool := String.prefix p s.

(** [strings.TrimPrefix(s, p)] *)
Definition trim_prefix (p s : string) : string :=
  if has_prefix p s then substring (String.length p) (String.length s - String.length p) s
  else s.

(** [strings.Contains(s, c)] for a one-byte needle. *)
Definition contains_byte (c : ascii) (s : string) : bool :=
  existsb (Ascii.eqb c) (to_bytes s).

(** ** Case *)

Definition lower_byte (a : ascii) : ascii :=
  let n := code a in
  if ((65 <=? n) && (n <=? 90))%nat then ascii_of_nat (n + 32) else a.

(** [strings.ToLower] *)
Definition to_lower (s : string) : string := of_bytes (map lower_byte (to_bytes s)).

(** [strings.EqualFold] *)
Definition equal_fold (a b : string) : bool := String.eqb (to_lower a) (to_lower b).

(** ** Decimal integers *)

Definition digit (n : Z) : ascii := ascii_of_nat (48 + Z.to_nat n).

(** Renders [n < 10 ^ fuel] in decimal, in front of [acc]. *)
Fixpoint digits_of (fuel : nat) (n : Z) (acc : bytes) : bytes :=
  match fuel with
  | O => acc
  | S f =>
      let acc := digit (n mod 10) :: acc in
      if (n / 10 =? 0)%Z then acc else digits_of f (n / 10) acc
  end.

(** One decimal digit takes more than three bits, so the bit length of [n]
    bounds the number of its digits. *)
Definition nat_digits (n : Z) : bytes := digits_of (S (Z.to_nat (Z.log2 n))) n [].

(** [strconv.FormatInt(n, 10)] and [strconv.Itoa] *)
Definition format_int_bytes (n : Z) : bytes :=
  if (n <? 0)%Z then "-"%char :: nat_digits (- n) else nat_digits n.

Definition format_int (n : Z) : string := of_bytes (format_int_bytes n).

(** [strconv.FormatBool] *)
Definition format_bool (b : bool) : string := if b then "true" else "false".

(** ** Lemmas *)

Lemma of_to_bytes s : of_bytes (to_bytes s) = s.
Proof. apply string_of_list_ascii_of_string. Qed.

Lemma to_of_bytes b : to_bytes (of_bytes b) = b.
Proof. apply list_ascii_of_string_of_list_ascii. Qed.

Lemma to_bytes_app a b : to_bytes (a +:+ b) = to_bytes a ++ to_bytes b.
Proof. induction a as [|x a IH]; [done|]. exact (f_equal (cons x) IH). Qed.

Lemma to_bytes_inj a b : to_bytes a = to_bytes b → a = b.
Proof. intros H. by rewrite <- (of_to_bytes a), H, of_to_bytes. Qed.

Lemma of_bytes_inj a b : of_bytes a = of_bytes b → a = b.
Proof. intros H. by rewrite <- (to_of_bytes a), H, to_of_bytes. Qed.

Lemma lower_byte_idem a : lower_byte (lower_byte a) = lower_byte a.
Proof. destruct a as [[] [] [] [] [] [] [] []]; reflexivity. Qed.

Lemma to_lower_idem s : to_lower (to_lower s) = to_lower s.
Proof.
  unfold to_lower. rewrite to_of_bytes, map_map.
  f_equal. apply map_ext, lower_byte_idem.
Qed.

Lemma equal_fold_refl a : equal_fold a a = true.
Proof. apply String.eqb_refl. Qed.

Lemma equal_fold_sym a b : equal_fold a b = equal_fold b a.
Proof. apply String.eqb_sym. Qed.

Lemma equal_fold_lower a b : equal_fold a b = true ↔ to_lower a = to_lower b.
Proof. apply String.eqb_eq. Qed.

Lemma drop_while_app_false {A} (p : A → bool) l k :
  Forall (λ x, p x = true) l → drop_while p (l ++ k) = drop_while p k.
Proof. induction 1 as [|x l Hx _ IH]; simpl; [done|]. by rewrite Hx. Qed.

Lemma drop_while_idem {A} (p : A → bool) l : drop_while p (drop_while p l) = drop_while p l.
Proof.
  induction l as [|x l IH]; simpl; [done|].
  destruct (p x) eqn:E; [done|]. simpl. by rewrite E.
Qed.

Lemma trim_right_idem cut s : trim_right cut (trim_right cut s) = trim_right cut s.
Proof. unfold trim_right. by rewrite rev_involutive, drop_while_idem. Qed.

(** Trailing bytes of the cut set do not matter. *)
Lemma trim_right_app cut s t :
  Forall (λ x, cut x = true) t → trim_right cut (s ++ t) = trim_right cut s.
Proof.
  intros Ht. unfold trim_right. rewrite rev_app_distr, drop_while_app_false; [done|].
  by apply List.Forall_rev.
Qed.

Lemma split_lines_nonempty s : split_lines s ≠ [].
Proof. destruct s as [|a s]; simpl; [done|]. by repeat case_match. Qed.

(** [Split] and [Join] are inverse. *)
Lemma join_split_lines s : join_lines (split_lines s) = s.
Proof.
  induction s as [|a s IH]; simpl; [done|].
  pose proof (split_lines_nonempty s) as Hne.
  destruct (split_lines s) as [|l ls] eqn:E; [done|].
  destruct (Ascii.eqb a newline) eqn:Ea.
  - apply Ascii.eqb_eq in Ea as ->. simpl in *. by rewrite <- IH.
  - rewrite <- IH. by destruct ls.
Qed.

Create Rewrite HintDb go_strings.
#[export] Hint Rewrite of_to_bytes to_of_bytes to_lower_idem : go_strings.
