(* ===== verification/Csv.v ===== *)
(** [encoding/csv]: what a [csv.Writer] with the default comma writes, and a
    reader of RFC 4180 files that reads it back ([read_written]). *)

From S2P Require Import Prelude GoStrings.
From Stdlib Require Import Ascii.

#[local] Open Scope Z_scope.

Definition dquote : ascii := ascii_of_nat 34.
Definition comma : ascii := ","%char.

(** ** Writing *)

Definition special (a : ascii) : bool :=
  Ascii.eqb a newline || Ascii.eqb a carriage || Ascii.eqb a dquote || Ascii.eqb a comma.

(** [unicode.IsSpace] of the first rune. *)
Definition leads_space (s : bytes) : bool := negb (bool_decide (trim_left_space s = s)).

(** [fieldNeedsQuotes]; a lone backslash and dot is quoted for PostgreSQL. *)
Definition fieldNeedsQuotes (field : bytes) : bool :=
  match field with
  | [] => false
  | _ => bool_decide (field = [ascii_of_nat 92; "."%char]) || existsb special field || leads_space field
  end.

Fixpoint double_quotes (s : bytes) : bytes :=
  match s with
  | [] => []
  | a :: t => if Ascii.eqb a dquote then dquote :: dquote :: double_quotes t else a :: double_quotes t
  end.

Definition write_field (field : bytes) : bytes :=
  if fieldNeedsQuotes field then dquote :: double_quotes field ++ [dquote] else field.

Fixpoint write_fields (fields : list bytes) : bytes :=
  match fields with
  | [] => []
  | [f] => write_field f
  | f :: t => write_field f ++ comma :: write_fields t
  end.

(** [Writer.Write] *)
Definition write_record (record : list string) : bytes := write_fields (map to_bytes record) ++ [newline].

Definition write_records (records : list (list string)) : string := of_bytes (concat (map write_record records)).

(** ** Reading *)

Inductive csv_state := Start | Bare | Quoted | Closing.

(** The reader: [field] is the field being read, backwards, [row] the fields
    of the record before it and [rows] the records before it, both backwards.
    Every record ends in a line feed. *)
Fixpoint read_from (st : csv_state) (field : bytes) (row : list bytes) (rows : list (list bytes)) (s : bytes)
  : option (list (list bytes)) :=
  match s with
  | [] => match st, row with Start, [] => Some (rev rows) | _, _ => None end
  | a :: t =>
      match st with
      | Quoted => if Ascii.eqb a dquote then read_from Closing field row rows t else read_from Quoted (a :: field) row rows t
      | Start | Bare | Closing =>
          if Ascii.eqb a comma then read_from Start [] (rev field :: row) rows t
          else if Ascii.eqb a newline then read_from Start [] [] (rev (rev field :: row) :: rows) t
          else if Ascii.eqb a dquote then
            match st with
            | Start => read_from Quoted [] row rows t
            | Closing => read_from Quoted (dquote :: field) row rows t
            | _ => None
            end
          else match st with Closing => None | _ => read_from Bare (a :: field) row rows t end
      end
  end.

Definition read_records (s : string) : option (list (list string)) :=
  map (map of_bytes) <$> read_from Start [] [] [] (to_bytes s).

(** ** Reading what was written *)

Lemma special_spec a : special a = false → Ascii.eqb a newline = false ∧ Ascii.eqb a dquote = false ∧ Ascii.eqb a comma = false.
Proof. unfold special. intros H. repeat (apply orb_false_iff in H as [H ?]). done. Qed.

Lemma read_bare st w : st = Start ∨ st = Bare → (forall a, a ∈ w → special a = false) → ∀ field row rows t,
  read_from st field row rows (w ++ t) = read_from (if w is [] then st else Bare) (rev w ++ field) row rows t.
Proof.
  revert st. induction w as [|a w IH]; intros st Hst Hw field row rows t; [done|]. cbn [app read_from].
  destruct (special_spec a) as (-> & -> & ->); [apply Hw, list_elem_of_here|].
  assert (H : read_from Bare (a :: field) row rows (w ++ t) = read_from Bare (rev (a :: w) ++ field) row rows t).
  { rewrite (IH Bare) by (auto; intros; apply Hw; by apply list_elem_of_further). cbn. rewrite <- app_assoc. by destruct w. }
  by destruct Hst as [->| ->].
Qed.

Lemma read_quoted w : ∀ field row rows t,
  read_from Quoted field row rows (double_quotes w ++ dquote :: t) = read_from Closing (rev w ++ field) row rows t.
Proof.
  induction w as [|a w IH]; intros field row rows t; cbn [double_quotes app read_from]; [by rewrite Ascii.eqb_refl|].
  cbn [rev]. rewrite <- app_assoc. cbn [app]. destruct (Ascii.eqb_spec a dquote) as [->|Hne].
  - cbn [app read_from]. rewrite Ascii.eqb_refl. replace (Ascii.eqb dquote comma) with false by reflexivity.
    replace (Ascii.eqb dquote newline) with false by reflexivity. apply IH.
  - cbn [app read_from]. rewrite (proj2 (Ascii.eqb_neq _ _) Hne). apply IH.
Qed.

(** A field ends in a state that takes the comma or the line feed after it. *)
Lemma read_field f row rows t :
  ∃ st, st ≠ Quoted ∧ read_from Start [] row rows (write_field f ++ t) = read_from st (rev f) row rows t.
Proof.
  unfold write_field. destruct (fieldNeedsQuotes f) eqn:E.
  - exists Closing. split; [done|]. cbn [app read_from]. rewrite <- app_assoc. cbn [app].
    replace (Ascii.eqb dquote comma) with false by reflexivity. replace (Ascii.eqb dquote newline) with false by reflexivity.
    rewrite Ascii.eqb_refl, read_quoted. by rewrite app_nil_r.
  - exists (if f is [] then Start else Bare). split; [by destruct f|]. rewrite read_bare; [by rewrite app_nil_r|by left|].
    intros a Ha. destruct f as [|b f]; [by apply elem_of_nil in Ha|]. cbn [fieldNeedsQuotes] in E.
    apply orb_false_iff in E as [[_ E]%orb_false_iff _]. destruct (special a) eqn:Es; [|done].
    rewrite <- E. symmetry. apply existsb_exists. exists a. split; [by apply list_elem_of_In|done].
Qed.

Lemma read_comma st f row rows t : st ≠ Quoted → read_from st f row rows (comma :: t) = read_from Start [] (rev f :: row) rows t.
Proof. by destruct st. Qed.

Lemma read_newline st f row rows t :
  st ≠ Quoted → read_from st f row rows (newline :: t) = read_from Start [] [] (rev (rev f :: row) :: rows) t.
Proof. by destruct st. Qed.

Lemma read_fields fs : fs ≠ [] → ∀ row rows t,
  read_from Start [] row rows (write_fields fs ++ newline :: t) = read_from Start [] [] ((rev row ++ fs) :: rows) t.
Proof.
  induction fs as [|f fs IH]; [done|]. intros _ row rows t. destruct fs as [|g fs].
  - cbn [write_fields]. destruct (read_field f row rows (newline :: t)) as (st & Hst & ->).
    rewrite read_newline by done. by rewrite rev_involutive.
  - change (write_fields (f :: g :: fs)) with (write_field f ++ comma :: write_fields (g :: fs)).
    rewrite <- app_assoc. cbn [app]. destruct (read_field f row rows (comma :: write_fields (g :: fs) ++ newline :: t)) as (st & Hst & ->).
    rewrite read_comma, rev_involutive, IH by done. cbn [rev]. by rewrite <- app_assoc.
Qed.

(** Records that have fields are read back as they were written. *)
Lemma read_written records : Forall (λ r, r ≠ []) records → read_records (write_records records) = Some records.
Proof.
  intros H. unfold read_records, write_records. rewrite to_of_bytes.
  assert (Hgo : ∀ rows, read_from Start [] [] rows (concat (map write_record records)) = Some (rev rows ++ map (map to_bytes) records)).
  { induction H as [|r records Hr _ IH]; intros rows; cbn [map concat]; [by rewrite app_nil_r|].
    unfold write_record at 1. rewrite <- app_assoc. cbn [app]. rewrite read_fields by (by destruct r).
    rewrite IH. cbn [rev app]. by rewrite <- app_assoc. }
  rewrite Hgo. cbn. f_equal. rewrite map_map. rewrite <- (map_id records) at 2. apply map_ext. intros r.
  rewrite map_map. rewrite <- (map_id r) at 2. apply map_ext. intros s. apply of_to_bytes.
Qed.
