(* ===== verification/Float64.v ===== *)
(** Go's [float64]: IEEE-754 binary64 values and the operations the modelled
    code performs on them.

    Values are the Standard Library's [spec_float] (signed zeros, infinities,
    one NaN, and [S754_finite s m e] for (-1)^s * m * 2^e).  An arithmetic
    operation computes the exact rational result and rounds it to nearest,
    ties to even, as IEEE-754 defines it: [round_ratio s n d] is the binary64
    number nearest to (-1)^s * n / d.

    Every finite binary64 number is an integer multiple of 2^-1074, so the
    lemmas measure values in that unit: [sval x] is x * 2^1074, an integer,
    and rounding is monotone and exact on it. *)

From S2P Require Import Prelude.
From Stdlib Require Export SpecFloat.

#[local] Open Scope Z_scope.

Abbreviation float64 := spec_float.

(** ** Rounding *)

(** [n / d] rounded to the nearest integer, ties to even. *)
Definition rne (n d : Z) : Z :=
  let q := n / d in
  match 2 * (n mod d) ?= d with
  | Lt => q
  | Gt => q + 1
  | Eq => if Z.even q then q else q + 1
  end.

(** [2 ^ k <= n / d] *)
Definition pow_le (k n d : Z) : bool :=
  if 0 <=? k then d * 2 ^ k <=? n else d <=? n * 2 ^ (- k).

(** The exponent of the last place of the 53-bit significand of [n / d]; the
    subnormal numbers share the least one. *)
Definition last_place (n d : Z) : Z :=
  let e := Z.log2 n - Z.log2 d - 53 in
  Z.max (if pow_le (e + 53) n d then e + 1 else e) (-1074).

(** [n / d] in units of [2 ^ e], rounded. *)
Definition significand (n d e : Z) : Z :=
  if 0 <=? e then rne n (d * 2 ^ e) else rne (n * 2 ^ (- e)) d.

(** The number with significand [m], [0 < m <= 2 ^ 53], or an infinity. *)
Definition encode (s : bool) (m e : Z) : float64 :=
  let '(m, e) := if m =? 2 ^ 53 then (2 ^ 52, e + 1) else (m, e) in
  if 971 <? e then S754_infinity s else S754_finite s (Z.to_pos m) e.

Definition round_ratio (s : bool) (n d : Z) : float64 :=
  if n =? 0 then S754_zero s
  else
    let e := last_place n d in
    let m := significand n d e in
    if m =? 0 then S754_zero s else encode s m e.

(** [m * 2 ^ e], rounded. *)
Definition round_dyadic (s : bool) (m e : Z) : float64 :=
  if 0 <=? e then round_ratio s (m * 2 ^ e) 1 else round_ratio s m (2 ^ (- e)).

(** [float64(z)] *)
Definition of_Z (z : Z) : float64 := round_ratio (z <? 0) (Z.abs z) 1.

(** ** Arithmetic *)

Definition fneg : float64 → float64 := SFopp.
Definition fabs : float64 → float64 := SFabs.

Definition fmul (x y : float64) : float64 :=
  match x, y with
  | S754_nan, _ | _, S754_nan => S754_nan
  | S754_infinity _, S754_zero _ | S754_zero _, S754_infinity _ => S754_nan
  | S754_infinity s, S754_infinity t | S754_infinity s, S754_finite t _ _
  | S754_finite s _ _, S754_infinity t => S754_infinity (xorb s t)
  | S754_zero s, S754_zero t | S754_zero s, S754_finite t _ _
  | S754_finite s _ _, S754_zero t => S754_zero (xorb s t)
  | S754_finite s m e, S754_finite t n f =>
      round_dyadic (xorb s t) (Z.pos m * Z.pos n) (e + f)
  end.

Definition fdiv (x y : float64) : float64 :=
  match x, y with
  | S754_nan, _ | _, S754_nan => S754_nan
  | S754_infinity _, S754_infinity _ | S754_zero _, S754_zero _ => S754_nan
  | S754_infinity s, S754_zero t | S754_infinity s, S754_finite t _ _
  | S754_finite s _ _, S754_zero t => S754_infinity (xorb s t)
  | S754_zero s, S754_infinity t | S754_zero s, S754_finite t _ _
  | S754_finite s _ _, S754_infinity t => S754_zero (xorb s t)
  | S754_finite s m e, S754_finite t n f =>
      let k := e - f in
      if 0 <=? k then round_ratio (xorb s t) (Z.pos m * 2 ^ k) (Z.pos n)
      else round_ratio (xorb s t) (Z.pos m) (Z.pos n * 2 ^ (- k))
  end.

Definition signed (s : bool) (m : positive) : Z := if s then Z.neg m else Z.pos m.

Definition fadd (x y : float64) : float64 :=
  match x, y with
  | S754_nan, _ | _, S754_nan => S754_nan
  | S754_infinity s, S754_infinity t =>
      if Bool.eqb s t then S754_infinity s else S754_nan
  | S754_infinity s, _ => S754_infinity s
  | _, S754_infinity t => S754_infinity t
  | S754_zero s, S754_zero t => S754_zero (s && t)
  | S754_zero _, _ => y
  | _, S754_zero _ => x
  | S754_finite s m e, S754_finite t n f =>
      let g := Z.min e f in
      let z := signed s m * 2 ^ (e - g) + signed t n * 2 ^ (f - g) in
      if z =? 0 then S754_zero false else round_dyadic (z <? 0) (Z.abs z) g
  end.

Definition fsub (x y : float64) : float64 := fadd x (fneg y).

(** ** Comparison: false when an operand is NaN *)

Definition feqb : float64 → float64 → bool := SFeqb.
Definition fltb : float64 → float64 → bool := SFltb.
Definition fleb : float64 → float64 → bool := SFleb.

Definition is_nan (x : float64) : bool := match x with S754_nan => true | _ => false end.

(** ** [math.Trunc] and [math.Round] *)

(** [int64(x)] of an integral [x]; truncates otherwise. *)
Definition to_Z (x : float64) : Z :=
  match x with
  | S754_finite s m e =>
      let a := if 0 <=? e then Z.pos m * 2 ^ e else Z.pos m / 2 ^ (- e) in
      if s then - a else a
  | _ => 0
  end.

Definition ftrunc (x : float64) : float64 :=
  match x with
  | S754_finite s m e =>
      if 0 <=? e then x else round_ratio s (Z.pos m / 2 ^ (- e)) 1
  | _ => x
  end.

(** Half-way cases go away from zero. *)
Definition fround (x : float64) : float64 :=
  match x with
  | S754_finite s m e =>
      if 0 <=? e then x
      else
        let d := 2 ^ (- e) in
        round_ratio s ((2 * Z.pos m + d) / (2 * d)) 1
  | _ => x
  end.

(** ** Scaled values *)

(** Well-formed finite or zero values, with the significand normalised as
    binary64 stores it: what rounding produces short of overflow. *)
Definition fin (x : float64) : Prop :=
  match x with
  | S754_zero _ => True
  | S754_finite _ m e =>
      Z.pos m < 2 ^ 53 ∧ -1074 ≤ e ≤ 971 ∧ (e = -1074 ∨ 2 ^ 52 ≤ Z.pos m)
  | _ => False
  end.

(** [x * 2 ^ 1074] *)
Definition sval (x : float64) : Z :=
  match x with
  | S754_finite s m e => signed s m * 2 ^ (e + 1074)
  | _ => 0
  end.

(** The magnitude of the rounded quotient, in units of [2 ^ -1074]. *)
Definition rscale (n d : Z) : Z :=
  let k := last_place n d + 1074 in rne (n * 2 ^ 1074) (d * 2 ^ k) * 2 ^ k.

(** Above this magnitude rounding overflows. *)
Definition fmax_scale : Z := 2 ^ 2098.

(** ** Integer rounding *)

Lemma rne_spec n d : 0 < d → 2 * n - d ≤ 2 * d * rne n d ≤ 2 * n + d.
Proof.
  intros Hd. unfold rne.
  pose proof (Z.div_mod n d ltac:(lia)). pose proof (Z.mod_pos_bound n d Hd).
  destruct (Z.compare_spec (2 * (n mod d)) d); [destruct (Z.even _)|..]; nia.
Qed.

Lemma rne_exact q d : 0 < d → rne (q * d) d = q.
Proof.
  intros Hd. unfold rne. rewrite Z.mod_mul, Z.div_mul by lia.
  destruct (Z.compare_spec (2 * 0) d); lia.
Qed.

Lemma rne_scale c n d : 0 < c → 0 < d → rne (c * n) (c * d) = rne n d.
Proof.
  intros Hc Hd. unfold rne.
  rewrite Z.div_mul_cancel_l by lia. rewrite Z.mul_mod_distr_l by lia.
  replace (2 * (c * (n mod d))) with (c * (2 * (n mod d))) by ring.
  replace (c * (2 * (n mod d)) ?= c * d) with (2 * (n mod d) ?= d); [done|].
  destruct (Z.compare_spec (2 * (n mod d)) d) as [H|H|H]; symmetry.
  - apply Z.compare_eq_iff. nia.
  - apply Z.compare_lt_iff. nia.
  - apply Z.compare_gt_iff. nia.
Qed.

(** A midpoint goes to the even neighbour. *)
Lemma rne_midpoint n d q c :
  0 < d → n = d * q + c → d = 2 * c → rne n d = if Z.even q then q else q + 1.
Proof.
  intros Hd Hn Hc. unfold rne.
  rewrite <- (Z.div_unique_pos n d q c), <- (Z.mod_unique_pos n d q c) by lia.
  by rewrite <- Hc, Z.compare_refl.
Qed.

(** Rounding respects the order of the quotients. *)
Lemma rne_mono n d n' d' :
  0 < d → 0 < d' → n * d' ≤ n' * d → rne n d ≤ rne n' d'.
Proof.
  intros Hd Hd' Hle.
  destruct (Z.le_gt_cases (rne n d) (rne n' d')) as [|Hgt]; [done|exfalso].
  pose proof (rne_spec n d Hd). pose proof (rne_spec n' d' Hd').
  (* both quotients are the midpoint, and ties go to the same even integer *)
  assert (Hmid : 2 * d * rne n d = 2 * n + d ∧ 2 * d' * rne n' d' = 2 * n' - d'
                 ∧ rne n d = rne n' d' + 1).
  { set (q := rne n d) in *. set (q' := rne n' d') in *.
    assert (H1 : d' * (2 * d * q) ≤ d' * (2 * n + d)) by (apply Z.mul_le_mono_nonneg_l; lia).
    assert (H2 : d * (2 * n' - d') ≤ d * (2 * d' * q')) by (apply Z.mul_le_mono_nonneg_l; lia).
    assert (Hq : d * d' * q ≤ d * d' * (q' + 1)) by lia.
    apply Z.mul_le_mono_pos_l in Hq; [|lia].
    assert (q = q' + 1) as Hqq by lia.
    assert (d' * (2 * d * q) = d' * (2 * n + d)) by (rewrite Hqq in *; lia).
    assert (d * (2 * n' - d') = d * (2 * d' * q')) by (rewrite Hqq in *; lia).
    split_and!; [apply (Z.mul_reg_l _ _ d')|apply (Z.mul_reg_l _ _ d)|]; lia. }
  destruct Hmid as (H1 & H2 & H3).
  set (q := rne n' d') in *.
  pose proof (rne_midpoint n d q (n - d * q) Hd ltac:(nia) ltac:(nia)).
  pose proof (rne_midpoint n' d' q (n' - d' * q) Hd' ltac:(nia) ltac:(nia)).
  unfold q in *. lia.
Qed.

(** ** The place of the last bit *)

Lemma pow2_pos k : 0 ≤ k → 0 < 2 ^ k.
Proof. intros. apply Z.pow_pos_nonneg; lia. Qed.

Lemma pow2_S k : 0 ≤ k → 2 ^ (k + 1) = 2 * 2 ^ k.
Proof. intros. rewrite Z.pow_add_r by lia. lia. Qed.

Lemma pow_le_spec k n d : 0 ≤ k + 1074 → 0 < d →
  pow_le k n d = true ↔ d * 2 ^ (k + 1074) ≤ n * 2 ^ 1074.
Proof.
  intros Hk Hd. unfold pow_le. destruct (Z.leb_spec 0 k).
  - rewrite Z.leb_le, Z.pow_add_r, Z.mul_assoc by lia.
    apply Z.mul_le_mono_pos_r, pow2_pos. lia.
  - rewrite Z.leb_le. replace 1074 with (- k + (k + 1074)) at 2 by lia.
    rewrite (Z.pow_add_r 2 (- k)), Z.mul_assoc by lia.
    apply Z.mul_le_mono_pos_r, pow2_pos. lia.
Qed.

(** The quotient of two positive numbers against their bit lengths. *)
Lemma log2_quotient n d :
  0 < n → 0 < d →
  let a := Z.log2 n - Z.log2 d in
  (∀ k, 0 ≤ k + 1074 → k ≤ a - 1 → d * 2 ^ (k + 1074) < n * 2 ^ 1074) ∧
  (∀ k, 0 ≤ k + 1074 → a + 1 ≤ k → n * 2 ^ 1074 < d * 2 ^ (k + 1074)).
Proof.
  intros Hn Hd a.
  pose proof (Z.log2_spec n Hn) as [Hn1 Hn2]. pose proof (Z.log2_spec d Hd) as [Hd1 Hd2].
  pose proof (Z.log2_nonneg n). pose proof (Z.log2_nonneg d).
  split; intros k Hk Hka.
  - apply Z.lt_le_trans with (2 ^ (Z.log2 d + 1) * 2 ^ (k + 1074)).
    + apply Z.mul_lt_mono_pos_r; [apply pow2_pos; lia|]. by rewrite Z.add_1_r.
    + rewrite <- Z.pow_add_r by lia.
      apply Z.le_trans with (2 ^ Z.log2 n * 2 ^ 1074).
      * rewrite <- Z.pow_add_r by lia. apply Z.pow_le_mono_r; lia.
      * apply Z.mul_le_mono_nonneg_r; [apply Z.pow_nonneg; lia|done].
  - apply Z.lt_le_trans with (2 ^ (Z.log2 n + 1) * 2 ^ 1074).
    + apply Z.mul_lt_mono_pos_r; [apply pow2_pos; lia|]. by rewrite Z.add_1_r.
    + rewrite <- Z.pow_add_r by lia.
      apply Z.le_trans with (2 ^ Z.log2 d * 2 ^ (k + 1074)).
      * rewrite <- Z.pow_add_r by lia. apply Z.pow_le_mono_r; lia.
      * apply Z.mul_le_mono_nonneg_r; [apply Z.pow_nonneg; lia|done].
Qed.

(** [last_place] is the least place, not below the subnormal one, at which
    the quotient has at most 53 bits. *)
Lemma last_place_spec n d :
  0 < n → 0 < d →
  let k := last_place n d + 1074 in
  0 ≤ k ∧ n * 2 ^ 1074 < d * 2 ^ (k + 53) ∧
  (0 < k → d * 2 ^ (k + 52) ≤ n * 2 ^ 1074).
Proof.
  intros Hn Hd k. destruct (log2_quotient n d Hn Hd) as [Hlo Hhi].
  unfold k, last_place. set (e := Z.log2 n - Z.log2 d - 53) in *. clear k.
  destruct (Z.le_gt_cases (-1074) (e + 53)) as [He|He].
  - pose proof (pow_le_spec (e + 53) n d ltac:(lia) Hd) as Hp.
    destruct (pow_le (e + 53) n d).
    + assert (Hge : d * 2 ^ (e + 53 + 1074) ≤ n * 2 ^ 1074) by by apply Hp.
      specialize (Hhi (e + 54) ltac:(lia) ltac:(lia)).
      destruct (Z.max_spec (e + 1) (-1074)) as [[? ->]|[? ->]].
      * split_and!; [lia| |lia].
        eapply Z.lt_le_trans; [exact Hhi|]. apply Z.mul_le_mono_nonneg_l; [lia|].
        apply Z.pow_le_mono_r; lia.
      * split_and!; [lia| |intros _].
        -- by replace (e + 1 + 1074 + 53) with (e + 54 + 1074) by lia.
        -- by replace (e + 1 + 1074 + 52) with (e + 53 + 1074) by lia.
    + assert (Hlt : n * 2 ^ 1074 < d * 2 ^ (e + 53 + 1074)).
      { apply Z.nle_gt. intros Hle. by apply Hp in Hle. }
      destruct (Z.max_spec e (-1074)) as [[? ->]|[? ->]].
      * split_and!; [lia| |lia].
        eapply Z.lt_le_trans; [exact Hlt|]. apply Z.mul_le_mono_nonneg_l; [lia|].
        apply Z.pow_le_mono_r; lia.
      * split_and!; [lia| |intros _].
        -- by replace (e + 1074 + 53) with (e + 53 + 1074) by lia.
        -- replace (e + 1074 + 52) with (e + 52 + 1074) by lia.
           apply Z.lt_le_incl, Hlo; lia.
  - (* far below the subnormal numbers *)
    rewrite (Z.max_r _ (-1074)) by (case_match; lia).
    split_and!; [lia| |lia].
    specialize (Hhi (-1074 + 53) ltac:(lia) ltac:(lia)).
    by replace (-1074 + 1074 + 53) with (-1074 + 53 + 1074) by lia.
Qed.

Lemma significand_scale n d :
  0 < n → 0 < d →
  significand n d (last_place n d)
  = rne (n * 2 ^ 1074) (d * 2 ^ (last_place n d + 1074)).
Proof.
  intros Hn Hd. pose proof (last_place_spec n d Hn Hd) as (Hk & _ & _).
  unfold significand. set (e := last_place n d) in *. destruct (Z.leb_spec 0 e).
  - rewrite <- (rne_scale (2 ^ 1074)) by
      (first [apply pow2_pos; lia | apply Z.mul_pos_pos; [lia|apply pow2_pos; lia]]).
    rewrite Z.pow_add_r by lia. f_equal; ring.
  - rewrite <- (rne_scale (2 ^ (e + 1074))) by (first [apply pow2_pos; lia | lia]).
    f_equal; [|ring]. replace 1074 with (- e + (e + 1074)) at 2 by lia.
    rewrite (Z.pow_add_r 2 (- e)) by lia. ring.
Qed.

(** ** Scaled rounding *)

Lemma rscale_pos_lo n d :
  0 < n → 0 < d → 0 < last_place n d + 1074 →
  2 ^ 52 ≤ rne (n * 2 ^ 1074) (d * 2 ^ (last_place n d + 1074)).
Proof.
  intros Hn Hd Hk. pose proof (last_place_spec n d Hn Hd) as (_ & _ & Hlo).
  specialize (Hlo Hk). set (k := last_place n d + 1074) in *.
  rewrite <- (rne_exact (2 ^ 52) (d * 2 ^ k)) at 1 by (apply Z.mul_pos_pos; [lia|apply pow2_pos; lia]).
  apply rne_mono; [apply Z.mul_pos_pos; [lia|apply pow2_pos; lia]..|].
  apply Z.mul_le_mono_nonneg_r; [apply Z.mul_nonneg_nonneg; [lia|apply Z.pow_nonneg; lia]|].
  rewrite Z.pow_add_r in Hlo by lia. etrans; [|exact Hlo]. apply Z.eq_le_incl. ring.
Qed.

Lemma rscale_hi n d :
  0 < n → 0 < d →
  rne (n * 2 ^ 1074) (d * 2 ^ (last_place n d + 1074)) ≤ 2 ^ 53.
Proof.
  intros Hn Hd. pose proof (last_place_spec n d Hn Hd) as (Hk & Hhi & _).
  set (k := last_place n d + 1074) in *.
  rewrite <- (rne_exact (2 ^ 53) (d * 2 ^ k)) by (apply Z.mul_pos_pos; [lia|apply pow2_pos; lia]).
  apply rne_mono; [apply Z.mul_pos_pos; [lia|apply pow2_pos; lia]..|].
  apply Z.mul_le_mono_nonneg_r; [apply Z.mul_nonneg_nonneg; [lia|apply Z.pow_nonneg; lia]|].
  rewrite Z.pow_add_r in Hhi by lia. etrans; [apply Z.lt_le_incl, Hhi|]. apply Z.eq_le_incl. ring.
Qed.

Lemma rscale_nonneg n d : 0 ≤ n → 0 < d → 0 ≤ last_place n d + 1074 → 0 ≤ rscale n d.
Proof.
  intros Hn Hd Hk. unfold rscale. apply Z.mul_nonneg_nonneg; [|apply Z.pow_nonneg; lia].
  assert (Hp : 0 < d * 2 ^ (last_place n d + 1074))
    by (apply Z.mul_pos_pos; [lia|apply pow2_pos; lia]).
  rewrite <- (rne_exact 0 (d * 2 ^ (last_place n d + 1074))) by done.
  apply rne_mono; [done..|].
  apply Z.mul_le_mono_nonneg_r; [lia|]. apply Z.mul_nonneg_nonneg; [lia|apply Z.pow_nonneg; lia].
Qed.

(** Rounding is monotone. *)
Lemma rscale_mono n d n' d' :
  0 < n → 0 < d → 0 < n' → 0 < d' → n * d' ≤ n' * d → rscale n d ≤ rscale n' d'.
Proof.
  intros Hn Hd Hn' Hd' Hle. unfold rscale.
  pose proof (last_place_spec n d Hn Hd) as (Hk & Hhi & Hlo).
  pose proof (last_place_spec n' d' Hn' Hd') as (Hk' & Hhi' & Hlo').
  pose proof (rscale_hi n d Hn Hd) as Hr. pose proof (rscale_pos_lo n' d' Hn' Hd') as Hr'.
  set (k := last_place n d + 1074) in *. set (k' := last_place n' d' + 1074) in *.
  set (U := 2 ^ 1074) in *. assert (HU : 0 < U) by (apply pow2_pos; lia).
  destruct (Z.lt_trichotomy k k') as [Hlt|[Heq|Hgt]].
  - apply Z.le_trans with (2 ^ 53 * 2 ^ k);
      [apply Z.mul_le_mono_nonneg_r; [apply Z.pow_nonneg; lia|done]|].
    apply Z.le_trans with (2 ^ 52 * 2 ^ k').
    + rewrite <- !Z.pow_add_r by lia. apply Z.pow_le_mono_r; lia.
    + apply Z.mul_le_mono_nonneg_r; [apply Z.pow_nonneg; lia|]. apply Hr'. lia.
  - rewrite <- Heq. apply Z.mul_le_mono_nonneg_r; [apply Z.pow_nonneg; lia|].
    assert (0 < 2 ^ k) by (apply pow2_pos; lia).
    apply rne_mono; [apply Z.mul_pos_pos; lia..|].
    replace (n * U * (d' * 2 ^ k)) with ((n * d') * (U * 2 ^ k)) by ring.
    replace (n' * U * (d * 2 ^ k)) with ((n' * d) * (U * 2 ^ k)) by ring.
    apply Z.mul_le_mono_nonneg_r; [apply Z.mul_nonneg_nonneg; lia|done].
  - exfalso. specialize (Hlo ltac:(lia)).
    assert (2 ^ (k' + 53) ≤ 2 ^ (k + 52)) by (apply Z.pow_le_mono_r; lia).
    assert (0 < 2 ^ (k' + 53)) by (apply pow2_pos; lia).
    set (P := 2 ^ (k + 52)) in *. set (P' := 2 ^ (k' + 53)) in *.
    assert (d' * (d * P) ≤ d' * (n * U)) by (apply Z.mul_le_mono_nonneg_l; lia).
    assert (d * (n' * U) < d * (d' * P')) by (apply Z.mul_lt_mono_pos_l; lia).
    assert (n * d' * U ≤ n' * d * U) by (apply Z.mul_le_mono_nonneg_r; lia).
    assert (d * d' * P' ≤ d * d' * P) by (apply Z.mul_le_mono_nonneg_l; [apply Z.mul_nonneg_nonneg; lia|lia]).
    lia.
Qed.

(** A representable quotient is its own rounding. *)
Lemma rscale_exact n d m j :
  0 < n → 0 < d → 0 ≤ m ≤ 2 ^ 53 → 0 ≤ j →
  n * 2 ^ 1074 = m * 2 ^ j * d → rscale n d = m * 2 ^ j.
Proof.
  intros Hn Hd Hm Hj Heq. unfold rscale.
  pose proof (last_place_spec n d Hn Hd) as (Hk & Hhi & Hlo).
  set (k := last_place n d + 1074) in *. set (U := 2 ^ 1074) in *.
  assert (Hpk : 0 < 2 ^ k) by (apply pow2_pos; lia).
  assert (Hkj : k ≤ j ∨ (m = 2 ^ 53 ∧ k = j + 1)).
  { destruct (Z.le_gt_cases k j) as [|Hgt]; [by left|right].
    specialize (Hlo ltac:(lia)). rewrite Heq in Hlo.
    assert (Hle : 2 ^ (k + 52) ≤ m * 2 ^ j) by (apply (Z.mul_le_mono_pos_l _ _ d); lia).
    assert (Hle2 : m * 2 ^ j ≤ 2 ^ 53 * 2 ^ j)
      by (apply Z.mul_le_mono_nonneg_r; [apply Z.pow_nonneg; lia|lia]).
    rewrite <- Z.pow_add_r in Hle2 by lia.
    assert (Hkj : k + 52 ≤ 53 + j) by (apply (Z.pow_le_mono_r_iff 2); lia).
    assert (k = j + 1) as -> by lia. split; [|done].
    replace (j + 1 + 52) with (53 + j) in Hle by lia. rewrite Z.pow_add_r in Hle by lia.
    apply Z.mul_le_mono_pos_r in Hle; [lia|apply pow2_pos; lia]. }
  rewrite Heq. destruct Hkj as [Hkj|[-> ->]].
  - replace (m * 2 ^ j * d) with (m * 2 ^ (j - k) * (d * 2 ^ k)).
    + rewrite rne_exact by (apply Z.mul_pos_pos; lia).
      rewrite <- Z.mul_assoc, <- Z.pow_add_r by lia. do 2 f_equal. lia.
    + replace (2 ^ j) with (2 ^ (j - k) * 2 ^ k); [ring|].
      rewrite <- Z.pow_add_r by lia. f_equal. lia.
  - replace (2 ^ 53 * 2 ^ j * d) with (2 ^ 52 * (d * 2 ^ (j + 1))).
    + rewrite rne_exact by (apply Z.mul_pos_pos; lia).
      rewrite Z.pow_add_r by lia. lia.
    + rewrite Z.pow_add_r by lia. ring.
Qed.

Lemma rscale_0 d : 0 < d → 0 ≤ last_place 0 d + 1074 → rscale 0 d = 0.
Proof.
  intros Hd Hk. unfold rscale.
  assert (HD : 0 < d * 2 ^ (last_place 0 d + 1074))
    by (apply Z.mul_pos_pos; [lia|apply pow2_pos; lia]).
  pose proof (rne_exact 0 _ HD) as Hr. rewrite Z.mul_0_l in *. by rewrite Hr.
Qed.

Lemma last_place_ge n d : -1074 ≤ last_place n d.
Proof. apply Z.le_max_r. Qed.

Lemma rscale_zero d : 0 < d → rscale 0 d = 0.
Proof. intros. apply rscale_0; [done|]. pose proof (last_place_ge 0 d). lia. Qed.

Lemma rscale_ge_0 n d : 0 ≤ n → 0 < d → 0 ≤ rscale n d.
Proof. intros. apply rscale_nonneg; [done..|]. pose proof (last_place_ge n d). lia. Qed.

Lemma rscale_le n d n' d' :
  0 ≤ n → 0 < d → 0 ≤ n' → 0 < d' → n * d' ≤ n' * d → rscale n d ≤ rscale n' d'.
Proof.
  intros Hn Hd Hn' Hd' Hle. destruct (Z.eq_dec n 0) as [->|].
  { rewrite rscale_zero by done. by apply rscale_ge_0. }
  assert (0 < n * d') by (apply Z.mul_pos_pos; lia).
  destruct (Z.eq_dec n' 0) as [->|]; [lia|]. apply rscale_mono; lia.
Qed.

(** Rounding sees the quotient only. *)
Lemma rscale_ext n d n' d' :
  0 ≤ n → 0 < d → 0 ≤ n' → 0 < d' → n * d' = n' * d → rscale n d = rscale n' d'.
Proof. intros. apply Z.le_antisymm; apply rscale_le; lia. Qed.

(** A quotient of at most a representable number rounds to at most it. *)
Lemma rscale_le_rep n d m j :
  0 ≤ n → 0 < d → 0 ≤ m ≤ 2 ^ 53 → 0 ≤ j →
  n * 2 ^ 1074 ≤ m * 2 ^ j * d → rscale n d ≤ m * 2 ^ j.
Proof.
  intros Hn Hd Hm Hj Hle. assert (0 < 2 ^ j) by (by apply pow2_pos).
  assert (0 < 2 ^ 1074) by (apply pow2_pos; lia).
  destruct (Z.eq_dec m 0) as [->|Hm0].
  { destruct (Z.eq_dec n 0) as [->|]; [rewrite rscale_zero by done; lia|].
    assert (0 < n * 2 ^ 1074) by (apply Z.mul_pos_pos; lia). lia. }
  assert (0 < m * 2 ^ j) by (apply Z.mul_pos_pos; lia).
  rewrite <- (rscale_exact (m * 2 ^ j) (2 ^ 1074) m j) by lia.
  apply rscale_le; lia.
Qed.

(** ** The rounded numbers *)

Definition sgn (s : bool) (z : Z) : Z := if s then - z else z.

Lemma sval_signed s m e : sval (S754_finite s m e) = sgn s (Z.pos m * 2 ^ (e + 1074)).
Proof. unfold sval, signed, sgn. destruct s; lia. Qed.

Lemma encode_spec s m e :
  0 < m ≤ 2 ^ 53 → -1074 ≤ e → (-1074 < e → 2 ^ 52 ≤ m) →
  m * 2 ^ (e + 1074) < fmax_scale →
  fin (encode s m e) ∧ sval (encode s m e) = sgn s (m * 2 ^ (e + 1074)).
Proof.
  intros Hm He Hn Hlt. unfold encode, fmax_scale in *.
  destruct (Z.eqb_spec m (2 ^ 53)) as [->|Hm53].
  - rewrite <- Z.pow_add_r in Hlt by lia.
    apply Z.pow_lt_mono_r_iff in Hlt; [|lia..].
    destruct (Z.ltb_spec 971 (e + 1)); [lia|].
    rewrite sval_signed, Z2Pos.id by lia. split.
    + split_and!; lia.
    + f_equal. replace (e + 1 + 1074) with (1 + (e + 1074)) by lia.
      rewrite (Z.pow_add_r 2 1) by lia. lia.
  - destruct (Z.ltb_spec 971 e).
    + exfalso. specialize (Hn ltac:(lia)).
      assert (2 ^ 52 * 2 ^ (e + 1074) ≤ m * 2 ^ (e + 1074))
        by (apply Z.mul_le_mono_nonneg_r; [apply Z.pow_nonneg; lia|lia]).
      rewrite <- Z.pow_add_r in * by lia.
      assert (2 ^ 2098 ≤ 2 ^ (52 + (e + 1074))) by (apply Z.pow_le_mono_r; lia). lia.
    + rewrite sval_signed, Z2Pos.id by lia. split; [|done].
      destruct (Z.eq_dec e (-1074)); split_and!; lia.
Qed.

Lemma round_ratio_spec s n d :
  0 ≤ n → 0 < d → rscale n d < fmax_scale →
  fin (round_ratio s n d) ∧ sval (round_ratio s n d) = sgn s (rscale n d).
Proof.
  intros Hn Hd Hlt. unfold round_ratio.
  destruct (Z.eqb_spec n 0) as [->|Hn0].
  { rewrite rscale_zero by done. split; [done|]. by destruct s. }
  rewrite significand_scale by lia.
  pose proof (last_place_ge n d). pose proof (rscale_hi n d ltac:(lia) Hd) as Hhi.
  pose proof (rscale_ge_0 n d Hn Hd) as H0. pose proof (rscale_pos_lo n d ltac:(lia) Hd) as Hlo.
  unfold rscale in *. set (m := rne _ _) in *.
  assert (0 < 2 ^ (last_place n d + 1074)) by (apply pow2_pos; lia).
  assert (0 ≤ m) by (apply (Z.mul_le_mono_pos_r 0 m (2 ^ (last_place n d + 1074))); lia).
  destruct (Z.eqb_spec m 0) as [->|].
  { split; [done|]. by destruct s. }
  apply encode_spec; [lia|lia| |done]. intros. apply Hlo. lia.
Qed.

(** Overflow gives an infinity, never a NaN; the sign is the operand's. *)
Lemma encode_abs s t m e : fabs (encode s m e) = fabs (encode t m e).
Proof. unfold encode. by repeat case_match. Qed.

Lemma round_ratio_abs s t n d : fabs (round_ratio s n d) = fabs (round_ratio t n d).
Proof. unfold round_ratio. repeat case_match; [done..|]. apply encode_abs. Qed.

Lemma round_dyadic_abs s t m e : fabs (round_dyadic s m e) = fabs (round_dyadic t m e).
Proof. unfold round_dyadic. case_match; apply round_ratio_abs. Qed.

Lemma round_ratio_not_nan s n d : is_nan (round_ratio s n d) = false.
Proof. unfold round_ratio, encode. by repeat case_match. Qed.

Lemma round_dyadic_not_nan s m e : is_nan (round_dyadic s m e) = false.
Proof. unfold round_dyadic. case_match; apply round_ratio_not_nan. Qed.

(** ** Integers *)

Lemma of_Z_spec z :
  Z.abs z ≤ 2 ^ 53 → fin (of_Z z) ∧ sval (of_Z z) = z * 2 ^ 1074.
Proof.
  intros Hz. unfold of_Z.
  assert (Hr : rscale (Z.abs z) 1 = Z.abs z * 2 ^ 1074).
  { destruct (Z.eq_dec z 0) as [->|]; [by rewrite rscale_zero|].
    apply rscale_exact; lia. }
  assert (Hlt : rscale (Z.abs z) 1 < fmax_scale).
  { rewrite Hr. unfold fmax_scale. replace 2098 with (1024 + 1074) by lia.
    rewrite (Z.pow_add_r 2 1024) by lia.
    apply Z.mul_lt_mono_pos_r; [apply pow2_pos; lia|].
    apply Z.le_lt_trans with (2 ^ 53); [done|]. apply Z.pow_lt_mono_r; lia. }
  destruct (round_ratio_spec (z <? 0) (Z.abs z) 1) as [Hf Hs]; [lia..|].
  split; [done|]. rewrite Hs, Hr. unfold sgn. destruct (Z.ltb_spec z 0); lia.
Qed.

(** ** Arithmetic on non-negative numbers *)

Definition nneg (x : float64) : Prop := fin x ∧ 0 ≤ sval x.

Lemma nneg_cases x :
  nneg x → (∃ s, x = S754_zero s) ∨ (∃ m e, x = S754_finite false m e ∧ fin x).
Proof.
  intros [Hf Hs]. destruct x as [s|s| |s m e]; simpl in *; try done; [by left; eexists|].
  right. destruct s; [|by repeat eexists; apply Hf].
  exfalso. destruct Hf as (_ & ? & _).
  assert (0 < Z.pos m * 2 ^ (e + 1074)) by (apply Z.mul_pos_pos; [lia|apply pow2_pos; lia]).
  simpl in Hs. lia.
Qed.

Lemma nneg_round s n d :
  s = false ∨ rscale n d = 0 → 0 ≤ n → 0 < d → rscale n d < fmax_scale →
  nneg (round_ratio s n d) ∧ sval (round_ratio s n d) = rscale n d.
Proof.
  intros Hs Hn Hd Hlt. destruct (round_ratio_spec s n d Hn Hd Hlt) as [Hf Hv].
  pose proof (rscale_ge_0 n d Hn Hd). unfold nneg. rewrite Hv.
  destruct Hs as [->| ->]; simpl; [done|]. by destruct s.
Qed.

Lemma sval_pos m e : -1074 ≤ e → 0 < sval (S754_finite false m e).
Proof. intros. apply Z.mul_pos_pos; [done|apply pow2_pos; lia]. Qed.

Lemma round_dyadic_nneg m e :
  0 ≤ m → -2148 ≤ e → rscale (m * 2 ^ (e + 2148)) (2 ^ 2148) < fmax_scale →
  nneg (round_dyadic false m e) ∧
  sval (round_dyadic false m e) = rscale (m * 2 ^ (e + 2148)) (2 ^ 2148).
Proof.
  intros Hm He Hlt. unfold round_dyadic.
  assert (0 < 2 ^ 2148) by (apply pow2_pos; lia).
  assert (0 ≤ 2 ^ (e + 2148)) by (apply Z.pow_nonneg; lia).
  assert (0 ≤ m * 2 ^ (e + 2148)) by (apply Z.mul_nonneg_nonneg; lia).
  destruct (Z.leb_spec 0 e).
  - assert (0 ≤ m * 2 ^ e) by (apply Z.mul_nonneg_nonneg; [lia|apply Z.pow_nonneg; lia]).
    assert (Hx : rscale (m * 2 ^ e) 1 = rscale (m * 2 ^ (e + 2148)) (2 ^ 2148)).
    { apply rscale_ext; try lia. rewrite Z.pow_add_r by lia. ring. }
    rewrite <- Hx in *. apply nneg_round; [by left|lia..].
  - assert (0 < 2 ^ (- e)) by (apply pow2_pos; lia).
    assert (Hx : rscale m (2 ^ (- e)) = rscale (m * 2 ^ (e + 2148)) (2 ^ 2148)).
    { apply rscale_ext; try lia. replace 2148 with ((e + 2148) + - e) at 1 by lia.
      rewrite Z.pow_add_r by lia. ring. }
    rewrite <- Hx in *. apply nneg_round; [by left|lia..].
Qed.

Lemma fmul_spec x y :
  nneg x → nneg y → rscale (sval x * sval y) (2 ^ 2148) < fmax_scale →
  nneg (fmul x y) ∧ sval (fmul x y) = rscale (sval x * sval y) (2 ^ 2148).
Proof.
  intros Hx Hy Hlt.
  assert (0 < 2 ^ 2148) by (apply pow2_pos; lia).
  destruct (nneg_cases x Hx) as [[s ->]|(m & e & -> & Hfx)];
    destruct (nneg_cases y Hy) as [[t ->]|(n & f & -> & Hfy)]; simpl fmul;
    try (simpl sval; rewrite ?Z.mul_0_l, ?Z.mul_0_r, rscale_zero by done; done).
  simpl in Hfx, Hfy.
  assert (Hs : sval (S754_finite false m e) * sval (S754_finite false n f)
               = Z.pos m * Z.pos n * 2 ^ (e + f + 2148)).
  { replace (e + f + 2148) with ((e + 1074) + (f + 1074)) by lia.
    rewrite (Z.pow_add_r 2 (e + 1074)) by lia. simpl sval. ring. }
  rewrite Hs in *. apply round_dyadic_nneg; [lia|lia|done].
Qed.

Lemma fdiv_spec x y :
  nneg x → nneg y → 0 < sval y → rscale (sval x) (sval y) < fmax_scale →
  nneg (fdiv x y) ∧ sval (fdiv x y) = rscale (sval x) (sval y).
Proof.
  intros Hx Hy Hpos Hlt.
  destruct (nneg_cases y Hy) as [[t ->]|(n & f & -> & Hfy)]; [done|].
  destruct (nneg_cases x Hx) as [[s ->]|(m & e & -> & Hfx)]; simpl fdiv.
  { simpl sval at 2. by rewrite rscale_zero. }
  simpl in Hfx, Hfy. pose proof (sval_pos m e ltac:(lia)).
  assert (0 < 2 ^ (e + 1074)) by (apply pow2_pos; lia).
  assert (0 < 2 ^ (f + 1074)) by (apply pow2_pos; lia).
  destruct (Z.leb_spec 0 (e - f)).
  - assert (0 < 2 ^ (e - f)) by (apply pow2_pos; lia).
    assert (Hr : rscale (Z.pos m * 2 ^ (e - f)) (Z.pos n)
             = rscale (sval (S754_finite false m e)) (sval (S754_finite false n f))).
    { apply rscale_ext; [lia..|]. simpl sval.
      replace (e + 1074) with ((e - f) + (f + 1074)) by lia.
      rewrite (Z.pow_add_r 2 (e - f)) by lia. ring. }
    rewrite <- Hr in *. apply nneg_round; [by left|lia..].
  - assert (0 < 2 ^ (- (e - f))) by (apply pow2_pos; lia).
    assert (Hr : rscale (Z.pos m) (Z.pos n * 2 ^ (- (e - f)))
             = rscale (sval (S754_finite false m e)) (sval (S754_finite false n f))).
    { apply rscale_ext; [lia..|]. simpl sval.
      replace (f + 1074) with (- (e - f) + (e + 1074)) by lia.
      rewrite (Z.pow_add_r 2 (- (e - f))) by lia. ring. }
    rewrite <- Hr in *. apply nneg_round; [by left|lia..].
Qed.

(** Integers up to 2^53 are representable. *)
Lemma round_int_spec q :
  0 ≤ q ≤ 2 ^ 53 → nneg (round_ratio false q 1) ∧ sval (round_ratio false q 1) = q * 2 ^ 1074.
Proof.
  intros Hq. pose proof (of_Z_spec q ltac:(lia)) as [Hf Hs]. unfold of_Z in *.
  rewrite Z.abs_eq in * by lia. destruct (Z.ltb_spec q 0); [lia|].
  split; [split; [done|]|done]. rewrite Hs. apply Z.mul_nonneg_nonneg; [lia|].
  apply Z.pow_nonneg. lia.
Qed.

(** [math.Round] on a non-negative number: the nearest integer. *)
Lemma fround_spec x :
  nneg x →
  nneg (fround x) ∧
  sval (fround x) = (2 * sval x + 2 ^ 1074) / (2 * 2 ^ 1074) * 2 ^ 1074.
Proof.
  intros Hx. destruct (nneg_cases x Hx) as [[s ->]|(m & e & -> & Hf)].
  { split; [done|]. simpl sval. rewrite Z.div_small; [lia|].
    assert (0 < 2 ^ 1074) by (apply pow2_pos; lia). lia. }
  simpl in Hf. simpl fround. assert (HU : 0 < 2 ^ 1074) by (apply pow2_pos; lia).
  destruct (Z.leb_spec 0 e).
  - split; [done|]. simpl sval.
    assert (Hpe : 0 < 2 ^ e) by (apply pow2_pos; lia).
    rewrite (Z.pow_add_r 2 e) by lia. set (U := 2 ^ 1074) in *.
    assert (Hq : Z.pos m * 2 ^ e = (2 * (Z.pos m * (2 ^ e * U)) + U) / (2 * U))
      by (apply (Z.div_unique_pos _ _ _ U); lia).
    rewrite <- Hq. ring.
  - assert (Hpe : 0 < 2 ^ (- e)) by (apply pow2_pos; lia).
    assert (Hpe' : 0 < 2 ^ (e + 1074)) by (apply pow2_pos; lia).
    set (q := (2 * Z.pos m + 2 ^ (- e)) / (2 * 2 ^ (- e))).
    assert (Hq : 0 ≤ q ≤ 2 ^ 53).
    { unfold q. split; [apply Z.div_pos; lia|].
      apply Z.div_le_upper_bound; [lia|].
      assert (1 * 2 ^ 53 ≤ 2 ^ (- e) * 2 ^ 53) by (apply Z.mul_le_mono_nonneg_r; lia).
      lia. }
    destruct (round_int_spec q Hq) as [Hn Hs]. split; [done|]. rewrite Hs. f_equal.
    unfold q. simpl sval. replace 1074 with (- e + (e + 1074)) at 2 3 by lia.
    rewrite (Z.pow_add_r 2 (- e)) by lia. set (P := 2 ^ (e + 1074)) in *.
    replace (2 * (Z.pos m * P) + 2 ^ (- e) * P) with ((2 * Z.pos m + 2 ^ (- e)) * P) by ring.
    replace (2 * (2 ^ (- e) * P)) with (2 * 2 ^ (- e) * P) by ring.
    by rewrite Z.div_mul_cancel_r by lia.
Qed.

(** ** Comparison *)

Lemma sval_lt_exp m e n f :
  fin (S754_finite false m e) → fin (S754_finite false n f) → e < f →
  sval (S754_finite false m e) < sval (S754_finite false n f).
Proof.
  simpl. intros (Hm & He & _) (Hn & Hf & Hc) Hef.
  assert (Hn' : 2 ^ 52 ≤ Z.pos n) by lia.
  apply Z.lt_le_trans with (2 ^ 53 * 2 ^ (e + 1074)).
  - apply Z.mul_lt_mono_pos_r; [apply pow2_pos; lia|done].
  - apply Z.le_trans with (2 ^ 52 * 2 ^ (f + 1074)).
    + rewrite <- !Z.pow_add_r by lia. apply Z.pow_le_mono_r; lia.
    + apply Z.mul_le_mono_nonneg_r; [apply Z.pow_nonneg; lia|done].
Qed.

Lemma pos_compare_scaled m n k :
  0 ≤ k → Pos.compare m n = (Z.pos m * 2 ^ k ?= Z.pos n * 2 ^ k).
Proof.
  intros Hk. pose proof (pow2_pos k Hk).
  change (Pos.compare m n) with (Z.pos m ?= Z.pos n).
  by rewrite <- Zmult_compare_compat_r by lia.
Qed.

Lemma sval_opp s m e : sval (S754_finite (negb s) m e) = - sval (S754_finite s m e).
Proof. rewrite !sval_signed. destruct s; simpl; lia. Qed.

(** The comparison of two positive significands with exponents. *)
Lemma mantissa_compare m e n f :
  fin (S754_finite false m e) → fin (S754_finite false n f) →
  (match e ?= f with Eq => Pos.compare_cont Eq m n | c => c end)
  = (sval (S754_finite false m e) ?= sval (S754_finite false n f)).
Proof.
  intros Hx Hy. destruct (Z.compare_spec e f) as [->|Hlt|Hgt].
  - simpl in Hx. apply pos_compare_scaled. lia.
  - symmetry. apply Z.compare_lt_iff, sval_lt_exp; done.
  - symmetry. apply Z.compare_gt_iff, sval_lt_exp; done.
Qed.

Lemma fin_opp s m e : fin (S754_finite s m e) → fin (S754_finite (negb s) m e).
Proof. done. Qed.

Lemma fcompare_spec x y : fin x → fin y → SFcompare x y = Some (sval x ?= sval y).
Proof.
  intros Hx Hy. destruct x as [s|s| |s m e]; try done; destruct y as [t|t| |t n f]; try done.
  - simpl in Hy. pose proof (sval_pos n f ltac:(lia)). simpl SFcompare. f_equal.
    change (sval (S754_zero s)) with 0.
    destruct t; [rewrite (sval_opp false)|]; symmetry;
      [apply Z.compare_gt_iff|apply Z.compare_lt_iff]; lia.
  - simpl in Hx. pose proof (sval_pos m e ltac:(lia)). simpl SFcompare. f_equal.
    change (sval (S754_zero t)) with 0.
    destruct s; [rewrite (sval_opp false)|]; symmetry;
      [apply Z.compare_lt_iff|apply Z.compare_gt_iff]; lia.
  - pose proof (mantissa_compare m e n f Hx Hy) as HC.
    pose proof Hx as Hx'. pose proof Hy as Hy'. simpl in Hx', Hy'.
    pose proof (sval_pos m e ltac:(lia)). pose proof (sval_pos n f ltac:(lia)).
    unfold SFcompare. destruct s, t; f_equal.
    + rewrite !(sval_opp false), Z.compare_opp,
        (Z.compare_antisym (sval (S754_finite false m e))), <- HC.
      by destruct (e ?= f).
    + rewrite (sval_opp false). symmetry. apply Z.compare_lt_iff. lia.
    + rewrite (sval_opp false). symmetry. apply Z.compare_gt_iff. lia.
    + exact HC.
Qed.

Lemma fleb_spec x y : fin x → fin y → fleb x y = (sval x <=? sval y).
Proof.
  intros Hx Hy. unfold fleb, SFleb, Z.leb. rewrite fcompare_spec by done.
  by destruct (sval x ?= sval y).
Qed.

Lemma fltb_spec x y : fin x → fin y → fltb x y = (sval x <? sval y).
Proof.
  intros Hx Hy. unfold fltb, SFltb, Z.ltb. rewrite fcompare_spec by done.
  by destruct (sval x ?= sval y).
Qed.

(** ** Subtraction *)

Lemma feqb_spec x y : fin x → fin y → feqb x y = (sval x =? sval y).
Proof.
  intros Hx Hy. unfold feqb, SFeqb. rewrite fcompare_spec by done.
  destruct (Z.compare_spec (sval x) (sval y)), (Z.eqb_spec (sval x) (sval y)); lia || done.
Qed.

Lemma fsub_diag s m e : fsub (S754_finite s m e) (S754_finite s m e) = S754_zero false.
Proof.
  unfold fsub, fneg. simpl. rewrite Z.min_id, Z.sub_diag.
  replace (signed s m * 2 ^ 0 + signed (negb s) m * 2 ^ 0) with 0; [done|].
  by destruct s; simpl; lia.
Qed.

Lemma fabs_fneg x : fabs (fneg x) = fabs x.
Proof. by destruct x. Qed.

(** |x - y| = |y - x| *)
Lemma fabs_fsub_sym x y : fabs (fsub x y) = fabs (fsub y x).
Proof.
  destruct x as [s|s| |s m e], y as [t|t| |t n f]; try done; try by destruct s, t.
  unfold fsub, fneg. simpl. rewrite (Z.min_comm f e).
  set (g := Z.min e f).
  replace (signed t n * 2 ^ (f - g) + signed (negb s) m * 2 ^ (e - g))
    with (- (signed s m * 2 ^ (e - g) + signed (negb t) n * 2 ^ (f - g)))
    by (destruct s, t; simpl; lia).
  set (z := signed s m * 2 ^ (e - g) + signed (negb t) n * 2 ^ (f - g)).
  destruct (Z.eqb_spec z 0) as [->|Hz]; [done|].
  destruct (Z.eqb_spec (- z) 0); [lia|].
  rewrite Z.abs_opp. apply round_dyadic_abs.
Qed.

Create HintDb float discriminated.
#[export] Hint Resolve rscale_ge_0 rscale_zero pow2_pos last_place_ge : float.

(** [<] is irreflexive and transitive on all values, NaN included. *)
Lemma fltb_irrefl x : fltb x x = false.
Proof.
  destruct x as [[]|[]| |[] m e]; try done; unfold fltb, SFltb; simpl;
    by rewrite Z.compare_refl, Pos.compare_cont_refl.
Qed.

Lemma lex_lt e f m n :
  match e ?= f with Lt => Lt | Gt => Gt | Eq => Pos.compare_cont Eq m n end = Lt ↔
  e < f ∨ (e = f ∧ (m < n)%positive).
Proof.
  destruct (Z.compare_spec e f) as [->|H|H].
  - change (Pos.compare_cont Eq m n) with (Pos.compare m n). rewrite Pos.compare_lt_iff. lia.
  - split; [by left|done].
  - split; [done|lia].
Qed.

Lemma lex_gt e f m n :
  match e ?= f with Lt => Gt | Gt => Lt | Eq => CompOpp (Pos.compare_cont Eq m n) end = Lt ↔
  f < e ∨ (e = f ∧ (n < m)%positive).
Proof.
  destruct (Z.compare_spec e f) as [->|H|H].
  - change (Pos.compare_cont Eq m n) with (Pos.compare m n). rewrite <- Pos.compare_antisym.
    rewrite Pos.compare_lt_iff. lia.
  - split; [done|lia].
  - split; [by left|done].
Qed.

Lemma fltb_lt x y : fltb x y = true ↔ SFcompare x y = Some Lt.
Proof. unfold fltb, SFltb. by destruct (SFcompare x y) as [[]|]. Qed.

Lemma fltb_trans x y z : fltb x y = true → fltb y z = true → fltb x z = true.
Proof.
  rewrite !fltb_lt. destruct x as [sx|[]| |[] mx ex], y as [sy|[]| |[] my ey], z as [sz|[]| |[] mz ez];
    try done; simpl; intros H1 H2;
    injection H1 as H1; injection H2 as H2; f_equal;
    rewrite ?lex_lt, ?lex_gt in *; lia.
Qed.

(** ** Sums *)

Lemma fadd_spec x y :
  nneg x → nneg y → rscale (sval x + sval y) (2 ^ 1074) < fmax_scale →
  0 < sval x → 0 < sval y →
  nneg (fadd x y) ∧ sval (fadd x y) = rscale (sval x + sval y) (2 ^ 1074).
Proof.
  intros Hx Hy Hlt Hpx Hpy.
  destruct (nneg_cases x Hx) as [[s ->]|(m & e & -> & Hfx)]; [done|].
  destruct (nneg_cases y Hy) as [[s ->]|(n & f & -> & Hfy)]; [done|].
  destruct Hfx as (_ & He & _), Hfy as (_ & Hf & _). unfold fadd. cbv zeta. cbn [signed].
  set (g := Z.min e f). set (z := Z.pos m * 2 ^ (e - g) + Z.pos n * 2 ^ (f - g)).
  assert (H1 : 0 < 2 ^ (e - g)) by (apply pow2_pos; lia).
  assert (H2 : 0 < 2 ^ (f - g)) by (apply pow2_pos; lia).
  assert (Hz : 0 < z) by (unfold z; nia).
  destruct (Z.eqb_spec z 0); [lia|]. destruct (Z.ltb_spec z 0); [lia|]. rewrite Z.abs_eq by lia.
  assert (Hsum : sval (S754_finite false m e) + sval (S754_finite false n f) = z * 2 ^ (g + 1074)).
  { unfold z. simpl sval. rewrite Z.mul_add_distr_r, <- !Z.mul_assoc, <- !Z.pow_add_r by lia.
    replace (e - g + (g + 1074)) with (e + 1074) by lia.
    replace (f - g + (g + 1074)) with (f + 1074) by lia. done. }
  assert (Hp1 : 0 < 2 ^ 1074) by (apply pow2_pos; lia).
  assert (Hp2 : 0 < 2 ^ 2148) by (apply pow2_pos; lia).
  assert (Hext : rscale (z * 2 ^ (g + 2148)) (2 ^ 2148)
                 = rscale (sval (S754_finite false m e) + sval (S754_finite false n f)) (2 ^ 1074)).
  { apply rscale_ext.
    - apply Z.mul_nonneg_nonneg; [lia|]. apply Z.pow_nonneg. lia.
    - done.
    - rewrite Hsum. apply Z.mul_nonneg_nonneg; [lia|]. apply Z.pow_nonneg. lia.
    - done.
    - rewrite Hsum. replace (g + 2148) with ((g + 1074) + 1074) by lia.
      rewrite (Z.pow_add_r 2 (g + 1074)) by lia. replace 2148 with (1074 + 1074) by lia.
      rewrite (Z.pow_add_r 2 1074 1074) by lia. ring. }
  rewrite <- Hext in *. apply round_dyadic_nneg; lia.
Qed.

(** A positive value has one representation. *)
Lemma sval_inj x y : nneg x → nneg y → 0 < sval x → sval x = sval y → x = y.
Proof.
  intros Hx Hy Hp E.
  destruct (nneg_cases x Hx) as [[s ->]|(m & e & -> & Hfx)]; [done|].
  destruct (nneg_cases y Hy) as [[s ->]|(n & f & -> & Hfy)]; [by rewrite E in Hp|].
  pose proof (fcompare_spec _ _ Hfx Hfy) as Hc. rewrite E, Z.compare_refl in Hc. simpl in Hc.
  injection Hc as Hc. destruct (e ?= f) eqn:Ee; [|done..].
  apply Z.compare_eq in Ee as ->. change (Pos.compare m n = Eq) in Hc.
  by apply Pos.compare_eq in Hc as ->.
Qed.

(** Adding integers is exact as long as the sum is representable. *)
Lemma fadd_of_Z a b : 0 ≤ a → 0 ≤ b → a + b ≤ 2 ^ 53 → fadd (of_Z a) (of_Z b) = of_Z (a + b).
Proof.
  intros Ha Hb Hs.
  assert (Hp : 0 < 2 ^ 1074) by (apply pow2_pos; lia).
  assert (Hn : ∀ z, 0 ≤ z ≤ 2 ^ 53 → nneg (of_Z z) ∧ sval (of_Z z) = z * 2 ^ 1074).
  { intros z Hz. destruct (of_Z_spec z) as [Hf Hv]; [lia|]. split; [split; [done|]|done].
    rewrite Hv. apply Z.mul_nonneg_nonneg; lia. }
  assert (Hfin : ∀ z, 0 < z ≤ 2 ^ 53 → ∃ m e, of_Z z = S754_finite false m e).
  { intros z Hz. destruct (Hn z) as [Hz1 Hz2]; [lia|].
    destruct (nneg_cases _ Hz1) as [[s E]|(m & e & -> & _)]; [|eauto].
    rewrite E in Hz2. simpl in Hz2. nia. }
  destruct (Z.eq_dec a 0) as [->|Ha0].
  { rewrite Z.add_0_l. change (of_Z 0) with (S754_zero false).
    destruct (Z.eq_dec b 0) as [->|Hb0]; [done|]. destruct (Hfin b) as (m & e & ->); [lia|done]. }
  destruct (Hn a) as [Hna Hva]; [lia|].
  destruct (Z.eq_dec b 0) as [->|Hb0].
  { rewrite Z.add_0_r. change (of_Z 0) with (S754_zero false).
    destruct (Hfin a) as (m & e & ->); [lia|done]. }
  destruct (Hn b) as [Hnb Hvb]; [lia|]. destruct (Hn (a + b)) as [Hnab Hvab]; [lia|].
  assert (Hr : rscale (sval (of_Z a) + sval (of_Z b)) (2 ^ 1074) = (a + b) * 2 ^ 1074).
  { rewrite Hva, Hvb, <- Z.mul_add_distr_r.
    rewrite (rscale_ext _ _ (a + b) 1) by (try lia; nia). apply rscale_exact; lia. }
  assert (Hlt : (a + b) * 2 ^ 1074 < fmax_scale).
  { unfold fmax_scale. replace 2098 with (1024 + 1074) by lia. rewrite (Z.pow_add_r 2 1024) by lia.
    apply Z.mul_lt_mono_pos_r; [done|]. apply Z.le_lt_trans with (2 ^ 53); [done|].
    apply Z.pow_lt_mono_r; lia. }
  destruct (fadd_spec _ _ Hna Hnb) as [Hnf Hvf]; [by rewrite Hr|rewrite Hva; nia|rewrite Hvb; nia|].
  apply sval_inj; [done|done|rewrite Hvf, Hr; nia|by rewrite Hvf, Hr, Hvab].
Qed.

(** [int64] of a non-negative number truncates. *)
Lemma to_Z_spec x : nneg x → to_Z x = sval x / 2 ^ 1074.
Proof.
  intros Hx. destruct (nneg_cases x Hx) as [[s ->]|(m & e & -> & Hf)]; [by rewrite Z.div_0_l by (apply Z.pow_nonzero; lia)|].
  simpl in Hf. unfold to_Z. simpl sval. assert (HU : 0 < 2 ^ 1074) by (apply pow2_pos; lia).
  destruct (Z.leb_spec 0 e).
  - rewrite (Z.pow_add_r 2 e) by lia. by rewrite Z.mul_assoc, Z.div_mul by lia.
  - assert (0 < 2 ^ (- e)) by (apply pow2_pos; lia). assert (0 < 2 ^ (e + 1074)) by (apply pow2_pos; lia).
    replace (2 ^ 1074) with (2 ^ (- e) * 2 ^ (e + 1074)) by (rewrite <- Z.pow_add_r by lia; f_equal; lia).
    by rewrite Z.div_mul_cancel_r by lia.
Qed.
