(* ===== verification/Strconv.v ===== *)
(** Go's [strconv.ParseFloat] and [strconv.FormatFloat] on binary64, as the
    judge and the grading rules use them.

    [parse_float] reads decimal and hexadecimal literals, digit separators,
    infinities and NaN, and rounds the exact value once; like the Go function
    it fails on a syntax error and on a value out of range.  [shortest] is the
    shortest decimal that reads back as the given number, the nearest of
    them, from which the %e, %f and %g forms are laid out. *)

From S2P Require Import Prelude GoStrings Float64.
From Stdlib Require Import Ascii String.

#[local] Open Scope Z_scope.

(** ** Character classes *)

Definition is_digit (a : ascii) : bool := ((48 <=? code a) && (code a <=? 57))%nat.

Definition digit_val (a : ascii) : Z := Z.of_nat (code a) - 48.

(** The value of a hexadecimal digit. *)
Definition hex_val (a : ascii) : option Z :=
  let n := Z.of_nat (code (lower_byte a)) in
  if is_digit a then Some (digit_val a)
  else if (97 <=? n) && (n <=? 102) then Some (n - 87) else None.

Definition base_digit (hex : bool) (a : ascii) : option Z :=
  if hex then hex_val a else if is_digit a then Some (digit_val a) else None.

Definition chr (s : string) : ascii := match s with String a _ => a | EmptyString => zero end.

Definition dot : ascii := "."%char.
Definition underscore : ascii := "_"%char.
Definition minus : ascii := "-"%char.
Definition plus : ascii := "+"%char.

(** ** Reading *)

(** [underscoreOK]: a separator stands between digits, or between the base
    prefix and a digit.  [seen] is the class of the previous character. *)
Inductive last_seen := SeenDigit | SeenUnderscore | SeenOther | SeenStart.

Fixpoint underscores_ok (hex : bool) (seen : last_seen) (s : bytes) : bool :=
  match s with
  | [] => match seen with SeenUnderscore => false | _ => true end
  | a :: r =>
      match base_digit hex a with
      | Some _ => underscores_ok hex SeenDigit r
      | None =>
          if Ascii.eqb a underscore
          then match seen with
               | SeenDigit => underscores_ok hex SeenUnderscore r
               | _ => false
               end
          else match seen with
               | SeenUnderscore => false
               | _ => underscores_ok hex SeenOther r
               end
      end
  end.

(** The significand scanner: the digits read so far as an integer, how many of
    them stand after the point, and the rest of the input.  [None] for the
    count means no point has been seen. *)
Record mantissa := Mantissa {
  mt_digits : Z; mt_frac : option Z; mt_any : bool; mt_rest : bytes }.

Fixpoint read_mantissa (hex : bool) (s : bytes) (acc : Z) (frac : option Z) (any : bool)
  : mantissa :=
  match s with
  | [] => Mantissa acc frac any []
  | a :: r =>
      match base_digit hex a with
      | Some v =>
          read_mantissa hex r (acc * (if hex then 16 else 10) + v)
            (match frac with Some f => Some (f + 1) | None => None end) true
      | None =>
          if Ascii.eqb a underscore then read_mantissa hex r acc frac any
          else if Ascii.eqb a dot
          then match frac with
               | None => read_mantissa hex r acc (Some 0) any
               | Some _ => Mantissa acc frac any s
               end
          else Mantissa acc frac any s
      end
  end.

(** The exponent digits; the accumulator stops growing at five digits. *)
Fixpoint read_exponent (s : bytes) (e : Z) : Z * bytes :=
  match s with
  | [] => (e, [])
  | a :: r =>
      if is_digit a then read_exponent r (if e <? 10000 then e * 10 + digit_val a else e)
      else if Ascii.eqb a underscore then read_exponent r e
      else (e, s)
  end.

(** An optional exponent part introduced by [mark]: its value and the rest;
    [None] for a malformed one. *)
Definition read_exp_part (mark : ascii) (s : bytes) : option (option Z * bytes) :=
  match s with
  | a :: r =>
      if Ascii.eqb (lower_byte a) mark then
        let '(neg, r) :=
          match r with
          | b :: r' => if Ascii.eqb b minus then (true, r')
                       else if Ascii.eqb b plus then (false, r') else (false, r)
          | [] => (false, r)
          end in
        match r with
        | b :: _ =>
            if is_digit b then
              let '(e, rest) := read_exponent r 0 in
              Some (Some (if neg then - e else e), rest)
            else None
        | [] => None
        end
      else Some (None, s)
  | [] => Some (None, s)
  end.

(** [m * 10 ^ x], rounded. *)
Definition decimal_float (neg : bool) (m x : Z) : float64 :=
  if 0 <=? x then round_ratio neg (m * 10 ^ x) 1 else round_ratio neg m (10 ^ (- x)).

(** A value out of range is an error. *)
Definition in_range (x : float64) : option float64 :=
  match x with S754_infinity _ => None | _ => Some x end.

Definition read_number (neg : bool) (s : bytes) : option float64 :=
  let '(hex, body) :=
    match s with
    | z :: x :: r => if Ascii.eqb z "0"%char && Ascii.eqb (lower_byte x) "x"%char
                     then (true, r) else (false, s)
    | _ => (false, s)
    end in
  if negb (underscores_ok hex (if hex then SeenDigit else SeenStart) body) then None
  else
    let m := read_mantissa hex body 0 None false in
    if negb (mt_any m) then None
    else
      match read_exp_part (if hex then "p"%char else "e"%char) (mt_rest m) with
      | Some (e, []) =>
          let frac := default 0 (mt_frac m) in
          if hex then
            match e with
            | Some e => in_range (round_dyadic neg (mt_digits m) (e - 4 * frac))
            | None => None
            end
          else in_range (decimal_float neg (mt_digits m) (default 0 e - frac))
      | _ => None
      end.

Definition is_word (w : string) (s : bytes) : bool := equal_fold w (of_bytes s).

Definition read_unsigned (signed neg : bool) (s : bytes) : option float64 :=
  if is_word "inf" s || is_word "infinity" s then Some (S754_infinity neg)
  else if negb signed && is_word "nan" s then Some S754_nan
  else read_number neg s.

(** [strconv.ParseFloat(s, 64)]; [None] is a non-nil error. *)
Definition parse_float_bytes (s : bytes) : option float64 :=
  match s with
  | a :: r =>
      if Ascii.eqb a minus then read_unsigned true true r
      else if Ascii.eqb a plus then read_unsigned true false r
      else read_unsigned false false s
  | [] => None
  end.

Definition parse_float (s : string) : option float64 := parse_float_bytes (to_bytes s).

(** ** Writing *)

(** [10 ^ (dp - 1) <= n / d < 10 ^ dp], found near the estimate that the bit
    lengths give. *)
Definition below_pow10 (n d dp : Z) : bool :=
  if 0 <=? dp then n <? d * 10 ^ dp else n * 10 ^ (- dp) <? d.

Definition dec_point (n d : Z) : Z :=
  let est := (Z.log2 n - Z.log2 d) * 30103 / 100000 - 1 in
  default (est + 4) (find (below_pow10 n d) [est; est + 1; est + 2; est + 3]).

Definition same_float (x y : float64) : bool :=
  match x, y with
  | S754_finite s m e, S754_finite t n f => Bool.eqb s t && (m =? n)%positive && (e =? f)
  | S754_zero s, S754_zero t => Bool.eqb s t
  | _, _ => false
  end.

(** The decimals [c * 10 ^ x] and [(c + 1) * 10 ^ x] around the positive
    number [v = n / d]: the one that reads back as [v], the nearer if both do. *)
Definition candidate (v : float64) (n d x : Z) : option Z :=
  let '(n', d') := if 0 <=? x then (n, d * 10 ^ x) else (n * 10 ^ (- x), d) in
  let c := n' / d' in
  let ok c := same_float (decimal_float false c x) v in
  match ok c, ok (c + 1) with
  | true, true => Some (if 2 * (n' mod d') <=? d' then c else c + 1)
  | true, false => Some c
  | false, true => Some (c + 1)
  | false, false => None
  end.

Fixpoint shortest_from (v : float64) (n d dp : Z) (nd fuel : nat) : Z * Z :=
  let x := dp - Z.of_nat nd in
  match candidate v n d x with
  | Some c => (c, x)
  | None =>
      match fuel with
      | O => (if 0 <=? x then n / (d * 10 ^ x) else n * 10 ^ (- x) / d, x)
      | S f => shortest_from v n d dp (S nd) f
      end
  end.

(** The digits of the shortest decimal of |v| without trailing zeros, and the
    position of the point: 0.d1d2... * 10 ^ dp.  Seventeen digits suffice. *)
Definition shortest (v : float64) : bytes * Z :=
  match v with
  | S754_finite _ m e =>
      let '(n, d) := if 0 <=? e then (Z.pos m * 2 ^ e, 1) else (Z.pos m, 2 ^ (- e)) in
      let '(c, x) := shortest_from (S754_finite false m e) n d (dec_point n d) 1 16 in
      let ds := nat_digits c in
      (rev (drop_while (Ascii.eqb "0"%char) (rev ds)), x + Z.of_nat (List.length ds))
  | _ => ([], 0)
  end.

Definition zeros (n : Z) : bytes := repeat "0"%char (Z.to_nat n).

Definition sign_bytes (v : float64) : bytes :=
  match v with
  | S754_finite true _ _ | S754_zero true | S754_infinity true => [minus]
  | _ => []
  end.

(** %f with the shortest precision. *)
Definition layout_f (ds : bytes) (dp : Z) : bytes :=
  let n := Z.of_nat (List.length ds) in
  let whole :=
    if dp <=? 0 then ["0"%char]
    else firstn (Z.to_nat dp) ds ++ zeros (dp - n) in
  let frac := if dp <=? 0 then zeros (- dp) ++ ds else skipn (Z.to_nat dp) ds in
  match frac with [] => whole | _ => whole ++ dot :: frac end.

(** %e with the shortest precision: at least two exponent digits. *)
Definition layout_e (ds : bytes) (dp : Z) : bytes :=
  let x := dp - 1 in
  let mant := match ds with
              | [] => ["0"%char]
              | [d] => [d]
              | d :: t => d :: dot :: t
              end in
  let xs := nat_digits (Z.abs x) in
  mant ++ "e"%char :: (if x <? 0 then minus else plus)
    :: (if (List.length xs <? 2)%nat then "0"%char :: xs else xs).

Definition float_digits (v : float64) : bytes * Z :=
  match v with S754_zero _ => (["0"%char], 1) | _ => shortest v end.

Definition special_bytes (v : float64) : option bytes :=
  match v with
  | S754_nan => Some (to_bytes "NaN")
  | S754_infinity true => Some (to_bytes "-Inf")
  | S754_infinity false => Some (to_bytes "+Inf")
  | _ => None
  end.

(** [strconv.FormatFloat(v, 'g', -1, 64)] *)
Definition format_g (v : float64) : string :=
  match special_bytes v with
  | Some b => of_bytes b
  | None =>
      let '(ds, dp) := float_digits v in
      of_bytes (sign_bytes v ++
        if (dp - 1 <? -4) || (6 <=? dp - 1)
        then layout_e ds dp else layout_f ds dp)
  end.

(** |v| as a fraction. *)
Definition magnitude (v : float64) : Z * Z :=
  match v with
  | S754_finite _ m e => if 0 <=? e then (Z.pos m * 2 ^ e, 1) else (Z.pos m, 2 ^ (- e))
  | _ => (0, 1)
  end.

(** [strconv.FormatFloat(v, 'f', p, 64)], and %.[p]f: the exact decimal
    rounded to [p] digits behind the point, half to even. *)
Definition format_fixed (p : nat) (v : float64) : string :=
  match special_bytes v with
  | Some b => of_bytes b
  | None =>
      let '(n, d) := magnitude v in
      let ds := nat_digits (rne (n * 10 ^ Z.of_nat p) d) in
      let ds := repeat "0"%char (S p - List.length ds) ++ ds in
      let k := (List.length ds - p)%nat in
      of_bytes (sign_bytes v ++ firstn k ds ++ match p with O => [] | _ => dot :: skipn k ds end)
  end.

Example format_fixed_half : map (format_fixed 0) [round_ratio false 5 2; round_ratio false 7 2; of_Z 100] = ["2"; "4"; "100"].
Proof. reflexivity. Qed.
Example format_fixed_cents :
  map (format_fixed 2) [round_ratio true 2675 1000; S754_zero false; round_ratio false 1 1000; of_Z 12] =
  ["-2.67"; "0.00"; "0.00"; "12.00"].
Proof. reflexivity. Qed.

(** [1e-6] and [1e21], the bounds between which [encoding/json] avoids an
    exponent. *)
Definition json_lo : float64 := round_ratio false 1 (10 ^ 6).
Definition json_hi : float64 := round_ratio false (10 ^ 21) 1.

(** A one-digit exponent loses the zero that %e puts before it. *)
Definition clean_exponent (b : bytes) : bytes :=
  match rev b with
  | d :: z :: s :: e :: r =>
      if Ascii.eqb e "e"%char && (Ascii.eqb s minus || Ascii.eqb s plus) && Ascii.eqb z "0"%char
      then rev (d :: s :: e :: r) else b
  | _ => b
  end.

(** How [encoding/json] writes a finite float64. *)
Definition format_json_bytes (v : float64) : bytes :=
  let '(ds, dp) := float_digits v in
  let a := fabs v in
  sign_bytes v ++
  if negb (feqb a (S754_zero false)) && (fltb a json_lo || fleb json_hi a)
  then clean_exponent (layout_e ds dp) else layout_f ds dp.
