(* ===== verification/GoTime.v ===== *)
(** The part of Go's [time] package the assessment service uses: rendering an
    instant as RFC 3339 ([fmtTime] of
    services/assessment-service/internal/repository/postgres.go), reading it
    back ([parseTime], and [parseTimeValue] of attempts.go), and the two other
    layouts its messages use.

    An instant is a number of nanoseconds since 1970-01-01T00:00:00Z; dates are
    those of the proleptic Gregorian calendar.  [parseTimeValue_fmtTime] is the
    round trip the service relies on when it reads an assessment's window from
    the text [GetAssessment] rendered. *)

From S2P Require Import Prelude GoStrings Strconv.
From Stdlib Require Import Ascii String.

#[local] Open Scope Z_scope.

(** ** The calendar *)

Definition day_seconds : Z := 86400.
Definition nanos : Z := 10 ^ 9.

(** The day [n] days after 1970-01-01, as year, month and day.  Years are
    counted from 1 March, in eras of 400. *)
Definition civil (n : Z) : Z * Z * Z :=
  let z := n + 719468 in
  let era := z / 146097 in
  let doe := z mod 146097 in
  let yoe := (doe - doe / 1460 + doe / 36524 - doe / 146096) / 365 in
  let doy := doe - (365 * yoe + yoe / 4 - yoe / 100) in
  let mp := (5 * doy + 2) / 153 in
  let d := doy - (153 * mp + 2) / 5 + 1 in
  let m := if mp <? 10 then mp + 3 else mp - 9 in
  (yoe + era * 400 + (if m <=? 2 then 1 else 0), m, d).

Definition days (y m d : Z) : Z :=
  let y := if m <=? 2 then y - 1 else y in
  let era := y / 400 in
  let yoe := y mod 400 in
  let mp := if 2 <? m then m - 3 else m + 9 in
  let doy := (153 * mp + 2) / 5 + d - 1 in
  era * 146097 + (yoe * 365 + yoe / 4 - yoe / 100 + doy) - 719468.

Definition leap (y : Z) : bool := (y mod 4 =? 0) && (negb (y mod 100 =? 0) || (y mod 400 =? 0)).

Definition days_in (m y : Z) : Z :=
  if m =? 2 then (if leap y then 29 else 28)
  else if (m =? 4) || (m =? 6) || (m =? 9) || (m =? 11) then 30 else 31.

(** ** Rendering *)

(** [appendInt(b, n, width)]: at least [width] digits. *)
Fixpoint padded (width : nat) (n : Z) : bytes :=
  match width with
  | O => []
  | S w => padded w (n / 10) ++ [digit (n mod 10)]
  end.

Definition append_int (n : Z) (width : nat) : bytes :=
  if n <? 0 then
    "-"%char :: (if - n <? 10 ^ Z.of_nat width then padded width (- n) else nat_digits (- n))
  else if n <? 10 ^ Z.of_nat width then padded width n else nat_digits n.

Definition chars : string → bytes := to_bytes.

(** [t.UTC().Format(time.RFC3339)] *)
Definition rfc3339 (t : Z) : bytes :=
  let secs := t / nanos in
  let '(y, m, d) := civil (secs / day_seconds) in
  let s := secs mod day_seconds in
  append_int y 4 ++ chars "-" ++ padded 2 m ++ chars "-" ++ padded 2 d ++ chars "T"
  ++ padded 2 (s / 3600) ++ chars ":" ++ padded 2 (s / 60 mod 60) ++ chars ":"
  ++ padded 2 (s mod 60) ++ chars "Z".

(** [IsZero]: 0001-01-01T00:00:00Z. *)
Definition zero_time : Z := -62135596800 * nanos.

(** [fmtTime] *)
Definition fmtTime (t : option Z) : string :=
  match t with
  | None => ""
  | Some t => if t =? zero_time then "" else of_bytes (rfc3339 t)
  end.

Definition month_names : list string :=
  ["Jan"; "Feb"; "Mar"; "Apr"; "May"; "Jun"; "Jul"; "Aug"; "Sep"; "Oct"; "Nov"; "Dec"].
Definition day_names : list string := ["Sun"; "Mon"; "Tue"; "Wed"; "Thu"; "Fri"; "Sat"].

Definition name_of (names : list string) (i : Z) : bytes := chars (nth (Z.to_nat i) names "").

(** [t.Format(time.RFC1123)] of a UTC time. *)
Definition format_rfc1123 (t : Z) : string :=
  let secs := t / nanos in
  let '(y, m, d) := civil (secs / day_seconds) in
  let s := secs mod day_seconds in
  of_bytes (name_of day_names ((secs / day_seconds + 4) mod 7) ++ chars ", " ++ padded 2 d
    ++ chars " " ++ name_of month_names (m - 1) ++ chars " " ++ append_int y 4 ++ chars " "
    ++ padded 2 (s / 3600) ++ chars ":" ++ padded 2 (s / 60 mod 60) ++ chars ":"
    ++ padded 2 (s mod 60) ++ chars " UTC").

(** [t.UTC().Format("2 Jan 2006, 15:04")] *)
Definition format_opens (t : Z) : string :=
  let secs := t / nanos in
  let '(y, m, d) := civil (secs / day_seconds) in
  let s := secs mod day_seconds in
  of_bytes (append_int d 1 ++ chars " " ++ name_of month_names (m - 1) ++ chars " "
    ++ append_int y 4 ++ chars ", " ++ padded 2 (s / 3600) ++ chars ":"
    ++ padded 2 (s / 60 mod 60)).

(** ** Reading *)

(** A decimal number of exactly [n] digits, and what follows it. *)
Fixpoint read_digits (n : nat) (acc : Z) (s : bytes) : option (Z * bytes) :=
  match n with
  | O => Some (acc, s)
  | S n =>
      match s with
      | c :: r => if is_digit c then read_digits n (10 * acc + digit_val c) r else None
      | [] => None
      end
  end.

(** [getnum(value, fixed)]: two digits, or one when not [fixed]. *)
Definition getnum (fixed : bool) (s : bytes) : option (Z * bytes) :=
  match read_digits 2 0 s with
  | Some r => Some r
  | None => if fixed then None else read_digits 1 0 s
  end.

(** [skip(value, c)] *)
Definition expect (c : ascii) (s : bytes) : option bytes :=
  match s with
  | a :: r => if Ascii.eqb a c then Some r else None
  | [] => None
  end.

(** The digits at the head of a string. *)
Fixpoint take_digits (s : bytes) : bytes * bytes :=
  match s with
  | c :: r => if is_digit c then let '(d, rest) := take_digits r in (c :: d, rest) else ([], s)
  | [] => ([], [])
  end.

(** [parseNanoseconds] on the digits after the separator: nine count. *)
Fixpoint nanoseconds (width : nat) (d : bytes) : Z :=
  match width, d with
  | S w, c :: r => digit_val c * 10 ^ Z.of_nat w + nanoseconds w r
  | _, _ => 0
  end.

(** A fraction of a second the layout does not name. *)
Definition read_fraction (s : bytes) : Z * bytes :=
  match s with
  | sep :: c :: r =>
      if (Ascii.eqb sep "."%char || Ascii.eqb sep ","%char) && is_digit c then
        let '(d, rest) := take_digits (c :: r) in (nanoseconds 9 d, rest)
      else (0, s)
  | _ => (0, s)
  end.

(** "Z07:00": the offset in seconds. *)
Definition read_zone (s : bytes) : option (Z * bytes) :=
  match s with
  | "Z"%char :: r => Some (0, r)
  | sign :: r =>
      match read_digits 2 0 r with
      | Some (hr, ":"%char :: r2) =>
          match read_digits 2 0 r2 with
          | Some (mm, rest) =>
              if (24 <? hr) || (60 <? mm) then None
              else if Ascii.eqb sign "+"%char then Some ((hr * 60 + mm) * 60, rest)
              else if Ascii.eqb sign "-"%char then Some (- ((hr * 60 + mm) * 60), rest)
              else None
          | None => None
          end
      | _ => None
      end
  | [] => None
  end.

Notation "'let*' p ':=' m 'in' k" := (match m with Some p => k | None => None end)
  (at level 10, p pattern, m at level 100, k at level 200, only parsing).

(** [time.Parse(time.RFC3339, s)] *)
Definition parse_rfc3339_bytes (s : bytes) : option Z :=
  let* (y, s) := read_digits 4 0 s in
  let* s := expect "-" s in
  let* (m, s) := getnum true s in
  let* s := expect "-" s in
  let* (d, s) := getnum true s in
  let* s := expect "T" s in
  let* (hh, s) := getnum false s in
  let* s := expect ":" s in
  let* (mm, s) := getnum true s in
  let* s := expect ":" s in
  let* (ss, s) := getnum true s in
  let '(ns, s) := read_fraction s in
  let* (zone, s) := read_zone s in
  if (1 <=? m) && (m <=? 12) && (1 <=? d) && (d <=? days_in m y) && (hh <? 24) && (mm <? 60)
     && (ss <? 60) && bool_decide (s = [])
  then Some ((days y m d * day_seconds + hh * 3600 + mm * 60 + ss - zone) * nanos + ns)
  else None.

Definition parse_rfc3339 (s : string) : option Z := parse_rfc3339_bytes (to_bytes s).

(** [parseTime]: [None] is the SQL NULL. *)
Definition parseTime (s : string) : option Z :=
  if String.eqb s "" then None else parse_rfc3339 s.

(** [parseTimeValue] *)
Definition parseTimeValue (s : string) : option Z :=
  if String.eqb s "" then None else parse_rfc3339 s.

(** Linear arithmetic with divisions by constants. *)
Ltac div_lia := Z.to_euclidean_division_equations; lia.

(** ** The calendar is a bijection *)

Definition year_start (y : Z) : Z := 365 * y + y / 4 - y / 100.
Definition year_end (y : Z) : Z := if y =? 399 then 146096 else year_start (y + 1) - 1.
Definition year_of (doe : Z) : Z := (doe - doe / 1460 + doe / 36524 - doe / 146096) / 365.

Lemma year_of_step x : 0 ≤ x → year_of x ≤ year_of (x + 1).
Proof.
  intros Hx. unfold year_of. apply Z.div_le_mono; [lia|].
  assert (E : ∀ a, a / 146096 = a / 36524 / 4) by (intros a; rewrite Z.div_div by lia; done).
  assert (H1 : (x + 1) / 1460 ≤ x / 1460 + 1).
  { rewrite <- Z.div_add by lia. apply Z.div_le_mono; lia. }
  assert (Huv : x / 36524 ≤ (x + 1) / 36524) by (apply Z.div_le_mono; lia).
  rewrite !E. clear E. revert H1 Huv. generalize (x / 36524), ((x + 1) / 36524), (x / 1460), ((x + 1) / 1460).
  intros u v a b H1 Huv. div_lia.
Qed.

Lemma year_of_mono x y : 0 ≤ x → x ≤ y → year_of x ≤ year_of y.
Proof.
  intros Hx. revert y. apply Zlt_lower_bound_ind. intros y IH Hy.
  destruct (Z.eq_dec x y) as [->|Hne]; [lia|].
  etrans; [apply (IH (y - 1)); lia|]. replace y with (y - 1 + 1) at 2 by lia. apply year_of_step. lia.
Qed.

(** The first and last day of each of the 400 years of an era. *)
Lemma year_of_ends y : 0 ≤ y < 400 → year_of (year_start y) = y ∧ year_of (year_end y) = y.
Proof.
  intros Hy.
  assert (H : forallb (λ i, (year_of (year_start (Z.of_nat i)) =? Z.of_nat i)
                            && (year_of (year_end (Z.of_nat i)) =? Z.of_nat i)) (seq 0 400) = true)
    by (vm_compute; reflexivity).
  rewrite forallb_forall in H. specialize (H (Z.to_nat y)).
  rewrite Z2Nat.id in H by lia. assert (Hin : In (Z.to_nat y) (seq 0 400)) by (apply in_seq; lia).
  apply H in Hin. bool_to_prop. by rewrite <- !Z.eqb_eq.
Qed.

Lemma year_of_day doe : 0 ≤ doe < 146097 →
  ∃ y, 0 ≤ y < 400 ∧ year_start y ≤ doe ≤ year_end y ∧ year_of doe = y.
Proof.
  intros Hd. set (y := year_of doe).
  assert (Hy : 0 ≤ y < 400).
  { split.
    - change 0 with (year_of 0). apply year_of_mono; lia.
    - assert (y ≤ year_of 146096) by (apply year_of_mono; lia).
      change (year_of 146096) with 399 in *. lia. }
  exists y. split; [done|]. split; [|done]. split.
  - destruct (Z.le_gt_cases (year_start y) doe); [done|]. exfalso.
    destruct (Z.eq_dec y 0) as [E|E]; [rewrite E in *; change (year_start 0) with 0 in *; lia|].
    destruct (year_of_ends (y - 1) ltac:(lia)) as [_ He].
    assert (year_end (y - 1) = year_start y - 1) as Ee.
    { unfold year_end. destruct (Z.eqb_spec (y - 1) 399); [lia|]. by rewrite Z.sub_add. }
    rewrite Ee in He. assert (year_of doe ≤ year_of (year_start y - 1)) by (apply year_of_mono; lia). lia.
  - destruct (Z.le_gt_cases doe (year_end y)); [done|]. exfalso. unfold year_end in *.
    destruct (Z.eqb_spec y 399) as [E|E]; [lia|].
    destruct (year_of_ends (y + 1) ltac:(lia)) as [Hs _].
    assert (0 ≤ year_start (y + 1)) by (unfold year_start; div_lia).
    assert (year_of (year_start (y + 1)) ≤ year_of doe) by (apply year_of_mono; lia). lia.
Qed.

(** Month and day of the day [doy] of a year that begins in March. *)
Definition month_of (doy : Z) : Z := let mp := (5 * doy + 2) / 153 in if mp <? 10 then mp + 3 else mp - 9.
Definition day_of (doy : Z) : Z := doy - (153 * ((5 * doy + 2) / 153) + 2) / 5 + 1.

Lemma month_day doy : 0 ≤ doy < 366 →
  1 ≤ month_of doy ≤ 12 ∧ 1 ≤ day_of doy ∧
  (doy < 365 → day_of doy ≤ days_in (month_of doy) 1) ∧ day_of doy ≤ days_in (month_of doy) 4 ∧
  (153 * (if 2 <? month_of doy then month_of doy - 3 else month_of doy + 9) + 2) / 5 + day_of doy - 1 = doy ∧
  (month_of doy <= 2 ↔ 306 <= doy).
Proof.
  intros Hd.
  set (ok := λ doy, (1 <=? month_of doy) && (month_of doy <=? 12) && (1 <=? day_of doy)
    && (negb (doy <? 365) || (day_of doy <=? days_in (month_of doy) 1))
    && (day_of doy <=? days_in (month_of doy) 4)
    && ((153 * (if 2 <? month_of doy then month_of doy - 3 else month_of doy + 9) + 2) / 5 + day_of doy - 1 =? doy)
    && Bool.eqb (month_of doy <=? 2) (306 <=? doy)).
  assert (H : forallb (λ i, ok (Z.of_nat i)) (seq 0 366) = true) by (vm_compute; reflexivity).
  rewrite forallb_forall in H. specialize (H (Z.to_nat doy)).
  rewrite Z2Nat.id in H by lia. assert (Hin : In (Z.to_nat doy) (seq 0 366)) by (apply in_seq; lia).
  apply H in Hin. unfold ok in Hin. bool_to_prop. apply Bool.eqb_prop in H1.
  split_and!; try (by apply Z.leb_le); [|by apply Z.eqb_eq|].
  - intros Hlt. destruct (Z.ltb_spec doy 365); [by apply Z.leb_le|lia].
  - rewrite <- !Z.leb_le. by rewrite H1.
Qed.

Lemma days_in_leap m y : days_in m y = days_in m (if leap y then 4 else 1).
Proof. unfold days_in. destruct (m =? 2); [|done]. by destruct (leap y). Qed.

(** The last day of a year that begins in March is there in leap years only. *)
Lemma year_length y era : 0 ≤ y < 400 →
  year_end y - year_start y = if leap (y + 400 * era + 1) then 365 else 364.
Proof.
  intros Hy. unfold leap.
  replace ((y + 400 * era + 1) mod 4) with ((y + 1) mod 4)
    by (replace (y + 400 * era + 1) with (y + 1 + 100 * era * 4) by lia; by rewrite Z.mod_add by lia).
  replace ((y + 400 * era + 1) mod 100) with ((y + 1) mod 100)
    by (replace (y + 400 * era + 1) with (y + 1 + 4 * era * 100) by lia; by rewrite Z.mod_add by lia).
  replace ((y + 400 * era + 1) mod 400) with ((y + 1) mod 400)
    by (replace (y + 400 * era + 1) with (y + 1 + era * 400) by lia; by rewrite Z.mod_add by lia).
  set (ok := λ y, year_end y - year_start y =? if ((y + 1) mod 4 =? 0) && (negb ((y + 1) mod 100 =? 0) || ((y + 1) mod 400 =? 0)) then 365 else 364).
  assert (H : forallb (λ i, ok (Z.of_nat i)) (seq 0 400) = true) by (vm_compute; reflexivity).
  rewrite forallb_forall in H. specialize (H (Z.to_nat y)).
  rewrite Z2Nat.id in H by lia. apply Z.eqb_eq, H, in_seq. lia.
Qed.

Lemma civil_spec n y m d :
  civil n = (y, m, d) →
  1 ≤ m ≤ 12 ∧ 1 ≤ d ≤ days_in m y ∧ days y m d = n ∧
  (-719528 ≤ n < 2932897 → 0 ≤ y ≤ 9999).
Proof.
  unfold civil. set (era := (n + 719468) / 146097). set (doe := (n + 719468) mod 146097). cbn zeta.
  fold (year_of doe).
  assert (Hdoe : 0 ≤ doe < 146097) by (apply Z.mod_pos_bound; lia).
  assert (Hn : n + 719468 = 146097 * era + doe) by (apply Z.div_mod; lia).
  destruct (year_of_day doe Hdoe) as (yoe & Hyoe & Hrange & Hyear). rewrite Hyear.
  fold (year_start yoe). set (doy := doe - year_start yoe).
  fold (month_of doy). fold (day_of doy).
  pose proof (year_length yoe era Hyoe) as Hlen.
  assert (Hdoy : 0 ≤ doy < 366).
  { unfold doy. destruct (leap _); lia. }
  destruct (month_day doy Hdoy) as (Hm & Hd & Hd1 & Hd4 & Hback & Hmar).
  assert (Hdiv : (153 * (if 2 <? month_of doy then month_of doy - 3 else month_of doy + 9) + 2) / 5
                 = doy - day_of doy + 1) by lia.
  intros [= <- <- <-]. split; [done|]. split_and!; [done| | |].
  - rewrite days_in_leap. destruct (Z.leb_spec (month_of doy) 2) as [Hle|Hle].
    + replace (yoe + era * 400 + 1) with (yoe + 400 * era + 1) by lia.
      destruct (leap (yoe + 400 * era + 1)); [done|]. apply Hd1. unfold doy. lia.
    + assert (Hsame : days_in (month_of doy) 4 = days_in (month_of doy) 1).
      { unfold days_in. destruct (Z.eqb_spec (month_of doy) 2); [lia|done]. }
      destruct (leap (yoe + era * 400 + 0)); [exact Hd4|]. rewrite <- Hsame. exact Hd4.
  - unfold days. destruct (Z.leb_spec (month_of doy) 2) as [Hle|Hle].
    + replace (yoe + era * 400 + 1 - 1) with (yoe + era * 400) by lia.
      rewrite Z.div_add, Z.mod_add, (Z.div_small yoe), (Z.mod_small yoe) by lia. cbn zeta.
      rewrite Hdiv. unfold doy, year_start. lia.
    + replace (yoe + era * 400 + 0) with (yoe + era * 400) by lia.
      rewrite Z.div_add, Z.mod_add, (Z.div_small yoe), (Z.mod_small yoe) by lia. cbn zeta.
      rewrite Hdiv. unfold doy, year_start. lia.
  - intros Hn'. assert (Hera : -1 ≤ era ≤ 24) by (unfold era; div_lia).
    assert (Hs : year_start 399 = 145731) by done.
    assert (Hdoe0 : era = -1 → 146037 ≤ doe) by lia.
    assert (Hdoe1 : era = 24 → doe < 146037) by lia.
    destruct (Z.leb_spec (month_of doy) 2) as [Hle|Hle].
    + split.
      * destruct (Z.eq_dec era (-1)) as [E|]; [|lia].
        assert (yoe = 399); [|lia]. rewrite <- Hyear.
        assert (year_of 146037 ≤ year_of doe) by (apply year_of_mono; lia).
        change (year_of 146037) with 399 in *. lia.
      * destruct (Z.eq_dec era 24) as [E|]; [|lia]. destruct (Z.eq_dec yoe 399) as [E'|]; [|lia].
        exfalso. apply Hmar in Hle. unfold doy in Hle. rewrite E', Hs in Hle. lia.
    + split; [|lia]. destruct (Z.eq_dec era (-1)) as [E|]; [|lia]. exfalso.
      assert (yoe = 399) as E'.
      { rewrite <- Hyear. assert (year_of 146037 ≤ year_of doe) by (apply year_of_mono; lia).
        change (year_of 146037) with 399 in *. lia. }
      assert (¬ 306 ≤ doy) as Hn306 by (rewrite <- Hmar; lia).
      apply Hn306. unfold doy. rewrite E', Hs. lia.
Qed.

(** ** Reading back what was rendered *)

Lemma digit_read n : 0 ≤ n < 10 → is_digit (digit n) = true ∧ digit_val (digit n) = n.
Proof.
  intros Hn. assert (H : forallb (λ i, is_digit (digit (Z.of_nat i))
                                       && (digit_val (digit (Z.of_nat i)) =? Z.of_nat i)) (seq 0 10) = true)
    by (vm_compute; reflexivity).
  rewrite forallb_forall in H. specialize (H (Z.to_nat n)).
  rewrite Z2Nat.id in H by lia. assert (Hin : In (Z.to_nat n) (seq 0 10)) by (apply in_seq; lia).
  apply H in Hin. bool_to_prop. by apply Z.eqb_eq in H1.
Qed.

Lemma read_digits_app w v acc s :
  read_digits (w + v) acc s = match read_digits w acc s with
                              | Some (a, r) => read_digits v a r | None => None end.
Proof.
  revert acc s. induction w as [|w IH]; intros acc s; simpl; [done|].
  destruct s as [|c r]; [done|]. by destruct (is_digit c).
Qed.

Lemma read_padded w : ∀ n acc r, 0 ≤ n < 10 ^ Z.of_nat w →
  read_digits w acc (padded w n ++ r) = Some (acc * 10 ^ Z.of_nat w + n, r).
Proof.
  induction w as [|w IH]; intros n acc r Hn.
  { simpl in *. repeat f_equal. lia. }
  rewrite Nat2Z.inj_succ, Z.pow_succ_r in * by lia.
  assert (Hm : 0 ≤ n mod 10 < 10) by (apply Z.mod_pos_bound; lia).
  assert (Hq : 0 ≤ n / 10 < 10 ^ Z.of_nat w).
  { split; [apply Z.div_pos; lia|]. apply Z.div_lt_upper_bound; lia. }
  pose proof (Z.div_mod n 10 ltac:(lia)) as E.
  cbn [padded]. rewrite <- app_assoc. replace (S w) with (w + 1)%nat by lia.
  rewrite read_digits_app, IH by done. cbn [app read_digits].
  destruct (digit_read _ Hm) as [-> ->]. do 2 f_equal. lia.
Qed.

Lemma getnum_padded fixed n r : 0 ≤ n < 100 → getnum fixed (padded 2 n ++ r) = Some (n, r).
Proof.
  intros Hn. unfold getnum. rewrite read_padded; [|change (10 ^ Z.of_nat 2) with 100; lia].
  rewrite Z.mul_0_l, Z.add_0_l. reflexivity.
Qed.

Lemma append_int_padded y : 0 ≤ y ≤ 9999 → append_int y 4 = padded 4 y.
Proof.
  intros Hy. unfold append_int. destruct (Z.ltb_spec y 0); [lia|].
  change (10 ^ Z.of_nat 4) with 10000. destruct (Z.ltb_spec y 10000); [done|lia].
Qed.

Lemma expect_chars c s : expect c (c :: s) = Some s.
Proof. simpl. by rewrite Ascii.eqb_refl. Qed.

(** The instants whose year has four digits. *)
Definition four_digit_year (t : Z) : Prop := -62167219200 * nanos ≤ t < 253402300800 * nanos.

Lemma parse_rfc3339_bytes_format t :
  four_digit_year t → parse_rfc3339_bytes (rfc3339 t) = Some (t / nanos * nanos).
Proof.
  intros Ht. unfold rfc3339. set (secs := t / nanos). destruct (civil (secs / day_seconds)) as [[y m] d] eqn:Ec.
  assert (Hsecs : -62167219200 ≤ secs < 253402300800).
  { unfold secs, four_digit_year, nanos in *. split; [apply Z.div_le_lower_bound|apply Z.div_lt_upper_bound]; lia. }
  apply civil_spec in Ec as (Hm & Hd & Hdays & Hy).
  assert (Hn : -719528 ≤ secs / day_seconds < 2932897) by (unfold day_seconds; div_lia).
  specialize (Hy Hn). set (s := secs mod day_seconds).
  assert (Hs : 0 ≤ s < 86400) by (apply Z.mod_pos_bound; done).
  assert (Hsec : secs = secs / day_seconds * day_seconds + s).
  { rewrite Z.mul_comm. apply Z.div_mod. done. }
  assert (Hh : 0 ≤ s / 3600 < 24) by div_lia.
  assert (Hmi : 0 ≤ s / 60 mod 60 < 60) by (apply Z.mod_pos_bound; lia).
  assert (Hss : 0 ≤ s mod 60 < 60) by (apply Z.mod_pos_bound; lia).
  assert (Hclock : s = s / 3600 * 3600 + s / 60 mod 60 * 60 + s mod 60) by div_lia.
  assert (Hdi : days_in m y ≤ 31) by (unfold days_in; destruct (leap y); repeat case_match; lia).
  rewrite append_int_padded by done. unfold parse_rfc3339_bytes.
  change (chars "-") with ["-"%char]. change (chars ":") with [":"%char].
  change (chars "T") with ["T"%char]. change (chars "Z") with ["Z"%char].
  cbn [app]. rewrite <- ?app_assoc. cbn [app].
  rewrite read_padded by (change (10 ^ Z.of_nat 4) with 10000; lia). rewrite Z.mul_0_l, Z.add_0_l.
  rewrite expect_chars, getnum_padded, expect_chars, getnum_padded, expect_chars, getnum_padded,
    expect_chars, getnum_padded, expect_chars, getnum_padded by lia.
  cbn [read_fraction read_zone].
  rewrite !(proj2 (Z.leb_le _ _)), !(proj2 (Z.ltb_lt _ _)) by lia. cbn [andb].
  rewrite bool_decide_true by done. f_equal. rewrite Hdays. rewrite Hsec at 2. lia.
Qed.

Lemma fmtTime_nonempty t : t ≠ zero_time → fmtTime (Some t) ≠ "".
Proof.
  intros Hz. unfold fmtTime. destruct (Z.eqb_spec t zero_time); [done|].
  unfold rfc3339. destruct (civil _) as [[y m] d]. intros E. apply (f_equal to_bytes) in E.
  rewrite to_of_bytes in E. apply (f_equal List.length) in E.
  rewrite !length_app in E. simpl in E. lia.
Qed.

Lemma parse_window t :
  four_digit_year t →
  parseTimeValue (fmtTime (Some t)) = if t =? zero_time then None else Some (t / nanos * nanos).
Proof.
  intros Ht. unfold parseTimeValue.
  destruct (Z.eqb_spec t zero_time) as [->|Hz]; [done|].
  rewrite (proj2 (String.eqb_neq _ _)) by by apply fmtTime_nonempty.
  unfold fmtTime. rewrite (proj2 (Z.eqb_neq _ _)) by done.
  unfold parse_rfc3339. rewrite to_of_bytes. by apply parse_rfc3339_bytes_format.
Qed.

(** The window of a test survives its trip through text:
    reading back the RFC 3339 text an instant was rendered to gives that
    instant cut to the second, for every instant with a four-digit year, and
    no instant for the zero time, which renders as the empty text. *)
Theorem parseTimeValue_fmtTime t :
  four_digit_year t →
  parseTimeValue (fmtTime (Some t)) = (if t =? zero_time then None else Some (t / nanos * nanos)) ∧
  parseTime (fmtTime (Some t)) = parseTimeValue (fmtTime (Some t)).
Proof.
  intros Ht. split; [by apply parse_window|done].
Qed.
