(* ===== verification/Grading.v ===== *)
(** The marking rules of the assessment service
    (services/assessment-service/internal/grading/scoring.go): multiple choice
    and numeric questions, coding questions, integrity penalties.

    Marks are binary64 numbers, as in the code.  [choice_score] and
    [numeric_score] state the rules over sets of option ids and over
    tolerances, and the theorems show that the loops compute them; the bounds of awarded marks hold for the rounded arithmetic. *)

From S2P Require Import Prelude GoStrings Float64 Strconv.

#[local] Open Scope Z_scope.

(** [McqInput]: one answered multiple-choice question. *)
Record McqInput := {
  Kind : string;
  Marks : float64;
  CorrectIDs : list string;
  SelectedIDs : list string;
  TextAnswer : string;
  AcceptedAnswers : list string;
  PartialCredit : bool;
  NegativeMarking : float64;
}.

(** ** Helpers *)

(** [round2] *)
Definition round2 (v : float64) : float64 :=
  fdiv (fround (fmul v (of_Z 100))) (of_Z 100).

(** [toSet]: the Go [map[string]bool] holds [true] at exactly these keys. *)
Definition toSet (ids : list string) : gset string :=
  foldl (λ s id, if String.eqb id "" then s else {[id]} ∪ s) ∅ ids.

Fixpoint dedupe_from (seen : gset string) (out ids : list string) : list string :=
  match ids with
  | [] => out
  | id :: t =>
      if String.eqb id "" || bool_decide (id ∈ seen) then dedupe_from seen out t
      else dedupe_from ({[id]} ∪ seen) (out ++ [id]) t
  end.

(** [dedupe] *)
Definition dedupe (ids : list string) : list string := dedupe_from ∅ [] ids.

Definition float_zero : float64 := S754_zero false.

(** ** Marking *)

Definition penalty (q : McqInput) : float64 := fmul (fneg (NegativeMarking q)) (Marks q).

(** The constant [1e-9]. *)
Definition tolerance : float64 := round_ratio false 1 (10 ^ 9).

(** The accepted answers in order: the first that matches wins. *)
Fixpoint numeric_loop (q : McqInput) (answer : string) (got : option float64)
  (accepted : list string) : float64 :=
  match accepted with
  | [] => penalty q
  | a :: t =>
      let a := trim_space a in
      match parse_float a, got with
      | Some want, Some g =>
          if fltb (fabs (fsub want g)) tolerance then Marks q
          else numeric_loop q answer got t
      | _, _ => if equal_fold a answer then Marks q else numeric_loop q answer got t
      end
  end.

(** [scoreNumeric] *)
Definition scoreNumeric (q : McqInput) : float64 :=
  let answer := trim_space (TextAnswer q) in
  if String.eqb answer "" then float_zero
  else numeric_loop q answer (parse_float answer) (AcceptedAnswers q).

(** The counters of wrong and correct selections. *)
Definition count_selected (correct : gset string) (selected : list string) : Z * Z :=
  foldl (λ '(wrong, found) id,
           if bool_decide (id ∈ correct) then (wrong, found + 1) else (wrong + 1, found))
    (0, 0) selected.

Definition set_len (s : gset string) : Z := Z.of_nat (size s).

(** [ScoreMcq] *)
Definition ScoreMcq (q : McqInput) : float64 :=
  if String.eqb (Kind q) "numeric" then scoreNumeric q
  else
    let selected := dedupe (SelectedIDs q) in
    if bool_decide (selected = []) then float_zero
    else
      let correct := toSet (CorrectIDs q) in
      let '(wrong, found) := count_selected correct selected in
      if String.eqb (Kind q) "single" || negb (PartialCredit q) then
        if (wrong =? 0) && (found =? set_len correct) && (0 <? set_len correct)
        then Marks q else penalty q
      else if 0 <? wrong then penalty q
      else if set_len correct =? 0 then float_zero
      else round2 (fdiv (fmul (Marks q) (of_Z found)) (of_Z (set_len correct))).

(** [ScoreCoding] *)
Definition ScoreCoding (passed total : Z) (marks : float64) : float64 :=
  if (total <=? 0) || (passed <=? 0) then float_zero
  else if total <=? passed then marks
  else round2 (fdiv (fmul marks (of_Z passed)) (of_Z total)).

(** [IntegrityPenalty], the switch in source order. *)
Definition integrity_table : list (list string * Z) :=
  [ (["tab_blur"], 5); (["fullscreen_exit"], 8); (["paste"], 10); (["copy"], 3);
    (["devtools"], 25); (["multi_face"; "no_face"], 15);
    (["camera_denied"; "camera_off"], 20); (["camera_dark"; "no_motion"], 8);
    (["voice_detected"], 5); (["disconnect"], 2); (["duplicate_session"], 20);
    (["multi_monitor"; "screenshot"], 10); (["ip_change"], 8); (["window_resized"], 3) ].

Definition IntegrityPenalty (kind : string) : float64 :=
  match find (λ row, bool_decide (kind ∈ row.1)) integrity_table with
  | Some (_, p) => of_Z p
  | None => of_Z 2
  end.

(** ** The choice rule over sets *)

(** The set of non-empty ids of a list. *)
Definition ids_of (ids : list string) : gset string :=
  list_to_set (filter (λ id, id ≠ "") ids).

(** What the loop is meant to compute: [S] selected, [C] correct. *)
Definition choice_score (q : McqInput) (S C : gset string) : float64 :=
  if bool_decide (S = ∅) then float_zero
  else if String.eqb (Kind q) "single" || negb (PartialCredit q) then
    if bool_decide (S = C) then Marks q else penalty q
  else if bool_decide (S ⊆ C)
  then round2 (fdiv (fmul (Marks q) (of_Z (set_len S))) (of_Z (set_len C)))
  else penalty q.

(** An answer agrees with an accepted value: as numbers within the tolerance
    when both read as numbers, as texts up to case otherwise. *)
Definition agrees (answer accepted : string) : bool :=
  match parse_float (trim_space accepted), parse_float answer with
  | Some want, Some g => fltb (fabs (fsub want g)) tolerance
  | _, _ => equal_fold (trim_space accepted) answer
  end.

Definition numeric_score (q : McqInput) : float64 :=
  let answer := trim_space (TextAnswer q) in
  if String.eqb answer "" then float_zero
  else if existsb (agrees answer) (AcceptedAnswers q) then Marks q else penalty q.

(** ** Lemmas on the helpers *)

Lemma toSet_from s ids :
  foldl (λ s id, if String.eqb id "" then s else {[id]} ∪ s) s ids = ids_of ids ∪ s.
Proof.
  revert s. induction ids as [|id ids IH]; intros s; [set_solver|].
  cbn [foldl]. rewrite IH. unfold ids_of. destruct (String.eqb_spec id "") as [->|Hne].
  - rewrite filter_cons_False by (intros []; done). done.
  - rewrite filter_cons_True by done. set_solver.
Qed.

Lemma toSet_ids ids : toSet ids = ids_of ids.
Proof. unfold toSet. rewrite toSet_from. set_solver. Qed.

Lemma dedupe_from_spec seen out ids :
  NoDup out → (∀ x, x ∈ out ↔ x ∈ seen) →
  NoDup (dedupe_from seen out ids) ∧
  ∀ x, x ∈ dedupe_from seen out ids ↔ x ∈ seen ∨ x ∈ ids_of ids.
Proof.
  revert seen out. induction ids as [|id ids IH]; intros seen out Hnd Hs; simpl.
  { split; [done|]. set_solver. }
  unfold ids_of in *. destruct (String.eqb_spec id "") as [->|Hne]; simpl.
  { rewrite filter_cons_False by (intros []; done). by apply IH. }
  rewrite filter_cons_True by done. case_bool_decide as Hin.
  - destruct (IH seen out Hnd Hs) as [H1 H2]. split; [done|].
    intros x. rewrite H2. set_solver.
  - destruct (IH ({[id]} ∪ seen) (out ++ [id])) as [H1 H2].
    + apply NoDup_app. split_and!; [done| |apply NoDup_singleton].
      intros x Hx ->%list_elem_of_singleton. by apply Hs in Hx.
    + intros x. rewrite elem_of_app, list_elem_of_singleton, Hs. set_solver.
    + split; [done|]. intros x. rewrite H2. set_solver.
Qed.

Lemma dedupe_spec ids :
  NoDup (dedupe ids) ∧ list_to_set (dedupe ids) = ids_of ids.
Proof.
  destruct (dedupe_from_spec ∅ [] ids) as [H1 H2]; [constructor|set_solver|].
  split; [done|]. apply set_eq. intros x. rewrite elem_of_list_to_set, (H2 x). set_solver.
Qed.

Lemma dedupe_nil ids : dedupe ids = [] ↔ ids_of ids = ∅.
Proof.
  destruct (dedupe_spec ids) as [_ <-]. destruct (dedupe ids) as [|x l]; [done|].
  split; [done|]. intros H. exfalso. assert (Hx : x ∈ (∅ : gset string)); [|set_solver].
  rewrite <- H. set_solver.
Qed.

Lemma dedupe_length ids : Z.of_nat (length (dedupe ids)) = set_len (ids_of ids).
Proof.
  destruct (dedupe_spec ids) as [Hnd <-]. unfold set_len. by rewrite size_list_to_set.
Qed.

(** The two counters of the loop. *)
Lemma count_selected_from (correct : gset string) (selected : list string) w f :
  foldl (λ '(wrong, found) id,
           if bool_decide (id ∈ correct) then (wrong, found + 1) else (wrong + 1, found))
    (w, f) selected
  = (w + Z.of_nat (length (filter (λ id, id ∉ correct) selected)),
     f + Z.of_nat (length (filter (λ id, id ∈ correct) selected))).
Proof.
  revert w f. induction selected as [|id t IH]; intros w f; [simpl; f_equal; lia|].
  cbn [foldl]. case_bool_decide as Hin; rewrite IH.
  - rewrite filter_cons_False by (intros H; done). rewrite filter_cons_True by done.
    cbn [length]. f_equal; lia.
  - rewrite filter_cons_True by done. rewrite filter_cons_False by done.
    cbn [length]. f_equal; lia.
Qed.

Lemma count_selected_spec (correct : gset string) (selected : list string) :
  NoDup selected →
  count_selected correct selected
  = (set_len (list_to_set selected ∖ correct), set_len (list_to_set selected ∩ correct)).
Proof.
  intros Hnd. unfold count_selected, set_len. rewrite count_selected_from. f_equal.
  - rewrite <- (size_list_to_set (C := gset string)) by by apply NoDup_filter.
    rewrite Z.add_0_l. do 2 f_equal. apply set_eq. intros x.
    rewrite elem_of_list_to_set, list_elem_of_filter. set_solver.
  - rewrite <- (size_list_to_set (C := gset string)) by by apply NoDup_filter.
    rewrite Z.add_0_l. do 2 f_equal. apply set_eq. intros x.
    rewrite elem_of_list_to_set, list_elem_of_filter. set_solver.
Qed.

Lemma set_len_zero (s : gset string) : set_len s = 0 ↔ s = ∅.
Proof. unfold set_len. rewrite <- leibniz_equiv_iff, <- size_empty_iff. lia. Qed.

Lemma set_len_nonneg (s : gset string) : 0 ≤ set_len s.
Proof. unfold set_len. lia. Qed.

Lemma set_len_subseteq (s t : gset string) : s ⊆ t → set_len s ≤ set_len t.
Proof. intros H. apply subseteq_size in H. unfold set_len. lia. Qed.

Lemma set_len_eq (s t : gset string) : s ⊆ t → set_len t ≤ set_len s → s = t.
Proof.
  intros Hsub Hle. apply set_eq. intros x. split; [by apply Hsub|]. intros Hx.
  destruct (decide (x ∈ s)) as [|Hn]; [done|exfalso].
  assert (H : s ⊂ t) by (split; [done|]; intros HH; by apply Hn, HH).
  apply subset_size in H. unfold set_len in Hle. lia.
Qed.

Lemma difference_len_zero (s t : gset string) : set_len (s ∖ t) = 0 ↔ s ⊆ t.
Proof.
  rewrite set_len_zero. split; [apply empty_difference_subseteq_L|].
  apply subseteq_empty_difference_L.
Qed.

Lemma subset_inter (s t : gset string) : s ⊆ t → s ∩ t = s.
Proof. set_solver. Qed.

Lemma subset_len_nonzero (s t : gset string) : s ≠ ∅ → s ⊆ t → set_len t ≠ 0.
Proof. intros Hs Hsub Ht%set_len_zero. subst t. apply Hs. set_solver. Qed.

(** ** Bounds of proportional marks *)

(** A fraction [k / n] of [M] marks, rounded to two decimals: the scaled
    value after each of the five floating-point operations. *)
Definition share (M k n : Z) : float64 :=
  round2 (fdiv (fmul (of_Z M) (of_Z k)) (of_Z n)).

Section Share.
Variables (M n : Z).
Hypotheses (HM : 0 ≤ M) (Hn : 0 < n) (HM100 : M * 100 ≤ 2 ^ 53)
           (Hn53 : n ≤ 2 ^ 53) (HMn : M * n ≤ 2 ^ 53).

#[local] Abbreviation U := (2 ^ 1074).

Lemma U_pos : 0 < U.
Proof. apply pow2_pos. lia. Qed.

Lemma U_square : 2 ^ 2148 = U * U.
Proof. rewrite <- Z.pow_add_r by lia. done. Qed.

Lemma rep_small m : 0 ≤ m ≤ 2 ^ 53 → m * U < fmax_scale.
Proof.
  intros Hm. unfold fmax_scale. replace 2098 with (1024 + 1074) by lia.
  rewrite (Z.pow_add_r 2 1024) by lia. apply Z.mul_lt_mono_pos_r; [exact U_pos|].
  apply Z.le_lt_trans with (2 ^ 53); [lia|]. apply Z.pow_lt_mono_r; lia.
Qed.

Lemma nneg_of_Z z : 0 ≤ z ≤ 2 ^ 53 → nneg (of_Z z) ∧ sval (of_Z z) = z * U.
Proof.
  intros Hz. destruct (of_Z_spec z) as [Hf Hs]; [lia|]. split; [|done].
  split; [done|]. rewrite Hs. pose proof U_pos. apply Z.mul_nonneg_nonneg; lia.
Qed.

Definition share_scale (k : Z) : Z :=
  let b := rscale (M * k * U) (n * U) in
  let c := rscale (b * (100 * U)) (U * U) in
  rscale ((2 * c + U) / (2 * U) * U) (100 * U).

Lemma share_steps k :
  0 ≤ k ≤ n →
  let b := rscale (M * k * U) (n * U) in
  let c := rscale (b * (100 * U)) (U * U) in
  let r := (2 * c + U) / (2 * U) in
  0 ≤ b ≤ M * U ∧ 0 ≤ c ≤ (M * 100) * U ∧ 0 ≤ r ≤ M * 100
  ∧ 0 ≤ rscale (r * U) (100 * U) ≤ M * U.
Proof.
  intros Hk b c r. pose proof U_pos as HU. set (u := U) in *.
  assert (HMk : 0 ≤ M * k * u) by (apply Z.mul_nonneg_nonneg; [nia|lia]).
  assert (Hb : 0 ≤ b ≤ M * u).
  { split; [apply rscale_ge_0; nia|].
    apply rscale_le_rep; [done|nia|nia|lia|].
    assert (M * k * (u * u) ≤ M * n * (u * u)) by (apply Z.mul_le_mono_nonneg_r; nia).
    fold u. lia. }
  assert (Hc : 0 ≤ c ≤ (M * 100) * u).
  { split; [apply rscale_ge_0; nia|].
    apply rscale_le_rep; [nia|nia|nia|lia|].
    assert (b * (100 * (u * u)) ≤ M * u * (100 * (u * u)))
      by (apply Z.mul_le_mono_nonneg_r; nia).
    fold u. lia. }
  assert (Hr : 0 ≤ r ≤ M * 100).
  { unfold r. split; [apply Z.div_pos; lia|].
    apply Z.lt_succ_r, Z.div_lt_upper_bound; lia. }
  split_and!; try lia.
  - apply rscale_ge_0; nia.
  - apply rscale_le_rep; [nia|lia|nia|lia|]. fold u.
    assert (r * (u * u) ≤ M * 100 * (u * u)) by (apply Z.mul_le_mono_nonneg_r; nia).
    lia.
Qed.

Lemma share_spec k : 0 ≤ k ≤ n → nneg (share M k n) ∧ sval (share M k n) = share_scale k.
Proof.
  intros Hk. destruct (share_steps k Hk) as (Hb & Hc & Hr & Ho).
  destruct (nneg_of_Z M ltac:(lia)) as [N1 V1].
  destruct (nneg_of_Z k ltac:(lia)) as [N2 V2].
  destruct (nneg_of_Z n ltac:(lia)) as [N3 V3].
  destruct (nneg_of_Z 100 ltac:(lia)) as [N4 V4].
  pose proof U_pos as HU. pose proof (rep_small (M * k) ltac:(nia)) as R1.
  pose proof (rep_small M ltac:(lia)) as R2. pose proof (rep_small (M * 100) ltac:(lia)) as R3.
  unfold share, round2, share_scale.
  assert (E1 : rscale (M * U * (k * U)) (U * U) = M * k * U).
  { destruct (Z.eq_dec (M * k) 0) as [Hz|Hz].
    - replace (M * U * (k * U)) with (M * k * (U * U)) by ring.
      rewrite Hz, !Z.mul_0_l. apply rscale_zero, Z.mul_pos_pos; done.
    - apply rscale_exact; [|apply Z.mul_pos_pos; done|nia|lia|ring].
      replace (M * U * (k * U)) with (M * k * (U * U)) by ring.
      apply Z.mul_pos_pos; [nia|apply Z.mul_pos_pos; done]. }
  destruct (fmul_spec (of_Z M) (of_Z k) N1 N2) as [A1 A2].
  { rewrite V1, V2, U_square, E1. done. }
  rewrite V1, V2, U_square, E1 in A2.
  destruct (fdiv_spec _ (of_Z n) A1 N3) as [B1 B2].
  { rewrite V3. apply Z.mul_pos_pos; lia. }
  { rewrite A2, V3. lia. }
  rewrite A2, V3 in B2.
  destruct (fmul_spec _ (of_Z 100) B1 N4) as [C1 C2].
  { rewrite B2, V4, U_square. lia. }
  rewrite B2, V4, U_square in C2.
  destruct (fround_spec _ C1) as [D1 D2]. rewrite C2 in D2.
  destruct (fdiv_spec _ (of_Z 100) D1 N4) as [E1' E2'].
  { rewrite V4. apply Z.mul_pos_pos; lia. }
  { rewrite D2, V4. lia. }
  rewrite D2, V4 in E2'. done.
Qed.

Lemma share_scale_mono k k' : 0 ≤ k → k ≤ k' → k' ≤ n → share_scale k ≤ share_scale k'.
Proof.
  intros H0 Hkk Hkn.
  destruct (share_steps k ltac:(lia)) as (Hb & Hc & Hr & _).
  destruct (share_steps k' ltac:(lia)) as (Hb' & Hc' & Hr' & _).
  pose proof U_pos as HU. unfold share_scale.
  set (b := rscale (M * k * U) (n * U)) in *. set (b' := rscale (M * k' * U) (n * U)) in *.
  set (c := rscale (b * (100 * U)) (U * U)) in *.
  set (c' := rscale (b' * (100 * U)) (U * U)) in *. set (u := U) in *.
  assert (Hu2 : 0 < u * u) by (apply Z.mul_pos_pos; done).
  assert (HMk : M * k ≤ M * k') by (apply Z.mul_le_mono_nonneg_l; lia).
  assert (HMk0 : 0 ≤ M * k) by (apply Z.mul_nonneg_nonneg; lia).
  assert (Hnu : 0 < n * u) by (apply Z.mul_pos_pos; lia).
  assert (Hbb : b ≤ b').
  { apply rscale_le; [apply Z.mul_nonneg_nonneg; lia|done|apply Z.mul_nonneg_nonneg; lia|done|].
    apply Z.mul_le_mono_nonneg_r; [lia|]. apply Z.mul_le_mono_nonneg_r; lia. }
  assert (Hcc : c ≤ c').
  { apply rscale_le; [apply Z.mul_nonneg_nonneg; lia|done|apply Z.mul_nonneg_nonneg; lia|done|].
    apply Z.mul_le_mono_nonneg_r; [lia|]. apply Z.mul_le_mono_nonneg_r; lia. }
  assert (Hrr : (2 * c + u) / (2 * u) ≤ (2 * c' + u) / (2 * u)) by (apply Z.div_le_mono; lia).
  apply rscale_le; [apply Z.mul_nonneg_nonneg; lia|lia|apply Z.mul_nonneg_nonneg; lia|lia|].
  apply Z.mul_le_mono_nonneg_r; [lia|]. apply Z.mul_le_mono_nonneg_r; lia.
Qed.

Lemma share_bounds k :
  0 ≤ k ≤ n → nneg (share M k n) ∧ fleb (share M k n) (of_Z M) = true.
Proof.
  intros Hk. destruct (share_spec k Hk) as [Hn' Hs].
  destruct (share_steps k Hk) as (_ & _ & _ & Ho).
  destruct (of_Z_spec M ltac:(lia)) as [Hf HsM].
  split; [done|]. rewrite fleb_spec by (try done; apply Hn').
  rewrite Hs, HsM. apply Z.leb_le. unfold share_scale. lia.
Qed.

Lemma share_mono k k' :
  0 ≤ k → k ≤ k' → k' ≤ n → fleb (share M k n) (share M k' n) = true.
Proof.
  intros H0 Hkk Hkn.
  destruct (share_spec k ltac:(lia)) as [N1 S1]. destruct (share_spec k' ltac:(lia)) as [N2 S2].
  rewrite fleb_spec by (apply N1 || apply N2). rewrite S1, S2.
  by apply Z.leb_le, share_scale_mono.
Qed.
End Share.

(** ** Properties *)

(** The marking loop of a choice question computes the rule over sets. *)
Lemma ScoreMcq_choice (q : McqInput) :
  Kind q ≠ "numeric" →
  ScoreMcq q = choice_score q (ids_of (SelectedIDs q)) (ids_of (CorrectIDs q)).
Proof.
  intros Hk. unfold ScoreMcq, choice_score.
  destruct (String.eqb_spec (Kind q) "numeric"); [done|].
  destruct (dedupe_spec (SelectedIDs q)) as [Hnd HS]. rewrite toSet_ids.
  rewrite count_selected_spec by done. rewrite HS, (bool_decide_ext _ _ (dedupe_nil _)).
  generalize (ids_of (SelectedIDs q)) (ids_of (CorrectIDs q)). intros S C. clear.
  case_bool_decide as HSe; [done|].
  pose proof (difference_len_zero S C) as Hsub.
  pose proof (set_len_nonneg (S ∖ C)). pose proof (set_len_nonneg C).
  assert (Hne : S ⊆ C → set_len C ≠ 0) by by eapply subset_len_nonzero.
  destruct (_ || _).
  - destruct (Z.eqb_spec (set_len (S ∖ C)) 0) as [Hw|Hw]; simpl.
    + apply Hsub in Hw. specialize (Hne Hw).
      rewrite (subset_inter S C Hw).
      destruct (Z.eqb_spec (set_len S) (set_len C)) as [He|He]; simpl.
      * destruct (Z.ltb_spec 0 (set_len C)); [|lia].
        rewrite bool_decide_eq_true_2; [done|]. apply set_len_eq; [done|lia].
      * rewrite bool_decide_eq_false_2; [done|]. congruence.
    + rewrite bool_decide_eq_false_2; [done|]. intros ->. apply Hw, Hsub. done.
  - case_bool_decide as Hs.
    + rewrite (proj2 Hsub Hs). simpl. destruct (Z.eqb_spec (set_len C) 0); [by apply Hne in Hs|].
      by rewrite (subset_inter S C Hs).
    + destruct (Z.ltb_spec 0 (set_len (S ∖ C))); [done|].
      destruct Hs. apply Hsub. lia.
Qed.

(** The loop over the accepted answers pays when one of them agrees. *)
Lemma numeric_loop_agrees q answer accepted :
  numeric_loop q answer (parse_float answer) accepted
  = if existsb (agrees answer) accepted then Marks q else penalty q.
Proof.
  induction accepted as [|a t IH]; [done|]. simpl. rewrite IH. fold (agrees answer).
  assert (E : agrees answer a = match parse_float (trim_space a), parse_float answer with
    | Some want, Some g => fltb (fabs (fsub want g)) tolerance
    | _, _ => equal_fold (trim_space a) answer
    end) by done.
  destruct (parse_float (trim_space a)), (parse_float answer); rewrite <- E; by destruct (agrees answer a).
Qed.

(** C36.  The marking loops compute the rule: blank scores zero; an
    all-or-nothing question pays its marks exactly when the selected set is
    the correct set; with partial credit a subset of the correct set earns its
    share and any wrong selection voids the question; a numeric answer pays
    when it agrees with some accepted value.  Order, repetitions and empty ids
    in the request do not matter, nor does the order of accepted values. *)
Theorem ScoreMcq_reference (q : McqInput) :
  ScoreMcq q =
  if String.eqb (Kind q) "numeric" then numeric_score q
  else choice_score q (ids_of (SelectedIDs q)) (ids_of (CorrectIDs q)).
Proof.
  destruct (String.eqb_spec (Kind q) "numeric") as [Hk|Hk]; [|by apply ScoreMcq_choice].
  unfold ScoreMcq, scoreNumeric, numeric_score. rewrite (proj2 (String.eqb_eq _ _) Hk). cbv zeta.
  by rewrite numeric_loop_agrees.
Qed.

(** A question of a whole number of marks, small enough for the products of
    the rule to be exact: the schema allows at most 9999 marks. *)
Definition whole_marks (M n : Z) : Prop := 0 ≤ M ∧ M * 100 ≤ 2 ^ 53 ∧ n ≤ 2 ^ 53 ∧ M * n ≤ 2 ^ 53.

Lemma float_zero_le M : 0 ≤ M ≤ 2 ^ 53 → nneg float_zero ∧ fleb float_zero (of_Z M) = true.
Proof.
  intros HM. split; [done|]. destruct (of_Z_spec M ltac:(lia)) as [Hf Hs].
  rewrite fleb_spec by done. rewrite Hs. apply Z.leb_le. change (sval float_zero) with 0.
  pose proof U_pos. apply Z.mul_nonneg_nonneg; lia.
Qed.

Lemma of_Z_le_refl M : 0 ≤ M ≤ 2 ^ 53 → nneg (of_Z M) ∧ fleb (of_Z M) (of_Z M) = true.
Proof.
  intros HM. destruct (nneg_of_Z M HM) as [Hn Hs]. split; [done|].
  rewrite fleb_spec by apply Hn. apply Z.leb_refl.
Qed.

Lemma numeric_loop_cases q answer got accepted :
  numeric_loop q answer got accepted = Marks q ∨ numeric_loop q answer got accepted = penalty q.
Proof. induction accepted as [|a t IH]; simpl; [by right|]. repeat case_match; auto. Qed.

(** Every mark the grader awards is the penalty for a wrong answer or a
    number between zero and the question's marks, rounding included. *)
Theorem ScoreMcq_range (q : McqInput) (M : Z) :
  Marks q = of_Z M →
  whole_marks M (set_len (ids_of (CorrectIDs q))) →
  ScoreMcq q = penalty q ∨ (nneg (ScoreMcq q) ∧ fleb (ScoreMcq q) (Marks q) = true).
Proof.
  intros HMq (HM & HM100 & Hn & HMn). rewrite HMq.
  destruct (decide (Kind q = "numeric")) as [Hk|Hk].
  - unfold ScoreMcq, scoreNumeric. rewrite (proj2 (String.eqb_eq _ _) Hk).
    case_match; [right; apply float_zero_le; lia|].
    edestruct numeric_loop_cases as [-> | ->]; [right|by left].
    rewrite HMq. apply of_Z_le_refl. lia.
  - rewrite ScoreMcq_choice by done. unfold choice_score.
    set (S := ids_of (SelectedIDs q)) in *. set (C := ids_of (CorrectIDs q)) in *.
    case_bool_decide as HS; [right; apply float_zero_le; lia|].
    destruct (_ || _).
    + case_bool_decide; [right|by left]. rewrite HMq. apply of_Z_le_refl. lia.
    + case_bool_decide as Hsub; [right|by left].
      pose proof (subset_len_nonzero _ _ HS Hsub).
      pose proof (set_len_nonneg C). rewrite HMq. fold (share M (set_len S) (set_len C)).
      apply share_bounds; try lia. pose proof (set_len_nonneg S).
      pose proof (set_len_subseteq S C Hsub). lia.
Qed.

Lemma ScoreCoding_bounds (passed total M : Z) :
  whole_marks M total →
  nneg (ScoreCoding passed total (of_Z M)) ∧ fleb (ScoreCoding passed total (of_Z M)) (of_Z M) = true.
Proof.
  intros (HM & HM100 & Hn & HMn). unfold ScoreCoding.
  destruct (Z.leb_spec total 0); [apply float_zero_le; lia|].
  destruct (Z.leb_spec passed 0); [apply float_zero_le; lia|]. simpl.
  destruct (Z.leb_spec total passed); [apply of_Z_le_refl; lia|].
  apply share_bounds; lia.
Qed.

(** Passing more cases never lowers the mark. *)
Lemma ScoreCoding_mono (passed passed' total M : Z) :
  whole_marks M total → passed ≤ passed' →
  fleb (ScoreCoding passed total (of_Z M)) (ScoreCoding passed' total (of_Z M)) = true.
Proof.
  intros HW Hle. pose proof HW as (HM & HM100 & Hn & HMn).
  destruct (ScoreCoding_bounds passed' total M HW) as ([Hf' Hs'] & _).
  destruct (ScoreCoding_bounds passed total M HW) as ([Hf Hs] & Hub).
  unfold ScoreCoding in *.
  destruct (Z.leb_spec total 0); [by apply fleb_spec|].
  destruct (Z.leb_spec passed 0); simpl in *.
  { rewrite fleb_spec by done. by apply Z.leb_le. }
  destruct (Z.leb_spec passed' 0); [lia|]. simpl in *.
  destruct (Z.leb_spec total passed), (Z.leb_spec total passed'); try lia; try done.
  apply share_mono; lia.
Qed.

(** Coding marks lie between zero and the question's marks, are zero when
    nothing passed and the full marks when everything passed, and passing more
    cases never lowers them, rounding included. *)
Theorem ScoreCoding_range (passed total M : Z) :
  whole_marks M total →
  nneg (ScoreCoding passed total (of_Z M))
  ∧ fleb (ScoreCoding passed total (of_Z M)) (of_Z M) = true
  ∧ (passed ≤ 0 → ScoreCoding passed total (of_Z M) = float_zero)
  ∧ (0 < total ≤ passed → ScoreCoding passed total (of_Z M) = of_Z M)
  ∧ (∀ more, passed ≤ more →
       fleb (ScoreCoding passed total (of_Z M)) (ScoreCoding more total (of_Z M)) = true).
Proof.
  intros HW. apply and_assoc. split; [by apply ScoreCoding_bounds|].
  split_and!; [| |by intros more; apply ScoreCoding_mono]; unfold ScoreCoding; intros Hp.
  - destruct (Z.leb_spec passed 0); [|lia]. by rewrite orb_true_r.
  - destruct (Z.leb_spec total 0), (Z.leb_spec passed 0), (Z.leb_spec total passed); done || lia.
Qed.

Lemma within_tolerance_self x :
  match x with S754_infinity _ | S754_nan => False | _ => True end →
  fltb (fabs (fsub x x)) tolerance = true.
Proof.
  destruct x as [[]|s| |s m e]; intros H; [reflexivity..|done|done|].
  rewrite (fsub_diag s m e). reflexivity.
Qed.

(** An answer that repeats an accepted value, spaces aside, earns the
    marks, unless both read as an infinity or NaN. *)
Theorem scoreNumeric_exact (q : McqInput) (a : string) :
  a ∈ AcceptedAnswers q →
  trim_space a = trim_space (TextAnswer q) →
  trim_space (TextAnswer q) ≠ "" →
  match parse_float (trim_space a) with
  | Some (S754_infinity _) | Some S754_nan => False
  | _ => True
  end →
  scoreNumeric q = Marks q.
Proof.
  intros Hin Heq Hne Hp. unfold scoreNumeric.
  destruct (String.eqb_spec (trim_space (TextAnswer q)) ""); [done|].
  rewrite <- Heq in *. clear Heq.
  induction (AcceptedAnswers q) as [|b l IH]; [by apply not_elem_of_nil in Hin|]. simpl.
  apply elem_of_cons in Hin as [<-|Hin].
  - destruct (parse_float (trim_space a)) as [x|].
    + rewrite within_tolerance_self; [done|]. by destruct x.
    + by rewrite equal_fold_refl.
  - specialize (IH Hin). destruct (parse_float (trim_space b)), (parse_float (trim_space a));
      repeat case_match; done.
Qed.

(** An infinite answer never matches a numeric accepted value, not even
    an accepted infinity: the difference of two infinities is not below the
    tolerance, and the loop never reaches the text comparison. *)
Theorem scoreNumeric_infinite (q : McqInput) (s : bool) :
  parse_float (trim_space (TextAnswer q)) = Some (S754_infinity s) →
  Forall (λ a, is_Some (parse_float (trim_space a))) (AcceptedAnswers q) →
  trim_space (TextAnswer q) ≠ "" →
  scoreNumeric q = penalty q.
Proof.
  intros Hp Hall Hne. unfold scoreNumeric.
  destruct (String.eqb_spec (trim_space (TextAnswer q)) ""); [done|]. rewrite Hp.
  induction Hall as [|a l [w Hw] _ IH]; simpl; [done|]. rewrite Hw.
  assert (H : fltb (fabs (fsub w (S754_infinity s))) tolerance = false)
    by (destruct w as [[]|[]| |[] ? ?], s; vm_compute; done).
  by rewrite H.
Qed.

(** ** Concrete inputs *)

Definition multiple_question : McqInput :=
  {| Kind := "multiple"; Marks := of_Z 10; NegativeMarking := round_ratio false 1 4; PartialCredit := true;
     SelectedIDs := ["b"; "a"; "b"]; CorrectIDs := ["a"; "b"; "c"];
     TextAnswer := ""; AcceptedAnswers := [] |}.

Lemma ScoreMcq_range_witness :
  ScoreMcq multiple_question = penalty multiple_question ∨
  (nneg (ScoreMcq multiple_question) ∧ fleb (ScoreMcq multiple_question) (of_Z 10) = true).
Proof.
  apply (ScoreMcq_range multiple_question 10); [reflexivity|].
  unfold whole_marks. change (set_len _) with 3. lia.
Defined.

Lemma ScoreCoding_range_witness : fleb (ScoreCoding 1 3 (of_Z 10)) (ScoreCoding 2 3 (of_Z 10)) = true.
Proof.
  apply (ScoreCoding_range 1 3 10); [unfold whole_marks|]; lia.
Defined.

Definition numeric_question : McqInput :=
  {| Kind := "numeric"; Marks := of_Z 4; NegativeMarking := of_Z 1; PartialCredit := false;
     SelectedIDs := []; CorrectIDs := []; TextAnswer := " 2.50"; AcceptedAnswers := ["3"; "2.50 "] |}.

Lemma scoreNumeric_exact_witness : scoreNumeric numeric_question = of_Z 4.
Proof.
  apply (scoreNumeric_exact numeric_question "2.50 ").
  - right. left.
  - vm_compute. reflexivity.
  - vm_compute. discriminate.
  - vm_compute. exact I.
Defined.
