(* ===== verification/Json.v ===== *)
(** The part of Go's [encoding/json] the judge relies on: [json.Unmarshal]
    into an [interface{}] and [json.Marshal] of the value it gives.

    [parse] reads the text into a [raw] tree (numbers as their literals,
    object members in order, duplicates kept), the way a [json.RawMessage]
    still stands for any of them; [to_value] converts a tree to the
    [interface{}] representation: float64 numbers (out of range is an error)
    and maps in which the last of two members with one name wins.

    The recursive-descent parser runs on fuel and says so when it stops for
    lack of it; [parse_terminates] shows [parse] gives it enough. *)

From S2P Require Import Prelude GoStrings Float64 Strconv.
From Stdlib Require Import Ascii String.

#[local] Open Scope Z_scope.
Create HintDb go_json.
#[local] Abbreviation length := List.length.

(** ** Trees *)

Inductive raw :=
  | RNull
  | RBool (b : bool)
  | RNum (lit : bytes)
  | RStr (s : string)
  | RArr (l : list raw)
  | RObj (l : list (string * raw)).

(** The dynamic types an [interface{}] holds after [json.Unmarshal]. *)
Inductive json :=
  | JNull
  | JBool (b : bool)
  | JNum (x : float64)
  | JStr (s : string)
  | JArr (l : list json)
  | JObj (l : list (string * json)).

(** What a parser says: a result and the rest of the input, a syntax error,
    or that its fuel ran out. *)
Inductive parsed (A : Type) :=
  | Parsed (x : A) (rest : bytes)
  | Syntax
  | OutOfFuel.
Arguments Parsed {A}.
Arguments Syntax {A}.
Arguments OutOfFuel {A}.

(** ** Tokens *)

Definition json_space (a : ascii) : bool :=
  let n := code a in ((n =? 32) || (n =? 9) || (n =? 13) || (n =? 10))%nat.

Definition skip_space : bytes → bytes := drop_while json_space.

Definition is_char (c : ascii) (a : ascii) : bool := Ascii.eqb c a.

Definition quote : ascii := ascii_of_nat 34.
Definition backslash : ascii := ascii_of_nat 92.

(** The string scanner: inside the string, after a backslash, or with [n]
    hexadecimal digits of a \u escape to come. *)
Inductive string_state := InString | InEscape | InHex (n : nat).

Definition escape_char (a : ascii) : bool :=
  existsb (is_char a) ["b"%char; "f"%char; "n"%char; "r"%char; "t"%char; backslash; "/"%char; quote].

(** The body of a string literal up to its closing quote, still escaped. *)
Fixpoint scan_string (st : string_state) (s acc : bytes) : parsed bytes :=
  match s with
  | [] => Syntax
  | a :: r =>
      match st with
      | InString =>
          if is_char quote a then Parsed (rev acc) r
          else if is_char backslash a then scan_string InEscape r (a :: acc)
          else if (code a <? 32)%nat then Syntax
          else scan_string InString r (a :: acc)
      | InEscape =>
          if is_char "u"%char a then scan_string (InHex 4) r (a :: acc)
          else if escape_char a then scan_string InString r (a :: acc)
          else Syntax
      | InHex n =>
          match hex_val a with
          | Some _ =>
              scan_string (match n with S (S m) => InHex (S m) | _ => InString end) r (a :: acc)
          | None => Syntax
          end
      end
  end.

(** ** UTF-8 *)

Definition in_range_b (lo hi : nat) (a : ascii) : bool :=
  ((lo <=? code a) && (code a <=? hi))%nat.

Definition continuation : ascii → bool := in_range_b 0x80 0xBF.

(** The length of the well-formed encoding at the front, 0 if there is none. *)
Definition rune_len (s : bytes) : nat :=
  match s with
  | a :: r =>
      if (code a <? 0x80)%nat then 1%nat
      else match r with
      | b :: r2 =>
          if in_range_b 0xC2 0xDF a && continuation b then 2%nat
          else match r2 with
          | c :: r3 =>
              if continuation c &&
                 (in_range_b 0xE0 0xE0 a && in_range_b 0xA0 0xBF b
                  || in_range_b 0xE1 0xEC a && continuation b
                  || in_range_b 0xED 0xED a && in_range_b 0x80 0x9F b
                  || in_range_b 0xEE 0xEF a && continuation b)
              then 3%nat
              else match r3 with
              | d :: _ =>
                  if continuation c && continuation d &&
                     (in_range_b 0xF0 0xF0 a && in_range_b 0x90 0xBF b
                      || in_range_b 0xF1 0xF3 a && continuation b
                      || in_range_b 0xF4 0xF4 a && in_range_b 0x80 0x8F b)
                  then 4%nat else 0%nat
              | [] => 0%nat
              end
          | [] => 0%nat
          end
      | [] => 0%nat
      end
  | [] => 0%nat
  end.

Definition byte (z : Z) : ascii := ascii_of_nat (Z.to_nat z).

(** [utf8.EncodeRune] *)
Definition encode_rune (r : Z) : bytes :=
  if r <? 0x80 then [byte r]
  else if r <? 0x800 then [byte (0xC0 + r / 64); byte (0x80 + r mod 64)]
  else if r <? 0x10000 then
    [byte (0xE0 + r / 4096); byte (0x80 + r / 64 mod 64); byte (0x80 + r mod 64)]
  else
    [byte (0xF0 + r / 262144); byte (0x80 + r / 4096 mod 64);
     byte (0x80 + r / 64 mod 64); byte (0x80 + r mod 64)].

Definition replacement : bytes := encode_rune 0xFFFD.

(** The value of the four hexadecimal digits at the front. *)
Definition hex4 (s : bytes) : option (Z * bytes) :=
  match s with
  | a :: b :: c :: d :: r =>
      match hex_val a, hex_val b, hex_val c, hex_val d with
      | Some w, Some x, Some y, Some z => Some (((w * 16 + x) * 16 + y) * 16 + z, r)
      | _, _, _, _ => None
      end
  | _ => None
  end.

Definition low_escape (s : bytes) : option (Z * bytes) :=
  match s with
  | b :: u :: r => if is_char backslash b && is_char "u"%char u then hex4 r else None
  | _ => None
  end.

(** A \u escape whose digits have been read: surrogates pair with the escape
    that follows, or stand for U+FFFD. *)
Definition unquote_rune (r : Z) (s : bytes) : bytes * bytes :=
  if (0xD800 <=? r) && (r <? 0xE000) then
    match low_escape s with
    | Some (lo, rest) =>
        if (r <? 0xDC00) && (0xDC00 <=? lo) && (lo <? 0xE000)
        then (encode_rune (0x10000 + (r - 0xD800) * 1024 + (lo - 0xDC00)), rest)
        else (replacement, s)
    | None => (replacement, s)
    end
  else (encode_rune r, s).

Definition simple_escape (a : ascii) : ascii :=
  if is_char "b"%char a then ascii_of_nat 8
  else if is_char "f"%char a then ascii_of_nat 12
  else if is_char "n"%char a then ascii_of_nat 10
  else if is_char "r"%char a then ascii_of_nat 13
  else if is_char "t"%char a then ascii_of_nat 9
  else a.

(** [unquote] on a scanned body: at most one step per byte. *)
Fixpoint unquote (fuel : nat) (s : bytes) : bytes :=
  match fuel with
  | O => []
  | S f =>
      match s with
      | [] => []
      | a :: r =>
          if is_char backslash a then
            match r with
            | [] => []
            | e :: r2 =>
                if is_char "u"%char e then
                  match hex4 r2 with
                  | Some (z, r3) =>
                      let '(out, rest) := unquote_rune z r3 in out ++ unquote f rest
                  | None => []
                  end
                else simple_escape e :: unquote f r2
            end
          else
            match rune_len s with
            | O => replacement ++ unquote f r
            | n => firstn n s ++ unquote f (skipn n s)
            end
      end
  end.

Definition unquote_body (b : bytes) : string := of_bytes (unquote (List.length b) b).

(** ** Numbers *)

Fixpoint take_digits (s : bytes) : bytes * bytes :=
  match s with
  | a :: r => if is_digit a then let '(d, t) := take_digits r in (a :: d, t) else ([], s)
  | [] => ([], [])
  end.

(** One or more digits. *)
Definition digits1 (s : bytes) : option (bytes * bytes) :=
  match take_digits s with ([], _) => None | p => Some p end.

Definition int_part (s : bytes) : option (bytes * bytes) :=
  match s with
  | a :: r => if is_char "0"%char a then Some ([a], r) else digits1 s
  | [] => None
  end.

Definition frac_part (s : bytes) : option (bytes * bytes) :=
  match s with
  | a :: r =>
      if is_char dot a
      then match digits1 r with Some (d, t) => Some (a :: d, t) | None => None end
      else Some ([], s)
  | [] => Some ([], [])
  end.

Definition exp_part (s : bytes) : option (bytes * bytes) :=
  match s with
  | a :: r =>
      if is_char "e"%char (lower_byte a) then
        let '(sg, r) := match r with
                        | b :: r' => if is_char plus b || is_char minus b then ([b], r') else ([], r)
                        | [] => ([], r)
                        end in
        match digits1 r with Some (d, t) => Some (a :: sg ++ d, t) | None => None end
      else Some ([], s)
  | [] => Some ([], [])
  end.

(** A number literal and the rest. *)
Definition scan_number (s : bytes) : parsed bytes :=
  let '(sg, r) := match s with
                  | a :: r => if is_char minus a then ([a], r) else ([], s)
                  | [] => ([], s)
                  end in
  match int_part r with
  | None => Syntax
  | Some (i, r1) =>
      match frac_part r1 with
      | None => Syntax
      | Some (f, r2) =>
          match exp_part r2 with
          | None => Syntax
          | Some (e, r3) => Parsed (sg ++ i ++ f ++ e) r3
          end
      end
  end.

(** ** Values *)

(** [w] at the front of the input. *)
Fixpoint literal (w s : bytes) : option bytes :=
  match w, s with
  | [], _ => Some s
  | a :: w', b :: s' => if is_char a b then literal w' s' else None
  | _ :: _, [] => None
  end.

Definition keyword (s : bytes) : parsed raw :=
  match literal (to_bytes "true") s with
  | Some r => Parsed (RBool true) r
  | None =>
      match literal (to_bytes "false") s with
      | Some r => Parsed (RBool false) r
      | None =>
          match literal (to_bytes "null") s with
          | Some r => Parsed RNull r
          | None => Syntax
          end
      end
  end.

(** The deepest nesting [encoding/json] accepts. *)
Definition max_depth : Z := 10000.

(** [value] reads a value after optional space; [elements] the elements of an
    array, at least one, up to its bracket; [members] those of an object. *)
Fixpoint value (fuel : nat) (depth : Z) (s : bytes) : parsed raw :=
  match fuel with
  | O => OutOfFuel
  | S f =>
      match skip_space s with
      | [] => Syntax
      | a :: r =>
          if is_char quote a then
            match scan_string InString r [] with
            | Parsed b t => Parsed (RStr (unquote_body b)) t
            | Syntax => Syntax | OutOfFuel => OutOfFuel
            end
          else if is_char "["%char a then
            if max_depth <=? depth then Syntax
            else match skip_space r with
                 | b :: t => if is_char "]"%char b then Parsed (RArr []) t
                             else elements f (depth + 1) r []
                 | [] => Syntax
                 end
          else if is_char "{"%char a then
            if max_depth <=? depth then Syntax
            else match skip_space r with
                 | b :: t => if is_char "}"%char b then Parsed (RObj []) t
                             else members f (depth + 1) r []
                 | [] => Syntax
                 end
          else if is_char minus a || is_digit a then
            match scan_number (a :: r) with
            | Parsed lit t => Parsed (RNum lit) t
            | Syntax => Syntax | OutOfFuel => OutOfFuel
            end
          else keyword (a :: r)
      end
  end
with elements (fuel : nat) (depth : Z) (s : bytes) (acc : list raw) : parsed raw :=
  match fuel with
  | O => OutOfFuel
  | S f =>
      match value f depth s with
      | Parsed v t =>
          match skip_space t with
          | c :: u =>
              if is_char ","%char c then elements f depth u (v :: acc)
              else if is_char "]"%char c then Parsed (RArr (rev (v :: acc))) u
              else Syntax
          | [] => Syntax
          end
      | Syntax => Syntax | OutOfFuel => OutOfFuel
      end
  end
with members (fuel : nat) (depth : Z) (s : bytes) (acc : list (string * raw)) : parsed raw :=
  match fuel with
  | O => OutOfFuel
  | S f =>
      match skip_space s with
      | q :: r =>
          if negb (is_char quote q) then Syntax
          else match scan_string InString r [] with
          | Parsed k t =>
              match skip_space t with
              | c :: u =>
                  if negb (is_char ":"%char c) then Syntax
                  else match value f depth u with
                  | Parsed v t' =>
                      match skip_space t' with
                      | c' :: u' =>
                          let acc := (unquote_body k, v) :: acc in
                          if is_char ","%char c' then members f depth u' acc
                          else if is_char "}"%char c' then Parsed (RObj (rev acc)) u'
                          else Syntax
                      | [] => Syntax
                      end
                  | Syntax => Syntax | OutOfFuel => OutOfFuel
                  end
              | [] => Syntax
              end
          | Syntax => Syntax | OutOfFuel => OutOfFuel
          end
      | [] => Syntax
      end
  end.

(** Two calls per byte at most: a value and the list it stands in. *)
Definition fuel_for (s : bytes) : nat := (2 * List.length s + 2)%nat.

Definition parse_full (s : bytes) : parsed raw :=
  match value (fuel_for s) 0 s with
  | Parsed v t => match skip_space t with [] => Parsed v [] | _ => Syntax end
  | p => p
  end.

(** The tree of a valid JSON text. *)
Definition parse (s : string) : option raw :=
  match parse_full (to_bytes s) with Parsed v _ => Some v | _ => None end.

(** ** Conversion to [interface{}] *)

(** Assignment to a Go map: an existing key keeps its place in the list, the
    order of which no modelled operation observes. *)
Fixpoint assign {A} (k : string) (v : A) (l : list (string * A)) : list (string * A) :=
  match l with
  | [] => [(k, v)]
  | (k', v') :: t => if String.eqb k k' then (k, v) :: t else (k', v') :: assign k v t
  end.

Definition make_map {A} (l : list (string * A)) : list (string * A) :=
  fold_left (λ m '(k, v), assign k v m) l [].

Section MapOption.
Context {A B : Type} (f : A → option B).
Fixpoint map_opt (l : list A) : option (list B) :=
  match l with
  | [] => Some []
  | x :: t =>
      match f x, map_opt t with Some y, Some ys => Some (y :: ys) | _, _ => None end
  end.
End MapOption.

Fixpoint to_value (r : raw) : option json :=
  match r with
  | RNull => Some JNull
  | RBool b => Some (JBool b)
  | RNum lit => match parse_float_bytes lit with Some x => Some (JNum x) | None => None end
  | RStr s => Some (JStr s)
  | RArr l => match map_opt to_value l with Some vs => Some (JArr vs) | None => None end
  | RObj l =>
      match map_opt (λ kv : string * raw,
                       match to_value kv.2 with Some v => Some (kv.1, v) | None => None end) l with
      | Some kvs => Some (JObj (make_map kvs))
      | None => None
      end
  end.

(** [json.Unmarshal] into an [interface{}]; [None] is an error. *)
Definition unmarshal (s : string) : option json :=
  match parse s with Some r => to_value r | None => None end.

(** ** Writing *)

Definition hex_digit (n : Z) : ascii :=
  ascii_of_nat (Z.to_nat (if n <? 10 then 48 + n else 87 + n)).

Definition u00 (a : ascii) : bytes :=
  let n := Z.of_nat (code a) in
  [backslash; "u"%char; "0"%char; "0"%char; hex_digit (n / 16); hex_digit (n mod 16)].

(** A byte below 0x80 inside a string, HTML characters escaped. *)
Definition quote_byte (a : ascii) : bytes :=
  if is_char quote a || is_char backslash a then [backslash; a]
  else match code a with
  | 8 => [backslash; "b"%char] | 12 => [backslash; "f"%char]
  | 10 => [backslash; "n"%char] | 13 => [backslash; "r"%char] | 9 => [backslash; "t"%char]
  | _ =>
      if (code a <? 32)%nat || is_char "<"%char a || is_char ">"%char a || is_char "&"%char a
      then u00 a else [a]
  end%nat.

(** U+2028 and U+2029 are escaped too, invalid bytes become U+FFFD. *)
Definition quote_rune (s : bytes) : bytes * bytes :=
  match s, rune_len s with
  | [], _ => ([], [])
  | a :: r, O => (to_bytes "\ufffd", r)
  | a :: r, 1%nat => (quote_byte a, r)
  | _, n =>
      match s with
      | a :: b :: c :: r =>
          if ((code a =? 0xE2) && (code b =? 0x80) && ((code c =? 0xA8) || (code c =? 0xA9)))%nat
          then (to_bytes "\u202" ++ [hex_digit (Z.of_nat (code c) mod 16)], r)
          else (firstn n s, skipn n s)
      | _ => (firstn n s, skipn n s)
      end
  end.

Fixpoint quote_runes (fuel : nat) (s : bytes) : bytes :=
  match fuel with
  | O => []
  | S f => match s with
           | [] => []
           | _ => let '(out, r) := quote_rune s in out ++ quote_runes f r
           end
  end.

Definition quote_string (s : string) : bytes :=
  let b := to_bytes s in quote :: quote_runes (List.length b) b ++ [quote].

Fixpoint join_bytes (sep : ascii) (l : list bytes) : bytes :=
  match l with
  | [] => []
  | [x] => x
  | x :: t => x ++ sep :: join_bytes sep t
  end.

(** [json.Marshal]; map keys are written in byte order. *)
Fixpoint marshal (v : json) : bytes :=
  match v with
  | JNull => to_bytes "null"
  | JBool b => to_bytes (format_bool b)
  | JNum x => format_json_bytes x
  | JStr s => quote_string s
  | JArr l => "["%char :: join_bytes ","%char (map marshal l) ++ ["]"%char]
  | JObj l =>
      let kvs := stable_sort fst (map (λ kv : string * json, (kv.1, marshal kv.2)) l) in
      "{"%char
        :: join_bytes ","%char (map (λ kv : string * bytes, quote_string kv.1 ++ ":"%char :: kv.2) kvs)
        ++ ["}"%char]
  end.

(** ** Induction over values *)

Section JsonInd.
Variable P : json → Prop.
Hypotheses (Hnull : P JNull) (Hbool : ∀ b, P (JBool b)) (Hnum : ∀ x, P (JNum x))
  (Hstr : ∀ s, P (JStr s)) (Harr : ∀ l, Forall P l → P (JArr l))
  (Hobj : ∀ l, Forall (λ kv, P kv.2) l → P (JObj l)).

Fixpoint json_nested_ind (v : json) : P v :=
  match v with
  | JNull => Hnull
  | JBool b => Hbool b
  | JNum x => Hnum x
  | JStr s => Hstr s
  | JArr l =>
      Harr l ((fix go l : Forall P l :=
                 match l with
                 | [] => Forall_nil_2 P
                 | x :: t => Forall_cons_2 P x t (json_nested_ind x) (go t)
                 end) l)
  | JObj l =>
      Hobj l ((fix go l : Forall (λ kv : string * json, P kv.2) l :=
                 match l with
                 | [] => Forall_nil_2 _
                 | x :: t => Forall_cons_2 _ x t (json_nested_ind x.2) (go t)
                 end) l)
  end.
End JsonInd.

Section RawInd.
Variable P : raw → Prop.
Hypotheses (Hnull : P RNull) (Hbool : ∀ b, P (RBool b)) (Hnum : ∀ x, P (RNum x))
  (Hstr : ∀ s, P (RStr s)) (Harr : ∀ l, Forall P l → P (RArr l))
  (Hobj : ∀ l, Forall (λ kv, P kv.2) l → P (RObj l)).

Fixpoint raw_nested_ind (v : raw) : P v :=
  match v with
  | RNull => Hnull
  | RBool b => Hbool b
  | RNum x => Hnum x
  | RStr s => Hstr s
  | RArr l =>
      Harr l ((fix go l : Forall P l :=
                 match l with
                 | [] => Forall_nil_2 P
                 | x :: t => Forall_cons_2 P x t (raw_nested_ind x) (go t)
                 end) l)
  | RObj l =>
      Hobj l ((fix go l : Forall (λ kv : string * raw, P kv.2) l :=
                 match l with
                 | [] => Forall_nil_2 _
                 | x :: t => Forall_cons_2 _ x t (raw_nested_ind x.2) (go t)
                 end) l)
  end.
End RawInd.

(** ** The parser makes progress *)

#[local] Arguments is_char : simpl never.
#[local] Arguments hex_val : simpl never.
#[local] Arguments escape_char : simpl never.
#[local] Arguments is_digit : simpl never.
#[local] Arguments lower_byte : simpl never.
#[local] Arguments json_space : simpl never.
#[local] Arguments code : simpl never.
#[local] Arguments Nat.ltb : simpl never.

Lemma drop_while_length {A} (p : A → bool) l : (length (drop_while p l) ≤ length l)%nat.
Proof. induction l as [|x l IH]; simpl; [done|]. destruct (p x); simpl; lia. Qed.

Lemma skip_space_cons s a r : skip_space s = a :: r → (S (length r) ≤ length s)%nat.
Proof.
  intros H. pose proof (drop_while_length json_space s) as Hl.
  fold (skip_space s) in Hl. rewrite H in Hl. done.
Qed.

Lemma scan_string_fuel st s acc : scan_string st s acc ≠ OutOfFuel.
Proof.
  revert st acc. induction s as [|a s IH]; intros st acc; simpl; [done|].
  repeat case_match; done || apply IH.
Qed.

Lemma scan_string_rest st s acc b t :
  scan_string st s acc = Parsed b t → (length t < length s)%nat.
Proof.
  revert st acc. induction s as [|a s IH]; intros st acc; simpl; [done|].
  repeat case_match; intros H'; simplify_eq; try lia; apply IH in H'; lia.
Qed.

Lemma take_digits_app s : let '(d, t) := take_digits s in s = d ++ t.
Proof.
  induction s as [|a s IH]; simpl; [done|]. destruct (is_digit a); [|done].
  destruct (take_digits s). by rewrite IH.
Qed.

Lemma digits1_app s d t : digits1 s = Some (d, t) → s = d ++ t ∧ d ≠ [].
Proof.
  unfold digits1. pose proof (take_digits_app s) as H. destruct (take_digits s) as [[|x l] t'].
  - done.
  - intros [= <- <-]. done.
Qed.

Lemma int_part_app s d t : int_part s = Some (d, t) → s = d ++ t ∧ d ≠ [].
Proof.
  destruct s as [|a s]; simpl; [done|]. destruct (is_char "0"%char a).
  - by intros [= <- <-].
  - apply digits1_app.
Qed.

Lemma frac_part_app s d t : frac_part s = Some (d, t) → s = d ++ t.
Proof.
  destruct s as [|a s]; simpl; [by intros [= <- <-]|].
  destruct (is_char dot a); [|by intros [= <- <-]].
  destruct (digits1 s) as [[d' t']|] eqn:E; [|done]. intros [= <- <-].
  apply digits1_app in E as [-> _]. done.
Qed.

Lemma exp_part_app s d t : exp_part s = Some (d, t) → s = d ++ t.
Proof.
  destruct s as [|a s]; simpl; [by intros [= <- <-]|].
  destruct (is_char "e"%char (lower_byte a)); [|by intros [= <- <-]].
  destruct s as [|b s]; [done|]. destruct (_ || _).
  - destruct (digits1 s) as [[d' t']|] eqn:E; [|done]. intros [= <- <-].
    apply digits1_app in E as [-> _]. done.
  - destruct (digits1 (b :: s)) as [[d' t']|] eqn:E; [|done]. intros [= <- <-].
    apply digits1_app in E as [-> _]. done.
Qed.

Lemma scan_number_app s lit t : scan_number s = Parsed lit t → s = lit ++ t ∧ lit ≠ [].
Proof.
  unfold scan_number.
  assert (Hs : ∃ sg r, s = sg ++ r ∧
    match s with a :: r => if is_char minus a then ([a], r) else ([], s) | [] => ([], s) end = (sg, r)).
  { destruct s as [|a s]; [by exists [], []|]. destruct (is_char minus a); [by exists [a], s|].
    by exists [], (a :: s). }
  destruct Hs as (sg & r & -> & ->).
  destruct (int_part r) as [[i r1]|] eqn:Ei; [|done].
  destruct (frac_part r1) as [[f r2]|] eqn:Ef; [|done].
  destruct (exp_part r2) as [[e r3]|] eqn:Ee; [|done].
  intros [= <- <-]. apply int_part_app in Ei as [-> Hi].
  apply frac_part_app in Ef as ->. apply exp_part_app in Ee as ->.
  rewrite <- !app_assoc. split; [done|]. destruct sg, i; done.
Qed.

Lemma literal_app w s r : literal w s = Some r → s = w ++ r.
Proof.
  revert s. induction w as [|a w IH]; intros s; simpl; [by intros [= ->]|].
  destruct s as [|b s]; [done|]. destruct (is_char a b) eqn:E; [|done].
  apply Ascii.eqb_eq in E as ->. intros H. by rewrite (IH _ H).
Qed.

Lemma keyword_fuel s : keyword s ≠ OutOfFuel.
Proof. unfold keyword. by repeat case_match. Qed.

Lemma keyword_rest s v t : keyword s = Parsed v t → (length t < length s)%nat.
Proof.
  unfold keyword. intros H. repeat case_match; simplify_eq;
    match goal with E : literal _ _ = Some _ |- _ => apply literal_app in E; subst end;
    rewrite length_app; simpl; lia.
Qed.

(** With two units of fuel per byte no call runs dry, and a parsed value is
    shorter by at least one byte. *)
Lemma parser_progress fuel :
  (∀ d s, ((2 * length s + 1 ≤ fuel)%nat → value fuel d s ≠ OutOfFuel) ∧
          (∀ v t, value fuel d s = Parsed v t → (length t < length s)%nat)) ∧
  (∀ d s acc, ((2 * length s + 2 ≤ fuel)%nat → elements fuel d s acc ≠ OutOfFuel) ∧
          (∀ v t, elements fuel d s acc = Parsed v t → (length t < length s)%nat)) ∧
  (∀ d s acc, ((2 * length s + 1 ≤ fuel)%nat → members fuel d s acc ≠ OutOfFuel) ∧
          (∀ v t, members fuel d s acc = Parsed v t → (length t < length s)%nat)).
Proof.
  induction fuel as [|f (IHv & IHe & IHm)].
  { split_and!; intros; split; (done || lia). }
  split_and!.
  - intros d s. simpl. destruct (skip_space s) as [|a r] eqn:E; [done|].
    apply skip_space_cons in E.
    destruct (is_char quote a).
    { pose proof (scan_string_fuel InString r []). destruct (scan_string InString r []) eqn:Es; try done.
      split; [done|]. intros v t [= <- <-]. apply scan_string_rest in Es. lia. }
    destruct (is_char "["%char a).
    { destruct (max_depth <=? d); [done|].
      destruct (skip_space r) as [|b t] eqn:Er; [done|]. apply skip_space_cons in Er.
      destruct (is_char "]"%char b).
      - split; [done|]. intros v t' [= <- <-]. lia.
      - destruct (IHe (d + 1) r []) as [H1 H2]. split; [intros; apply H1; lia|].
        intros v t' Ht. apply H2 in Ht. lia. }
    destruct (is_char "{"%char a).
    { destruct (max_depth <=? d); [done|].
      destruct (skip_space r) as [|b t] eqn:Er; [done|]. apply skip_space_cons in Er.
      destruct (is_char "}"%char b).
      - split; [done|]. intros v t' [= <- <-]. lia.
      - destruct (IHm (d + 1) r []) as [H1 H2]. split; [intros; apply H1; lia|].
        intros v t' Ht. apply H2 in Ht. lia. }
    destruct (_ || _).
    { destruct (scan_number (a :: r)) as [lit t| |] eqn:Es; try done.
      - split; [done|]. intros v t' [= <- <-]. apply scan_number_app in Es as [Es Hl].
        assert (Hlen : length (a :: r) = length (lit ++ t)) by by rewrite Es.
        rewrite length_app in Hlen. simpl in Hlen. destruct lit; [done|]. simpl in Hlen. lia.
      - exfalso. unfold scan_number in Es. by repeat case_match. }
    split; [intros; apply keyword_fuel|]. intros v t Ht. apply keyword_rest in Ht. simpl in Ht. lia.
  - intros d s acc. simpl. destruct (IHv d s) as [H1 H2].
    destruct (value f d s) as [v t| |]; [|done|split; [intros; apply H1; lia|done]].
    specialize (H2 v t eq_refl). destruct (skip_space t) as [|c u] eqn:E; [done|].
    apply skip_space_cons in E. destruct (is_char ","%char c).
    { destruct (IHe d u (v :: acc)) as [H3 H4]. split; [intros; apply H3; lia|].
      intros v' t' Ht. apply H4 in Ht. lia. }
    destruct (is_char "]"%char c); [|done]. split; [done|]. intros v' t' [= <- <-]. lia.
  - intros d s acc. simpl. destruct (skip_space s) as [|q r] eqn:E; [done|].
    apply skip_space_cons in E. destruct (is_char quote q); [|done]. simpl.
    pose proof (scan_string_fuel InString r []).
    destruct (scan_string InString r []) as [k t| |] eqn:Es; try done.
    apply scan_string_rest in Es. destruct (skip_space t) as [|c u] eqn:Et; [done|].
    apply skip_space_cons in Et. destruct (is_char ":"%char c); [|done]. simpl.
    destruct (IHv d u) as [H1 H2].
    destruct (value f d u) as [v t'| |]; [|done|split; [intros; apply H1; lia|done]].
    specialize (H2 v t' eq_refl). destruct (skip_space t') as [|c' u'] eqn:Et'; [done|].
    apply skip_space_cons in Et'. destruct (is_char ","%char c').
    { destruct (IHm d u' ((unquote_body k, v) :: acc)) as [H3 H4]. split; [intros; apply H3; lia|].
      intros v' w Ht. apply H4 in Ht. lia. }
    destruct (is_char "}"%char c'); [|done]. split; [done|]. intros v' w [= <- <-]. lia.
Qed.

Lemma value_fuel_for d s : value (fuel_for s) d s ≠ OutOfFuel.
Proof. destruct (parser_progress (fuel_for s)) as [H _]. apply H. unfold fuel_for. lia. Qed.

(** ** The grammar

    [Lays d r s]: [s] is a layout of the tree [r] at nesting depth [d], with
    any amount of white space between tokens and none around the whole. *)

Definition spaces (w : bytes) : Prop := Forall (λ a, json_space a = true) w.

Inductive Lays : Z → raw → bytes → Prop :=
  | lays_null d : Lays d RNull (to_bytes "null")
  | lays_true d : Lays d (RBool true) (to_bytes "true")
  | lays_false d : Lays d (RBool false) (to_bytes "false")
  | lays_num d lit : scan_number lit = Parsed lit [] → Lays d (RNum lit) lit
  | lays_str d body t :
      scan_string InString t [] = Parsed body [] → Lays d (RStr (unquote_body body)) (quote :: t)
  | lays_arr_nil d w : d < max_depth → spaces w → Lays d (RArr []) ("["%char :: w ++ ["]"%char])
  | lays_arr d l s :
      d < max_depth → LaysElements (d + 1) l s → Lays d (RArr l) ("["%char :: s)
  | lays_obj_nil d w : d < max_depth → spaces w → Lays d (RObj []) ("{"%char :: w ++ ["}"%char])
  | lays_obj d l s :
      d < max_depth → LaysMembers (d + 1) l s → Lays d (RObj l) ("{"%char :: s)
with LaysElements : Z → list raw → bytes → Prop :=
  | lays_last d r w s w' :
      spaces w → Lays d r s → spaces w' → LaysElements d [r] (w ++ s ++ w' ++ ["]"%char])
  | lays_more d r l w s w' t :
      spaces w → Lays d r s → spaces w' → LaysElements d l t →
      LaysElements d (r :: l) (w ++ s ++ w' ++ ","%char :: t)
with LaysMembers : Z → list (string * raw) → bytes → Prop :=
  | lays_member d r w k body w1 w2 s w' :
      spaces w → scan_string InString k [] = Parsed body [] → spaces w1 → spaces w2 →
      Lays d r s → spaces w' →
      LaysMembers d [(unquote_body body, r)]
        (w ++ quote :: k ++ w1 ++ ":"%char :: w2 ++ s ++ w' ++ ["}"%char])
  | lays_members d r l w k body w1 w2 s w' t :
      spaces w → scan_string InString k [] = Parsed body [] → spaces w1 → spaces w2 →
      Lays d r s → spaces w' → LaysMembers d l t →
      LaysMembers d ((unquote_body body, r) :: l)
        (w ++ quote :: k ++ w1 ++ ":"%char :: w2 ++ s ++ w' ++ ","%char :: t).

Scheme Lays_mut := Induction for Lays Sort Prop
  with LaysElements_mut := Induction for LaysElements Sort Prop
  with LaysMembers_mut := Induction for LaysMembers Sort Prop.
Combined Scheme lays_mutind from Lays_mut, LaysElements_mut, LaysMembers_mut.

(** What may follow a value: nothing that would extend a number. *)
Definition follows (s : bytes) : Prop :=
  match s with
  | [] => True
  | a :: _ => is_digit a = false ∧ is_char dot a = false ∧ is_char "e"%char (lower_byte a) = false
  end.

Lemma follows_space w s : spaces w → follows s → follows (w ++ s).
Proof.
  destruct 1 as [|a w Ha _]; [done|]. intros _. simpl.
  destruct a as [[] [] [] [] [] [] [] []]; try done.
Qed.

Lemma skip_space_app w s : spaces w → skip_space (w ++ s) = skip_space s.
Proof. apply drop_while_app_false. Qed.

Lemma scan_string_app st s acc b t x :
  scan_string st s acc = Parsed b t → scan_string st (s ++ x) acc = Parsed b (t ++ x).
Proof.
  revert st acc. induction s as [|a s IH]; intros st acc; simpl; [done|].
  repeat case_match; intros H'; simplify_eq; auto.
Qed.

Lemma take_digits_follow s d x :
  take_digits s = (d, []) → match x with a :: _ => is_digit a = false | [] => True end →
  take_digits (s ++ x) = (d, x).
Proof.
  revert d. induction s as [|a s IH]; intros d; simpl.
  - intros [= <-] Hx. destruct x as [|b x]; simpl; [done|]. by rewrite Hx.
  - destruct (is_digit a); [|done]. destruct (take_digits s) as [d' t']. intros [= <- ->] Hx.
    by rewrite (IH d').
Qed.

Lemma take_digits_stop s d t a x :
  take_digits s = (d, a :: t) → take_digits (s ++ x) = (d, a :: t ++ x).
Proof.
  revert d. induction s as [|b s IH]; intros d; simpl; [done|].
  destruct (is_digit b) eqn:E.
  - destruct (take_digits s) as [d' t']. intros [= <- ->]. by rewrite (IH d').
  - by intros [= <- <- ->].
Qed.

Lemma digits1_follow s d t x :
  digits1 s = Some (d, t) → (t = [] → follows x) → digits1 (s ++ x) = Some (d, t ++ x).
Proof.
  unfold digits1. destruct (take_digits s) as [[|c l] t'] eqn:E; [done|].
  intros [= <- <-] Hx. destruct t' as [|a t'].
  - rewrite (take_digits_follow s (c :: l) x E); [done|]. specialize (Hx eq_refl).
    destruct x; simpl in *; tauto.
  - by rewrite (take_digits_stop s (c :: l) t' a x E).
Qed.

Lemma int_part_follow s d t x :
  int_part s = Some (d, t) → (t = [] → follows x) → int_part (s ++ x) = Some (d, t ++ x).
Proof.
  destruct s as [|a s]; simpl; [done|]. destruct (is_char "0"%char a).
  - by intros [= <- <-].
  - intros H1 H2. by apply (digits1_follow (a :: s)).
Qed.

Lemma frac_part_follow s d t x :
  frac_part s = Some (d, t) → (t = [] → follows x) → frac_part (s ++ x) = Some (d, t ++ x).
Proof.
  destruct s as [|a s]; simpl.
  - intros [= <- <-] Hx. specialize (Hx eq_refl). destruct x as [|b x]; [done|]. simpl in *.
    by destruct Hx as (_ & -> & _).
  - destruct (is_char dot a); [|by intros [= <- <-]].
    destruct (digits1 s) as [[d' t']|] eqn:E; [|done]. intros [= <- <-] Hx.
    by rewrite (digits1_follow s d' t' x).
Qed.

Lemma exp_part_follow s d t x :
  exp_part s = Some (d, t) → (t = [] → follows x) → exp_part (s ++ x) = Some (d, t ++ x).
Proof.
  destruct s as [|a s]; simpl.
  - intros [= <- <-] Hx. specialize (Hx eq_refl). destruct x as [|b x]; [done|]. simpl in *.
    by destruct Hx as (_ & _ & ->).
  - destruct (is_char "e"%char (lower_byte a)); [|by intros [= <- <-]].
    destruct s as [|b s]; simpl; [done|]. destruct (_ || _).
    + destruct (digits1 s) as [[d' t']|] eqn:E; [|done]. intros [= <- <-] Hx.
      by rewrite (digits1_follow s d' t' x).
    + destruct (digits1 (b :: s)) as [[d' t']|] eqn:E; [|done]. intros [= <- <-] Hx.
      change (b :: s ++ x) with ((b :: s) ++ x). by rewrite (digits1_follow (b :: s) d' t' x).
Qed.

Lemma scan_number_follow lit x :
  scan_number lit = Parsed lit [] → follows x → scan_number (lit ++ x) = Parsed lit x.
Proof.
  intros H Hx. unfold scan_number in *.
  assert (Hs : ∃ sg r, lit = sg ++ r ∧
    match lit with a :: r => if is_char minus a then ([a], r) else ([], lit) | [] => ([], lit) end
      = (sg, r) ∧
    match lit ++ x with a :: r => if is_char minus a then ([a], r) else ([], lit ++ x)
                   | [] => ([], lit ++ x) end = (sg, r ++ x)).
  { destruct lit as [|a s].
    - exfalso. done.
    - simpl. destruct (is_char minus a); [by exists [a], s|]. by exists [], (a :: s). }
  destruct Hs as (sg & r & Hl & Es & Es'). rewrite Es in H. rewrite Es'. clear Es Es'.
  destruct (int_part r) as [[i r1]|] eqn:Ei; [|done].
  destruct (frac_part r1) as [[f r2]|] eqn:Ef; [|done].
  destruct (exp_part r2) as [[e r3]|] eqn:Ee; [|done].
  injection H as H ->.
  rewrite (int_part_follow _ _ _ x Ei) by done.
  rewrite (frac_part_follow _ _ _ x Ef) by done.
  rewrite (exp_part_follow _ _ _ x Ee) by done. by rewrite H.
Qed.

Lemma literal_refl w s : literal w (w ++ s) = Some s.
Proof. induction w as [|a w IH]; simpl; [done|]. unfold is_char. by rewrite Ascii.eqb_refl. Qed.

(** The first byte of a layout is no space, and tells the kind of value. *)
Definition number_head (s : bytes) : Prop :=
  match s with a :: _ => is_char minus a = true ∨ is_digit a = true | [] => False end.

Lemma digits1_head s p : digits1 s = Some p → match s with a :: _ => is_digit a = true | [] => False end.
Proof. destruct s as [|a s]; [done|]. unfold digits1. simpl. by destruct (is_digit a). Qed.

Lemma scan_number_head lit t : scan_number lit = Parsed lit t → number_head lit.
Proof.
  unfold scan_number, number_head. destruct lit as [|a s]; [done|].
  destruct (is_char minus a) eqn:E; [auto|]. intros H. right. revert H.
  unfold int_part. destruct (is_char "0"%char a) eqn:E0.
  - apply Ascii.eqb_eq in E0 as <-. done.
  - destruct (digits1 (a :: s)) as [p|] eqn:Ed; [|done]. intros _. by apply digits1_head in Ed.
Qed.

(** Exactly one branch of [value] applies to a number. *)
Lemma number_head_spec a :
  is_char minus a = true ∨ is_digit a = true →
  json_space a = false ∧ is_char quote a = false ∧ is_char "["%char a = false
  ∧ is_char "{"%char a = false ∧ is_char minus a || is_digit a = true
  ∧ is_char "]"%char a = false ∧ is_char "}"%char a = false.
Proof. intros H. destruct a as [[] [] [] [] [] [] [] []]; destruct H; try done. Qed.

Lemma lays_head d r s :
  Lays d r s → ∃ a t, s = a :: t ∧ json_space a = false ∧ is_char "]"%char a = false.
Proof.
  destruct 1; try (eexists _, _; split; [reflexivity|done]).
  pose proof (scan_number_head _ _ H) as Hh. destruct lit as [|a t]; [done|].
  apply number_head_spec in Hh. eexists _, _. split; [done|]. tauto.
Qed.

Lemma skip_space_head a t : json_space a = false → skip_space (a :: t) = a :: t.
Proof. intros H. unfold skip_space. simpl. by rewrite H. Qed.

Lemma elements_head d l s x :
  LaysElements d l s → ∃ a t, skip_space (s ++ x) = a :: t ∧ is_char "]"%char a = false.
Proof.
  destruct 1 as [d r w s w' Hw Hs _|d r l w s w' t Hw Hs _ _];
    destruct (lays_head _ _ _ Hs) as (a & u & -> & Ha & Hb);
    rewrite <- !app_assoc, skip_space_app by done; simpl app;
    rewrite skip_space_head by done; eauto.
Qed.

Lemma members_head d l s x :
  LaysMembers d l s → ∃ a t, skip_space (s ++ x) = a :: t ∧ is_char "}"%char a = false.
Proof.
  destruct 1; rewrite <- !app_assoc, skip_space_app by done; simpl app;
    rewrite skip_space_head by done; eexists _, _; split; reflexivity.
Qed.

Lemma follows_comma t : follows (","%char :: t).
Proof. done. Qed.
Lemma follows_bracket t : follows ("]"%char :: t).
Proof. done. Qed.
Lemma follows_brace t : follows ("}"%char :: t).
Proof. done. Qed.
#[export] Hint Resolve follows_comma follows_bracket follows_brace follows_space : go_json.

(** The value at the front is the one the induction hypothesis names: the
    call returned something, so it did not run dry. *)
Ltac read_value IH H :=
  match goal with
  | |- context [value ?f ?d ?x] =>
      let E := fresh "E" in
      eassert (E : value f d x = Parsed _ _);
      [apply IH; [done|simpl; auto 6 with go_json|let N := fresh in intros N; by rewrite N in H]
      |rewrite E in H |- *; clear E]
  end.

(** The parser reads back every layout, whatever its fuel, unless it runs
    dry. *)
Lemma parser_complete :
  (∀ d r s, Lays d r s → ∀ w rest fuel, spaces w → follows rest →
     value fuel d (w ++ s ++ rest) ≠ OutOfFuel → value fuel d (w ++ s ++ rest) = Parsed r rest) ∧
  (∀ d l s, LaysElements d l s → ∀ rest fuel acc,
     elements fuel d (s ++ rest) acc ≠ OutOfFuel →
     elements fuel d (s ++ rest) acc = Parsed (RArr (rev acc ++ l)) rest) ∧
  (∀ d l s, LaysMembers d l s → ∀ rest fuel acc,
     members fuel d (s ++ rest) acc ≠ OutOfFuel →
     members fuel d (s ++ rest) acc = Parsed (RObj (rev acc ++ l)) rest).
Proof.
  apply lays_mutind.
  - intros d w rest [|f] Hw Hr; [done|]. cbn [value]. by rewrite skip_space_app.
  - intros d w rest [|f] Hw Hr; [done|]. cbn [value]. by rewrite skip_space_app.
  - intros d w rest [|f] Hw Hr; [done|]. cbn [value]. by rewrite skip_space_app.
  - intros d lit Hlit w rest [|f] Hw Hr; [done|]. cbn [value]. rewrite skip_space_app by done.
    pose proof (scan_number_head _ _ Hlit) as Hh.
    pose proof (scan_number_follow _ _ Hlit Hr) as Hn.
    destruct lit as [|a t]; [done|]. apply number_head_spec in Hh as (H1 & H2 & H3 & H4 & H5 & _).
    simpl app in *. rewrite skip_space_head by done. rewrite H2, H3, H4, H5, Hn. done.
  - intros d body t Hb w rest [|f] Hw Hr; [done|]. cbn [value]. rewrite skip_space_app by done.
    simpl app. rewrite skip_space_head by done. cbn -[scan_string].
    by rewrite (scan_string_app _ _ _ _ _ rest Hb).
  - intros d w Hd Hw w0 rest [|f] Hw0 Hr; [done|]. cbn [value]. rewrite skip_space_app by done.
    simpl app. rewrite skip_space_head by done. cbn -[skip_space max_depth].
    rewrite (proj2 (Z.leb_gt _ _)) by done.
    by rewrite <- app_assoc, skip_space_app.
  - intros d l s Hd Hl IH w rest [|f] Hw Hr; [done|]. cbn [value]. rewrite skip_space_app by done.
    simpl app. rewrite skip_space_head by done. cbn -[skip_space max_depth elements].
    rewrite (proj2 (Z.leb_gt _ _)) by done.
    destruct (elements_head _ _ _ rest Hl) as (a & t & -> & ->). apply IH.
  - intros d w Hd Hw w0 rest [|f] Hw0 Hr; [done|]. cbn [value]. rewrite skip_space_app by done.
    simpl app. rewrite skip_space_head by done. cbn -[skip_space max_depth].
    rewrite (proj2 (Z.leb_gt _ _)) by done.
    by rewrite <- app_assoc, skip_space_app.
  - intros d l s Hd Hl IH w rest [|f] Hw Hr; [done|]. cbn [value]. rewrite skip_space_app by done.
    simpl app. rewrite skip_space_head by done. cbn -[skip_space max_depth members].
    rewrite (proj2 (Z.leb_gt _ _)) by done.
    destruct (members_head _ _ _ rest Hl) as (a & t & -> & ->). apply IH.
  - intros d r w s w' Hw Hs IH Hw' rest [|f] acc; [done|]. cbn [elements].
    rewrite <- !app_assoc. intros H. read_value IH H.
    rewrite skip_space_app by done. done.
  - intros d r l w s w' t Hw Hs IH Hw' Ht IHt rest [|f] acc; [done|]. cbn [elements].
    rewrite <- !app_assoc. intros H. read_value IH H.
    rewrite skip_space_app in H |- * by done. simpl app in *. rewrite skip_space_head in H |- * by done.
    cbn -[elements] in H |- *. rewrite IHt by done. cbn [rev]. by rewrite <- app_assoc.
  - intros d r w k body w1 w2 s w' Hw Hk Hw1 Hw2 Hs IH Hw' rest [|f] acc; [done|]. cbn [members].
    rewrite <- !app_assoc. rewrite skip_space_app by done. simpl app. rewrite skip_space_head by done.
    cbn -[scan_string skip_space value]. rewrite <- !app_assoc.
    rewrite (scan_string_app _ _ _ _ _ _ Hk). simpl app.
    rewrite skip_space_app by done. simpl app. rewrite skip_space_head by done.
    cbn -[skip_space value]. rewrite <- !app_assoc. intros H.
    read_value IH H.
    rewrite skip_space_app by done. done.
  - intros d r l w k body w1 w2 s w' t Hw Hk Hw1 Hw2 Hs IH Hw' Ht IHt rest [|f] acc; [done|]. cbn [members].
    rewrite <- !app_assoc. rewrite skip_space_app by done. simpl app. rewrite skip_space_head by done.
    cbn -[scan_string skip_space value members]. rewrite <- !app_assoc.
    rewrite (scan_string_app _ _ _ _ _ _ Hk). simpl app.
    rewrite skip_space_app by done. simpl app. rewrite skip_space_head by done.
    cbn -[skip_space value members]. rewrite <- !app_assoc. intros H.
    read_value IH H.
    rewrite skip_space_app in H |- * by done. simpl app in *. rewrite skip_space_head in H |- * by done.
    cbn -[members] in H |- *. rewrite IHt by done. cbn [rev]. by rewrite <- app_assoc.
Qed.

(** [parse] gives the tree of every layout, surrounded by any space, and
    never stops for lack of fuel. *)
Lemma parse_lays r w s w' :
  spaces w → Lays 0 r s → spaces w' → parse (of_bytes (w ++ s ++ w')) = Some r.
Proof.
  intros Hw Hs Hw'. unfold parse, parse_full. rewrite to_of_bytes.
  assert (Hf : follows w') by (rewrite <- (app_nil_r w'); apply follows_space; done).
  rewrite (proj1 parser_complete _ _ _ Hs); [|done|done|apply value_fuel_for].
  rewrite <- (app_nil_r w'), skip_space_app by done. done.
Qed.

Lemma parse_terminates s : parse_full s ≠ OutOfFuel.
Proof.
  unfold parse_full. pose proof (value_fuel_for 0 s). destruct (value _ _ _); [|done..].
  by destruct (skip_space rest).
Qed.

(** ** What decoding yields *)

(** A number literal the scanner has read. *)
Definition number_literal (lit : bytes) : Prop := ∃ s t, scan_number s = Parsed lit t.

Fixpoint raw_ok (r : raw) : Prop :=
  match r with
  | RNum lit => number_literal lit
  | RArr l => (fix go l := match l with [] => True | x :: t => raw_ok x ∧ go t end) l
  | RObj l => (fix go l := match l with [] => True | x :: t => raw_ok x.2 ∧ go t end) l
  | _ => True
  end.

Lemma raw_ok_arr l : raw_ok (RArr l) ↔ Forall raw_ok l.
Proof. induction l as [|x l IH]; simpl in *; [done|]. by rewrite Forall_cons, IH. Qed.

Lemma raw_ok_obj l : raw_ok (RObj l) ↔ Forall (λ kv, raw_ok kv.2) l.
Proof. induction l as [|x l IH]; simpl in *; [done|]. by rewrite Forall_cons, IH. Qed.

Lemma parser_ok fuel :
  (∀ d s v t, value fuel d s = Parsed v t → raw_ok v) ∧
  (∀ d s acc v t, Forall raw_ok acc → elements fuel d s acc = Parsed v t → raw_ok v) ∧
  (∀ d s acc v t, Forall (λ kv, raw_ok kv.2) acc → members fuel d s acc = Parsed v t → raw_ok v).
Proof.
  induction fuel as [|f (IHv & IHe & IHm)]; [by split_and!|]. split_and!.
  - intros d s v t. cbn [value]. destruct (skip_space s) as [|a r]; [done|].
    destruct (is_char quote a). { by destruct (scan_string InString r []); intros; simplify_eq. }
    destruct (is_char "["%char a).
    { destruct (max_depth <=? d); [done|]. destruct (skip_space r) as [|b t']; [done|].
      destruct (is_char "]"%char b); [by intros; simplify_eq|]. by apply IHe. }
    destruct (is_char "{"%char a).
    { destruct (max_depth <=? d); [done|]. destruct (skip_space r) as [|b t']; [done|].
      destruct (is_char "}"%char b); [by intros; simplify_eq|]. by apply IHm. }
    destruct (_ || _).
    { destruct (scan_number (a :: r)) eqn:E; intros; simplify_eq. simpl. by eexists _, _. }
    unfold keyword. by repeat case_match; intros; simplify_eq.
  - intros d s acc v t Hacc. cbn [elements].
    destruct (value f d s) as [x t'| |] eqn:E; try done. apply IHv in E.
    destruct (skip_space t') as [|c u]; [done|].
    destruct (is_char ","%char c); [by apply IHe; constructor|].
    destruct (is_char "]"%char c); [|done]. intros [= <- <-]. apply raw_ok_arr, Forall_app.
    split; [by apply List.Forall_rev|by repeat constructor].
  - intros d s acc v t Hacc. cbn [members]. destruct (skip_space s) as [|q r]; [done|].
    destruct (negb _); [done|]. destruct (scan_string InString r []) as [k t1| |]; try done.
    destruct (skip_space t1) as [|c u]; [done|]. destruct (negb _); [done|].
    destruct (value f d u) as [x t'| |] eqn:E; try done. apply IHv in E.
    destruct (skip_space t') as [|c' u']; [done|]. cbn zeta.
    destruct (is_char ","%char c'); [by apply IHm; constructor|].
    destruct (is_char "}"%char c'); [|done]. intros [= <- <-]. apply raw_ok_obj, Forall_app.
    split; [by apply List.Forall_rev|by repeat constructor].
Qed.

Lemma parse_raw_ok s r : parse s = Some r → raw_ok r.
Proof.
  unfold parse, parse_full. destruct (value _ _ _) as [v t| |] eqn:E; [|done..].
  apply parser_ok in E. by destruct (skip_space t); intros; simplify_eq.
Qed.

Definition finite_float (x : float64) : Prop :=
  match x with S754_nan | S754_infinity _ => False | _ => True end.

Lemma in_range_finite s n d x : in_range (round_ratio s n d) = Some x → finite_float x.
Proof.
  pose proof (round_ratio_not_nan s n d). destruct (round_ratio s n d) eqn:E; simpl;
    intros; simplify_eq; done.
Qed.

Lemma in_range_dyadic_finite s n d x : in_range (round_dyadic s n d) = Some x → finite_float x.
Proof.
  pose proof (round_dyadic_not_nan s n d). destruct (round_dyadic s n d) eqn:E; simpl;
    intros; simplify_eq; done.
Qed.

Lemma read_number_finite neg s x : read_number neg s = Some x → finite_float x.
Proof.
  unfold read_number. destruct (match s with z :: _ => _ | _ => _ end) as [hex body].
  destruct (negb _); [done|]. destruct (negb _); [done|].
  destruct (read_exp_part _ _) as [[e [|]]|]; [|done..].
  destruct hex; [destruct e; [|done]; apply in_range_dyadic_finite|].
  unfold decimal_float. case_match; apply in_range_finite.
Qed.

Lemma digit_no_word a s w b t :
  is_digit a = true → to_bytes w = b :: t → is_digit (lower_byte b) = false →
  is_word w (a :: s) = false.
Proof.
  intros Ha Hw Hb. unfold is_word, equal_fold, to_lower. rewrite to_of_bytes, Hw.
  apply String.eqb_neq. intros H. apply of_bytes_inj in H. simpl in H. injection H as H _.
  rewrite H in Hb. destruct a as [[] [] [] [] [] [] [] []]; done.
Qed.

Lemma read_unsigned_finite signed neg a s x :
  is_digit a = true → read_unsigned signed neg (a :: s) = Some x → finite_float x.
Proof.
  intros Ha. unfold read_unsigned.
  rewrite (digit_no_word a s "inf" _ _ Ha eq_refl eq_refl),
    (digit_no_word a s "infinity" _ _ Ha eq_refl eq_refl),
    (digit_no_word a s "nan" _ _ Ha eq_refl eq_refl), andb_false_r.
  apply read_number_finite.
Qed.

Lemma int_part_digit s d t : int_part s = Some (d, t) → ∃ a r, d = a :: r ∧ is_digit a = true.
Proof.
  intros H. pose proof (int_part_app _ _ _ H) as [-> Hd]. destruct d as [|a r]; [done|].
  exists a, r. split; [done|]. revert H. simpl. destruct (is_char "0"%char a) eqn:E0.
  - intros _. apply Ascii.eqb_eq in E0 as <-. done.
  - intros H. by apply digits1_head in H.
Qed.

Lemma number_literal_finite lit x :
  number_literal lit → parse_float_bytes lit = Some x → finite_float x.
Proof.
  intros (s & t & H). unfold scan_number in H.
  destruct (match s with a :: r => if is_char minus a then ([a], r) else ([], s)
            | [] => ([], s) end) as [sg r] eqn:Es.
  destruct (int_part r) as [[i r1]|] eqn:Ei; [|done].
  destruct (frac_part r1) as [[f r2]|]; [|done].
  destruct (exp_part r2) as [[e r3]|]; [|done]. injection H as <- <-.
  apply int_part_digit in Ei as (a & i' & -> & Ha).
  assert (Hsg : sg = [] ∨ sg = [minus]).
  { destruct s as [|b s]; [injection Es; auto|]. destruct (is_char minus b) eqn:E;
      injection Es as <- <-; [|by left]. apply Ascii.eqb_eq in E as <-. by right. }
  destruct Hsg as [-> | ->]; simpl.
  - assert (Ascii.eqb a minus = false ∧ Ascii.eqb a plus = false) as [-> ->]
      by (destruct a as [[] [] [] [] [] [] [] []]; done).
    by apply read_unsigned_finite.
  - by apply read_unsigned_finite.
Qed.

(** Numbers are finite, and no object names a member twice. *)
Inductive wf_json : json → Prop :=
  | wf_null : wf_json JNull
  | wf_bool b : wf_json (JBool b)
  | wf_num x : finite_float x → wf_json (JNum x)
  | wf_str s : wf_json (JStr s)
  | wf_arr l : Forall wf_json l → wf_json (JArr l)
  | wf_obj l : Forall (λ kv, wf_json kv.2) l → NoDup (map fst l) → wf_json (JObj l).

Lemma assign_keys {A} k (v : A) l :
  map fst (assign k v l) = if bool_decide (k ∈ map fst l) then map fst l else map fst l ++ [k].
Proof.
  induction l as [|[k' v'] l IH]; simpl; [done|].
  destruct (String.eqb_spec k k') as [->|Hne]; simpl.
  - rewrite bool_decide_true by constructor. done.
  - rewrite IH. repeat case_bool_decide; set_solver.
Qed.

Lemma assign_nodup {A} k (v : A) l : NoDup (map fst l) → NoDup (map fst (assign k v l)).
Proof.
  rewrite assign_keys. case_bool_decide; [done|]. intros Hl.
  apply NoDup_app. split_and!; [done|set_solver|apply NoDup_singleton].
Qed.

Lemma assign_forall {A} (P : string * A → Prop) k v l :
  Forall P l → P (k, v) → Forall P (assign k v l).
Proof.
  intros Hl Hv. induction Hl as [|[k' v'] l Hx Hl IH]; simpl; [by constructor|].
  destruct (String.eqb k k'); by constructor.
Qed.

Lemma merge_wf kvs old :
  Forall (λ kv : string * json, wf_json kv.2) old → NoDup (map fst old) →
  Forall (λ kv, wf_json kv.2) kvs →
  Forall (λ kv, wf_json kv.2) (fold_left (λ m '(k, v), assign k v m) kvs old)
  ∧ NoDup (map fst (fold_left (λ m '(k, v), assign k v m) kvs old)).
Proof.
  intros Ho Hn Hk. revert old Ho Hn. induction Hk as [|[k v] kvs Hv Hk IH]; intros old Ho Hn;
    simpl; [done|]. apply IH; [by apply assign_forall|by apply assign_nodup].
Qed.

Lemma to_value_wf r : ∀ v, raw_ok r → to_value r = Some v → wf_json v.
Proof.
  induction r as [|b|lit|s|l IH|l IH] using raw_nested_ind; intros v Hr; simpl.
  - intros [= <-]. constructor.
  - intros [= <-]. constructor.
  - destruct (parse_float_bytes lit) as [x|] eqn:E; [|done]. intros [= <-].
    constructor. by eapply number_literal_finite.
  - intros [= <-]. constructor.
  - apply raw_ok_arr in Hr. destruct (map_opt to_value l) as [vs|] eqn:E; [|done]. intros [= <-].
    constructor. revert vs E. induction l as [|x l IHl]; intros vs; simpl; [by intros [= <-]|].
    apply Forall_cons in IH as [IHx IH]. apply Forall_cons in Hr as [Hx Hr].
    destruct (to_value x) eqn:Ex; [|done]. destruct (map_opt to_value l) eqn:El; [|done].
    intros [= <-]. constructor; auto.
  - apply raw_ok_obj in Hr. destruct (map_opt _ l) as [kvs|] eqn:E; [|done]. intros [= <-].
    assert (Hk : Forall (λ kv, wf_json kv.2) kvs).
    { revert kvs E. induction l as [|[k x] l IHl]; intros kvs; simpl; [by intros [= <-]|].
      apply Forall_cons in IH as [IHx IH]. apply Forall_cons in Hr as [Hx Hr].
      destruct (to_value x) eqn:Ex; [|done]. destruct (map_opt _ l) eqn:El; [|done].
      intros [= <-]. constructor; simpl; auto. }
    destruct (merge_wf kvs []) as [H1 H2]; [constructor|constructor|done|]. by constructor.
Qed.

Lemma unmarshal_wf s v : unmarshal s = Some v → wf_json v.
Proof.
  unfold unmarshal. destruct (parse s) as [r|] eqn:E; [|done].
  apply to_value_wf. by eapply parse_raw_ok.
Qed.

(** ** Trimming a layout

    No layout begins or ends with white space of any kind, so
    [strings.TrimSpace] takes away exactly the space around it. *)

Definition solid (a : ascii) : Prop := ascii_space a = false ∧ (code a < 128)%nat.

Lemma solid_space2 a b : solid a ∨ solid b → space2 a b = false.
Proof.
  unfold space2, solid. intros [[_ H]|[_ H]]; apply andb_false_iff.
  - left. apply Nat.eqb_neq. lia.
  - right. apply orb_false_iff; split; apply Nat.eqb_neq; lia.
Qed.

Lemma solid_space3 a b c : solid a ∨ solid c → space3 a b c = false.
Proof.
  unfold space3, solid. intros [[_ H]|[_ H]].
  - assert (Ha : ∀ n, (128 ≤ n)%nat → (code a =? n)%nat = false) by (intros; apply Nat.eqb_neq; lia).
    by rewrite !Ha by lia.
  - assert (Hc : ∀ n, (128 ≤ n)%nat → (code c =? n)%nat = false) by (intros; apply Nat.eqb_neq; lia).
    assert ((0x80 <=? code c)%nat = false) by (apply Nat.leb_gt; lia).
    rewrite !Hc by lia. rewrite H0. simpl. by rewrite !andb_false_r.
Qed.

Lemma spaces_ascii w : spaces w → Forall (λ a, ascii_space a = true) w.
Proof.
  intros H. eapply Forall_impl; [exact H|]. intros a. destruct a as [[] [] [] [] [] [] [] []]; done.
Qed.

Lemma trim_left_solid w a t :
  Forall (λ a, ascii_space a = true) w → solid a → trim_left_space (w ++ a :: t) = a :: t.
Proof.
  intros Hw Ha. induction Hw as [|b w Hb Hw IH]; simpl; [|by rewrite Hb].
  rewrite (proj1 Ha). destruct t as [|b t]; [done|]. rewrite solid_space2 by auto.
  destruct t as [|c t]; [done|]. by rewrite solid_space3 by auto.
Qed.

Lemma trim_left_rev_solid w a t :
  Forall (λ a, ascii_space a = true) w → solid a → trim_left_space_rev (w ++ a :: t) = a :: t.
Proof.
  intros Hw Ha. induction Hw as [|b w Hb Hw IH]; simpl; [|by rewrite Hb].
  rewrite (proj1 Ha). destruct t as [|b t]; [done|]. rewrite solid_space2 by auto.
  destruct t as [|c t]; [done|]. by rewrite solid_space3 by auto.
Qed.

Lemma trim_space_solid w a s b w' :
  spaces w → spaces w' → solid a → solid b →
  ∀ t, a :: s = t ++ [b] → trim_space_bytes (w ++ (a :: s) ++ w') = a :: s.
Proof.
  intros Hw Hw' Ha Hb t Hs. unfold trim_space_bytes. simpl app.
  rewrite trim_left_solid by (done || by apply spaces_ascii).
  change (a :: s ++ w') with ((a :: s) ++ w').
  rewrite rev_app_distr, Hs, rev_app_distr. simpl app.
  rewrite trim_left_rev_solid; [|by apply List.Forall_rev, spaces_ascii|done].
  simpl. by rewrite rev_involutive.
Qed.

Lemma digit_solid a : is_digit a = true → solid a.
Proof.
  unfold solid. destruct a as [[] [] [] [] [] [] [] []]; try done; (split; [done|]);
    vm_compute; lia.
Qed.

Lemma take_digits_solid s : Forall solid (take_digits s).1.
Proof.
  induction s as [|a s IH]; simpl; [constructor|]. destruct (is_digit a) eqn:E; [|constructor].
  destruct (take_digits s). simpl in *. constructor; [by apply digit_solid|done].
Qed.

Lemma digits1_solid s d t : digits1 s = Some (d, t) → Forall solid d.
Proof.
  unfold digits1. pose proof (take_digits_solid s) as H.
  destruct (take_digits s) as [[|] ?]; [done|]. by intros [= <- <-].
Qed.

Lemma scan_number_solid s lit t : scan_number s = Parsed lit t → Forall solid lit.
Proof.
  unfold scan_number.
  destruct (match s with a :: r => if is_char minus a then ([a], r) else ([], s)
            | [] => ([], s) end) as [sg r] eqn:Es.
  assert (Hsg : Forall solid sg).
  { destruct s as [|a s]; [by injection Es as <- <-|]. destruct (is_char minus a) eqn:E;
      injection Es as <- <-; [|constructor]. apply Ascii.eqb_eq in E as <-.
    repeat constructor; vm_compute; lia. }
  destruct (int_part r) as [[i r1]|] eqn:Ei; [|done].
  assert (Hi : Forall solid i).
  { destruct r as [|a r]; [done|]. unfold int_part in Ei. destruct (is_char "0"%char a) eqn:E.
    - injection Ei as <- <-. apply Ascii.eqb_eq in E as <-. repeat constructor; vm_compute; lia.
    - by eapply digits1_solid. }
  destruct (frac_part r1) as [[f r2]|] eqn:Ef; [|done].
  assert (Hf : Forall solid f).
  { destruct r1 as [|a r1]; simpl in Ef; [by injection Ef as <- <-|].
    destruct (is_char dot a) eqn:E; [|by injection Ef as <- <-].
    destruct (digits1 r1) as [[d t']|] eqn:Ed; [|done]. injection Ef as <- <-.
    constructor; [|by eapply digits1_solid]. apply Ascii.eqb_eq in E as <-. split; vm_compute; lia. }
  destruct (exp_part r2) as [[e r3]|] eqn:Ee; [|done].
  assert (He : Forall solid e).
  { destruct r2 as [|a r2]; simpl in Ee; [by injection Ee as <- <-|].
    destruct (is_char "e"%char (lower_byte a)) eqn:E; [|by injection Ee as <- <-].
    assert (Ha : solid a) by (destruct a as [[] [] [] [] [] [] [] []]; try done; split; vm_compute; lia).
    destruct r2 as [|b r2]; [done|]. destruct (is_char plus b || is_char minus b) eqn:Eb.
    - destruct (digits1 r2) as [[d t']|] eqn:Ed; [|done]. injection Ee as <- <-.
      constructor; [done|]. constructor; [|by eapply digits1_solid].
      destruct b as [[] [] [] [] [] [] [] []]; try done; split; vm_compute; lia.
    - destruct (digits1 (b :: r2)) as [[d t']|] eqn:Ed; [|done]. injection Ee as <- <-.
      constructor; [done|]. by eapply digits1_solid. }
  intros [= <- <-]. by rewrite !Forall_app.
Qed.

Lemma scan_string_last st s acc body :
  scan_string st s acc = Parsed body [] → ∃ t, s = t ++ [quote].
Proof.
  revert st acc. induction s as [|a s IH]; intros st acc; cbn [scan_string]; [done|].
  assert (Hk : ∀ st acc, scan_string st s acc = Parsed body [] → ∃ t, a :: s = t ++ [quote]).
  { intros st' acc' H. destruct (IH _ _ H) as [t ->]. by exists (a :: t). }
  destruct st as [| |n].
  - destruct (is_char quote a) eqn:E.
    + apply Ascii.eqb_eq in E as <-. intros [= _ ->]. by exists [].
    + repeat case_match; intros; simplify_eq; eauto.
  - repeat case_match; intros; simplify_eq; eauto.
  - repeat case_match; intros; simplify_eq; eauto.
Qed.

Lemma ends_app (s : bytes) b (x : bytes) : (∃ t, s = t ++ [b]) → ∃ t, x ++ s = t ++ [b].
Proof. intros [t ->]. exists (x ++ t). by rewrite app_assoc. Qed.

Lemma ends_cons (s : bytes) b a : (∃ t, s = t ++ [b]) → ∃ t, a :: s = t ++ [b].
Proof. intros [t ->]. by exists (a :: t). Qed.

Lemma lays_lists_last :
  (∀ d r s, Lays d r s → True) ∧
  (∀ d l s, LaysElements d l s → ∃ t, s = t ++ ["]"%char]) ∧
  (∀ d l s, LaysMembers d l s → ∃ t, s = t ++ ["}"%char]).
Proof.
  apply lays_mutind; try done; intros;
    repeat first [assumption | exists ([] : bytes); reflexivity | apply ends_app | apply ends_cons].
Qed.

Lemma lays_ends d r s :
  Lays d r s → ∃ a u t b, s = a :: u ∧ s = t ++ [b] ∧ solid a ∧ solid b.
Proof.
  assert (Hq : ∀ c, In c (to_bytes "nullfalsetrue[]{}") → solid c).
  { intros c Hc. simpl in Hc. destruct_or!; try done; subst; split; vm_compute; lia || done. }
  assert (Hquote : solid quote) by (split; vm_compute; lia || done).
  intros H. destruct H.
  - eexists _, _, (to_bytes "nul"), _. split_and!; [done|reflexivity|apply Hq; simpl; tauto..].
  - eexists _, _, (to_bytes "tru"), _. split_and!; [done|reflexivity|apply Hq; simpl; tauto..].
  - eexists _, _, (to_bytes "fals"), _. split_and!; [done|reflexivity|apply Hq; simpl; tauto..].
  - pose proof (scan_number_solid _ _ _ H) as Hs. pose proof (scan_number_head _ _ H).
    destruct lit as [|a u]; [done|]. destruct (exists_last (l := a :: u)) as (t & b & E); [done|].
    exists a, u, t, b. split_and!; [done..| |].
    + by apply Forall_cons in Hs as [? _].
    + rewrite E in Hs. apply Forall_app in Hs as [_ Hs]. by apply Forall_cons in Hs as [? _].
  - destruct (scan_string_last _ _ _ _ H) as [t' ->]. by exists quote, (t' ++ [quote]), (quote :: t'), quote.
  - exists "["%char, (w ++ ["]"%char]), ("["%char :: w), "]"%char.
    split_and!; [done..|apply Hq; simpl; tauto|apply Hq; simpl; tauto].
  - destruct (proj1 (proj2 lays_lists_last) _ _ _ H0) as [t ->].
    eexists _, _, ("["%char :: t), _. split_and!; [done..|apply Hq; simpl; tauto|apply Hq; simpl; tauto].
  - exists "{"%char, (w ++ ["}"%char]), ("{"%char :: w), "}"%char.
    split_and!; [done..|apply Hq; simpl; tauto|apply Hq; simpl; tauto].
  - destruct (proj2 (proj2 lays_lists_last) _ _ _ H0) as [t ->].
    eexists _, _, ("{"%char :: t), _. split_and!; [done..|apply Hq; simpl; tauto|apply Hq; simpl; tauto].
Qed.

(** A text is a layout of [r] surrounded by space. *)
Definition text_of (r : raw) (s : string) : Prop :=
  ∃ w b w', s = of_bytes (w ++ b ++ w') ∧ spaces w ∧ Lays 0 r b ∧ spaces w'.

Lemma text_of_parse r s : text_of r s → parse (trim_space s) = Some r.
Proof.
  intros (w & b & w' & -> & Hw & Hb & Hw'). unfold trim_space. rewrite to_of_bytes.
  destruct (lays_ends _ _ _ Hb) as (a & u & t & c & -> & Ht & Ha & Hc).
  rewrite (trim_space_solid w a u c w' Hw Hw' Ha Hc t Ht).
  pose proof (parse_lays r [] (a :: u) []) as H. simpl in H. rewrite app_nil_r in H.
  apply H; [constructor|done|constructor].
Qed.
