(* ===== verification/Judge.v ===== *)
(** The judge (services/execution-service/internal/judge): text, typed and
    result-set comparison of a program's output with the expected output, the
    verdict of one test case and the overall verdict.

    judge.go is [normalize], [matchesExpected], [matches],
    [EvaluateTestCaseWithSpec] and [OverallStatus]; compare.go is
    [MatchesTyped], [equalValues], [canonicalSort] and [sortKey]; resultset.go
    is [parseResultSet], [resultSetsEqual], [canonicalRows] and
    [canonicalValue].  A decoded JSON object is an association list without
    repeated keys; an operation of the code that ranges over the Go map is
    given the order of iteration by the order of the list. *)

From S2P Require Import Prelude GoStrings Float64 Strconv Json.
From Stdlib Require Import Ascii.

#[local] Open Scope Z_scope.

(** ** Data *)

Definition StatusAccepted : string := "Accepted".
Definition StatusWrongAnswer : string := "WrongAnswer".
Definition StatusTimeLimitExceeded : string := "TimeLimitExceeded".
Definition StatusMemoryLimitExceeded : string := "MemoryLimitExceeded".
Definition StatusRuntimeError : string := "RuntimeError".
Definition StatusCompileError : string := "CompileError".

(** [problemv1.TestCase] *)
Record TestCase := {
  tc_Id : string;
  tc_Input : string;
  tc_ExpectedOutput : string;
  tc_IsHidden : bool;
  tc_TimeLimitMs : Z;
  tc_MemoryLimitMb : Z;
  tc_OrderIndex : Z;
}.

Record SignatureParam := { sp_Name : string; sp_Type : string }.
Record SignatureMethod := {
  sm_Name : string; sm_ReturnType : string; sm_Params : list SignatureParam }.

(** [problemv1.ExecutionSpec] *)
Record ExecutionSpec := {
  es_Kind : string;
  es_Methods : list SignatureMethod;
  es_IoMode : string;
  es_EntryPoint : string;
  es_ReturnType : string;
  es_Params : list SignatureParam;
  es_Compare : string;
  es_FloatEps : float64;
}.

(** [sandbox.RunResult] *)
Record RunResult := {
  rr_Stdout : string;
  rr_Stderr : string;
  rr_ExitCode : Z;
  rr_ExecutionMs : Z;
  rr_MemoryKb : Z;
  rr_TimedOut : bool;
  rr_OOMKilled : bool;
}.

(** [executionv1.TestResult] *)
Record TestResult := {
  tr_TestCaseId : string;
  tr_Input : string;
  tr_ExpectedOutput : string;
  tr_ActualOutput : string;
  tr_Status : string;
  tr_ExecutionMs : Z;
  tr_MemoryKb : Z;
  tr_Error : string;
  tr_IsHidden : bool;
}.

(** ** Text comparison *)

Definition blank (a : ascii) : bool :=
  Ascii.eqb a " "%char || Ascii.eqb a "009"%char || Ascii.eqb a carriage.

(** [normalize] *)
Definition normalize (s : string) : string :=
  of_bytes (trim_right (Ascii.eqb newline)
    (join_lines (map (trim_right blank) (split_lines (replace_crlf (to_bytes s)))))).

(** ** Typed comparison *)

Record CompareSpec := { Mode : string; Eps : float64 }.

Definition CompareUnordered : string := "unordered".
Definition CompareSet : string := "set".

(** Lookup in a Go map. *)
Fixpoint lookup_key {A} (k : string) (l : list (string * A)) : option A :=
  match l with
  | [] => None
  | (k', v) :: t => if String.eqb k k' then Some v else lookup_key k t
  end.

Definition number_eq (eps x y : float64) : bool :=
  if is_nan x || is_nan y then is_nan x && is_nan y
  else fleb (fabs (fsub x y)) eps.

(** [equalValues] *)
Fixpoint equalValues (eps : float64) (a b : json) {struct a} : bool :=
  match a, b with
  | JNull, JNull => true
  | JBool x, JBool y => Bool.eqb x y
  | JNum x, JNum y => number_eq eps x y
  | JStr x, JStr y => String.eqb x y
  | JArr av, JArr bv =>
      (List.length av =? List.length bv)%nat
      && (fix go l m :=
            match l, m with
            | x :: l', y :: m' => equalValues eps x y && go l' m'
            | _, _ => true
            end) av bv
  | JObj av, JObj bv =>
      (List.length av =? List.length bv)%nat
      && forallb (λ kv, match lookup_key kv.1 bv with
                        | Some other => equalValues eps kv.2 other
                        | None => false
                        end) av
  | _, _ => false
  end.

(** [sortKey]; [json.Marshal] does not fail on a decoded value. *)
Definition sortKey (v : json) : string := of_bytes (marshal v).

(** The loop that drops an item whose key is the one before it. *)
Fixpoint dedupe_sorted (prev : option string) (l : list json) : list json :=
  match l with
  | [] => []
  | x :: t =>
      let k := sortKey x in
      if match prev with Some p => String.eqb k p | None => false end
      then dedupe_sorted (Some k) t
      else x :: dedupe_sorted (Some k) t
  end.

(** [canonicalSort] *)
Fixpoint canonicalSort (dedupe : bool) (v : json) : json :=
  match v with
  | JArr arr =>
      let out := stable_sort sortKey (map (canonicalSort dedupe) arr) in
      JArr (if dedupe then dedupe_sorted None out else out)
  | _ => v
  end.

(** The constant [1e-6]. *)
Definition default_eps : float64 := round_ratio false 1 (10 ^ 6).

(** [MatchesTyped] *)
Definition MatchesTyped (expected actual : string) (spec : CompareSpec) : bool :=
  match unmarshal (trim_space expected), unmarshal (trim_space actual) with
  | Some exp, Some act =>
      let eps := if fleb (Eps spec) (S754_zero false) then default_eps else Eps spec in
      if String.eqb (Mode spec) CompareUnordered then
        equalValues eps (canonicalSort false exp) (canonicalSort false act)
      else if String.eqb (Mode spec) CompareSet then
        equalValues eps (canonicalSort true exp) (canonicalSort true act)
      else equalValues eps exp act
  | _, _ => String.eqb (normalize actual) (normalize expected)
  end.

(** ** Result sets *)

Record resultSet := { Rows : list (list (string * json)); Ordered : bool }.

(** [encoding/json] matches a member to a field by exact name, else by its
    folded name; U+017F folds to s. *)
Fixpoint fold_long_s (s : bytes) : bytes :=
  match s with
  | a :: (b :: r) as t =>
      if ((code a =? 0xC5) && (code b =? 0xBF))%nat then "s"%char :: fold_long_s r
      else a :: fold_long_s t
  | _ => s
  end.

Definition field_is (name key : string) : bool :=
  String.eqb name (to_lower (of_bytes (fold_long_s (to_bytes key)))).

(** Decoding into the struct: the backing array and the length of [Rows],
    the value of [Ordered]. *)
Record rs_decoder := { d_back : list (list (string * json)); d_len : nat; d_ordered : bool }.

(** A row decoded into the map its slot holds: [null] clears it, an object is
    merged into it, anything else is an error. *)
Definition decode_row (old : list (string * json)) (r : raw) : option (list (string * json)) :=
  match r with
  | RNull => Some []
  | RObj _ =>
      match to_value r with
      | Some (JObj kvs) => Some (fold_left (λ m '(k, v), assign k v m) kvs old)
      | _ => None
      end
  | _ => None
  end.

(** The elements of an array decoded into the slots of a backing array. *)
Fixpoint decode_rows (back : list (list (string * json))) (l : list raw)
  : option (list (list (string * json))) :=
  match l with
  | [] => Some back
  | r :: t =>
      match decode_row (hd [] back) r, decode_rows (tl back) t with
      | Some row, Some rows => Some (row :: rows)
      | _, _ => None
      end
  end.

Definition decode_field (d : rs_decoder) (kv : string * raw) : option rs_decoder :=
  let '(k, v) := kv in
  if field_is "rows" k then
    match v with
    | RNull => Some {| d_back := []; d_len := 0; d_ordered := d_ordered d |}
    | RArr [] => Some {| d_back := []; d_len := 0; d_ordered := d_ordered d |}
    | RArr l =>
        match decode_rows (d_back d) l with
        | Some back =>
            Some {| d_back := back; d_len := List.length l; d_ordered := d_ordered d |}
        | None => None
        end
    | _ => None
    end
  else if field_is "ordered" k then
    match v with
    | RBool b => Some {| d_back := d_back d; d_len := d_len d; d_ordered := b |}
    | RNull => Some d
    | _ => None
    end
  else Some d.

Fixpoint decode_fields (d : rs_decoder) (l : list (string * raw)) : option rs_decoder :=
  match l with
  | [] => Some d
  | kv :: t => match decode_field d kv with Some d' => decode_fields d' t | None => None end
  end.

(** [parseResultSet] *)
Definition parseResultSet (s : string) : option resultSet :=
  let s := trim_space s in
  if negb (has_prefix "{" s) then None
  else match parse s with
  | Some (RObj probe) =>
      match lookup_key "rows" probe with
      | None => None
      | Some _ =>
          match decode_fields {| d_back := []; d_len := 0; d_ordered := false |} probe with
          | Some d => Some {| Rows := firstn (d_len d) (d_back d); Ordered := d_ordered d |}
          | None => None
          end
      end
  | _ => None
  end.

(** A number that prints without a fraction. *)
Definition canonicalNumber (t : float64) : string :=
  if feqb (ftrunc t) t && fltb (fabs t) (of_Z (10 ^ 15)) then format_int (to_Z t)
  else format_g t.

(** [canonicalValue] *)
Definition canonicalValue (v : json) : string :=
  match v with
  | JNull => "<null>"
  | JBool t => format_bool t
  | JNum t => canonicalNumber t
  | JStr t =>
      match parse_float (trim_space t) with
      | Some f => canonicalNumber f
      | None => trim_space t
      end
  | JArr _ | JObj _ => of_bytes (marshal v)
  end.

Definition unit_separator : ascii := "031"%char.

Definition render_cell (lowered : list (string * json)) (k : string) : bytes :=
  to_bytes k ++ "="%char :: to_bytes (canonicalValue (default JNull (lookup_key k lowered))).

(** One row of [canonicalRows], its columns in the order the map yields them. *)
Definition canonicalRow (row : list (string * json)) : string :=
  let keys := sort_strings (map (λ kv, to_lower kv.1) row) in
  let lowered := make_map (map (λ kv, (to_lower kv.1, kv.2)) row) in
  of_bytes (join_bytes unit_separator (map (render_cell lowered) keys)).

(** [canonicalRows] *)
Definition canonicalRows (rows : list (list (string * json))) : list string :=
  map canonicalRow rows.

Definition strings_eqb (l m : list string) : bool := bool_decide (l = m).

(** [resultSetsEqual] *)
Definition resultSetsEqual (expected actual : resultSet) : bool :=
  if negb (List.length (Rows expected) =? List.length (Rows actual))%nat then false
  else
    let expectedKeys := canonicalRows (Rows expected) in
    let actualKeys := canonicalRows (Rows actual) in
    if Ordered expected then strings_eqb expectedKeys actualKeys
    else strings_eqb (sort_strings expectedKeys) (sort_strings actualKeys).

(** ** Verdicts *)

(** [matchesExpected] *)
Definition matchesExpected (expected actual : string) : bool :=
  match parseResultSet expected, parseResultSet actual with
  | Some expectedRS, Some actualRS => resultSetsEqual expectedRS actualRS
  | _, _ => String.eqb (normalize actual) (normalize expected)
  end.

(** [matches] *)
Definition matches (expected actual : string) (spec : option ExecutionSpec) : bool :=
  match spec with
  | None => matchesExpected expected actual
  | Some sp =>
      if negb (equal_fold (es_IoMode sp) "function") then matchesExpected expected actual
      else MatchesTyped expected actual {| Mode := es_Compare sp; Eps := es_FloatEps sp |}
  end.

(** [EvaluateTestCaseWithSpec] *)
Definition EvaluateTestCaseWithSpec (tc : TestCase) (res : RunResult)
  (spec : option ExecutionSpec) : TestResult :=
  let '(st, err) :=
    if rr_TimedOut res then (StatusTimeLimitExceeded, "Time limit exceeded")
    else if rr_OOMKilled res then (StatusMemoryLimitExceeded, "Memory limit exceeded")
    else if negb (rr_ExitCode res =? 0) then
      let e := trim_space (rr_Stderr res) in
      (StatusRuntimeError, if String.eqb e "" then "Non-zero exit code" else e)
    else if matches (tc_ExpectedOutput tc) (rr_Stdout res) spec then (StatusAccepted, "")
    else (StatusWrongAnswer, "") in
  {| tr_TestCaseId := tc_Id tc;
     tr_Input := tc_Input tc;
     tr_ExpectedOutput := tc_ExpectedOutput tc;
     tr_ActualOutput := trim_space (rr_Stdout res);
     tr_Status := st;
     tr_ExecutionMs := rr_ExecutionMs res;
     tr_MemoryKb := 0;
     tr_Error := err;
     tr_IsHidden := tc_IsHidden tc |}.

(** [EvaluateTestCase] *)
Definition EvaluateTestCase (tc : TestCase) (res : RunResult) : TestResult :=
  EvaluateTestCaseWithSpec tc res None.

(** The [priority] map; a missing key reads as 0. *)
Definition priority (status : string) : Z :=
  if String.eqb status StatusCompileError then 10
  else if String.eqb status StatusTimeLimitExceeded then 9
  else if String.eqb status StatusMemoryLimitExceeded then 8
  else if String.eqb status StatusRuntimeError then 7
  else if String.eqb status StatusWrongAnswer then 6
  else 0.

(** [OverallStatus] *)
Definition OverallStatus (results : list TestResult) : string :=
  match results with
  | [] => StatusAccepted
  | _ =>
      fold_left (λ worst r, if priority worst <? priority (tr_Status r) then tr_Status r else worst)
        results StatusAccepted
  end.

(** ** Equality of decoded values *)

Lemma lookup_key_in {A} k (v : A) l : lookup_key k l = Some v → (k, v) ∈ l.
Proof.
  induction l as [|[k' v'] l IH]; simpl; [done|].
  destruct (String.eqb_spec k k') as [->|_]; [intros [= ->]; constructor|].
  intros H. constructor. auto.
Qed.

Lemma lookup_key_nodup {A} k (v : A) l :
  NoDup (map fst l) → (k, v) ∈ l → lookup_key k l = Some v.
Proof.
  induction l as [|[k' v'] l IH]; simpl; [set_solver|].
  intros [Hk Hl]%NoDup_cons [[= <- <-]|Hin]%elem_of_cons.
  - by rewrite String.eqb_refl.
  - destruct (String.eqb_spec k k') as [->|_]; [|by apply IH].
    exfalso. apply Hk. apply list_elem_of_fmap. by exists (k', v).
Qed.

Lemma lookup_key_none {A} k (l : list (string * A)) : lookup_key k l = None ↔ k ∉ map fst l.
Proof.
  induction l as [|[k' v'] l IH]; simpl; [set_solver|].
  destruct (String.eqb_spec k k') as [->|Hne]; [set_solver|]. rewrite IH. set_solver.
Qed.

Lemma equalValues_arr eps l m :
  equalValues eps (JArr l) (JArr m) = true ↔ Forall2 (λ x y, equalValues eps x y = true) l m.
Proof.
  cbn [equalValues]. revert m. induction l as [|x l IH]; intros [|y m]; simpl.
  - by split; [constructor|].
  - by split; [|inversion 1].
  - by split; [|inversion 1].
  - rewrite Forall2_cons, <- IH, !andb_true_iff. naive_solver.
Qed.

Definition member_eq (eps : float64) (m : list (string * json)) (kv : string * json) : Prop :=
  ∃ w, lookup_key kv.1 m = Some w ∧ equalValues eps kv.2 w = true.

Lemma equalValues_obj eps l m :
  equalValues eps (JObj l) (JObj m) = true ↔ length l = length m ∧ Forall (member_eq eps m) l.
Proof.
  cbn [equalValues]. rewrite andb_true_iff, Nat.eqb_eq, forallb_forall, Forall_forall.
  split; intros [Hl H]; (split; [done|]); intros kv Hin.
  - apply list_elem_of_In, H in Hin. unfold member_eq. case_match; [|done]. eauto.
  - apply list_elem_of_In, H in Hin as (w & -> & Hw). done.
Qed.

Lemma member_eq_keys eps l m : Forall (member_eq eps m) l → map fst l ⊆ map fst m.
Proof.
  rewrite Forall_forall. intros H k (kv & -> & Hin)%list_elem_of_fmap.
  destruct (H _ Hin) as (w & Hw%lookup_key_in & _). apply list_elem_of_fmap.
  by exists (kv.1, w).
Qed.

(** The usable tolerances: not NaN and not negative. *)
Definition tolerant (eps : float64) : Prop := fleb (S754_zero false) eps = true.

Lemma tolerant_default eps :
  is_nan eps = false →
  tolerant (if fleb eps (S754_zero false) then default_eps else eps).
Proof.
  intros Hn. unfold tolerant. destruct (fleb eps _) eqn:E; [by vm_compute|].
  destruct eps as [s|s| |s m e]; try destruct s; revert E Hn; by vm_compute.
Qed.

Lemma number_eq_refl eps x : finite_float x → tolerant eps → number_eq eps x x = true.
Proof.
  intros Hx He. unfold number_eq. destruct x as [[]| | |s m e]; try done.
  cbn [is_nan orb]. rewrite fsub_diag. exact He.
Qed.

Lemma number_eq_sym eps x y : number_eq eps x y = number_eq eps y x.
Proof.
  unfold number_eq. rewrite orb_comm, fabs_fsub_sym. destruct (_ || _); [apply andb_comm|done].
Qed.

Lemma equalValues_refl eps v : tolerant eps → wf_json v → equalValues eps v v = true.
Proof.
  intros He. induction v as [|b|x|s|l IH|l IH] using json_nested_ind; intros Hwf.
  - done.
  - simpl. by destruct b.
  - inversion Hwf. by apply number_eq_refl.
  - apply String.eqb_refl.
  - inversion Hwf as [| | | |l' Hl|]; subst. apply equalValues_arr.
    clear Hwf. induction IH as [|x l Hx _ IHl]; [constructor|].
    apply Forall_cons in Hl as [? ?]. constructor; auto.
  - inversion Hwf as [| | | | |l' Hl Hn]; subst. apply equalValues_obj. split; [done|].
    apply Forall_forall. intros [k x] Hin. exists x.
    rewrite Forall_forall in IH, Hl. split; [by apply lookup_key_nodup|].
    by apply (IH (k, x)), (Hl (k, x)).
Qed.

Lemma equalValues_sym1 eps v : ∀ w,
  wf_json v → wf_json w → equalValues eps v w = true → equalValues eps w v = true.
Proof.
  induction v as [|b|x|s|l IH|l IH] using json_nested_ind; intros w Hv Hw.
  - by destruct w.
  - destruct w as [|b'| | | |]; try done. simpl. by destruct b, b'.
  - destruct w as [| |y| | |]; try done. simpl. by rewrite number_eq_sym.
  - destruct w as [| | |t| |]; try done. simpl. by rewrite String.eqb_sym.
  - destruct w as [| | | |m|]; try done. rewrite !equalValues_arr.
    inversion Hv as [| | | |? Hl|]; inversion Hw as [| | | |? Hm|]; subst. clear Hv Hw.
    intros H. induction H as [|x y l m Hxy _ IHl]; [constructor|].
    apply Forall_cons in IH as [IHx IH]. apply Forall_cons in Hl as [Hx Hl].
    apply Forall_cons in Hm as [Hy Hm]. constructor; auto.
  - destruct w as [| | | | |m]; try done. rewrite !equalValues_obj.
    inversion Hv as [| | | | |? Hl Hnl]; inversion Hw as [| | | | |? Hm Hnm]; subst.
    intros [Hlen H]. split; [done|].
    assert (Hkeys : map fst m ⊆ map fst l).
    { assert (HP : map fst l ≡ₚ map fst m); [|by intros k; rewrite HP].
      apply submseteq_length_Permutation; [|by rewrite !length_map, Hlen].
      apply NoDup_submseteq; [done|]. by eapply member_eq_keys. }
    rewrite Forall_forall in H, IH, Hl, Hm. apply Forall_forall. intros [k w] Hin.
    assert (Hk : k ∈ map fst l) by (apply Hkeys, list_elem_of_fmap; by exists (k, w)).
    apply list_elem_of_fmap in Hk as ([k' v] & [= <-] & Hin').
    destruct (H _ Hin') as (w' & Hw' & He). simpl in *.
    rewrite (lookup_key_nodup k w m) in Hw' by done. simplify_eq. exists v. simpl.
    split; [by apply lookup_key_nodup|].
    apply (IH (k, v)); [done|by apply (Hl (k, v))|by apply (Hm (k, w'))|done].
Qed.

Lemma equalValues_sym eps v w :
  wf_json v → wf_json w → equalValues eps v w = equalValues eps w v.
Proof.
  intros Hv Hw. apply eq_true_iff_eq. split; by apply equalValues_sym1.
Qed.

(** ** Canonical order *)

Lemma dedupe_sorted_subset prev l : dedupe_sorted prev l ⊆ l.
Proof.
  revert prev. induction l as [|x l IH]; intros prev; simpl; [done|].
  intros z. destruct (match prev with Some p => String.eqb (sortKey x) p | None => false end).
  - intros Hz. apply elem_of_cons. right. eapply IH, Hz.
  - rewrite !elem_of_cons. intros [->|Hz]; [by left|]. right. eapply IH, Hz.
Qed.

Lemma canonicalSort_wf d v : wf_json v → wf_json (canonicalSort d v).
Proof.
  induction v as [|b|x|s|l IH|l IH] using json_nested_ind; intros Hwf; try done.
  inversion Hwf as [| | | |? Hl|]; subst. cbn [canonicalSort].
  assert (Ho : Forall wf_json (stable_sort sortKey (map (canonicalSort d) l))).
  { rewrite stable_sort_perm. apply Forall_map. rewrite Forall_forall in *. auto. }
  constructor. destruct d; [|done]. rewrite Forall_forall in *.
  intros x Hx. apply Ho, (dedupe_sorted_subset None), Hx.
Qed.

(** Arrays whose elements the sort key tells apart, at every level. *)
Inductive separated (d : bool) : json → Prop :=
  | separated_arr l :
      Forall (separated d) l →
      (∀ x y, x ∈ map (canonicalSort d) l → y ∈ map (canonicalSort d) l →
              sortKey x = sortKey y → x = y) →
      separated d (JArr l)
  | separated_other v : match v with JArr _ => False | _ => True end → separated d v.

(** The same value up to the order of arrays, at every level. *)
Inductive shuffled : json → json → Prop :=
  | shuffled_refl v : shuffled v v
  | shuffled_arr l m k : Forall2 shuffled l m → m ≡ₚ k → shuffled (JArr l) (JArr k).

Lemma canonicalSort_shuffled v : ∀ w,
  shuffled v w → separated false v → canonicalSort false v = canonicalSort false w.
Proof.
  induction v as [|b|x|s|l IH|l IH] using json_nested_ind; intros w Hs Hsep;
    inversion Hs as [|? m k Hlm Hmk]; subst; try done.
  inversion Hsep as [? Hl Hinj|]; subst; [|done]. cbn [canonicalSort]. f_equal.
  assert (He : map (canonicalSort false) l = map (canonicalSort false) m).
  { clear Hinj Hs Hsep Hmk. induction Hlm as [|x y l m Hxy _ IHl]; [done|]. simpl.
    apply Forall_cons in IH as [IHx IH]. apply Forall_cons in Hl as [Hx Hl].
    f_equal; auto. }
  apply stable_sort_perm_eq; [|done]. rewrite He. by apply Permutation_map.
Qed.

Lemma dedupe_sorted_keys prev l :
  StronglySorted String.le (map sortKey l) →
  (match prev with Some p => Forall (String.le p) (map sortKey l) | None => True end) →
  StronglySorted (λ a b, String.le a b ∧ a ≠ b) (map sortKey (dedupe_sorted prev l))
  ∧ (match prev with Some p => Forall (λ k, k ≠ p) (map sortKey (dedupe_sorted prev l)) | None => True end)
  ∧ (∀ k, k ∈ map sortKey l → k ∈ map sortKey (dedupe_sorted prev l) ∨ prev = Some k).
Proof.
  revert prev. induction l as [|x l IH]; intros prev Hs Hp; simpl.
  { split_and!; [constructor|by destruct prev|set_solver]. }
  simpl in Hs, Hp. apply StronglySorted_inv in Hs as [Hs Hall].
  destruct (IH (Some (sortKey x)) Hs Hall) as (H1 & H2 & H3).
  assert (Hin : ∀ k, k ∈ map sortKey (dedupe_sorted (Some (sortKey x)) l) → k ∈ map sortKey l).
  { intros k (y & -> & Hy)%list_elem_of_fmap. apply dedupe_sorted_subset in Hy.
    apply list_elem_of_fmap. by exists y. }
  destruct (match prev with Some p => String.eqb (sortKey x) p | None => false end) eqn:E.
  - destruct prev as [p|]; [|done]. apply String.eqb_eq in E. subst p. split_and!; [done..|].
    intros k [->|Hk]%elem_of_cons; [by right|]. auto.
  - simpl. split_and!.
    + constructor; [done|]. rewrite Forall_forall in *. intros k Hk.
      split; [by apply Hall, Hin|]. intros Hx. by apply (H2 k Hk).
    + destruct prev as [p|]; [|done]. apply String.eqb_neq in E. constructor; [done|].
      apply Forall_cons in Hp as [Hpx Hp]. rewrite Forall_forall in *. intros k Hk ->.
      apply E. apply (anti_symm String.le); [by apply Hall, Hin|done].
    + intros k [->|Hk]%elem_of_cons; [left; constructor|].
      destruct (H3 k Hk) as [H|[= <-]]; left; by constructor.
Qed.

Definition strict_le (a b : string) : Prop := String.le a b ∧ a ≠ b.

Lemma strict_sorted_unique l : ∀ m,
  StronglySorted strict_le l → StronglySorted strict_le m →
  (∀ k, k ∈ l ↔ k ∈ m) → l = m.
Proof.
  induction l as [|x l IH]; intros [|y m] Hl Hm Heq.
  - done.
  - exfalso. assert (y ∈ []) by (apply Heq; constructor). set_solver.
  - exfalso. assert (x ∈ []) by (apply Heq; constructor). set_solver.
  - apply StronglySorted_inv in Hl as [Hl Hxl]. apply StronglySorted_inv in Hm as [Hm Hym].
    rewrite Forall_forall in Hxl, Hym.
    assert (x = y) as ->.
    { assert (Hx : x ∈ y :: m) by (apply Heq; constructor).
      assert (Hy : y ∈ x :: l) by (apply Heq; constructor).
      apply elem_of_cons in Hx as [->|Hx]; [done|]. apply elem_of_cons in Hy as [->|Hy]; [done|].
      destruct (Hym _ Hx), (Hxl _ Hy). by apply (anti_symm String.le). }
    f_equal. apply IH; [done..|]. intros k. specialize (Heq k). rewrite !elem_of_cons in Heq.
    split; intros Hk.
    + destruct (proj1 Heq (or_intror Hk)) as [->|?]; [|done]. by destruct (Hxl _ Hk).
    + destruct (proj2 Heq (or_intror Hk)) as [->|?]; [|done]. by destruct (Hym _ Hk).
Qed.

(** In set mode an array is determined by the set of its elements. *)
Lemma canonicalSort_set l m :
  separated true (JArr l) → (∀ x, x ∈ l ↔ x ∈ m) →
  canonicalSort true (JArr l) = canonicalSort true (JArr m).
Proof.
  intros Hsep Heq. inversion Hsep as [? _ Hinj|]; subst; [|done]. cbn [canonicalSort]. f_equal.
  set (cl := map (canonicalSort true) l) in *. set (cm := map (canonicalSort true) m).
  assert (Hc : ∀ x, x ∈ cl ↔ x ∈ cm).
  { intros x. unfold cl, cm. rewrite !list_elem_of_fmap. split; intros (y & -> & Hy);
      exists y; (split; [done|]); by apply Heq. }
  assert (Hd : ∀ c, (∀ x, x ∈ c ↔ x ∈ cl) →
    StronglySorted strict_le (map sortKey (dedupe_sorted None (stable_sort sortKey c)))
    ∧ (∀ k, k ∈ map sortKey (dedupe_sorted None (stable_sort sortKey c)) ↔ k ∈ map sortKey cl)
    ∧ (∀ x, x ∈ dedupe_sorted None (stable_sort sortKey c) → x ∈ cl)).
  { intros c Hcc.
    assert (Hin : ∀ x, x ∈ dedupe_sorted None (stable_sort sortKey c) → x ∈ cl).
    { intros x Hx%dedupe_sorted_subset. rewrite stable_sort_perm in Hx. by apply Hcc. }
    destruct (dedupe_sorted_keys None (stable_sort sortKey c)) as (H1 & _ & H3).
    { rewrite stable_sort_keys. apply sort_strings_sorted. }
    { done. }
    split_and!; [done| |done]. intros k. split.
    - intros (x & -> & Hx)%list_elem_of_fmap. apply list_elem_of_fmap. exists x. auto.
    - intros (x & -> & Hx)%list_elem_of_fmap. destruct (H3 (sortKey x)) as [?|?]; [|done..].
      apply list_elem_of_fmap. exists x. split; [done|]. rewrite stable_sort_perm. by apply Hcc. }
  destruct (Hd cl) as (S1 & K1 & I1); [done|].
  destruct (Hd cm) as (S2 & K2 & I2); [by intros x; rewrite Hc|].
  assert (Hk : map sortKey (dedupe_sorted None (stable_sort sortKey cl))
             = map sortKey (dedupe_sorted None (stable_sort sortKey cm))).
  { apply strict_sorted_unique; [done..|]. intros k. by rewrite K1, K2. }
  revert Hk I1 I2. generalize (dedupe_sorted None (stable_sort sortKey cl)),
    (dedupe_sorted None (stable_sort sortKey cm)). clear -Hinj.
  intros a. induction a as [|x a IH]; intros [|y b] Hk Ha Hb; simplify_eq/=; [done|].
  f_equal; [|apply IH; set_solver]. apply Hinj; set_solver.
Qed.

(** ** Rows *)

(** A row's cells under the lower-cased column names. *)
Definition cells (row : list (string * json)) : list (string * json) :=
  map (λ kv, (to_lower kv.1, kv.2)) row.

(** Two rows with the same columns up to letter case, in any order, and cells
    that SQL would call equal. *)
Definition same_row (row row' : list (string * json)) : Prop :=
  ∃ p, cells row ≡ₚ p ∧
       Forall2 (λ c c', c.1 = c'.1 ∧ canonicalValue c.2 = canonicalValue c'.2) p (cells row').

Definition distinct_columns (row : list (string * json)) : Prop := NoDup (map fst (cells row)).

Lemma assign_new {A} k (v : A) l : k ∉ map fst l → assign k v l = l ++ [(k, v)].
Proof.
  induction l as [|[k' v'] l IH]; simpl; [done|]. intros H.
  destruct (String.eqb_spec k k') as [->|_]; [set_solver|]. rewrite IH by set_solver. done.
Qed.

Lemma make_map_nodup {A} (l : list (string * A)) : NoDup (map fst l) → make_map l = l.
Proof.
  unfold make_map. change l with ([] ++ l) at 1 3. generalize (@nil (string * A)). 
  induction l as [|[k v] l IH]; intros acc Hn; simpl in *; [by rewrite app_nil_r|].
  rewrite assign_new.
  - rewrite IH; rewrite <- app_assoc; [done|exact Hn].
  - rewrite map_app in Hn. apply NoDup_app in Hn as (_ & Hn & _). simpl in Hn.
    intros Hin. apply (Hn _ Hin). constructor.
Qed.

Lemma cells_keys row : map (λ kv : string * json, to_lower kv.1) row = map fst (cells row).
Proof. unfold cells. by rewrite map_map. Qed.

Lemma canonicalRow_cells row :
  distinct_columns row →
  canonicalRow row =
  of_bytes (join_bytes unit_separator
    (map (render_cell (cells row)) (sort_strings (map fst (cells row))))).
Proof.
  intros Hd. unfold canonicalRow. rewrite cells_keys. fold (cells row). by rewrite make_map_nodup.
Qed.

Lemma same_row_lookup p m k :
  Forall2 (λ c c' : string * json, c.1 = c'.1 ∧ canonicalValue c.2 = canonicalValue c'.2) p m →
  canonicalValue (default JNull (lookup_key k p)) = canonicalValue (default JNull (lookup_key k m)).
Proof.
  induction 1 as [|[k1 v1] [k2 v2] p m [E1 E2] _ IH]; simpl in *; [done|]. subst.
  by destruct (String.eqb k k2).
Qed.

Lemma lookup_key_perm {A} k (l m : list (string * A)) :
  NoDup (map fst l) → l ≡ₚ m → lookup_key k l = lookup_key k m.
Proof.
  intros Hn HP. assert (Hm : NoDup (map fst m)) by by rewrite <- HP.
  destruct (lookup_key k l) as [v|] eqn:E.
  - apply lookup_key_in in E. rewrite HP in E. by rewrite (lookup_key_nodup _ _ _ Hm E).
  - apply lookup_key_none in E. rewrite HP in E. by apply lookup_key_none in E.
Qed.

Lemma canonicalRow_same row row' :
  distinct_columns row → same_row row row' → canonicalRow row = canonicalRow row'.
Proof.
  intros Hd (p & HP & H2).
  assert (Hk : map fst p = map fst (cells row')).
  { clear -H2. induction H2 as [|c c' p m [E _] _ IH]; simpl; [done|]. by rewrite E, IH. }
  assert (Hd' : distinct_columns row').
  { unfold distinct_columns in *. by rewrite <- Hk, <- HP. }
  rewrite !canonicalRow_cells by done. f_equal. f_equal.
  replace (sort_strings (map fst (cells row'))) with (sort_strings (map fst (cells row)))
    by (rewrite <- Hk; apply sort_strings_perm; by rewrite HP).
  apply map_ext. intros k. unfold render_cell. do 3 f_equal.
  rewrite (lookup_key_perm k _ p Hd HP). by apply same_row_lookup.
Qed.

Lemma strings_eqb_true l m : strings_eqb l m = true ↔ l = m.
Proof. apply bool_decide_eq_true. Qed.

Lemma sort_strings_eq l m : sort_strings l = sort_strings m ↔ l ≡ₚ m.
Proof.
  split; [|apply sort_strings_perm]. intros H. unfold sort_strings in H.
  by rewrite <- (stable_sort_perm id l), H, stable_sort_perm.
Qed.

Lemma overall_fold results worst :
  let w := fold_left (λ worst r, if priority worst <? priority (tr_Status r)
                                 then tr_Status r else worst) results worst in
  priority worst ≤ priority w ∧ (∀ r, r ∈ results → priority (tr_Status r) ≤ priority w)
  ∧ (w = worst ∨ ∃ r, r ∈ results ∧ tr_Status r = w).
Proof.
  revert worst. induction results as [|r l IH]; intros worst; simpl.
  { split_and!; [lia|set_solver|by left]. }
  set (worst' := if priority worst <? priority (tr_Status r) then tr_Status r else worst).
  destruct (IH worst') as (H1 & H2 & H3).
  assert (priority worst ≤ priority worst' ∧ priority (tr_Status r) ≤ priority worst').
  { unfold worst'. destruct (Z.ltb_spec (priority worst) (priority (tr_Status r))); lia. }
  split_and!; [lia| |].
  - intros r' [->|Hr]%elem_of_cons; [lia|auto].
  - destruct H3 as [H3|(r' & Hr & E)]; [|right; exists r'; split; [by constructor|done]].
    rewrite H3. unfold worst'. destruct (_ <? _); [|by left].
    right. exists r. split; [constructor|done].
Qed.

Lemma priority_nonneg s : 0 ≤ priority s.
Proof. unfold priority. repeat case_match; lia. Qed.

(** A decoded value, with the tolerance of the specification. *)
Definition spec_eps (spec : CompareSpec) : float64 :=
  if fleb (Eps spec) (S754_zero false) then default_eps else Eps spec.

Lemma MatchesTyped_values e a spec x y :
  unmarshal (trim_space e) = Some x → unmarshal (trim_space a) = Some y →
  MatchesTyped e a spec =
    if String.eqb (Mode spec) CompareUnordered then
      equalValues (spec_eps spec) (canonicalSort false x) (canonicalSort false y)
    else if String.eqb (Mode spec) CompareSet then
      equalValues (spec_eps spec) (canonicalSort true x) (canonicalSort true y)
    else equalValues (spec_eps spec) x y.
Proof. intros He Ha. unfold MatchesTyped. by rewrite He, Ha. Qed.

(** ** Theorems *)

(** The verdict of a typed comparison does not depend on how a
    language lays its output out: two texts that are layouts of one JSON tree,
    with any white space between tokens and around them, match in every
    comparison mode, whatever the tolerance (unless it is NaN). *)
Theorem MatchesTyped_layout r v expected actual spec :
  text_of r expected → text_of r actual → to_value r = Some v →
  is_nan (Eps spec) = false → MatchesTyped expected actual spec = true.
Proof.
  intros He%text_of_parse Ha%text_of_parse Hv Hn.
  assert (Hu : ∀ s, parse (trim_space s) = Some r → unmarshal (trim_space s) = Some v)
    by (intros s Hs; unfold unmarshal; by rewrite Hs).
  rewrite (MatchesTyped_values _ _ _ v v) by auto.
  pose proof (unmarshal_wf _ _ (Hu _ He)) as Hwf.
  pose proof (tolerant_default _ Hn) as Ht. fold (spec_eps spec) in Ht.
  repeat case_match; apply equalValues_refl; auto using canonicalSort_wf.
Qed.

(** A typed comparison is symmetric: swapping the expected and
    the actual output never changes the verdict. *)
Theorem MatchesTyped_sym expected actual spec :
  MatchesTyped expected actual spec = MatchesTyped actual expected spec.
Proof.
  unfold MatchesTyped.
  destruct (unmarshal (trim_space expected)) as [x|] eqn:Ex,
    (unmarshal (trim_space actual)) as [y|] eqn:Ey; try apply String.eqb_sym.
  apply unmarshal_wf in Ex. apply unmarshal_wf in Ey.
  repeat case_match; apply equalValues_sym; auto using canonicalSort_wf.
Qed.

(** In "unordered" mode an answer that rearranges the expected
    arrays, at any level of nesting, is accepted, provided sorting can tell
    the elements of each expected array apart. *)
Theorem MatchesTyped_unordered expected actual spec v w :
  unmarshal (trim_space expected) = Some v → unmarshal (trim_space actual) = Some w →
  Mode spec = CompareUnordered → is_nan (Eps spec) = false →
  shuffled v w → separated false v → MatchesTyped expected actual spec = true.
Proof.
  intros He Ha Hm Hn Hs Hsep. rewrite (MatchesTyped_values _ _ _ v w), Hm by done.
  rewrite <- (canonicalSort_shuffled v w) by done.
  apply equalValues_refl; [by apply tolerant_default|].
  by eapply canonicalSort_wf, unmarshal_wf.
Qed.

(** In "unordered" mode an accepted array is a
    rearrangement of the expected one: its elements can be paired one to one
    with the expected elements so that each pair agrees within the tolerance
    once both are sorted. *)
Theorem MatchesTyped_unordered_sound expected actual spec l m :
  unmarshal (trim_space expected) = Some (JArr l) →
  unmarshal (trim_space actual) = Some (JArr m) →
  Mode spec = CompareUnordered → MatchesTyped expected actual spec = true →
  ∃ l' m', l' ≡ₚ l ∧ m' ≡ₚ m ∧
    Forall2 (λ x y, equalValues (spec_eps spec) (canonicalSort false x) (canonicalSort false y) = true)
      l' m'.
Proof.
  intros He Ha Hm. rewrite (MatchesTyped_values _ _ _ _ _ He Ha), Hm. simpl String.eqb.
  cbn [canonicalSort]. rewrite equalValues_arr.
  pose proof (stable_sort_perm sortKey (map (canonicalSort false) l)) as HP.
  pose proof (stable_sort_perm sortKey (map (canonicalSort false) m)) as HQ.
  apply Permutation_map_inv in HP as (l' & -> & HP). apply Permutation_map_inv in HQ as (m' & -> & HQ).
  intros H. exists l', m'. split_and!; [done..|].
  by apply Forall2_fmap_1 in H.
Qed.

(** In "set" mode two arrays with the same elements match,
    however often and in whatever order each lists them, provided sorting can
    tell the expected elements apart. *)
Theorem MatchesTyped_set expected actual spec l m :
  unmarshal (trim_space expected) = Some (JArr l) →
  unmarshal (trim_space actual) = Some (JArr m) →
  Mode spec = CompareSet → is_nan (Eps spec) = false →
  (∀ x, x ∈ l ↔ x ∈ m) → separated true (JArr l) → MatchesTyped expected actual spec = true.
Proof.
  intros He Ha Hm Hn Hs Hsep. rewrite (MatchesTyped_values _ _ _ _ _ He Ha), Hm.
  simpl String.eqb. cbv iota. rewrite <- (canonicalSort_set l m) by done.
  apply equalValues_refl; [by apply tolerant_default|].
  by eapply canonicalSort_wf, unmarshal_wf.
Qed.

(** Two SQL result sets are equal exactly when they have the
    same canonical rows: in the same sequence when the expected set is ordered,
    with the same multiplicities in any sequence otherwise. *)
Lemma resultSetsEqual_spec expected actual :
  resultSetsEqual expected actual = true ↔
  if Ordered expected
  then canonicalRows (Rows expected) = canonicalRows (Rows actual)
  else canonicalRows (Rows expected) ≡ₚ canonicalRows (Rows actual).
Proof.
  unfold resultSetsEqual.
  destruct (Nat.eqb_spec (List.length (Rows expected)) (List.length (Rows actual))) as [Hl|Hl];
    cbn [negb].
  - destruct (Ordered expected); rewrite strings_eqb_true; [done|]. apply sort_strings_eq.
  - split; [done|]. intros H. exfalso. apply Hl. unfold canonicalRows in H.
    destruct (Ordered expected).
    + by apply (f_equal List.length) in H; rewrite !length_map in H.
    + by apply Permutation_length in H; rewrite !length_map in H.
Qed.

(** Two SQL result sets are equal exactly when they have the
    same canonical rows, in the same sequence when the expected set is ordered
    and with the same multiplicities in any sequence otherwise; so column
    order, the letter case of column names, numeric formatting of cells and,
    for an unordered expectation, the order of rows do not matter: a result
    set with the same rows up to those is accepted. *)
Theorem resultSetsEqual_rows expected actual :
  (resultSetsEqual expected actual = true ↔
     if Ordered expected
     then canonicalRows (Rows expected) = canonicalRows (Rows actual)
     else canonicalRows (Rows expected) ≡ₚ canonicalRows (Rows actual)) ∧
  (∀ rows, Rows expected ≡ₚ rows → (Ordered expected = true → rows = Rows expected) →
     Forall distinct_columns (Rows expected) → Forall2 same_row rows (Rows actual) →
     resultSetsEqual expected actual = true).
Proof.
  split; [apply resultSetsEqual_spec|]. intros rows HP Ho Hd H2. apply resultSetsEqual_spec.
  assert (He : canonicalRows rows = canonicalRows (Rows actual)).
  { rewrite HP in Hd. clear Ho HP. induction H2 as [|r r' l m Hr _ IH]; [done|].
    apply Forall_cons in Hd as [Hd1 Hd]. unfold canonicalRows in *. simpl.
    f_equal; [by apply canonicalRow_same|by apply IH]. }
  rewrite <- He. destruct (Ordered expected).
  - by rewrite Ho.
  - unfold canonicalRows. by apply Permutation_map.
Qed.

(** One test case is Accepted exactly when the run neither
    timed out nor ran out of memory, exited with 0 and printed output that
    matches; the time limit outranks the memory limit, which outranks the exit
    code; an error text is given for exactly those three; and the judge never
    answers CompileError. *)
Theorem EvaluateTestCase_verdict tc res spec :
  let tr := EvaluateTestCaseWithSpec tc res spec in
  (tr_Status tr = StatusAccepted ↔
     rr_TimedOut res = false ∧ rr_OOMKilled res = false ∧ rr_ExitCode res = 0
     ∧ matches (tc_ExpectedOutput tc) (rr_Stdout res) spec = true) ∧
  (tr_Status tr = StatusTimeLimitExceeded ↔ rr_TimedOut res = true) ∧
  (tr_Status tr = StatusMemoryLimitExceeded ↔ rr_TimedOut res = false ∧ rr_OOMKilled res = true) ∧
  (tr_Error tr = "" ↔ tr_Status tr = StatusAccepted ∨ tr_Status tr = StatusWrongAnswer) ∧
  tr_Status tr ≠ StatusCompileError.
Proof.
  unfold EvaluateTestCaseWithSpec.
  destruct (rr_TimedOut res); simpl; [naive_solver|].
  destruct (rr_OOMKilled res); simpl; [naive_solver|].
  destruct (Z.eqb_spec (rr_ExitCode res) 0); simpl; [destruct (matches _ _ _); naive_solver|].
  destruct (String.eqb_spec (trim_space (rr_Stderr res)) ""); simpl; naive_solver.
Qed.

(** The overall status is the worst of the case verdicts: no
    verdict has a higher priority, it is one of them (Accepted for an empty
    list), and it is Accepted exactly when no verdict ranks above Accepted. *)
Theorem OverallStatus_worst results :
  (∀ r, r ∈ results → priority (tr_Status r) ≤ priority (OverallStatus results)) ∧
  (OverallStatus results = StatusAccepted ∨ ∃ r, r ∈ results ∧ tr_Status r = OverallStatus results) ∧
  (OverallStatus results = StatusAccepted ↔ ∀ r, r ∈ results → priority (tr_Status r) = 0).
Proof.
  assert (E : OverallStatus results =
    fold_left (λ worst r, if priority worst <? priority (tr_Status r) then tr_Status r else worst)
      results StatusAccepted) by by destruct results.
  destruct (overall_fold results StatusAccepted) as (_ & H2 & H3). rewrite <- E in H2, H3.
  split_and!; [done..|]. split.
  - intros Ha r Hr. apply H2 in Hr. rewrite Ha in Hr. pose proof (priority_nonneg (tr_Status r)).
    change (priority StatusAccepted) with 0 in Hr. lia.
  - intros H0. rewrite E. clear -H0. induction results as [|r l IH]; [done|]. simpl.
    rewrite H0 by constructor. apply IH. intros r' Hr'. apply H0. by constructor.
Qed.

(** Two columns that differ only in case make the verdict depend on the order
    in which the map yields them. *)
Lemma canonicalRow_collision :
  ∃ row row', row ≡ₚ row' ∧ NoDup (map fst row) ∧ canonicalRow row ≠ canonicalRow row'.
Proof.
  exists [("A", JBool true); ("a", JBool false)], [("a", JBool false); ("A", JBool true)].
  split_and!; [apply Permutation_swap|by decide_now|by vm_compute].
Qed.

(** Distinct rows can render alike when a cell holds a unit separator. *)
Lemma canonicalRow_separator :
  ∃ row row', ¬ same_row row row' ∧ distinct_columns row ∧ distinct_columns row'
              ∧ canonicalRow row = canonicalRow row'.
Proof.
  exists [("a", JStr (of_bytes (to_bytes "x" ++ unit_separator :: to_bytes "b=y")))],
    [("a", JStr "x"); ("b", JStr "y")].
  split_and!.
  - intros (p & HP & H2). apply Permutation_length in HP. apply Forall2_length in H2.
    simpl in *. lia.
  - by decide_now.
  - by decide_now.
  - by vm_compute.
Qed.

(** ** Concrete inputs *)

Definition raw_pair : raw := RArr [RNum (to_bytes "1"); RStr "a"].

Definition two_layouts : string * string :=
  (of_bytes (to_bytes "[1," ++ quote :: "a"%char :: [quote; "]"%char]),
   of_bytes (to_bytes " [1 , " ++ quote :: "a"%char :: quote :: "]"%char :: [newline])).

Lemma raw_pair_lays sp1 sp2 :
  spaces sp1 → spaces sp2 →
  Lays 0 raw_pair
    ("["%char :: to_bytes "1" ++ sp1 ++ ","%char :: sp2 ++ quote :: "a"%char :: quote :: [] ++ ["]"%char]).
Proof.
  intros H1 H2. apply lays_arr; [done|].
  refine (lays_more _ _ _ [] (to_bytes "1") sp1 _ _ _ _ _); [constructor|by apply lays_num|done|].
  refine (lays_last _ _ sp2 (quote :: "a"%char :: [quote]) [] _ _ _); [done| |constructor].
  by apply (lays_str _ (to_bytes "a")).
Qed.

Lemma MatchesTyped_layout_witness :
  text_of raw_pair two_layouts.1 ∧
  MatchesTyped two_layouts.1 two_layouts.2 {| Mode := "exact"; Eps := S754_zero false |} = true.
Proof.
  assert (H1 : text_of raw_pair two_layouts.1).
  { eexists [], _, []. split_and!; [|constructor|apply (raw_pair_lays [] []); constructor|constructor].
    reflexivity. }
  split; [exact H1|].
  eapply (MatchesTyped_layout raw_pair); [exact H1| |reflexivity|reflexivity].
  eexists [" "%char], _, [newline].
  split_and!; [|repeat constructor| |repeat constructor].
  2: apply (raw_pair_lays [" "%char] [" "%char]); repeat constructor.
  reflexivity.
Defined.

Definition num (z : Z) : json := JNum (of_Z z).
Definition unordered_spec : CompareSpec := {| Mode := CompareUnordered; Eps := S754_zero false |}.
Definition set_spec : CompareSpec := {| Mode := CompareSet; Eps := S754_zero false |}.

Lemma separated_pairs d :
  separated d (JArr [JArr [num 2; num 1]; num 3]).
Proof.
  apply separated_arr.
  - apply Forall_cons; split; [|apply Forall_cons; split; [by apply separated_other|constructor]].
    apply separated_arr; [repeat constructor; by apply separated_other|].
    intros x y. simpl. rewrite !elem_of_cons, !elem_of_nil.
    intros [->|[->|[]]] [->|[->|[]]] H; vm_compute in H; (discriminate H || reflexivity).
  - intros x y. cbn [map]. rewrite !elem_of_cons, !elem_of_nil.
    intros [->|[->|[]]] [->|[->|[]]] H; destruct d; vm_compute in H; (discriminate H || reflexivity).
Qed.

Lemma MatchesTyped_unordered_witness :
  separated false (JArr [JArr [num 2; num 1]; num 3]) ∧
  MatchesTyped "[[2,1],3]" "[3, [1,2]]" unordered_spec = true.
Proof.
  split; [apply separated_pairs|].
  apply (MatchesTyped_unordered _ _ _ (JArr [JArr [num 2; num 1]; num 3])
           (JArr [num 3; JArr [num 1; num 2]])).
  - vm_compute. reflexivity.
  - vm_compute. reflexivity.
  - reflexivity.
  - reflexivity.
  - apply (shuffled_arr _ [JArr [num 1; num 2]; num 3]); [|apply Permutation_swap].
    constructor; [|constructor; [apply shuffled_refl|constructor]].
    apply (shuffled_arr _ [num 2; num 1]); [|apply Permutation_swap].
    constructor; [apply shuffled_refl|constructor; [apply shuffled_refl|constructor]].
  - apply separated_pairs.
Defined.

Lemma MatchesTyped_unordered_sound_witness :
  ∃ l' m', l' ≡ₚ [num 2; num 1] ∧ m' ≡ₚ [num 1; num 2] ∧
    Forall2 (λ x y, equalValues (spec_eps unordered_spec) (canonicalSort false x)
                      (canonicalSort false y) = true) l' m'.
Proof.
  apply (MatchesTyped_unordered_sound "[2,1]" "[1,2]"); vm_compute; reflexivity.
Defined.

Lemma MatchesTyped_set_witness :
  MatchesTyped "[[2,1],3]" "[3,[2,1],3]" set_spec = true.
Proof.
  apply (MatchesTyped_set _ _ _ [JArr [num 2; num 1]; num 3] [num 3; JArr [num 2; num 1]; num 3]).
  - vm_compute. reflexivity.
  - vm_compute. reflexivity.
  - reflexivity.
  - reflexivity.
  - intros x. rewrite !elem_of_cons. tauto.
  - apply separated_pairs.
Defined.

Definition rows_expected : resultSet :=
  {| Rows := [[("Email", JStr "a"); ("N", JStr "4.00")]; [("Email", JStr "b"); ("N", num 1)]];
     Ordered := false |}.
Definition rows_actual : resultSet :=
  {| Rows := [[("n", num 1); ("email", JStr "b")]; [("email", JStr "a"); ("n", num 4)]];
     Ordered := false |}.

Lemma resultSetsEqual_rows_witness : resultSetsEqual rows_expected rows_actual = true.
Proof.
  refine (proj2 (resultSetsEqual_rows _ _)
    [[("Email", JStr "b"); ("N", num 1)]; [("Email", JStr "a"); ("N", JStr "4.00")]] _ _ _ _).
  - apply Permutation_swap.
  - discriminate.
  - repeat constructor; decide_now.
  - constructor; [|constructor; [|constructor]].
    + eexists. split; [apply Permutation_swap|].
      constructor; [split; vm_compute; reflexivity|].
      constructor; [split; vm_compute; reflexivity|constructor].
    + eexists. split; [reflexivity|].
      constructor; [split; vm_compute; reflexivity|].
      constructor; [split; vm_compute; reflexivity|constructor].
Defined.
