(* ===== verification/Similarity.v ===== *)
(** Comparing two solutions by their structure
    (services/api-gateway/graph/resolvers/similarity.go, and the part of
    integrity.go's [codeSignals] that reports similar pairs).

    Code is cut into tokens, the tokens into k-grams, and winnowing keeps the
    minimum hash of every window.  A source text is its list of runes, an
    index into it the rest of the list; a [uint64] is an integer modulo 2^64.
    Unicode's tables of letters and digits are the class [Unicode]. *)

From S2P Require Import Prelude GoStrings Json.
From Stdlib Require Import Ascii.

#[local] Open Scope Z_scope.

(** ** Runes *)

Definition ru (a : ascii) : Z := Z.of_nat (code a).

(** The low six bits of a continuation byte. *)
Definition six (a : ascii) : Z := ru a mod 64.

(** The rune at the front and its width; a byte that starts no well-formed
    encoding is the replacement character. *)
Definition decode_rune (s : bytes) : Z * nat :=
  match rune_len s, s with
  | 1%nat, a :: _ => (ru a, 1%nat)
  | 2%nat, a :: b :: _ => (ru a mod 32 * 64 + six b, 2%nat)
  | 3%nat, a :: b :: c :: _ => ((ru a mod 16 * 64 + six b) * 64 + six c, 3%nat)
  | 4%nat, a :: b :: c :: d :: _ =>
      (((ru a mod 8 * 64 + six b) * 64 + six c) * 64 + six d, 4%nat)
  | _, _ => (0xFFFD, 1%nat)
  end.

Fixpoint decode_runes (fuel : nat) (s : bytes) : list Z :=
  match fuel, s with
  | S f, _ :: _ => let '(c, n) := decode_rune s in c :: decode_runes f (skipn n s)
  | _, _ => []
  end.

(** [[]rune(code)] *)
Definition runes (s : string) : list Z := decode_runes (length (to_bytes s)) (to_bytes s).

(** [string(rs)] *)
Definition string_of_runes (rs : list Z) : string := of_bytes (flat_map encode_rune rs).

(** [unicode.IsSpace] *)
Definition is_space (c : Z) : bool :=
  (9 <=? c) && (c <=? 13) || (c =? 32) || (c =? 0x85) || (c =? 0xA0) || (c =? 0x1680) ||
  (0x2000 <=? c) && (c <=? 0x200A) || (c =? 0x2028) || (c =? 0x2029) || (c =? 0x202F) ||
  (c =? 0x205F) || (c =? 0x3000).

Definition ascii_digit (c : Z) : bool := (48 <=? c) && (c <=? 57).
Definition ascii_letter (c : Z) : bool := (65 <=? c) && (c <=? 90) || (97 <=? c) && (c <=? 122).

(** Unicode's categories: [unicode.IsLetter] and [unicode.IsDigit]. *)
Class Unicode := { is_letter : Z → bool; is_digit : Z → bool }.

Class UnicodeLaws (U : Unicode) : Prop := {
  letter_ascii c : 0 ≤ c < 128 → is_letter c = ascii_letter c;
  digit_ascii c : 0 ≤ c < 128 → is_digit c = ascii_digit c;
  letter_not_digit c : is_letter c = true → is_digit c = false;
  letter_not_space c : is_letter c = true → is_space c = false;
  digit_not_space c : is_digit c = true → is_space c = false;
}.

(** ** Tokens *)

Definition newline_rune : Z := ru newline.
Definition hash_rune : Z := ru "#"%char.
Definition slash : Z := ru "/"%char.
Definition star : Z := ru "*"%char.
Definition minus : Z := ru "-"%char.
Definition backslash : Z := ru "\"%char.

Definition is_quote (c : Z) : bool := (c =? 34) || (c =? ru "'"%char) || (c =? ru "`"%char).

Definition simKeywords : list string := [
  "if"; "else"; "for"; "while"; "do"; "switch"; "case"; "default"; "break"; "continue"; "return";
  "func"; "function"; "def"; "class"; "struct"; "interface"; "new"; "delete"; "this"; "self"; "super";
  "try"; "catch"; "except"; "finally"; "throw"; "throws"; "raise"; "with"; "import"; "from"; "package";
  "public"; "private"; "protected"; "static"; "final"; "const"; "let"; "var"; "void"; "int"; "long";
  "float"; "double"; "char"; "bool"; "boolean"; "true"; "false"; "nil"; "null"; "None"; "True"; "False";
  "and"; "or"; "not"; "in"; "is"; "go"; "defer"; "select"; "chan"; "yield"; "lambda"; "async"; "await";
  "using"; "namespace"; "template"; "typename"; "auto"].

Definition is_keyword (w : string) : bool := existsb (String.eqb w) simKeywords.

Definition head_is (c : Z) (rs : list Z) : bool :=
  match rs with d :: _ => d =? c | [] => false end.

Fixpoint take_while (p : Z → bool) (l : list Z) : list Z :=
  match l with
  | x :: t => if p x then x :: take_while p t else []
  | [] => []
  end.

Definition skip_line (rs : list Z) : list Z := drop_while (λ c, negb (c =? newline_rune)) rs.

(** Behind the next [*/], or the end. *)
Fixpoint skip_block (rs : list Z) : list Z :=
  match rs with
  | a :: (b :: t) as r => if (a =? star) && (b =? slash) then t else skip_block r
  | _ => []
  end.

(** Behind the next three quotes, or the end. *)
Fixpoint skip_triple (q : Z) (rs : list Z) : list Z :=
  match rs with
  | a :: (b :: c :: t) as r => if (a =? q) && (b =? q) && (c =? q) then t else skip_triple q r
  | _ => []
  end.

(** Behind the closing quote or the end of the line. *)
Fixpoint skip_string (q : Z) (rs : list Z) : list Z :=
  match rs with
  | a :: t =>
      if (a =? q) || (a =? newline_rune) then t
      else if a =? backslash then match t with _ :: t' => skip_string q t' | [] => [] end
      else skip_string q t
  | [] => []
  end.

Section Tokens.
Context {U : Unicode}.

Definition number_rune (c : Z) : bool :=
  is_digit c || (c =? ru "."%char) || (c =? ru "_"%char) || is_letter c.
Definition word_start (c : Z) : bool := is_letter c || (c =? ru "_"%char) || (c =? ru "$"%char).
Definition word_rune (c : Z) : bool :=
  is_letter c || is_digit c || (c =? ru "_"%char) || (c =? ru "$"%char).

Definition hashComments (language : string) : bool :=
  String.eqb language "python" || String.eqb language "sql".

(** The text from [c] on is a comment to the end of the line. *)
Definition line_comment (language : string) (c : Z) (r : list Z) : bool :=
  (c =? slash) && head_is slash r || (c =? hash_rune) && hashComments language ||
  (c =? minus) && String.eqb language "sql" && head_is minus r.

Definition word_token (w : list Z) : string :=
  let w := string_of_runes w in if is_keyword w then w else "I".

(** One round of [simTokens]'s loop at [c], with [r] behind it: the token it
    appends and where it goes on. *)
Definition next_token (language : string) (c : Z) (r : list Z) : option string * list Z :=
  if is_space c then (None, r)
  else if line_comment language c r then (None, skip_line (c :: r))
  else if (c =? hash_rune) && negb (hashComments language) then (None, skip_line (c :: r))
  else if (c =? slash) && head_is star r then (None, skip_block (tail r))
  else if is_quote c then
    match r with
    | a :: b :: t =>
        if (a =? c) && (b =? c) then (None, skip_triple c t) else (Some "S", skip_string c r)
    | _ => (Some "S", skip_string c r)
    end
  else if is_digit c then (Some "N", drop_while number_rune (c :: r))
  else if word_start c then
    (Some (word_token (take_while word_rune (c :: r))), drop_while word_rune (c :: r))
  else (Some (string_of_runes [c]), r).

Definition push (t : option string) (l : list string) : list string :=
  match t with Some w => w :: l | None => l end.

Fixpoint tokens_from (fuel : nat) (language : string) (rs : list Z) : list string :=
  match fuel, rs with
  | S f, c :: r => let '(t, rest) := next_token language c r in push t (tokens_from f language rest)
  | _, _ => []
  end.

Definition rune_tokens (language : string) (rs : list Z) : list string :=
  tokens_from (length rs) language rs.

Definition simTokens (code language : string) : list string := rune_tokens language (runes code).
End Tokens.

(** ** Fingerprints *)

Definition simK : nat := 5.
Definition simW : nat := 4.
Definition simMinPrints : nat := 8.

(** [fnv.New64a] *)
Definition fnv64a (bs : bytes) : Z :=
  fold_left (λ h b, (Z.lxor h (ru b) * 1099511628211) mod 2 ^ 64) bs 14695981039346656037.

(** Every run of [n] consecutive elements, in order. *)
Definition slices {A} (n : nat) (l : list A) : list (list A) :=
  map (λ i, firstn n (skipn i l)) (seq 0 (S (length l) - n)).

Definition gram_hash (g : list string) : Z := fnv64a (flat_map (λ t, to_bytes t ++ ["000"%char]) g).

Definition window_min (w : list Z) : Z :=
  match w with
  | h :: r => fold_left (λ m h, if h <? m then h else m) r h
  | [] => 0
  end.

Definition token_hashes (toks : list string) : list Z := map gram_hash (slices simK toks).

Definition winnow (hashes : list Z) : gset Z :=
  if (length hashes <=? simW)%nat then list_to_set hashes
  else list_to_set (map window_min (slices simW hashes)).

Definition token_print (toks : list string) : gset Z :=
  if (length toks <? simK)%nat then ∅ else winnow (token_hashes toks).

Definition simFingerprint {U : Unicode} (code language : string) : gset Z :=
  token_print (simTokens code language).

Definition without (f base : gset Z) : gset Z :=
  if (size base =? 0)%nat then f else f ∖ base.

Definition simScore (a b : gset Z) : Z * bool :=
  if (size a <? simMinPrints)%nat || (size b <? simMinPrints)%nat then (0, false)
  else
    let '(small, large) := if (size b <? size a)%nat then (b, a) else (a, b) in
    (Z.of_nat (size (small ∩ large)) * 100 / Z.of_nat (size small), true).

(** ** Slices *)

Lemma slices_cons {A} n (x : A) l :
  (n ≤ S (length l))%nat → slices n (x :: l) = firstn n (x :: l) :: slices n l.
Proof.
  intros Hn. unfold slices. cbn [length]. replace (S (S (length l)) - n)%nat with (S (S (length l) - n)) by lia.
  cbn [seq map]. f_equal. rewrite <- seq_shift, map_map. done.
Qed.

Lemma slices_app_l {A} n (a l : list A) :
  (n ≤ length l)%nat → ∃ x, slices n (a ++ l) = x ++ slices n l.
Proof.
  intros Hn. induction a as [|y a [x IH]]; [by exists []|].
  cbn [app]. rewrite slices_cons by (rewrite length_app; lia). rewrite IH. by eexists (_ :: _).
Qed.

Lemma slices_app_r {A} n (l b : list A) :
  (n ≤ length l)%nat → ∃ x, slices n (l ++ b) = slices n l ++ x.
Proof.
  intros Hn. unfold slices. rewrite length_app.
  replace (S (length l + length b) - n)%nat with ((S (length l) - n) + length b)%nat by lia.
  rewrite seq_app, map_app. eexists. f_equal. apply map_ext_in. intros i Hi%in_seq.
  rewrite skipn_app, firstn_app, length_skipn.
  replace (n - (length l - i))%nat with 0%nat by lia. by rewrite firstn_O, app_nil_r.
Qed.

Lemma slices_infix {A} n (a l b : list A) :
  (n ≤ length l)%nat → ∃ x y, slices n (a ++ l ++ b) = x ++ slices n l ++ y.
Proof.
  intros Hn. destruct (slices_app_l n a (l ++ b)) as [x ->]; [rewrite length_app; lia|].
  destruct (slices_app_r n l b Hn) as [y ->]. eauto.
Qed.

Lemma slices_length {A} n (l : list A) : length (slices n l) = (S (length l) - n)%nat.
Proof. unfold slices. by rewrite length_map, length_seq. Qed.

Lemma slices_self {A} (l : list A) : slices (length l) l = [l].
Proof.
  unfold slices. replace (S (length l) - length l)%nat with 1%nat by lia. cbn. by rewrite firstn_all.
Qed.

(** ** Winnowing *)

Lemma window_min_in w : w ≠ [] → window_min w ∈ w.
Proof.
  destruct w as [|h r]; [done|]. intros _. cbn [window_min].
  revert h. induction r as [|k r IH]; intros h; [by left|]. cbn [fold_left].
  destruct (k <? h).
  - right. apply IH.
  - specialize (IH h). apply elem_of_cons in IH as [->|IH]; [by left|by do 2 right].
Qed.

(** A run of tokens keeps its hashes wherever it stands. *)
Lemma token_hashes_infix a run b :
  (simK ≤ length run)%nat →
  ∃ x y, token_hashes (a ++ run ++ b) = x ++ token_hashes run ++ y.
Proof.
  intros Hn. unfold token_hashes. destruct (slices_infix simK a run b Hn) as (x & y & ->).
  rewrite !map_app. eauto.
Qed.

(** A whole window of hashes leaves its minimum in the fingerprint. *)
Lemma winnow_window x w y : length w = simW → window_min w ∈ winnow (x ++ w ++ y).
Proof.
  intros Hw. assert (Hne : w ≠ []) by (intros ->; discriminate Hw).
  unfold winnow. destruct (Nat.leb_spec (length (x ++ w ++ y)) simW); apply elem_of_list_to_set.
  - rewrite !elem_of_app. right. left. by apply window_min_in.
  - apply list_elem_of_In, in_map. destruct (slices_infix simW x w y) as (x' & y' & ->); [lia|].
    rewrite <- Hw at 1. rewrite slices_self. apply in_app_iff. right. by left.
Qed.

Lemma token_print_winnow toks : (simK ≤ length toks)%nat → token_print toks = winnow (token_hashes toks).
Proof. intros H. unfold token_print. by rewrite (proj2 (Nat.ltb_ge _ _)). Qed.

(** The first whole window of hashes of a run. *)
Definition run_mark (run : list string) : Z := window_min (firstn simW (token_hashes run)).

Lemma run_mark_caught a run b :
  (simK + simW ≤ S (length run))%nat → run_mark run ∈ token_print (a ++ run ++ b).
Proof.
  intros Hn. unfold simK, simW in *. rewrite token_print_winnow by (unfold simK; rewrite !length_app; lia).
  destruct (token_hashes_infix a run b) as (x & y & ->); [unfold simK; lia|].
  assert (Hl : (4 ≤ length (token_hashes run))%nat).
  { unfold token_hashes. rewrite length_map, slices_length. unfold simK. lia. }
  rewrite <- (firstn_skipn simW (token_hashes run)) at 1. rewrite <- app_assoc.
  apply winnow_window. rewrite length_firstn. unfold simW. lia.
Qed.

(** C39.  Winnowing misses no long copy: when two sources in which the same
    run of at least [simK + simW - 1] tokens stands anywhere are compared,
    their fingerprints share a print. *)
Theorem shared_run_caught `{Unicode} code code' language language' a a' run b b' :
  simTokens code language = a ++ run ++ b → simTokens code' language' = a' ++ run ++ b' →
  (simK + simW - 1 ≤ length run)%nat →
  simFingerprint code language ∩ simFingerprint code' language' ≠ ∅.
Proof.
  intros E E' Hn. unfold simFingerprint. rewrite E, E'.
  assert (Hn' : (simK + simW ≤ S (length run))%nat) by (unfold simK, simW in *; lia).
  pose proof (run_mark_caught a run b Hn'). pose proof (run_mark_caught a' run b' Hn'). set_solver.
Qed.

Lemma size_list_le (l : list Z) : (size (list_to_set l : gset Z) ≤ length l)%nat.
Proof.
  induction l as [|x l IH]; cbn [list_to_set length]; [rewrite size_empty; lia|].
  rewrite size_union_alt, size_singleton.
  assert (size (list_to_set l ∖ {[x]} : gset Z) ≤ size (list_to_set l : gset Z))%nat
    by (apply subseteq_size; set_solver). lia.
Qed.

(** A source that stands whole in another has all its prints there, once it
    is long enough to be cut into windows. *)
Lemma token_print_infix a toks b :
  (simW < size (token_print toks))%nat → token_print toks ⊆ token_print (a ++ toks ++ b).
Proof.
  intros Hs. assert (Hk : (simK ≤ length toks)%nat).
  { unfold token_print in Hs. destruct (Nat.ltb_spec (length toks) simK); [|done].
    rewrite size_empty in Hs. lia. }
  rewrite !token_print_winnow in * by (rewrite ?length_app; lia).
  destruct (token_hashes_infix a toks b Hk) as (x & y & ->).
  assert (Hlong : (simW < length (token_hashes toks))%nat).
  { destruct (Nat.leb_spec (length (token_hashes toks)) simW) as [Hle|]; [|done].
    unfold winnow in Hs. rewrite (proj2 (Nat.leb_le _ _) Hle) in Hs.
    pose proof (size_list_le (token_hashes toks)). lia. }
  generalize dependent (token_hashes toks). intros hs _ Hlong. unfold winnow.
  rewrite !(proj2 (Nat.leb_gt _ _)) by (rewrite ?length_app; lia).
  intros h. rewrite !elem_of_list_to_set, !list_elem_of_In. intros Hh.
  destruct (slices_infix simW x hs y) as (x' & y' & ->); [lia|].
  rewrite !map_app, !in_app_iff. auto.
Qed.

(** ** The structure of a source

    A source as a list of lexemes, whose text is what [simTokens] reads. *)

Inductive lexeme :=
  | Blank (c : Z)
  | LineComment (body : list Z)
  | HashLine (body : list Z)
  | BlockComment (body : list Z)
  | Docstring (q : Z) (body : list Z)
  | Quoted (q : Z) (body : list (bool * Z))   (* [true]: behind a backslash *)
  | Number (w : list Z)
  | Name (w : list Z)
  | Symbol (c : Z).

Definition quoted_item (i : bool * Z) : list Z := if fst i then [backslash; snd i] else [snd i].

Definition lexeme_text (l : lexeme) : list Z :=
  match l with
  | Blank c | Symbol c => [c]
  | LineComment b => slash :: slash :: b
  | HashLine b => hash_rune :: b
  | BlockComment b => slash :: star :: b ++ [star; slash]
  | Docstring q b => q :: q :: q :: b ++ [q; q; q]
  | Quoted q b => q :: flat_map quoted_item b ++ [q]
  | Number w | Name w => w
  end.

Definition source_text (ls : list lexeme) : list Z := flat_map lexeme_text ls.

Fixpoint starts (stop l : list Z) : bool :=
  match stop, l with
  | [], _ => true
  | x :: stop', y :: l' => (x =? y) && starts stop' l'
  | _, [] => false
  end.

(** [stop] begins nowhere in [l]. *)
Fixpoint clear_of (stop l : list Z) : bool :=
  match l with
  | [] => true
  | _ :: t => negb (starts stop l) && clear_of stop t
  end.

Definition ends_before (p : Z → bool) (rest : list Z) : bool :=
  match rest with c :: _ => negb (p c) | [] => true end.

Section Structure.
Context {U : Unicode} {UL : UnicodeLaws U}.

(** The token a lexeme leaves. *)
Definition token_of (l : lexeme) : option string :=
  match l with
  | Blank _ | LineComment _ | HashLine _ | BlockComment _ | Docstring _ _ => None
  | Quoted _ _ => Some "S"
  | Number _ => Some "N"
  | Name w => Some (word_token w)
  | Symbol c => Some (string_of_runes [c])
  end.

Definition structure_of (ls : list lexeme) : list string := omap token_of ls.

Definition not_newline (c : Z) : bool := negb (c =? newline_rune).

Definition item_fits (q : Z) (i : bool * Z) : bool :=
  fst i || (negb (snd i =? q) && negb (snd i =? newline_rune) && negb (snd i =? backslash)).

(** The lexeme is read back when [rest] follows it. *)
Definition fits (language : string) (l : lexeme) (rest : list Z) : bool :=
  match l with
  | Blank c => is_space c
  | LineComment b | HashLine b => forallb not_newline b && ends_before not_newline rest
  | BlockComment b => clear_of [star; slash] (b ++ [star])
  | Docstring q b => is_quote q && clear_of [q; q; q] (b ++ [q; q])
  | Quoted q b =>
      is_quote q && forallb (item_fits q) b &&
      match b with [] => negb (head_is q rest) | _ => true end
  | Number w =>
      match w with c :: _ => is_digit c | [] => false end && forallb number_rune w && ends_before number_rune rest
  | Name w =>
      match w with c :: _ => word_start c | [] => false end && forallb word_rune w && ends_before word_rune rest
  | Symbol c =>
      negb (is_space c || is_quote c || is_digit c || word_start c || (c =? hash_rune) ||
            line_comment language c rest || (c =? slash) && head_is star rest)
  end.

Fixpoint well_formed (language : string) (ls : list lexeme) : bool :=
  match ls with
  | [] => true
  | l :: t => fits language l (source_text t) && well_formed language t
  end.

Lemma drop_while_span p w rest :
  forallb p w = true → ends_before p rest = true → drop_while p (w ++ rest) = rest.
Proof.
  intros Hw Hr. induction w as [|c w IH]; cbn in *.
  - destruct rest as [|c r]; [done|]. cbn in *. apply negb_true_iff in Hr. by rewrite Hr.
  - apply andb_true_iff in Hw as [-> Hw]. auto.
Qed.

Lemma take_while_span p w rest :
  forallb p w = true → ends_before p rest = true → take_while p (w ++ rest) = w.
Proof.
  intros Hw Hr. induction w as [|c w IH]; cbn in *.
  - destruct rest as [|c r]; [done|]. cbn in *. apply negb_true_iff in Hr. by rewrite Hr.
  - apply andb_true_iff in Hw as [-> Hw]. by rewrite IH.
Qed.

Lemma skip_block_cons a b t :
  skip_block (a :: b :: t) = if (a =? star) && (b =? slash) then t else skip_block (b :: t).
Proof. done. Qed.

Lemma skip_triple_cons q a b c t :
  skip_triple q (a :: b :: c :: t) =
  if (a =? q) && (b =? q) && (c =? q) then t else skip_triple q (b :: c :: t).
Proof. done. Qed.

Lemma starts_block x y t : starts [star; slash] (x :: y :: t) = (x =? star) && (y =? slash).
Proof. cbn [starts]. by rewrite andb_true_r, (Z.eqb_sym x), (Z.eqb_sym y). Qed.

Lemma starts_triple q x y z t :
  starts [q; q; q] (x :: y :: z :: t) = (x =? q) && (y =? q) && (z =? q).
Proof. cbn [starts]. by rewrite andb_true_r, andb_assoc, (Z.eqb_sym x), (Z.eqb_sym y), (Z.eqb_sym z). Qed.

Lemma skip_block_span b rest :
  clear_of [star; slash] (b ++ [star]) = true → skip_block (b ++ star :: slash :: rest) = rest.
Proof.
  induction b as [|x b IH]; [done|]. intros [H Hb]%andb_true_iff. specialize (IH Hb).
  apply negb_true_iff in H.
  destruct b as [|y b]; cbn [app] in *; rewrite starts_block in H; rewrite skip_block_cons, H; exact IH.
Qed.

Lemma skip_triple_span q b rest :
  clear_of [q; q; q] (b ++ [q; q]) = true → skip_triple q (b ++ q :: q :: q :: rest) = rest.
Proof.
  induction b as [|x b IH]; [intros _; cbn; by rewrite Z.eqb_refl|].
  intros [H Hb]%andb_true_iff. specialize (IH Hb). apply negb_true_iff in H.
  destruct b as [|y [|z b]]; cbn [app] in *; rewrite starts_triple in H; rewrite skip_triple_cons, H; exact IH.
Qed.

Lemma skip_string_span q b rest :
  is_quote q = true → forallb (item_fits q) b = true →
  skip_string q (flat_map quoted_item b ++ q :: rest) = rest.
Proof.
  intros Hq. assert (Hb : (backslash =? q) = false).
  { destruct (Z.eqb_spec backslash q) as [<-|]; [discriminate Hq|done]. }
  induction b as [|[e c] b IH]; [intros _; cbn; by rewrite Z.eqb_refl|].
  intros [Hi Hr]%andb_true_iff. specialize (IH Hr). cbn [flat_map].
  unfold item_fits, quoted_item in *. cbn [fst snd] in *. destruct e.
  - cbn [app skip_string]. by rewrite Hb.
  - cbn in Hi. cbn [app skip_string]. bool_to_prop.
    repeat match goal with H : (_ =? _) = false |- _ => rewrite H; clear H end. done.
Qed.

(** A letter or digit is none of the characters the loop looks for. *)
Lemma rune_apart (p : Z → bool) c k :
  p c = true → p k = false → (c =? k) = false.
Proof. intros Hc Hk. destruct (Z.eqb_spec c k) as [->|]; congruence. Qed.

Lemma word_start_ascii k : 0 ≤ k < 128 →
  word_start k = ascii_letter k || (k =? ru "_"%char) || (k =? ru "$"%char).
Proof. intros Hk. unfold word_start. by rewrite letter_ascii. Qed.

Lemma word_start_not_space c : word_start c = true → is_space c = false.
Proof.
  unfold word_start. intros [[H|H]%orb_true_iff|H]%orb_true_iff; [by apply letter_not_space|..];
    apply Z.eqb_eq in H; by subst c.
Qed.

Lemma word_start_not_digit c : word_start c = true → is_digit c = false.
Proof.
  unfold word_start. intros [[H|H]%orb_true_iff|H]%orb_true_iff; [by apply letter_not_digit|..];
    apply Z.eqb_eq in H; subst c; by rewrite digit_ascii.
Qed.

(** The loop's branches, one at a time. *)
Lemma next_token_quote language q r :
  is_quote q = true →
  next_token language q r =
  match r with
  | a :: b :: t =>
      if (a =? q) && (b =? q) then (None, skip_triple q t) else (Some "S", skip_string q r)
  | _ => (Some "S", skip_string q r)
  end.
Proof.
  unfold is_quote. intros [[H|H]%orb_true_iff|H]%orb_true_iff; apply Z.eqb_eq in H; subst q;
    unfold next_token, line_comment; by rewrite ?andb_false_r.
Qed.

Lemma next_token_digit language c r :
  is_digit c = true → next_token language c r = (Some "N", drop_while number_rune (c :: r)).
Proof.
  intros Hc. unfold next_token, line_comment, is_quote. rewrite digit_not_space by done.
  rewrite !(rune_apart is_digit c _ Hc) by (rewrite digit_ascii; [done|by vm_compute]).
  cbn [andb orb]. by rewrite Hc.
Qed.

Lemma next_token_word language c r :
  word_start c = true →
  next_token language c r =
  (Some (word_token (take_while word_rune (c :: r))), drop_while word_rune (c :: r)).
Proof.
  intros Hc. unfold next_token, line_comment, is_quote. rewrite word_start_not_space by done.
  rewrite !(rune_apart word_start c _ Hc) by (rewrite word_start_ascii; [done|by vm_compute]).
  cbn [andb orb]. by rewrite (word_start_not_digit c Hc), Hc.
Qed.

Lemma quoted_head q b rest :
  is_quote q = true → forallb (item_fits q) b = true → b ≠ [] →
  ∃ a t, flat_map quoted_item b ++ q :: rest = a :: t ∧ (a =? q) = false.
Proof.
  intros Hq. assert (Hb : (backslash =? q) = false).
  { destruct (Z.eqb_spec backslash q) as [<-|]; [discriminate Hq|done]. }
  destruct b as [|[[] c] b]; [done|..]; intros [Hi _]%andb_true_iff _; cbn; eexists _, _; (split; [done|]); [done|].
  unfold item_fits in Hi. cbn in Hi. by bool_to_prop.
Qed.

Lemma next_token_lexeme language l rest :
  fits language l rest = true →
  ∃ c r, lexeme_text l ++ rest = c :: r ∧ next_token language c r = (token_of l, rest).
Proof.
  destruct l as [c|b|b|b|q b|q b|w|w|c]; cbn [fits lexeme_text app].
  - intros H. exists c, rest. split; [done|]. unfold next_token. by rewrite H.
  - intros [Hb Hr]%andb_true_iff. eexists _, _. split; [done|]. unfold next_token, line_comment. cbn.
    f_equal. by apply drop_while_span.
  - intros [Hb Hr]%andb_true_iff. eexists _, _. split; [done|]. unfold next_token, line_comment.
    assert (E : skip_line (hash_rune :: b ++ rest) = rest)
      by (unfold skip_line; cbn [drop_while]; by apply drop_while_span).
    destruct (hashComments language); cbn [negb andb orb]; [|]; by rewrite E.
  - intros H. eexists _, _. split; [done|]. unfold next_token, line_comment. cbn. f_equal.
    rewrite <- app_assoc. by apply skip_block_span.
  - intros [Hq Hb]%andb_true_iff. eexists _, _. split; [done|].
    rewrite next_token_quote by done. cbn [app]. rewrite !Z.eqb_refl. cbn [andb]. f_equal. rewrite <- app_assoc. by apply skip_triple_span.
  - intros [[Hq Hb]%andb_true_iff Hr]%andb_true_iff. eexists _, _. split; [done|].
    rewrite next_token_quote by done. rewrite <- app_assoc. cbn [app].
    pose proof (skip_string_span q b rest Hq Hb) as E.
    assert (Hhead : b ≠ [] → ∃ a t, flat_map quoted_item b ++ q :: rest = a :: t ∧ (a =? q) = false) by (by apply quoted_head).
    destruct b as [|i b].
    + cbn [flat_map app] in *. destruct rest as [|a t]; [by rewrite E|]. apply negb_true_iff in Hr. cbn in Hr.
      by rewrite Hr, andb_false_r, E.
    + destruct Hhead as (a & t & Et & Ha); [done|]. rewrite Et in *. destruct t; by rewrite ?Ha, E.
  - destruct w as [|c w]; [done|]. intros [[Hc Hw]%andb_true_iff Hr]%andb_true_iff. exists c, (w ++ rest).
    split; [done|]. rewrite next_token_digit by done. f_equal. change (c :: w ++ rest) with ((c :: w) ++ rest).
    by apply drop_while_span.
  - destruct w as [|c w]; [done|]. intros [[Hc Hw]%andb_true_iff Hr]%andb_true_iff. exists c, (w ++ rest).
    split; [done|]. rewrite next_token_word by done. change (c :: w ++ rest) with ((c :: w) ++ rest).
    by rewrite take_while_span, drop_while_span.
  - intros H. exists c, rest. split; [done|]. unfold next_token. bool_to_prop.
    repeat match goal with H : _ || _ = false |- _ => apply orb_false_iff in H; destruct H end.
    repeat match goal with H : _ = false |- _ => rewrite H; clear H end. done.
Qed.

(** ** The loop *)

Lemma skip_block_length rs : (length (skip_block rs) ≤ length rs)%nat.
Proof.
  induction rs as [|a [|b t] IH]; [done|cbn; lia|]. rewrite skip_block_cons.
  destruct ((a =? star) && (b =? slash)); cbn [length] in *; lia.
Qed.

Lemma skip_triple_length q rs : (length (skip_triple q rs) ≤ length rs)%nat.
Proof.
  induction rs as [|a [|b [|c t]] IH]; [done|cbn; lia..|]. rewrite skip_triple_cons.
  destruct ((a =? q) && (b =? q) && (c =? q)); cbn [length] in *; lia.
Qed.

Lemma skip_string_length q rs : (length (skip_string q rs) ≤ length rs)%nat.
Proof.
  remember (length rs) as n eqn:E. revert rs E.
  induction n as [n IH] using lt_wf_ind. intros [|a t] ->; [done|]. cbn [skip_string length] in *.
  destruct ((a =? q) || (a =? newline_rune)); [lia|].
  destruct (a =? backslash); [|specialize (IH (length t) ltac:(lia) t eq_refl); lia].
  destruct t as [|b t]; cbn [length] in *; [lia|]. specialize (IH (length t) ltac:(lia) t eq_refl). lia.
Qed.

Lemma drop_while_first {A} (p : A → bool) c r : p c = true → (length (drop_while p (c :: r)) ≤ length r)%nat.
Proof. intros Hc. cbn. rewrite Hc. apply drop_while_length. Qed.

Hint Resolve skip_block_length skip_triple_length skip_string_length drop_while_length : core.

Lemma line_comment_newline language c r :
  line_comment language c r = true → negb (c =? newline_rune) = true.
Proof.
  unfold line_comment. intros H. destruct (Z.eqb_spec c newline_rune) as [->|]; [discriminate H|done].
Qed.

Lemma next_token_shrinks language c r : (length (snd (next_token language c r)) ≤ length r)%nat.
Proof.
  unfold next_token, skip_line. destruct (is_space c); [done|].
  destruct (line_comment language c r) eqn:Hl; [by eapply drop_while_first, line_comment_newline|].
  destruct (Z.eqb_spec c hash_rune) as [->|_].
  { unfold line_comment in Hl. rewrite Z.eqb_refl in Hl. destruct (hashComments language); [|by apply drop_while_first].
    cbn [andb] in Hl. by rewrite orb_true_r in Hl. }
  cbn [andb]. destruct ((c =? slash) && head_is star r); cbn [snd].
  { etrans; [apply skip_block_length|]. destruct r; cbn; lia. }
  destruct (is_quote c).
  { destruct r as [|a [|b t]]; cbn [snd]; auto. destruct ((a =? c) && (b =? c)); cbn [snd]; auto.
    pose proof (skip_triple_length c t). cbn [length]. lia. }
  destruct (is_digit c) eqn:Hd; [apply drop_while_first; unfold number_rune; by rewrite Hd|].
  destruct (word_start c) eqn:Hw; [apply drop_while_first|done].
  unfold word_start, word_rune in *. by rewrite Hd, orb_false_r.
Qed.

Lemma tokens_from_fuel language n rs :
  (length rs ≤ n)%nat → tokens_from n language rs = rune_tokens language rs.
Proof.
  unfold rune_tokens. remember (length rs) as m eqn:E. revert n rs E.
  induction m as [m IH] using lt_wf_ind. intros n [|c r] ->; [by destruct n|]. intros Hn.
  destruct n as [|n]; [cbn in Hn; lia|]. cbn [tokens_from length].
  pose proof (next_token_shrinks language c r) as Hs. destruct (next_token language c r) as [t rest].
  cbn [snd length] in *. f_equal.
  rewrite (IH (length rest) ltac:(lia) n rest eq_refl ltac:(lia)).
  by rewrite (IH (length rest) ltac:(lia) (length r) rest eq_refl ltac:(lia)).
Qed.

(** C40.  The tokenizer's loop ends on every text: each round moves past at least
    one rune, and what it returns is that round's token in front of the
    tokens of the rest, whatever the text. *)
Theorem simTokens_terminates language c r :
  (length (snd (next_token language c r)) < length (c :: r))%nat ∧
  rune_tokens language (c :: r) =
  push (fst (next_token language c r)) (rune_tokens language (snd (next_token language c r))).
Proof.
  pose proof (next_token_shrinks language c r) as Hs. cbn [length]. split; [lia|].
  unfold rune_tokens at 1. cbn [tokens_from length]. destruct (next_token language c r) as [t rest].
  cbn [fst snd] in *. by rewrite tokens_from_fuel.
Qed.

(** What [simTokens] keeps of a source is its structure. *)
Lemma source_tokens language ls :
  well_formed language ls = true → rune_tokens language (source_text ls) = structure_of ls.
Proof.
  induction ls as [|l ls IH]; [done|]. intros [Hf Hw]%andb_true_iff.
  destruct (next_token_lexeme _ _ _ Hf) as (c & r & E & Ht).
  change (source_text (l :: ls)) with (lexeme_text l ++ source_text ls). rewrite E. pose proof (next_token_shrinks language c r) as Hs.
  unfold rune_tokens. cbn [tokens_from length]. rewrite Ht in *. cbn [snd] in Hs.
  rewrite tokens_from_fuel, IH by done. cbn. by destruct (token_of l).
Qed.

End Structure.

(** ** Scores *)

Lemma size_inter_le (a b : gset Z) : (size (a ∩ b) ≤ size a)%nat.
Proof. apply subseteq_size. set_solver. Qed.

Lemma inter_size_subseteq (a b : gset Z) : size (a ∩ b) = size a → a ⊆ b.
Proof.
  intros H. assert (E : a ∩ b ≡ a) by (apply set_subseteq_size_equiv; [set_solver|lia]). set_solver.
Qed.

(** The share of the smaller set found in the larger, in whole percent. *)
Lemma simScore_share a b :
  (simMinPrints ≤ size a)%nat → (simMinPrints ≤ size b)%nat →
  simScore a b =
  (Z.of_nat (size (a ∩ b)) * 100 / Z.of_nat (Nat.min (size a) (size b)), true).
Proof.
  intros Ha Hb. unfold simScore.
  rewrite (proj2 (Nat.ltb_ge _ _) Ha), (proj2 (Nat.ltb_ge _ _) Hb). cbn [orb].
  destruct (Nat.ltb_spec (size b) (size a)).
  - rewrite Nat.min_r by lia. by rewrite (comm_L (∩) b a).
  - by rewrite Nat.min_l by lia.
Qed.

Lemma simScore_short a b :
  (size a < simMinPrints)%nat ∨ (size b < simMinPrints)%nat → simScore a b = (0, false).
Proof.
  intros H. unfold simScore. destruct (Nat.ltb_spec (size a) simMinPrints); [done|].
  destruct (Nat.ltb_spec (size b) simMinPrints); [done|lia].
Qed.

(** The score of two fingerprints does not depend on their order, is a
    percentage, and is 100 exactly when one contains the other; no score is
    given when either is too short. *)
Theorem simScore_spec a b :
  simScore a b = simScore b a ∧ 0 ≤ fst (simScore a b) ≤ 100 ∧
  (snd (simScore a b) = true ↔ (simMinPrints ≤ size a ∧ simMinPrints ≤ size b)%nat) ∧
  (snd (simScore a b) = true → (fst (simScore a b) = 100 ↔ a ⊆ b ∨ b ⊆ a)).
Proof.
  destruct (decide (size a < simMinPrints ∨ size b < simMinPrints)%nat) as [Hs|Hs].
  { rewrite !simScore_short by tauto. cbn. repeat split; try lia; done. }
  rewrite !simScore_share by lia. cbn [fst snd].
  rewrite (comm_L (∩) b a), (Nat.min_comm (size b)). unfold simMinPrints in *.
  pose proof (size_inter_le a b) as H1. pose proof (size_inter_le b a) as H2. rewrite (comm_L (∩)) in H2.
  set (n := size (a ∩ b)) in *. set (m := Nat.min (size a) (size b)).
  assert (Hm : (8 ≤ m)%nat) by (unfold m; lia). assert (Hn : (n ≤ m)%nat) by (unfold m; lia).
  repeat split; intros; try (unfold m in *; lia).
  - apply Z.div_pos; lia.
  - apply Z.div_le_upper_bound; lia.
  - assert (E : n = m) by (apply Nat2Z.inj; pose proof (Z.mul_div_le (Z.of_nat n * 100) (Z.of_nat m)); nia).
    destruct (Nat.min_dec (size a) (size b)) as [Em|Em]; fold m in Em; rewrite Em in E.
    + left. by apply inter_size_subseteq.
    + right. apply inter_size_subseteq. by rewrite (comm_L (∩)).
  - assert (E : n = m).
    { unfold n, m. destruct H0 as [Hab|Hab]; pose proof (subseteq_size _ _ Hab).
      - rewrite Nat.min_l by done. f_equal. set_solver.
      - rewrite Nat.min_r by done. f_equal. set_solver. }
    rewrite E, Z.mul_comm. apply Z.div_mul. lia.
Qed.

Lemma without_spec f base : without f base = f ∖ base.
Proof.
  unfold without. destruct (Nat.eqb_spec (size base) 0) as [H|]; [|done].
  apply size_empty_inv in H. set_solver.
Qed.

(** A solution pasted whole into a longer file scores 100, the starter code's
    prints left out on both sides. *)
Theorem pasted_scores_full `{Unicode} code code' language a b base :
  simTokens code' language = a ++ simTokens code language ++ b →
  (simMinPrints ≤ size (without (simFingerprint code language) base))%nat →
  simScore (without (simFingerprint code language) base) (without (simFingerprint code' language) base) =
  (100, true).
Proof.
  intros E Hn. rewrite !without_spec in *. unfold simFingerprint in *. rewrite E.
  assert (Hs : token_print (simTokens code language) ∖ base ⊆
    token_print (a ++ simTokens code language ++ b) ∖ base).
  { assert (token_print (simTokens code language) ⊆ token_print (a ++ simTokens code language ++ b));
      [|set_solver]. apply token_print_infix. unfold simMinPrints, simW in *.
    assert (size (token_print (simTokens code language) ∖ base) ≤ size (token_print (simTokens code language)))%nat
      by (apply subseteq_size; set_solver). lia. }
  pose proof (subseteq_size _ _ Hs). rewrite simScore_share by lia. f_equal.
  rewrite Nat.min_l by lia. rewrite subseteq_intersection_1_L by done.
  rewrite Z.mul_comm. apply Z.div_mul. unfold simMinPrints in *. lia.
Qed.
