(* ===== verification/Gateway.v ===== *)
(** What the API gateway's handlers share: input helpers and the rate limiter
    (services/api-gateway/graph/resolvers/inquiry.go), stored passwords
    (pkg/auth/password.go), tokens and the middleware that checks them
    (pkg/auth/jwt.go, services/api-gateway/middleware/auth.go).

    bcrypt, the JWT library and constant-time comparison are the interface
    [Vault]; times are nanoseconds. *)

From S2P Require Import Prelude GoStrings.
From Stdlib Require Import Ascii.

#[local] Open Scope Z_scope.

(** ** Input *)

(** [s[:n]] *)
Definition first_bytes (n : Z) (s : string) : string := of_bytes (firstn (Z.to_nat n) (to_bytes s)).
#[global] Arguments first_bytes : simpl never.

Definition byte_length (s : string) : Z := Z.of_nat (length (to_bytes s)).

Definition clip (s : string) (max : Z) : string :=
  let s := trim_space s in if max <? byte_length s then first_bytes max s else s.

(** What stands before and behind the first [c]. *)
Fixpoint cut_at (c : ascii) (s : bytes) : option (bytes * bytes) :=
  match s with
  | [] => None
  | a :: t => if Ascii.eqb a c then Some ([], t) else prod_map (cons a) id <$> cut_at c t
  end.

Definition has_byte (p : ascii → bool) (s : bytes) : bool := existsb p s.

Definition looksLikeEmail (s : string) : bool :=
  match cut_at "@" (to_bytes s) with
  | None => false
  | Some (name, host) =>
      match name, host with
      | [], _ | _, [] => false
      | _, _ => has_byte (Ascii.eqb ".") host &&
                negb (has_byte (λ a, (code a =? 32)%nat || (code a =? 9)%nat || (code a =? 10)%nat) (to_bytes s))
      end
  end.

(** ** The rate limiter *)

Record rateLimiter := { rl_limit : Z; rl_window : Z }.

(** [hits]; a limiter that is [None] allows everything. *)
Abbreviation Hits := (gmap string (list Z)).

Definition newRateLimiter (limit window : Z) : option rateLimiter :=
  if limit <=? 0 then None else Some {| rl_limit := limit; rl_window := window |}.

Definition kept_hits (l : rateLimiter) (now : Z) (ts : list Z) : list Z := filter (λ t, now - rl_window l < t) ts.

Definition allow (limiter : option rateLimiter) (now : Z) (key : string) (hits : Hits) : bool * Hits :=
  match limiter with
  | None => (true, hits)
  | Some l =>
      let kept := kept_hits l now (default [] (hits !! key)) in
      let hits := match kept with [] => delete key hits | _ => <[key := kept]> hits end in
      if rl_limit l <=? Z.of_nat (length kept) then (false, hits)
      else (true, <[key := kept ++ [now]]> hits)
  end.

(** Calls one after another: when, for which key; whether each was allowed. *)
Fixpoint allow_all (limiter : option rateLimiter) (calls : list (Z * string)) (hits : Hits) : list bool :=
  match calls with
  | [] => []
  | (now, key) :: t => let '(ok, hits) := allow limiter now key hits in ok :: allow_all limiter t hits
  end.

(** The times at which calls for [key] were allowed. *)
Definition allowed_times (key : string) (calls : list (Z * string)) (oks : list bool) : list Z :=
  omap (λ '(call, ok), if (ok : bool) && String.eqb (snd call) key then Some (fst call) else None) (zip calls oks).

Definition in_window (lo hi : Z) (ts : list Z) : list Z := filter (λ t, lo < t ≤ hi) ts.

(** ** Passwords and tokens *)

Record Claims := { cl_UserID : string; cl_Email : string; cl_Role : string }.
Inductive SigningMethod := HMAC | RSA | OtherMethod.

Class Vault := {
  bcrypt_generate : string → string → option string;   (* salt, password *)
  bcrypt_compare : string → string → bool;
  constant_time_compare : string → string → bool;
  (* [jwt.ParseWithClaims]: the method named in the header, and the claims
     when the token verifies under the key given and has not expired *)
  jwt_method : string → SigningMethod;
  jwt_verify : string → string → option Claims;        (* key, token *)
}.

Class VaultLaws (V : Vault) : Prop := {
  generate_compare salt p h : bcrypt_generate salt p = Some h → bcrypt_compare h p = true;
  generate_prefix salt p h : bcrypt_generate salt p = Some h → has_prefix "$2a$10$" h = true;
  generate_short salt p : byte_length p ≤ 72 → is_Some (bcrypt_generate salt p);
  generate_long salt p : 72 < byte_length p → bcrypt_generate salt p = None;
  constant_time_eq a b : constant_time_compare a b = String.eqb a b;
}.

Section Passwords.
Context {V : Vault}.

Definition HashPassword (salt plain : string) : option string := bcrypt_generate salt plain.

Definition unusablePrefix : string := "$2a$unusable$".

(** The suffix is 18 random bytes in base64. *)
Definition UnusablePassword (suffix : string) : string := unusablePrefix +:+ suffix.

Definition IsUnusable (stored : string) : bool := has_prefix unusablePrefix stored.

Definition IsHashed (stored : string) : bool :=
  has_prefix "$2a$" stored || has_prefix "$2b$" stored || has_prefix "$2y$" stored.

(** Whether the password fits, and whether it was stored as plain text. *)
Definition CheckPassword (stored plain : string) : bool * bool :=
  if IsUnusable stored then (false, false)
  else if IsHashed stored then (bcrypt_compare stored plain, false)
  else (constant_time_compare stored plain, true).

Record Validator := { va_useHMAC : bool; va_secret : string; va_publicKey : string }.

Definition keyFunc (v : Validator) (token : string) : option string :=
  if va_useHMAC v then match jwt_method token with HMAC => Some (va_secret v) | _ => None end
  else match jwt_method token with RSA => Some (va_publicKey v) | _ => None end.

Definition Validate (v : Validator) (tokenString : string) : option Claims :=
  let token := trim_prefix "Bearer " tokenString in
  key ← keyFunc v token; jwt_verify key token.

(** ** The middleware *)

Record HttpRequest := {
  rq_Path : string;
  rq_Headers : gmap string string;
  rq_TokenParam : string;               (* the query parameter [token] *)
  rq_User : option (string * string);   (* user id and role in the context *)
}.

Inductive AuthOutcome := Forward (r : HttpRequest) | Unauthorized (msg : string).

Definition header (r : HttpRequest) (k : string) : string := default "" (rq_Headers r !! k).

(** The claims put into the context and the headers. *)
Definition with_claims (r : HttpRequest) (c : Claims) : HttpRequest :=
  {| rq_Path := rq_Path r;
     rq_Headers := <["X-User-Role" := cl_Role c]> (<["X-User-ID" := cl_UserID c]> (rq_Headers r));
     rq_TokenParam := rq_TokenParam r; rq_User := Some (cl_UserID c, cl_Role c) |}.

Definition Auth (v : Validator) (publicPaths : list string) (r : HttpRequest) : AuthOutcome :=
  if existsb (String.eqb (rq_Path r)) publicPaths then Forward r
  else
    let token := header r "Authorization" in
    let token := if String.eqb token "" then rq_TokenParam r else token in
    if String.eqb (rq_Path r) "/api/graphql" then
      if negb (String.eqb token "") then
        match Validate v (trim_prefix "Bearer " token) with
        | Some c => Forward (with_claims r c)
        | None => Forward r
        end
      else Forward r
    else if String.eqb token "" then Unauthorized "missing authorization token"
    else
      match Validate v (trim_prefix "Bearer " token) with
      | None => Unauthorized "invalid token"
      | Some c => Forward (with_claims r c)
      end.

Definition UserIDFromContext (r : HttpRequest) : string := default "" (fst <$> rq_User r).
Definition RoleFromContext (r : HttpRequest) : string := default "" (snd <$> rq_User r).
End Passwords.

(** ** The limiter holds *)

Section Limiter.
Context (l : rateLimiter).

Definition last_hits (now : Z) (key : string) (hits : Hits) : list Z :=
  kept_hits l now (default [] (hits !! key)).

Lemma allow_other now key key' hits ok hits' :
  allow (Some l) now key hits = (ok, hits') → key' ≠ key → hits' !! key' = hits !! key'.
Proof.
  unfold allow. set (kept := kept_hits _ _ _). intros H Hne%not_eq_sym.
  assert (E : (match kept with [] => delete key hits | _ => <[key := kept]> hits end) !! key' = hits !! key').
  { destruct kept; [by apply lookup_delete_ne|by apply lookup_insert_ne]. }
  destruct (rl_limit l <=? _); simplify_eq; [done|]. rewrite lookup_insert_ne by done. done.
Qed.

Lemma allow_spec now key hits ok hits' :
  allow (Some l) now key hits = (ok, hits') →
  let kept := last_hits now key hits in
  ok = negb (rl_limit l <=? Z.of_nat (length kept)) ∧
  default [] (hits' !! key) = if ok then kept ++ [now] else kept.
Proof.
  unfold allow, last_hits. set (kept := kept_hits _ _ _). cbv zeta.
  destruct (rl_limit l <=? _); intros [= <- <-]; (split; [done|]).
  - destruct kept; by rewrite ?lookup_delete_eq, ?lookup_insert_eq.
  - by rewrite lookup_insert_eq.
Qed.

Definition since (lo : Z) (ts : list Z) : list Z := filter (λ t, lo < t) ts.

Lemma since_since lo lo' ts : lo ≤ lo' → since lo' (since lo ts) = since lo' ts.
Proof.
  intros H. unfold since. rewrite list_filter_filter. apply list_filter_iff. intros t. lia.
Qed.

(** [ts], what the limiter remembers, agrees with [A], the times allowed so
    far, on the last window. *)
Definition remembers (now : Z) (A ts : list Z) : Prop :=
  Forall (λ t, t ≤ now) A ∧ ∀ lo, now - rl_window l ≤ lo → since lo ts = since lo A.

(** No window ever held more than the limit. *)
Definition within (A : list Z) : Prop :=
  ∀ lo, Z.of_nat (length (in_window lo (lo + rl_window l) A)) ≤ rl_limit l.

Lemma in_window_since lo hi ts : (length (in_window lo hi ts) ≤ length (since lo ts))%nat.
Proof.
  unfold in_window, since. induction ts as [|t ts IH]; [done|].
  rewrite !filter_cons. repeat case_decide; cbn; lia.
Qed.

Lemma remembers_later now now' A ts : now ≤ now' → remembers now A ts → remembers now' A ts.
Proof.
  intros H [HA Hs]. split; [eapply Forall_impl; [exact HA|]; cbn; lia|]. intros lo Hlo. apply Hs. lia.
Qed.

Lemma remembers_kept now A ts : remembers now A ts → remembers now A (since (now - rl_window l) ts).
Proof. intros [HA Hs]. split; [done|]. intros lo Hlo. rewrite since_since by lia. by apply Hs. Qed.

Lemma remembers_push now A ts : remembers now A ts → remembers now (A ++ [now]) (ts ++ [now]).
Proof.
  intros [HA Hs]. split; [apply Forall_app; split; [done|by repeat constructor]|].
  intros lo Hlo. unfold since in *. rewrite !filter_app. by rewrite Hs.
Qed.

(** Allowing a call below the limit keeps every window within it. *)
Lemma within_push now A ts :
  remembers now A ts → within A →
  Z.of_nat (length (since (now - rl_window l) ts)) < rl_limit l → within (A ++ [now]).
Proof.
  intros [HA Hs] Hw Hlt lo. rewrite Hs in Hlt by lia. unfold in_window. rewrite filter_app, length_app.
  rewrite filter_cons. case_decide as Hd; [|cbn; specialize (Hw lo); unfold in_window in Hw; lia]. cbn [length filter].
  assert (Hle : (length (in_window lo (lo + rl_window l) A) ≤ length (since (now - rl_window l) A))%nat).
  { etrans; [apply in_window_since|]. rewrite <- (since_since (now - rl_window l) lo A) by lia.
    unfold since at 1. apply length_filter. }
  unfold in_window in Hle. cbn. lia.
Qed.

Lemma allow_all_within key calls : ∀ now A hits,
  StronglySorted Z.le (now :: map fst calls) →
  remembers now A (default [] (hits !! key)) → within A →
  within (A ++ allowed_times key calls (allow_all (Some l) calls hits)).
Proof.
  induction calls as [|[t k] calls IH]; intros now A hits Hs Hr Hw; [by rewrite app_nil_r|].
  apply StronglySorted_inv in Hs as [Hs Hall]. apply Forall_cons in Hall as [Hle _]. cbn in Hle.
  apply (remembers_later now t) in Hr; [|done]. cbn [allow_all].
  destruct (allow (Some l) t k hits) as [ok hits'] eqn:E. unfold allowed_times. cbn [zip zip_with omap list_omap fst snd].
  destruct (String.eqb_spec k key) as [->|Hne].
  - destruct (allow_spec _ _ _ _ _ E) as [Hok Hhits]. unfold last_hits in *.
    change (kept_hits l t) with (since (t - rl_window l)) in *. destruct ok.
    + symmetry in Hok. apply negb_true_iff, Z.leb_gt in Hok. cbn [andb].
      rewrite cons_middle, app_assoc. apply (IH t); [done| |by eapply within_push].
      rewrite Hhits. by apply remembers_push, remembers_kept.
    + cbn [andb]. apply (IH t); [done| |done]. rewrite Hhits. by apply remembers_kept.
  - rewrite andb_false_r. apply (IH t); [done| |done].
    by rewrite (allow_other _ _ _ _ _ _ E (not_eq_sym Hne)).
Qed.
End Limiter.

(** However calls for many keys are mixed, as long as the clock does not run
    backwards, no window of the limiter's length holds more allowed calls for
    a key than its limit. *)
Theorem rate_limited limit window l calls key lo :
  newRateLimiter limit window = Some l → StronglySorted Z.le (map fst calls) →
  Z.of_nat (length (in_window lo (lo + window) (allowed_times key calls (allow_all (Some l) calls ∅)))) ≤ limit.
Proof.
  unfold newRateLimiter. destruct (Z.leb_spec limit 0); [done|]. intros [= <-] Hs.
  destruct calls as [|[t k] calls]; [cbn; lia|].
  pose proof (allow_all_within {| rl_limit := limit; rl_window := window |} key ((t, k) :: calls) t [] ∅) as H0.
  apply H0.
  - constructor; [done|]. cbn in *. apply StronglySorted_inv in Hs as [_ Hs]. constructor; [lia|done].
  - split; [constructor|]. intros lo' _. by rewrite lookup_empty.
  - intros lo'. cbn. lia.
Qed.

(** ** Passwords and the middleware *)

Section Checks.
Context {V : Vault} {VL : VaultLaws V}.

Lemma prefix_app p s : has_prefix p (p +:+ s) = true.
Proof.
  unfold has_prefix. induction p as [|c p IH]; [by destruct s|].
  change (String c p +:+ s) with (String c (p +:+ s)). cbn. by destruct (ascii_dec c c).
Qed.

Lemma prefix_split p s : has_prefix p s = true → ∃ r, s = p +:+ r.
Proof.
  unfold has_prefix. revert s. induction p as [|c p IH]; intros s; [by exists s|].
  destruct s as [|d s]; [done|]. cbn [String.prefix]. destruct (ascii_dec c d) as [->|]; [|done].
  intros H. destruct (IH s H) as [r ->]. by exists r.
Qed.

(** A bcrypt hash is never taken for the mark of an account without password. *)
Lemma hash_usable s : has_prefix "$2a$10$" s = true → IsUnusable s = false ∧ IsHashed s = true.
Proof. intros [r ->]%prefix_split. by destruct r. Qed.

(** The password an account was given is accepted; an account without one
    accepts nothing; a stored plain text is accepted only as itself, and
    never when the stored value looks like a hash. *)
Theorem CheckPassword_accepts salt plain stored suffix p :
  (∀ h, HashPassword salt plain = Some h → CheckPassword h plain = (true, false)) ∧
  CheckPassword (UnusablePassword suffix) p = (false, false) ∧
  (CheckPassword stored p = (true, true) → stored = p ∧ IsHashed stored = false).
Proof.
  split_and!.
  - intros h Hh. unfold CheckPassword.
    destruct (hash_usable h (generate_prefix _ _ _ Hh)) as [-> ->].
    by rewrite (generate_compare _ _ _ Hh).
  - unfold CheckPassword, IsUnusable, UnusablePassword. by rewrite prefix_app.
  - unfold CheckPassword. destruct (IsUnusable stored); [done|].
    destruct (IsHashed stored); [by destruct (bcrypt_compare _ _)|].
    rewrite constant_time_eq. destruct (String.eqb_spec stored p); [done|done].
Qed.

(** A request reaches a handler as it came only on a public path or on the
    GraphQL endpoint; otherwise it carries the claims of a token that verified
    under the validator's key, with the signing method the validator is for,
    and its user headers are those claims'. *)
Theorem Auth_guards v publicPaths r r' :
  Auth v publicPaths r = Forward r' →
  (r' = r ∧ (rq_Path r ∈ publicPaths ∨ rq_Path r = "/api/graphql")) ∨
  ∃ c key token, jwt_verify key token = Some c ∧
    (jwt_method token = HMAC ∧ va_useHMAC v = true ∧ key = va_secret v ∨
     jwt_method token = RSA ∧ va_useHMAC v = false ∧ key = va_publicKey v) ∧
    rq_User r' = Some (cl_UserID c, cl_Role c) ∧
    header r' "X-User-ID" = cl_UserID c ∧ header r' "X-User-Role" = cl_Role c.
Proof.
  assert (Hv : ∀ t c, Validate v t = Some c → ∃ key token, jwt_verify key token = Some c ∧
    (jwt_method token = HMAC ∧ va_useHMAC v = true ∧ key = va_secret v ∨
     jwt_method token = RSA ∧ va_useHMAC v = false ∧ key = va_publicKey v)).
  { intros t c. unfold Validate, keyFunc. set (token := trim_prefix _ _).
    destruct (va_useHMAC v), (jwt_method token) eqn:E; cbn; intros H; try done; eauto 10. }
  assert (Hh : ∀ c, header (with_claims r c) "X-User-ID" = cl_UserID c ∧
    header (with_claims r c) "X-User-Role" = cl_Role c).
  { intros c. unfold header, with_claims. cbn.
    by rewrite lookup_insert_eq, lookup_insert_ne, lookup_insert_eq by done. }
  unfold Auth. destruct (existsb _ publicPaths) eqn:Hp.
  { intros [= <-]. left. split; [done|]. left. apply existsb_exists in Hp as (p & Hp & E).
    apply String.eqb_eq in E as ->. by apply list_elem_of_In. }
  cbv zeta. set (token := if String.eqb (header r _) _ then _ else _).
  destruct (String.eqb_spec (rq_Path r) "/api/graphql") as [Hg|_].
  - destruct (negb (String.eqb token "")); [|intros [= <-]; auto].
    destruct (Validate _ _) as [c|] eqn:E; intros [= <-]; [|auto].
    right. destruct (Hv _ _ E) as (key & t & H1 & H2). destruct (Hh c). exists c, key, t. eauto 10.
  - destruct (String.eqb token ""); [done|].
    destruct (Validate _ _) as [c|] eqn:E; intros [= <-].
    right. destruct (Hv _ _ E) as (key & t & H1 & H2). destruct (Hh c). exists c, key, t. eauto 10.
Qed.
End Checks.
