(* ===== verification/Service.v ===== *)
(** The effects of the smaller services: a state the service shares with its
    concurrent requests, an error message, and an environment that decides
    which calls fail, what the clock says and what other requests do between
    two calls.

    An [effect] is one call that leaves the process: an SQL statement, a
    message published, a remote procedure.  It may fail without having
    happened ([FailBefore]) or after it has ([FailAfter]); the caller cannot
    tell the two apart. *)

From S2P Require Import Prelude.

#[local] Open Scope Z_scope.

Inductive Failure := Works | FailsBefore | FailsAfter.

(** PostgreSQL's [lower], which depends on the server's locale. *)
Class PgLower := { pg_lower : string → string }.

Declare Scope service_scope.
Delimit Scope service_scope with service.

Section Service.
Context {S : Type}.

Record World := {
  failure : nat → Failure;
  time_at : nat → Z;
  new_id : nat → string;
  row_order : nat → list string → list string;
  row_order_perm : ∀ n l, row_order n l ≡ₚ l;
  others : nat → S → S;
}.

(** What a call sees of the environment: the time, a fresh id, and the order
    in which the server happens to give rows. *)
Record Stamp := {
  st_time : Z;
  st_fresh : string;
  st_rows : list string → list string;
  st_rows_perm : ∀ l, st_rows l ≡ₚ l;
}.

Definition stamp (w : World) (n : nat) : Stamp :=
  {| st_time := time_at w n; st_fresh := new_id w n; st_rows := row_order w n;
     st_rows_perm := row_order_perm w n |}.

(** A computation: the environment, how many effects have happened, the state. *)
Definition Svc (A : Type) : Type := World → nat → S → (A + string) * nat * S.

Definition return_ {A} (x : A) : Svc A := λ w n s, (inl x, n, s).
Definition error {A} (msg : string) : Svc A := λ w n s, (inr msg, n, s).
Definition then_ {A B} (m : Svc A) (k : A → Svc B) : Svc B :=
  λ w n s, match m w n s with
           | (inl x, n', s') => k x w n' s'
           | (inr msg, n', s') => (inr msg, n', s')
           end.

(** The error as a value. *)
Definition try {A} (m : Svc A) : Svc (A + string) :=
  λ w n s, let '(r, n', s') := m w n s in (inl r, n', s').

(** A call; [f] is what it does: [None] is its own failure. *)
Definition effect {A} (label : string) (f : Stamp → S → option (A * S)) : Svc A :=
  λ w n s,
    let s := others w n s in
    match failure w n with
    | FailsBefore => (inr label, (n + 1)%nat, s)
    | fl =>
        match f (stamp w n) s with
        | None => (inr label, (n + 1)%nat, s)
        | Some (x, s') =>
            (match fl with FailsAfter => inr label | _ => inl x end, (n + 1)%nat, s')
        end
    end.

(** The time, which takes a number so that later calls see a later one. *)
Definition clock_now : Svc Z := λ w n s, (inl (time_at w n), (n + 1)%nat, s).

(** No call fails by itself and no other request runs in between. *)
Definition calm (w : World) : Prop := (∀ n, failure w n = Works) ∧ ∀ n s, others w n s = s.

Lemma then_inv {A B} (m : Svc A) (k : A → Svc B) w n s y n' s' :
  then_ m k w n s = (inl y, n', s') →
  ∃ x n1 s1, m w n s = (inl x, n1, s1) ∧ k x w n1 s1 = (inl y, n', s').
Proof. unfold then_. destruct (m w n s) as [[[x|] n1] s1]; [eauto 10|done]. Qed.

Lemma effect_inv {A} label (f : Stamp → S → option (A * S)) w n s x n' s' :
  effect label f w n s = (inl x, n', s') →
  n' = (n + 1)%nat ∧ f (stamp w n) (others w n s) = Some (x, s').
Proof.
  unfold effect. destruct (failure w n), (f _ _) as [[y s1]|]; intros; by simplify_eq.
Qed.

(** A call reports an error in one of three ways. *)
Lemma effect_error {A} label (f : Stamp → S → option (A * S)) w n s msg n' s' :
  effect label f w n s = (inr msg, n', s') →
  msg = label ∧ n' = (n + 1)%nat ∧
  (s' = others w n s ∧ (failure w n = FailsBefore ∨ f (stamp w n) (others w n s) = None) ∨
   failure w n = FailsAfter ∧ ∃ x, f (stamp w n) (others w n s) = Some (x, s')).
Proof.
  unfold effect. destruct (failure w n), (f _ _) as [[y s1]|]; intros; simplify_eq; eauto 10.
Qed.

(** No other request runs between two calls; calls may still fail. *)
Definition alone (w : World) : Prop := ∀ n s, others w n s = s.

Lemma calm_alone w : calm w → alone w.
Proof. by intros [_ H]. Qed.

Lemma effect_alone {A} label (f : Stamp → S → option (A * S)) w n s :
  alone w →
  effect label f w n s =
    match failure w n with
    | FailsBefore => (inr label, (n + 1)%nat, s)
    | fl =>
        match f (stamp w n) s with
        | None => (inr label, (n + 1)%nat, s)
        | Some (x, s') =>
            (match fl with FailsAfter => inr label | _ => inl x end, (n + 1)%nat, s')
        end
    end.
Proof. intros Ho. unfold effect. by rewrite Ho. Qed.

Lemma effect_calm {A} label (f : Stamp → S → option (A * S)) w n s :
  calm w →
  effect label f w n s =
    match f (stamp w n) s with
    | None => (inr label, (n + 1)%nat, s)
    | Some (x, s') => (inl x, (n + 1)%nat, s')
    end.
Proof. intros [Hf Ho]. unfold effect. by rewrite Hf, Ho. Qed.

Lemma try_effect_alone {A} label (f : Stamp → S → option (A * S)) w n s r n' s' :
  alone w → try (effect label f) w n s = (inl r, n', s') →
  n' = (n + 1)%nat ∧
  (s' = s ∧ r = inr label ∨
   ∃ x, f (stamp w n) s = Some (x, s') ∧ (r = inl x ∨ r = inr label)).
Proof.
  intros Ho H. unfold try in H. rewrite effect_alone in H by done.
  destruct (failure w n), (f (stamp w n) s) as [[x s1]|] eqn:E; simplify_eq; eauto 10.
Qed.

(** ** Invariants

    [preserves I m]: whatever fails, and whatever other requests do that
    keep [I], the computation keeps it too. *)
Definition preserves {A} (I : S → Prop) (m : Svc A) : Prop :=
  ∀ w n s r n' s', (∀ n s, I s → I (others w n s)) → I s → m w n s = (r, n', s') → I s'.

Lemma preserves_return {A} I (x : A) : preserves I (return_ x).
Proof. intros w n s r n' s' _ Hs [= _ _ <-]. exact Hs. Qed.

Lemma preserves_error {A} I msg : preserves I (error (A := A) msg).
Proof. intros w n s r n' s' _ Hs [= _ _ <-]. exact Hs. Qed.

Lemma preserves_clock I : preserves I clock_now.
Proof. intros w n s r n' s' _ Hs [= _ _ <-]. exact Hs. Qed.

Lemma preserves_then {A B} I (m : Svc A) (k : A → Svc B) :
  preserves I m → (∀ x, preserves I (k x)) → preserves I (then_ m k).
Proof.
  intros Hm Hk w n s r n' s' Ho Hs. unfold then_.
  destruct (m w n s) as [[[x|msg] n1] s1] eqn:E; intros H.
  - eapply Hk; [exact Ho|by eapply Hm|exact H].
  - injection H as _ _ <-. by eapply Hm.
Qed.

Lemma preserves_try {A} I (m : Svc A) : preserves I m → preserves I (try m).
Proof.
  intros Hm w n s r n' s' Ho Hs. unfold try. destruct (m w n s) as [[x n1] s1] eqn:E.
  intros [= _ _ <-]. by eapply Hm.
Qed.

Lemma preserves_effect {A} I label (f : Stamp → S → option (A * S)) :
  (∀ st s x s', I s → f st s = Some (x, s') → I s') → preserves I (effect label f).
Proof.
  intros Hf w n s r n' s' Ho Hs. unfold effect. pose proof (Ho n s Hs) as H1.
  destruct (failure w n), (f (stamp w n) (others w n s)) as [[x s1]|] eqn:E; intros [= _ _ <-]; eauto.
Qed.
End Service.

Create HintDb service.
#[export] Hint Resolve preserves_return preserves_error preserves_clock preserves_try : service.

(** [preserves_steps] follows a computation down to the calls that write. *)
Ltac preserves_steps :=
  repeat first
    [ solve [eauto 2 with service]
    | apply preserves_then; [|intros ?]
    | apply preserves_try
    | match goal with
      | |- preserves _ (if ?b then _ else _) => destruct b eqn:?
      | |- preserves _ (match ?o with _ => _ end) => destruct o eqn:?
      end ].

#[global] Arguments World : clear implicits.
#[global] Arguments Svc : clear implicits.

Notation "x <- m ;; k" := (then_ m (λ x, k))
  (at level 100, m at next level, k at level 200, right associativity) : service_scope.
Notation "m ;; k" := (then_ m (λ _, k))
  (at level 100, k at level 200, right associativity) : service_scope.

(** [svc_bind H x n s Hm] splits the successful run [H]; [svc_call H] opens a
    call that succeeded. *)
Ltac svc_bind H x n s Hm :=
  apply then_inv in H;
  let H0 := fresh in destruct H as (x & n & s & Hm & H0); rename H0 into H.

Ltac svc_call H :=
  apply effect_inv in H;
  let H0 := fresh in destruct H as (-> & H0); rename H0 into H.
