(* ===== verification/Shop.v ===== *)
(** What the gateway's shop keeps: the referral programme, course orders,
    certification exams and registrations, accounts and invites
    (services/api-gateway/graph/resolvers/referral.go, referral_admin.go,
    enroll.go, certification.go), and what its handlers share.

    The tables are maps from row ids.  The handlers run in the monad of
    Service.v: each SQL statement or gateway call is one [call], whose Go error
    is the value [inr _]; a computation that ends in an error of the monad is
    one that panics.  Random bytes, SHA-256, net/mail and Cashfree's API are
    interfaces. *)

From S2P Require Import Prelude GoStrings Float64 Gateway Service.
From Stdlib Require Import Ascii.

#[local] Open Scope Z_scope.

(** ** Rows *)

Record referralProgram := {
  IsActive : bool;
  CourseRewardPaise : Z;
  ExamRewardPaise : Z;
  FriendDiscountPercent : float64;
  FriendDiscountCap : Z;
  MinOrderPaise : Z;
  MonthlyCapPaise : Z;
  AttributionDays : Z;
  TermsURL : string;
}.

Record ReferrerRow := {
  rf_code : string;
  rf_name : string;
  rf_email : string;
  rf_phone : string;
  rf_user_id : option string;
  rf_upi_id : string;
  rf_pan : string;
  rf_is_blocked : bool;
  rf_notes : string;
}.

Record ClickRow := { ck_code : string; ck_ip_hash : string; ck_user_agent : string; ck_path : string }.

Inductive ConversionStatus := Pending | Approved | PaidOut | Rejected | Reversed.

Record ConversionRow := {
  cv_referrer_id : string;
  cv_code : string;
  cv_kind : string;
  cv_order_id : string;
  cv_friend_name : string;
  cv_friend_email : string;
  cv_item_name : string;
  cv_order_paise : Z;
  cv_discount_paise : Z;
  cv_reward_paise : Z;
  cv_status : ConversionStatus;
  cv_flags : string;
  cv_reason : string;
  cv_approved_by : string;
  cv_approved_at : option Z;
  cv_paid_at : option Z;
  cv_payout_ref : string;
  cv_created_at : Z;
}.

(** A user with the phone of their profile. *)
Record Account := { ac_email : string; ac_name : string; ac_password : string; ac_role : string; ac_phone : string }.

Inductive OrderStatus := Created | Paid | Enrolled | Failed.

Record OrderRow := {
  od_course_id : string;
  od_course_name : string;
  od_plan : string;
  od_amount_paise : Z;
  od_name : string;
  od_email : string;
  od_phone : string;
  od_status : OrderStatus;
  od_user_id : option string;
  od_new_account : bool;
  od_error : string;
  od_referral_code : string;
  od_referral_discount : Z;
  od_referral_flags : string;
  od_gateway_order_id : option string;
  od_gateway_payment_id : option string;
}.

Record ExamRow := {
  ex_slug : string;
  ex_title : string;
  ex_course_id : string;
  ex_assessment_id : string;
  ex_price_paise : Z;
  ex_pass_percent : float64;
  ex_link_valid_days : Z;
  ex_resit_wait_days : Z;
  ex_summary : string;
  ex_is_active : bool;
  ex_opens_at : option Z;
  ex_closes_at : option Z;
}.

Inductive RegistrationStatus := RegCreated | RegPaid | RegStarted | RegSubmitted | RegPassed | RegFailed | RegExpired | RegRefunded.

Record RegistrationRow := {
  rg_exam_id : string;
  rg_name : string;
  rg_email : string;
  rg_phone : string;
  rg_user_id : option string;
  rg_invite_id : option string;
  rg_amount_paise : Z;
  rg_status : RegistrationStatus;
  rg_claim_token_hash : option string;
  rg_claim_expires_at : option Z;
  rg_claimed_at : option Z;
  rg_certificate_id : option string;
  rg_emailed_at : option Z;
  rg_error : string;
  rg_notes : string;
  rg_referral_code : string;
  rg_referral_discount : Z;
  rg_referral_flags : string;
  rg_gateway_order_id : option string;
  rg_gateway_payment_id : option string;
  rg_created_at : Z;
  rg_paid_at : option Z;
  rg_updated_at : Z;
}.

Record InviteRow := {
  iv_assessment_id : string;
  iv_email : string;
  iv_user_id : string;
  iv_token : string;
  iv_status : string;
  iv_expires_at : Z;
  iv_sent_at : Z;
}.

Record CertificateRow := {
  ct_credential_id : string;
  ct_user_id : string;
  ct_holder_name : string;
  ct_title : string;
  ct_source : string;
  ct_exam_id : option string;
  ct_registration_id : option string;
  ct_attempt_id : option string;
  ct_score_percent : float64;
  ct_issued_at : Z;
  ct_revoked_at : option Z;
  ct_revoke_reason : string;
}.

(** What the assessment service's tables say of a paper, and of an attempt. *)
Record PaperView := {
  pv_title : string;
  pv_purpose : string;
  pv_status : string;
  pv_duration_minutes : Z;
  pv_total_marks : Z;
}.

Record AttemptView := {
  av_assessment_id : string;
  av_user_id : string;
  av_score : option float64;
  av_max_score : option float64;
  av_status : string;
  av_started_at : Z;
}.

(** A JSON value of an answer. *)
Inductive Value := VStr (s : string) | VInt (z : Z) | VBool (b : bool) | VFloat (x : float64) | VObj (l : list (string * Value)) | VRows (l : list (list (string * Value))).

(** A row of admin_audit_log. *)
Record AuditRow := { au_actor_id : string; au_action : string; au_target_id : string; au_detail : list (string * Value) }.

Inductive Mail :=
  | LinkMail (email name code : string)
  | EarnedMail (email friend item : string) (rewardRupees : Z)
  | WelcomeMail (email name password : string)
  | ExamMail (email name title url : string) (expires : Z).

Record Shop := {
  sh_program : option referralProgram;
  sh_referrers : gmap string ReferrerRow;
  sh_clicks : list ClickRow;
  sh_conversions : gmap string ConversionRow;
  sh_users : gmap string Account;
  sh_courses : gset (string * string);
  sh_invites : gmap string InviteRow;
  sh_orders : gmap string OrderRow;
  sh_exams : gmap string ExamRow;
  sh_papers : gmap string PaperView;       (* assessments *)
  sh_registrations : gmap string RegistrationRow;
  sh_certificates : gmap string CertificateRow;
  sh_attempts : gmap string AttemptView;
  sh_audit : list AuditRow;
  sh_mails : list Mail;
  sh_hits : gmap string Hits;              (* each limiter's memory *)
}.

(** ** Updates of one table *)

Definition with_program (s : Shop) (x : option referralProgram) : Shop :=
  {| sh_program := x; sh_referrers := sh_referrers s; sh_clicks := sh_clicks s; sh_conversions := sh_conversions s;
     sh_users := sh_users s; sh_courses := sh_courses s; sh_invites := sh_invites s; sh_orders := sh_orders s;
     sh_exams := sh_exams s; sh_papers := sh_papers s; sh_registrations := sh_registrations s;
     sh_certificates := sh_certificates s; sh_attempts := sh_attempts s; sh_audit := sh_audit s;
     sh_mails := sh_mails s; sh_hits := sh_hits s |}.
Definition with_referrers (s : Shop) (x : gmap string ReferrerRow) : Shop :=
  {| sh_program := sh_program s; sh_referrers := x; sh_clicks := sh_clicks s; sh_conversions := sh_conversions s;
     sh_users := sh_users s; sh_courses := sh_courses s; sh_invites := sh_invites s; sh_orders := sh_orders s;
     sh_exams := sh_exams s; sh_papers := sh_papers s; sh_registrations := sh_registrations s;
     sh_certificates := sh_certificates s; sh_attempts := sh_attempts s; sh_audit := sh_audit s;
     sh_mails := sh_mails s; sh_hits := sh_hits s |}.
Definition with_clicks (s : Shop) (x : list ClickRow) : Shop :=
  {| sh_program := sh_program s; sh_referrers := sh_referrers s; sh_clicks := x; sh_conversions := sh_conversions s;
     sh_users := sh_users s; sh_courses := sh_courses s; sh_invites := sh_invites s; sh_orders := sh_orders s;
     sh_exams := sh_exams s; sh_papers := sh_papers s; sh_registrations := sh_registrations s;
     sh_certificates := sh_certificates s; sh_attempts := sh_attempts s; sh_audit := sh_audit s;
     sh_mails := sh_mails s; sh_hits := sh_hits s |}.
Definition with_conversions (s : Shop) (x : gmap string ConversionRow) : Shop :=
  {| sh_program := sh_program s; sh_referrers := sh_referrers s; sh_clicks := sh_clicks s; sh_conversions := x;
     sh_users := sh_users s; sh_courses := sh_courses s; sh_invites := sh_invites s; sh_orders := sh_orders s;
     sh_exams := sh_exams s; sh_papers := sh_papers s; sh_registrations := sh_registrations s;
     sh_certificates := sh_certificates s; sh_attempts := sh_attempts s; sh_audit := sh_audit s;
     sh_mails := sh_mails s; sh_hits := sh_hits s |}.
Definition with_users (s : Shop) (x : gmap string Account) : Shop :=
  {| sh_program := sh_program s; sh_referrers := sh_referrers s; sh_clicks := sh_clicks s;
     sh_conversions := sh_conversions s; sh_users := x; sh_courses := sh_courses s; sh_invites := sh_invites s;
     sh_orders := sh_orders s; sh_exams := sh_exams s; sh_papers := sh_papers s;
     sh_registrations := sh_registrations s; sh_certificates := sh_certificates s; sh_attempts := sh_attempts s;
     sh_audit := sh_audit s; sh_mails := sh_mails s; sh_hits := sh_hits s |}.
Definition with_courses (s : Shop) (x : gset (string * string)) : Shop :=
  {| sh_program := sh_program s; sh_referrers := sh_referrers s; sh_clicks := sh_clicks s;
     sh_conversions := sh_conversions s; sh_users := sh_users s; sh_courses := x; sh_invites := sh_invites s;
     sh_orders := sh_orders s; sh_exams := sh_exams s; sh_papers := sh_papers s;
     sh_registrations := sh_registrations s; sh_certificates := sh_certificates s; sh_attempts := sh_attempts s;
     sh_audit := sh_audit s; sh_mails := sh_mails s; sh_hits := sh_hits s |}.
Definition with_invites (s : Shop) (x : gmap string InviteRow) : Shop :=
  {| sh_program := sh_program s; sh_referrers := sh_referrers s; sh_clicks := sh_clicks s;
     sh_conversions := sh_conversions s; sh_users := sh_users s; sh_courses := sh_courses s; sh_invites := x;
     sh_orders := sh_orders s; sh_exams := sh_exams s; sh_papers := sh_papers s;
     sh_registrations := sh_registrations s; sh_certificates := sh_certificates s; sh_attempts := sh_attempts s;
     sh_audit := sh_audit s; sh_mails := sh_mails s; sh_hits := sh_hits s |}.
Definition with_orders (s : Shop) (x : gmap string OrderRow) : Shop :=
  {| sh_program := sh_program s; sh_referrers := sh_referrers s; sh_clicks := sh_clicks s;
     sh_conversions := sh_conversions s; sh_users := sh_users s; sh_courses := sh_courses s;
     sh_invites := sh_invites s; sh_orders := x; sh_exams := sh_exams s; sh_papers := sh_papers s;
     sh_registrations := sh_registrations s; sh_certificates := sh_certificates s; sh_attempts := sh_attempts s;
     sh_audit := sh_audit s; sh_mails := sh_mails s; sh_hits := sh_hits s |}.
Definition with_exams (s : Shop) (x : gmap string ExamRow) : Shop :=
  {| sh_program := sh_program s; sh_referrers := sh_referrers s; sh_clicks := sh_clicks s;
     sh_conversions := sh_conversions s; sh_users := sh_users s; sh_courses := sh_courses s;
     sh_invites := sh_invites s; sh_orders := sh_orders s; sh_exams := x; sh_papers := sh_papers s;
     sh_registrations := sh_registrations s; sh_certificates := sh_certificates s; sh_attempts := sh_attempts s;
     sh_audit := sh_audit s; sh_mails := sh_mails s; sh_hits := sh_hits s |}.
Definition with_registrations (s : Shop) (x : gmap string RegistrationRow) : Shop :=
  {| sh_program := sh_program s; sh_referrers := sh_referrers s; sh_clicks := sh_clicks s;
     sh_conversions := sh_conversions s; sh_users := sh_users s; sh_courses := sh_courses s;
     sh_invites := sh_invites s; sh_orders := sh_orders s; sh_exams := sh_exams s; sh_papers := sh_papers s;
     sh_registrations := x; sh_certificates := sh_certificates s; sh_attempts := sh_attempts s;
     sh_audit := sh_audit s; sh_mails := sh_mails s; sh_hits := sh_hits s |}.
Definition with_certificates (s : Shop) (x : gmap string CertificateRow) : Shop :=
  {| sh_program := sh_program s; sh_referrers := sh_referrers s; sh_clicks := sh_clicks s;
     sh_conversions := sh_conversions s; sh_users := sh_users s; sh_courses := sh_courses s;
     sh_invites := sh_invites s; sh_orders := sh_orders s; sh_exams := sh_exams s; sh_papers := sh_papers s;
     sh_registrations := sh_registrations s; sh_certificates := x; sh_attempts := sh_attempts s;
     sh_audit := sh_audit s; sh_mails := sh_mails s; sh_hits := sh_hits s |}.
Definition with_audit (s : Shop) (x : list AuditRow) : Shop :=
  {| sh_program := sh_program s; sh_referrers := sh_referrers s; sh_clicks := sh_clicks s;
     sh_conversions := sh_conversions s; sh_users := sh_users s; sh_courses := sh_courses s;
     sh_invites := sh_invites s; sh_orders := sh_orders s; sh_exams := sh_exams s; sh_papers := sh_papers s;
     sh_registrations := sh_registrations s; sh_certificates := sh_certificates s; sh_attempts := sh_attempts s;
     sh_audit := x; sh_mails := sh_mails s; sh_hits := sh_hits s |}.
Definition with_mails (s : Shop) (x : list Mail) : Shop :=
  {| sh_program := sh_program s; sh_referrers := sh_referrers s; sh_clicks := sh_clicks s;
     sh_conversions := sh_conversions s; sh_users := sh_users s; sh_courses := sh_courses s;
     sh_invites := sh_invites s; sh_orders := sh_orders s; sh_exams := sh_exams s; sh_papers := sh_papers s;
     sh_registrations := sh_registrations s; sh_certificates := sh_certificates s; sh_attempts := sh_attempts s;
     sh_audit := sh_audit s; sh_mails := x; sh_hits := sh_hits s |}.
Definition with_hits (s : Shop) (x : gmap string Hits) : Shop :=
  {| sh_program := sh_program s; sh_referrers := sh_referrers s; sh_clicks := sh_clicks s;
     sh_conversions := sh_conversions s; sh_users := sh_users s; sh_courses := sh_courses s;
     sh_invites := sh_invites s; sh_orders := sh_orders s; sh_exams := sh_exams s; sh_papers := sh_papers s;
     sh_registrations := sh_registrations s; sh_certificates := sh_certificates s; sh_attempts := sh_attempts s;
     sh_audit := sh_audit s; sh_mails := sh_mails s; sh_hits := x |}.

(** ** Calls *)

Section Calls.

(** A statement or a remote call, with its Go error as a value. *)
Definition call {A} (label : string) (f : Stamp → Shop → option (A * Shop)) : Svc Shop (A + string) :=
  try (effect label f).

(** A query. *)
Definition query {A} (label : string) (f : Stamp → Shop → option A) : Svc Shop (A + string) :=
  call label (λ st s, (λ x, (x, s)) <$> f st s).

(** A statement that always applies. *)
Definition update (label : string) (f : Stamp → Shop → Shop) : Svc Shop (unit + string) :=
  call label (λ st s, Some (tt, f st s)).

(** A step inside the process, under a lock: it does not fail. *)
Definition in_memory {A} (f : Z → Shop → A * Shop) : Svc Shop A :=
  λ w n s, let s := others w n s in
           let '(x, s') := f (time_at w n) s in (inl x, (n + 1)%nat, s').

(** Without a call: random numbers and the like. *)
Definition draw {A} (f : nat → A) : Svc Shop A := λ w n s, (inl (f n), (n + 1)%nat, s).

(** The run dies; the connection is cut without an answer. *)
Definition panic {A} : Svc Shop A := error "panic".

Definition limited (limiter : string) (l : option rateLimiter) (key : string) : Svc Shop bool :=
  in_memory (λ now s,
    let '(ok, hits) := allow l now key (default ∅ (sh_hits s !! limiter)) in
    (ok, with_hits s (<[limiter := hits]> (sh_hits s)))).

(** A mail handed to a goroutine of its own. *)
Definition post (enabled : bool) (m : Mail) : Svc Shop unit :=
  if enabled then in_memory (λ _ s, (tt, with_mails s (sh_mails s ++ [m]))) else λ w n s, (inl tt, n, s).

(** The first row, in the order the server gives them, that satisfies [p]. *)
Definition first_row {A} (st : Stamp) (t : gmap string A) (p : string → A → bool) : option (string * A) :=
  head (omap (λ id, r ← t !! id; if p id r then Some (id, r) else None) (st_rows st (map fst (map_to_list t)))).

Lemma first_row_found {A} st (t : gmap string A) p id r :
  first_row st t p = Some (id, r) → t !! id = Some r ∧ p id r = true.
Proof.
  unfold first_row. intros H.
  assert (Hin : (id, r) ∈ omap (λ id, r ← t !! id; if p id r then Some (id, r) else None)
    (st_rows st (map fst (map_to_list t)))).
  { destruct (omap _ _); [done|]. injection H as ->. apply list_elem_of_here. }
  apply list_elem_of_omap in Hin as (k & _ & Hk). destruct (t !! k) as [x|] eqn:E; [|done]. cbn in Hk.
  destruct (p k x) eqn:Ep; [|done]. by injection Hk as -> ->.
Qed.

Lemma first_row_none {A} st (t : gmap string A) p :
  first_row st t p = None ↔ ∀ id r, t !! id = Some r → p id r = false.
Proof.
  unfold first_row. split.
  - intros H id r Hr. destruct (p id r) eqn:Ep; [|done]. exfalso.
    assert (Hin : (id, r) ∈ omap (λ id, r ← t !! id; if p id r then Some (id, r) else None)
      (st_rows st (map fst (map_to_list t)))).
    { apply list_elem_of_omap. exists id. rewrite Hr. cbn. rewrite Ep. split; [|done].
      rewrite (st_rows_perm st), list_elem_of_fmap. exists (id, r). split; [done|by apply elem_of_map_to_list]. }
    destruct (omap _ _); [by apply elem_of_nil in Hin|done].
  - intros H. destruct (omap _ _) as [|[id r] l] eqn:E; [done|].
    assert (Hin : (id, r) ∈ omap (λ id, r ← t !! id; if p id r then Some (id, r) else None)
      (st_rows st (map fst (map_to_list t)))) by (rewrite E; apply list_elem_of_here).
    apply list_elem_of_omap in Hin as (k & _ & Hk). destruct (t !! k) as [x|] eqn:Ex; [|done]. cbn in Hk.
    by rewrite (H _ _ Ex) in Hk.
Qed.

(** When at most one row qualifies, that is the row. *)
Lemma first_row_only {A} st (t : gmap string A) p id r :
  t !! id = Some r → p id r = true → (∀ id' r', t !! id' = Some r' → p id' r' = true → id' = id) →
  first_row st t p = Some (id, r).
Proof.
  intros Hr Hp Honly. destruct (first_row st t p) as [[id' r']|] eqn:E.
  - apply first_row_found in E as [E1 E2]. pose proof (Honly _ _ E1 E2) as ->. by rewrite Hr in E1; injection E1 as ->.
  - apply first_row_none with (id := id) (r := r) in E; [congruence|done].
Qed.

(** Does any row satisfy [p]? *)
Definition some_row {A} (t : gmap string A) (p : A → bool) : bool := existsb (λ kv, p (snd kv)) (map_to_list t).

Lemma some_row_spec {A} (t : gmap string A) p : some_row t p = true ↔ ∃ id r, t !! id = Some r ∧ p r = true.
Proof.
  unfold some_row. rewrite existsb_exists. split.
  - intros ([id r] & Hin & Hp). exists id, r. split; [|done]. by apply elem_of_map_to_list, list_elem_of_In.
  - intros (id & r & Hr & Hp). exists (id, r). split; [|done]. by apply list_elem_of_In, elem_of_map_to_list.
Qed.

Lemma some_row_false {A} (t : gmap string A) p :
  some_row t p = false ↔ ∀ id r, t !! id = Some r → p r = false.
Proof.
  split.
  - intros H id r Hr. destruct (p r) eqn:Ep; [|done]. rewrite (proj2 (some_row_spec t p)) in H; [done|eauto].
  - intros H. destruct (some_row t p) eqn:E; [|done]. apply some_row_spec in E as (id & r & Hr & Hp).
    by rewrite (H _ _ Hr) in Hp.
Qed.
End Calls.

(** ** Interfaces *)

(** [crypto/rand]: [rand_bytes n k] is what reading [k] bytes gives at step [n]. *)
Class Random := {
  rand_bytes : nat → nat → option (list Z);
  rand_length n k b : rand_bytes n k = Some b → length b = k;
  rand_range n k b x : rand_bytes n k = Some b → x ∈ b → 0 ≤ x < 256;
}.

Class Digests := {
  sha256Hex : string → string;
  hash_ip : string → string;                (* hashIP *)
  hmac_base64 : string → string → string;   (* key, message *)
}.

(** [mail.ParseAddress]: the address it finds. *)
Class Addresses := { ParseAddress : string → option string }.

(** base64.RawURLEncoding *)
Definition url_char (n : Z) : ascii :=
  if n <? 26 then ascii_of_nat (65 + Z.to_nat n)
  else if n <? 52 then ascii_of_nat (97 + Z.to_nat (n - 26))
  else if n <? 62 then ascii_of_nat (48 + Z.to_nat (n - 52))
  else if n =? 62 then "-"%char else "_"%char.

Fixpoint base64_url (b : list Z) : bytes :=
  match b with
  | x :: y :: z :: r =>
      [url_char (x / 4); url_char (x mod 4 * 16 + y / 16); url_char (y mod 16 * 4 + z / 64); url_char (z mod 64)]
      ++ base64_url r
  | [x; y] => [url_char (x / 4); url_char (x mod 4 * 16 + y / 16); url_char (y mod 16 * 4)]
  | [x] => [url_char (x / 4); url_char (x mod 4 * 16)]
  | [] => []
  end.

Definition randomToken {R : Random} (n k : nat) : option bytes := base64_url <$> rand_bytes n k.

(** ** Answers *)


Record Reply := { rp_status : Z; rp_body : list (string * Value) }.

Definition write (code : Z) (v : list (string * Value)) : Reply := {| rp_status := code; rp_body := v |}.
Definition fail (code : Z) (msg : string) : Reply := write code [("error", VStr msg)].

(** ** Helpers *)

(** [strings.Fields(s)[0]]: the first run without white space, if any. *)
Fixpoint take_field (s : bytes) : bytes :=
  match s with
  | a :: r =>
      if ascii_space a then []
      else match r with
           | b :: r2 =>
               if space2 a b then []
               else match r2 with
                    | c :: _ => if space3 a b c then [] else a :: take_field r
                    | [] => a :: take_field r
                    end
           | [] => [a]
           end
  | [] => []
  end.

Definition first_field (s : string) : option string :=
  match take_field (trim_left_space (to_bytes s)) with
  | [] => None
  | f => Some (of_bytes f)
  end.

Definition is_digit_byte (a : ascii) : bool := ((48 <=? code a) && (code a <=? 57))%nat.

(** The last [n] elements. *)
Definition last_n {A} (n : nat) (l : list A) : list A := drop (length l - n) l.
