(* ===== verification/Referral.v ===== *)
(** The refer-a-friend programme
    (services/api-gateway/graph/resolvers/referral.go, referral_admin.go):
    codes and links, the discount a checkout asks for, the reward booked on a
    paid order, and what the staff do with it.

    A row of referral_conversions is written under the table's two unique
    indexes: one reward per purchase, and one per friend and kind of purchase
    unless it was reversed. *)

From S2P Require Import Prelude GoStrings Float64 Strconv Gateway Service Shop.
From Stdlib Require Import Ascii.

#[local] Open Scope Z_scope.
#[local] Open Scope service_scope.

Definition referralKindCourse : string := "course".
Definition referralKindExam : string := "certification".

(** ** Codes *)

Definition upper_byte (a : ascii) : ascii :=
  let n := code a in if ((97 <=? n) && (n <=? 122))%nat then ascii_of_nat (n - 32) else a.

(** [strings.ToUpper], as far as an ASCII result goes: besides the ASCII
    letters only U+0131 and U+017F have ASCII capitals.  Other characters stay
    what they are here, where Go may give another that is not ASCII either. *)
Fixpoint to_upper_bytes (s : bytes) : bytes :=
  match s with
  | [] => []
  | a :: r =>
      match r with
      | [] => [upper_byte a]
      | b :: r2 =>
          if ((code a =? 0xC4) && (code b =? 0xB1))%nat then "I"%char :: to_upper_bytes r2
          else if ((code a =? 0xC5) && (code b =? 0xBF))%nat then "S"%char :: to_upper_bytes r2
          else upper_byte a :: to_upper_bytes r
      end
  end.

Definition is_upper_alnum (a : ascii) : bool :=
  ((65 <=? code a) && (code a <=? 90))%nat || is_digit_byte a.

(** [referralCodeRe] *)
Definition referralCodeRe (s : bytes) : bool := negb (bool_decide (s = [])) && forallb is_upper_alnum s.

(** What stands behind the last "/r/". *)
Fixpoint after_link (s : bytes) : option bytes :=
  match s with
  | [] => None
  | a :: r =>
      match after_link r with
      | Some x => Some x
      | None =>
          match s with
          | "/"%char :: "r"%char :: "/"%char :: x => Some x
          | _ => None
          end
      end
  end.

Definition ends_code (a : ascii) : bool := Ascii.eqb a "?" || Ascii.eqb a "#" || Ascii.eqb a "&".

(** [s[:i]] for the first byte that satisfies [p]. *)
Fixpoint before (p : ascii → bool) (s : bytes) : bytes :=
  match s with
  | [] => []
  | a :: r => if p a then [] else a :: before p r
  end.

Definition normalizeCode (s : string) : string :=
  let s := trim_space_bytes (to_bytes s) in
  let s := default s (after_link s) in
  let s := before ends_code s in
  let s := to_upper_bytes (trim_space_bytes s) in
  if (24 <? Z.of_nat (length s)) || negb (referralCodeRe s) then "" else of_bytes s.

Definition digitsOnly (s : string) : bytes := last_n 10 (filter (λ a, is_digit_byte a = true) (to_bytes s)).

Definition is_alnum (a : ascii) : bool :=
  is_upper_alnum a || ((97 <=? code a) && (code a <=? 122))%nat.

Definition code_alphabet : bytes := to_bytes "ABCDEFGHJKLMNPQRSTUVWXYZ23456789".

(** The letter a byte of the token stands for. *)
Definition code_letter (a : ascii) : ascii := nth (code a mod 32) code_alphabet "A"%char.

(** The stem of a code; [None] when the name has no word, where Go panics. *)
Definition code_stem (name : string) : option bytes :=
  word ← first_field (name +:+ " ");
  let stem := map upper_byte (filter (λ a, is_alnum a = true) (to_bytes word)) in
  let stem := firstn 6 stem in
  Some (if (length stem <? 3)%nat then to_bytes "KNOV" else stem).

(** ** Programme *)

Definition rewardFor (p : referralProgram) (kind : string) : Z :=
  if String.eqb kind referralKindExam then ExamRewardPaise p else CourseRewardPaise p.

Definition program : Svc Shop (referralProgram + string) := query "program" (λ _ s, sh_program s).

Record ReferralHandler := {
  siteBase : string;
  mailer_enabled : bool;
  ipLimiter : option rateLimiter;
  emailLimiter : option rateLimiter;
}.

Section Handlers.
Context {PL : PgLower} {R : Random} {D : Digests} {AD : Addresses}.

(** Referrers by their code, which is unique. *)
Definition by_code (st : Stamp) (s : Shop) (c : string) : option (string * ReferrerRow) :=
  first_row st (sh_referrers s) (λ _ r, String.eqb (rf_code r) c).

(** [uniqueCode]: [inr] when no free code was found or a call failed. *)
Fixpoint unique_attempts (fuel : nat) (stem : bytes) : Svc Shop (string + string) :=
  match fuel with
  | O => return_ (inr "could not find a free referral code")
  | S fuel =>
      raw <- draw (λ n, randomToken n 8);;
      match raw with
      | None => return_ (inr "rand")
      | Some raw =>
          let c := of_bytes (stem ++ map code_letter (firstn 4 raw)) in
          exists_ <- query "code exists" (λ _ s, Some (some_row (sh_referrers s) (λ r, String.eqb (rf_code r) c)));;
          match exists_ with
          | inr e => return_ (inr e)
          | inl true => unique_attempts fuel stem
          | inl false => return_ (inl c)
          end
      end
  end.

Definition uniqueCode (name : string) : Svc Shop (string + string) :=
  match code_stem name with
  | None => panic
  | Some stem => unique_attempts 8 stem
  end.

(** INSERT INTO referrers … ON CONFLICT (email) DO UPDATE … RETURNING code *)
Definition insert_referrer (row : ReferrerRow) (on_conflict : ReferrerRow → ReferrerRow) : Svc Shop (string + string) :=
  call "insert referrer" (λ st s,
    match first_row st (sh_referrers s) (λ _ r, String.eqb (rf_email r) (rf_email row)) with
    | Some (id, r) => Some (rf_code r, with_referrers s (<[id := on_conflict r]> (sh_referrers s)))
    | None =>
        if some_row (sh_referrers s) (λ r, String.eqb (rf_code r) (rf_code row))
           || bool_decide (is_Some (sh_referrers s !! st_fresh st)) then None
        else Some (rf_code row, with_referrers s (<[st_fresh st := row]> (sh_referrers s)))
    end).

Definition new_referrer (c name email phone : string) (user : option string) : ReferrerRow :=
  {| rf_code := c; rf_name := name; rf_email := email; rf_phone := phone; rf_user_id := user; rf_upi_id := "";
     rf_pan := ""; rf_is_blocked := false; rf_notes := "" |}.

Definition set_referrer_user (user : option string) (r : ReferrerRow) : ReferrerRow :=
  {| rf_code := rf_code r; rf_name := rf_name r; rf_email := rf_email r; rf_phone := rf_phone r; rf_user_id := user;
     rf_upi_id := rf_upi_id r; rf_pan := rf_pan r; rf_is_blocked := rf_is_blocked r; rf_notes := rf_notes r |}.

Definition link (h : ReferralHandler) (c : string) : string := siteBase h +:+ "/r/" +:+ c.

Definition linkPayload (h : ReferralHandler) (c name : string) (p : referralProgram) (created : bool)
    : list (string * Value) :=
  [("code", VStr c); ("link", VStr (link h c)); ("name", VStr name); ("created", VBool created);
   ("courseRewardRupees", VInt (CourseRewardPaise p ÷ 100)); ("examRewardRupees", VInt (ExamRewardPaise p ÷ 100));
   ("friendDiscountPercent", VFloat (FriendDiscountPercent p))].

Record JoinInput := { ji_Name : string; ji_Email : string; ji_Phone : string; ji_Website : string }.

Definition not_joined : Reply := fail 500 "could not create your referral link".

(** The account of an address, however it is written. *)
Definition user_by_email (st : Stamp) (s : Shop) (email : string) : option (string * Account) :=
  first_row st (sh_users s) (λ _ u, String.eqb (pg_lower (ac_email u)) email).

(** [handleJoin] for an address that has no referrer yet. *)
Definition join_new (h : ReferralHandler) (p : referralProgram) (name email phone : string) : Svc Shop Reply :=
  code <- uniqueCode name;;
  match code with
  | inr _ => return_ not_joined
  | inl c =>
      user <- query "select user" (λ st s, fst <$> user_by_email st s email);;
      let user := match user with inl id => Some id | inr _ => None end in
      stored <- insert_referrer (new_referrer c name email phone user) (λ r, r);;
      match stored with
      | inr _ => return_ not_joined
      | inl c => post (mailer_enabled h) (LinkMail email name c);; return_ (write 200 (linkPayload h c name p true))
      end
  end.

Definition handleJoin (h : ReferralHandler) (ip : string) (body : option JoinInput) : Svc Shop Reply :=
  allowed <- limited "referral ip" (ipLimiter h) ip;;
  if negb allowed then
    return_ (fail 429 "too many attempts from this network — please try again in a few minutes")
  else
    match body with
    | None => return_ (fail 400 "invalid request")
    | Some req =>
        if negb (String.eqb (trim_space (ji_Website req)) "") then return_ (write 200 [("ok", VBool true)])
        else
          let name := clip (trim_space (ji_Name req)) 120 in
          let email := to_lower (clip (trim_space (ji_Email req)) 200) in
          let phone := clip (trim_space (ji_Phone req)) 30 in
          if String.eqb name "" then return_ (fail 400 "please enter your name")
          else if negb (bool_decide (ParseAddress email = Some email)) then
            return_ (fail 400 "please enter a valid email address — your link is sent there")
          else
            allowed <- limited "referral email" (emailLimiter h) ("referral:" +:+ email);;
            if negb allowed then
              return_ (fail 429 "too many attempts for this email — please try again later")
            else
              p <- program;;
              match p with
              | inr _ => return_ not_joined
              | inl p =>
                  if negb (IsActive p) then return_ (fail 503 "the referral programme is not open right now")
                  else
                    known <- query "select referrer" (λ st s,
                      Some (first_row st (sh_referrers s) (λ _ r, String.eqb (pg_lower (rf_email r)) email)));;
                    match known with
                    | inr _ => return_ not_joined
                    | inl (Some (_, r)) =>
                        if rf_is_blocked r then
                          return_ (fail 403 "we cannot create a referral link for this address — please contact us")
                        else return_ (write 200 (linkPayload h (rf_code r) name p false))
                    | inl None => join_new h p name email phone
                    end
              end
    end.

(** [handleResolve]: who sent the visitor, by first name. *)
Definition handleResolve (code : string) : Svc Shop Reply :=
  let c := normalizeCode code in
  if String.eqb c "" then return_ (fail 400 "code is required")
  else
    p <- program;;
    match p with
    | inr _ => return_ (fail 500 "could not check that link")
    | inl p =>
        found <- query "select referrer" (λ st s, Some (by_code st s c));;
        match found with
        | inl None => return_ (write 200 [("valid", VBool false)])
        | inr _ =>
            if negb (IsActive p) then return_ (write 200 [("valid", VBool false)])
            else return_ (fail 500 "could not check that link")
        | inl (Some (_, r)) =>
            if rf_is_blocked r || negb (IsActive p) then return_ (write 200 [("valid", VBool false)])
            else
              match first_field (rf_name r +:+ " ") with
              | None => panic
              | Some first =>
                  return_ (write 200 [("valid", VBool true); ("firstName", VStr first);
                    ("friendDiscountPercent", VFloat (FriendDiscountPercent p));
                    ("attributionDays", VInt (AttributionDays p))])
              end
        end
    end.

Record ClickInput := { ki_Code : string; ki_Path : string }.

Definition handleClick (ip user_agent : string) (body : option ClickInput) : Svc Shop Reply :=
  match body with
  | None => return_ (fail 400 "invalid request")
  | Some req =>
      let c := normalizeCode (ki_Code req) in
      if String.eqb c "" then return_ (fail 400 "code is required")
      else
        _ <- update "insert click" (λ _ s,
          if some_row (sh_referrers s) (λ r, String.eqb (rf_code r) c)
          then with_clicks s (sh_clicks s ++
            [{| ck_code := c; ck_ip_hash := if String.eqb ip "" then "" else hash_ip ip;
                ck_user_agent := clip user_agent 300; ck_path := clip (ki_Path req) 300 |}])
          else s);;
        return_ (write 200 [("ok", VBool true)])
  end.

(** ** Checkout *)

Record referralQuote := { q_ReferrerID : string; q_Code : string; q_DiscountPaise : Z; q_Flags : string }.

Definition no_quote : referralQuote := {| q_ReferrerID := ""; q_Code := ""; q_DiscountPaise := 0; q_Flags := "" |}.

(** [int64(p.FriendDiscountPercent*100)] *)
Definition basis_points (p : referralProgram) : Z := to_Z (fmul (FriendDiscountPercent p) (of_Z 100)).

Definition quote_discount (p : referralProgram) (amountPaise : Z) : Z :=
  let discount := int64 (amountPaise * basis_points p) ÷ 10000 in
  let discount := if FriendDiscountCap p <? discount then FriendDiscountCap p else discount in
  if amountPaise <=? discount then 0 else discount.

Definition same_phone (buyer referrer : string) : bool :=
  negb (bool_decide (digitsOnly buyer = [])) && bool_decide (digitsOnly buyer = digitsOnly referrer).

Definition Quote (code buyerEmail buyerPhone : string) (amountPaise : Z) : Svc Shop referralQuote :=
  let c := normalizeCode code in
  if String.eqb c "" then return_ no_quote
  else
    p <- program;;
    match p with
    | inr _ => return_ no_quote
    | inl p =>
        if negb (IsActive p) then return_ no_quote
        else
          found <- query "select referrer" (λ st s, Some (by_code st s c));;
          match found with
          | inr _ | inl None => return_ no_quote
          | inl (Some (id, r)) =>
              let buyerEmail := to_lower (trim_space buyerEmail) in
              if rf_is_blocked r then return_ no_quote
              else if negb (String.eqb buyerEmail "") && String.eqb buyerEmail (pg_lower (rf_email r)) then
                return_ no_quote
              else
                let flags := if same_phone buyerPhone (rf_phone r) then "same phone number as the referrer" else "" in
                if amountPaise <? MinOrderPaise p then return_ no_quote
                else return_ {| q_ReferrerID := id; q_Code := c; q_DiscountPaise := quote_discount p amountPaise;
                                q_Flags := flags |}
          end
    end.

(** ** Rewards *)

Definition owed_status (v : ConversionStatus) : bool := match v with Pending | Approved => true | _ => false end.
Definition paying_status (v : ConversionStatus) : bool := match v with Approved | PaidOut => true | _ => false end.
Definition counts (v : ConversionStatus) : bool := match v with Reversed => false | _ => true end.

#[global] Instance ConversionStatus_eq_dec : EqDecision ConversionStatus.
Proof. solve_decision. Defined.

Definition month : Z := 30 * 86400 * 10 ^ 9.

(** What a referrer's approved and paid rewards of the last month add up to. *)
Definition lastMonth (now : Z) (referrer : string) (t : gmap string ConversionRow) : Z :=
  foldr (λ kv z, z + cv_reward_paise (snd kv)) 0
    (filter (λ kv, String.eqb (cv_referrer_id (snd kv)) referrer && paying_status (cv_status (snd kv))
                   && (now - month <? cv_created_at (snd kv)) = true) (map_to_list t)).

(** The unique index on the purchase. *)
Definition same_purchase (kind order : string) (v : ConversionRow) : bool :=
  String.eqb (cv_kind v) kind && String.eqb (cv_order_id v) order.

(** The partial unique index on the friend. *)
Definition same_friend (email kind : string) (v : ConversionRow) : bool :=
  String.eqb (pg_lower (cv_friend_email v)) (pg_lower email) && String.eqb (cv_kind v) kind && counts (cv_status v).

Definition known_kind (kind : string) : bool :=
  String.eqb kind referralKindCourse || String.eqb kind referralKindExam.

(** INSERT … ON CONFLICT (kind, order_id) DO NOTHING RETURNING id: [inl None]
    is no row, an error a violated constraint. *)
Definition insert_conversion (row : Z → ConversionRow) : Svc Shop (option string + string) :=
  call "insert conversion" (λ st s,
    let v := row (st_time st) in
    if negb (known_kind (cv_kind v)) then None
    else if some_row (sh_conversions s) (same_purchase (cv_kind v) (cv_order_id v)) then Some (None, s)
    else if some_row (sh_conversions s) (same_friend (cv_friend_email v) (cv_kind v))
            || bool_decide (is_Some (sh_conversions s !! st_fresh st)) then None
    else Some (Some (st_fresh st), with_conversions s (<[st_fresh st := v]> (sh_conversions s)))).

Definition notifyEarned (h : ReferralHandler) (referrer friend item : string) (reward : Z) : Svc Shop unit :=
  if negb (mailer_enabled h) then return_ tt
  else
    found <- query "select referrer" (λ _ s, sh_referrers s !! referrer);;
    match found with
    | inr _ => return_ tt
    | inl r =>
        match first_field (friend +:+ " ") with
        | None => panic
        | Some first => post true (EarnedMail (rf_email r) first item (reward ÷ 100))
        end
    end.

Record Purchase := {
  pu_kind : string;
  pu_order_id : string;
  pu_code : string;
  pu_friend_name : string;
  pu_friend_email : string;
  pu_item_name : string;
  pu_flags : string;
  pu_order_paise : Z;
  pu_discount_paise : Z;
}.

(** The row a purchase is booked with. *)
Definition booked (c referrer : string) (b : Purchase) (reward : Z) (flags : string) (now : Z) : ConversionRow :=
  {| cv_referrer_id := referrer; cv_code := c; cv_kind := pu_kind b; cv_order_id := pu_order_id b;
     cv_friend_name := clip (pu_friend_name b) 120; cv_friend_email := to_lower (clip (pu_friend_email b) 200);
     cv_item_name := clip (pu_item_name b) 160; cv_order_paise := pu_order_paise b;
     cv_discount_paise := pu_discount_paise b; cv_reward_paise := reward; cv_status := Pending;
     cv_flags := clip flags 300; cv_reason := ""; cv_approved_by := ""; cv_approved_at := None; cv_paid_at := None;
     cv_payout_ref := ""; cv_created_at := now |}.

Definition cap_flags (p : referralProgram) (last reward : Z) (flags : string) : string :=
  if (0 <? MonthlyCapPaise p) && (MonthlyCapPaise p <? int64 (last + reward))
  then trim_space (flags +:+ "; over the monthly cap") else flags.

Definition RecordConversion (h : ReferralHandler) (b : Purchase) : Svc Shop unit :=
  let c := normalizeCode (pu_code b) in
  if String.eqb c "" || String.eqb (pu_order_id b) "" then return_ tt
  else
    p <- program;;
    match p with
    | inr _ => return_ tt
    | inl p =>
        if negb (IsActive p) then return_ tt
        else
          found <- query "select referrer" (λ st s,
            fst <$> first_row st (sh_referrers s) (λ _ r, String.eqb (rf_code r) c && negb (rf_is_blocked r)));;
          match found with
          | inr _ => return_ tt
          | inl referrer =>
              let reward := rewardFor p (pu_kind b) in
              last <- query "last month" (λ st s, Some (lastMonth (st_time st) referrer (sh_conversions s)));;
              let last := match last with inl z => z | inr _ => 0 end in
              stored <- insert_conversion (booked c referrer b reward (cap_flags p last reward (pu_flags b)));;
              match stored with
              | inl (Some _) => notifyEarned h referrer (pu_friend_name b) (pu_item_name b) reward
              | _ => return_ tt
              end
          end
    end.

Definition set_status (v : ConversionRow) (status : ConversionStatus) (reason : string) : ConversionRow :=
  {| cv_referrer_id := cv_referrer_id v; cv_code := cv_code v; cv_kind := cv_kind v; cv_order_id := cv_order_id v;
     cv_friend_name := cv_friend_name v; cv_friend_email := cv_friend_email v; cv_item_name := cv_item_name v;
     cv_order_paise := cv_order_paise v; cv_discount_paise := cv_discount_paise v;
     cv_reward_paise := cv_reward_paise v; cv_status := status; cv_flags := cv_flags v; cv_reason := reason;
     cv_approved_by := cv_approved_by v; cv_approved_at := cv_approved_at v; cv_paid_at := cv_paid_at v;
     cv_payout_ref := cv_payout_ref v; cv_created_at := cv_created_at v |}.

Definition set_approver (v : ConversionRow) (who : string) (now : Z) : ConversionRow :=
  {| cv_referrer_id := cv_referrer_id v; cv_code := cv_code v; cv_kind := cv_kind v; cv_order_id := cv_order_id v;
     cv_friend_name := cv_friend_name v; cv_friend_email := cv_friend_email v; cv_item_name := cv_item_name v;
     cv_order_paise := cv_order_paise v; cv_discount_paise := cv_discount_paise v;
     cv_reward_paise := cv_reward_paise v; cv_status := cv_status v; cv_flags := cv_flags v;
     cv_reason := cv_reason v; cv_approved_by := who; cv_approved_at := Some now; cv_paid_at := cv_paid_at v;
     cv_payout_ref := cv_payout_ref v; cv_created_at := cv_created_at v |}.

Definition set_payout (v : ConversionRow) (ref : string) (now : Z) : ConversionRow :=
  {| cv_referrer_id := cv_referrer_id v; cv_code := cv_code v; cv_kind := cv_kind v; cv_order_id := cv_order_id v;
     cv_friend_name := cv_friend_name v; cv_friend_email := cv_friend_email v; cv_item_name := cv_item_name v;
     cv_order_paise := cv_order_paise v; cv_discount_paise := cv_discount_paise v;
     cv_reward_paise := cv_reward_paise v; cv_status := cv_status v; cv_flags := cv_flags v;
     cv_reason := cv_reason v; cv_approved_by := cv_approved_by v; cv_approved_at := cv_approved_at v;
     cv_paid_at := Some now; cv_payout_ref := ref; cv_created_at := cv_created_at v |}.

Definition set_flags (v : ConversionRow) (flags : string) : ConversionRow :=
  {| cv_referrer_id := cv_referrer_id v; cv_code := cv_code v; cv_kind := cv_kind v; cv_order_id := cv_order_id v;
     cv_friend_name := cv_friend_name v; cv_friend_email := cv_friend_email v; cv_item_name := cv_item_name v;
     cv_order_paise := cv_order_paise v; cv_discount_paise := cv_discount_paise v;
     cv_reward_paise := cv_reward_paise v; cv_status := cv_status v; cv_flags := flags; cv_reason := cv_reason v;
     cv_approved_by := cv_approved_by v; cv_approved_at := cv_approved_at v; cv_paid_at := cv_paid_at v;
     cv_payout_ref := cv_payout_ref v; cv_created_at := cv_created_at v |}.

(** [trim(both '; ' from s)] *)
Definition pg_trim_marks (s : string) : string :=
  let mark := λ a, Ascii.eqb a ";" || Ascii.eqb a " " in
  of_bytes (trim_right mark (drop_while mark (to_bytes s))).

(** UPDATE … WHERE p: the rows that satisfy [p] change, and are counted. *)
Definition update_conversions (label : string) (p : string → ConversionRow → bool)
    (f : Z → ConversionRow → ConversionRow) : Svc Shop (Z + string) :=
  call label (λ st s,
    Some (Z.of_nat (length (filter (λ kv, p (fst kv) (snd kv) = true) (map_to_list (sh_conversions s)))),
          with_conversions s (map_imap (λ id v, Some (if p id v then f (st_time st) v else v)) (sh_conversions s)))).

Definition ReverseConversion (kind order reason : string) : Svc Shop unit :=
  n <- update_conversions "reverse"
    (λ _ v, same_purchase kind order v && owed_status (cv_status v))
    (λ _ v, set_status v Reversed (clip reason 300));;
  match n with
  | inr _ => return_ tt
  | inl n =>
      if 0 <? n then return_ tt
      else
        _ <- update_conversions "flag"
          (λ _ v, same_purchase kind order v && bool_decide (cv_status v = PaidOut))
          (λ _ v, set_flags v (pg_trim_marks (cv_flags v +:+ "; paid, then the purchase was refunded")));;
        return_ tt
  end.

(** ** Staff *)

Inductive Action := ActApprove | ActReject (reason : string) | ActPay (payout_ref : string) | ActReopen | ActUnknown.

Record ActionInput := { ai_Action : string; ai_Reason : string; ai_PayoutRef : string }.

Definition action_of (i : ActionInput) : Action :=
  if String.eqb (ai_Action i) "approve" then ActApprove
  else if String.eqb (ai_Action i) "reject" then ActReject (ai_Reason i)
  else if String.eqb (ai_Action i) "pay" then ActPay (ai_PayoutRef i)
  else if String.eqb (ai_Action i) "reopen" then ActReopen
  else ActUnknown.

Definition audit (who action target : string) (detail : list (string * Value)) : Svc Shop unit :=
  _ <- update "audit" (λ _ s, with_audit s (sh_audit s ++
    [{| au_actor_id := who; au_action := action; au_target_id := target; au_detail := detail |}]));;
  return_ tt.

(** The rows an action applies to, and what it makes of them. *)
Definition action_from (a : Action) (v : ConversionStatus) : bool :=
  match a, v with
  | ActApprove, Pending => true
  | ActReject _, (Pending | Approved) => true
  | ActPay _, Approved => true
  | ActReopen, Rejected => true
  | _, _ => false
  end.

Definition action_apply (a : Action) (who : string) (now : Z) (v : ConversionRow) : ConversionRow :=
  match a with
  | ActApprove => set_approver (set_status v Approved (cv_reason v)) who now
  | ActReject reason => set_approver (set_status v Rejected (clip reason 300)) who now
  | ActPay ref => set_payout (set_status v PaidOut (cv_reason v)) (clip ref 120) now
  | ActReopen => set_status v Pending ""
  | ActUnknown => v
  end.

(** Why an action is refused before the database is asked. *)
Definition action_refused (bulk : bool) (a : Action) : option string :=
  match a with
  | ActReject reason =>
      if String.eqb (trim_space reason) ""
      then Some (if bulk then "give a reason" else "give a reason — the referrer may ask why") else None
  | ActPay ref =>
      if String.eqb (trim_space ref) ""
      then Some (if bulk then "record a payout reference for this batch"
                 else "record the UPI reference — it is the only proof this was paid") else None
  | ActReopen => if bulk then Some "unknown action" else None
  | ActUnknown => Some "unknown action"
  | ActApprove => None
  end.

Definition UpdateConversion (who id : string) (body : option ActionInput) : Svc Shop Reply :=
  match body with
  | None => return_ (fail 400 "invalid request body")
  | Some i =>
      let a := action_of i in
      match action_refused false a with
      | Some msg => return_ (fail 400 msg)
      | None =>
          n <- update_conversions "update conversion" (λ k v, String.eqb k id && action_from a (cv_status v))
                 (action_apply a who);;
          match n with
          | inr _ => return_ (fail 500 "could not update the reward")
          | inl n =>
              if n =? 0 then return_ (fail 409 "that reward is not in a state this action can change")
              else
                audit who ("referral." +:+ ai_Action i) id
                  [("payout_ref", VStr (ai_PayoutRef i)); ("reason", VStr (ai_Reason i))];;
                return_ (write 200 [("success", VBool true)])
          end
      end
  end.

Definition BulkUpdate (who : string) (body : option (list string * ActionInput)) : Svc Shop Reply :=
  match body with
  | None => return_ (fail 400 "invalid request body")
  | Some (ids, i) =>
      let a := action_of i in
      if bool_decide (ids = []) then return_ (fail 400 "select at least one reward")
      else if 500 <? Z.of_nat (length ids) then
        return_ (fail 400 "too many at once — filter and do it in pages")
      else
        match action_refused true a with
        | Some msg => return_ (fail 400 msg)
        | None =>
            n <- update_conversions "bulk update"
                   (λ k v, bool_decide (k ∈ ids) && action_from a (cv_status v)) (action_apply a who);;
            match n with
            | inr _ => return_ (fail 500 "could not update the rewards")
            | inl n =>
                audit who ("referral.bulk_" +:+ ai_Action i) "" [("count", VInt n)];;
                return_ (write 200 [("success", VBool true); ("updated", VInt n)])
            end
        end
  end.
End Handlers.

(** ** Codes read back *)

Definition valid_code (c : bytes) : Prop := referralCodeRe c = true ∧ (length c ≤ 24)%nat.

Lemma alnum_plain a : is_upper_alnum a = true →
  ascii_space a = false ∧ (code a < 128)%nat ∧ a ≠ "/"%char ∧ ends_code a = false ∧ upper_byte a = a.
Proof.
  intros H. destruct a as [b0 b1 b2 b3 b4 b5 b6 b7].
  destruct b0, b1, b2, b3, b4, b5, b6, b7; try discriminate H; split_and!; try done; vm_compute; lia.
Qed.

Lemma space2_low a b : (code b < 128)%nat → space2 a b = false.
Proof.
  intros H. unfold space2. rewrite (proj2 (Nat.eqb_neq (code b) 0x85)), (proj2 (Nat.eqb_neq (code b) 0xA0)) by lia.
  apply andb_false_r.
Qed.

Lemma space2_lead a b : (code a < 128)%nat → space2 a b = false.
Proof. intros H. unfold space2. by rewrite (proj2 (Nat.eqb_neq (code a) 0xC2)) by lia. Qed.

Lemma space3_low a b c : (code c < 128)%nat → space3 a b c = false.
Proof.
  intros H. unfold space3.
  rewrite (proj2 (Nat.eqb_neq (code c) 0x80)), (proj2 (Nat.leb_gt 0x80 (code c))), (proj2 (Nat.eqb_neq (code c) 0xA8)),
    (proj2 (Nat.eqb_neq (code c) 0xA9)), (proj2 (Nat.eqb_neq (code c) 0xAF)), (proj2 (Nat.eqb_neq (code c) 0x9F)) by lia.
  by rewrite !andb_false_r.
Qed.

Lemma space3_mid a b c : (code b < 128)%nat → space3 a b c = false.
Proof.
  intros H. unfold space3.
  rewrite (proj2 (Nat.eqb_neq (code b) 0x9A)), (proj2 (Nat.eqb_neq (code b) 0x80)), (proj2 (Nat.eqb_neq (code b) 0x81)) by lia.
  by rewrite !andb_false_r, !andb_false_l.
Qed.

Lemma space3_lead a b c : (code a < 128)%nat → space3 a b c = false.
Proof.
  intros H. unfold space3.
  by rewrite (proj2 (Nat.eqb_neq (code a) 0xE1)), (proj2 (Nat.eqb_neq (code a) 0xE2)), (proj2 (Nat.eqb_neq (code a) 0xE3)) by lia.
Qed.

(** Trimming stops at a plain character at the latest. *)
Lemma trim_left_stops (x y : bytes) a b :
  ascii_space a = false → (code a < 128)%nat → (code b < 128)%nat →
  ∃ x', trim_left_space (x ++ a :: b :: y) = x' ++ a :: b :: y.
Proof.
  intros Ha La Lb. remember (length x) as n eqn:En. revert x En.
  induction n as [n IH] using lt_wf_ind. intros x ->.
  destruct x as [|c x].
  { exists []. cbn. rewrite Ha, space2_lead by done. destruct y as [|d y]; [done|]. by rewrite space3_lead. }
  cbn [app trim_left_space]. destruct (ascii_space c) eqn:Ec; [apply (IH (length x)); cbn; lia|].
  destruct x as [|d x]; cbn [app].
  { rewrite space2_low by done. rewrite space3_mid by done. by exists [c]. }
  destruct (space2 c d); [apply (IH (length x)); cbn; lia|].
  destruct x as [|e x]; cbn [app].
  { rewrite space3_low by done. by exists [c; d]. }
  destruct (space3 c d e); [apply (IH (length x)); cbn; lia|]. by exists (c :: d :: e :: x).
Qed.

Lemma trim_right_plain (x : bytes) a : ascii_space a = false → (code a < 128)%nat →
  rev (trim_left_space_rev (rev (x ++ [a]))) = x ++ [a].
Proof.
  intros Ha La. rewrite rev_app_distr. cbn [rev app trim_left_space_rev]. rewrite Ha.
  destruct (rev x) as [|b r] eqn:E.
  { apply (f_equal (@rev _)) in E. rewrite rev_involutive in E. by subst x. }
  rewrite space2_low by done. destruct r as [|d r]; [|rewrite space3_low by done];
    rewrite <- E; cbn [rev]; by rewrite rev_involutive.
Qed.

(** Trimming leaves a text alone whose ends are ASCII and no white space. *)
Lemma trim_plain c : Forall (λ a, ascii_space a = false ∧ (code a < 128)%nat) c → trim_space_bytes c = c.
Proof.
  intros Hall. destruct c as [|a r]; [done|]. pose proof (Forall_inv Hall) as [Sa La].
  assert (E : trim_left_space (a :: r) = a :: r).
  { cbn. rewrite Sa. destruct r as [|b r]; [done|]. rewrite space2_lead by done.
    destruct r as [|d r]; [done|]. by rewrite space3_lead. }
  unfold trim_space_bytes. rewrite E. destruct (exists_last (l := a :: r) ltac:(done)) as (x & z & Ex). rewrite Ex in *.
  apply Forall_app in Hall as [_ [Sz Lz]%Forall_inv]. by apply trim_right_plain.
Qed.

Lemma trim_code c : referralCodeRe c = true → trim_space_bytes c = c.
Proof.
  unfold referralCodeRe. rewrite andb_true_iff. intros [_ Hall]. rewrite forallb_forall in Hall.
  apply trim_plain, Forall_forall. intros a Ha%list_elem_of_In. by destruct (alnum_plain a (Hall a Ha)) as (? & ? & _).
Qed.

Lemma after_link_none c : ~ In "/"%char c → after_link c = None.
Proof.
  induction c as [|a r IH]; [done|]. intros H. cbn. rewrite IH by (intros H'; apply H; by right).
  destruct a as [[] [] [] [] [] [] [] []]; try done. exfalso. apply H. by left.
Qed.

Lemma after_link_last x c : ~ In "/"%char c → after_link (x ++ "/"%char :: "r"%char :: "/"%char :: c) = Some c.
Proof.
  intros Hc. induction x as [|a x IH]; [|cbn; by rewrite IH].
  cbn [app]. change (after_link ("/"%char :: "r"%char :: "/"%char :: c)) with
    (match after_link ("r"%char :: "/"%char :: c) with Some y => Some y | None => Some c end).
  change (after_link ("r"%char :: "/"%char :: c)) with
    (match after_link ("/"%char :: c) with Some y => Some y | None => None end).
  assert (E : after_link ("/"%char :: c) = None).
  { cbn. rewrite after_link_none by done. destruct c as [|b [|d c]]; [done|..].
    - destruct b as [[] [] [] [] [] [] [] []]; done.
    - destruct b as [[] [] [] [] [] [] [] []]; try done. destruct d as [[] [] [] [] [] [] [] []]; try done.
      exfalso. apply Hc. right. by left. }
  by rewrite E.
Qed.

Lemma before_plain c : forallb is_upper_alnum c = true → before ends_code c = c.
Proof.
  induction c as [|a r IH]; [done|]. cbn. rewrite andb_true_iff. intros [Ha Hr].
  destruct (alnum_plain a Ha) as (_ & _ & _ & -> & _). by rewrite IH.
Qed.

Lemma to_upper_plain c : forallb is_upper_alnum c = true → to_upper_bytes c = c.
Proof.
  induction c as [|a r IH]; [done|]. cbn [forallb]. rewrite andb_true_iff. intros [Ha Hr].
  destruct (alnum_plain a Ha) as (_ & La & _ & _ & Ua). cbn [to_upper_bytes].
  destruct r as [|b r]; [by rewrite Ua|].
  rewrite (proj2 (Nat.eqb_neq (code a) 0xC4)), (proj2 (Nat.eqb_neq (code a) 0xC5)) by lia. cbn [andb].
  by rewrite Ua, IH.
Qed.

Lemma code_no_slash c : forallb is_upper_alnum c = true → ~ In "/"%char c.
Proof. rewrite forallb_forall. intros H Hin. by destruct (alnum_plain _ (H _ Hin)) as (_ & _ & ? & _). Qed.

(** A link leads back to its code, whatever stands before it and however much
    space is around it. *)
Lemma normalizeCode_link site c :
  valid_code c → normalizeCode (of_bytes (site ++ to_bytes "/r/" ++ c)) = of_bytes c.
Proof.
  intros [Hre Hlen]. pose proof Hre as Hre'. unfold referralCodeRe in Hre'.
  rewrite andb_true_iff, negb_true_iff, bool_decide_eq_false in Hre'. destruct Hre' as [Hne Hall].
  unfold normalizeCode. rewrite to_of_bytes.
  assert (E : ∃ x, trim_space_bytes (site ++ to_bytes "/r/" ++ c) = x ++ to_bytes "/r/" ++ c).
  { unfold trim_space_bytes. cbn [to_bytes String.list_ascii_of_string app].
    destruct (trim_left_stops site ("/"%char :: c) "/"%char "r"%char) as [x ->]; try done; try (vm_compute; lia).
    exists x. destruct (exists_last Hne) as (y & z & Ey). rewrite Ey in *.
    assert (Hz : is_upper_alnum z = true) by (rewrite forallb_forall in Hall; apply Hall, in_or_app; right; by left).
    destruct (alnum_plain z Hz) as (Sz & Lz & _).
    change (x ++ "/"%char :: "r"%char :: "/"%char :: y ++ [z]) with (x ++ ("/"%char :: "r"%char :: "/"%char :: y) ++ [z]).
    rewrite app_assoc. by apply trim_right_plain. }
  destruct E as [x ->]. cbn [to_bytes String.list_ascii_of_string app]. rewrite after_link_last by (by apply code_no_slash).
  cbn [default from_option]. unfold id. rewrite before_plain, trim_code, to_upper_plain by done.
  rewrite (proj2 (Z.ltb_ge _ _)) by lia. by rewrite Hre.
Qed.

(** What it accepts is a code, and is read back as it is. *)
Lemma normalizeCode_valid s : normalizeCode s = "" ∨ valid_code (to_bytes (normalizeCode s)).
Proof.
  unfold normalizeCode. set (c := to_upper_bytes _). destruct (_ || _) eqn:E; [by left|right].
  rewrite orb_false_iff, negb_false_iff in E. destruct E as [E1 E2]. apply Z.ltb_ge in E1.
  rewrite to_of_bytes. split; [done|lia].
Qed.

(** ** New codes *)

Section NewCodes.
Context {R : Random}.

Lemma code_letter_in a : In (code_letter a) code_alphabet.
Proof.
  unfold code_letter. apply nth_In. change (length code_alphabet) with 32%nat.
  apply Nat.mod_upper_bound. lia.
Qed.

Lemma letter_plain x : In x code_alphabet → is_upper_alnum x = true.
Proof.
  revert x. apply forallb_forall. vm_compute. reflexivity.
Qed.

Lemma upper_alnum a : is_alnum a = true → is_upper_alnum (upper_byte a) = true.
Proof.
  destruct a as [b0 b1 b2 b3 b4 b5 b6 b7].
  destruct b0, b1, b2, b3, b4, b5, b6, b7; intros H; first [discriminate H|reflexivity].
Qed.

Lemma code_stem_plain name stem :
  code_stem name = Some stem → forallb is_upper_alnum stem = true ∧ (3 ≤ length stem ≤ 6)%nat.
Proof.
  unfold code_stem. destruct (first_field _) as [word|]; [|done]. cbn [mbind option_bind]. intros [= <-].
  set (l := firstn 6 _).
  assert (Hl : forallb is_upper_alnum l = true).
  { apply forallb_forall. intros x Hx.
    assert (Hx' : In x (map upper_byte (filter (λ a, is_alnum a = true) (to_bytes word))))
      by (rewrite <- (firstn_skipn 6 (map _ _)); apply in_or_app; by left).
    apply in_map_iff in Hx' as (y & <- & Hy).
    apply list_elem_of_In, list_elem_of_filter in Hy as [Hy _]. by apply upper_alnum. }
  destruct (Nat.ltb_spec (length l) 3); [by vm_compute; split; [|lia]|].
  split; [done|]. split; [done|]. unfold l. rewrite length_take. lia.
Qed.

(** Every code that is drawn is one that [normalizeCode] accepts. *)
Lemma drawn_valid stem raw :
  forallb is_upper_alnum stem = true → (3 ≤ length stem ≤ 6)%nat → valid_code (stem ++ map code_letter (firstn 4 raw)).
Proof.
  intros Hs Hl. split.
  - unfold referralCodeRe. rewrite andb_true_iff, negb_true_iff, bool_decide_eq_false, forallb_app. split.
    + destruct stem; [cbn in Hl; lia|done].
    + rewrite Hs. cbn. apply forallb_forall. intros x (y & <- & _)%in_map_iff. apply letter_plain, code_letter_in.
  - rewrite length_app, length_map, length_take. lia.
Qed.

(** Tokens are base64 text, of which the letters of codes are drawn: five of
    the 32 letters of the alphabet never come up. *)
Lemma url_letter n : 0 ≤ n < 64 → ~ In (code_letter (url_char n)) (to_bytes "A5678").
Proof.
  intros Hn.
  assert (H : forallb (λ k, negb (existsb (Ascii.eqb (code_letter (url_char (Z.of_nat k)))) (to_bytes "A5678")))
    (seq 0 64) = true) by (vm_compute; reflexivity).
  rewrite forallb_forall in H. specialize (H (Z.to_nat n) ltac:(apply in_seq; lia)).
  rewrite Z2Nat.id in H by lia. apply negb_true_iff in H. intros Hin.
  rewrite (proj2 (existsb_exists _ _)) in H; [done|]. eexists. split; [exact Hin|apply Ascii.eqb_refl].
Qed.

Lemma base64_chars b : (∀ x, x ∈ b → 0 ≤ x < 256) → Forall (λ a, ∃ n, 0 ≤ n < 64 ∧ a = url_char n) (base64_url b).
Proof.
  assert (Hc : ∀ z, 0 ≤ z < 64 → ∃ n, 0 ≤ n < 64 ∧ url_char z = url_char n) by eauto.
  remember (length b) as k eqn:Ek. revert b Ek. induction k as [k IH] using lt_wf_ind. intros b -> Hb.
  assert (Hd : ∀ x, x ∈ b → 0 ≤ x / 4 < 64 ∧ 0 ≤ x / 16 < 16 ∧ 0 ≤ x / 64 < 4 ∧ 0 ≤ x mod 4 < 4 ∧ 0 ≤ x mod 16 < 16
    ∧ 0 ≤ x mod 64 < 64).
  { intros x Hx%Hb. split_and!; (apply Z.div_pos || apply Z.div_lt_upper_bound || apply Z.mod_pos_bound); lia. }
  destruct b as [|x [|y [|z r]]]; cbn [base64_url app]; repeat constructor; try (apply Hc);
    try (pose proof (Hd x ltac:(set_solver))); try (pose proof (Hd y ltac:(set_solver)));
    try (pose proof (Hd z ltac:(set_solver))); try lia.
  apply (IH (length r)); [cbn; lia|done|]. intros u Hu. apply Hb. set_solver.
Qed.

Lemma token_letters n k raw :
  randomToken n k = Some raw → Forall (λ a, ~ In (code_letter a) (to_bytes "A5678")) raw.
Proof.
  unfold randomToken. destruct (rand_bytes n k) as [b|] eqn:E; [|done]. intros [= <-].
  eapply Forall_impl; [apply base64_chars; intros x; by eapply rand_range|].
  intros a (m & Hm & ->). by apply url_letter.
Qed.
End NewCodes.

(** ** Discounts *)

(** A percentage between 0 and 100. *)
Definition percentage (x : float64) : Prop := nneg x ∧ fleb x (of_Z 100) = true.

Lemma basis_points_range p : percentage (FriendDiscountPercent p) → 0 ≤ basis_points p ≤ 10000.
Proof.
  intros [Hn Hle]. unfold basis_points. set (x := FriendDiscountPercent p) in *.
  pose proof (of_Z_spec 100 ltac:(lia)) as [Hf Hs].
  assert (H100 : nneg (of_Z 100)) by (split; [done|rewrite Hs; apply Z.mul_nonneg_nonneg; [lia|apply Z.pow_nonneg; lia]]).
  rewrite fleb_spec in Hle by (apply Hn || done). apply Z.leb_le in Hle.
  rewrite Hs in Hle. destruct Hn as [Hfx H0]. assert (Hn : nneg x) by (by split).
  assert (HU : 0 < 2 ^ 1074) by (apply pow2_pos; lia).
  assert (HD : 2 ^ 2148 = 2 ^ 1074 * 2 ^ 1074) by (rewrite <- Z.pow_add_r by lia; f_equal; lia).
  assert (HM : 10000 * 2 ^ 1074 < fmax_scale).
  { unfold fmax_scale. replace 2098 with (1024 + 1074) by lia. rewrite (Z.pow_add_r 2 1024) by lia.
    apply Z.mul_lt_mono_pos_r; [done|]. by vm_compute. }
  assert (HL : rscale (sval x * sval (of_Z 100)) (2 ^ 2148) ≤ 10000 * 2 ^ 1074).
  { apply rscale_le_rep; rewrite ?Hs, ?HD; [apply Z.mul_nonneg_nonneg; lia|nia|lia|lia|].
    set (U := 2 ^ 1074) in *. nia. }
  destruct (fmul_spec x (of_Z 100) Hn H100 ltac:(lia)) as [Hnm Hsm].
  rewrite (to_Z_spec _ Hnm), Hsm. split.
  - apply Z.div_pos; [|done]. apply rscale_ge_0; [rewrite Hs; apply Z.mul_nonneg_nonneg; lia|apply pow2_pos; lia].
  - apply Z.div_le_upper_bound; [done|]. lia.
Qed.

(** The discount is what the percentage makes of the order, cut off to whole
    paise, but not above the cap, and not the whole order. *)
Lemma quote_discount_spec p amount :
  percentage (FriendDiscountPercent p) → 0 ≤ FriendDiscountCap p → 0 ≤ amount < 2 ^ 63 / 10000 →
  0 ≤ quote_discount p amount ≤ FriendDiscountCap p ∧ (quote_discount p amount = 0 ∨ quote_discount p amount < amount) ∧
  (quote_discount p amount = Z.min (FriendDiscountCap p) (amount * basis_points p / 10000) ∨ quote_discount p amount = 0).
Proof.
  intros Hp Hc Ha. pose proof (basis_points_range p Hp) as Hb. unfold quote_discount.
  assert (Ha' : amount * 10000 < 2 ^ 63) by (assert (2 ^ 63 / 10000 * 10000 ≤ 2 ^ 63) by (vm_compute; done); lia).
  rewrite int64_id by nia. rewrite Z.quot_div_nonneg by nia. set (d := amount * basis_points p / 10000).
  assert (Hd : 0 ≤ d) by (apply Z.div_pos; nia).
  destruct (Z.ltb_spec (FriendDiscountCap p) d); case_match; bool_to_prop; split_and!; try lia; auto; left; lia.
Qed.

(** ** The ledger *)

Section Ledger.
Context {PL : PgLower}.

Record ledger_ok (s : Shop) : Prop := {
  lo_purchase i j v w : sh_conversions s !! i = Some v → sh_conversions s !! j = Some w →
    cv_kind v = cv_kind w → cv_order_id v = cv_order_id w → i = j;
  lo_friend i j v w : sh_conversions s !! i = Some v → sh_conversions s !! j = Some w →
    counts (cv_status v) = true → counts (cv_status w) = true →
    pg_lower (cv_friend_email v) = pg_lower (cv_friend_email w) → cv_kind v = cv_kind w → i = j;
  lo_paid i v : sh_conversions s !! i = Some v → cv_status v = PaidOut →
    cv_payout_ref v ≠ "" ∧ is_Some (cv_paid_at v);
}.

(** The facts of a reward that nothing changes. *)
Definition same_reward (v w : ConversionRow) : Prop :=
  cv_referrer_id w = cv_referrer_id v ∧ cv_code w = cv_code v ∧ cv_kind w = cv_kind v ∧
  cv_order_id w = cv_order_id v ∧ cv_friend_email w = cv_friend_email v ∧ cv_order_paise w = cv_order_paise v ∧
  cv_discount_paise w = cv_discount_paise v ∧ cv_reward_paise w = cv_reward_paise v ∧
  cv_created_at w = cv_created_at v.

(** What may become of a reward: paid stays paid with its reference, reversed
    stays as it is. *)
Definition moved_row (v w : ConversionRow) : Prop :=
  same_reward v w ∧
  (cv_status v = PaidOut → cv_status w = PaidOut ∧ cv_payout_ref w = cv_payout_ref v ∧ cv_paid_at w = cv_paid_at v) ∧
  (cv_status v = Reversed → w = v).

#[global] Instance moved_row_preorder : PreOrder moved_row.
Proof.
  split; [by intros v|]. intros u v w (A1 & A2 & A3) (B1 & B2 & B3). unfold moved_row, same_reward in *. split_and!.
  1-9: intuition congruence.
  - intros H. destruct (A2 H) as (H1 & H2 & H3), (B2 H1) as (? & ? & ?). split_and!; congruence.
  - intros H. pose proof (A3 H). subst v. auto.
Qed.

(** Every reward of [s0] is still there, and moved on at most. *)
Definition moved (s0 s : Shop) : Prop :=
  ∀ id v, sh_conversions s0 !! id = Some v → ∃ w, sh_conversions s !! id = Some w ∧ moved_row v w.

Lemma moved_trans s0 s1 s2 : moved s0 s1 → moved s1 s2 → moved s0 s2.
Proof.
  intros H1 H2 id u Hu. destruct (H1 _ _ Hu) as (v & Hv & Huv), (H2 _ _ Hv) as (w & Hw & Hvw).
  exists w. split; [done|by etrans].
Qed.

Definition ledger (s0 s : Shop) : Prop := ledger_ok s ∧ moved s0 s.

(** The unique indexes look at these fields only. *)
Definition good_change (v w : ConversionRow) : Prop :=
  moved_row v w ∧ (counts (cv_status w) = true → counts (cv_status v) = true) ∧
  (cv_status w = PaidOut → cv_status v = PaidOut ∨ cv_payout_ref w ≠ "" ∧ is_Some (cv_paid_at w)).

Lemma ledger_same s0 s s' : sh_conversions s' = sh_conversions s → ledger s0 s → ledger s0 s'.
Proof. unfold ledger, moved. intros E [[A B C] M]. split; [split|]; rewrite E; auto. Qed.

Lemma lookup_update (p : string → ConversionRow → bool) f (t : gmap string ConversionRow) i w :
  map_imap (λ id v, Some (if p id v then f v else v)) t !! i = Some w →
  ∃ v, t !! i = Some v ∧ (p i v = true ∧ w = f v ∨ p i v = false ∧ w = v).
Proof.
  rewrite map_lookup_imap. destruct (t !! i) as [v|]; cbn; [|done]. intros [= <-]. exists v. split; [done|].
  destruct (p i v); auto.
Qed.

Lemma preserves_update label p f s0 :
  (∀ t id v, p id v = true → good_change v (f t v)) → preserves (ledger s0) (update_conversions label p f).
Proof.
  intros Hf. apply preserves_try, preserves_effect. intros st s x s' [[A B C] M] [= _ <-]. unfold ledger.
  set (t := map_imap _ _).
  assert (Ht : ∀ i w, t !! i = Some w → ∃ v, sh_conversions s !! i = Some v ∧ (w = v ∨ good_change v w)).
  { intros i w (v & Hv & [[Hp ->]|[_ ->]])%lookup_update; eauto. }
  assert (Hfields : ∀ v w, w = v ∨ good_change v w → cv_kind w = cv_kind v ∧ cv_order_id w = cv_order_id v ∧
    cv_friend_email w = cv_friend_email v ∧ (counts (cv_status w) = true → counts (cv_status v) = true)).
  { intros v w [->|((Hs & _) & Hc & _)]; [done|]. unfold same_reward in Hs. intuition. }
  split; [split|]; cbn.
  - intros i j w1 w2 (v1 & H1 & E1)%Ht (v2 & H2 & E2)%Ht Ek Eo.
    destruct (Hfields _ _ E1) as (K1 & O1 & _), (Hfields _ _ E2) as (K2 & O2 & _). eapply A; [exact H1|exact H2|congruence..].
  - intros i j w1 w2 (v1 & H1 & E1)%Ht (v2 & H2 & E2)%Ht C1 C2 Ee Ek.
    destruct (Hfields _ _ E1) as (K1 & _ & M1 & D1), (Hfields _ _ E2) as (K2 & _ & M2 & D2).
    eapply B; [exact H1|exact H2|auto..|congruence]. by rewrite <- M1, <- M2.
  - intros i w (v & Hv & [->|((_ & Hp & _) & _ & Hn)])%Ht Hw; [eauto|].
    destruct (Hn Hw) as [Hpv|]; [|done]. destruct (Hp Hpv) as (_ & -> & ->). eauto.
  - eapply moved_trans; [exact M|]. intros i v Hv. cbn. unfold t. rewrite map_lookup_imap, Hv. cbn. eexists. split; [done|].
    destruct (p i v) eqn:Ep; [apply (Hf _ _ _ Ep)|done].
Qed.

Lemma nonblank_clip s n : trim_space s ≠ "" → 0 < n → clip s n ≠ "".
Proof.
  intros Hs Hn. unfold clip. case_match; [|done]. unfold first_bytes. intros E.
  destruct (to_bytes (trim_space s)) as [|a r] eqn:Et.
  - by rewrite <- (of_to_bytes (trim_space s)), Et in Hs.
  - destruct (Z.to_nat n) eqn:En; [lia|]. done.
Qed.

(** What the staff can do to a reward. *)
Lemma action_good a bulk who t v :
  action_refused bulk a = None → action_from a (cv_status v) = true → good_change v (action_apply a who t v).
Proof.
  intros Hr Hf. assert (Hne : cv_status v ≠ PaidOut ∧ cv_status v ≠ Reversed) by (destruct a, (cv_status v); done).
  destruct Hne as [H1 H2].
  split; [|split].
  - split; [by destruct a|]. split; [by intros|by intros].
  - destruct a, (cv_status v); done.
  - destruct a; try done. cbn. intros _. right. split; [|eauto].
    cbn in Hr. destruct (String.eqb_spec (trim_space payout_ref) ""); [done|]. by apply nonblank_clip.
Qed.

Lemma reverse_good v reason : owed_status (cv_status v) = true → good_change v (set_status v Reversed reason).
Proof. intros Ho. split; [split; [done|]|split; [done|done]]. split; intros E; by rewrite E in Ho. Qed.

Lemma flag_good v flags : cv_status v = PaidOut → good_change v (set_flags v flags).
Proof. intros E. split; [split; [done|]|split; [done|by left]]. split; [done|by rewrite E]. Qed.

Lemma preserves_insert row s0 :
  (∀ t, cv_status (row t) = Pending) → preserves (ledger s0) (insert_conversion row).
Proof.
  intros Hp. apply preserves_try, preserves_effect. intros st s x s' Hl. specialize (Hp (st_time st)).
  cbv zeta beta. set (v := row (st_time st)) in *. destruct (negb (known_kind (cv_kind v))); [done|].
  destruct (some_row (sh_conversions s) (same_purchase (cv_kind v) (cv_order_id v))) eqn:Eo; [by intros [= _ <-]|].
  destruct (some_row (sh_conversions s) (same_friend (cv_friend_email v) (cv_kind v))) eqn:Ef; [done|]. cbn [orb].
  case_bool_decide as En; [done|]. intros [= _ <-]. destruct Hl as [[A B C] M]. unfold ledger.
  rewrite some_row_false in Eo, Ef. cbv beta in Eo, Ef.
  assert (Hfresh : sh_conversions s !! st_fresh st = None) by (by apply eq_None_not_Some).
  split; [split|]; cbn.
  - intros i j v1 v2 [[<- <-]|[Hi H1]]%lookup_insert_Some [[<- <-]|[Hj H2]]%lookup_insert_Some Ek Eo'; try done; [..|eauto].
    + specialize (Eo _ _ H2). unfold same_purchase in Eo. fold v in Ek, Eo'. by rewrite Ek, Eo', !String.eqb_refl in Eo.
    + specialize (Eo _ _ H1). unfold same_purchase in Eo. fold v in Ek, Eo'. by rewrite Ek, Eo', !String.eqb_refl in Eo.
  - intros i j v1 v2 [[<- <-]|[Hi H1]]%lookup_insert_Some [[<- <-]|[Hj H2]]%lookup_insert_Some C1 C2 Ee Ek; try done; [..|eauto].
    + specialize (Ef _ _ H2). unfold same_friend in Ef. fold v in Ek, Ee. by rewrite Ek, Ee, !String.eqb_refl, C2 in Ef.
    + specialize (Ef _ _ H1). unfold same_friend in Ef. fold v in Ek, Ee. by rewrite Ek, Ee, !String.eqb_refl, C1 in Ef.
  - intros i w [[<- <-]|[Hi H1]]%lookup_insert_Some Hw; [|eauto]. fold v in Hw. congruence.
  - eapply moved_trans; [exact M|]. intros i w Hw. exists w. split; [|done].
    cbn. rewrite lookup_insert_ne; [done|]. intros <-. congruence.
Qed.

Lemma preserves_query {A} label (f : Stamp → Shop → option A) I : preserves I (query label f).
Proof. apply preserves_try, preserves_effect. intros st s x s' Hs. destruct (f st s); by intros [= _ <-]. Qed.

Lemma preserves_post b m s0 : preserves (ledger s0) (post b m).
Proof.
  intros w n s r n' s' Ho Hs. destruct b; cbn; [|by intros [= _ _ <-]]. intros [= _ _ <-].
  eapply ledger_same; [|by apply Ho]. done.
Qed.

Lemma preserves_audit who action target detail s0 : preserves (ledger s0) (audit who action target detail).
Proof.
  unfold audit. preserves_steps. apply preserves_effect. intros st s x s' Hs [= _ <-]. by apply (ledger_same _ s).
Qed.

#[local] Hint Resolve preserves_query preserves_post preserves_audit : service.
#[local] Opaque audit insert_conversion update_conversions.

(** What touches the ledger. *)
Inductive LedgerRequest :=
  | Book (h : ReferralHandler) (b : Purchase)
  | Refund (kind order reason : string)
  | Decide (who id : string) (body : option ActionInput)
  | DecideAll (who : string) (body : option (list string * ActionInput)).

Definition serve_ledger (r : LedgerRequest) : Svc Shop unit :=
  match r with
  | Book h b => RecordConversion h b
  | Refund kind order reason => ReverseConversion kind order reason
  | Decide who id body => _ <- UpdateConversion who id body;; return_ tt
  | DecideAll who body => _ <- BulkUpdate who body;; return_ tt
  end.

Lemma ledger_kept r s0 : preserves (ledger s0) (serve_ledger r).
Proof.
  destruct r as [h b|kind order reason|who id body|who body]; cbn [serve_ledger].
  - unfold RecordConversion, program, notifyEarned, panic. preserves_steps. by apply preserves_insert.
  - unfold ReverseConversion. preserves_steps; apply preserves_update.
    + intros _ _ v [_ Ho]%andb_true_iff. by apply reverse_good.
    + intros _ _ v [_ Ho%bool_decide_eq_true]%andb_true_iff. by apply flag_good.
  - unfold UpdateConversion. preserves_steps. apply preserves_update.
    intros t k v [_ Ho]%andb_true_iff. by eapply action_good.
  - unfold BulkUpdate. preserves_steps. apply preserves_update.
    intros t k v [_ Ho]%andb_true_iff. by eapply action_good.
Qed.

(** Requests one after another; a panic ends its own only. *)
Fixpoint serve_all (l : list LedgerRequest) : Svc Shop unit :=
  match l with
  | [] => return_ tt
  | r :: l => _ <- try (serve_ledger r);; serve_all l
  end.

(** C25.  However bookings, refunds and staff decisions interleave, fail and repeat: a
    purchase never owes two rewards, a friend's purchases of one kind owe one
    unless it was reversed, a paid reward has its payout reference, and every
    reward stays with its referrer and its amounts, paid stays paid, reversed
    stays reversed. *)
Theorem ledger_sound l s0 w n s x n' s' :
  (∀ n s, ledger s0 s → ledger s0 (others w n s)) → ledger s0 s → serve_all l w n s = (x, n', s') → ledger s0 s'.
Proof.
  intros Ho Hs H. revert H. enough (Hp : preserves (ledger s0) (serve_all l)) by (by apply Hp).
  induction l as [|r l IH]; cbn [serve_all]; [apply preserves_return|].
  apply preserves_then; [apply preserves_try, ledger_kept|by intros _].
Qed.
End Ledger.

(** ** What a checkout is quoted *)

Section Quotes.
Context {PL : PgLower}.

Definition buyer_address (email : string) : string := to_lower (trim_space email).

(** A quote for a referrer, and why it was given. *)
Record quoted (s : Shop) (code email phone : string) (amount : Z) (q : referralQuote) : Prop := {
  qd_program : ∃ p, sh_program s = Some p ∧ IsActive p = true ∧ MinOrderPaise p ≤ amount ∧
    q_DiscountPaise q = quote_discount p amount;
  qd_referrer : ∃ r, sh_referrers s !! q_ReferrerID q = Some r ∧ rf_code r = q_Code q ∧ rf_is_blocked r = false ∧
    (buyer_address email ≠ "" → buyer_address email ≠ pg_lower (rf_email r));
  qd_code : q_Code q = normalizeCode code ∧ q_Code q ≠ "";
}.

Lemma query_alone {A} label (f : Stamp → Shop → option A) w n s r n' s' :
  alone w → query label f w n s = (inl r, n', s') →
  n' = (n + 1)%nat ∧ s' = s ∧ ((∃ x, r = inl x ∧ f (stamp w n) s = Some x) ∨ ∃ e, r = inr e).
Proof.
  intros Ho H. apply try_effect_alone in H as (-> & [[-> ->]|(x & Hx & Hr)]); [by eauto 10| |done].
  destruct (f (stamp w n) s) as [y|] eqn:E; [|done]. injection Hx as <- <-. destruct Hr as [->| ->]; eauto 10.
Qed.

Lemma by_code_found st s c id r : by_code st s c = Some (id, r) → sh_referrers s !! id = Some r ∧ rf_code r = c.
Proof. intros [H E%String.eqb_eq]%first_row_found. done. Qed.

Lemma Quote_spec code email phone amount w n s q n' s' :
  alone w → Quote code email phone amount w n s = (inl q, n', s') →
  s' = s ∧ (q = no_quote ∨ quoted s code email phone amount q).
Proof.
  intros Ho. unfold Quote, program. destruct (String.eqb_spec (normalizeCode code) "") as [|Hc]; [by intros [= <- <- <-]; auto|].
  intros H. svc_bind H p n1 s1 Hp. apply query_alone in Hp as (-> & -> & [(x & -> & Hx)|[e ->]]); [..|done];
    [|by injection H as <- <- <-; auto].
  destruct (IsActive x) eqn:Ha; cbn [negb] in H; [|by injection H as <- <- <-; auto].
  svc_bind H f n2 s2 Hf. apply query_alone in Hf as (-> & -> & [(y & -> & [= <-])|[e ->]]); [..|done];
    [|by injection H as <- <- <-; auto].
  destruct (by_code _ s _) as [[id r]|] eqn:Er; [|by injection H as <- <- <-; auto].
  apply by_code_found in Er as [Hr Ec].
  destruct (rf_is_blocked r) eqn:Hb; [by injection H as <- <- <-; auto|].
  destruct (negb _ && _) eqn:Hself; [by injection H as <- <- <-; auto|].
  destruct (Z.ltb_spec amount (MinOrderPaise x)); [by injection H as <- <- <-; auto|].
  injection H as <- <- <-. split; [done|right]. split; cbn; [by eauto| |done].
  exists r. split_and!; try done. intros Hne Heq. fold (buyer_address email) in Hself.
  rewrite <- Heq, String.eqb_refl, andb_true_r in Hself. apply negb_false_iff, String.eqb_eq in Hself. done.
Qed.

End Quotes.

(** ** From a new link back to its owner *)

Section Links.
Context {PL : PgLower} {R : Random} {AD : Addresses}.

Lemma unique_attempts_valid fuel stem w n s c n' s' :
  alone w → forallb is_upper_alnum stem = true → (3 ≤ length stem ≤ 6)%nat →
  unique_attempts fuel stem w n s = (inl (inl c), n', s') → s' = s ∧ valid_code (to_bytes c).
Proof.
  intros Ho Hs Hl. revert n. induction fuel as [|fuel IH]; intros n; cbn [unique_attempts]; [by intros [= ]|].
  intros H. svc_bind H raw n1 s1 Hr. injection Hr as <- <- <-. destruct (randomToken n 8) as [raw|]; [|done].
  svc_bind H e n2 s2 He. apply query_alone in He as (-> & -> & [(x & -> & _)|[err ->]]); [..|done]; [|done].
  destruct x; [by apply IH in H|]. injection H as <- <- <-. split; [done|]. rewrite to_of_bytes. by apply drawn_valid.
Qed.

Lemma uniqueCode_valid name w n s c n' s' :
  alone w → uniqueCode name w n s = (inl (inl c), n', s') →
  s' = s ∧ valid_code (to_bytes c) ∧ is_Some (first_field (name +:+ " ")).
Proof.
  intros Ho. unfold uniqueCode. destruct (code_stem name) as [stem|] eqn:E; [|done].
  destruct (code_stem_plain _ _ E) as [Hs Hl]. intros H. destruct (unique_attempts_valid _ _ _ _ _ _ _ _ Ho Hs Hl H).
  split_and!; try done. unfold code_stem in E. by destruct (first_field (name +:+ " ")).
Qed.

(** The row a first visit creates. *)
Definition new_row (s s' : Shop) (c name : string) : Prop :=
  ∃ id row, sh_referrers s' = <[id := row]> (sh_referrers s) ∧ rf_code row = c ∧ rf_name row = name ∧
    rf_is_blocked row = false ∧ (∀ i r, sh_referrers s !! i = Some r → rf_code r ≠ c) ∧ sh_program s' = sh_program s.

Lemma insert_referrer_new row f w n s c n' s' :
  alone w → (∀ i r, sh_referrers s !! i = Some r → rf_email r ≠ rf_email row) →
  insert_referrer row f w n s = (inl (inl c), n', s') →
  c = rf_code row ∧ sh_referrers s' = <[new_id w n := row]> (sh_referrers s) ∧
  (∀ i r, sh_referrers s !! i = Some r → rf_code r ≠ c) ∧ sh_program s' = sh_program s.
Proof.
  intros Ho Hfree H. apply try_effect_alone in H as (-> & [[_ E]|(x & Hx & [E|E])]); try discriminate E; [|done].
  injection E as <-. destruct (first_row _ _ _) as [[i r]|] eqn:Er.
  { apply first_row_found in Er as [Hr E%String.eqb_eq]. by destruct (Hfree i r). }
  destruct (some_row _ _) eqn:Es; [done|]. cbn [orb] in Hx. case_bool_decide; [done|]. injection Hx as <- <-.
  split_and!; try done. intros i r Hr E. rewrite some_row_false in Es. specialize (Es _ _ Hr). by rewrite E, String.eqb_refl in Es.
Qed.

Lemma join_new_created h p name email phone w n s c name' n' s' :
  alone w → (∀ i r, sh_referrers s !! i = Some r → rf_email r ≠ email) →
  join_new h p name email phone w n s = (inl (write 200 (linkPayload h c name' p true)), n', s') →
  name' = name ∧ new_row s s' c name ∧ valid_code (to_bytes c) ∧ is_Some (first_field (name +:+ " ")).
Proof.
  intros Ho Hfree. unfold join_new. intros H. svc_bind H drawn n1 s1 Hc.
  destruct drawn as [c1|]; [|done]. apply uniqueCode_valid in Hc as (-> & Hv & Hf); [|done].
  svc_bind H u n2 s2 Hu. apply query_alone in Hu as (-> & -> & _); [|done].
  svc_bind H st n3 s3 Hst. destruct st as [c2|]; [|done]. apply insert_referrer_new in Hst as (-> & E1 & E2 & E3); [|done|done].
  svc_bind H pm n4 s4 Hpm. injection H as Ec _ En <- <-. subst c name'. split; [done|]. split; [|done].
  assert (E4 : sh_referrers s4 = sh_referrers s3 ∧ sh_program s4 = sh_program s3).
  { destruct (mailer_enabled h); injection Hpm as <- <- <-; [by rewrite Ho|done]. }
  destruct E4 as [E4 E5]. eexists _, _. rewrite E4, E5, E1. split; [done|]. split_and!; done.
Qed.

Lemma limited_alone l lim key w n s r n' s' :
  alone w → limited l lim key w n s = (inl r, n', s') →
  sh_referrers s' = sh_referrers s ∧ sh_program s' = sh_program s.
Proof. intros Ho. unfold limited, in_memory. destruct (allow _ _ _ _). intros [= <- <- <-]. cbn. by rewrite !Ho. Qed.

(** The link handed to a new referrer works: whatever host it is on, reading the
    code out of it and resolving it greets with the referrer's first name. *)
Theorem joined_link_resolves h ip req c name p w n s n' s' w2 m :
  alone w → calm w2 → (∀ x, pg_lower (to_lower x) = to_lower x) → sh_program s = Some p →
  handleJoin h ip (Some req) w n s = (inl (write 200 (linkPayload h c name p true)), n', s') →
  ∃ first k, first_field (name +:+ " ") = Some first ∧
    handleResolve (link h c) w2 m s' =
      (inl (write 200 [("valid", VBool true); ("firstName", VStr first);
         ("friendDiscountPercent", VFloat (FriendDiscountPercent p)); ("attributionDays", VInt (AttributionDays p))]), k, s').
Proof.
  intros Ho Hc Hlow Hp H. unfold handleJoin, program in H. svc_bind H a n1 s1 H1. apply limited_alone in H1 as [R1 P1]; [|done].
  destruct a; [|done]. cbn [negb] in H. destruct (negb (String.eqb _ "")) in H; [done|].
  destruct (String.eqb _ "") in H; [done|]. destruct (negb (bool_decide _)) in H; [done|].
  svc_bind H a n2 s2 H2. apply limited_alone in H2 as [R2 P2]; [|done]. destruct a; [|done]. cbn [negb] in H.
  svc_bind H p1 n3 s3 H3. apply query_alone in H3 as (-> & -> & [(x & -> & Hx)|[e ->]]); [..|done]; [|done].
  assert (x = p) as -> by congruence.
  destruct (IsActive p) eqn:Ha; [|done]. cbn [negb] in H.
  svc_bind H known n4 s4 H4. apply query_alone in H4 as (-> & -> & [(x & -> & [= <-])|[e ->]]); [..|done]; [|done].
  destruct (first_row _ _ _) as [[i r]|] eqn:Er; [by destruct (rf_is_blocked r)|].
  assert (Hfree : ∀ i r, sh_referrers s2 !! i = Some r → rf_email r ≠ to_lower (clip (trim_space (ji_Email req)) 200)).
  { rewrite first_row_none in Er. intros i r Hr E. specialize (Er _ _ Hr). cbv beta in Er.
    by rewrite E, Hlow, String.eqb_refl in Er. }
  apply join_new_created in H as (-> & (id & row & E1 & E2 & E3 & E4 & E5 & E6) & Hv & [first Hf]); [|done|done].
  exists first, (m + 1 + 1)%nat. split; [done|]. unfold handleResolve, program, link.
  assert (Ec : normalizeCode (siteBase h +:+ "/r/" +:+ c) = c).
  { rewrite <- (of_to_bytes c) at 2. rewrite <- (normalizeCode_link (to_bytes (siteBase h)) (to_bytes c)) by done.
    f_equal. rewrite <- (of_to_bytes (siteBase h +:+ _)). by rewrite !to_bytes_app. }
  rewrite Ec. destruct (String.eqb_spec c "") as [->|_]; [by destruct Hv|].
  assert (Hby : ∀ st, by_code st s' c = Some (id, row)).
  { intros st. apply first_row_only; [by rewrite E1, lookup_insert_eq|by rewrite E2; apply String.eqb_refl|].
    intros j r Hr Hj%String.eqb_eq. rewrite E1 in Hr. apply lookup_insert_Some in Hr as [[-> _]|[_ Hr]]; [done|].
    by destruct (E5 j r). }
  assert (Hps : sh_program s' = Some p) by congruence.
  unfold then_, query, call, try. rewrite !effect_calm by done. rewrite Hps. cbn [fmap option_fmap option_map]. rewrite Ha. cbn [negb].
  rewrite effect_calm by done. rewrite Hby. cbn [fmap option_fmap option_map]. by rewrite E4, E3, Hf.
Qed.
End Links.
