(* ===== verification/Cashfree.v ===== *)
(** The payment gateway's client
    (services/api-gateway/graph/resolvers/cashfree.go): creating an order,
    asking whether it is paid, and verifying a webhook.

    Cashfree's answers are the interface [Gateway], which may answer
    differently at every step.  Amounts are whole paise in the shop and
    binary64 rupees on the wire. *)

From S2P Require Import Prelude GoStrings Float64 Gateway Service Shop.
From Stdlib Require Import Ascii.

#[local] Open Scope Z_scope.
#[local] Open Scope service_scope.

Record cashfree := { appID : string; secret : string; env : string; webhookBase : string }.

(** [envOr] over the process environment. *)
Definition envOr (getenv : string → string) (key fallback : string) : string :=
  if String.eqb (getenv key) "" then fallback else getenv key.

(** [strings.TrimRight(s, "/")] *)
Definition trim_slash (s : string) : string := of_bytes (trim_right (Ascii.eqb "/") (to_bytes s)).

Definition newCashfreeFromEnv (getenv : string → string) : cashfree :=
  let env := to_lower (trim_space (envOr getenv "CASHFREE_ENV" "sandbox")) in
  {| appID := trim_space (envOr getenv "CASHFREE_APP_ID" "");
     secret := trim_space (envOr getenv "CASHFREE_SECRET_KEY" "");
     env := if String.eqb env "production" then env else "sandbox";
     webhookBase := trim_slash (envOr getenv "PAYMENT_WEBHOOK_BASE" "") |}.

Definition enabled (c : cashfree) : bool := negb (String.eqb (appID c) "") && negb (String.eqb (secret c) "").
Definition sandbox (c : cashfree) : bool := negb (String.eqb (env c) "production").

Definition notifyURL (c : cashfree) (path : string) : string :=
  if has_prefix "https://" (webhookBase c) then webhookBase c +:+ path else "".

Record cashfreeCustomer := { cu_Name : string; cu_Email : string; cu_Phone : string }.

Record cashfreeOrderReq := {
  co_OrderID : string;
  co_AmountPaise : Z;
  co_Customer : cashfreeCustomer;
  co_Note : string;
  co_Tags : list (string * string);
  co_ReturnURL : string;
  co_NotifyURL : string;
}.

(** The JSON body of an order: POST /orders. *)
Record OrderBody := {
  ob_order_id : string;
  ob_order_amount : float64;
  ob_customer_id : string;
  ob_customer_name : string;
  ob_customer_email : string;
  ob_customer_phone : string;
  ob_order_note : string;
  ob_order_tags : list (string * string);
  ob_return_url : option string;
  ob_notify_url : option string;
}.

Record WebhookBody := {
  wb_Type : string;
  wb_OrderID : string;
  wb_CFPaymentID : string;      (* the JSON text of the id *)
  wb_PaymentStatus : string;
  wb_PaymentAmount : float64;
}.

(** What the service answers at step [n]: [None] is an error. *)
Class CashfreeAPI := {
  api_create : nat → OrderBody → option string;                 (* payment_session_id *)
  api_order : nat → string → option (string * float64);        (* order_status, order_amount *)
  api_payments : nat → string → option (list (string * string)); (* cf_payment_id, payment_status *)
  unmarshal_event : string → option WebhookBody;               (* json.Unmarshal of an event *)
}.

(** ** Amounts *)

(** [float64(paise) / 100] *)
Definition toRupees (paise : Z) : float64 := fdiv (of_Z paise) (of_Z 100).

Definition toPaise (rupees : float64) : Z := to_Z (fround (fmul rupees (of_Z 100))).

(** ** Identifiers and numbers *)

Definition quote_mark : ascii := ascii_of_nat 34.

(** [strings.Trim(strings.TrimSpace(s), quote)] *)
Definition rawID (m : string) : string :=
  of_bytes (trim_right (Ascii.eqb quote_mark) (drop_while (Ascii.eqb quote_mark) (trim_space_bytes (to_bytes m)))).

(** The ten digits of an Indian mobile number. *)
Definition cashfreePhone (s : string) : option bytes :=
  let n := filter (λ a, is_digit_byte a = true) (to_bytes s) in
  let n :=
    if bool_decide (length n = 12%nat) && bool_decide (firstn 2 n = to_bytes "91") then skipn 2 n
    else if bool_decide (length n = 11%nat) && bool_decide (firstn 1 n = to_bytes "0") then skipn 1 n
    else n in
  match n with
  | a :: _ => if negb (bool_decide (length n = 10%nat)) || (code a <? 54)%nat then None else Some n
  | [] => None
  end.

(** ** Orders *)

Inductive PaidResult := NotPaid | LookupFailed | PaidFor (paymentID : string) (paise : Z).

Section Client.
Context {CF : CashfreeAPI} {D : Digests}.

Definition cashfreeCustomerID (email : string) : string :=
  "k" +:+ of_bytes (firstn 31 (to_bytes (sha256Hex (to_lower email)))).

Definition order_body (c : cashfree) (o : cashfreeOrderReq) : OrderBody :=
  {| ob_order_id := co_OrderID o; ob_order_amount := toRupees (co_AmountPaise o);
     ob_customer_id := cashfreeCustomerID (cu_Email (co_Customer o)); ob_customer_name := cu_Name (co_Customer o);
     ob_customer_email := cu_Email (co_Customer o); ob_customer_phone := cu_Phone (co_Customer o);
     ob_order_note := clip (co_Note o) 200; ob_order_tags := co_Tags o;
     ob_return_url :=
       if has_prefix "https://" (co_ReturnURL o) || (sandbox c && has_prefix "http://" (co_ReturnURL o))
       then Some (co_ReturnURL o) else None;
     ob_notify_url := if String.eqb (co_NotifyURL o) "" then None else Some (co_NotifyURL o) |}.

(** [createOrder]: an answer without a session id is an error. *)
Definition createOrder (c : cashfree) (o : cashfreeOrderReq) : Svc Shop (option string) :=
  draw (λ n, id_ ← api_create n (order_body c o); if String.eqb id_ "" then None else Some id_).

Definition paidOrder (orderID : string) : Svc Shop PaidResult :=
  order <- draw (λ n, api_order n orderID);;
  match order with
  | None => return_ LookupFailed
  | Some (status, amount) =>
      if negb (String.eqb status "PAID") then return_ NotPaid
      else
        payments <- draw (λ n, api_payments n orderID);;
        match payments with
        | None => return_ LookupFailed
        | Some ps =>
            match head (filter (λ p, snd p = "SUCCESS") ps) with
            | Some (id_, _) => return_ (PaidFor (rawID id_) (toPaise amount))
            | None => return_ NotPaid
            end
        end
  end.

(** ** Webhooks *)

Record WebhookRequest := { wr_body : string; wr_timestamp : string; wr_signature : string }.

Record cashfreeEvent := { ev_Type : string; ev_OrderID : string; ev_PaymentID : string; ev_Status : string; ev_PaidPaise : Z }.

Definition validCashfreeSignature (body timestamp signature secret : string) : bool :=
  if String.eqb timestamp "" || String.eqb signature "" || String.eqb secret "" then false
  else String.eqb (hmac_base64 secret (timestamp +:+ body)) (trim_space signature).

Definition parseWebhook (c : cashfree) (r : WebhookRequest) : cashfreeEvent + string :=
  if negb (validCashfreeSignature (wr_body r) (wr_timestamp r) (wr_signature r) (secret c)) then inr "bad signature"
  else
    match unmarshal_event (wr_body r) with
    | None => inr "invalid json"
    | Some b =>
        inl {| ev_Type := wb_Type b; ev_OrderID := wb_OrderID b; ev_PaymentID := rawID (wb_CFPaymentID b);
               ev_Status := wb_PaymentStatus b; ev_PaidPaise := toPaise (wb_PaymentAmount b) |}
    end.

Definition succeeded (e : cashfreeEvent) : bool :=
  String.eqb (ev_Type e) "PAYMENT_SUCCESS_WEBHOOK" && String.eqb (ev_Status e) "SUCCESS"
  && negb (String.eqb (ev_OrderID e) "") && negb (String.eqb (ev_PaymentID e) "").
End Client.

Example phone_prefix : cashfreePhone "+91 98765 43210" = Some (to_bytes "9876543210").
Proof. vm_compute. reflexivity. Qed.
Example phone_zero : cashfreePhone "09876543210" = Some (to_bytes "9876543210").
Proof. vm_compute. reflexivity. Qed.
Example phone_low : cashfreePhone "5876543210" = None.
Proof. vm_compute. reflexivity. Qed.
Example paise_8999_99 : toPaise (toRupees 899999) = 899999.
Proof. vm_compute. reflexivity. Qed.

(** A number without its [math.Round] would lose a paisa. *)
Example truncated_19_99 : to_Z (fmul (toRupees 1999) (of_Z 100)) = 1998.
Proof. vm_compute. reflexivity. Qed.

(** ** An amount survives the wire *)

(** Rounding errs by half of the last of 53 places at most, or half of the
    smallest number. *)
Lemma rscale_error n d :
  0 < n → 0 < d → 2 ^ 53 * Z.abs (rscale n d * d - n * 2 ^ 1074) ≤ n * 2 ^ 1074 + 2 ^ 52 * d.
Proof.
  intros Hn Hd. unfold rscale. pose proof (last_place_spec n d Hn Hd) as (Hk & _ & Hlo).
  set (k := last_place n d + 1074) in *. set (U := 2 ^ 1074) in *.
  assert (Hpk : 0 < 2 ^ k) by (apply pow2_pos; lia).
  pose proof (rne_spec (n * U) (d * 2 ^ k) ltac:(nia)) as Hr. set (r := rne _ _) in *.
  assert (Herr : 2 * Z.abs (r * 2 ^ k * d - n * U) ≤ d * 2 ^ k) by lia.
  assert (Hulp : 2 ^ 52 * (d * 2 ^ k) ≤ n * U + 2 ^ 52 * d).
  { destruct (Z.eq_dec k 0) as [E|].
    - rewrite E, Z.mul_1_r. assert (0 ≤ n * U) by (apply Z.mul_nonneg_nonneg; [lia|apply Z.pow_nonneg; lia]). lia.
    - specialize (Hlo ltac:(lia)). rewrite Z.pow_add_r in Hlo by lia. lia. }
  lia.
Qed.

(** Every amount up to 2^50 paise that is sent as rupees reads back. *)
Theorem toPaise_toRupees p : 0 ≤ p ≤ 2 ^ 50 → toPaise (toRupees p) = p.
Proof.
  intros Hp. destruct (Z.eq_dec p 0) as [->|Hp0]; [vm_compute; reflexivity|].
  pose proof (of_Z_spec p ltac:(lia)) as [Hfp Hsp]. pose proof (of_Z_spec 100 ltac:(lia)) as [Hfc Hsc].
  assert (HU : 2 ^ 60 < 2 ^ 1074) by (apply Z.pow_lt_mono_r; lia).
  assert (HUU : 2 ^ 2148 = 2 ^ 1074 * 2 ^ 1074) by (rewrite <- Z.pow_add_r by lia; f_equal; lia).
  assert (Hmax : 2 ^ 60 * 2 ^ 1074 < fmax_scale).
  { unfold fmax_scale. rewrite <- Z.pow_add_r by lia. apply Z.pow_lt_mono_r; lia. }
  unfold toPaise, toRupees. set (U := 2 ^ 1074) in *.
  assert (Hnp : nneg (of_Z p)) by (split; [done|nia]). assert (Hnc : nneg (of_Z 100)) by (split; [done|nia]).
  pose proof (rscale_error (p * U) (100 * U) ltac:(nia) ltac:(nia)) as He1. fold U in He1.
  pose proof (rscale_ge_0 (p * U) (100 * U) ltac:(nia) ltac:(nia)) as Hx0.
  assert (Hlt1 : rscale (p * U) (100 * U) < fmax_scale).
  { apply Z.le_lt_trans with (2 ^ 51 * 2 ^ 1074); [|lia]. apply rscale_le_rep; fold U; nia. }
  destruct (fdiv_spec (of_Z p) (of_Z 100) Hnp Hnc ltac:(rewrite Hsc; nia) ltac:(by rewrite Hsp, Hsc)) as [Hx Hsx].
  rewrite Hsp, Hsc in Hsx. set (x := rscale (p * U) (100 * U)) in *.
  assert (Hx1 : 2 ^ 53 * Z.abs (x * 100 - p * U) ≤ p * U + 2 ^ 52 * 100).
  { replace (x * (100 * U) - p * U * U) with ((x * 100 - p * U) * U) in He1 by ring. rewrite Z.abs_mul in He1.
    rewrite (Z.abs_eq U) in He1 by lia. nia. }
  assert (Hx100 : 0 < x * 100) by lia.
  pose proof (rscale_error (x * (100 * U)) (2 ^ 2148) ltac:(nia) ltac:(nia)) as He2. fold U in He2. rewrite HUU in He2.
  assert (Hsm : sval (fdiv (of_Z p) (of_Z 100)) * sval (of_Z 100) = x * (100 * U)) by (rewrite Hsx, Hsc; done).
  assert (Hlt : rscale (x * (100 * U)) (2 ^ 2148) < fmax_scale).
  { apply Z.le_lt_trans with (2 ^ 52 * 2 ^ 1074); [|lia]. apply rscale_le_rep; rewrite ?HUU; fold U; nia. }
  destruct (fmul_spec _ _ Hx Hnc ltac:(by rewrite Hsm)) as [Hy Hsy]. rewrite Hsm in Hsy.
  rewrite HUU in Hsy. set (y := rscale (x * (100 * U)) (U * U)) in *.
  assert (Hy1 : 2 ^ 53 * Z.abs (y - x * 100) ≤ x * 100 + 2 ^ 52).
  { replace (y * (U * U) - x * (100 * U) * U) with ((y - x * 100) * (U * U)) in He2 by ring.
    rewrite Z.abs_mul, (Z.abs_eq (U * U)) in He2 by nia. nia. }
  destruct (fround_spec _ Hy) as [Hr Hsr]. rewrite (to_Z_spec _ Hr), Hsr, Hsy. fold U.
  rewrite Z.div_mul by lia. symmetry. apply Z.div_unique_pos with (r := 2 * y + U - p * (2 * U)); lia.
Qed.
