(* ===== verification/Checkout.v ===== *)
(** Selling courses (services/api-gateway/graph/resolvers/enroll.go): an order
    is priced and stored, the gateway collects the money, and the browser's
    callback or the gateway's webhook, in either order and any number of
    times, enrols the student.

    A request body is its decoded input, [None] when it does not decode.  The
    transaction of [ensureStudent] is one call; the password and its hash are
    drawn before it. *)

From S2P Require Import Prelude GoStrings Float64 Gateway Service Shop Referral Cashfree.
From Stdlib Require Import Ascii.

#[local] Open Scope Z_scope.
#[local] Open Scope service_scope.

Record courseFee := { cf_Name : string; cf_SelfPaced : Z; cf_MentorLed : Z }.

Definition courseFees : gmap string courseFee :=
  list_to_map [
    ("5", {| cf_Name := "Full Stack Development"; cf_SelfPaced := 8999; cf_MentorLed := 14999 |});
    ("1", {| cf_Name := "Java Development"; cf_SelfPaced := 8999; cf_MentorLed := 14999 |});
    ("2", {| cf_Name := "Front-End Technologies"; cf_SelfPaced := 8999; cf_MentorLed := 14999 |});
    ("4", {| cf_Name := "Golang"; cf_SelfPaced := 8999; cf_MentorLed := 14999 |});
    ("genai", {| cf_Name := "GenAI & Forward Deployed Engineering"; cf_SelfPaced := 11999; cf_MentorLed := 18999 |});
    ("3", {| cf_Name := "Mastering SQL"; cf_SelfPaced := 4999; cf_MentorLed := 7999 |});
    ("digital-marketing", {| cf_Name := "Digital Marketing"; cf_SelfPaced := 5999; cf_MentorLed := 9999 |});
    ("seo", {| cf_Name := "AI SEO Specialist"; cf_SelfPaced := 5999; cf_MentorLed := 9999 |});
    ("testing", {| cf_Name := "Software Testing"; cf_SelfPaced := 5999; cf_MentorLed := 9999 |})].

Definition planNames (plan : string) : string :=
  if String.eqb plan "self" then "Self-Paced" else if String.eqb plan "mentor" then "Mentor-Led" else "".

Definition feeFor (courseID plan : string) : option (Z * string) :=
  f ← courseFees !! courseID;
  if String.eqb plan "self" then Some (cf_SelfPaced f, cf_Name f)
  else if String.eqb plan "mentor" then Some (cf_MentorLed f, cf_Name f)
  else None.

Record EnrollHandler := {
  en_pay : cashfree;
  en_mailer_enabled : bool;
  en_Referrals : option ReferralHandler;
  en_siteBase : string;
  en_limiter : option rateLimiter;
  en_emailLimiter : option rateLimiter;
}.

(** [rand.Int(rand.Reader, bound)]: the [i]th number drawn at step [n], and
    the salt of a hash. *)
Class Passwords := {
  rand_int : nat → nat → Z → option Z;
  rand_int_range n i bound z : rand_int n i bound = Some z → 0 ≤ z < bound;
  new_salt : nat → string;
}.

Definition password_alphabet : bytes := to_bytes "abcdefghjkmnpqrstuvwxyzABCDEFGHJKLMNPQRSTUVWXYZ23456789".

Definition password_letter {PW : Passwords} (n i : nat) : option ascii :=
  z ← rand_int n i (Z.of_nat (length password_alphabet));
  Some (nth (Z.to_nat z) password_alphabet "a"%char).

(** [generatePassword], drawn at step [n]. *)
Definition generatePassword {PW : Passwords} (n : nat) : option string :=
  of_bytes <$> mapM (password_letter n) (seq 0 12).

#[global] Instance OrderStatus_eq_dec : EqDecision OrderStatus.
Proof. solve_decision. Defined.

Definition set_od (r : OrderRow) (status : OrderStatus) (user : option string) (new : bool) (err : string) : OrderRow :=
  {| od_course_id := od_course_id r; od_course_name := od_course_name r; od_plan := od_plan r;
     od_amount_paise := od_amount_paise r; od_name := od_name r; od_email := od_email r; od_phone := od_phone r;
     od_status := status; od_user_id := user; od_new_account := new; od_error := err;
     od_referral_code := od_referral_code r; od_referral_discount := od_referral_discount r;
     od_referral_flags := od_referral_flags r; od_gateway_order_id := od_gateway_order_id r;
     od_gateway_payment_id := od_gateway_payment_id r |}.

Definition set_od_gateway (r : OrderRow) (order payment : option string) : OrderRow :=
  {| od_course_id := od_course_id r; od_course_name := od_course_name r; od_plan := od_plan r;
     od_amount_paise := od_amount_paise r; od_name := od_name r; od_email := od_email r; od_phone := od_phone r;
     od_status := od_status r; od_user_id := od_user_id r; od_new_account := od_new_account r; od_error := od_error r;
     od_referral_code := od_referral_code r; od_referral_discount := od_referral_discount r;
     od_referral_flags := od_referral_flags r; od_gateway_order_id := order; od_gateway_payment_id := payment |}.

Definition fail_order (err : string) (r : OrderRow) : OrderRow :=
  set_od r Failed (od_user_id r) (od_new_account r) err.
Definition pay_order (payment : string) (r : OrderRow) : OrderRow :=
  set_od_gateway (set_od r Paid (od_user_id r) (od_new_account r) (od_error r)) (od_gateway_order_id r) (Some payment).
Definition enrol_order (user : string) (new : bool) (r : OrderRow) : OrderRow :=
  set_od r Enrolled (Some user) new (od_error r).
Definition note_order (err : string) (r : OrderRow) : OrderRow :=
  set_od r (od_status r) (od_user_id r) (od_new_account r) err.
Definition name_order (gateway_id : string) (r : OrderRow) : OrderRow :=
  set_od_gateway r (Some gateway_id) (od_gateway_payment_id r).

(** UPDATE enrollment_orders … WHERE id = … *)
Definition alter_order (label id : string) (f : OrderRow → OrderRow) : Svc Shop (unit + string) :=
  update label (λ _ s, with_orders s (alter f id (sh_orders s))).

Definition is_gateway_order (oid : string) (r : OrderRow) : bool := bool_decide (od_gateway_order_id r = Some oid).

(** The order the gateway knows by this id; the column is unique. *)
Definition order_of (st : Stamp) (s : Shop) (oid : string) : option (string * OrderRow) :=
  first_row st (sh_orders s) (λ _ r, is_gateway_order oid r).

Record OrderInput := {
  oi_CourseID : string; oi_Plan : string; oi_Name : string; oi_Email : string; oi_Phone : string; oi_ReferralCode : string;
}.

Definition not_opened : Reply := fail 500 "could not start the payment — please try again".

Section Enrol.
Context {PL : PgLower} {D : Digests} {AD : Addresses} {CF : CashfreeAPI} {V : Vault} {PW : Passwords}.

(** INSERT INTO enrollment_orders … RETURNING id *)
Definition insert_order (row : OrderRow) : Svc Shop (string + string) :=
  call "insert order" (λ st s,
    match sh_orders s !! st_fresh st with
    | Some _ => None
    | None => Some (st_fresh st, with_orders s (<[st_fresh st := row]> (sh_orders s)))
    end).

Definition new_order (req : OrderInput) (name email phone courseName : string) (amount : Z) (q : referralQuote) : OrderRow :=
  {| od_course_id := oi_CourseID req; od_course_name := courseName; od_plan := oi_Plan req; od_amount_paise := amount;
     od_name := name; od_email := email; od_phone := phone; od_status := Created; od_user_id := None;
     od_new_account := false; od_error := ""; od_referral_code := q_Code q; od_referral_discount := q_DiscountPaise q;
     od_referral_flags := q_Flags q; od_gateway_order_id := None; od_gateway_payment_id := None |}.

(** Is someone with this address on the course? *)
Definition on_course (s : Shop) (email course : string) : bool :=
  existsb (λ uc, String.eqb (snd uc) course &&
    match sh_users s !! fst uc with
    | Some u => String.eqb (pg_lower (ac_email u)) email
    | None => false
    end) (base.elements (sh_courses s)).

Definition order_opened (oid session courseName plan : string) (h : EnrollHandler) (amount list_amount : Z)
    (q : referralQuote) : Reply :=
  write 200 [("order_id", VStr oid); ("payment_session_id", VStr session); ("mode", VStr (env (en_pay h)));
    ("amount", VInt amount); ("currency", VStr "INR"); ("course_name", VStr courseName);
    ("plan_name", VStr (planNames plan)); ("list_amount", VInt list_amount);
    ("referral_discount", VInt (q_DiscountPaise q)); ("referral_code", VStr (q_Code q))].

(** What the gateway is asked for. *)
Definition gateway_request (h : EnrollHandler) (req : OrderInput) (gatewayOrderID : string) (amountPaise : Z)
    (name email mobile courseName : string) : cashfreeOrderReq :=
  {| co_OrderID := gatewayOrderID; co_AmountPaise := amountPaise;
     co_Customer := {| cu_Name := name; cu_Email := email; cu_Phone := mobile |};
     co_Note := courseName +:+ " · " +:+ planNames (oi_Plan req);
     co_Tags := [("kind", "course"); ("course_id", oi_CourseID req); ("plan", oi_Plan req)];
     co_ReturnURL := en_siteBase h +:+ "/enroll?cf_order=" +:+ gatewayOrderID;
     co_NotifyURL := notifyURL (en_pay h) "/api/enroll/webhook" |}.

(** The part of [handleOrder] that writes. *)
Definition open_order (h : EnrollHandler) (req : OrderInput) (name email phone mobile courseName : string) (rupees : Z)
    : Svc Shop Reply :=
  let listed := rupees * 100 in
  q <- (match en_Referrals h with
        | Some _ => if String.eqb (oi_ReferralCode req) "" then return_ no_quote
                    else Quote (oi_ReferralCode req) email phone listed
        | None => return_ no_quote
        end);;
  let amountPaise := listed - q_DiscountPaise q in
  stored <- insert_order (new_order req name email phone courseName amountPaise q);;
  match stored with
  | inr _ => return_ not_opened
  | inl id =>
      let gatewayOrderID := "enr_" +:+ id in
      named <- alter_order "store gateway order id" id (name_order gatewayOrderID);;
      match named with
      | inr _ => return_ not_opened
      | inl _ =>
          session <- createOrder (en_pay h) (gateway_request h req gatewayOrderID amountPaise name email mobile courseName);;
          match session with
          | None =>
              _ <- alter_order "fail order" id (fail_order "cashfree");;
              return_ (fail 502 "the payment gateway did not respond — please try again in a minute")
          | Some session => return_ (order_opened gatewayOrderID session courseName (oi_Plan req) h amountPaise listed q)
          end
      end
  end.

Definition handleOrder (h : EnrollHandler) (ip : string) (body : option OrderInput) : Svc Shop Reply :=
  if negb (enabled (en_pay h)) then
    return_ (fail 503 "online payment is not available right now — please request a callback instead")
  else
    allowed <- limited "enroll ip" (en_limiter h) ip;;
    if negb allowed then
      return_ (fail 429 "too many attempts from this network — please try again in a few minutes")
    else
      match body with
      | None => return_ (fail 400 "invalid request")
      | Some req =>
          let name := clip (trim_space (oi_Name req)) 120 in
          let email := to_lower (clip (trim_space (oi_Email req)) 200) in
          let phone := clip (trim_space (oi_Phone req)) 30 in
          if String.eqb name "" then return_ (fail 400 "please enter your name")
          else if negb (bool_decide (ParseAddress email = Some email)) then
            return_ (fail 400 "please enter a valid email address — your login is sent there")
          else
            match cashfreePhone phone with
            | None =>
                return_ (fail 400 "please enter a valid 10-digit mobile number (it starts with 6, 7, 8 or 9) — the payment page needs it")
            | Some mobile =>
                allowed <- limited "enroll email" (en_emailLimiter h) email;;
                if negb allowed then return_ (fail 429 "too many attempts for this email — please try again later")
                else
                  match feeFor (oi_CourseID req) (oi_Plan req) with
                  | None => return_ (fail 400 "unknown course or plan")
                  | Some (rupees, courseName) =>
                      already <- query "already enrolled" (λ _ s, Some (on_course s email (oi_CourseID req)));;
                      match already with
                      | inl true =>
                          return_ (fail 409 ("this email is already enrolled in " +:+ courseName
                                             +:+ " — sign in to continue learning"))
                      | _ => open_order h req name email phone (of_bytes mobile) courseName rupees
                      end
                  end
            end
      end.

(** ** Payment *)

Inductive AmountCheck := AmountOk | NotOurOrder | AmountWrong.

(** [checkAmount] *)
Definition checkAmount (oid : string) (paid : Z) : Svc Shop AmountCheck :=
  want <- query "select amount" (λ st s, Some (od_amount_paise ∘ snd <$> order_of st s oid));;
  return_ (match want with
           | inl None => NotOurOrder
           | inr _ => AmountWrong
           | inl (Some want) => if want =? paid then AmountOk else AmountWrong
           end).

Record fulfilResult := {
  fr_Status : OrderStatus;
  fr_Email : string;
  fr_CourseName : string;
  fr_PlanName : string;
  fr_NewAccount : bool;
  fr_Emailed : bool;
}.

(** The statement only one caller wins: RETURNING the row it moved. *)
Definition mark_paid (oid payment : string) : Svc Shop (option (string * OrderRow) + string) :=
  call "mark order paid" (λ st s,
    match order_of st s oid with
    | Some (id, r) =>
        if bool_decide (od_status r = Created) || bool_decide (od_status r = Failed)
        then Some (Some (id, r), with_orders s (<[id := pay_order payment r]> (sh_orders s)))
        else Some (None, s)
    | None => Some (None, s)
    end).

Definition set_role (role password : string) (u : Account) : Account :=
  {| ac_email := ac_email u; ac_name := ac_name u; ac_password := password; ac_role := role; ac_phone := ac_phone u |}.

Definition new_student (email name hashed : string) : Account :=
  {| ac_email := email; ac_name := name; ac_password := hashed; ac_role := "student"; ac_phone := "" |}.

(** [ensureStudent]'s transaction: the account's id, and whether it was given
    the password. *)
Definition ensure_student (name email course : string) (hashed : option string) (st : Stamp) (s : Shop)
    : option (string * bool * Shop) :=
  let grant (id : string) (s : Shop) := with_courses s ({[(id, course)]} ∪ sh_courses s) in
  match user_by_email st s email with
  | None =>
      if some_row (sh_users s) (λ u, String.eqb (ac_email u) email)
         || bool_decide (is_Some (sh_users s !! st_fresh st)) then None
      else
        h ← hashed;
        Some (st_fresh st, true,
              grant (st_fresh st) (with_users s (<[st_fresh st := new_student email name h]> (sh_users s))))
  | Some (id, u) =>
      if String.eqb (ac_role u) "applicant" then
        h ← hashed; Some (id, true, grant id (with_users s (<[id := set_role "student" h u]> (sh_users s))))
      else Some (id, false, grant id s)
  end.

Definition ensureStudent (name email course : string) : Svc Shop (string * string * bool + string) :=
  password <- draw generatePassword;;
  salt <- draw new_salt;;
  done <- call "ensure student" (ensure_student name email course (password ≫= HashPassword salt));;
  return_ (match done with
           | inr e => inr e
           | inl (id, created) => inl (id, if created then default "" password else "", created)
           end).

(** [sendWelcome]: the mail goes out, or an error. *)
Definition sendWelcome (h : EnrollHandler) (name email password : string) : Svc Shop (unit + string) :=
  if negb (en_mailer_enabled h) then return_ (inr "email is not configured")
  else call "welcome mail" (λ _ s, Some (tt, with_mails s (sh_mails s ++ [WelcomeMail email name password]))).

Definition not_emailed (e : string) : string :=
  clip ("login email not sent — reset their password from Users and share it: " +:+ e) 500.

(** The stored outcome of an order that was handled before. *)
Definition stored_outcome (oid : string) : Svc Shop (fulfilResult + string) :=
  found <- query "select outcome" (λ st s, snd <$> order_of st s oid);;
  return_ (match found with
           | inr _ => inr "unknown order"
           | inl r =>
               inl {| fr_Status := od_status r; fr_Email := od_email r; fr_CourseName := od_course_name r;
                      fr_PlanName := planNames (od_plan r); fr_NewAccount := od_new_account r;
                      fr_Emailed := bool_decide (od_status r = Enrolled) && od_new_account r
                        && negb (has_prefix "login email not sent" (od_error r)) |}
           end).

(** The purchase a referrer is rewarded for. *)
Definition purchase_of (id : string) (r : OrderRow) : Purchase :=
  {| pu_kind := referralKindCourse; pu_order_id := id; pu_code := od_referral_code r; pu_friend_name := od_name r;
     pu_friend_email := od_email r; pu_item_name := od_course_name r; pu_flags := od_referral_flags r;
     pu_order_paise := od_amount_paise r; pu_discount_paise := od_referral_discount r |}.

Definition book_reward (h : EnrollHandler) (id : string) (r : OrderRow) : Svc Shop unit :=
  match en_Referrals h with
  | Some rh => if String.eqb (od_referral_code r) "" then return_ tt else RecordConversion rh (purchase_of id r)
  | None => return_ tt
  end.

Definition welcome (h : EnrollHandler) (id : string) (r : OrderRow) (password : string) (new : bool) : Svc Shop bool :=
  if negb new then return_ false
  else
    sent <- sendWelcome h (od_name r) (od_email r) password;;
    match sent with
    | inr e => _ <- alter_order "note order" id (note_order (not_emailed e));; return_ false
    | inl _ => return_ true
    end.

(** [fulfil] once this caller has moved the order. *)
Definition enrol (h : EnrollHandler) (id : string) (r : OrderRow) : Svc Shop (fulfilResult + string) :=
  student <- ensureStudent (od_name r) (od_email r) (od_course_id r);;
  match student with
  | inr e => _ <- alter_order "fail order" id (fail_order (clip e 500));; return_ (inr e)
  | inl (user, password, new) =>
      done <- alter_order "enrol order" id (enrol_order user new);;
      match done with
      | inr e => return_ (inr e)
      | inl _ =>
          emailed <- welcome h id r password new;;
          book_reward h id r;;
          return_ (inl {| fr_Status := Enrolled; fr_Email := od_email r; fr_CourseName := od_course_name r;
                          fr_PlanName := planNames (od_plan r); fr_NewAccount := new; fr_Emailed := emailed |})
      end
  end.

Definition fulfil (h : EnrollHandler) (oid payment : string) : Svc Shop (fulfilResult + string) :=
  moved <- mark_paid oid payment;;
  match moved with
  | inr e => return_ (inr e)
  | inl None => stored_outcome oid
  | inl (Some (id, r)) => enrol h id r
  end.

(** ** Requests *)

Definition status_name (s : OrderStatus) : string :=
  match s with Created => "created" | Paid => "paid" | Enrolled => "enrolled" | Failed => "failed" end.

Definition fulfilled (f : fulfilResult) : Reply :=
  write 200 [("status", VStr (status_name (fr_Status f))); ("email", VStr (fr_Email f));
    ("course_name", VStr (fr_CourseName f)); ("plan_name", VStr (fr_PlanName f));
    ("new_account", VBool (fr_NewAccount f)); ("emailed", VBool (fr_Emailed f))].

Definition handleVerify (h : EnrollHandler) (body : option string) : Svc Shop Reply :=
  if negb (enabled (en_pay h)) then return_ (fail 503 "online payment is not available")
  else
    match body with
    | None => return_ (fail 400 "invalid request")
    | Some oid =>
        if negb (has_prefix "enr_" oid) then return_ (fail 400 "invalid request")
        else
          paid <- paidOrder oid;;
          match paid with
          | NotPaid => return_ (fail 402 "the payment was not completed — no money was taken. Please try again")
          | LookupFailed =>
              return_ (fail 502 "we could not confirm your payment with the gateway yet — if money was deducted, it will be confirmed within a few minutes")
          | PaidFor payment paise =>
              check <- checkAmount oid paise;;
              match check with
              | NotOurOrder | AmountWrong =>
                  return_ (fail 400 ("the payment could not be matched to your order — contact us with order id " +:+ oid))
              | AmountOk =>
                  res <- fulfil h oid payment;;
                  return_ (match res with
                           | inr _ => fail 500 "your payment was received but we could not finish setting up your account — our team has been notified and will contact you"
                           | inl f => fulfilled f
                           end)
              end
          end
    end.

Definition acknowledged : Reply := write 200 [("ok", VBool true)].

Definition handleWebhook (h : EnrollHandler) (r : WebhookRequest) : Svc Shop Reply :=
  if negb (enabled (en_pay h)) then return_ (fail 404 "not found")
  else
    match parseWebhook (en_pay h) r with
    | inr msg => return_ (fail 400 msg)
    | inl ev =>
        if negb (succeeded ev) || negb (has_prefix "enr_" (ev_OrderID ev)) then return_ acknowledged
        else
          check <- checkAmount (ev_OrderID ev) (ev_PaidPaise ev);;
          match check with
          | NotOurOrder | AmountWrong => return_ acknowledged
          | AmountOk =>
              res <- fulfil h (ev_OrderID ev) (ev_PaymentID ev);;
              return_ (match res with inr _ => fail 500 "fulfilment failed" | inl _ => acknowledged end)
          end
    end.
End Enrol.

(** ** What computations leave alone *)

Section Frames.
Context {PL : PgLower} {D : Digests} {AD : Addresses} {CF : CashfreeAPI} {V : Vault} {PW : Passwords}.

(** A property of the state that the small steps keep. *)
Class Framed (I : Shop → Prop) : Prop := {
  framed_orders s x : I s → I (with_orders s x);
  framed_mails s x : I s → I (with_mails s x);
  framed_conversions s x : I s → I (with_conversions s x);
}.

Lemma preserves_update_framed (I : Shop → Prop) label f : (∀ st s, I s → I (f st s)) → preserves I (update label f).
Proof. intros Hf. apply preserves_try, preserves_effect. intros st s x s' Hs [= _ <-]. by apply Hf. Qed.

Lemma preserves_alter_order I `{!Framed I} label id f : preserves I (alter_order label id f).
Proof. apply preserves_update_framed. intros st s. apply framed_orders. Qed.

Lemma preserves_framed_post I `{!Framed I} b m : preserves I (post b m).
Proof.
  intros w n s r n' s' Ho Hs. destruct b; cbn; [|by intros [= _ _ <-]]. intros [= _ _ <-]. by apply framed_mails, Ho.
Qed.

Lemma preserves_framed_insert I `{!Framed I} row : preserves I (insert_conversion row).
Proof.
  apply preserves_try, preserves_effect. intros st s x s' Hs. cbv zeta beta.
  repeat (case_match; [try done; try (intros [= _ <-]; done)|]); intros; simplify_eq; try done; by apply framed_conversions.
Qed.

Lemma conversion_keeps_mail rh b m : preserves (λ s, m ∈ sh_mails s) (RecordConversion rh b).
Proof.
  assert (Hpost : ∀ b x, preserves (λ s, m ∈ sh_mails s) (post b x)).
  { intros d x w n s y n' s' Ho Hs. destruct d; cbn [post]; [|by intros [= _ _ <-]]. intros [= _ _ <-]. cbn. set_solver. }
  assert (Hins : ∀ row, preserves (λ s, m ∈ sh_mails s) (insert_conversion row)).
  { intros row. apply preserves_try, preserves_effect. intros st s x s' Hs. cbv zeta beta.
    repeat (case_match; [try done; try (intros [= _ <-]; done)|]); intros; by simplify_eq. }
  assert (Hq : ∀ A l (f : Stamp → Shop → option A), preserves (λ s, m ∈ sh_mails s) (query l f))
    by (intros; apply preserves_query).
  unfold RecordConversion, program, notifyEarned, panic.
  preserves_steps; auto.
Qed.

#[local] Hint Resolve preserves_query preserves_alter_order preserves_framed_post preserves_framed_insert : service.
#[local] Opaque insert_conversion alter_order post query.

Lemma preserves_conversion I `{!Framed I} rh b : preserves I (RecordConversion rh b).
Proof. unfold RecordConversion, program, notifyEarned, panic. preserves_steps. Qed.

Lemma preserves_book I `{!Framed I} h id r : preserves I (book_reward h id r).
Proof. unfold book_reward. destruct (en_Referrals h); [destruct (String.eqb _ "")|]; auto using preserves_return, preserves_conversion. Qed.

Lemma preserves_welcome I `{!Framed I} h id r p new : preserves I (welcome h id r p new).
Proof.
  unfold welcome, sendWelcome. preserves_steps.
  apply preserves_effect. intros st s x s' Hs [= _ <-]. by apply framed_mails.
Qed.

Lemma preserves_stored I oid : preserves I (stored_outcome oid).
Proof. unfold stored_outcome. preserves_steps. Qed.

(** Who is on which course, and the accounts. *)
Definition access (C : gset (string * string)) (U : gmap string Account) (s : Shop) : Prop :=
  sh_courses s = C ∧ sh_users s = U.

#[global] Instance access_framed C U : Framed (access C U).
Proof. by split. Qed.

(** Accounts that are not an applicant's of this address stay as they are. *)
Definition untouched (s s' : Shop) (email : string) : Prop :=
  ∀ k u, sh_users s !! k = Some u → ac_role u ≠ "applicant" ∨ pg_lower (ac_email u) ≠ email → sh_users s' !! k = Some u.

(** The course granted, or nothing changed. *)
Definition granted (s s' : Shop) (email course : string) : Prop :=
  access (sh_courses s) (sh_users s) s' ∨
  (∃ user, sh_courses s' = {[(user, course)]} ∪ sh_courses s) ∧ untouched s s' email.

Lemma ensure_student_granted name email course hashed st s x s' :
  ensure_student name email course hashed st s = Some (x, s') → granted s s' email course.
Proof.
  unfold ensure_student. destruct (user_by_email st s email) as [[id u]|] eqn:Eu.
  - apply first_row_found in Eu as [Hu Ee%String.eqb_eq].
    destruct (String.eqb_spec (ac_role u) "applicant") as [Er|Er].
    + destruct hashed as [h|]; [|done]. intros [= _ <-]. right. split; [by eexists|]. intros k v Hk Hv. cbn.
      rewrite lookup_insert_ne; [done|]. intros ->. destruct Hv; congruence.
    + intros [= _ <-]. right. split; [by eexists|]. by intros k v.
  - destruct (some_row _ _ || _) eqn:Eb; [done|]. destruct hashed as [h|]; [|done]. intros [= _ <-].
    right. split; [by eexists|]. intros k v Hk _. cbn. rewrite lookup_insert_ne; [done|]. intros <-.
    apply orb_false_iff in Eb as [_ Eb]. apply bool_decide_eq_false in Eb. by destruct Eb; eexists.
Qed.

Lemma ensureStudent_granted name email course w n s r n' s' :
  alone w → ensureStudent name email course w n s = (r, n', s') → granted s s' email course.
Proof.
  intros Ho. unfold ensureStudent, then_, draw, call, try, return_. rewrite effect_alone by done.
  destruct (failure w _); try (destruct (ensure_student _ _ _ _ _ _) as [[[id c] s1]|] eqn:E);
    try (apply ensure_student_granted in E); intros [= _ _ <-]; try done; by left.
Qed.

Lemma enrol_granted h id r w n s x n' s' :
  alone w → enrol h id r w n s = (x, n', s') → granted s s' (od_email r) (od_course_id r).
Proof.
  intros Ho. unfold enrol. unfold then_ at 1. destruct (ensureStudent _ _ _ w n s) as [[[e|msg] n1] s1] eqn:E.
  - apply ensureStudent_granted in E; [|done]. intros H.
    match type of H with ?k w n1 s1 = _ => assert (Hp : preserves (access (sh_courses s1) (sh_users s1)) k) end.
    { destruct e as [[[u p] new]|e]; preserves_steps;
        auto using preserves_alter_order, preserves_welcome, preserves_book with typeclass_instances. }
    assert (Hk : access (sh_courses s1) (sh_users s1) s') by (eapply Hp; [|by split|exact H]; intros k s0; by rewrite Ho).
    destruct Hk as [Hc Hu]. destruct E as [[E1 E2]|[[u E1] E2]]; [left; split; congruence|right].
    split; [exists u; congruence|]. intros k v. rewrite Hu. apply E2.
  - intros [= _ _ <-]. by apply ensureStudent_granted in E.
Qed.
End Frames.

(** ** Nothing is granted without a payment *)

Section Safety.
Context {PL : PgLower} {D : Digests} {AD : Addresses} {CF : CashfreeAPI} {V : Vault} {PW : Passwords}.

(** The unique index on the gateway's order id. *)
Definition unique_gateway (s : Shop) : Prop :=
  ∀ i j r q oid, sh_orders s !! i = Some r → sh_orders s !! j = Some q →
    od_gateway_order_id r = Some oid → od_gateway_order_id q = Some oid → i = j.

Lemma order_of_found st s oid id r :
  order_of st s oid = Some (id, r) → sh_orders s !! id = Some r ∧ od_gateway_order_id r = Some oid.
Proof. intros [H E%bool_decide_eq_true]%first_row_found. done. Qed.

Lemma order_of_only st s oid id r :
  unique_gateway s → sh_orders s !! id = Some r → od_gateway_order_id r = Some oid → order_of st s oid = Some (id, r).
Proof.
  intros Hu Hr Ho. apply first_row_only; [done|by apply bool_decide_eq_true|].
  intros j q Hq Hqo%bool_decide_eq_true. by eapply Hu.
Qed.

Lemma order_of_same st st' s oid : unique_gateway s → order_of st s oid = order_of st' s oid.
Proof.
  intros Hu. destruct (order_of st' s oid) as [[id r]|] eqn:E.
  - apply order_of_found in E as [E1 E2]. by apply order_of_only.
  - apply first_row_none. by apply (first_row_none st').
Qed.

(** Moved by this caller, or handled before, or an error. *)
Lemma mark_paid_alone oid payment w n s x n' s' :
  alone w → mark_paid oid payment w n s = (inl x, n', s') →
  (access (sh_courses s) (sh_users s) s' ∧ (∀ id r, x ≠ inl (Some (id, r)))) ∨
  ∃ id r, x = inl (Some (id, r)) ∧ order_of (stamp w n) s oid = Some (id, r) ∧
    (od_status r = Created ∨ od_status r = Failed) ∧ s' = with_orders s (<[id := pay_order payment r]> (sh_orders s)).
Proof.
  intros Ho H. apply try_effect_alone in H as (_ & [[-> ->]|(y & Hy & Hx)]); [by left| |done].
  destruct (order_of _ s oid) as [[id r]|] eqn:E.
  - destruct (_ || _) eqn:Es; injection Hy as <- <-.
    + destruct Hx as [->| ->]; [right|by left].
      exists id, r. apply orb_true_iff in Es. rewrite !bool_decide_eq_true in Es. done.
    + left. split; [done|]. by destruct Hx as [->| ->].
  - injection Hy as <- <-. left. split; [done|]. by destruct Hx as [->| ->].
Qed.

Lemma fulfil_granted h oid payment w n s x n' s' :
  alone w → fulfil h oid payment w n s = (x, n', s') →
  access (sh_courses s) (sh_users s) s' ∨
  ∃ id r, order_of (stamp w n) s oid = Some (id, r) ∧ (od_status r = Created ∨ od_status r = Failed) ∧
    granted s s' (od_email r) (od_course_id r).
Proof.
  intros Ho. unfold fulfil, then_. destruct (mark_paid oid payment w n s) as [[[m|msg] n1] s1] eqn:Em.
  - apply mark_paid_alone in Em as [[Ha Hm]|(id & r & -> & Hr & Hs & ->)]; [..|done].
    + assert (Hp : preserves (access (sh_courses s) (sh_users s)) (stored_outcome oid)) by apply preserves_stored.
      destruct m as [[[id r]|]|e]; [by destruct (Hm id r)|..|by intros [= _ _ <-]; left].
      intros H. left. eapply Hp; [|exact Ha|exact H]. intros k s0. by rewrite Ho.
    + intros H. right. exists id, r. split_and!; try done. by apply enrol_granted in H.
  - unfold mark_paid, call, try in Em. destruct (effect _ _ w n s) as [[? ?] ?]. done.
Qed.

(** What the browser or the gateway sends after a checkout. *)
Inductive Confirmation := Verify (body : option string) | Webhook (r : WebhookRequest).

Definition serve (h : EnrollHandler) (c : Confirmation) : Svc Shop Reply :=
  match c with Verify body => handleVerify h body | Webhook r => handleWebhook h r end.

(** The evidence that [amount] was paid for an order: the gateway says so when
    asked, or has signed a notice of success. *)
Definition payment_proof (h : EnrollHandler) (c : Confirmation) (oid : string) (amount : Z) : Prop :=
  match c with
  | Verify body => body = Some oid ∧ ∃ k rupees, api_order k oid = Some ("PAID", rupees) ∧ toPaise rupees = amount
  | Webhook r =>
      validCashfreeSignature (wr_body r) (wr_timestamp r) (wr_signature r) (secret (en_pay h)) = true ∧
      ∃ b, unmarshal_event (wr_body r) = Some b ∧ wb_Type b = "PAYMENT_SUCCESS_WEBHOOK" ∧
        wb_PaymentStatus b = "SUCCESS" ∧ wb_OrderID b = oid ∧ toPaise (wb_PaymentAmount b) = amount
  end.

Lemma checkAmount_alone oid paid w n s x n' s' :
  alone w → checkAmount oid paid w n s = (x, n', s') →
  s' = s ∧ (x = inl AmountOk → ∃ id r, order_of (stamp w n) s oid = Some (id, r) ∧ od_amount_paise r = paid).
Proof.
  intros Ho. unfold checkAmount, then_. destruct (query _ _ w n s) as [[[q|msg] n1] s1] eqn:E.
  - apply query_alone in E as (-> & -> & [(y & -> & [= <-])|[e ->]]); [..|done]; [|by intros [= <- <- <-]].
    destruct (order_of _ s oid) as [[id r]|] eqn:Er; cbn; [|by intros [= <- <- <-]].
    destruct (Z.eqb_spec (od_amount_paise r) paid); intros [= <- <- <-]; [|done]. split; [done|]. eauto.
  - unfold query, call, try in E. destruct (effect _ _ w n s) as [[? ?] ?]. done.
Qed.

Lemma paidOrder_spec oid w n s x n' s' :
  paidOrder oid w n s = (inl x, n', s') →
  s' = s ∧ ∀ payment paise, x = PaidFor payment paise →
    ∃ k rupees, api_order k oid = Some ("PAID", rupees) ∧ toPaise rupees = paise.
Proof.
  unfold paidOrder, then_, draw, return_. destruct (api_order n oid) as [[status amount]|] eqn:E; [|by intros [= <- <- <-]].
  destruct (String.eqb_spec status "PAID") as [->|]; cbn [negb]; [|by intros [= <- <- <-]].
  destruct (api_payments _ oid) as [ps|]; [|by intros [= <- <- <-]].
  destruct (head _) as [[i st]|]; intros [= <- <- <-]; (split; [done|]); intros p q; [intros [= _ <-]; eauto|done].
Qed.

Lemma paidOrder_total oid w n s : ∃ x n', paidOrder oid w n s = (inl x, n', s).
Proof.
  unfold paidOrder, then_, draw, return_. destruct (api_order n oid) as [[status amount]|]; [|eauto].
  destruct (negb _); [eauto|]. destruct (api_payments _ oid) as [ps|]; [|eauto].
  destruct (head _) as [[i st]|]; eauto.
Qed.

(** A confirmation whose amount was checked against the order. *)
Lemma confirmed_granted h oid paise payment w n s x n' s' (k : fulfilResult + string → Reply) (refuse : AmountCheck → Reply) :
  alone w → unique_gateway s →
  (check <- checkAmount oid paise;;
   match check with
   | AmountOk => res <- fulfil h oid payment;; return_ (k res)
   | _ => return_ (refuse check)
   end) w n s = (x, n', s') →
  access (sh_courses s) (sh_users s) s' ∨
  ∃ id r, sh_orders s !! id = Some r ∧ od_gateway_order_id r = Some oid ∧ od_amount_paise r = paise ∧
    (od_status r = Created ∨ od_status r = Failed) ∧ granted s s' (od_email r) (od_course_id r).
Proof.
  intros Ho Hu. unfold then_ at 1. destruct (checkAmount oid paise w n s) as [[[c|msg] n1] s1] eqn:Ec;
    apply checkAmount_alone in Ec as [-> Hok]; try done; [|by intros [= _ _ <-]; left].
  destruct c; try (by intros [= _ _ <-]; left). destruct (Hok eq_refl) as (id & r & Hr & Ha).
  unfold then_. destruct (fulfil h oid payment w n1 s) as [[f n2] s2] eqn:Ef.
  apply fulfil_granted in Ef as [Hf|(id' & r' & Hr' & Hs & Hg)]; [..|done].
  - left. destruct f; by injection H as _ _ <-.
  - rewrite (order_of_same _ (stamp w n)), Hr in Hr' by done. injection Hr' as <- <-.
    apply order_of_found in Hr as [H1 H2]. intros H. right. exists id, r.
    assert (s' = s2) as -> by (destruct f; by injection H). done.
Qed.

(** C19.  Whatever is sent to the confirmation endpoints, accounts and course access
    change only with evidence that exactly the order's amount was paid; then
    only that order's course is granted, and no account changes but an
    applicant's with the order's address. *)
Theorem confirmation_needs_payment h c w n s x n' s' :
  alone w → unique_gateway s → serve h c w n s = (x, n', s') →
  access (sh_courses s) (sh_users s) s' ∨
  ∃ id r oid, sh_orders s !! id = Some r ∧ od_gateway_order_id r = Some oid ∧
    payment_proof h c oid (od_amount_paise r) ∧ (od_status r = Created ∨ od_status r = Failed) ∧
    granted s s' (od_email r) (od_course_id r).
Proof.
  intros Ho Hu. destruct c as [body|r]; cbn [serve payment_proof].
  - unfold handleVerify. destruct (negb _); [by intros [= _ _ <-]; left|].
    destruct body as [oid|]; [|by intros [= _ _ <-]; left]. destruct (negb _); [by intros [= _ _ <-]; left|].
    unfold then_ at 1. destruct (paidOrder_total oid w n s) as (p & n1 & Hp). rewrite Hp.
    apply paidOrder_spec in Hp as [_ Hp]. destruct p as [| |payment paise]; try (by intros [= _ _ <-]; left).
    destruct (Hp _ _ eq_refl) as (k & rupees & Hk & Hpaise).
    intros H. eapply (confirmed_granted h oid paise payment w n1 s x n' s' _
      (λ _, fail 400 ("the payment could not be matched to your order — contact us with order id " +:+ oid))) in H; [|done..].
    destruct H as [|(id & q & H1 & H2 & H3 & H4)]; [by left|right]. exists id, q, oid. rewrite H3. eauto 10.
  - unfold handleWebhook. destruct (negb _); [by intros [= _ _ <-]; left|]. unfold parseWebhook.
    destruct (validCashfreeSignature _ _ _ _) eqn:Hsig; cbn [negb]; [|by intros [= _ _ <-]; left].
    destruct (unmarshal_event _) as [b|] eqn:Hb; [|by intros [= _ _ <-]; left].
    destruct (negb _ || _) eqn:Hok; [by intros [= _ _ <-]; left|].
    apply orb_false_iff in Hok as [Hok%negb_false_iff _]. unfold succeeded in Hok. cbn in Hok.
    rewrite !andb_true_iff in Hok. destruct Hok as [[[Ht%String.eqb_eq Hs%String.eqb_eq] _] _]. cbn [ev_OrderID ev_PaidPaise ev_PaymentID].
    intros H. eapply (confirmed_granted h (wb_OrderID b) _ _ w n s x n' s' _ (λ _, acknowledged)) in H; [|done..].
    destruct H as [|(id & q & H1 & H2 & H3 & H4)]; [by left|right]. exists id, q, (wb_OrderID b). rewrite H3. eauto 10.
Qed.
End Safety.

(** ** Once only *)

Section Once.
Context {PL : PgLower} {D : Digests} {AD : Addresses} {CF : CashfreeAPI} {V : Vault} {PW : Passwords}.

(** The order has been moved out of the states in which it is fulfilled. *)
Definition settled (s : Shop) (oid : string) : Prop :=
  ∀ id r, sh_orders s !! id = Some r → od_gateway_order_id r = Some oid → od_status r = Paid ∨ od_status r = Enrolled.

(** Once one caller has moved the order, every other callback or webhook for it,
    at whatever moment it comes and however it interleaves, does nothing of
    its own: it keeps every property of the state that the others keep. *)
Theorem fulfil_once h oid payment (I : Shop → Prop) w n s x n' s' :
  (∀ s, I s → settled s oid) → (∀ n s, I s → I (others w n s)) → I s →
  fulfil h oid payment w n s = (x, n', s') → I s'.
Proof.
  intros HI Ho Hs. unfold fulfil, then_. destruct (mark_paid oid payment w n s) as [[m n1] s1] eqn:Em.
  pose proof (Ho n s Hs) as Hs1.
  assert (Hm : I s1 ∧ ∀ id r, m ≠ inl (inl (Some (id, r)))).
  { unfold mark_paid, call, try, effect in Em. set (s0 := others w n s) in *.
    destruct (order_of (stamp w n) s0 oid) as [[id r]|] eqn:Er.
    - apply order_of_found in Er as [H1 H2].
      rewrite (bool_decide_eq_false_2 (od_status r = Created)), (bool_decide_eq_false_2 (od_status r = Failed)) in Em
        by (destruct (HI _ Hs1 _ _ H1 H2); congruence).
      destruct (failure w n); by injection Em as <- <- <-.
    - destruct (failure w n); by injection Em as <- <- <-. }
  destruct Hm as [Hi Hm]. destruct m as [[[[id r]|]|e]|msg]; [by destruct (Hm id r)|..|by intros [= _ _ <-]|by intros [= _ _ <-]].
  intros H. eapply (preserves_stored I oid); [exact Ho|exact Hi|exact H].
Qed.

(** The outcome a later caller reads back. *)
Definition outcome_of (r : OrderRow) : fulfilResult :=
  {| fr_Status := od_status r; fr_Email := od_email r; fr_CourseName := od_course_name r;
     fr_PlanName := planNames (od_plan r); fr_NewAccount := od_new_account r;
     fr_Emailed := bool_decide (od_status r = Enrolled) && od_new_account r
       && negb (has_prefix "login email not sent" (od_error r)) |}.

Lemma fulfil_again h oid payment w n s id r :
  calm w → unique_gateway s → sh_orders s !! id = Some r → od_gateway_order_id r = Some oid →
  od_status r = Paid ∨ od_status r = Enrolled →
  ∃ n', fulfil h oid payment w n s = (inl (inl (outcome_of r)), n', s).
Proof.
  intros Hc Hu Hr Ho Hs. exists (n + 1 + 1)%nat. unfold fulfil, mark_paid, call, try, then_. rewrite effect_calm by done.
  rewrite (order_of_only (stamp w n) s oid id r) by done.
  rewrite (bool_decide_eq_false_2 (od_status r = Created)), (bool_decide_eq_false_2 (od_status r = Failed))
    by (destruct Hs; congruence).
  cbn [orb]. unfold stored_outcome, query, call, try, then_. rewrite effect_calm by done.
  by rewrite (order_of_only (stamp w (n + 1)) s oid id r).
Qed.

(** Only the call [k] fails, before it has happened. *)
Definition only_fails (w : World Shop) (k : nat) : Prop :=
  alone w ∧ failure w k = FailsBefore ∧ ∀ m, m ≠ k → failure w m = Works.

Lemma effect_works {A} label (f : Stamp → Shop → option (A * Shop)) w n s :
  alone w → failure w n = Works →
  effect label f w n s =
    match f (stamp w n) s with
    | None => (inr label, (n + 1)%nat, s)
    | Some (x, s') => (inl x, (n + 1)%nat, s')
    end.
Proof. intros Ho Hf. rewrite effect_alone by done. rewrite Hf. by destruct (f (stamp w n) s) as [[]|]. Qed.

(** An order can get stuck: when the statement that marks it enrolled fails,
    the account exists with a password that nobody was told, the order stays
    "paid", and every later callback answers success without mailing the
    password or booking the referrer's reward. *)
Theorem paid_order_stuck h oid payment w n s id r user password hashed :
  only_fails w (n + 4) → unique_gateway s → sh_orders s !! id = Some r → od_gateway_order_id r = Some oid →
  od_status r = Created →
  generatePassword (n + 1) = Some password → HashPassword (new_salt (n + 2)) password = Some hashed →
  user_by_email (stamp w (n + 3)) s (od_email r) = None →
  some_row (sh_users s) (λ u, String.eqb (ac_email u) (od_email r)) = false →
  new_id w (n + 3) = user → sh_users s !! user = None →
  ∃ e n' s', fulfil h oid payment w n s = (inl (inr e), n', s') ∧
    sh_users s' !! user = Some (new_student (od_email r) (od_name r) hashed) ∧
    sh_mails s' = sh_mails s ∧ sh_conversions s' = sh_conversions s ∧
    ∀ w2 m payment2, calm w2 → ∃ m', fulfil h oid payment2 w2 m s' =
      (inl (inl {| fr_Status := Paid; fr_Email := od_email r; fr_CourseName := od_course_name r;
                   fr_PlanName := planNames (od_plan r); fr_NewAccount := od_new_account r; fr_Emailed := false |}), m', s').
Proof.
  intros (Ho & Hfail & Hw) Hu Hr Hoid Hs Hpw Hh Hno Hexact <- Hfresh.
  set (s1 := with_orders s (<[id := pay_order payment r]> (sh_orders s))).
  set (user := new_id w (n + 3)) in *.
  set (s2 := with_courses (with_users s1 (<[user := new_student (od_email r) (od_name r) hashed]> (sh_users s1)))
    ({[(user, od_course_id r)]} ∪ sh_courses s1)).
  exists "enrol order", (n + 5)%nat, s2. split; [|split; [|split; [done|split; [done|]]]].
  - unfold fulfil, mark_paid, call, try, then_. rewrite effect_works by (done || apply Hw; lia).
    rewrite (order_of_only (stamp w n) s oid id r), Hs by done. cbn [bool_decide orb]. rewrite bool_decide_eq_true_2 by done. cbn [orb].
    unfold enrol, ensureStudent, call, try, then_, draw, return_. fold s1.
    replace (n + 1 + 1)%nat with (n + 2)%nat by lia. rewrite Hpw. cbn [mbind option_bind]. rewrite Hh.
    rewrite effect_works by (done || apply Hw; lia). unfold ensure_student.
    replace (n + 2 + 1)%nat with (n + 3)%nat by lia.
    replace (user_by_email (stamp w (n + 3)) s1 (od_email r)) with (@None (string * Account)) by (by rewrite <- Hno).
    cbn [sh_users with_orders s1 stamp st_fresh]. rewrite Hexact. fold user. rewrite bool_decide_eq_false_2 by (by rewrite Hfresh; intros []).
    cbn [orb mbind option_bind]. unfold alter_order, update, call, try, effect. rewrite Ho.
    replace (n + 3 + 1)%nat with (n + 4)%nat by lia. rewrite Hfail. replace (n + 4 + 1)%nat with (n + 5)%nat by lia. by rewrite Ho.
  - cbn. by rewrite lookup_insert_eq.
  - intros w2 m payment2 Hc.
    assert (Hu2 : unique_gateway s2).
    { intros i j q q' o. cbn. intros [[<- <-]|[_ Hi]]%lookup_insert_Some [[<- <-]|[_ Hj]]%lookup_insert_Some; cbn; eauto. }
    destruct (fulfil_again h oid payment2 w2 m s2 id (pay_order payment r) Hc Hu2) as [m' E]; [by cbn; rewrite lookup_insert_eq|done|by left|].
    exists m'. exact E.
Qed.
End Once.

(** ** From an order to the course *)

(** A computation that never panics. *)
Definition total {A} (m : Svc Shop A) : Prop := ∀ w n s, ∃ x n' s', m w n s = (inl x, n', s').

Lemma total_return {A} (x : A) : total (return_ x).
Proof. intros w n s. by eexists _, _, _. Qed.

Lemma total_then {A B} (m : Svc Shop A) (k : A → Svc Shop B) : total m → (∀ x, total (k x)) → total (then_ m k).
Proof.
  intros Hm Hk w n s. unfold then_. destruct (Hm w n s) as (x & n1 & s1 & ->). apply Hk.
Qed.

Lemma total_call {A} label (f : Stamp → Shop → option (A * Shop)) : total (call label f).
Proof. intros w n s. unfold call, try. destruct (effect label f w n s) as [[r n'] s']. by eexists _, _, _. Qed.

Lemma total_post b m : total (post b m).
Proof. intros w n s. destruct b; by eexists _, _, _. Qed.

Ltac total_steps :=
  repeat first
    [ apply total_return | apply total_post | apply total_call
    | apply total_then; [|intros ?]
    | match goal with
      | |- total (if ?b then _ else _) => destruct b eqn:?
      | |- total (match ?o with _ => _ end) => destruct o eqn:?
      end ].

Lemma RecordConversion_total `{PgLower} rh b :
  is_Some (first_field (pu_friend_name b +:+ " ")) → total (RecordConversion rh b).
Proof.
  intros [f Hf]. unfold RecordConversion, program, notifyEarned, query, insert_conversion, panic. total_steps. congruence.
Qed.

(** A text that does not begin with white space. *)
Definition starts_word (l : bytes) : bool :=
  match l with
  | a :: b :: c :: _ => negb (ascii_space a) && negb (space2 a b) && negb (space3 a b c)
  | [a; b] => negb (ascii_space a) && negb (space2 a b)
  | [a] => negb (ascii_space a)
  | [] => false
  end.

Lemma trim_left_word l : trim_left_space l = [] ∨ starts_word (trim_left_space l) = true.
Proof.
  remember (length l) as n eqn:En. revert l En. induction n as [n IH] using lt_wf_ind. intros l ->.
  destruct l as [|a l]; [by left|]. cbn [trim_left_space]. destruct (ascii_space a) eqn:Ea; [apply (IH (length l)); cbn; lia|].
  destruct l as [|b l]; [right; cbn; by rewrite Ea|]. destruct (space2 a b) eqn:Eb; [apply (IH (length l)); cbn; lia|].
  destruct l as [|c l]; [right; cbn; by rewrite Ea, Eb|]. destruct (space3 a b c) eqn:Ec; [apply (IH (length l)); cbn; lia|].
  right. cbn. by rewrite Ea, Eb, Ec.
Qed.

Lemma starts_word_spec l : starts_word l = true → trim_left_space l = l ∧ take_field l ≠ [].
Proof.
  destruct l as [|a [|b [|c l]]]; cbn; rewrite ?andb_true_iff, ?negb_true_iff; [done|..].
  - intros ->. done.
  - intros [-> ->]. done.
  - intros [[-> ->] ->]. done.
Qed.

Lemma starts_word_prefix k l : starts_word l = true → (0 < k)%nat → starts_word (firstn k l ++ [" "%char]) = true.
Proof.
  intros H Hk. destruct k as [|[|[|k]]]; [lia|..]; destruct l as [|a [|b [|c l]]]; cbn in *;
    rewrite ?andb_true_iff, ?negb_true_iff in *; try done; intuition auto using space2_low, space3_low with lia.
  all: try (apply space2_low; vm_compute; lia). all: try (apply space3_low; vm_compute; lia).
Qed.

Lemma trim_right_prefix l : ∃ k, rev (trim_left_space_rev (rev l)) = firstn k l.
Proof.
  assert (H : ∀ r, ∃ j, trim_left_space_rev r = skipn j r).
  { intros r. remember (length r) as n eqn:En. revert r En. induction n as [n IH] using lt_wf_ind. intros r ->.
    destruct r as [|c r]; [by exists 0%nat|]. cbn [trim_left_space_rev].
    destruct (ascii_space c); [destruct (IH (length r) ltac:(cbn; lia) r eq_refl) as [j ->]; by exists (S j)|].
    destruct r as [|b r]; [by exists 0%nat|].
    destruct (space2 b c); [destruct (IH (length r) ltac:(cbn; lia) r eq_refl) as [j ->]; by exists (S (S j))|].
    destruct r as [|a r]; [by exists 0%nat|].
    destruct (space3 a b c); [destruct (IH (length r) ltac:(cbn; lia) r eq_refl) as [j ->]; by exists (S (S (S j)))|].
    by exists 0%nat. }
  destruct (H (rev l)) as [j ->]. exists (length l - j)%nat. by rewrite skipn_rev, rev_involutive.
Qed.

(** A trimmed name that is not empty has a first word. *)
Lemma clip_word s max : clip s max ≠ "" → is_Some (first_field (clip s max +:+ " ")).
Proof.
  intros Hne. assert (Hb : to_bytes (clip s max) ≠ []).
  { intros E. apply Hne. rewrite <- (of_to_bytes (clip s max)), E. done. }
  assert (Hk : ∃ k, to_bytes (clip s max) = firstn k (trim_left_space (to_bytes s))).
  { destruct (trim_right_prefix (trim_left_space (to_bytes s))) as [k Ek]. unfold clip, trim_space, trim_space_bytes.
    rewrite Ek. case_match; [|exists k; by rewrite to_of_bytes].
    unfold first_bytes. rewrite !to_of_bytes, firstn_firstn. by eexists. }
  destruct Hk as [k Ek]. destruct (trim_left_word (to_bytes s)) as [E|Hw]; [by rewrite E, take_nil in Ek|].
  assert (Hk : (0 < k)%nat) by (destruct k; [by rewrite Ek in Hb|lia]).
  pose proof (starts_word_prefix k _ Hw Hk) as Hs. rewrite <- Ek in Hs. apply starts_word_spec in Hs as [E1 E2].
  unfold first_field. rewrite to_bytes_app. change (to_bytes " ") with [" "%char]. rewrite E1.
  by destruct (take_field _).
Qed.

Section EndToEnd.
Context {PL : PgLower} {D : Digests} {AD : Addresses} {CF : CashfreeAPI} {V : Vault} {PW : Passwords} {VL : VaultLaws V}.

Lemma feeFor_range c p rupees name : feeFor c p = Some (rupees, name) → 0 < rupees ≤ 20000.
Proof.
  unfold feeFor. destruct (courseFees !! c) as [f|] eqn:E; [|done]. cbn [mbind option_bind].
  assert (H : map_Forall (λ _ f, 0 < cf_SelfPaced f ≤ 20000 ∧ 0 < cf_MentorLed f ≤ 20000) courseFees)
    by (apply (bool_decide_unpack _); vm_compute; exact I).
  specialize (H _ _ E). cbv beta in H. repeat case_match; intros [= <- <-]; lia.
Qed.

(** The offers of the programme make sense. *)
Definition fair_program (s : Shop) : Prop :=
  ∀ p, sh_program s = Some p → percentage (FriendDiscountPercent p) ∧ 0 ≤ FriendDiscountCap p.

(** What an opened order leaves behind. *)
Record opened (s s' : Shop) (req : OrderInput) (oid name email phone courseName : string) (amount : Z) : Prop := {
  op_row : ∃ id q, oid = "enr_" +:+ id ∧ sh_orders s !! id = None ∧
    sh_orders s' = <[id := name_order oid (new_order req name email phone courseName amount q)]> (sh_orders s);
  op_amount : ∃ rupees, feeFor (oi_CourseID req) (oi_Plan req) = Some (rupees, courseName) ∧ 0 < amount ≤ rupees * 100;
  op_access : access (sh_courses s) (sh_users s) s';
  op_name : is_Some (first_field (name +:+ " "));
}.

Lemma quote_amount (referrals : option ReferralHandler) code email phone listed w n s q n' s' :
  alone w → fair_program s → 0 < listed < 2 ^ 63 / 10000 →
  (match referrals with
   | Some _ => if String.eqb code "" then return_ no_quote else Quote code email phone listed
   | None => return_ no_quote
   end) w n s = (inl q, n', s') → s' = s ∧ 0 < listed - q_DiscountPaise q ≤ listed.
Proof.
  intros Ho Hfair Hl. destruct referrals; [|intros [= <- <- <-]; split; [done|cbn; lia]].
  destruct (String.eqb _ ""); [intros [= <- <- <-]; split; [done|cbn; lia]|]. intros H.
  pose proof (Quote_spec _ _ _ _ _ _ _ _ _ _ Ho H) as [-> [->|Hq]]; [split; [done|cbn; lia]|]. split; [done|].
  destruct (qd_program _ _ _ _ _ _ Hq) as (p & Hp & _ & _ & Hd). destruct (Hfair p Hp) as [H1 H2].
  rewrite Hd. destruct (quote_discount_spec p listed H1 H2 ltac:(lia)) as (H3 & H4 & _). lia.
Qed.

Lemma open_order_spec h req name email phone mobile courseName rupees w n s oid session shown plan amount listed q n' s' :
  alone w → fair_program s → 0 < rupees ≤ 20000 →
  open_order h req name email phone mobile courseName rupees w n s =
    (inl (order_opened oid session shown plan h amount listed q), n', s') →
  (∃ id q, oid = "enr_" +:+ id ∧ sh_orders s !! id = None ∧
    sh_orders s' = <[id := name_order oid (new_order req name email phone courseName amount q)]> (sh_orders s)) ∧
  0 < amount ≤ rupees * 100 ∧ access (sh_courses s) (sh_users s) s'.
Proof.
  intros Ho Hfair Hr. unfold open_order. intros H. svc_bind H q0 n1 s1 Hq.
  assert (Hlim : 2 ^ 63 / 10000 = 922337203685477) by (vm_compute; reflexivity).
  apply quote_amount in Hq as [-> Ha]; [|exact Ho|exact Hfair|rewrite Hlim; lia]. clear Hlim.
  svc_bind H st n2 s2 Hst. apply try_effect_alone in Hst as (-> & [[-> ->]|(x & Hx & Hst)]); [done| |done].
  destruct (sh_orders s !! st_fresh (stamp w n1)) eqn:Hfresh; [done|]. injection Hx as <- <-. destruct Hst as [->| ->]; [|done].
  svc_bind H nm n3 s3 Hnm. apply try_effect_alone in Hnm as (-> & [[-> ->]|(y & Hy & Hnm)]); [done| |done].
  injection Hy as <- <-. destruct Hnm as [->| ->]; [|done].
  svc_bind H se n4 s4 Hse. unfold createOrder, draw in Hse. injection Hse as Ese <- <-.
  destruct se as [se|]; [|by svc_bind H u n5 s5 Hu].
  injection H. intros. subst oid amount s'.
  split; [|split; [done|by split]]. eexists _, q0. split; [done|]. split; [exact Hfresh|]. cbn.
  by rewrite alter_insert_eq.
Qed.

Lemma limited_hits l lim key w n s r n' s' :
  alone w → limited l lim key w n s = (inl r, n', s') → ∃ x, s' = with_hits s x.
Proof. intros Ho. unfold limited, in_memory. destruct (allow _ _ _ _). intros [= <- <- <-]. rewrite Ho. by eexists. Qed.

Lemma handleOrder_opened h ip req w n s oid session courseName plan amount listed q n' s' :
  alone w → fair_program s →
  handleOrder h ip (Some req) w n s = (inl (order_opened oid session courseName plan h amount listed q), n', s') →
  enabled (en_pay h) = true ∧
  ∃ name phone cn, opened s s' req oid name (to_lower (clip (trim_space (oi_Email req)) 200)) phone cn amount.
Proof.
  intros Ho Hfair. unfold handleOrder. destruct (enabled (en_pay h)); cbn [negb]; [|by intros [=]]. intros H. split; [done|].
  svc_bind H a n1 s1 H1. apply limited_hits in H1 as [x1 ->]; [|done]. destruct a; [|by injection H]. cbn [negb] in H.
  destruct (String.eqb_spec (clip (trim_space (oi_Name req)) 120) "") as [|Hname]; [by injection H|].
  destruct (negb (bool_decide _)); [by injection H|].
  destruct (cashfreePhone _) as [mobile|]; [|by injection H].
  svc_bind H a n2 s2 H2. apply limited_hits in H2 as [x2 ->]; [|done]. destruct a; [|by injection H]. cbn [negb] in H.
  destruct (feeFor _ _) as [[rupees cn]|] eqn:Efee; [|by injection H].
  svc_bind H a n3 s3 H3. apply query_alone in H3 as (-> & -> & _); [|done].
  eexists _, _, cn.
  assert (Hop : open_order h req (clip (trim_space (oi_Name req)) 120) (to_lower (clip (trim_space (oi_Email req)) 200))
    (clip (trim_space (oi_Phone req)) 30) (of_bytes mobile) cn rupees w (n2 + 1)%nat (with_hits (with_hits s x1) x2) =
    (inl (order_opened oid session courseName plan h amount listed q), n', s')).
  { destruct a as [[]|]; [by injection H|exact H..]. }
  destruct (open_order_spec _ _ _ _ _ _ _ _ _ _ (with_hits (with_hits s x1) x2) _ _ _ _ _ _ _ _ _ Ho Hfair
    (feeFor_range _ _ _ _ Efee) Hop) as (Hrow & Ha & Hacc).
  split; [exact Hrow|by exists rupees|exact Hacc|by apply clip_word].
Qed.

(** Names of orders are their own. *)
Definition orders_named (s : Shop) : Prop :=
  ∀ i k r, sh_orders s !! i = Some r → od_gateway_order_id r = Some ("enr_" +:+ k) → k = i.

(** The system's random numbers come; so passwords do, of a length bcrypt takes. *)
Definition numbers_come : Prop := ∀ n i bound, 0 < bound → is_Some (rand_int n i bound).

Lemma generatePassword_short n p : generatePassword n = Some p → byte_length p = 12.
Proof.
  unfold generatePassword. intros (l & Hl & ->)%fmap_Some_1. apply length_mapM in Hl. unfold byte_length.
  by rewrite to_of_bytes, <- Hl, length_seq.
Qed.

Lemma passwords_come : numbers_come → ∀ n, ∃ p, generatePassword n = Some p ∧ byte_length p ≤ 72.
Proof.
  intros Hr n. assert (Hs : is_Some (mapM (password_letter n) (seq 0 12))).
  { apply mapM_is_Some, Forall_forall. intros i _. change (is_Some (password_letter n i)). unfold password_letter.
    destruct (Hr n i (Z.of_nat (length password_alphabet)) ltac:(by vm_compute)) as [z ->]. by eexists. }
  destruct Hs as [l Hl]. assert (E : generatePassword n = Some (of_bytes l)).
  { unfold generatePassword. rewrite Hl. done. }
  exists (of_bytes l). split; [done|]. rewrite (generatePassword_short _ _ E). lia.
Qed.

Lemma ensure_student_gives name email course hash st s :
  (∀ u, ac_email u = email → pg_lower (ac_email u) = email) → sh_users s !! st_fresh st = None →
  pg_lower email = email →
  ∃ user new s1 u, ensure_student name email course (Some hash) st s = Some (user, new, s1) ∧
    sh_courses s1 = {[(user, course)]} ∪ sh_courses s ∧ sh_users s1 !! user = Some u ∧
    pg_lower (ac_email u) = email ∧ (new = true → ac_password u = hash).
Proof.
  intros Hex Hfresh Hlow. unfold ensure_student. destruct (user_by_email st s email) as [[id u]|] eqn:Eu.
  - apply first_row_found in Eu as [Hu Ee%String.eqb_eq]. destruct (String.eqb (ac_role u) "applicant").
    + eexists id, true, _, _. split; [done|]. split; [done|]. cbn. rewrite lookup_insert_eq. done.
    + eexists id, false, _, u. split; [done|]. split; [done|]. cbn. done.
  - assert (E : some_row (sh_users s) (λ u, String.eqb (ac_email u) email) = false).
    { apply some_row_false. intros k v Hk. apply String.eqb_neq. intros Ev. unfold user_by_email in Eu.
      rewrite first_row_none in Eu. specialize (Eu _ _ Hk). cbv beta in Eu.
      by rewrite (Hex v Ev), String.eqb_refl in Eu. }
    rewrite E, bool_decide_eq_false_2 by (rewrite Hfresh; by intros []). cbn [orb mbind option_bind].
    eexists _, true, _, _. split; [done|]. split; [done|]. cbn. rewrite lookup_insert_eq. done.
Qed.

Lemma book_keeps_mail h id r m : preserves (λ s, m ∈ sh_mails s) (book_reward h id r).
Proof.
  unfold book_reward. destruct (en_Referrals h); [destruct (String.eqb _ "")|]; auto using preserves_return, conversion_keeps_mail.
Qed.

Lemma book_total h id r : is_Some (first_field (od_name r +:+ " ")) → total (book_reward h id r).
Proof. intros Hf. unfold book_reward. destruct (en_Referrals h); [|by apply total_return]. destruct (String.eqb _ ""); [apply total_return|by apply RecordConversion_total]. Qed.

(** In quiet conditions the one caller that enrols succeeds. *)
Lemma enrol_calm h id r w n s :
  calm w → en_mailer_enabled h = true → numbers_come →
  (∀ x, pg_lower (to_lower x) = to_lower x) → (∃ x, od_email r = to_lower x) →
  (∀ k, sh_users s !! new_id w k = None) → is_Some (first_field (od_name r +:+ " ")) →
  ∃ f n' s' user u, enrol h id r w n s = (inl (inl f), n', s') ∧ fr_Status f = Enrolled ∧
    (user, od_course_id r) ∈ sh_courses s' ∧ sh_users s' !! user = Some u ∧ pg_lower (ac_email u) = od_email r ∧
    (fr_NewAccount f = true → ∃ p, fr_Emailed f = true ∧ WelcomeMail (od_email r) (od_name r) p ∈ sh_mails s' ∧
       CheckPassword (ac_password u) p = (true, false)).
Proof.
  intros Hc Hm Hpw Hlow [x Hx] Hfresh Hname. pose proof (calm_alone _ Hc) as Ho.
  destruct (passwords_come Hpw n) as (p & Hp & Hlen). destruct (generate_short (new_salt (n + 1)) p Hlen) as [hash Hh].
  destruct (ensure_student_gives (od_name r) (od_email r) (od_course_id r) hash (stamp w (n + 1 + 1)) s)
    as (user & new & s1 & u & Es & Ec & Eu & Ee & Epw); [intros v Ev; by rewrite Ev, Hx|apply Hfresh|by rewrite Hx|].
  unfold enrol, ensureStudent, then_ at 1, draw at 1 2. unfold then_ at 1 2 3. rewrite Hp. cbn [mbind option_bind].
  unfold HashPassword. rewrite Hh. unfold call, try, return_ at 1. rewrite effect_calm, Es by done. cbn [default from_option].
  unfold then_ at 1, alter_order at 1, update, call, try. rewrite effect_calm by done.
  set (s2 := with_orders s1 _). destruct new; cbn [negb].
  - unfold then_ at 1, welcome. cbn [negb]. unfold then_ at 1, sendWelcome. rewrite Hm. cbn [negb].
    unfold call, try. rewrite effect_calm by done. set (s3 := with_mails s2 _). unfold return_ at 1.
    unfold then_ at 1. destruct (book_total h id r Hname w (n + 1 + 1 + 1 + 1 + 1)%nat s3) as ([] & n4 & s4 & E4). rewrite E4.
    assert (Hacc : access (sh_courses s1) (sh_users s1) s4).
    { eapply (preserves_book (access (sh_courses s1) (sh_users s1)) h id r w _ s3); [|by split|exact E4].
      intros k s0. by rewrite Ho. }
    assert (Hmail : WelcomeMail (od_email r) (od_name r) p ∈ sh_mails s4).
    { eapply (book_keeps_mail h id r _ w _ s3); [|unfold s3; cbn; set_solver|exact E4]. intros k s0. by rewrite Ho. }
    destruct Hacc as [A1 A2]. eexists _, n4, s4, user, u. split; [done|]. rewrite A1, A2, Ec. split_and!; try done; [set_solver|].
    intros _. exists p. split_and!; try done. rewrite Epw by done. exact (proj1 (CheckPassword_accepts (new_salt (n + 1)) p "" "" "") hash Hh).
  - unfold then_ at 1, welcome. cbn [negb]. unfold return_ at 1. unfold then_ at 1.
    destruct (book_total h id r Hname w (n + 1 + 1 + 1 + 1)%nat s2) as ([] & n4 & s4 & E4). rewrite E4.
    assert (Hacc : access (sh_courses s1) (sh_users s1) s4).
    { eapply (preserves_book (access (sh_courses s1) (sh_users s1)) h id r w _ s2); [|by split|exact E4].
      intros k s0. by rewrite Ho. }
    destruct Hacc as [A1 A2]. eexists _, n4, s4, user, u. split; [done|]. rewrite A1, A2, Ec. split_and!; try done; set_solver.
Qed.

(** The gateway says that the order is paid with the amount it was opened for. *)
Definition collected (m : nat) (oid : string) (amount : Z) : Prop :=
  api_order m oid = Some ("PAID", toRupees amount) ∧
  ∃ ps id_, api_payments (m + 1) oid = Some ps ∧ (id_, "SUCCESS") ∈ ps.

Lemma paid_lookup oid amount w m s :
  0 ≤ amount ≤ 2 ^ 50 → collected m oid amount → ∃ payment k, paidOrder oid w m s = (inl (PaidFor payment amount), k, s).
Proof.
  intros Ha [Hpaid (ps & id_ & Hps & Hin)]. unfold paidOrder, then_, draw, return_. rewrite Hpaid, String.eqb_refl.
  cbn [negb]. rewrite Hps.
  assert (Hin' : (id_, "SUCCESS") ∈ filter (λ p, snd p = "SUCCESS") ps) by (by apply list_elem_of_filter).
  destruct (filter _ ps) as [|[i st] l]; [by apply elem_of_nil in Hin'|]. cbn [head]. rewrite toPaise_toRupees by done. by eexists _, _.
Qed.

(** C18.  Who pays gets the course: an order that was opened at a price between
    nothing and the list price, and that the gateway reports paid with the
    amount it was asked to collect, ends with the browser's callback in an
    enrolled student: the course is granted to an account of the buyer's
    address, and a new account's password is mailed and logs in. *)
Theorem paid_order_enrols h ip req w n s oid session plan shown amount listed q n' s1 w2 m :
  alone w → fair_program s → orders_named s → en_mailer_enabled h = true → numbers_come →
  (∀ x, pg_lower (to_lower x) = to_lower x) →
  handleOrder h ip (Some req) w n s = (inl (order_opened oid session shown plan h amount listed q), n', s1) →
  calm w2 → (∀ k, sh_users s !! new_id w2 k = None) → collected m oid amount →
  ∃ f m' s2 user u, handleVerify h (Some oid) w2 m s1 = (inl (fulfilled f), m', s2) ∧ fr_Status f = Enrolled ∧
    (user, oi_CourseID req) ∈ sh_courses s2 ∧ sh_users s2 !! user = Some u ∧
    pg_lower (ac_email u) = to_lower (clip (trim_space (oi_Email req)) 200) ∧
    (fr_NewAccount f = true → ∃ name p, fr_Emailed f = true ∧
       WelcomeMail (to_lower (clip (trim_space (oi_Email req)) 200)) name p ∈ sh_mails s2 ∧
       CheckPassword (ac_password u) p = (true, false)).
Proof.
  intros Ho Hfair Hnamed Hm Hpw Hlow H Hc Hfresh [Hpaid (ps & id_ & Hps & Hin)].
  apply handleOrder_opened in H as (Hen & name & phone & cn & [(id & q0 & -> & Hnew & Horders) (rupees & Hfee & Ha) [Hc1 Hu1] Hname]); [|done..].
  apply feeFor_range in Hfee. set (oid := "enr_" +:+ id) in *.
  set (row := name_order oid (new_order req name _ phone cn amount q0)) in *.
  assert (Hof : ∀ st, order_of st s1 oid = Some (id, row)).
  { intros st. apply first_row_only; [by rewrite Horders, lookup_insert_eq|by apply bool_decide_eq_true|].
    intros j r Hj Hr%bool_decide_eq_true. rewrite Horders in Hj. apply lookup_insert_Some in Hj as [[-> _]|[_ Hj]]; [done|].
    pose proof (Hnamed j id r Hj Hr). subst j. congruence. }
  destruct (paid_lookup oid amount w2 m s1) as (payment & k & Hpo); [lia|by split; eauto|].
  unfold handleVerify. rewrite Hen. cbn [negb]. assert (Hpre : has_prefix "enr_" oid = true) by apply prefix_app. rewrite Hpre. cbn [negb].
  unfold then_ at 1. rewrite Hpo. unfold then_ at 1, checkAmount, then_ at 1, query, call, try. rewrite effect_calm by done.
  rewrite Hof. cbn [fmap option_fmap option_map compose snd]. unfold return_ at 1. change (od_amount_paise row) with amount.
  rewrite Z.eqb_refl. unfold then_ at 1, fulfil, then_ at 1, mark_paid, call, try. rewrite effect_calm by done. rewrite Hof.
  change (od_status row) with Created. rewrite bool_decide_eq_true_2 by done. cbn [orb].
  destruct (enrol_calm h id row w2 (k + 1 + 1)%nat (with_orders s1 (<[id := pay_order payment row]> (sh_orders s1))) Hc Hm Hpw Hlow)
    as (f & k2 & s2 & user & u & -> & H1 & H2 & H3 & H4 & H5); [by eexists|intros j; cbn; by rewrite Hu1|done|].
  exists f, k2, s2, user, u. split_and!; try done. intros Hf. destruct (H5 Hf) as (p & ? & ? & ?). by exists name, p.
Qed.
End EndToEnd.
