(* ===== verification/Certify.v ===== *)
(** Certification exams, the candidate's side
    (services/api-gateway/graph/resolvers/certification.go): a registration is
    sold, its payment gives the candidate an account, an invitation to the
    paper and a link by mail; the link opens a session, and the result of the
    attempt issues a certificate anybody can verify.

    The transaction of [provision] is one call; tokens are drawn before it.
    Ids in requests are well-formed UUIDs.  NUMERIC(5,2) columns keep what
    [to_numeric2] makes of a number. *)

From S2P Require Import Prelude GoStrings Float64 Strconv GoTime Gateway Service Shop Referral Cashfree Checkout.
From Stdlib Require Import Ascii.

#[local] Open Scope Z_scope.
#[local] Open Scope service_scope.

(** What the server and the JWT library make of a value. *)
Class CertEnv := {
  to_numeric2 : float64 → float64;                     (* NUMERIC(5,2) and back *)
  numeric_percent : float64 → float64 → float64;       (* a / b * 100 on NUMERIC *)
  pg_upper : string → string;
  sign_token : Claims → Z → Z → string → option string; (* issued, expires, key *)
}.

Record CertificationHandler := {
  ce_pay : cashfree;
  ce_mailer_enabled : bool;
  ce_Referrals : option ReferralHandler;
  ce_jwtSecret : string;
  ce_appBase : string;
  ce_siteBase : string;
  ce_ipLimiter : option rateLimiter;
  ce_emailLimiter : option rateLimiter;
}.

#[global] Instance RegistrationStatus_eq_dec : EqDecision RegistrationStatus.
Proof. solve_decision. Defined.

Definition certTerminal (s : RegistrationStatus) : bool :=
  match s with RegSubmitted | RegPassed | RegFailed | RegExpired | RegRefunded => true | _ => false end.

Definition registration_status (s : RegistrationStatus) : string :=
  match s with
  | RegCreated => "created" | RegPaid => "paid" | RegStarted => "started" | RegSubmitted => "submitted"
  | RegPassed => "passed" | RegFailed => "failed" | RegExpired => "expired" | RegRefunded => "refunded"
  end.

(** A registration is paid for and its link not used up. *)
Definition sittable (s : RegistrationStatus) : bool := match s with RegPaid | RegStarted => true | _ => false end.

(** [time.Duration(days) * 24 * time.Hour] *)
Definition days_duration (d : Z) : Z := int64 (d * 24 * 3600 * nanos).

Definition long_months : list string :=
  ["January"; "February"; "March"; "April"; "May"; "June"; "July"; "August"; "September"; "October"; "November"; "December"].

(** [t.Format("2 January 2006")] and [t.Format("2006-01-02")] *)
Definition long_date (t : Z) : string :=
  let '(y, m, d) := civil (t / nanos / day_seconds) in
  of_bytes (append_int d 1 ++ chars " " ++ name_of long_months (m - 1) ++ chars " " ++ append_int y 4).

Definition iso_date (t : Z) : string :=
  let '(y, m, d) := civil (t / nanos / day_seconds) in
  of_bytes (append_int y 4 ++ chars "-" ++ padded 2 m ++ chars "-" ++ padded 2 d).

Definition rfc3339_text (t : Z) : string := of_bytes (rfc3339 t).

(** ** Rows *)

Definition set_rg (r : RegistrationRow) (status : RegistrationStatus) (hash : option string) (expires : option Z)
    (err : string) (now : Z) : RegistrationRow :=
  {| rg_exam_id := rg_exam_id r; rg_name := rg_name r; rg_email := rg_email r; rg_phone := rg_phone r;
     rg_user_id := rg_user_id r; rg_invite_id := rg_invite_id r; rg_amount_paise := rg_amount_paise r;
     rg_status := status; rg_claim_token_hash := hash; rg_claim_expires_at := expires;
     rg_claimed_at := rg_claimed_at r; rg_certificate_id := rg_certificate_id r; rg_emailed_at := rg_emailed_at r;
     rg_error := err; rg_notes := rg_notes r; rg_referral_code := rg_referral_code r;
     rg_referral_discount := rg_referral_discount r; rg_referral_flags := rg_referral_flags r;
     rg_gateway_order_id := rg_gateway_order_id r; rg_gateway_payment_id := rg_gateway_payment_id r;
     rg_created_at := rg_created_at r; rg_paid_at := rg_paid_at r; rg_updated_at := now |}.

Definition set_rg_times (r : RegistrationRow) (claimed emailed paid : option Z) : RegistrationRow :=
  {| rg_exam_id := rg_exam_id r; rg_name := rg_name r; rg_email := rg_email r; rg_phone := rg_phone r;
     rg_user_id := rg_user_id r; rg_invite_id := rg_invite_id r; rg_amount_paise := rg_amount_paise r;
     rg_status := rg_status r; rg_claim_token_hash := rg_claim_token_hash r;
     rg_claim_expires_at := rg_claim_expires_at r; rg_claimed_at := claimed; rg_certificate_id := rg_certificate_id r;
     rg_emailed_at := emailed; rg_error := rg_error r; rg_notes := rg_notes r;
     rg_referral_code := rg_referral_code r; rg_referral_discount := rg_referral_discount r;
     rg_referral_flags := rg_referral_flags r; rg_gateway_order_id := rg_gateway_order_id r;
     rg_gateway_payment_id := rg_gateway_payment_id r; rg_created_at := rg_created_at r; rg_paid_at := paid;
     rg_updated_at := rg_updated_at r |}.

Definition set_rg_links (r : RegistrationRow) (user invite certificate order payment : option string) : RegistrationRow :=
  {| rg_exam_id := rg_exam_id r; rg_name := rg_name r; rg_email := rg_email r; rg_phone := rg_phone r;
     rg_user_id := user; rg_invite_id := invite; rg_amount_paise := rg_amount_paise r; rg_status := rg_status r;
     rg_claim_token_hash := rg_claim_token_hash r; rg_claim_expires_at := rg_claim_expires_at r;
     rg_claimed_at := rg_claimed_at r; rg_certificate_id := certificate; rg_emailed_at := rg_emailed_at r;
     rg_error := rg_error r; rg_notes := rg_notes r; rg_referral_code := rg_referral_code r;
     rg_referral_discount := rg_referral_discount r; rg_referral_flags := rg_referral_flags r;
     rg_gateway_order_id := order; rg_gateway_payment_id := payment; rg_created_at := rg_created_at r;
     rg_paid_at := rg_paid_at r; rg_updated_at := rg_updated_at r |}.

(** The statements on one registration. *)
Definition rg_status_to (status : RegistrationStatus) (now : Z) (r : RegistrationRow) : RegistrationRow :=
  set_rg r status (rg_claim_token_hash r) (rg_claim_expires_at r) (rg_error r) now.

Definition rg_failed (err : string) (now : Z) (r : RegistrationRow) : RegistrationRow :=
  set_rg r (rg_status r) (rg_claim_token_hash r) (rg_claim_expires_at r) err now.

Definition rg_named (order : string) (now : Z) (r : RegistrationRow) : RegistrationRow :=
  rg_failed (rg_error r) now
    (set_rg_links r (rg_user_id r) (rg_invite_id r) (rg_certificate_id r) (Some order) (rg_gateway_payment_id r)).

Definition rg_pay (payment : string) (now : Z) (r : RegistrationRow) : RegistrationRow :=
  rg_status_to RegPaid now
    (set_rg_times (set_rg_links r (rg_user_id r) (rg_invite_id r) (rg_certificate_id r) (rg_gateway_order_id r) (Some payment))
       (rg_claimed_at r) (rg_emailed_at r) (Some now)).

Definition rg_claimable (user invite hash : string) (expires now : Z) (r : RegistrationRow) : RegistrationRow :=
  set_rg (set_rg_links r (Some user) (Some invite) (rg_certificate_id r) (rg_gateway_order_id r) (rg_gateway_payment_id r))
    (rg_status r) (Some hash) (Some expires) "" now.

Definition rg_emailed (now : Z) (r : RegistrationRow) : RegistrationRow :=
  set_rg_times r (rg_claimed_at r) (Some now) (rg_paid_at r).

Definition rg_claimed (now : Z) (r : RegistrationRow) : RegistrationRow :=
  rg_failed (rg_error r) now
    (set_rg_times r (Some (default now (rg_claimed_at r))) (rg_emailed_at r) (rg_paid_at r)).

Definition rg_certified (certificate : option string) (now : Z) (r : RegistrationRow) : RegistrationRow :=
  rg_failed (rg_error r) now
    (set_rg_links r (rg_user_id r) (rg_invite_id r) certificate (rg_gateway_order_id r) (rg_gateway_payment_id r)).

(** UPDATE certification_registrations … WHERE id = … *)
Definition alter_registration (label id : string) (f : Z → RegistrationRow → RegistrationRow) : Svc Shop (unit + string) :=
  update label (λ st s, with_registrations s (alter (f (st_time st)) id (sh_registrations s))).

(** … AND p: the rows affected. *)
Definition alter_registration_if (label id : string) (p : RegistrationRow → bool)
    (f : Z → RegistrationRow → RegistrationRow) : Svc Shop (Z + string) :=
  call label (λ st s,
    match sh_registrations s !! id with
    | Some r => if p r then Some (1, with_registrations s (<[id := f (st_time st) r]> (sh_registrations s))) else Some (0, s)
    | None => Some (0, s)
    end).

Definition registration_of (st : Stamp) (s : Shop) (oid : string) : option (string * RegistrationRow) :=
  first_row st (sh_registrations s) (λ _ r, bool_decide (rg_gateway_order_id r = Some oid)).

(** The newest row that satisfies [p]. *)
Definition later_row (a : option (string * RegistrationRow)) (b : string * RegistrationRow) : option (string * RegistrationRow) :=
  match a with
  | Some a => if rg_created_at (snd a) <? rg_created_at (snd b) then Some b else Some a
  | None => Some b
  end.

Definition newest_row (st : Stamp) (t : gmap string RegistrationRow) (p : RegistrationRow → bool)
    : option (string * RegistrationRow) :=
  foldl later_row None
    (omap (λ id, r ← t !! id; if p r then Some (id, r) else None) (st_rows st (map fst (map_to_list t)))).

(** ** Registering *)

Definition on_sale (now : Z) (s : Shop) (e : ExamRow) : bool :=
  ex_is_active e
  && match sh_papers s !! ex_assessment_id e with Some p => String.eqb (pv_status p) "published" | None => false end
  && match ex_opens_at e with Some t => t <=? now | None => true end
  && match ex_closes_at e with Some t => now <=? t | None => true end.

Record CertOrderInput := {
  ki_Slug : string; ki_Name : string; ki_Email : string; ki_Phone : string; ki_ReferralCode : string; ki_Website : string;
}.

Definition not_registered : Reply := fail 500 "could not start your registration, please try again".

Section Candidate.
Context {PL : PgLower} {R : Random} {D : Digests} {AD : Addresses} {CF : CashfreeAPI} {CE : CertEnv}.

Definition exam_on_sale (st : Stamp) (s : Shop) (slug : string) : option (string * ExamRow) :=
  first_row st (sh_exams s) (λ _ e, String.eqb (ex_slug e) slug && on_sale (st_time st) s e).

(** One line of the site's list of exams. *)
Definition exam_public (s : Shop) (e : ExamRow) : option (list (string * Value)) :=
  p ← sh_papers s !! ex_assessment_id e;
  Some [("slug", VStr (ex_slug e)); ("title", VStr (ex_title e)); ("courseId", VStr (ex_course_id e));
    ("summary", VStr (ex_summary e)); ("priceRupees", VInt (ex_price_paise e ÷ 100));
    ("passPercent", VFloat (ex_pass_percent e)); ("linkValidDays", VInt (ex_link_valid_days e));
    ("durationMinutes", VInt (pv_duration_minutes p)); ("totalMarks", VInt (pv_total_marks p));
    ("paperTitle", VStr (pv_title p))].

(** The server sorts the titles. *)
Definition handleConfig (h : CertificationHandler) : Svc Shop Reply :=
  rows <- query "list exams" (λ st s,
    Some (omap (λ id, e ← sh_exams s !! id; if on_sale (st_time st) s e then exam_public s e else None)
            (st_rows st (map fst (map_to_list (sh_exams s))))));;
  return_ (match rows with
           | inr _ => fail 500 "could not load the exams, please try again"
           | inl l => write 200 [("enabled", VBool (enabled (ce_pay h))); ("exams", VRows l)]
           end).

Definition same_candidate (exam email : string) (r : RegistrationRow) : bool :=
  String.eqb (rg_exam_id r) exam && String.eqb (pg_lower (rg_email r)) email.

Definition live_registration (now : Z) (exam email : string) (r : RegistrationRow) : bool :=
  same_candidate exam email r && sittable (rg_status r)
  && match rg_claim_expires_at r with Some t => now <? t | None => true end.

Definition passed_registration (exam email : string) (r : RegistrationRow) : bool :=
  same_candidate exam email r && bool_decide (rg_status r = RegPassed).

(** SELECT max(updated_at) of the failed registrations *)
Definition failedAt (s : Shop) (exam email : string) : option Z :=
  map_fold (λ _ r m, if same_candidate exam email r && bool_decide (rg_status r = RegFailed)
                     then Some (match m with Some t => Z.max t (rg_updated_at r) | None => rg_updated_at r end) else m)
    None (sh_registrations s).

(** The day a resit opens, when that is ahead. *)
Definition resit_closed (exam email : string) (resitWait : Z) : Svc Shop (option Z) :=
  if resitWait <=? 0 then return_ None
  else
    failed <- query "failed at" (λ _ s, Some (failedAt s exam email));;
    match failed with
    | inl (Some t) =>
        now <- clock_now;;
        let wait := t + days_duration resitWait in
        return_ (if now <? wait then Some wait else None)
    | _ => return_ None
    end.

(** INSERT INTO certification_registrations … RETURNING id *)
Definition insert_registration (row : Z → RegistrationRow) : Svc Shop (string + string) :=
  call "insert registration" (λ st s,
    match sh_registrations s !! st_fresh st with
    | Some _ => None
    | None => Some (st_fresh st, with_registrations s (<[st_fresh st := row (st_time st)]> (sh_registrations s)))
    end).

Definition new_registration (exam name email phone : string) (amount : Z) (q : referralQuote) (now : Z) : RegistrationRow :=
  {| rg_exam_id := exam; rg_name := name; rg_email := email; rg_phone := phone; rg_user_id := None;
     rg_invite_id := None; rg_amount_paise := amount; rg_status := RegCreated; rg_claim_token_hash := None;
     rg_claim_expires_at := None; rg_claimed_at := None; rg_certificate_id := None; rg_emailed_at := None;
     rg_error := ""; rg_notes := ""; rg_referral_code := q_Code q; rg_referral_discount := q_DiscountPaise q;
     rg_referral_flags := q_Flags q; rg_gateway_order_id := None; rg_gateway_payment_id := None; rg_created_at := now;
     rg_paid_at := None; rg_updated_at := now |}.

Definition cert_request (h : CertificationHandler) (slug title oid : string) (amount : Z) (name email mobile : string)
    : cashfreeOrderReq :=
  {| co_OrderID := oid; co_AmountPaise := amount;
     co_Customer := {| cu_Name := name; cu_Email := email; cu_Phone := mobile |};
     co_Note := title +:+ " — certification exam"; co_Tags := [("kind", "certification"); ("exam", clip slug 80)];
     co_ReturnURL := ce_siteBase h +:+ "/certifications/" +:+ clip slug 80 +:+ "?cf_order=" +:+ oid;
     co_NotifyURL := notifyURL (ce_pay h) "/api/certification/webhook" |}.

Definition registration_opened (h : CertificationHandler) (oid session title : string) (amount listed : Z)
    (q : referralQuote) : Reply :=
  write 200 [("order_id", VStr oid); ("payment_session_id", VStr session); ("mode", VStr (env (ce_pay h)));
    ("amount", VInt amount); ("currency", VStr "INR"); ("exam_name", VStr title); ("list_amount", VInt listed);
    ("referral_discount", VInt (q_DiscountPaise q)); ("referral_code", VStr (q_Code q))].

(** The part of [handleOrder] that writes. *)
Definition open_registration (h : CertificationHandler) (req : CertOrderInput) (name email phone mobile exam : string)
    (e : ExamRow) : Svc Shop Reply :=
  let listed := ex_price_paise e in
  q <- (match ce_Referrals h with
        | Some _ => if String.eqb (ki_ReferralCode req) "" then return_ no_quote
                    else Quote (ki_ReferralCode req) email phone listed
        | None => return_ no_quote
        end);;
  let amount := listed - q_DiscountPaise q in
  stored <- insert_registration (new_registration exam name email phone amount q);;
  match stored with
  | inr _ => return_ not_registered
  | inl id =>
      let oid := "cert_" +:+ id in
      named <- alter_registration "store gateway order id" id (rg_named oid);;
      match named with
      | inr _ => return_ not_registered
      | inl _ =>
          session <- createOrder (ce_pay h) (cert_request h (ki_Slug req) (ex_title e) oid amount name email mobile);;
          match session with
          | None =>
              _ <- alter_registration "fail registration" id (rg_failed "cashfree");;
              return_ (fail 502 "the payment gateway did not respond — please try again in a minute")
          | Some session => return_ (registration_opened h oid session (ex_title e) amount listed q)
          end
      end
  end.

(** Whether this person may buy this exam, and the sale. *)
Definition sell (h : CertificationHandler) (req : CertOrderInput) (name email phone mobile exam : string) (e : ExamRow)
    : Svc Shop Reply :=
  live <- query "live registration" (λ st s,
    if some_row (sh_registrations s) (live_registration (st_time st) exam email) then Some tt else None);;
  match live with
  | inl _ => return_ (fail 409 ("you already have an exam link for " +:+ ex_title e
               +:+ " — check your email, or contact us to have it resent"))
  | inr _ =>
      passed <- query "already passed" (λ _ s, Some (some_row (sh_registrations s) (passed_registration exam email)));;
      match passed with
      | inl true => return_ (fail 409 ("you have already passed " +:+ ex_title e +:+ " — your certificate is in your account"))
      | _ =>
          wait <- resit_closed exam email (ex_resit_wait_days e);;
          match wait with
          | Some t => return_ (fail 409 ("you can resit this exam from " +:+ long_date t +:+ " — resits open "
                        +:+ format_int (ex_resit_wait_days e) +:+ " days after an attempt"))
          | None => open_registration h req name email phone mobile exam e
          end
      end
  end.

Definition handleOrder (h : CertificationHandler) (ip : string) (body : option CertOrderInput) : Svc Shop Reply :=
  if negb (enabled (ce_pay h)) then
    return_ (fail 503 "exam registration is not available right now — please contact us")
  else
    allowed <- limited "certification ip" (ce_ipLimiter h) ip;;
    if negb allowed then
      return_ (fail 429 "too many attempts from this network — please try again in a few minutes")
    else
      match body with
      | None => return_ (fail 400 "invalid request")
      | Some req =>
          if negb (String.eqb (trim_space (ki_Website req)) "") then return_ (write 200 [("ok", VBool true)])
          else
            let name := clip (trim_space (ki_Name req)) 120 in
            let email := to_lower (clip (trim_space (ki_Email req)) 200) in
            let phone := clip (trim_space (ki_Phone req)) 30 in
            if String.eqb name "" then return_ (fail 400 "please enter your name — it is printed on the certificate")
            else if negb (bool_decide (ParseAddress email = Some email)) then
              return_ (fail 400 "please enter a valid email address — your exam link is sent there")
            else
              match cashfreePhone phone with
              | None =>
                  return_ (fail 400 "please enter a valid 10-digit mobile number (it starts with 6, 7, 8 or 9) — the payment page needs it")
              | Some mobile =>
                  allowed <- limited "certification email" (ce_emailLimiter h) email;;
                  if negb allowed then return_ (fail 429 "too many attempts for this email — please try again later")
                  else
                    exam <- query "select exam" (λ st s, Some (exam_on_sale st s (clip (ki_Slug req) 80)));;
                    match exam with
                    | inr _ => return_ not_registered
                    | inl None => return_ (fail 404 "that exam is not open for registration")
                    | inl (Some (id, e)) => sell h req name email phone (of_bytes mobile) id e
                    end
              end
      end.

(** ** Payment *)

Definition checkAmount (oid : string) (paid : Z) : Svc Shop AmountCheck :=
  want <- query "select amount" (λ st s, Some (rg_amount_paise ∘ snd <$> registration_of st s oid));;
  return_ (match want with
           | inl None => NotOurOrder
           | inr _ => AmountWrong
           | inl (Some want) => if want =? paid then AmountOk else AmountWrong
           end).

Record certFulfilResult := {
  cr_Status : RegistrationStatus;
  cr_Email : string;
  cr_ExamName : string;
  cr_Emailed : bool;
  cr_ExpiresAt : string;
}.

Inductive FulfilError := NotOurs | FulfilFailed (msg : string).

(** Which registrations a payment moves: new ones, and paid ones whose link
    was never stored. *)
Definition payable (r : RegistrationRow) : bool :=
  match rg_status r with
  | RegCreated => true
  | RegPaid => bool_decide (rg_claim_token_hash r = None)
  | _ => false
  end.

Definition mark_paid (oid payment : string) : Svc Shop (option (string * RegistrationRow * ExamRow) + string) :=
  call "mark registration paid" (λ st s,
    Some (match registration_of st s oid with
          | Some (id, r) =>
              match sh_exams s !! rg_exam_id r with
              | Some e =>
                  if payable r
                  then (Some (id, r, e), with_registrations s (<[id := rg_pay payment (st_time st) r]> (sh_registrations s)))
                  else (None, s)
              | None => (None, s)
              end
          | None => (None, s)
          end)).

Definition stored_outcome (oid : string) : Svc Shop (certFulfilResult + FulfilError) :=
  found <- query "select outcome" (λ st s,
    '(_, r) ← registration_of st s oid; e ← sh_exams s !! rg_exam_id r; Some (r, e));;
  return_ (match found with
           | inr _ => inr NotOurs
           | inl (r, e) =>
               inl {| cr_Status := rg_status r; cr_Email := rg_email r; cr_ExamName := ex_title e; cr_Emailed := false;
                      cr_ExpiresAt := match rg_claim_expires_at r with Some t => rfc3339_text t | None => "" end |}
           end).

(** The account of a candidate: a new applicant without a password, or the
    account the address has, whose name changes only while it is an applicant. *)
Definition upsert_candidate (name email phone unusable : string) (st : Stamp) (s : Shop) : option (string * Shop) :=
  let phoned (u : Account) := {| ac_email := ac_email u; ac_name := ac_name u; ac_password := ac_password u;
    ac_role := ac_role u; ac_phone := if String.eqb (ac_phone u) "" then phone else ac_phone u |} in
  match first_row st (sh_users s) (λ _ u, String.eqb (ac_email u) email) with
  | Some (id, u) =>
      let u := {| ac_email := ac_email u; ac_name := if String.eqb (ac_role u) "applicant" then name else ac_name u;
                  ac_password := ac_password u; ac_role := ac_role u; ac_phone := ac_phone u |} in
      Some (id, with_users s (<[id := phoned u]> (sh_users s)))
  | None =>
      match sh_users s !! st_fresh st with
      | Some _ => None
      | None =>
          let u := {| ac_email := email; ac_name := name; ac_password := unusable; ac_role := "applicant"; ac_phone := phone |} in
          Some (st_fresh st, with_users s (<[st_fresh st := u]> (sh_users s)))
      end
  end.

(** The invitation to the paper: one per paper and address. *)
Definition upsert_invite (row : InviteRow) (st : Stamp) (s : Shop) : option (string * Shop) :=
  match first_row st (sh_invites s) (λ _ i, String.eqb (iv_assessment_id i) (iv_assessment_id row)
                                           && String.eqb (iv_email i) (iv_email row)) with
  | Some (id, _) => Some (id, with_invites s (<[id := row]> (sh_invites s)))
  | None =>
      match sh_invites s !! st_fresh st with
      | Some _ => None
      | None => Some (st_fresh st, with_invites s (<[st_fresh st := row]> (sh_invites s)))
      end
  end.

Definition provision_tx (name email phone assessment : string) (expires : Z) (unusable token : string)
    (st : Stamp) (s : Shop) : option (string * string * Shop) :=
  '(user, s) ← upsert_candidate name email phone unusable st s;
  '(invite, s) ← upsert_invite {| iv_assessment_id := assessment; iv_email := email; iv_user_id := user;
    iv_token := token; iv_status := "invited"; iv_expires_at := expires; iv_sent_at := st_time st |} st s;
  Some (user, invite, s).

Definition provision (name email phone assessment : string) (expires : Z) : Svc Shop (string * string + string) :=
  suffix <- draw (λ n, randomToken n 18);;
  token <- draw (λ n, randomToken n 32);;
  match suffix, token with
  | Some suffix, Some token =>
      call "provision" (provision_tx name email phone assessment expires (UnusablePassword (of_bytes suffix)) (of_bytes token))
  | _, _ => return_ (inr "rand")
  end.

(** Stores the digest of the link's token, which is unique. *)
Definition store_claim (id user invite hash : string) (expires : Z) : Svc Shop (unit + string) :=
  call "store claim token" (λ st s,
    if existsb (λ kr, negb (String.eqb (fst kr) id) && bool_decide (rg_claim_token_hash (snd kr) = Some hash))
         (map_to_list (sh_registrations s))
    then None
    else Some (tt, with_registrations s (alter (rg_claimable user invite hash expires (st_time st)) id (sh_registrations s)))).

Definition exam_url (h : CertificationHandler) (token : string) : string :=
  ce_appBase h +:+ "/certification/start?t=" +:+ token.

(** Whether the link went out. *)
Definition sendExamLink (h : CertificationHandler) (name email title url : string) (expires : Z) : Svc Shop bool :=
  if negb (ce_mailer_enabled h) then return_ false
  else
    sent <- call "mail exam link" (λ _ s, Some (tt, with_mails s (sh_mails s ++ [ExamMail email name title url expires])));;
    return_ (match sent with inl _ => true | inr _ => false end).

Definition exam_purchase (id : string) (r : RegistrationRow) (e : ExamRow) : Purchase :=
  {| pu_kind := referralKindExam; pu_order_id := id; pu_code := rg_referral_code r; pu_friend_name := rg_name r;
     pu_friend_email := rg_email r; pu_item_name := ex_title e; pu_flags := rg_referral_flags r;
     pu_order_paise := rg_amount_paise r; pu_discount_paise := rg_referral_discount r |}.

Definition book_exam (h : CertificationHandler) (id : string) (r : RegistrationRow) (e : ExamRow) : Svc Shop unit :=
  match ce_Referrals h with
  | Some rh => if String.eqb (rg_referral_code r) "" then return_ tt else RecordConversion rh (exam_purchase id r e)
  | None => return_ tt
  end.

Definition mail_link (h : CertificationHandler) (id : string) (r : RegistrationRow) (e : ExamRow) (token : string) (expires : Z)
    : Svc Shop bool :=
  emailed <- sendExamLink h (rg_name r) (rg_email r) (ex_title e) (exam_url h token) expires;;
  _ <- (if (emailed : bool) then alter_registration "emailed" id rg_emailed
        else alter_registration "not emailed" id (rg_failed "exam link email not sent — resend it from the admin panel"));;
  return_ emailed.

(** [fulfil] once this caller has moved the registration. *)
Definition grant (h : CertificationHandler) (id : string) (r : RegistrationRow) (e : ExamRow) : Svc Shop (certFulfilResult + FulfilError) :=
  raw <- draw (λ n, randomToken n 32);;
  match raw with
  | None => return_ (inr (FulfilFailed "generate claim token"))
  | Some raw =>
      let token := of_bytes raw in
      now <- clock_now;;
      let expires := now + days_duration (ex_link_valid_days e) in
      account <- provision (rg_name r) (rg_email r) (rg_phone r) (ex_assessment_id e) expires;;
      match account with
      | inr msg => _ <- alter_registration "note error" id (rg_failed (clip msg 500));; return_ (inr (FulfilFailed msg))
      | inl (user, invite) =>
          stored <- store_claim id user invite (sha256Hex token) expires;;
          match stored with
          | inr msg => return_ (inr (FulfilFailed msg))
          | inl _ =>
              emailed <- mail_link h id r e token expires;;
              book_exam h id r e;;
              return_ (inl {| cr_Status := RegPaid; cr_Email := rg_email r; cr_ExamName := ex_title e; cr_Emailed := emailed;
                              cr_ExpiresAt := rfc3339_text expires |})
          end
      end
  end.

Definition fulfil (h : CertificationHandler) (oid payment : string) : Svc Shop (certFulfilResult + FulfilError) :=
  moved <- mark_paid oid payment;;
  match moved with
  | inr msg => return_ (inr (FulfilFailed msg))
  | inl None => stored_outcome oid
  | inl (Some (id, r, e)) => grant h id r e
  end.

(** The empty expiry is left out of the answer. *)
Definition cert_fulfilled (f : certFulfilResult) : Reply :=
  write 200 ([("status", VStr (registration_status (cr_Status f))); ("email", VStr (cr_Email f));
    ("exam_name", VStr (cr_ExamName f)); ("emailed", VBool (cr_Emailed f))]
    ++ if String.eqb (cr_ExpiresAt f) "" then [] else [("expires_at", VStr (cr_ExpiresAt f))]).

Definition handleVerify (h : CertificationHandler) (body : option string) : Svc Shop Reply :=
  if negb (enabled (ce_pay h)) then return_ (fail 503 "exam registration is not available")
  else
    match body with
    | None => return_ (fail 400 "invalid request")
    | Some oid =>
        if negb (has_prefix "cert_" oid) then return_ (fail 400 "invalid request")
        else
          paid <- paidOrder oid;;
          match paid with
          | NotPaid => return_ (fail 402 "the payment was not completed — no money was taken. Please try again")
          | LookupFailed =>
              return_ (fail 502 "we could not confirm your payment with the gateway yet — if money was deducted, your exam link will follow within a few minutes")
          | PaidFor payment paise =>
              check <- checkAmount oid paise;;
              match check with
              | NotOurOrder | AmountWrong =>
                  return_ (fail 400 ("the payment could not be matched to your registration — contact us with order id " +:+ oid))
              | AmountOk =>
                  res <- fulfil h oid payment;;
                  return_ (match res with
                           | inr _ => fail 500 "your payment was received but we could not issue your exam link — our team can send it to you"
                           | inl f => cert_fulfilled f
                           end)
              end
          end
    end.

Definition handleWebhook (h : CertificationHandler) (r : WebhookRequest) : Svc Shop Reply :=
  if negb (enabled (ce_pay h)) then return_ (fail 404 "not found")
  else
    match parseWebhook (ce_pay h) r with
    | inr msg => return_ (fail 400 msg)
    | inl ev =>
        if negb (succeeded ev) || negb (has_prefix "cert_" (ev_OrderID ev)) then return_ acknowledged
        else
          check <- checkAmount (ev_OrderID ev) (ev_PaidPaise ev);;
          match check with
          | NotOurOrder | AmountWrong => return_ acknowledged
          | AmountOk =>
              res <- fulfil h (ev_OrderID ev) (ev_PaymentID ev);;
              return_ (match res with
                       | inr (FulfilFailed _) => fail 500 "fulfilment failed"
                       | inr NotOurs | inl _ => acknowledged
                       end)
          end
    end.

(** ** The link *)

(** [GenerateToken] *)
Definition GenerateToken (claims : Claims) (now lifetime : Z) (key : string) : option string :=
  sign_token claims now (now + lifetime) key.

(** The registration a link's digest belongs to, with its exam, account and
    the invitation's token. *)
Definition claim_row (hash : string) (st : Stamp) (s : Shop) : option (string * RegistrationRow * ExamRow * (string * Account) * string) :=
  '(id, r) ← first_row st (sh_registrations s) (λ _ r, bool_decide (rg_claim_token_hash r = Some hash));
  e ← sh_exams s !! rg_exam_id r;
  user ← rg_user_id r;
  u ← sh_users s !! user;
  Some (id, r, e, (user, u), match rg_invite_id r ≫= (sh_invites s !!.) with Some i => iv_token i | None => "" end).

Definition claim_answer (token : string) (id user assessment title invite_token : string) (u : Account) : Reply :=
  write 200 [("token", VStr token);
    ("user", VObj [("id", VStr user); ("email", VStr (ac_email u)); ("name", VStr (ac_name u)); ("role", VStr (ac_role u))]);
    ("assessmentId", VStr assessment); ("inviteToken", VStr invite_token); ("examTitle", VStr title); ("registrationId", VStr id)].

(** Opens the session of a link that may be used. *)
Definition open_session (h : CertificationHandler) (id : string) (e : ExamRow) (user : string) (u : Account) (invite_token : string)
    : Svc Shop Reply :=
  claimed <- alter_registration "claimed" id rg_claimed;;
  match claimed with
  | inr _ => return_ (fail 500 "could not open your exam, please try again")
  | inl _ =>
      now <- clock_now;;
      return_ (match GenerateToken {| cl_UserID := user; cl_Email := ac_email u; cl_Role := ac_role u |} now
                       (24 * 3600 * nanos) (ce_jwtSecret h) with
               | None => fail 500 "could not open your exam, please try again"
               | Some token => claim_answer token id user (ex_assessment_id e) (ex_title e) invite_token u
               end)
  end.

Definition handleClaim (h : CertificationHandler) (ip : string) (body : option string) : Svc Shop Reply :=
  match body with
  | None => return_ (fail 400 "invalid request body")
  | Some token =>
      let raw := clip token 200 in
      if String.eqb raw "" then return_ (fail 400 "this link is missing its access token")
      else
        allowed <- limited "certification ip" (ce_ipLimiter h) ("cert-claim:" +:+ ip);;
        if negb allowed then
          return_ (fail 429 "too many attempts from this network — please try again in a few minutes")
        else
          found <- query "select claim" (λ st s, Some (claim_row (sha256Hex raw) st s));;
          match found with
          | inr _ => return_ (fail 500 "could not open your exam, please try again")
          | inl None =>
              return_ (fail 401 "this link is no longer valid — please contact us if you have paid for this exam")
          | inl (Some (id, r, e, (user, u), invite_token)) =>
              late <- (match rg_claim_expires_at r with
                       | Some t => now <- clock_now;; return_ (t <? now)
                       | None => return_ false
                       end);;
              if (late : bool) then
                _ <- alter_registration_if "expire" id (λ r, sittable (rg_status r)) (rg_status_to RegExpired);;
                return_ (fail 401 "this exam link has expired — contact us to have it extended")
              else if certTerminal (rg_status r) then return_ (fail 409 "you have already sat this exam")
              else if bool_decide (rg_status r = RegCreated) then
                return_ (fail 409 "we have not received payment for this exam yet")
              else if negb (String.eqb (ac_role u) "applicant") then
                return_ (fail 409 ("you already have a Knovate account — sign in with your password and the exam will be waiting in your tests (use "
                  +:+ String quote_mark ("Forgot password" +:+ String quote_mark " if you need to set one)")))
              else open_session h id e user u invite_token
          end
  end.

(** ** The result *)

(** The newest registration of the attempt's account for an exam with the
    attempt's paper. *)
Definition outcome_row (attempt : string) (st : Stamp) (s : Shop)
    : option (string * RegistrationRow * ExamRow * (string * Account) * AttemptView) :=
  a ← sh_attempts s !! attempt;
  '(id, r) ← newest_row st (sh_registrations s) (λ r, bool_decide (rg_user_id r = Some (av_user_id a))
    && match sh_exams s !! rg_exam_id r with
       | Some e => String.eqb (ex_assessment_id e) (av_assessment_id a)
       | None => false
       end);
  e ← sh_exams s !! rg_exam_id r;
  u ← sh_users s !! av_user_id a;
  Some (id, r, e, (av_user_id a, u), a).

Definition still_grading (status : string) : bool :=
  String.eqb status "in_progress" || String.eqb status "submitted" || String.eqb status "evaluating".

Definition fzero : float64 := of_Z 0.

Definition attempt_percent (a : AttemptView) : float64 :=
  match av_score a, av_max_score a with
  | Some x, Some m => if fltb fzero m then fmul (fdiv x m) (of_Z 100) else fzero
  | _, _ => fzero
  end.

Definition exam_passed (e : ExamRow) (a : AttemptView) : bool :=
  fleb (ex_pass_percent e) (attempt_percent a) && String.eqb (av_status a) "evaluated".

Definition roundTo (v : float64) (places : nat) : float64 :=
  match parse_float (format_fixed places v) with Some f => f | None => v end.

(** A credential is eight letters of a random token. *)
Definition newCredentialID (n : nat) : option string :=
  raw ← randomToken n 16;
  let out := map code_letter (firstn 8 raw) in
  Some ("KNV-" +:+ of_bytes (firstn 4 out) +:+ "-" +:+ of_bytes (skipn 4 out)).

(** The certificate of a registration: its index is unique. *)
Definition certificate_of (s : Shop) (st : Stamp) (reg : string) : option (string * CertificateRow) :=
  first_row st (sh_certificates s) (λ _ c, bool_decide (ct_registration_id c = Some reg)).

(** INSERT … ON CONFLICT (registration_id) DO NOTHING RETURNING: [inl None] is
    no row. *)
Definition insert_certificate (reg : string) (row : RegistrationRow → Z → CertificateRow)
    : Svc Shop (option CertificateRow + string) :=
  call "insert certificate" (λ st s,
    match sh_registrations s !! reg with
    | None => Some (None, s)
    | Some r =>
        let c := row r (st_time st) in
        match certificate_of s st reg with
        | Some _ => Some (None, s)
        | None =>
            if some_row (sh_certificates s) (λ c', String.eqb (ct_credential_id c') (ct_credential_id c))
               || bool_decide (is_Some (sh_certificates s !! st_fresh st)) then None
            else Some (Some c, with_certificates s (<[st_fresh st := c]> (sh_certificates s)))
        end
    end).

Definition new_certificate (credential user holder title attempt reg : string) (percent : float64) (r : RegistrationRow) (now : Z)
    : CertificateRow :=
  {| ct_credential_id := credential; ct_user_id := user; ct_holder_name := holder; ct_title := title; ct_source := "exam";
     ct_exam_id := Some (rg_exam_id r); ct_registration_id := Some reg; ct_attempt_id := Some attempt;
     ct_score_percent := to_numeric2 (roundTo percent 2); ct_issued_at := now; ct_revoked_at := None;
     ct_revoke_reason := "" |}.

(** Points the registration at its certificate. *)
Definition link_certificate (reg : string) : Svc Shop (unit + string) :=
  update "link certificate" (λ st s,
    with_registrations s (alter (rg_certified (fst <$> certificate_of s st reg) (st_time st)) reg (sh_registrations s))).

Definition issueCertificate (reg user holder title attempt : string) (percent : float64) : Svc Shop (CertificateRow + string) :=
  known <- query "select certificate" (λ st s, Some (snd <$> certificate_of s st reg));;
  match known with
  | inr msg => return_ (inr msg)
  | inl (Some c) => return_ (inl c)
  | inl None =>
      credential <- draw newCredentialID;;
      match credential with
      | None => return_ (inr "rand")
      | Some credential =>
          issued <- insert_certificate reg (new_certificate credential user holder title attempt reg percent);;
          match issued with
          | inr msg => return_ (inr msg)
          | inl None => query "read certificate" (λ st s, snd <$> certificate_of s st reg)
          | inl (Some c) => _ <- link_certificate reg;; return_ (inl c)
          end
      end
  end.

Definition not_certification : Reply := write 200 [("isCertification", VBool false)].

Definition outcome_fields (e : ExamRow) (a : AttemptView) : list (string * Value) :=
  [("isCertification", VBool true); ("examTitle", VStr (ex_title e)); ("evaluating", VBool false);
   ("passed", VBool (exam_passed e a)); ("scorePercent", VFloat (roundTo (attempt_percent a) 2));
   ("passPercent", VFloat (ex_pass_percent e))].

Definition credential_fields (h : CertificationHandler) (c : CertificateRow) : list (string * Value) :=
  [("credentialId", VStr (ct_credential_id c)); ("verifyUrl", VStr (ce_siteBase h +:+ "/verify/" +:+ ct_credential_id c));
   ("issuedAt", VStr (rfc3339_text (ct_issued_at c)))].

(** The answer of a graded attempt, and its certificate. *)
Definition report_outcome (h : CertificationHandler) (attempt id : string) (e : ExamRow) (user : string) (u : Account)
    (a : AttemptView) : Svc Shop Reply :=
  _ <- alter_registration_if "outcome" id
         (λ r, match rg_status r with RegPaid | RegStarted | RegSubmitted => true | _ => false end)
         (rg_status_to (if exam_passed e a then RegPassed else RegFailed));;
  if exam_passed e a then
    issued <- issueCertificate id user (ac_name u) (ex_title e) attempt (attempt_percent a);;
    return_ (write 200 (outcome_fields e a ++ match issued with inl c => credential_fields h c | inr _ => [] end))
  else return_ (write 200 (outcome_fields e a)).

Definition handleOutcome (h : CertificationHandler) (attemptId : string) : Svc Shop Reply :=
  let attempt := trim_space attemptId in
  if String.eqb attempt "" then return_ (fail 400 "attemptId is required")
  else
    found <- query "select outcome" (λ st s, Some (outcome_row attempt st s));;
    match found with
    | inr _ => return_ (fail 500 "could not load your result, please try again")
    | inl None => return_ not_certification
    | inl (Some (id, _, e, (user, u), a)) =>
        if still_grading (av_status a) then
          return_ (write 200 [("isCertification", VBool true); ("examTitle", VStr (ex_title e)); ("evaluating", VBool true);
                     ("passPercent", VFloat (ex_pass_percent e))])
        else report_outcome h attempt id e user u a
    end.

(** ** Credentials *)

Definition certificate_item (h : CertificationHandler) (c : CertificateRow) : list (string * Value) :=
  [("credentialId", VStr (ct_credential_id c)); ("title", VStr (ct_title c)); ("scorePercent", VFloat (ct_score_percent c));
   ("issuedAt", VStr (iso_date (ct_issued_at c))); ("revoked", VBool (bool_decide (is_Some (ct_revoked_at c))));
   ("source", VStr (ct_source c)); ("verifyUrl", VStr (ce_siteBase h +:+ "/verify/" +:+ ct_credential_id c))].

(** Of one user, newest first. *)
Definition certificates_of (user : string) (st : Stamp) (s : Shop) : list CertificateRow :=
  order_by (λ a b, ct_issued_at b <=? ct_issued_at a)
    (omap (λ id, c ← sh_certificates s !! id; if String.eqb (ct_user_id c) user then Some c else None)
       (st_rows st (map fst (map_to_list (sh_certificates s))))).

Definition handleMine (h : CertificationHandler) (user : string) : Svc Shop Reply :=
  if String.eqb user "" then return_ (fail 401 "authentication required")
  else
    rows <- query "list certificates" (λ st s, Some (certificates_of user st s));;
    return_ (match rows with
             | inr _ => fail 500 "could not load your certificates"
             | inl l => write 200 [("certificates", VRows (map (certificate_item h) l))]
             end).

Definition credential_answer (c : CertificateRow) : Reply :=
  write 200 ([("found", VBool true); ("credentialId", VStr (ct_credential_id c)); ("holderName", VStr (ct_holder_name c));
    ("title", VStr (ct_title c)); ("issuedAt", VStr (iso_date (ct_issued_at c)));
    ("revoked", VBool (bool_decide (is_Some (ct_revoked_at c))))]
    ++ match ct_revoked_at c with
       | Some t => [("revokedAt", VStr (iso_date t)); ("revokeReason", VStr (ct_revoke_reason c))]
       | None => [("scorePercent", VFloat (ct_score_percent c))]
       end).

(** [strings.ToUpper]; see [to_upper_bytes] for what is not ASCII. *)
Definition handleCredential (credentialID : string) : Svc Shop Reply :=
  let id := of_bytes (to_upper_bytes (to_bytes (clip (trim_space credentialID) 40))) in
  if String.eqb id "" then return_ (fail 400 "credential id is required")
  else
    found <- query "select credential" (λ st s,
      Some (snd <$> first_row st (sh_certificates s) (λ _ c, String.eqb (pg_upper (ct_credential_id c)) id)));;
    return_ (match found with
             | inr _ => fail 500 "could not check that credential, please try again"
             | inl None => write 404 [("found", VBool false)]
             | inl (Some c) => credential_answer c
             end).

(** ** The sweeper *)

(** A link that lapsed and whose candidate never started. *)
Definition stale (now : Z) (s : Shop) (r : RegistrationRow) : bool :=
  sittable (rg_status r)
  && match rg_claim_expires_at r with Some t => t <? now | None => false end
  && negb (some_row (sh_attempts s) (λ a, bool_decide (rg_user_id r = Some (av_user_id a))
       && match sh_exams s !! rg_exam_id r with
          | Some e => String.eqb (av_assessment_id a) (ex_assessment_id e)
          | None => false
          end)).

Definition expireStale : Svc Shop (Z + string) :=
  call "expire registrations" (λ st s,
    Some (Z.of_nat (length (filter (λ kr, stale (st_time st) s (snd kr) = true) (map_to_list (sh_registrations s)))),
          with_registrations s ((λ r, if stale (st_time st) s r then rg_status_to RegExpired (st_time st) r else r)
            <$> sh_registrations s))).
End Candidate.
