(* ===== verification/CertifyDesk.v ===== *)
(** Certification exams, the staff's side
    (services/api-gateway/graph/resolvers/certification_admin.go): putting an
    exam on sale, refunds, certificates issued by hand and revoked, links
    resent and extended. *)

From S2P Require Import Prelude GoStrings Float64 GoTime Gateway Service Shop Referral Cashfree Checkout Certify.
From Stdlib Require Import Ascii.

#[local] Open Scope Z_scope.
#[local] Open Scope service_scope.

Definition slugRe (s : bytes) : bool :=
  negb (bool_decide (s = []))
  && forallb (λ a, ((97 <=? code a) && (code a <=? 122))%nat || is_digit_byte a || Ascii.eqb a "-") s.

(** [parseOptionalTime]: anything unreadable is no time. *)
Definition parseOptionalTime (s : string) : option Z :=
  let s := trim_space s in if String.eqb s "" then None else parse_rfc3339 s.

Record ExamInput := {
  xi_Slug : string;
  xi_Title : string;
  xi_CourseID : string;
  xi_AssessmentID : string;
  xi_PriceRupees : Z;
  xi_PassPercent : float64;
  xi_LinkValidDays : Z;
  xi_ResitWaitDays : Z;
  xi_Summary : string;
  xi_IsActive : option bool;
  xi_OpensAt : string;
  xi_ClosesAt : string;
}.

Record RegistrationInput := { ri_Notes : option string; ri_Action : string; ri_Reason : string }.

Section Desk.
Context {PL : PgLower} {R : Random} {D : Digests} {CE : CertEnv}.

(** ** Exams *)

Definition exam_slug (req : ExamInput) : string := to_lower (clip (trim_space (xi_Slug req)) 80).
Definition exam_title (req : ExamInput) : string := clip (trim_space (xi_Title req)) 160.

(** Why a request is refused before the database is asked. *)
Definition exam_refused (req : ExamInput) : option string :=
  if String.eqb (exam_slug req) "" || String.eqb (exam_title req) "" then Some "slug and title are required"
  else if negb (slugRe (to_bytes (exam_slug req))) then
    Some "the slug may contain only lowercase letters, numbers and hyphens"
  else if String.eqb (xi_AssessmentID req) "" then Some "choose the paper candidates will sit"
  else if xi_PriceRupees req <? 0 then Some "the price cannot be negative"
  else if fltb (xi_PassPercent req) fzero || fltb (of_Z 100) (xi_PassPercent req) then
    Some "the pass mark must be between 0 and 100"
  else if (xi_LinkValidDays req <? 1) || (365 <? xi_LinkValidDays req) then
    Some "the link must be valid for between 1 and 365 days"
  else None.

Definition exam_row (req : ExamInput) : ExamRow :=
  {| ex_slug := exam_slug req; ex_title := exam_title req; ex_course_id := clip (trim_space (xi_CourseID req)) 60;
     ex_assessment_id := xi_AssessmentID req; ex_price_paise := int64 (xi_PriceRupees req * 100);
     ex_pass_percent := to_numeric2 (xi_PassPercent req); ex_link_valid_days := xi_LinkValidDays req;
     ex_resit_wait_days := if xi_ResitWaitDays req <? 0 then 0 else xi_ResitWaitDays req;
     ex_summary := clip (trim_space (xi_Summary req)) 2000; ex_is_active := default true (xi_IsActive req);
     ex_opens_at := parseOptionalTime (xi_OpensAt req); ex_closes_at := parseOptionalTime (xi_ClosesAt req) |}.

(** INSERT … ON CONFLICT (slug) DO UPDATE … RETURNING id, under the table's
    check of the price and the width of the INT columns. *)
Definition upsert_exam (row : ExamRow) : Svc Shop (string + string) :=
  call "upsert exam" (λ st s,
    if (ex_price_paise row <? 0) || (2 ^ 31 <=? ex_resit_wait_days row) then None
    else
      match first_row st (sh_exams s) (λ _ e, String.eqb (ex_slug e) (ex_slug row)) with
      | Some (id, _) => Some (id, with_exams s (<[id := row]> (sh_exams s)))
      | None =>
          match sh_exams s !! st_fresh st with
          | Some _ => None
          | None => Some (st_fresh st, with_exams s (<[st_fresh st := row]> (sh_exams s)))
          end
      end).

Definition UpsertExam (body : option ExamInput) : Svc Shop Reply :=
  match body with
  | None => return_ (fail 400 "invalid request body")
  | Some req =>
      match exam_refused req with
      | Some msg => return_ (fail 400 msg)
      | None =>
          paper <- query "select paper" (λ _ s, Some (sh_papers s !! xi_AssessmentID req));;
          match paper with
          | inr _ => return_ (fail 500 "could not save the exam")
          | inl None => return_ (fail 400 "that paper no longer exists")
          | inl (Some p) =>
              if negb (equal_fold (pv_purpose p) "certification") then
                return_ (fail 400 ("that paper's type is '" +:+ pv_purpose p
                  +:+ "' — a certification exam needs a paper of type 'certification' so it stays invite-only"))
              else
                let row := exam_row req in
                if match ex_opens_at row, ex_closes_at row with Some o, Some c => c <? o | _, _ => false end then
                  return_ (fail 400 "the window closes before it opens")
                else
                  stored <- upsert_exam row;;
                  return_ (match stored with
                           | inr _ => fail 500 "could not save the exam"
                           | inl id =>
                               if String.eqb (pv_status p) "published" then write 200 [("success", VBool true); ("id", VStr id)]
                               else write 200 [("success", VBool true); ("id", VStr id);
                                 ("warning", VStr "saved, but the paper is still a draft — the exam stays off sale until it is published")]
                           end)
          end
      end
  end.

Definition DeleteExam (id : string) : Svc Shop Reply :=
  used <- query "count registrations" (λ _ s,
    Some (Z.of_nat (length (filter (λ kr, rg_exam_id (snd kr) = id) (map_to_list (sh_registrations s))))));;
  match used with
  | inr _ => return_ (fail 400 "unknown exam")
  | inl used =>
      if 0 <? used then
        return_ (fail 409 (format_int used +:+ " people have registered for this exam — pause it instead of deleting it"))
      else
        gone <- call "delete exam" (λ _ s,
          if some_row (sh_registrations s) (λ r, String.eqb (rg_exam_id r) id) then None
          else Some (bool_decide (is_Some (sh_exams s !! id)), with_exams s (delete id (sh_exams s))));;
        return_ (match gone with
                 | inr _ => fail 500 "could not delete the exam"
                 | inl false => fail 404 "exam not found"
                 | inl true => write 200 [("success", VBool true)]
                 end)
  end.

(** ** Registrations *)

(** The newest attempt of a registration's account at the exam's paper. *)
Definition later_attempt (a : option (string * AttemptView)) (b : string * AttemptView) : option (string * AttemptView) :=
  match a with
  | Some a => if av_started_at (snd a) <? av_started_at (snd b) then Some b else Some a
  | None => Some b
  end.

Definition newest_attempt (st : Stamp) (s : Shop) (paper user : string) : option (string * AttemptView) :=
  foldl later_attempt None
    (omap (λ id, a ← sh_attempts s !! id;
             if String.eqb (av_assessment_id a) paper && String.eqb (av_user_id a) user then Some (id, a) else None)
       (st_rows st (map fst (map_to_list (sh_attempts s))))).

(** What a certificate issued by hand is made of. *)
Definition issue_row (id : string) (st : Stamp) (s : Shop) : option (string * Account * ExamRow * option (string * AttemptView)) :=
  r ← sh_registrations s !! id;
  e ← sh_exams s !! rg_exam_id r;
  user ← rg_user_id r;
  u ← sh_users s !! user;
  Some (user, u, e, newest_attempt st s (ex_assessment_id e) user).

Definition set_notes (notes : string) (now : Z) (r : RegistrationRow) : RegistrationRow :=
  {| rg_exam_id := rg_exam_id r; rg_name := rg_name r; rg_email := rg_email r; rg_phone := rg_phone r;
     rg_user_id := rg_user_id r; rg_invite_id := rg_invite_id r; rg_amount_paise := rg_amount_paise r;
     rg_status := rg_status r; rg_claim_token_hash := rg_claim_token_hash r;
     rg_claim_expires_at := rg_claim_expires_at r; rg_claimed_at := rg_claimed_at r;
     rg_certificate_id := rg_certificate_id r; rg_emailed_at := rg_emailed_at r; rg_error := rg_error r;
     rg_notes := notes; rg_referral_code := rg_referral_code r; rg_referral_discount := rg_referral_discount r;
     rg_referral_flags := rg_referral_flags r; rg_gateway_order_id := rg_gateway_order_id r;
     rg_gateway_payment_id := rg_gateway_payment_id r; rg_created_at := rg_created_at r; rg_paid_at := rg_paid_at r;
     rg_updated_at := now |}.

Definition refundable (r : RegistrationRow) : bool :=
  match rg_status r with RegPaid | RegCreated | RegExpired => true | _ => false end.

Definition rg_refunded (now : Z) (r : RegistrationRow) : RegistrationRow :=
  set_rg r RegRefunded None (rg_claim_expires_at r) (rg_error r) now.

(** UPDATE assessment_invites … WHERE id = the registration's invitation *)
Definition alter_invite (label reg : string) (f : Z → InviteRow → InviteRow) : Svc Shop (unit + string) :=
  update label (λ st s,
    match sh_registrations s !! reg ≫= rg_invite_id with
    | Some invite => with_invites s (alter (f (st_time st)) invite (sh_invites s))
    | None => s
    end).

Definition set_invite (i : InviteRow) (status : string) (expires sent : Z) : InviteRow :=
  {| iv_assessment_id := iv_assessment_id i; iv_email := iv_email i; iv_user_id := iv_user_id i; iv_token := iv_token i;
     iv_status := status; iv_expires_at := expires; iv_sent_at := sent |}.

Definition success : Reply := write 200 [("success", VBool true)].

Definition refund (referrals : option ReferralHandler) (id : string) : Svc Shop Reply :=
  n <- alter_registration_if "refund" id refundable rg_refunded;;
  match n with
  | inr _ => return_ (fail 500 "could not record the refund")
  | inl n =>
      if n =? 0 then return_ (fail 409 "only a registration that has not been sat can be refunded here")
      else
        _ <- alter_invite "withdraw invite" id (λ now i, set_invite i "expired" now (iv_sent_at i));;
        _ <- (match referrals with
              | Some _ => ReverseConversion referralKindExam id "the exam registration was refunded"
              | None => return_ tt
              end);;
        return_ success
  end.

(** The attempt's id goes into a uuid column: without an attempt the insert
    fails. *)
Definition issue_by_hand (id : string) : Svc Shop Reply :=
  found <- query "select registration" (issue_row id);;
  match found with
  | inr _ => return_ (fail 404 "registration not found")
  | inl (user, u, e, attempt) =>
      issued <- (match attempt with
                 | Some (a, v) => issueCertificate id user (ac_name u) (ex_title e) a
                     (match av_score v, av_max_score v with
                      | Some x, Some m => if fltb fzero m then numeric_percent x m else fzero
                      | _, _ => fzero
                      end)
                 | None =>
                     known <- query "select certificate" (λ st s, Some (snd <$> certificate_of s st id));;
                     return_ (match known with inl (Some c) => inl c | _ => inr "invalid input syntax for type uuid" end)
                 end);;
      match issued with
      | inr _ => return_ (fail 500 "could not issue the certificate")
      | inl c =>
          _ <- alter_registration "mark passed" id (rg_status_to RegPassed);;
          return_ (write 200 [("success", VBool true); ("credential_id", VStr (ct_credential_id c))])
      end
  end.

Definition revoked (reason : string) (now : Z) (c : CertificateRow) : CertificateRow :=
  {| ct_credential_id := ct_credential_id c; ct_user_id := ct_user_id c; ct_holder_name := ct_holder_name c;
     ct_title := ct_title c; ct_source := ct_source c; ct_exam_id := ct_exam_id c;
     ct_registration_id := ct_registration_id c; ct_attempt_id := ct_attempt_id c;
     ct_score_percent := ct_score_percent c; ct_issued_at := ct_issued_at c; ct_revoked_at := Some now;
     ct_revoke_reason := reason |}.

Definition revoke (id reason : string) : Svc Shop Reply :=
  let reason := clip (trim_space reason) 500 in
  if String.eqb reason "" then return_ (fail 400 "give a reason — it is shown on the public verification page")
  else
    n <- call "revoke certificate" (λ st s,
      match first_row st (sh_certificates s) (λ _ c, bool_decide (ct_registration_id c = Some id)
                                                    && bool_decide (ct_revoked_at c = None)) with
      | Some (k, c) => Some (1, with_certificates s (<[k := revoked reason (st_time st) c]> (sh_certificates s)))
      | None => Some (0, s)
      end);;
    return_ (match n with
             | inr _ => fail 500 "could not revoke the certificate"
             | inl n => if n =? 0 then fail 409 "there is no active certificate for this registration" else success
             end).

Definition registration_action (referrals : option ReferralHandler) (id : string) (req : RegistrationInput) : Svc Shop Reply :=
  if String.eqb (ri_Action req) "" then return_ success
  else if String.eqb (ri_Action req) "refund" then refund referrals id
  else if String.eqb (ri_Action req) "issue_certificate" then issue_by_hand id
  else if String.eqb (ri_Action req) "revoke_certificate" then revoke id (ri_Reason req)
  else return_ (fail 400 "unknown action").

Definition UpdateRegistration (h : CertificationHandler) (id : string) (body : option RegistrationInput) : Svc Shop Reply :=
  match body with
  | None => return_ (fail 400 "invalid request body")
  | Some req =>
      match ri_Notes req with
      | None => registration_action (ce_Referrals h) id req
      | Some notes =>
          saved <- alter_registration "notes" id (set_notes (clip notes 2000));;
          match saved with
          | inr _ => return_ (fail 500 "could not save your note")
          | inl _ => registration_action (ce_Referrals h) id req
          end
      end
  end.

(** ** Links *)

Definition rg_relinked (hash : string) (expires now : Z) (r : RegistrationRow) : RegistrationRow :=
  set_rg r RegPaid (Some hash) (Some expires) (rg_error r) now.

Definition rotate_claim (id hash : string) (expires : Z) : Svc Shop (unit + string) :=
  call "rotate claim token" (λ st s,
    if existsb (λ kr, negb (String.eqb (fst kr) id) && bool_decide (rg_claim_token_hash (snd kr) = Some hash))
         (map_to_list (sh_registrations s))
    then None
    else Some (tt, with_registrations s (alter (rg_relinked hash expires (st_time st)) id (sh_registrations s)))).

Definition ResendLink (h : CertificationHandler) (id : string) : Svc Shop Reply :=
  found <- query "select registration" (λ _ s, r ← sh_registrations s !! id; e ← sh_exams s !! rg_exam_id r; Some (r, e));;
  match found with
  | inr _ => return_ (fail 404 "registration not found")
  | inl (r, e) =>
      if bool_decide (rg_status r = RegCreated) then return_ (fail 409 "this registration has not been paid for")
      else if certTerminal (rg_status r) && negb (bool_decide (rg_status r = RegExpired)) then
        return_ (fail 409 "this exam has already been sat")
      else
        raw <- draw (λ n, randomToken n 32);;
        match raw with
        | None => return_ (fail 500 "could not issue a new link")
        | Some raw =>
            let token := of_bytes raw in
            now <- clock_now;;
            let expires := now + days_duration (ex_link_valid_days e) in
            stored <- rotate_claim id (sha256Hex token) expires;;
            match stored with
            | inr _ => return_ (fail 500 "could not issue a new link")
            | inl _ =>
                _ <- alter_invite "move invite" id (λ now i, set_invite i "invited" expires now);;
                let url := exam_url h token in
                emailed <- sendExamLink h (rg_name r) (rg_email r) (ex_title e) url expires;;
                _ <- (if (emailed : bool) then alter_registration "emailed" id rg_emailed else return_ (inl tt));;
                return_ (write 200 [("success", VBool emailed); ("email", VStr (rg_email r)); ("url", VStr url);
                  ("expires_at", VStr (rfc3339_text expires))])
            end
        end
  end.

Definition rg_extended (until now : Z) (r : RegistrationRow) : RegistrationRow :=
  set_rg r RegPaid (rg_claim_token_hash r) (Some until) (rg_error r) now.

Definition extendable (r : RegistrationRow) : bool :=
  bool_decide (is_Some (rg_claim_token_hash r))
  && match rg_status r with RegPaid | RegStarted | RegExpired => true | _ => false end.

(** A body that does not decode asks for 0 days. *)
Definition ExtendLink (id : string) (days : Z) : Svc Shop Reply :=
  let days := if (days <? 1) || (365 <? days) then 30 else days in
  now <- clock_now;;
  let until := now + days_duration days in
  n <- alter_registration_if "extend link" id extendable (rg_extended until);;
  match n with
  | inr _ => return_ (fail 500 "could not extend the link")
  | inl n =>
      if n =? 0 then return_ (fail 409 "this registration has no live link to extend — resend it instead")
      else
        _ <- alter_invite "extend invite" id (λ _ i, set_invite i "invited" until (iv_sent_at i));;
        return_ (write 200 [("success", VBool true); ("expires_at", VStr (rfc3339_text until))])
  end.
End Desk.
