(* ===== verification/Certified.v ===== *)
(** What certification promises: accounts that exist are never given another
    password or role, a registration has one certificate that nothing but a
    revocation changes, sessions open and certificates issue only when they
    are earned, and a payment leads to the exam.  And what it does not. *)

From S2P Require Import Prelude GoStrings Float64 GoTime Gateway Service Shop Referral Cashfree Checkout Certify CertifyDesk.
From Stdlib Require Import Ascii.

#[local] Open Scope Z_scope.
#[local] Open Scope service_scope.

(** ** Requests *)

Section Requests.
Context {PL : PgLower} {R : Random} {D : Digests} {AD : Addresses} {CF : CashfreeAPI} {CE : CertEnv}.

Inductive CertRequest :=
  | Order (h : CertificationHandler) (ip : string) (body : option CertOrderInput)
  | VerifyExam (h : CertificationHandler) (body : option string)
  | NotifyExam (h : CertificationHandler) (r : WebhookRequest)
  | Claim (h : CertificationHandler) (ip : string) (body : option string)
  | Outcome (h : CertificationHandler) (attempt : string)
  | Sweep
  | PutExam (body : option ExamInput)
  | DropExam (id : string)
  | Administer (h : CertificationHandler) (id : string) (body : option RegistrationInput)
  | Resend (h : CertificationHandler) (id : string)
  | Extend (id : string) (days : Z).

Definition ignore {A} (m : Svc Shop A) : Svc Shop unit := _ <- m;; return_ tt.

Definition serve_cert (r : CertRequest) : Svc Shop unit :=
  match r with
  | Order h ip body => ignore (Certify.handleOrder h ip body)
  | VerifyExam h body => ignore (Certify.handleVerify h body)
  | NotifyExam h r => ignore (Certify.handleWebhook h r)
  | Claim h ip body => ignore (handleClaim h ip body)
  | Outcome h attempt => ignore (handleOutcome h attempt)
  | Sweep => ignore expireStale
  | PutExam body => ignore (UpsertExam body)
  | DropExam id => ignore (DeleteExam id)
  | Administer h id body => ignore (UpdateRegistration h id body)
  | Resend h id => ignore (ResendLink h id)
  | Extend id days => ignore (ExtendLink id days)
  end.

(** Requests one after another; a panic ends its own only. *)
Fixpoint serve_certs (l : list CertRequest) : Svc Shop unit :=
  match l with
  | [] => return_ tt
  | r :: l => _ <- try (serve_cert r);; serve_certs l
  end.

(** ** The invariant *)

(** The account of [u] later on. *)
Definition kept_account (u v : Account) : Prop :=
  ac_email v = ac_email u ∧ ac_password v = ac_password u ∧ ac_role v = ac_role u ∧
  (ac_role u ≠ "applicant" → ac_name v = ac_name u).

Definition accounts_kept (s0 s : Shop) : Prop :=
  ∀ k u, sh_users s0 !! k = Some u → ∃ v, sh_users s !! k = Some v ∧ kept_account u v.

(** The certificate [c] later on: at most revoked, once. *)
Definition kept_certificate (c d : CertificateRow) : Prop :=
  ct_credential_id d = ct_credential_id c ∧ ct_user_id d = ct_user_id c ∧ ct_holder_name d = ct_holder_name c ∧
  ct_title d = ct_title c ∧ ct_registration_id d = ct_registration_id c ∧ ct_attempt_id d = ct_attempt_id c ∧
  ct_score_percent d = ct_score_percent c ∧ ct_issued_at d = ct_issued_at c ∧
  (ct_revoked_at c ≠ None → d = c).

Definition certificates_kept (s0 s : Shop) : Prop :=
  ∀ k c, sh_certificates s0 !! k = Some c → ∃ d, sh_certificates s !! k = Some d ∧ kept_certificate c d.

(** What the unique indexes promise. *)
Record indexed (s : Shop) : Prop := {
  ix_registration i j c d : sh_certificates s !! i = Some c → sh_certificates s !! j = Some d →
    ct_registration_id c = ct_registration_id d → is_Some (ct_registration_id c) → i = j;
  ix_credential i j c d : sh_certificates s !! i = Some c → sh_certificates s !! j = Some d →
    ct_credential_id c = ct_credential_id d → i = j;
  ix_claim i j r q : sh_registrations s !! i = Some r → sh_registrations s !! j = Some q →
    rg_claim_token_hash r = rg_claim_token_hash q → is_Some (rg_claim_token_hash r) → i = j;
}.

Definition certified (s0 s : Shop) : Prop := indexed s ∧ accounts_kept s0 s ∧ certificates_kept s0 s.

#[global] Instance kept_account_preorder : PreOrder kept_account.
Proof.
  split; [by intros u|]. intros u v w (A1 & A2 & A3 & A4) (B1 & B2 & B3 & B4). unfold kept_account.
  split_and!; try congruence. intros H. rewrite B4 by congruence. by apply A4.
Qed.

#[global] Instance kept_certificate_preorder : PreOrder kept_certificate.
Proof.
  split; [by intros u|]. intros u v w A B. unfold kept_certificate in *.
  destruct A as (A1 & A2 & A3 & A4 & A5 & A6 & A7 & A8 & A9), B as (B1 & B2 & B3 & B4 & B5 & B6 & B7 & B8 & B9).
  split_and!; try congruence. intros H. pose proof (A9 H). subst v. auto.
Qed.

(** Steps that touch neither accounts nor certificates nor digests. *)
Lemma certified_frame s0 s s' :
  sh_users s' = sh_users s → sh_certificates s' = sh_certificates s →
  (∀ i r, sh_registrations s' !! i = Some r → rg_claim_token_hash r = None ∨
     ∃ q, sh_registrations s !! i = Some q ∧ rg_claim_token_hash q = rg_claim_token_hash r) →
  certified s0 s → certified s0 s'.
Proof.
  intros Eu Ec Hr [[A B C] [Hu Hc]]. unfold certified, accounts_kept, certificates_kept. rewrite Eu, Ec.
  split; [split|auto]; rewrite ?Ec; [exact A|exact B|]. intros i j r q Hi Hj E [x Hx].
  destruct (Hr _ _ Hi) as [Hn|(r1 & H1 & E1)]; [congruence|]. destruct (Hr _ _ Hj) as [Hn|(q1 & H2 & E2)]; [congruence|].
  eapply C; [exact H1|exact H2|congruence|]. rewrite E1, Hx. by eexists.
Qed.

Lemma preserves_frame {A} s0 label (f : Stamp → Shop → option (A * Shop)) :
  (∀ st s x s', f st s = Some (x, s') →
     sh_users s' = sh_users s ∧ sh_certificates s' = sh_certificates s ∧ sh_registrations s' = sh_registrations s) →
  preserves (certified s0) (call label f).
Proof.
  intros Hf. apply preserves_try, preserves_effect. intros st s x s' Hs E. destruct (Hf _ _ _ _ E) as (E1 & E2 & E3).
  apply (certified_frame _ s); [exact E1|exact E2| |exact Hs]. rewrite E3. intros i r Hi. right. by exists r.
Qed.

(** A statement on registrations sets no digest. *)
Definition keeps_claim (f : Z → RegistrationRow → RegistrationRow) : Prop :=
  ∀ t r, rg_claim_token_hash (f t r) = rg_claim_token_hash r ∨ rg_claim_token_hash (f t r) = None.

Lemma preserves_alter_registration s0 label id f :
  keeps_claim f → preserves (certified s0) (alter_registration label id f).
Proof.
  intros Hf. apply preserves_try, preserves_effect. intros st s x s' Hs [= _ <-].
  apply (certified_frame _ s); [done|done| |exact Hs]. cbn. intros i r Hi.
  destruct (decide (i = id)) as [->|Hne].
  - rewrite lookup_alter_eq in Hi. apply fmap_Some in Hi as (q & Hq & ->). destruct (Hf (st_time st) q); eauto.
  - rewrite lookup_alter_ne in Hi by done. eauto.
Qed.

Lemma preserves_alter_registration_if s0 label id p f :
  keeps_claim f → preserves (certified s0) (alter_registration_if label id p f).
Proof.
  intros Hf. apply preserves_try, preserves_effect. intros st s x s' Hs E.
  destruct (sh_registrations s !! id) as [q|] eqn:Eq; [|by injection E as _ <-].
  destruct (p q); [|by injection E as _ <-]. injection E as _ <-.
  apply (certified_frame _ s); [done|done| |exact Hs]. cbn.
  intros i r [[<- <-]|[Hne Hi]]%lookup_insert_Some; [|eauto]. destruct (Hf (st_time st) q); eauto.
Qed.

Lemma preserves_insert_registration s0 row :
  (∀ t, rg_claim_token_hash (row t) = None) → preserves (certified s0) (insert_registration row).
Proof.
  intros Hrow. apply preserves_try, preserves_effect. intros st s x s' Hs E. destruct (sh_registrations s !! _); [done|].
  injection E as _ <-. apply (certified_frame _ s); [done|done| |exact Hs]. cbn.
  intros i r [[<- <-]|[Hne Hi]]%lookup_insert_Some; [by left|eauto].
Qed.

(** Storing a digest: the index looks at the others. *)
Lemma preserves_store s0 label id hash (f : Z → RegistrationRow → RegistrationRow) :
  (∀ t r, rg_claim_token_hash (f t r) = Some hash) →
  preserves (certified s0) (call label (λ st s,
    if existsb (λ kr, negb (String.eqb (fst kr) id) && bool_decide (rg_claim_token_hash (snd kr) = Some hash))
         (map_to_list (sh_registrations s))
    then None else Some (tt, with_registrations s (alter (f (st_time st)) id (sh_registrations s))))).
Proof.
  intros Hf. apply preserves_try, preserves_effect. intros st s x s' [[A B C] [Hu Hc]]. cbv beta.
  destruct (existsb _ _) eqn:E; [done|]. intros [= _ <-].
  assert (Hothers : ∀ i r, sh_registrations s !! i = Some r → i ≠ id → rg_claim_token_hash r ≠ Some hash).
  { intros i r Hi Hne Hh. enough (true = false) by done. rewrite <- E. symmetry. apply existsb_exists.
    exists (i, r). split; [by apply list_elem_of_In, elem_of_map_to_list|]. cbn.
    rewrite (proj2 (String.eqb_neq i id)) by done. by rewrite bool_decide_eq_true_2. }
  split; [split; [exact A|exact B|]|by split]. cbn. intros i j r q Hi Hj Eq Hs.
  destruct (decide (i = id)) as [->|Hi']; destruct (decide (j = id)) as [->|Hj']; [done|..].
  - rewrite lookup_alter_eq in Hi. apply fmap_Some in Hi as (r0 & _ & ->). rewrite lookup_alter_ne in Hj by done.
    rewrite Hf in Eq. by destruct (Hothers _ _ Hj Hj').
  - rewrite lookup_alter_eq in Hj. apply fmap_Some in Hj as (r0 & _ & ->). rewrite lookup_alter_ne in Hi by done.
    rewrite Hf in Eq. by destruct (Hothers _ _ Hi Hi').
  - rewrite lookup_alter_ne in Hi, Hj by done. eapply C; eauto.
Qed.

Lemma preserves_upsert s0 name email phone assessment expires unusable token :
  preserves (certified s0) (call "provision" (provision_tx name email phone assessment expires unusable token)).
Proof.
  apply preserves_try, preserves_effect. intros st s x s' [[A B C] [Hu Hc]]. unfold provision_tx.
  destruct (upsert_candidate name email phone unusable st s) as [[user s1]|] eqn:E1; [|done]. cbn.
  destruct (upsert_invite _ st s1) as [[invite s2]|] eqn:E2; [|done]. cbn. intros [= _ <-].
  assert (F2 : sh_users s2 = sh_users s1 ∧ sh_certificates s2 = sh_certificates s1 ∧ sh_registrations s2 = sh_registrations s1).
  { unfold upsert_invite in E2. repeat case_match; simplify_eq; done. }
  destruct F2 as (U2 & C2 & R2).
  assert (F1 : sh_certificates s1 = sh_certificates s ∧ sh_registrations s1 = sh_registrations s ∧ accounts_kept s s1).
  { unfold upsert_candidate in E1. destruct (first_row st (sh_users s) _) as [[id u]|] eqn:Ef.
    - injection E1 as _ <-. split; [done|]. split; [done|]. apply first_row_found in Ef as [Hid _]. intros k v Hk. cbn.
      destruct (decide (k = id)) as [->|Hne].
      + rewrite lookup_insert_eq. eexists. split; [done|]. simplify_eq. unfold kept_account. cbn. split_and!; try done.
        intros H. by rewrite (proj2 (String.eqb_neq _ _) H).
      + rewrite lookup_insert_ne by done. by exists v.
    - destruct (sh_users s !! st_fresh st) eqn:Efresh; [done|]. injection E1 as _ <-. split; [done|]. split; [done|].
      intros k v Hk. cbn. rewrite lookup_insert_ne by (intros <-; congruence). by exists v. }
  destruct F1 as (C1 & R1 & K1). unfold certified, certificates_kept. rewrite C2, C1. split; [split|split].
  - rewrite C2, C1. exact A.
  - rewrite C2, C1. exact B.
  - rewrite R2, R1. exact C.
  - intros k u Hk. destruct (Hu _ _ Hk) as (v & Hv & Kv), (K1 _ _ Hv) as (v' & Hv' & Kv'). exists v'.
    split; [by rewrite U2|by etrans].
  - exact Hc.
Qed.

Lemma certificate_of_none s st reg : certificate_of s st reg = None →
  ∀ k c, sh_certificates s !! k = Some c → ct_registration_id c ≠ Some reg.
Proof. unfold certificate_of. intros H k c Hk. rewrite first_row_none in H. specialize (H _ _ Hk). cbv beta in H. by apply bool_decide_eq_false in H. Qed.

Lemma preserves_insert_certificate s0 reg row :
  (∀ r t, ct_registration_id (row r t) = Some reg) → preserves (certified s0) (insert_certificate reg row).
Proof.
  intros Hrow. apply preserves_try, preserves_effect. intros st s x s' Hs. destruct (sh_registrations s !! reg) as [r|]; [|by intros [= _ <-]].
  cbv zeta beta. specialize (Hrow r (st_time st)). set (c := row r (st_time st)) in *.
  destruct (certificate_of s st reg) eqn:Ec; [by intros [= _ <-]|].
  destruct (some_row _ _) eqn:Er; [done|]. cbn [orb]. case_bool_decide as Ef; [done|]. intros [= _ <-].
  pose proof (certificate_of_none _ _ _ Ec) as Hnone. rewrite some_row_false in Er. cbv beta in Er.
  destruct Hs as [[A B C] [Hu Hc]]. split; [split|split]; cbn.
  - intros i j c1 c2 [[<- <-]|[Hi H1]]%lookup_insert_Some [[<- <-]|[Hj H2]]%lookup_insert_Some E Hs; try done; [..|eauto].
    + destruct (Hnone _ _ H2). fold c in E. congruence.
    + destruct (Hnone _ _ H1). fold c in E. congruence.
  - intros i j c1 c2 [[<- <-]|[Hi H1]]%lookup_insert_Some [[<- <-]|[Hj H2]]%lookup_insert_Some E; try done; [..|eauto].
    + specialize (Er _ _ H2). fold c in E. by rewrite E, String.eqb_refl in Er.
    + specialize (Er _ _ H1). fold c in E. by rewrite <- E, String.eqb_refl in Er.
  - exact C.
  - exact Hu.
  - intros k c1 Hk. destruct (Hc _ _ Hk) as (d & Hd & Kd). exists d. cbn. split; [|done].
    rewrite lookup_insert_ne; [done|]. intros <-. apply Ef. by eexists.
Qed.

Lemma preserves_revoke s0 id reason : preserves (certified s0) (revoke id reason).
Proof.
  unfold revoke. preserves_steps. apply preserves_effect. intros st s x s' [[A B C] [Hu Hc]].
  destruct (first_row _ _ _) as [[k c]|] eqn:E; [|by intros [= _ <-]]. intros [= _ <-].
  apply first_row_found in E as [Hk [_ Hn%bool_decide_eq_true]%andb_true_iff].
  split; [split|split]; cbn; [..|exact C|exact Hu|].
  - intros i j c1 c2 [[<- <-]|[Hi H1]]%lookup_insert_Some [[<- <-]|[Hj H2]]%lookup_insert_Some; [done|..]; cbn; eauto.
  - intros i j c1 c2 [[<- <-]|[Hi H1]]%lookup_insert_Some [[<- <-]|[Hj H2]]%lookup_insert_Some; [done|..]; cbn; eauto.
  - intros j c1 Hj. destruct (Hc _ _ Hj) as (d & Hd & Kd). cbn. destruct (decide (j = k)) as [->|Hne].
    + rewrite lookup_insert_eq. simplify_eq. eexists. split; [done|]. etrans; [exact Kd|].
      unfold kept_certificate, revoked. cbn. by split_and!.
    + rewrite lookup_insert_ne by done. by exists d.
Qed.

Lemma preserves_sweep s0 : preserves (certified s0) expireStale.
Proof.
  apply preserves_try, preserves_effect. intros st s x s' Hs [= _ <-].
  apply (certified_frame _ s); [done|done| |exact Hs]. cbn. intros i r Hi. rewrite lookup_fmap in Hi.
  apply fmap_Some in Hi as (q & Hq & ->). right. exists q. split; [done|]. by destruct (stale _ _ _).
Qed.

#[global] Instance certified_framed s0 : Framed (certified s0).
Proof. split; intros s x Hs; apply (certified_frame _ s); try done; cbn; eauto. Qed.

Lemma preserves_in_memory {A} s0 (f : Z → Shop → A * Shop) :
  (∀ t s, sh_users (snd (f t s)) = sh_users s ∧ sh_certificates (snd (f t s)) = sh_certificates s ∧
     sh_registrations (snd (f t s)) = sh_registrations s) →
  preserves (certified s0) (in_memory f).
Proof.
  intros Hf w n s r n' s' Ho Hs. unfold in_memory. destruct (f _ _) as [x s1] eqn:E. intros [= _ _ <-].
  destruct (Hf (time_at w n) (others w n s)) as (E1 & E2 & E3). rewrite E in E1, E2, E3. cbn in E1, E2, E3.
  apply (certified_frame _ (others w n s)); [done|done| |by apply Ho]. rewrite E3. eauto.
Qed.

Lemma preserves_limited s0 l lim key : preserves (certified s0) (limited l lim key).
Proof. apply preserves_in_memory. intros t s. by destruct (allow _ _ _ _). Qed.

Lemma preserves_draw {A} I (f : nat → A) : preserves I (draw f).
Proof. intros w n s r n' s' _ Hs [= _ _ <-]. exact Hs. Qed.

(** *** Every request keeps it *)

#[local] Hint Resolve preserves_query preserves_upsert preserves_revoke preserves_sweep preserves_limited preserves_draw : service.

Ltac keeps := solve [by intros ? ?; left | by intros ? ?; right].
#[local] Hint Extern 1 (preserves _ (alter_registration _ _ _)) =>
  apply preserves_alter_registration; keeps : service.
#[local] Hint Extern 1 (preserves _ (alter_registration_if _ _ _ _)) =>
  apply preserves_alter_registration_if; keeps : service.
#[local] Hint Extern 1 (preserves _ (insert_registration _)) =>
  apply preserves_insert_registration; done : service.
#[local] Hint Extern 1 (preserves _ (insert_certificate _ _)) =>
  apply preserves_insert_certificate; done : service.

Lemma preserves_alter_invite s0 label reg f : preserves (certified s0) (alter_invite label reg f).
Proof. apply preserves_frame. intros st s x s' [= _ <-]. by destruct (_ ≫= _). Qed.

Lemma preserves_mail s0 label m :
  preserves (certified s0) (call label (λ _ s, Some (tt, with_mails s (sh_mails s ++ [m])))).
Proof. apply preserves_frame. by intros st s x s' [= _ <-]. Qed.

Lemma preserves_upsert_exam s0 row : preserves (certified s0) (upsert_exam row).
Proof.
  apply preserves_frame. intros st s x s' H. destruct (_ || _); [done|]. repeat case_match; simplify_eq; done.
Qed.

Lemma preserves_conversions s0 label p f : preserves (certified s0) (update_conversions label p f).
Proof. apply preserves_frame. by intros st s x s' [= _ <-]. Qed.

Lemma preserves_delete_exam s0 id :
  preserves (certified s0) (call "delete exam" (λ _ s,
    if some_row (sh_registrations s) (λ r, String.eqb (rg_exam_id r) id) then None
    else Some (bool_decide (is_Some (sh_exams s !! id)), with_exams s (delete id (sh_exams s))))).
Proof. apply preserves_frame. intros st s x s' H. destruct (some_row _ _); [done|]. by injection H as _ <-. Qed.

#[local] Hint Resolve preserves_alter_invite preserves_mail preserves_upsert_exam preserves_conversions preserves_delete_exam : service.
#[local] Opaque alter_registration alter_registration_if insert_registration insert_certificate alter_invite upsert_exam
  update_conversions insert_conversion post query limited expireStale.

Lemma preserves_booking s0 row : preserves (certified s0) (insert_conversion row).
Proof. apply preserves_framed_insert, _. Qed.

Lemma preserves_posted s0 b m : preserves (certified s0) (post b m).
Proof. apply preserves_framed_post, _. Qed.

#[local] Hint Resolve preserves_booking preserves_posted : service.

Lemma preserves_link s0 reg : preserves (certified s0) (link_certificate reg).
Proof.
  apply preserves_try, preserves_effect. intros st s x s' Hs [= _ <-]. apply (certified_frame _ s); [done|done| |exact Hs].
  cbn. intros i r Hi. destruct (decide (i = reg)) as [->|Hne].
  - rewrite lookup_alter_eq in Hi. apply fmap_Some in Hi as (q & Hq & ->). right. by exists q.
  - rewrite lookup_alter_ne in Hi by done. eauto.
Qed.

Lemma preserves_record s0 rh b : preserves (certified s0) (RecordConversion rh b).
Proof. apply preserves_conversion, _. Qed.

Lemma preserves_quote s0 code email phone amount : preserves (certified s0) (Quote code email phone amount).
Proof. unfold Quote, program. preserves_steps. Qed.

Lemma preserves_issue s0 reg user holder title attempt percent :
  preserves (certified s0) (issueCertificate reg user holder title attempt percent).
Proof. unfold issueCertificate. pose proof (preserves_link s0 reg). preserves_steps. Qed.

Lemma preserves_store_claim s0 id user invite hash expires : preserves (certified s0) (store_claim id user invite hash expires).
Proof. exact (preserves_store s0 "store claim token" id hash (rg_claimable user invite hash expires) (λ _ _, eq_refl)). Qed.

Lemma preserves_rotate s0 id hash expires : preserves (certified s0) (rotate_claim id hash expires).
Proof. exact (preserves_store s0 "rotate claim token" id hash (rg_relinked hash expires) (λ _ _, eq_refl)). Qed.

#[local] Hint Resolve preserves_link preserves_record preserves_quote preserves_issue preserves_store_claim preserves_rotate : service.
#[local] Opaque RecordConversion Quote issueCertificate store_claim rotate_claim.

Lemma preserves_mark s0 oid payment : preserves (certified s0) (Certify.mark_paid oid payment).
Proof.
  apply preserves_try, preserves_effect. intros st s x s' Hs [= E]. 
  destruct (registration_of st s oid) as [[id r]|] eqn:Er; [|by injection E as _ <-].
  destruct (sh_exams s !! _); [|by injection E as _ <-]. destruct (payable r); [|by injection E as _ <-].
  injection E as _ <-. apply first_row_found in Er as [Hr _].
  apply (certified_frame _ s); [done|done| |exact Hs]. cbn.
  intros i q [[<- <-]|[Hne Hi]]%lookup_insert_Some; [|eauto]. right. by exists r.
Qed.

Lemma preserves_fulfil s0 h oid payment : preserves (certified s0) (Certify.fulfil h oid payment).
Proof.
  unfold Certify.fulfil, grant, mail_link, sendExamLink, provision, book_exam, Certify.stored_outcome.
  pose proof (preserves_mark s0 oid payment). preserves_steps.
Qed.

#[local] Hint Resolve preserves_fulfil : service.
#[local] Opaque Certify.fulfil.

Lemma preserves_paid s0 oid : preserves (certified s0) (paidOrder oid).
Proof. unfold paidOrder. preserves_steps. Qed.

Lemma preserves_check s0 oid paid : preserves (certified s0) (Certify.checkAmount oid paid).
Proof. unfold Certify.checkAmount. preserves_steps. Qed.

#[local] Hint Resolve preserves_paid preserves_check : service.
#[local] Opaque paidOrder Certify.checkAmount.

Lemma cert_request_keeps s0 r : preserves (certified s0) (serve_cert r).
Proof.
  destruct r; cbn [serve_cert]; unfold ignore.
  - unfold Certify.handleOrder, sell, resit_closed, open_registration, createOrder. preserves_steps.
  - unfold Certify.handleVerify. preserves_steps.
  - unfold Certify.handleWebhook. preserves_steps.
  - unfold handleClaim, open_session. preserves_steps.
  - unfold handleOutcome, report_outcome. preserves_steps.
  - preserves_steps.
  - unfold UpsertExam. preserves_steps.
  - unfold DeleteExam. preserves_steps.
  - unfold UpdateRegistration, registration_action, refund, issue_by_hand, ReverseConversion. preserves_steps.
  - unfold ResendLink, sendExamLink. preserves_steps.
  - unfold ExtendLink. preserves_steps.
Qed.

(** C21.  However requests of candidates, gateway and staff interleave, fail and repeat:
    an account that exists is never given another address, password or role,
    nor another name unless it is an applicant's; a registration has one
    certificate at most, credentials are distinct, and a certificate never
    changes but for one revocation; a digest opens one registration. *)
Theorem certification_sound l s0 w n s x n' s' :
  (∀ n s, certified s0 s → certified s0 (others w n s)) → certified s0 s → serve_certs l w n s = (x, n', s') →
  certified s0 s'.
Proof.
  intros Ho. revert n s. induction l as [|r l IH]; intros n s Hs H; cbn [serve_certs] in H.
  - by injection H as _ _ <-.
  - unfold then_, try in H. destruct (serve_cert r w n s) as [[y n1] s1] eqn:E. eapply IH; [|exact H].
    eapply cert_request_keeps; [exact Ho|exact Hs|exact E].
Qed.
End Requests.

(** ** The link opens what was paid for *)

Section Sessions.
Context {PL : PgLower} {R : Random} {D : Digests} {AD : Addresses} {CF : CashfreeAPI} {CE : CertEnv}.

(** The session a claim was answered with. *)
Record opened_session (h : CertificationHandler) (w : World Shop) (s : Shop) (hash token id user : string) (e : ExamRow)
    (invite_token : string) (u : Account) (n n' : nat) : Prop := {
  os_row : ∃ r, sh_registrations s !! id = Some r ∧ rg_claim_token_hash r = Some hash ∧ sittable (rg_status r) = true ∧
    sh_exams s !! rg_exam_id r = Some e ∧ rg_user_id r = Some user ∧
    (∀ i, rg_invite_id r ≫= (sh_invites s !!.) = Some i → invite_token = iv_token i) ∧
    (∀ t, rg_claim_expires_at r = Some t → ∃ k, (n ≤ k < n')%nat ∧ time_at w k ≤ t);
  os_account : sh_users s !! user = Some u ∧ ac_role u = "applicant";
  os_token : ∃ k, (n ≤ k < n')%nat ∧
    GenerateToken {| cl_UserID := user; cl_Email := ac_email u; cl_Role := ac_role u |} (time_at w k) (24 * 3600 * nanos)
      (ce_jwtSecret h) = Some token;
}.

Lemma claim_row_spec hash st s id r e user u it :
  claim_row hash st s = Some (id, r, e, (user, u), it) →
  sh_registrations s !! id = Some r ∧ rg_claim_token_hash r = Some hash ∧ sh_exams s !! rg_exam_id r = Some e ∧
  rg_user_id r = Some user ∧ sh_users s !! user = Some u ∧
  it = match rg_invite_id r ≫= (sh_invites s !!.) with Some i => iv_token i | None => "" end.
Proof.
  unfold claim_row. destruct (first_row _ _ _) as [[i q]|] eqn:E; [|done]. cbn.
  destruct (sh_exams s !! _) eqn:Ee; [|done]. cbn. destruct (rg_user_id q) as [k|] eqn:Ek; [|done]. cbn.
  destruct (sh_users s !! k) eqn:Eu; [|done]. cbn. intros H. simplify_eq.
  apply first_row_found in E as [Hr Hh%bool_decide_eq_true]. by split_and!.
Qed.

Lemma limited_alone_state l lim key w n s r n' s' :
  alone w → limited l lim key w n s = (inl r, n', s') → ∃ hits, s' = with_hits s hits ∧ n' = (n + 1)%nat.
Proof. intros Ho. unfold limited, in_memory. destruct (allow _ _ _ _). intros [= <- <- <-]. rewrite Ho. by eexists. Qed.

(** C22.  A claim opens a session only for the link of a registration that is paid for
    and not used up, before it expires, and only into an applicant's account:
    the one of that registration, with a token for it; of accounts, exams and
    certificates it changes nothing. *)
Theorem claim_guarded h ip token w n s t id user paper title it u n' s' :
  alone w → handleClaim h ip (Some token) w n s = (inl (claim_answer t id user paper title it u), n', s') →
  ∃ e v, paper = ex_assessment_id e ∧ title = ex_title e ∧ ac_email v = ac_email u ∧ ac_name v = ac_name u ∧
    opened_session h w s (sha256Hex (clip token 200)) t id user e it v n n' ∧
    sh_users s' = sh_users s ∧ sh_exams s' = sh_exams s ∧ sh_certificates s' = sh_certificates s.
Proof.
  intros Ho H. unfold handleClaim in H. destruct (String.eqb _ "") in H; [done|].
  svc_bind H a n1 s1 H1. apply limited_alone_state in H1 as (hits & -> & ->); [|done]. destruct a; [|done]. cbn [negb] in H.
  svc_bind H f n2 s2 H2. apply query_alone in H2 as (-> & -> & [(row & -> & Hrow)|[e ->]]); [|done..|done].
  injection Hrow as Hrow. destruct row as [[[[[i r] e] [k v]] it']|]; [|done].
  apply claim_row_spec in Hrow as (Hr & Hh & He & Hk & Hv & Hit). cbn in Hr, He, Hv, Hit.
  svc_bind H late n3 s3 H3.
  assert (Hlate : s3 = with_hits s hits ∧ (n + 1 + 1 ≤ n3)%nat ∧
    (late = false → ∀ t, rg_claim_expires_at r = Some t → ∃ j, (n ≤ j < n3)%nat ∧ time_at w j ≤ t)).
  { destruct (rg_claim_expires_at r) as [t0|].
    - svc_bind H3 now n4 s4 H4. injection H4 as <- <- <-. injection H3 as <- <- <-.
      split; [done|]. split; [lia|]. intros Hn t1 [= <-]. exists (n + 1 + 1)%nat. split; [lia|]. by apply Z.ltb_ge in Hn.
    - injection H3 as <- <- <-. by split_and!; [|lia|]. }
  destruct Hlate as (-> & Hn3 & Hexp). destruct late; [by svc_bind H y n4 s4 H4|]. specialize (Hexp eq_refl).
  destruct (certTerminal (rg_status r)) eqn:Et; [done|]. case_bool_decide as Ecr; [done|].
  destruct (String.eqb_spec (ac_role v) "applicant") as [Erole|]; [|done]. cbn [negb] in H. unfold open_session in H.
  svc_bind H c n4 s4 H4. apply try_effect_alone in H4 as (-> & H4); [|done]. destruct c as [[]|]; [|done].
  svc_bind H now n5 s5 H5. injection H5 as <- <- <-. destruct (GenerateToken _ _ _ _) as [t'|] eqn:Eg; [|done].
  assert (Hs4 : sh_users s4 = sh_users s ∧ sh_exams s4 = sh_exams s ∧ sh_certificates s4 = sh_certificates s).
  { destruct H4 as [[-> _]|(y & Hy & _)]; [done|]. by injection Hy as _ <-. }
  injection H. intros. subst. exists e, v. split; [done|]. split; [done|]. split; [done|]. split; [done|].
  split; [split|exact Hs4].
  - exists r. split; [done|]. split; [done|]. split; [by destruct (rg_status r)|]. split; [done|]. split; [done|]. split.
    + intros i0 Hi0. by rewrite Hi0.
    + intros t0 Ht0. destruct (Hexp _ Ht0) as (j & Hj & Hle). exists j. split; [lia|done].
  - done.
  - exists (n3 + 1)%nat. split; [lia|]. exact Eg.
Qed.
End Sessions.

(** ** Certificates are earned *)

Section Results.
Context {PL : PgLower} {R : Random} {D : Digests} {AD : Addresses} {CF : CashfreeAPI} {CE : CertEnv}.

Lemma newest_row_spec st t p :
  match newest_row st t p with
  | Some (id, r) => t !! id = Some r ∧ p r = true ∧
      ∀ j q, t !! j = Some q → p q = true → rg_created_at q ≤ rg_created_at r
  | None => ∀ j q, t !! j = Some q → p q = false
  end.
Proof.
  unfold newest_row. set (l := omap _ _).
  assert (Hl : ∀ j q, (j, q) ∈ l ↔ t !! j = Some q ∧ p q = true).
  { intros j q. unfold l. rewrite list_elem_of_omap. split.
    - intros (k & _ & Hk). destruct (t !! k) as [x|] eqn:E; [|done]. cbn in Hk. destruct (p x) eqn:Ep; [|done]. by simplify_eq.
    - intros [Hj Hp]. exists j. split; [|by rewrite Hj; cbn; rewrite Hp].
      rewrite (st_rows_perm st), list_elem_of_fmap. exists (j, q). by rewrite elem_of_map_to_list. }
  assert (Hf : ∀ l acc, match foldl later_row acc l with
    | Some b => (acc = Some b ∨ b ∈ l) ∧ (∀ a, acc = Some a → rg_created_at (snd a) ≤ rg_created_at (snd b)) ∧
                ∀ a, a ∈ l → rg_created_at (snd a) ≤ rg_created_at (snd b)
    | None => acc = None ∧ l = []
    end).
  { clear. induction l as [|x l IH]; intros acc; cbn [foldl].
    - destruct acc as [b|]; [|done]. split; [by left|]. split; [by intros a [= ->]|]. by intros a ?%elem_of_nil.
    - specialize (IH (later_row acc x)). destruct (foldl _ _ _) as [b|].
      + destruct IH as (H1 & H2 & H3). destruct acc as [a|]; cbn in H1, H2.
        * destruct (Z.ltb_spec (rg_created_at a.2) (rg_created_at x.2)); split_and!.
          1: destruct H1 as [[= <-]|H1]; right; [apply list_elem_of_here|by apply list_elem_of_further].
          1: intros a' [= <-]; specialize (H2 _ eq_refl); lia.
          1: intros y [->|Hy]%elem_of_cons; auto.
          1: destruct H1 as [[= <-]|H1]; [by left|right; by apply list_elem_of_further].
          1: intros a' [= <-]; exact (H2 _ eq_refl).
          intros y [->|Hy]%elem_of_cons; [specialize (H2 _ eq_refl); lia|auto].
        * split_and!; [destruct H1 as [[= <-]|H1]; right; [apply list_elem_of_here|by apply list_elem_of_further]|done|].
          intros y [->|Hy]%elem_of_cons; auto.
      + destruct IH as [IH _]. destruct acc as [a|]; cbn in IH; [by destruct (_ <? _)|done]. }
  specialize (Hf l None). destruct (foldl later_row None l) as [[id r]|].
  - destruct Hf as ([?|Hin] & _ & Hmax); [done|]. apply Hl in Hin as [H1 H2]. split; [done|]. split; [done|].
    intros j q Hj Hq. exact (Hmax (j, q) (proj2 (Hl j q) (conj Hj Hq))).
  - destruct Hf as [_ Hnil]. intros j q Hj. destruct (p q) eqn:Ep; [|done].
    pose proof (proj2 (Hl j q) (conj Hj Ep)) as Hin. rewrite Hnil in Hin. by apply elem_of_nil in Hin.
Qed.

(** The registration an attempt's result goes to. *)
Record result_of (s : Shop) (attempt id : string) (r : RegistrationRow) (e : ExamRow) (user : string) (u : Account)
    (a : AttemptView) : Prop := {
  ro_attempt : sh_attempts s !! attempt = Some a;
  ro_registration : sh_registrations s !! id = Some r;
  ro_user : av_user_id a = user ∧ rg_user_id r = Some user ∧ sh_users s !! user = Some u;
  ro_exam : sh_exams s !! rg_exam_id r = Some e ∧ ex_assessment_id e = av_assessment_id a;
}.

Lemma outcome_row_spec attempt st s id r e user u a :
  outcome_row attempt st s = Some (id, r, e, (user, u), a) → result_of s attempt id r e user u a.
Proof.
  unfold outcome_row. destruct (sh_attempts s !! attempt) as [a'|] eqn:Ea; [|done]. cbn.
  match goal with |- context [newest_row st _ ?p] => pose proof (newest_row_spec st (sh_registrations s) p) as Hn end.
  destruct (newest_row _ _ _) as [[i q]|]; [|done]. cbn. destruct Hn as (Hq & [Hu He]%andb_true_iff & _).
  apply bool_decide_eq_true in Hu. destruct (sh_exams s !! rg_exam_id q) as [x|] eqn:Ex; [|done]. cbn.
  destruct (sh_users s !! _) as [v|] eqn:Ev; [|done]. cbn. intros H. simplify_eq. apply String.eqb_eq in He.
  by split; split_and?.
Qed.

Lemma issue_earned reg user holder title attempt percent w n s x n' s' :
  alone w → issueCertificate reg user holder title attempt percent w n s = (inl x, n', s') →
  sh_certificates s' = sh_certificates s ∧ (∀ c, x = inl c → ∃ k, sh_certificates s !! k = Some c) ∨
  ∃ r k credential t,
    let c := new_certificate credential user holder title attempt reg percent r t in
    sh_registrations s !! reg = Some r ∧ sh_certificates s !! k = None ∧
    (∀ j d, sh_certificates s !! j = Some d → ct_registration_id d ≠ Some reg) ∧
    sh_certificates s' = <[k := c]> (sh_certificates s) ∧ (∃ m, newCredentialID m = Some credential) ∧
    match x with inl d => d = c | inr _ => True end.
Proof.
  intros Ho H. unfold issueCertificate in H. svc_bind H kn n1 s1 H1.
  apply query_alone in H1 as (-> & -> & H1); [|done].
  assert (Hof : ∀ st c, snd <$> certificate_of s st reg = Some c → ∃ k, sh_certificates s !! k = Some c).
  { intros st c Hc. destruct (certificate_of s st reg) as [[k d]|] eqn:E; [|done]. injection Hc as <-.
    apply first_row_found in E as [E _]. by exists k. }
  destruct kn as [[c|]|e].
  { injection H as <- _ <-. left. split; [done|]. intros d [= <-]. destruct H1 as [(y & [= <-] & [= Hy])|[? ?]]; [eauto|done]. }
  2:{ injection H as <- _ <-. by left. }
  svc_bind H cr n2 s2 H2. unfold draw in H2. injection H2 as Ecr <- <-. destruct cr as [credential|]; [|by injection H as <- _ <-; left].
  svc_bind H got n3 s3 H3. apply try_effect_alone in H3 as (-> & H3); [|done].
  assert (Hins : sh_certificates s3 = sh_certificates s ∧ (∀ c, got ≠ inl (Some c)) ∨
    ∃ r k t, let c := new_certificate credential user holder title attempt reg percent r t in
      sh_registrations s !! reg = Some r ∧ sh_certificates s !! k = None ∧
      (∀ j d, sh_certificates s !! j = Some d → ct_registration_id d ≠ Some reg) ∧
      sh_certificates s3 = <[k := c]> (sh_certificates s) ∧ (got = inl (Some c) ∨ got = inr "insert certificate")).
  { destruct H3 as [[-> ->]|(y & Hy & His)]; [by left|]. destruct (sh_registrations s !! reg) as [r|] eqn:Er.
    2:{ injection Hy as <- <-. left. split; [done|]. by destruct His as [->| ->]. }
    cbv zeta in Hy. match type of Hy with context [certificate_of s ?st reg] => destruct (certificate_of s st reg) eqn:Ec end.
    { injection Hy as <- <-. left. split; [done|]. by destruct His as [->| ->]. }
    destruct (_ || _) eqn:Eor; [done|]. injection Hy as <- <-. right.
    apply orb_false_iff in Eor as [_ Ef%bool_decide_eq_false]. eexists r, _, _. split; [done|].
    split; [by apply eq_None_not_Some|]. split; [exact (certificate_of_none _ _ _ Ec)|]. split; [done|exact His]. }
  destruct Hins as [[Hsame Hne]|(r & k & t & Hr & Hk & Hno & Hcs & His)].
  - left. destruct got as [[c|]|e]; [by destruct (Hne c)| |by injection H as <- _ <-].
    apply query_alone in H as (_ & -> & H); [|done]. split; [done|]. intros c ->. rewrite <- Hsame.
    destruct H as [(y & [= <-] & Hy)|[? ?]]; [|done]. destruct (certificate_of s3 _ reg) as [[k d]|] eqn:E; [|done].
    injection Hy as <-. apply first_row_found in E as [E _]. by exists k.
  - right. exists r, k, credential, t. cbv zeta. split; [done|]. split; [done|]. split; [done|].
    destruct His as [->| ->].
    + svc_bind H lk n4 s4 H4. injection H as <- _ <-. apply try_effect_alone in H4 as (_ & H4); [|done].
      split; [|by split; [eexists|]]. destruct H4 as [[-> _]|(y & Hy & _)]; [done|]. by injection Hy as _ <-.
    + injection H as <- _ <-. split; [done|]. split; [by eexists|done].
Qed.

(** C23.  Reading a result issues a certificate only for an evaluated attempt that
    reached the pass mark, to its account and for a registration of that
    account for an exam with that paper, which had none; and marks the
    registration passed, unless that statement fails or its status was another. *)
Theorem certificate_earned h attempt w n s x n' s' :
  alone w → handleOutcome h attempt w n s = (inl x, n', s') →
  sh_certificates s' = sh_certificates s ∨
  ∃ id r e user u a k c,
    result_of s (trim_space attempt) id r e user u a ∧ av_status a = "evaluated" ∧
    fleb (ex_pass_percent e) (attempt_percent a) = true ∧
    (∀ j d, sh_certificates s !! j = Some d → ct_registration_id d ≠ Some id) ∧ sh_certificates s !! k = None ∧
    sh_certificates s' = <[k := c]> (sh_certificates s) ∧
    ct_user_id c = user ∧ ct_registration_id c = Some id ∧ ct_attempt_id c = Some (trim_space attempt) ∧
    ct_title c = ex_title e ∧ ct_holder_name c = ac_name u ∧ ct_revoked_at c = None.
Proof.
  intros Ho H. unfold handleOutcome in H. destruct (String.eqb _ "") in H; [by injection H as _ _ <-; left|].
  svc_bind H f n1 s1 H1. apply query_alone in H1 as (-> & -> & [(row & -> & Hrow)|[e ->]]); [|by injection H as _ _ <-; left|done].
  injection Hrow as Hrow. destruct row as [[[[[id r] e] [user u]] a]|]; [|by injection H as _ _ <-; left].
  apply outcome_row_spec in Hrow. destruct (still_grading _) in H; [by injection H as _ _ <-; left|].
  unfold report_outcome in H. svc_bind H m n2 s2 H2. apply try_effect_alone in H2 as (-> & H2); [|done].
  assert (Hs2 : sh_certificates s2 = sh_certificates s ∧ is_Some (sh_registrations s2 !! id)).
  { destruct Hrow as [_ Hr _ _]. destruct H2 as [[-> _]|(y & Hy & _)]; [by rewrite Hr; split; [|eexists]|]. rewrite Hr in Hy.
    destruct (rg_status r); injection Hy as _ <-; cbn; rewrite ?Hr, ?lookup_insert_eq; by split; [|eexists]. }
  destruct Hs2 as [Ec2 Er2]. destruct (exam_passed e a) eqn:Ep; [|by injection H as _ _ <-; left].
  svc_bind H c n3 s3 H3. injection H as _ _ <-. apply issue_earned in H3; [|done].
  destruct H3 as [[Hs _]|(r2 & k & credential & t & Hr2 & Hk & Hno & Hcs & _ & _)]; [left; congruence|right].
  unfold exam_passed in Ep. apply andb_true_iff in Ep as [Ep1 Ep2%String.eqb_eq].
  eexists id, r, e, user, u, a, k, _. rewrite <- Ec2. split; [exact Hrow|]. split; [done|]. split; [done|]. split; [exact Hno|].
  split; [exact Hk|]. split; [exact Hcs|]. by split_and!.
Qed.

(** *** Runs without failures *)

Lemma call_calm {A} label (f : Stamp → Shop → option (A * Shop)) w n s :
  calm w → call label f w n s =
    (inl (match f (stamp w n) s with Some (x, _) => inl x | None => inr label end), (n + 1)%nat,
     match f (stamp w n) s with Some (_, s') => s' | None => s end).
Proof. intros Hc. unfold call, try. rewrite effect_calm by done. by destruct (f _ _) as [[x s']|]. Qed.

Lemma query_calm {A} label (f : Stamp → Shop → option A) w n s :
  calm w → query label f w n s =
    (inl (match f (stamp w n) s with Some x => inl x | None => inr label end), (n + 1)%nat, s).
Proof. intros Hc. unfold query. rewrite call_calm by done. by destruct (f _ _). Qed.

Lemma then_run {A B} (m : Svc Shop A) (k : A → Svc Shop B) w n s x n1 s1 :
  m w n s = (inl x, n1, s1) → then_ m k w n s = k x w n1 s1.
Proof. intros H. unfold then_. by rewrite H. Qed.

(** Without a limiter every call is allowed. *)
Lemma limited_off lim key w n s :
  calm w → limited lim None key w n s = (inl true, (n + 1)%nat, with_hits s (<[lim := default ∅ (sh_hits s !! lim)]> (sh_hits s))).
Proof. intros [_ Ho]. unfold limited, in_memory. by rewrite Ho. Qed.

Lemma outcome_row_newest s attempt st id r e user u a :
  result_of s attempt id r e user u a →
  (∀ j q, sh_registrations s !! j = Some q → j ≠ id → rg_user_id q = Some user → rg_created_at q < rg_created_at r) →
  outcome_row attempt st s = Some (id, r, e, (user, u), a).
Proof.
  intros [Ha Hr (Hu & Hru & Hus) (He & Hp)] Hnew. unfold outcome_row. rewrite Ha. cbn.
  match goal with |- context [newest_row st _ ?p] => pose proof (newest_row_spec st (sh_registrations s) p) as Hn;
    assert (Hpr : p r = true) by (cbv beta; rewrite Hu, Hru, He; rewrite bool_decide_eq_true_2 by done; by rewrite Hp, String.eqb_refl) end.
  destruct (newest_row _ _ _) as [[i q]|].
  - destruct Hn as (Hq & Hpq & Hmax). assert (i = id) as ->.
    { destruct (decide (i = id)) as [|Hne]; [done|]. apply andb_true_iff in Hpq as [Hq1%bool_decide_eq_true _].
      specialize (Hnew _ _ Hq Hne). rewrite Hu in Hq1. specialize (Hnew Hq1). specialize (Hmax _ _ Hr Hpr). lia. }
    simplify_eq. cbn. rewrite He. cbn. by rewrite Hus.
  - pose proof (Hn _ _ Hr) as Hf. exact (False_ind _ (eq_true_false_abs _ Hpr Hf)).
Qed.

Lemma claim_row_only s hash st id r e user u :
  sh_registrations s !! id = Some r → rg_claim_token_hash r = Some hash →
  (∀ j q, sh_registrations s !! j = Some q → rg_claim_token_hash q = Some hash → j = id) →
  sh_exams s !! rg_exam_id r = Some e → rg_user_id r = Some user → sh_users s !! user = Some u →
  claim_row hash st s = Some (id, r, e, (user, u),
    match rg_invite_id r ≫= (sh_invites s !!.) with Some i => iv_token i | None => "" end).
Proof.
  intros Hr Hh Honly He Hu Hus. unfold claim_row.
  rewrite (first_row_only _ _ _ id r); [|done|by apply bool_decide_eq_true|].
  - cbn. rewrite He. cbn. rewrite Hu. cbn. by rewrite Hus.
  - intros j q Hj Hq%bool_decide_eq_true. eauto.
Qed.

(** A candidate who failed, paid for a resit and looks at the old result again
    loses the resit: the old attempt's failure is written to the newest
    registration, and the link that was paid for answers that the exam was
    sat already. *)
Theorem old_result_burns_resit h attempt w n s id r e user u a token :
  calm w → result_of s (trim_space attempt) id r e user u a → trim_space attempt ≠ "" →
  still_grading (av_status a) = false → exam_passed e a = false → rg_status r = RegPaid →
  (∀ j q, sh_registrations s !! j = Some q → j ≠ id → rg_user_id q = Some user → rg_created_at q < rg_created_at r) →
  rg_claim_token_hash r = Some (sha256Hex token) → clip token 200 = token → token ≠ "" →
  (∀ j q, sh_registrations s !! j = Some q → rg_claim_token_hash q = Some (sha256Hex token) → j = id) →
  ∃ s', handleOutcome h attempt w n s = (inl (write 200 (outcome_fields e a)), (n + 1 + 1)%nat, s') ∧
    (rg_status <$> sh_registrations s' !! id) = Some RegFailed ∧
    ∀ ip w2 m, calm w2 → ce_ipLimiter h = None → (∀ t k, rg_claim_expires_at r = Some t → time_at w2 k ≤ t) →
      ∃ m' s2, handleClaim h ip (Some token) w2 m s' = (inl (fail 409 "you have already sat this exam"), m', s2).
Proof.
  intros Hc Hres Hne Hg Hp Hst Hnew Hh Hclip Htok Honly. pose proof Hres as [Ha Hr (Hu & Hru & Hus) (He & Hpaper)].
  set (r' := rg_status_to RegFailed (time_at w (n + 1)) r).
  set (s' := with_registrations s (<[id := r']> (sh_registrations s))). exists s'. split_and!.
  - unfold handleOutcome. apply String.eqb_neq in Hne as ->.
    erewrite then_run by (apply query_calm; exact Hc). cbv beta iota.
    rewrite (outcome_row_newest _ _ _ _ _ _ _ _ _ Hres Hnew). cbv beta iota. rewrite Hg. unfold report_outcome, alter_registration_if.
    erewrite then_run by (apply call_calm; exact Hc). cbv beta iota. rewrite Hp, Hr, Hst. done.
  - unfold s'. cbn. by rewrite lookup_insert_eq.
  - intros ip w2 m Hc2 Hlim Hexp. unfold handleClaim. cbv zeta. rewrite Hclip. apply String.eqb_neq in Htok as ->. rewrite Hlim.
    erewrite then_run by (apply limited_off; exact Hc2). cbn [negb]. set (s1 := with_hits s' _).
    erewrite then_run by (apply query_calm; exact Hc2). cbv beta iota.
    rewrite (claim_row_only s1 (sha256Hex token) _ id r' e user u); [|..|exact Hus]; [|cbn; apply lookup_insert_eq|exact Hh| |exact He|exact Hru].
    2:{ intros j q Hj Hq. cbn in Hj. apply lookup_insert_Some in Hj as [[-> _]|[Hij Hj]]; [done|eauto]. }
    cbv beta iota. change (rg_claim_expires_at r') with (rg_claim_expires_at r).
    destruct (rg_claim_expires_at r) as [t|] eqn:Et.
    + erewrite then_run; [|erewrite then_run by reflexivity; reflexivity].
      rewrite (proj2 (Z.ltb_ge _ _) (Hexp t _ eq_refl)). cbv iota. by eexists _, _.
    + erewrite then_run by reflexivity. cbv iota. by eexists _, _.
Qed.

Lemma base64_length b : (length (base64_url b) ≤ 2 * length b)%nat ∧ (b ≠ [] → base64_url b ≠ []).
Proof.
  split; [|by destruct b as [|x [|y [|z r]]]].
  enough (H : ∀ k b, (length b ≤ k)%nat → (length (base64_url b) ≤ 2 * length b)%nat) by by apply (H (length b)).
  clear b. induction k as [|k IH]; intros b Hb; [destruct b; cbn in *; lia|].
  destruct b as [|x [|y [|z r]]]; [cbn; lia..|]. cbn in Hb. specialize (IH r ltac:(lia)). cbn. lia.
Qed.

Lemma url_char_plain n : 0 ≤ n < 64 → ascii_space (url_char n) = false ∧ (code (url_char n) < 128)%nat.
Proof.
  intros Hn. assert (H : forallb (λ k, let a := url_char (Z.of_nat k) in negb (ascii_space a) && (code a <? 128)%nat) (seq 0 64) = true)
    by (vm_compute; reflexivity).
  rewrite forallb_forall in H. specialize (H (Z.to_nat n)). cbv zeta in H. rewrite Z2Nat.id in H by lia.
  apply andb_true_iff in H as [Hs%negb_true_iff Hc%Nat.ltb_lt]; [done|]. apply in_seq. lia.
Qed.

Lemma token_plain n k raw : randomToken n k = Some raw → trim_space_bytes raw = raw.
Proof.
  unfold randomToken. intros (b & Hb & ->)%fmap_Some_1. apply trim_plain.
  eapply Forall_impl; [exact (base64_chars b (λ x Hx, rand_range _ _ _ x Hb Hx))|]. intros a (m & Hm & ->). by apply url_char_plain.
Qed.

(** A drawn token is within what a claim reads. *)
Lemma token_whole n raw : randomToken n 32 = Some raw → clip (of_bytes raw) 200 = of_bytes raw ∧ of_bytes raw ≠ "".
Proof.
  intros H. pose proof (token_plain _ _ _ H) as Htrim. unfold randomToken in H. apply fmap_Some_1 in H as (b & Hb & ->).
  pose proof (rand_length _ _ _ Hb) as Hlen. destruct (base64_length b) as [Hl Hne]. split.
  - unfold clip, trim_space. rewrite to_of_bytes, Htrim. rewrite (proj2 (Z.ltb_ge _ _)); [done|].
    unfold byte_length. rewrite to_of_bytes. lia.
  - intros E. apply Hne; [by intros ->|]. by rewrite <- (to_of_bytes (base64_url b)), E.
Qed.

Lemma claim_row_dead s hash st :
  (∀ j q, sh_registrations s !! j = Some q → rg_claim_token_hash q = Some hash → rg_user_id q = None) → claim_row hash st s = None.
Proof.
  intros Hdead. unfold claim_row. destruct (first_row _ _ _) as [[j q]|] eqn:E; [|done].
  apply first_row_found in E as [Hj Hq%bool_decide_eq_true]. cbn. destruct (sh_exams s !! _); [|done]. cbn. by rewrite (Hdead _ _ Hj Hq).
Qed.

Definition link_sent (h : CertificationHandler) (email url : string) (sent : bool) (expires : Z) : Reply :=
  write 200 [("success", VBool sent); ("email", VStr email); ("url", VStr url); ("expires_at", VStr (rfc3339_text expires))].

(** When setting up the account failed, the link the staff resend is dead: the
    mail goes out and the answer says so, but the link never opens, and the
    payment's next notice no longer sets the account up. *)
Theorem resend_dead_link h id w n s r e raw :
  calm w → sh_registrations s !! id = Some r → rg_status r = RegPaid → rg_user_id r = None →
  sh_exams s !! rg_exam_id r = Some e → ce_mailer_enabled h = true → randomToken (n + 1) 32 = Some raw →
  (∀ j q, sh_registrations s !! j = Some q → rg_claim_token_hash q ≠ Some (sha256Hex (of_bytes raw))) →
  ∃ expires n' s', ResendLink h id w n s = (inl (link_sent h (rg_email r) (exam_url h (of_bytes raw)) true expires), n', s') ∧
    ExamMail (rg_email r) (rg_name r) (ex_title e) (exam_url h (of_bytes raw)) expires ∈ sh_mails s' ∧
    (∀ ip w2 m, calm w2 → ce_ipLimiter h = None → ∃ m' s2,
       handleClaim h ip (Some (of_bytes raw)) w2 m s' =
         (inl (fail 401 "this link is no longer valid — please contact us if you have paid for this exam"), m', s2)) ∧
    (∀ oid payment w2 m, calm w2 → rg_gateway_order_id r = Some oid →
       (∀ j q, sh_registrations s !! j = Some q → rg_gateway_order_id q = Some oid → j = id) →
       ∃ f, Certify.fulfil h oid payment w2 m s' = (inl (inl f), (m + 1 + 1)%nat, s')).
Proof.
  intros Hc Hr Hst Hu He Hm Hraw Hfree. destruct (token_whole _ _ Hraw) as [Hclip Hne].
  set (token := of_bytes raw) in *. set (expires := time_at w (n + 1 + 1) + days_duration (ex_link_valid_days e)).
  set (r1 := rg_relinked (sha256Hex token) expires (time_at w (n + 1 + 1 + 1)) r).
  set (r2 := rg_emailed (time_at w (n + 1 + 1 + 1 + 1 + 1 + 1)) r1).
  assert (Hrun : ∃ n' s', ResendLink h id w n s = (inl (link_sent h (rg_email r) (exam_url h token) true expires), n', s') ∧
    sh_registrations s' = <[id := r2]> (sh_registrations s) ∧ sh_exams s' = sh_exams s ∧
    ExamMail (rg_email r) (rg_name r) (ex_title e) (exam_url h token) expires ∈ sh_mails s').
  { unfold ResendLink. erewrite then_run by (apply query_calm; exact Hc). rewrite Hr. cbn [mbind option_bind]. rewrite He.
    cbn [mbind option_bind]. rewrite Hst. rewrite bool_decide_eq_false_2 by done. cbn [certTerminal andb].
    erewrite then_run by reflexivity. rewrite Hraw. cbv beta iota zeta.
    fold token. erewrite then_run by reflexivity. fold expires. unfold rotate_claim. erewrite then_run by (apply call_calm; exact Hc).
    match goal with |- context [existsb ?p ?l] => assert (Hex : existsb p l = false) end.
    { apply not_true_iff_false. intros Hex. apply existsb_exists in Hex as ([j q] & Hin & [_ Hq%bool_decide_eq_true]%andb_true_iff).
      apply list_elem_of_In, elem_of_map_to_list in Hin. by apply Hfree in Hin. }
    rewrite Hex. cbv beta iota. unfold alter_invite, update. erewrite then_run by (apply call_calm; exact Hc). cbv beta iota.
    set (s1 := with_registrations s _).
    match goal with |- context [sendExamLink h _ _ _ _ _] => idtac | |- _ => idtac end.
    set (s2 := match sh_registrations s1 !! id ≫= rg_invite_id with Some _ => _ | None => _ end).
    assert (F : sh_registrations s2 = sh_registrations s1 ∧ sh_exams s2 = sh_exams s1 ∧ sh_mails s2 = sh_mails s1)
      by (unfold s2; by destruct (_ ≫= _)). destruct F as (F1 & F2 & F3).
    unfold sendExamLink. rewrite Hm. cbn [negb].
    erewrite then_run by (erewrite then_run by (apply call_calm; exact Hc); reflexivity). cbv beta iota.
    unfold alter_registration, update. erewrite then_run by (apply call_calm; exact Hc). eexists _, _. split; [reflexivity|]. cbn.
    rewrite F1, F2, F3. cbn. split; [|split; [done|set_solver]].
    rewrite <- (insert_id (sh_registrations s) id r Hr) at 1. by rewrite !alter_insert_eq. }
  destruct Hrun as (n' & s' & Erun & Ereg & Eex & Hmail). exists expires, n', s'. split; [exact Erun|]. split; [exact Hmail|]. split.
  - intros ip w2 m Hc2 Hlim. unfold handleClaim. cbv zeta. rewrite Hclip. apply String.eqb_neq in Hne as ->. rewrite Hlim.
    erewrite then_run by (apply limited_off; exact Hc2). cbn [negb]. erewrite then_run by (apply query_calm; exact Hc2). cbv beta iota.
    rewrite claim_row_dead; [by eexists _, _|]. cbn. rewrite Ereg.
    intros j q [[<- <-]|[Hj Hq]]%lookup_insert_Some Hh; [exact Hu|]. by apply Hfree in Hq.
  - intros oid payment w2 m Hc2 Hoid Honly.
    assert (Hof : ∀ st, registration_of st s' oid = Some (id, r2)).
    { intros st. apply first_row_only; [by rewrite Ereg, lookup_insert_eq|by apply bool_decide_eq_true|].
      rewrite Ereg. intros j q [[<- _]|[Hj Hq]]%lookup_insert_Some Hp; [done|]. apply bool_decide_eq_true in Hp. eauto. }
    unfold Certify.fulfil, Certify.mark_paid. erewrite then_run by (apply call_calm; exact Hc2). cbv beta iota. rewrite Hof.
    rewrite Eex. change (rg_exam_id r2) with (rg_exam_id r). rewrite He. cbn. unfold Certify.stored_outcome.
    erewrite then_run by (apply query_calm; exact Hc2). rewrite Hof. cbn. rewrite Eex, He. cbn. by eexists.
Qed.
End Results.

(** ** Credentials read back *)

Section Credentials.
Context {PL : PgLower} {R : Random} {D : Digests} {AD : Addresses} {CF : CashfreeAPI} {CE : CertEnv}.

Definition credential_byte (a : ascii) : bool := is_upper_alnum a || Ascii.eqb a "-".

(** What a credential looks like. *)
Definition credential_ok (c : string) : Prop :=
  Forall (λ a, credential_byte a = true) (to_bytes c) ∧ 0 < byte_length c ≤ 40.

Lemma newCredentialID_ok n c : newCredentialID n = Some c → credential_ok c.
Proof.
  unfold newCredentialID, randomToken. destruct (rand_bytes n 16) as [raw|]; [|done]. cbn [fmap option_fmap option_map mbind option_bind].
  set (l := map code_letter (firstn 8 (base64_url raw))). intros [= <-].
  assert (Hl : Forall (λ a, credential_byte a = true) l ∧ (length l ≤ 8)%nat).
  { split; [|unfold l; rewrite length_map, length_take; lia]. apply Forall_forall. intros a Ha%list_elem_of_In.
    apply in_map_iff in Ha as (b & <- & _). unfold credential_byte. by rewrite (letter_plain _ (code_letter_in b)). }
  destruct Hl as [Hl Hn]. unfold credential_ok, byte_length.
  rewrite !to_bytes_app, !to_of_bytes, !length_app, length_take, length_drop.
  split; [|change (length (to_bytes "KNV-")) with 4%nat; change (length (to_bytes "-")) with 1%nat; lia].
  rewrite !Forall_app. split; [by repeat constructor|]. split; [by apply Forall_take|]. split; [by repeat constructor|by apply Forall_drop].
Qed.

Lemma credential_byte_cases x y : credential_byte y = true → lower_byte x = lower_byte y →
  upper_byte x = y ∧ ascii_space x = false ∧ (code x < 128)%nat.
Proof.
  set (bytes := map ascii_of_nat (seq 0 256)).
  assert (Hall : ∀ a, In a bytes).
  { intros a. apply in_map_iff. exists (nat_of_ascii a). split; [apply ascii_nat_embedding|]. apply in_seq.
    pose proof (nat_ascii_bounded a). lia. }
  assert (H : forallb (λ y, implb (credential_byte y) (forallb (λ x, implb (Ascii.eqb (lower_byte x) (lower_byte y))
    (Ascii.eqb (upper_byte x) y && negb (ascii_space x) && (code x <? 128)%nat)) bytes)) bytes = true) by (vm_compute; reflexivity).
  rewrite forallb_forall in H. intros Hy Hxy. specialize (H y (Hall y)). rewrite Hy in H. cbn [implb] in H.
  rewrite forallb_forall in H. specialize (H x (Hall x)). rewrite Hxy, Ascii.eqb_refl in H. cbn [implb] in H.
  apply andb_true_iff in H as [[H1%Ascii.eqb_eq H2%negb_true_iff]%andb_true_iff H3%Nat.ltb_lt]. done.
Qed.

Lemma to_upper_ascii t : Forall (λ a, (code a < 128)%nat) t → to_upper_bytes t = map upper_byte t.
Proof.
  induction t as [|a [|b r] IH]; intros H; [done|done|]. pose proof (Forall_inv H) as Ha. cbv beta in Ha. apply Forall_inv_tail in H.
  change (to_upper_bytes (a :: b :: r)) with
    (if ((code a =? 0xC4) && (code b =? 0xB1))%nat then "I"%char :: to_upper_bytes r
     else if ((code a =? 0xC5) && (code b =? 0xBF))%nat then "S"%char :: to_upper_bytes r
     else upper_byte a :: to_upper_bytes (b :: r)).
  destruct (Nat.eqb_spec (code a) 0xC4); [lia|]. destruct (Nat.eqb_spec (code a) 0xC5); [lia|]. cbn [andb].
  by rewrite (IH H).
Qed.

(** A credential typed in any mixture of cases is found. *)
Lemma typed_credential typed c :
  credential_ok c → equal_fold (trim_space typed) c = true →
  of_bytes (to_upper_bytes (to_bytes (clip (trim_space typed) 40))) = c.
Proof.
  intros [Hc Hlen] Hf. set (t := to_bytes (trim_space typed)).
  assert (Hm : map lower_byte t = map lower_byte (to_bytes c)).
  { unfold equal_fold in Hf. apply String.eqb_eq in Hf. unfold to_lower in Hf. by apply of_bytes_inj in Hf. }
  assert (H : map upper_byte t = to_bytes c ∧ Forall (λ a, ascii_space a = false ∧ (code a < 128)%nat) t).
  { clearbody t. revert t Hm. induction Hc as [|y l Hy _ IH]; intros [|x t] Hm; try done. cbn in Hm. injection Hm as Hxy Hm.
    destruct (credential_byte_cases x y Hy Hxy) as (H1 & H2 & H3), (IH t Hm) as [H4 H5]. cbn. rewrite H1, H4. by split; [|constructor]. }
  destruct H as [Hup Hplain]. assert (Hl : length t = length (to_bytes c)) by (rewrite <- Hup; by rewrite length_map).
  unfold clip. assert (Ht : trim_space (trim_space typed) = trim_space typed).
  { unfold trim_space at 1. fold t. rewrite trim_plain by done. apply of_to_bytes. }
  rewrite Ht. unfold byte_length in *. fold t. rewrite (proj2 (Z.ltb_ge _ _)) by lia. fold t.
  rewrite to_upper_ascii, Hup; [apply of_to_bytes|]. eapply Forall_impl; [exact Hplain|]. by intros a [_ H].
Qed.

(** C24.  A certificate that was issued verifies: whoever types its credential, in
    capitals or not, with white space around it, is shown its holder, title and
    date, and whether it was revoked. *)
Theorem credential_verifies reg user holder title attempt percent w n s c n' s' typed w2 m :
  alone w → calm w2 → indexed s → (∀ k d, sh_certificates s !! k = Some d → credential_ok (ct_credential_id d)) →
  (∀ x, credential_ok x → pg_upper x = x) →
  issueCertificate reg user holder title attempt percent w n s = (inl (inl c), n', s') →
  equal_fold (trim_space typed) (ct_credential_id c) = true →
  handleCredential typed w2 m s' = (inl (credential_answer c), (m + 1)%nat, s').
Proof.
  intros Ho Hc Hix Hok Hup H Htyped.
  assert (Hcert : certified s s').
  { eapply (preserves_issue s); [| |exact H].
    - intros k s0 H0. by rewrite Ho.
    - split; [exact Hix|]. split; [intros k u Hu; by exists u|intros k d Hd; by exists d]. }
  destruct Hcert as [Hix' _].
  assert (Hin : ∃ k, sh_certificates s' !! k = Some c ∧ ∀ j d, sh_certificates s' !! j = Some d → credential_ok (ct_credential_id d)).
  { apply issue_earned in H as [[Hs H]|(r & k & credential & t & _ & _ & _ & Hs & [i Hi] & ->)]; [|..|done].
    - destruct (H c eq_refl) as [k Hk]. exists k. rewrite Hs. by split.
    - exists k. rewrite Hs, lookup_insert_eq. split; [done|].
      intros j d [[_ <-]|[_ Hd]]%lookup_insert_Some; [by eapply newCredentialID_ok|eauto]. }
  destruct Hin as (k & Hk & Hok'). unfold handleCredential. rewrite (typed_credential _ _ (Hok' _ _ Hk) Htyped).
  destruct (String.eqb_spec (ct_credential_id c) "") as [E|_].
  { destruct (Hok' _ _ Hk) as [_ Hlen]. rewrite E in Hlen. destruct Hlen as [Hlen _]. by vm_compute in Hlen. }
  erewrite then_run by (apply query_calm; exact Hc). cbv beta iota.
  rewrite (first_row_only _ _ _ k c Hk).
  - done.
  - rewrite (Hup _ (Hok' _ _ Hk)). apply String.eqb_refl.
  - intros j d Hj Hd%String.eqb_eq. rewrite (Hup _ (Hok' _ _ Hj)) in Hd. exact (ix_credential _ Hix' _ _ _ _ Hj Hk Hd).
Qed.
End Credentials.

(** ** From the sale to the exam *)

Section Sale.
Context {PL : PgLower} {R : Random} {D : Digests} {AD : Addresses} {CF : CashfreeAPI} {CE : CertEnv}.

(** The tables a purchase's fulfilment writes. *)
Definition tables (rg : gmap string RegistrationRow) (e : gmap string ExamRow) (u : gmap string Account) (i : gmap string InviteRow)
    (s : Shop) : Prop :=
  sh_registrations s = rg ∧ sh_exams s = e ∧ sh_users s = u ∧ sh_invites s = i.

#[global] Instance tables_framed rg e u i : Framed (tables rg e u i).
Proof. split; intros s x Hs; exact Hs. Qed.

(** What a registration that was opened leaves behind. *)
Record registered (s s1 : Shop) (oid title email : string) (amount listed : Z) : Prop := {
  rd_row : ∃ id exam e name phone t1 t2 q, oid = "cert_" +:+ id ∧ sh_registrations s !! id = None ∧
    sh_exams s !! exam = Some e ∧ ex_title e = title ∧ ex_price_paise e = listed ∧ is_Some (first_field (name +:+ " ")) ∧
    tables (<[id := rg_named oid t2 (new_registration exam name email phone amount q t1)]> (sh_registrations s))
      (sh_exams s) (sh_users s) (sh_invites s) s1;
  rd_amount : 0 < amount ≤ listed;
}.

Lemma open_registration_spec h req name email phone mobile exam e w n s oid session title amount listed q n' s1 :
  alone w → fair_program s → 0 < listed ≤ 2 ^ 49 → sh_exams s !! exam = Some e → is_Some (first_field (name +:+ " ")) →
  open_registration h req name email phone mobile exam e w n s =
    (inl (registration_opened h oid session title amount listed q), n', s1) →
  registered s s1 oid title email amount listed.
Proof.
  intros Ho Hfair Hl He Hname H. unfold open_registration in H. svc_bind H q0 n1 s2 Hq.
  assert (Hlisted : ex_price_paise e = listed).
  { svc_bind H st n2 s3 Hst. destruct st; [|done]. svc_bind H nm n3 s4 Hnm. destruct nm; [|done].
    svc_bind H se n4 s5 Hse. destruct se; [by injection H|]. by svc_bind H y n5 s6 Hy. }
  assert (Hlim : 2 ^ 63 / 10000 = 922337203685477) by (vm_compute; reflexivity).
  assert (Hlim2 : 2 ^ 49 = 562949953421312) by (vm_compute; reflexivity).
  apply quote_amount in Hq as [-> Ha]; [|exact Ho|exact Hfair|rewrite Hlisted, Hlim; lia]. clear Hlim Hlim2.
  svc_bind H st n2 s2 Hst. apply try_effect_alone in Hst as (-> & [[-> ->]|(x & Hx & Hst)]); [done| |done].
  destruct (sh_registrations s !! st_fresh (stamp w n1)) eqn:Hfresh; [done|]. injection Hx as <- <-. destruct Hst as [->| ->]; [|done].
  svc_bind H nm n3 s3 Hnm. apply try_effect_alone in Hnm as (-> & [[-> ->]|(y & Hy & Hnm)]); [done| |done].
  injection Hy as <- <-. destruct Hnm as [->| ->]; [|done].
  svc_bind H se n4 s4 Hse. unfold createOrder, draw in Hse. injection Hse as Ese <- <-.
  destruct se as [se|]; [|by svc_bind H u n5 s5 Hu].
  injection H. intros. subst oid amount s1 title. split.
  - eexists _, exam, e, name, phone, _, _, q0. split; [done|]. split; [exact Hfresh|]. split; [exact He|]. split; [done|].
    split; [done|]. split; [exact Hname|]. split; [|done]. cbn. rewrite alter_insert_eq. done.
  - congruence.
Qed.

Lemma handleOrder_registered h ip req w n s oid session title amount listed q n' s1 :
  alone w → fair_program s → 0 < listed ≤ 2 ^ 49 →
  Certify.handleOrder h ip (Some req) w n s = (inl (registration_opened h oid session title amount listed q), n', s1) →
  enabled (ce_pay h) = true ∧ registered s s1 oid title (to_lower (clip (trim_space (ki_Email req)) 200)) amount listed.
Proof.
  intros Ho Hfair Hl. unfold Certify.handleOrder. destruct (enabled (ce_pay h)); cbn [negb]; [|by intros [=]]. intros H. split; [done|].
  svc_bind H a n1 s2 H1. apply limited_hits in H1 as [x1 ->]; [|done]. destruct a; [|done]. cbn [negb] in H.
  destruct (negb (String.eqb (trim_space _) "")); [done|].
  destruct (String.eqb_spec (clip (trim_space (ki_Name req)) 120) "") as [|Hname]; [done|].
  destruct (negb (bool_decide _)); [done|]. destruct (cashfreePhone _) as [mobile|]; [|done].
  svc_bind H a n2 s2 H2. apply limited_hits in H2 as [x2 ->]; [|done]. destruct a; [|done]. cbn [negb] in H.
  svc_bind H found n3 s3 H3. apply query_alone in H3 as (-> & -> & [(row & -> & Hrow)|[e ->]]); [|done..|done].
  injection Hrow as Hrow. destruct row as [[exam e]|]; [|done]. apply first_row_found in Hrow as [He _]. cbn in He.
  set (s3 := with_hits (with_hits s x1) x2) in *. unfold sell in H.
  svc_bind H live n4 s4 H4. apply query_alone in H4 as (-> & -> & _); [|done]. destruct live; [done|].
  svc_bind H passed n5 s5 H5. apply query_alone in H5 as (-> & -> & _); [|done].
  assert (Hp : ∃ k, (wait <- resit_closed exam (to_lower (clip (trim_space (ki_Email req)) 200)) (ex_resit_wait_days e);;
    match wait with
    | Some t => return_ (fail 409 ("you can resit this exam from " +:+ long_date t +:+ " — resits open "
                  +:+ format_int (ex_resit_wait_days e) +:+ " days after an attempt"))
    | None => open_registration h req (clip (trim_space (ki_Name req)) 120) (to_lower (clip (trim_space (ki_Email req)) 200))
                (clip (trim_space (ki_Phone req)) 30) (of_bytes mobile) exam e
    end) w k s3 = (inl (registration_opened h oid session title amount listed q), n', s1)).
  { destruct passed as [[]|]; [done|by eexists|by eexists]. }
  clear H. destruct Hp as [k H]. svc_bind H wait n6 s6 H6.
  assert (s6 = s3) as ->.
  { unfold resit_closed in H6. destruct (_ <=? 0); [by injection H6|]. svc_bind H6 f n7 s7 H7.
    apply query_alone in H7 as (-> & -> & _); [|done]. destruct f as [[t|]|]; [|by injection H6..].
    svc_bind H6 now n8 s8 H8. injection H8 as <- <- <-. by injection H6. }
  destruct wait; [done|]. eapply (open_registration_spec h req _ _ _ _ exam e w n6 s3) in H;
    [|exact Ho|exact Hfair|exact Hl|exact He|by apply clip_word].
  destruct H as [Hr Ha]. by split.
Qed.

(** The system's random bytes come. *)
Definition bytes_come : Prop := ∀ n k, is_Some (rand_bytes n k).

(** No stored digest is that of the token drawn at a step, or of any. *)
Definition digest_fresh (n : nat) (s : Shop) : Prop :=
  ∀ raw j q, randomToken n 32 = Some raw → sh_registrations s !! j = Some q →
    rg_claim_token_hash q ≠ Some (sha256Hex (of_bytes raw)).

Definition digests_fresh (s : Shop) : Prop := ∀ n, digest_fresh n s.

Definition ids_fresh (w : World Shop) (s : Shop) : Prop :=
  ∀ k, sh_users s !! new_id w k = None ∧ sh_invites s !! new_id w k = None.

(** The account and the invitation a candidate ends up with. *)
Record provisioned (s s1 : Shop) (email paper user invite : string) (expires : Z) (u : Account) : Prop := {
  pr_account : sh_users s1 !! user = Some u ∧ ac_email u = email;
  pr_applicant : (∀ k v, sh_users s !! k = Some v → ac_email v ≠ email) → ac_role u = "applicant";
  pr_invite : ∃ i, sh_invites s1 !! invite = Some i ∧ iv_assessment_id i = paper ∧ iv_email i = email ∧
    iv_user_id i = user ∧ iv_status i = "invited" ∧ iv_expires_at i = expires;
}.

(** New accounts and invitations have one of the given ids. *)
Definition only_new (p : string → Prop) (s s1 : Shop) : Prop :=
  (∀ k, ~ p k → sh_users s !! k = None → sh_users s1 !! k = None) ∧
  (∀ k, ~ p k → sh_invites s !! k = None → sh_invites s1 !! k = None).

Lemma provision_gives name email phone paper expires unusable token st s :
  sh_users s !! st_fresh st = None → sh_invites s !! st_fresh st = None →
  ∃ user invite s1 u, provision_tx name email phone paper expires unusable token st s = Some (user, invite, s1) ∧
    provisioned s s1 email paper user invite expires u ∧ sh_registrations s1 = sh_registrations s ∧ sh_exams s1 = sh_exams s ∧
    sh_mails s1 = sh_mails s ∧ only_new (λ k, k = st_fresh st) s s1.
Proof.
  intros Hu Hi. unfold provision_tx.
  assert (H1 : ∃ user s1 u, upsert_candidate name email phone unusable st s = Some (user, s1) ∧
    sh_users s1 !! user = Some u ∧ ac_email u = email ∧
    ((∀ k v, sh_users s !! k = Some v → ac_email v ≠ email) → ac_role u = "applicant") ∧
    sh_registrations s1 = sh_registrations s ∧ sh_exams s1 = sh_exams s ∧ sh_invites s1 = sh_invites s ∧ sh_mails s1 = sh_mails s ∧
    ∀ k, k ≠ st_fresh st → sh_users s !! k = None → sh_users s1 !! k = None).
  { unfold upsert_candidate. destruct (first_row _ _ _) as [[id v]|] eqn:E.
    - apply first_row_found in E as [Hid He%String.eqb_eq]. eexists _, _, _. split; [done|]. cbn. rewrite lookup_insert_eq.
      split; [done|]. cbn. split; [done|]. split; [intros H; by destruct (H _ _ Hid)|]. split_and!; try done.
      intros k _ Hk. rewrite lookup_insert_ne; [done|]. intros <-. congruence.
    - rewrite Hu. eexists _, _, _. split; [done|]. cbn. rewrite lookup_insert_eq. split_and!; try done.
      intros k Hk Hn. by rewrite lookup_insert_ne. }
  destruct H1 as (user & s1 & u & -> & Hus & Hem & Hrole & R1 & E1 & I1 & M1 & N1). cbn [mbind option_bind]. unfold upsert_invite.
  destruct (first_row _ _ _) as [[invite i]|] eqn:E.
  - apply first_row_found in E as [Hin _]. eexists _, _, _, u. split; [cbn; reflexivity|]. split; [|do 3 (split; [done|])].
    + split; [done|done|]. cbn. eexists. rewrite lookup_insert_eq. by split_and!.
    + split; [exact N1|]. intros k _ Hk. cbn. rewrite lookup_insert_ne; [by rewrite I1|]. intros <-. congruence.
  - rewrite I1, Hi. eexists _, _, _, u. split; [cbn; reflexivity|]. split; [|do 3 (split; [done|])].
    + split; [done|done|]. cbn. eexists. rewrite lookup_insert_eq. by split_and!.
    + split; [exact N1|]. intros k Hne Hk. cbn. by rewrite lookup_insert_ne.
Qed.

Lemma exam_book_total h id r e : is_Some (first_field (rg_name r +:+ " ")) → total (book_exam h id r e).
Proof. intros Hf. unfold book_exam. destruct (ce_Referrals h); [|by apply total_return]. destruct (String.eqb _ ""); [apply total_return|by apply RecordConversion_total]. Qed.

Lemma exam_book_tables h id r e w n s x n' s' rg ex u i :
  alone w → tables rg ex u i s → book_exam h id r e w n s = (x, n', s') → tables rg ex u i s'.
Proof.
  intros Ho Hs H. unfold book_exam in H.
  destruct (ce_Referrals h); [destruct (String.eqb _ "")|]; [by injection H as _ _ <-| |by injection H as _ _ <-].
  eapply (preserves_conversion (tables rg ex u i)); [|exact Hs|exact H]. intros k s0 H0. by rewrite Ho.
Qed.

Lemma exam_book_mail h id r e w n s x n' s' m :
  alone w → m ∈ sh_mails s → book_exam h id r e w n s = (x, n', s') → m ∈ sh_mails s'.
Proof.
  intros Ho Hs H. unfold book_exam in H.
  destruct (ce_Referrals h) as [rh|]; [destruct (String.eqb _ "")|]; [by injection H as _ _ <-| |by injection H as _ _ <-].
  refine (conversion_keeps_mail rh (exam_purchase id r e) m w n s x n' s' _ Hs H). intros k s0 H0. by rewrite Ho.
Qed.

(** In quiet conditions the one caller that moves a registration hands out
    its link. *)
Lemma grant_calm h id r r0 e w n s :
  calm w → ce_mailer_enabled h = true → bytes_come → sh_registrations s !! id = Some r0 → digest_fresh n s → ids_fresh w s →
  is_Some (first_field (rg_name r +:+ " ")) →
  ∃ f k s2 user invite u raw m expires t1 t2, grant h id r e w n s = (inl (inl f), k, s2) ∧ cr_Status f = RegPaid ∧
    cr_Emailed f = true ∧ m = n ∧ randomToken m 32 = Some raw ∧ provisioned s s2 (rg_email r) (ex_assessment_id e) user invite expires u ∧
    sh_registrations s2 = <[id := rg_emailed t2 (rg_claimable user invite (sha256Hex (of_bytes raw)) expires t1 r0)]> (sh_registrations s) ∧
    sh_exams s2 = sh_exams s ∧
    ExamMail (rg_email r) (rg_name r) (ex_title e) (exam_url h (of_bytes raw)) expires ∈ sh_mails s2 ∧
    (∀ x, x ∈ sh_mails s → x ∈ sh_mails s2) ∧ only_new (λ k, ∃ j, k = new_id w j) s s2.
Proof.
  intros Hc Hm Hb Hr0 Hdig Hids Hname. pose proof (calm_alone _ Hc) as Ho.
  assert (Htok : ∀ n k, ∃ raw, randomToken n k = Some raw).
  { intros m k. unfold randomToken. destruct (Hb m k) as [b ->]. by eexists. }
  destruct (Htok n 32%nat) as [raw Hraw], (Htok (n + 1 + 1)%nat 18%nat) as [suffix Hsuffix], (Htok (n + 1 + 1 + 1)%nat 32%nat) as [itoken Hitoken].
  set (expires := time_at w (n + 1) + days_duration (ex_link_valid_days e)).
  destruct (provision_gives (rg_name r) (rg_email r) (rg_phone r) (ex_assessment_id e) expires (UnusablePassword (of_bytes suffix))
    (of_bytes itoken) (stamp w (n + 1 + 1 + 1 + 1)) s) as (user & invite & s1 & u & Etx & Hprov & R1 & E1 & M1 & N1 & N2); [apply Hids..|].
  unfold grant. erewrite then_run by reflexivity. rewrite Hraw. cbv beta iota zeta. erewrite then_run by reflexivity. fold expires.
  unfold provision. erewrite then_run.
  2:{ erewrite then_run by reflexivity. erewrite then_run by reflexivity. rewrite Hsuffix, Hitoken. apply call_calm; exact Hc. }
  rewrite Etx. cbv beta iota. unfold store_claim. erewrite then_run by (apply call_calm; exact Hc).
  match goal with |- context [existsb ?p ?l] => assert (Hex : existsb p l = false) end.
  { apply not_true_iff_false. intros Hex. apply existsb_exists in Hex as ([j q] & Hin & [_ Hq%bool_decide_eq_true]%andb_true_iff).
    apply list_elem_of_In, elem_of_map_to_list in Hin. rewrite R1 in Hin. by apply (Hdig _ _ _ Hraw Hin). }
  rewrite Hex. cbv beta iota. unfold mail_link at 1, sendExamLink. rewrite Hm. cbn [negb].
  erewrite then_run.
  2:{ erewrite then_run by (erewrite then_run by (apply call_calm; exact Hc); reflexivity). cbv beta iota.
      unfold alter_registration, update. erewrite then_run by (apply call_calm; exact Hc). reflexivity. }
  cbv beta iota. set (s2 := with_registrations _ _).
  destruct (exam_book_total h id r e Hname w (n + 1 + 1 + 1 + 1 + 1 + 1 + 1 + 1)%nat s2) as (y & k & s3 & Ebook).
  erewrite then_run by exact Ebook.
  destruct (exam_book_tables h id r e w _ s2 _ k s3 _ _ _ _ Ho (conj eq_refl (conj eq_refl (conj eq_refl eq_refl))) Ebook) as (B1 & B2 & B3 & B4).
  eexists _, k, s3, user, invite, u, raw, n, expires, _, _. split; [reflexivity|]. split; [done|]. split; [done|]. split; [done|]. split; [exact Hraw|].
  split; [destruct Hprov as [P1 P2 P3]; split; [by rewrite B3|exact P2|by rewrite B4]|]. split.
  - rewrite B1. unfold s2. cbn. rewrite R1. rewrite <- (insert_id (sh_registrations s) id r0 Hr0) at 1. by rewrite !alter_insert_eq.
  - split; [by rewrite B2; exact E1|].
    split; [eapply exam_book_mail; [exact Ho| |exact Ebook]; unfold s2; cbn; set_solver|]. split.
    + intros x0 Hx0. eapply exam_book_mail; [exact Ho| |exact Ebook]. unfold s2. cbn. rewrite M1. set_solver.
    + split; intros j Hj Hn; [rewrite B3; apply N1|rewrite B4; apply N2]; try done; intros ->; apply Hj; by eexists.
Qed.

Definition registrations_named (s : Shop) : Prop :=
  ∀ i k r, sh_registrations s !! i = Some r → rg_gateway_order_id r = Some ("cert_" +:+ k) → k = i.

(** The session a claim with the mailed token opens. *)
Definition exam_opens (h : CertificationHandler) (token title email : string) (user : string) (u : Account) (expires : Z) (s : Shop) : Prop :=
  ∀ ip w k, calm w → ce_ipLimiter h = None → (∀ j, time_at w j ≤ expires) →
    (∀ c t l, is_Some (GenerateToken c t l (ce_jwtSecret h))) →
    ∃ t id paper it k' s', handleClaim h ip (Some token) w k s = (inl (claim_answer t id user paper title it u), k', s') ∧
      ∃ j i, sh_invites s' !! j = Some i ∧ iv_token i = it ∧ iv_assessment_id i = paper ∧ iv_email i = email ∧ iv_user_id i = user ∧
        iv_status i = "invited" ∧ iv_expires_at i = expires.

Lemma claim_opens h s id r e user u invite i token expires title :
  sh_registrations s !! id = Some r → rg_claim_token_hash r = Some (sha256Hex token) → rg_status r = RegPaid →
  rg_user_id r = Some user → rg_invite_id r = Some invite → rg_claim_expires_at r = Some expires →
  (∀ j q, sh_registrations s !! j = Some q → rg_claim_token_hash q = Some (sha256Hex token) → j = id) →
  sh_exams s !! rg_exam_id r = Some e → ex_title e = title → sh_users s !! user = Some u → ac_role u = "applicant" →
  sh_invites s !! invite = Some i → iv_assessment_id i = ex_assessment_id e → iv_user_id i = user → iv_status i = "invited" →
  iv_expires_at i = expires → clip token 200 = token → token ≠ "" →
  exam_opens h token title (iv_email i) user u expires s.
Proof.
  intros Hr Hh Hst Hu Hiv Hexp Honly He <- Hus Hrole Hi Hpaper Huser Hstatus Hie Hclip Hne ip w k Hc Hlim Htime Hsign.
  unfold handleClaim. cbv zeta. rewrite Hclip. apply String.eqb_neq in Hne as ->. rewrite Hlim.
  erewrite then_run by (apply limited_off; exact Hc). cbn [negb]. set (s1 := with_hits s _).
  erewrite then_run by (apply query_calm; exact Hc). cbv beta iota.
  rewrite (claim_row_only s1 (sha256Hex token) _ id r e user u Hr Hh Honly He Hu Hus). cbv beta iota. rewrite Hexp.
  erewrite then_run by (erewrite then_run by reflexivity; reflexivity).
  rewrite (proj2 (Z.ltb_ge _ _) (Htime _)). cbv iota. rewrite Hst. cbn [certTerminal]. rewrite bool_decide_eq_false_2 by done.
  rewrite Hrole. cbn [negb String.eqb Ascii.eqb Bool.eqb]. unfold open_session, alter_registration, update.
  erewrite then_run by (apply call_calm; exact Hc). cbv beta iota. erewrite then_run by reflexivity.
  match goal with |- context [GenerateToken ?c ?t ?l ?key] => destruct (Hsign c t l) as [tok Htok]; rewrite Htok end.
  assert (Hi1 : sh_invites s1 !! invite = Some i) by exact Hi. rewrite Hiv. cbn [mbind option_bind]. rewrite Hi1. eexists tok, id, _, _, _, _. split; [reflexivity|].
  exists invite, i. cbn. by split_and!.
Qed.

(** C20.  Who pays for an exam can sit it: a registration opened at a price up to the
    list price, and reported paid for that amount, ends with the browser's
    callback in a mailed link; the account of the buyer's address is an
    applicant's when the address had none, and an applicant's link opens until
    it expires a session whose invitation to the paper is theirs. *)
Theorem paid_exam_opens h ip req w n s oid session title amount listed q n' s1 w2 m :
  alone w → fair_program s → 0 < listed ≤ 2 ^ 49 → registrations_named s → ce_mailer_enabled h = true → bytes_come →
  Certify.handleOrder h ip (Some req) w n s = (inl (registration_opened h oid session title amount listed q), n', s1) →
  calm w2 → ids_fresh w2 s → digests_fresh s → collected m oid amount →
  let email := to_lower (clip (trim_space (ki_Email req)) 200) in
  ∃ f m' s2 name token expires user u, Certify.handleVerify h (Some oid) w2 m s1 = (inl (cert_fulfilled f), m', s2) ∧
    cr_Status f = RegPaid ∧ cr_Emailed f = true ∧ ExamMail email name title (exam_url h token) expires ∈ sh_mails s2 ∧
    sh_users s2 !! user = Some u ∧ ac_email u = email ∧
    ((∀ k v, sh_users s !! k = Some v → ac_email v ≠ email) → ac_role u = "applicant") ∧
    (ac_role u = "applicant" → exam_opens h token title email user u expires s2).
Proof.
  intros Ho Hfair Hl Hnamed Hm Hb H Hc Hids Hdig Hcol email.
  apply handleOrder_registered in H as (Hen & [(id & exam & e & name & phone & t1 & t2 & q0 & -> & Hnew & He & Ht & _ & Hname & T1 & T2 & T3 & T4) Ha]); [|done..].
  fold email in T1. set (oid := "cert_" +:+ id) in *. set (row := rg_named oid t2 _) in T1.
  assert (Hof : ∀ st, registration_of st s1 oid = Some (id, row)).
  { intros st. apply first_row_only; [by rewrite T1, lookup_insert_eq|by apply bool_decide_eq_true|].
    intros j r Hj Hr%bool_decide_eq_true. rewrite T1 in Hj. apply lookup_insert_Some in Hj as [[-> _]|[_ Hj]]; [done|].
    pose proof (Hnamed j id r Hj Hr). subst j. congruence. }
  assert (Hlim : 2 ^ 49 ≤ 2 ^ 50) by (vm_compute; discriminate).
  destruct (paid_lookup oid amount w2 m s1) as (payment & k & Hpo); [lia|exact Hcol|].
  unfold Certify.handleVerify. rewrite Hen. cbn [negb]. assert (Hpre : has_prefix "cert_" oid = true) by apply prefix_app. rewrite Hpre. cbn [negb].
  erewrite then_run by exact Hpo. cbv beta iota. unfold Certify.checkAmount.
  erewrite then_run by (erewrite then_run by (apply query_calm; exact Hc); reflexivity). rewrite Hof. cbn [fmap option_fmap option_map compose snd].
  change (rg_amount_paise row) with amount. rewrite Z.eqb_refl. cbv beta iota. unfold Certify.fulfil, Certify.mark_paid.
  assert (Hex : sh_exams s1 !! rg_exam_id row = Some e) by (rewrite T2; exact He).
  assert (Hpayable : payable row = true) by reflexivity.
  set (s1' := λ t, with_registrations s1 (<[id := rg_pay payment t row]> (sh_registrations s1))).
  destruct (grant_calm h id row (rg_pay payment (st_time (stamp w2 (k + 1))) row) e w2 (k + 1 + 1)%nat (s1' (st_time (stamp w2 (k + 1)))))
    as (f & m' & s2 & user & invite & u & raw & mr & expires & t3 & t4 & Eg & Hst & Hem & _ & Hraw & [[P1 P2] P3 (i & P4 & P5 & P6 & P7 & P8 & P9)] & G1 & G2 & G3 & _); try done.
  { cbn. by rewrite lookup_insert_eq. }
  { intros raw j r Hraw. cbn. intros [[_ <-]|[_ Hj]]%lookup_insert_Some; [done|]. rewrite T1 in Hj.
    apply lookup_insert_Some in Hj as [[_ <-]|[_ Hj]]; [done|]. by apply (Hdig _ _ _ _ Hraw Hj). }
  { intros j. cbn. rewrite T3, T4. apply Hids. }
  exists f, m', s2, name, (of_bytes raw), expires, user, u. split.
  { erewrite then_run.
    2:{ erewrite then_run by (apply call_calm; exact Hc). rewrite Hof, Hex, Hpayable. cbv beta iota. exact Eg. }
    reflexivity. }
  destruct (token_whole _ _ Hraw) as [Hclip Hne].
  split; [exact Hst|]. split; [exact Hem|]. split; [by rewrite <- Ht|]. split; [exact P1|]. split; [exact P2|]. split.
  { intros Hno. apply P3. intros j v. cbn. rewrite T3. apply Hno. }
  intros Hrole. assert (Eem : iv_email i = email) by exact P6. rewrite <- Eem.
  eapply (claim_opens h s2 id _ e user u invite i); [by rewrite G1, lookup_insert_eq|reflexivity|reflexivity|reflexivity|reflexivity|reflexivity| |
    by rewrite G2|exact Ht|exact P1|exact Hrole|exact P4|exact P5|exact P7|exact P8|exact P9|exact Hclip|exact Hne].
  intros j r Hj Hr. rewrite G1 in Hj. apply lookup_insert_Some in Hj as [[-> _]|[Hji Hj]]; [done|]. cbn in Hj.
  rewrite lookup_insert_ne in Hj by done. rewrite T1, lookup_insert_ne in Hj by done. by destruct (Hdig _ _ _ _ Hraw Hj).
Qed.

(** A link whose digest no registration has does not open. *)
Lemma claim_dead h ip token w k s :
  calm w → ce_ipLimiter h = None → clip token 200 = token → token ≠ "" →
  (∀ j q, sh_registrations s !! j = Some q → rg_claim_token_hash q ≠ Some (sha256Hex token)) →
  ∃ k' s', handleClaim h ip (Some token) w k s =
    (inl (fail 401 "this link is no longer valid — please contact us if you have paid for this exam"), k', s').
Proof.
  intros Hc Hlim Hclip Hne Hno. unfold handleClaim. cbv zeta. rewrite Hclip. apply String.eqb_neq in Hne as ->. rewrite Hlim.
  erewrite then_run by (apply limited_off; exact Hc). cbn [negb]. erewrite then_run by (apply query_calm; exact Hc). cbv beta iota.
  rewrite claim_row_dead; [by eexists _, _|]. intros j q Hj Hq. by destruct (Hno _ _ Hj).
Qed.

(** The callback and the notification of one payment can each mail a link:
    a second caller comes between the first one's payment mark and its digest,
    moves the registration again and mails a link of its own, which the first
    caller's digest then overwrites.  The candidate has two mails, and the
    link of one of them does not open. *)
Theorem links_race h oid p1 p2 w n w2 m s id r e :
  calm w → calm w2 → ce_mailer_enabled h = true → bytes_come →
  sh_registrations s !! id = Some r → rg_status r = RegCreated → rg_claim_token_hash r = None → rg_gateway_order_id r = Some oid →
  (∀ j q, sh_registrations s !! j = Some q → rg_gateway_order_id q = Some oid → j = id) →
  sh_exams s !! rg_exam_id r = Some e → is_Some (first_field (rg_name r +:+ " ")) →
  digests_fresh s → ids_fresh w s → ids_fresh w2 s → (∀ i j, new_id w i ≠ new_id w2 j) →
  (∀ a b, randomToken (n + 1) 32 = Some a → randomToken (m + 1) 32 = Some b → sha256Hex (of_bytes a) ≠ sha256Hex (of_bytes b)) →
  ∃ s1 f2 m' s2 f1 n' s3 token1 token2 x1 x2,
    Certify.mark_paid oid p1 w n s = (inl (inl (Some (id, r, e))), (n + 1)%nat, s1) ∧
    Certify.fulfil h oid p2 w2 m s1 = (inl (inl f2), m', s2) ∧
    grant h id r e w (n + 1)%nat s2 = (inl (inl f1), n', s3) ∧
    ExamMail (rg_email r) (rg_name r) (ex_title e) (exam_url h token1) x1 ∈ sh_mails s3 ∧
    ExamMail (rg_email r) (rg_name r) (ex_title e) (exam_url h token2) x2 ∈ sh_mails s3 ∧ token1 ≠ token2 ∧
    ∀ ip w3 k, calm w3 → ce_ipLimiter h = None → ∃ k' s4, handleClaim h ip (Some token2) w3 k s3 =
      (inl (fail 401 "this link is no longer valid — please contact us if you have paid for this exam"), k', s4).
Proof.
  intros Hc Hc2 Hm Hb Hr Hst Hh Hoid Honly He Hname Hdig Hids Hids2 Happart Hsha.
  assert (Hof : ∀ st s' q, sh_registrations s' = <[id := q]> (sh_registrations s) → rg_gateway_order_id q = Some oid →
    registration_of st s' oid = Some (id, q)).
  { intros st s' q Es Eq. apply first_row_only; [by rewrite Es, lookup_insert_eq|by apply bool_decide_eq_true|].
    rewrite Es. intros j x [[<- _]|[_ Hj]]%lookup_insert_Some Hx%bool_decide_eq_true; [done|eauto]. }
  assert (Hfree : ∀ k q s', rg_claim_token_hash q = None → sh_registrations s' = <[id := q]> (sh_registrations s) → digest_fresh k s').
  { intros k q s' Hq Es raw j x Hraw. rewrite Es. intros [[_ <-]|[_ Hj]]%lookup_insert_Some; [by rewrite Hq|exact (Hdig _ _ _ _ Hraw Hj)]. }
  set (r1 := rg_pay p1 (st_time (stamp w n)) r). set (s1 := with_registrations s (<[id := r1]> (sh_registrations s))).
  set (r2 := rg_pay p2 (st_time (stamp w2 m)) r1). set (s1' := with_registrations s1 (<[id := r2]> (sh_registrations s1))).
  assert (Es1' : sh_registrations s1' = <[id := r2]> (sh_registrations s)) by (cbn; by rewrite insert_insert_eq).
  destruct (grant_calm h id r1 r2 e w2 (m + 1)%nat s1') as (f2 & m' & s2 & user2 & invite2 & u2 & raw2 & mr2 & x2 & t1 & t2 & G2 & _ & _ &
    -> & Hraw2 & _ & Reg2 & Ex2 & Mail2 & _ & [New2 New2']); try done.
  { by rewrite Es1', lookup_insert_eq. }
  { by apply (Hfree _ r2). }
  destruct (grant_calm h id r (rg_emailed t2 (rg_claimable user2 invite2 (sha256Hex (of_bytes raw2)) x2 t1 r2)) e w (n + 1)%nat s2)
    as (f1 & n' & s3 & user1 & invite1 & u1 & raw1 & mr1 & x1 & t3 & t4 & G1 & _ & _ & -> & Hraw1 & _ & Reg1 & _ & Mail1 & Keep & _); try done.
  { by rewrite Reg2, lookup_insert_eq. }
  { intros raw j q Hraw. rewrite Reg2. intros [[_ <-]|[Hne Hj]]%lookup_insert_Some.
    - cbn. intros [= E]. by destruct (Hsha _ _ Hraw Hraw2).
    - rewrite Es1', lookup_insert_ne in Hj by done. exact (Hdig _ _ _ _ Hraw Hj). }
  { intros k. split; [apply New2|apply New2']; try apply Hids; intros [j Hj]; by apply Happart in Hj. }
  exists s1, f2, m', s2, f1, n', s3, (of_bytes raw1), (of_bytes raw2), x1, x2. split.
  { unfold Certify.mark_paid. rewrite call_calm by exact Hc. rewrite (Hof _ s r); [|by rewrite insert_id|exact Hoid]. rewrite He.
    unfold payable. rewrite Hst. done. }
  split.
  { unfold Certify.fulfil, Certify.mark_paid. erewrite then_run by (apply call_calm; exact Hc2). rewrite (Hof _ s1 r1 eq_refl Hoid).
    change (sh_exams s1 !! rg_exam_id r1) with (sh_exams s !! rg_exam_id r). rewrite He.
    unfold payable. cbn [r1 rg_pay rg_status_to set_rg rg_status rg_claim_token_hash set_rg_times set_rg_links].
    rewrite bool_decide_eq_true_2 by done. exact G2. }
  split; [exact G1|]. split; [exact Mail1|]. split; [by apply Keep|].
  assert (Hne : of_bytes raw1 ≠ of_bytes raw2) by (intros E; apply (Hsha _ _ Hraw1 Hraw2); by rewrite E).
  split; [exact Hne|]. destruct (token_whole _ _ Hraw2) as [Hclip Htok]. intros ip w3 k Hc3 Hlim.
  apply claim_dead; try done. intros j q. rewrite Reg1, Reg2, Es1', !insert_insert_eq.
  intros [[_ <-]|[_ Hj]]%lookup_insert_Some; [cbn; intros [= E]; by destruct (Hsha _ _ Hraw1 Hraw2)|exact (Hdig _ _ _ _ Hraw2 Hj)].
Qed.
End Sale.
