(* ===== verification/Hub.v ===== *)
(** The notification hub (services/notification-service/internal/handler/websocket.go,
    fed by internal/subscriber/nats.go): connections per user, broadcasts to
    them, slow and broken connections.

    The goroutines are a step relation over the state they share.  What runs
    under the hub's mutex is one step; between the steps any other goroutine
    may run.  Broadcasts come from one NATS callback, which runs for one
    message at a time, so at most one is in progress.  A connection is a
    number; two fields are ghost state: [hub_log], the broadcasts so far, and
    [cl_since], how many of them there were when the connection registered. *)

From S2P Require Import Prelude.

Record Client := {
  cl_userID : string;
  cl_send : list string;       (* the channel's buffer, oldest first *)
  cl_done : bool;              (* the done channel is closed *)
  cl_writing : bool;           (* writePump runs *)
  cl_reading : bool;           (* readPump runs *)
  cl_written : list string;    (* what went out on the connection *)
  cl_taken : list string;      (* the message writePump has received and not written *)
  cl_since : nat;
}.

(** Where a broadcast is: serving clients, about to unregister a slow one, or
    between the two halves of that [unregister]. *)
Inductive Stage := Serving | Slow (c : nat) | Forgotten (c : nat).

#[global] Instance Stage_eq_dec : EqDecision Stage.
Proof. solve_decision. Defined.

(** A broadcast under way: the clients of its snapshot still to be served. *)
Record Task := { tk_data : string; tk_pending : list nat; tk_stage : Stage }.

(** The broadcast has yet to hand its message to a connection, or to give up. *)
Definition owed (t : Task) (c : nat) : Prop := c ∈ tk_pending t ∨ tk_stage t = Slow c.

#[global] Instance owed_dec t c : Decision (owed t c) := ltac:(unfold owed; apply _).

Lemma owed_serving data l c : owed {| tk_data := data; tk_pending := l; tk_stage := Serving |} c ↔ c ∈ l.
Proof. unfold owed. cbn. naive_solver. Qed.

Record Hub := {
  clients : gmap string (gset nat);
  conns : gmap nat Client;
  task : option Task;
  leaving : gset nat;          (* removed by their reader, not yet closed *)
  hub_log : list (string * string);
}.

Definition NewHub : Hub :=
  {| clients := ∅; conns := ∅; task := None; leaving := ∅; hub_log := [] |}.

(** [make(chan []byte, 64)] *)
Definition send_buffer : nat := 64.

Definition set_clients (h : Hub) (m : gmap string (gset nat)) : Hub :=
  {| clients := m; conns := conns h; task := task h; leaving := leaving h; hub_log := hub_log h |}.
Definition set_task (h : Hub) (t : option Task) : Hub :=
  {| clients := clients h; conns := conns h; task := t; leaving := leaving h; hub_log := hub_log h |}.
Definition set_leaving (h : Hub) (s : gset nat) : Hub :=
  {| clients := clients h; conns := conns h; task := task h; leaving := s; hub_log := hub_log h |}.
Definition at_conn (c : nat) (f : Client → Client) (h : Hub) : Hub :=
  {| clients := clients h; conns := alter f c (conns h); task := task h; leaving := leaving h; hub_log := hub_log h |}.

Definition registered (h : Hub) (userID : string) : gset nat := default ∅ (clients h !! userID).

(** [register] *)
Definition register (c : nat) (userID : string) (h : Hub) : Hub :=
  set_clients h (<[userID := {[c]} ∪ registered h userID]> (clients h)).

(** The part of [unregister] under the lock. *)
Definition forget (c : nat) (userID : string) (h : Hub) : Hub :=
  match clients h !! userID with
  | None => h
  | Some s =>
      let s := s ∖ {[c]} in
      set_clients h (if decide (s = ∅) then delete userID (clients h) else <[userID := s]> (clients h))
  end.

(** [closeOnce.Do]: the done channel is closed the first time only. *)
Definition close_once (cl : Client) : Client :=
  {| cl_userID := cl_userID cl; cl_send := cl_send cl; cl_done := true; cl_writing := cl_writing cl;
     cl_reading := cl_reading cl; cl_written := cl_written cl; cl_taken := cl_taken cl; cl_since := cl_since cl |}.

(** [snapshot]: one user's clients, or everyone's when [userID] is empty. *)
Definition snapshot (h : Hub) (userID : string) : gset nat :=
  if String.eqb userID "" then ⋃ (map snd (map_to_list (clients h))) else registered h userID.

(** The connection [ServeHTTP] makes. *)
Definition new_client (h : Hub) (userID : string) : Client :=
  {| cl_userID := userID; cl_send := []; cl_done := false; cl_writing := true; cl_reading := true;
     cl_written := []; cl_taken := []; cl_since := length (hub_log h) |}.

Definition push_send (data : string) (cl : Client) : Client :=
  {| cl_userID := cl_userID cl; cl_send := cl_send cl ++ [data]; cl_done := cl_done cl; cl_writing := cl_writing cl;
     cl_reading := cl_reading cl; cl_written := cl_written cl; cl_taken := cl_taken cl; cl_since := cl_since cl |}.

(** [msg := <-c.send] *)
Definition take_send (cl : Client) : Client :=
  {| cl_userID := cl_userID cl; cl_send := tail (cl_send cl); cl_done := cl_done cl; cl_writing := cl_writing cl;
     cl_reading := cl_reading cl; cl_written := cl_written cl; cl_taken := firstn 1 (cl_send cl);
     cl_since := cl_since cl |}.

(** The write of the received message succeeded. *)
Definition write_taken (cl : Client) : Client :=
  {| cl_userID := cl_userID cl; cl_send := cl_send cl; cl_done := cl_done cl; cl_writing := cl_writing cl;
     cl_reading := cl_reading cl; cl_written := cl_written cl ++ cl_taken cl; cl_taken := [];
     cl_since := cl_since cl |}.

Definition stop_writing (cl : Client) : Client :=
  {| cl_userID := cl_userID cl; cl_send := cl_send cl; cl_done := cl_done cl; cl_writing := false;
     cl_reading := cl_reading cl; cl_written := cl_written cl; cl_taken := cl_taken cl; cl_since := cl_since cl |}.

Definition stop_reading (cl : Client) : Client :=
  {| cl_userID := cl_userID cl; cl_send := cl_send cl; cl_done := cl_done cl; cl_writing := cl_writing cl;
     cl_reading := false; cl_written := cl_written cl; cl_taken := cl_taken cl; cl_since := cl_since cl |}.

Inductive step : Hub → Hub → Prop :=
  (* ServeHTTP: a request with a user id becomes a registered connection *)
  | step_connect h c userID :
      conns h !! c = None → userID ≠ "" →
      step h (register c userID
        {| clients := clients h; conns := <[c := new_client h userID]> (conns h); task := task h;
           leaving := leaving h; hub_log := hub_log h |})
  (* Broadcast: the snapshot is taken under the read lock *)
  | step_broadcast h userID data l :
      task h = None → l ≡ₚ base.elements (snapshot h userID) →
      step h {| clients := clients h; conns := conns h;
                task := Some {| tk_data := data; tk_pending := l; tk_stage := Serving |};
                leaving := leaving h; hub_log := hub_log h ++ [(userID, data)] |}
  (* deliver: the three cases of the select; both channels may be ready *)
  | step_deliver h c l data cl :
      task h = Some {| tk_data := data; tk_pending := c :: l; tk_stage := Serving |} →
      conns h !! c = Some cl → length (cl_send cl) < send_buffer →
      step h (set_task (at_conn c (push_send data) h) (Some {| tk_data := data; tk_pending := l; tk_stage := Serving |}))
  | step_gone h c l data cl :
      task h = Some {| tk_data := data; tk_pending := c :: l; tk_stage := Serving |} →
      conns h !! c = Some cl → cl_done cl = true →
      step h (set_task h (Some {| tk_data := data; tk_pending := l; tk_stage := Serving |}))
  | step_slow h c l data cl :
      task h = Some {| tk_data := data; tk_pending := c :: l; tk_stage := Serving |} →
      conns h !! c = Some cl → send_buffer ≤ length (cl_send cl) → cl_done cl = false →
      step h (set_task h (Some {| tk_data := data; tk_pending := l; tk_stage := Slow c |}))
  | step_forget_slow h c l data cl :
      task h = Some {| tk_data := data; tk_pending := l; tk_stage := Slow c |} →
      conns h !! c = Some cl →
      step h (set_task (forget c (cl_userID cl) h) (Some {| tk_data := data; tk_pending := l; tk_stage := Forgotten c |}))
  | step_close_slow h c l data :
      task h = Some {| tk_data := data; tk_pending := l; tk_stage := Forgotten c |} →
      step h (set_task (at_conn c close_once h) (Some {| tk_data := data; tk_pending := l; tk_stage := Serving |}))
  | step_finish h data :
      task h = Some {| tk_data := data; tk_pending := []; tk_stage := Serving |} →
      step h (set_task h None)
  (* writePump *)
  | step_take h c cl :
      conns h !! c = Some cl → cl_writing cl = true → cl_taken cl = [] → cl_send cl ≠ [] →
      step h (at_conn c take_send h)
  | step_write h c cl :
      conns h !! c = Some cl → cl_writing cl = true → cl_taken cl ≠ [] →
      step h (at_conn c write_taken h)
  | step_stop_writing h c cl :     (* done, or a write or a ping failed *)
      conns h !! c = Some cl → cl_writing cl = true →
      step h (at_conn c stop_writing h)
  (* readPump: an error ends it, and its deferred unregister runs *)
  | step_read_error h c cl :
      conns h !! c = Some cl → cl_reading cl = true →
      step h (set_leaving (forget c (cl_userID cl) (at_conn c stop_reading h)) ({[c]} ∪ leaving h))
  | step_left h c :
      c ∈ leaving h →
      step h (set_leaving (at_conn c close_once h) (leaving h ∖ {[c]})).

Inductive reachable : Hub → Prop :=
  | reachable_init : reachable NewHub
  | reachable_step h h' : reachable h → step h h' → reachable h'.

(** ** Invariant *)

(** What was handed to a connection, in order. *)
Definition stream (cl : Client) : list string := cl_written cl ++ cl_taken cl ++ cl_send cl.

(** What was broadcast to its user since it registered. *)
Definition history (h : Hub) (cl : Client) : list string :=
  map snd (filter (λ e, fst e = cl_userID cl ∨ fst e = "") (skipn (cl_since cl) (hub_log h))).

(** The message the broadcast under way is about to hand to it. *)
Definition due (h : Hub) (c : nat) : list string :=
  match task h with
  | Some t => if decide (owed t c) then [tk_data t] else []
  | None => []
  end.

Record conn_ok (h : Hub) (c : nat) (cl : Client) : Prop := {
  ok_buffer : length (cl_send cl) ≤ send_buffer;
  ok_since : cl_since cl ≤ length (hub_log h);
  ok_prefix : stream cl ++ due h c `prefix_of` history h cl;
  ok_whole : c ∈ registered h (cl_userID cl) → stream cl ++ due h c = history h cl;
}.

Record inv (h : Hub) : Prop := {
  inv_sets u s : clients h !! u = Some s → s ≠ ∅ ∧ u ≠ "";
  inv_registered u c : c ∈ registered h u →
    ∃ cl, conns h !! c = Some cl ∧ cl_userID cl = u ∧ cl_done cl = false;
  inv_conns c cl : conns h !! c = Some cl → conn_ok h c cl;
  inv_pending t c : task h = Some t → NoDup (tk_pending t) ∧ (owed t c → is_Some (conns h !! c));
  inv_forgotten t c : task h = Some t → tk_stage t = Forgotten c → is_Some (conns h !! c) ∧ ∀ u, c ∉ registered h u;
  inv_leaving c : c ∈ leaving h → is_Some (conns h !! c) ∧ ∀ u, c ∉ registered h u;
}.

Lemma registered_register c u h v :
  registered (register c u h) v = if decide (v = u) then {[c]} ∪ registered h u else registered h v.
Proof.
  unfold registered, register. cbn. case_decide as E; [subst v; by rewrite lookup_insert_eq|].
  by rewrite lookup_insert_ne.
Qed.

Lemma registered_forget c u h v :
  registered (forget c u h) v = if decide (v = u) then registered h u ∖ {[c]} else registered h v.
Proof.
  unfold registered, forget. destruct (clients h !! u) as [s|] eqn:Eu; cbn.
  - destruct (decide (s ∖ {[c]} = ∅)) as [Es|Es]; case_decide as E; try subst v;
      rewrite ?lookup_delete_eq, ?lookup_insert_eq, ?lookup_delete_ne, ?lookup_insert_ne by done; cbn; set_solver.
  - case_decide as E; [subst v; rewrite Eu; cbn; set_solver|done].
Qed.

Lemma clients_forget c u h v s : clients (forget c u h) !! v = Some s →
  (v ≠ u ∧ clients h !! v = Some s) ∨ (v = u ∧ s ≠ ∅ ∧ is_Some (clients h !! u)).
Proof.
  unfold forget. destruct (clients h !! u) as [s0|] eqn:Eu; cbn.
  - destruct (decide (v = u)) as [->|Hne].
    + case_decide; rewrite ?lookup_delete_eq, ?lookup_insert_eq; [done|]. intros [= <-]. right. eauto.
    + case_decide; rewrite ?lookup_delete_ne, ?lookup_insert_ne by done; auto.
  - destruct (decide (v = u)) as [->|Hne]; [by rewrite Eu|auto].
Qed.

Lemma forget_fields c u h :
  conns (forget c u h) = conns h ∧ task (forget c u h) = task h ∧ leaving (forget c u h) = leaving h ∧
  hub_log (forget c u h) = hub_log h.
Proof. unfold forget. by destruct (clients h !! u). Qed.

Lemma elem_snapshot h u c :
  c ∈ snapshot h u ↔ if String.eqb u "" then ∃ v, c ∈ registered h v else c ∈ registered h u.
Proof.
  unfold snapshot. destruct (String.eqb u ""); [|done]. rewrite elem_of_union_list. split.
  - intros (s & Hs & Hc). apply list_elem_of_fmap in Hs as ([v s'] & -> & Hs). apply elem_of_map_to_list in Hs.
    exists v. unfold registered. by rewrite Hs.
  - intros (v & Hc). unfold registered in Hc. destruct (clients h !! v) as [s|] eqn:E; [|set_solver].
    exists s. split; [|done]. apply list_elem_of_fmap. exists (v, s). split; [done|by apply elem_of_map_to_list].
Qed.

(** A registered connection is registered for its own user only. *)
Lemma registered_own h c cl u : inv h → conns h !! c = Some cl → c ∈ registered h u → u = cl_userID cl.
Proof. intros Hi Hc Hr. destruct (inv_registered _ Hi _ _ Hr) as (cl' & Hc' & <- & _). congruence. Qed.

(** A fresh connection is registered nowhere. *)
Lemma fresh_unregistered h c : conns h !! c = None → inv h → ∀ u, c ∉ registered h u.
Proof. intros Hc Hi u Hr. destruct (inv_registered _ Hi _ _ Hr) as (cl & Hcl & _). congruence. Qed.

(** A step that changes one connection and hands it nothing. *)
Lemma inv_at_conn c f h :
  inv h →
  (∀ cl, conns h !! c = Some cl → conn_ok h c cl →
    cl_userID (f cl) = cl_userID cl ∧ cl_since (f cl) = cl_since cl ∧ stream (f cl) = stream cl ∧
    length (cl_send (f cl)) ≤ send_buffer ∧
    (cl_done (f cl) = cl_done cl ∨ ∀ u, c ∉ registered h u)) →
  inv (at_conn c f h).
Proof.
  intros Hi Hf.
  assert (Hsome : ∀ c', is_Some (conns h !! c') → is_Some (conns (at_conn c f h) !! c')).
  { intros c' Hc'. cbn. destruct (decide (c' = c)) as [->|Hne]; [|by rewrite lookup_alter_ne].
    rewrite lookup_alter_eq. by apply fmap_is_Some. }
  assert (Hinv : ∀ c' cl', conns (at_conn c f h) !! c' = Some cl' →
    ∃ cl, conns h !! c' = Some cl ∧ (cl' = cl ∧ c' ≠ c ∨ cl' = f cl ∧ c' = c)).
  { intros c' cl'. cbn. destruct (decide (c' = c)) as [->|Hne]; [|rewrite lookup_alter_ne by done; eauto].
    rewrite lookup_alter_eq. intros (cl & -> & ?)%fmap_Some. eauto 6. }
  split.
  - intros u s. apply (inv_sets _ Hi).
  - intros u c' Hc'. destruct (inv_registered _ Hi _ _ Hc') as (cl & Hcl & Hu & Hd).
    cbn. destruct (decide (c' = c)) as [->|Hne]; [|rewrite lookup_alter_ne by done; eauto].
    rewrite lookup_alter_eq, Hcl. exists (f cl).
    destruct (Hf cl Hcl (inv_conns _ Hi _ _ Hcl)) as (E1 & _ & _ & _ & [E|E]); [|by destruct (E u)].
    split_and!; [done|congruence|congruence].
  - intros c' cl' (cl & Hcl & [[-> Hne]|[-> ->]])%Hinv; pose proof (inv_conns _ Hi _ _ Hcl) as [B1 B2 B3 B4]; [by split|].
    destruct (Hf cl Hcl (inv_conns _ Hi _ _ Hcl)) as (E1 & E2 & E3 & E4 & _).
    split; [done|by rewrite E2|..]; unfold history in *; cbn; rewrite E1, E2, E3; assumption.
  - intros t c' Ht. destruct (inv_pending _ Hi t c' Ht) as [P1 P2]. eauto.
  - intros t c' Ht Hs. destruct (inv_forgotten _ Hi t c' Ht Hs) as [P1 P2]. eauto.
  - intros c' Hc'. destruct (inv_leaving _ Hi c' Hc') as [P1 P2]. eauto.
Qed.

Lemma forgotten c cl h u : inv h → conns h !! c = Some cl → c ∉ registered (forget c (cl_userID cl) h) u.
Proof.
  intros Hi Hcl. rewrite registered_forget. case_decide as E; [set_solver|].
  intros Hr. by destruct E, (registered_own _ _ _ _ Hi Hcl Hr).
Qed.

(** Removing a connection from the map. *)
Lemma inv_forget c cl h : inv h → conns h !! c = Some cl → inv (forget c (cl_userID cl) h).
Proof.
  intros Hi Hcl. destruct (forget_fields c (cl_userID cl) h) as (F1 & F2 & F3 & F4).
  assert (Hsub : ∀ u c', c' ∈ registered (forget c (cl_userID cl) h) u → c' ∈ registered h u).
  { intros u c'. rewrite registered_forget. case_decide; set_solver. }
  split; rewrite ?F1, ?F2, ?F3.
  - intros u s [[_ Hs]|(-> & Hne & [s0 Hs0])]%clients_forget; [by apply (inv_sets _ Hi _ _ Hs)|].
    split; [done|exact (proj2 (inv_sets _ Hi _ _ Hs0))].
  - intros u c' Hc'. by apply (inv_registered _ Hi), Hsub.
  - intros c' cl' Hcl'. destruct (inv_conns _ Hi _ _ Hcl') as [B1 B2 B3 B4].
    unfold due, history in *. split; unfold due, history; rewrite ?F2, ?F4; try done. intros Hr%Hsub. auto.
  - apply (inv_pending _ Hi).
  - intros t c' Ht Hs. destruct (inv_forgotten _ Hi t c' Ht Hs) as [? Hn]. split; [done|intros u Hr%Hsub; by destruct (Hn u)].
  - intros c' Hc'. destruct (inv_leaving _ Hi c' Hc') as [? Hn]. split; [done|intros u Hr%Hsub; by destruct (Hn u)].
Qed.

(** The broadcast moves on: a registered connection's message is still due. *)
Lemma inv_set_task t h :
  inv h →
  (∀ t', t = Some t' → NoDup (tk_pending t') ∧ (∀ c, owed t' c → is_Some (conns h !! c)) ∧
     (∀ c, tk_stage t' = Forgotten c → is_Some (conns h !! c) ∧ ∀ u, c ∉ registered h u)) →
  (∀ c cl, conns h !! c = Some cl →
     due (set_task h t) c = due h c ∨ due (set_task h t) c = [] ∧ ∀ u, c ∉ registered h u) →
  inv (set_task h t).
Proof.
  intros Hi Ht Hdue. split; cbn; try apply Hi.
  - intros c cl Hcl. destruct (inv_conns _ Hi _ _ Hcl) as [B1 B2 B3 B4].
    destruct (Hdue c cl Hcl) as [E|[E Hr]]; split; try done; rewrite ?E; try done.
    + rewrite app_nil_r. etrans; [apply prefix_app_r|exact B3]. done.
    + intros Hc. by destruct (Hr _ Hc).
  - intros t' c E. destruct (Ht t' E) as (P1 & P2 & _). auto.
  - intros t' c E. destruct (Ht t' E) as (_ & _ & P3). auto.
Qed.

(** The broadcast gives up on a connection that the map has forgotten. *)
Lemma inv_pass t t' h :
  inv h → task h = Some t → NoDup (tk_pending t') →
  (∀ c, owed t' c → owed t c) → (∀ c, owed t c → owed t' c ∨ ∀ u, c ∉ registered h u) →
  tk_data t' = tk_data t →
  (∀ c, tk_stage t' = Forgotten c → is_Some (conns h !! c) ∧ ∀ u, c ∉ registered h u) →
  inv (set_task h (Some t')).
Proof.
  intros Hi Ht Hnd H1 H2 Hdata Hs. apply inv_set_task; [done| |].
  - intros ? [= <-]. split_and!; [done| |done]. intros c Hc%H1. by apply (inv_pending _ Hi _ c Ht).
  - intros c cl Hcl. unfold due. rewrite Ht. cbn. rewrite Hdata.
    destruct (decide (owed t' c)) as [P|P], (decide (owed t c)) as [Q|Q]; try (by left); [by destruct Q; auto|].
    destruct (H2 c Q) as [|H]; [done|by right].
Qed.

Lemma inv_set_leaving s h :
  inv h → (∀ c, c ∈ s → is_Some (conns h !! c) ∧ ∀ u, c ∉ registered h u) → inv (set_leaving h s).
Proof.
  intros Hi Hs. split; cbn; try apply Hi; [|done].
  intros c cl Hcl. destruct (inv_conns _ Hi _ _ Hcl). by split.
Qed.

(** A new connection starts with nothing sent and nothing missed. *)
Lemma inv_connect c userID h :
  inv h → conns h !! c = None → userID ≠ "" →
  inv (register c userID
    {| clients := clients h; conns := <[c := new_client h userID]> (conns h); task := task h;
       leaving := leaving h; hub_log := hub_log h |}).
Proof.
  intros Hi Hc Hu. pose proof (fresh_unregistered h c Hc Hi) as Hfresh.
  assert (Hknown : ∀ c', is_Some (conns h !! c') → is_Some (<[c := new_client h userID]> (conns h) !! c') ∧ c' ≠ c).
  { intros c' [cl Hcl]. assert (c' ≠ c) by congruence. split; [by rewrite lookup_insert_ne|done]. }
  assert (Hreg : ∀ c' u, c' ≠ c → c' ∈ registered (register c userID h) u → c' ∈ registered h u).
  { intros c' u Hne. rewrite registered_register. case_decide; set_solver. }
  split; cbn [register set_clients conns task leaving hub_log].
  - intros u s. unfold register. cbn. destruct (decide (u = userID)) as [->|Hne].
    + rewrite lookup_insert_eq. intros [= <-]. split; [set_solver|done].
    + rewrite lookup_insert_ne by done. apply (inv_sets _ Hi).
  - intros u c' Hr. destruct (decide (c' = c)) as [->|Hne].
    + rewrite lookup_insert_eq. exists (new_client h userID). split_and!; [done| |done].
      change (c ∈ registered (register c userID h) u) in Hr. rewrite registered_register in Hr.
      case_decide; [done|by destruct (Hfresh u)].
    + rewrite lookup_insert_ne by done. by apply (inv_registered _ Hi), Hreg.
  - intros c' cl'. destruct (decide (c' = c)) as [->|Hne].
    + rewrite lookup_insert_eq. intros [= <-].
      assert (E : history h (new_client h userID) = []).
      { unfold history. cbn. by rewrite skipn_all. }
      assert (D : due h c = []).
      { unfold due. destruct (task h) as [t|] eqn:Ht; [|done]. case_decide as P; [|done].
        destruct (inv_pending _ Hi t c Ht) as [_ Q]. destruct (Q P); congruence. }
      split; unfold history, due in *; cbn in *; rewrite ?E, ?D; try done; unfold send_buffer; lia.
    + rewrite lookup_insert_ne by done. intros Hcl. destruct (inv_conns _ Hi _ _ Hcl) as [B1 B2 B3 B4].
      split; try done. intros Hr. by apply B4, Hreg.
  - intros t c' Ht. destruct (inv_pending _ Hi t c' Ht) as [P1 P2]. split; [done|]. intros Hp. by apply Hknown, P2.
  - intros t c' Ht Hs. destruct (inv_forgotten _ Hi t c' Ht Hs) as [[P1 P3]%Hknown P2].
    split; [done|]. intros u Hr%Hreg; [by destruct (P2 u)|done].
  - intros c' Hc'. destruct (inv_leaving _ Hi c' Hc') as [[P1 P3]%Hknown P2].
    split; [done|]. intros u Hr%Hreg; [by destruct (P2 u)|done].
Qed.

Lemma elem_due h c t : task h = Some t → due h c = if decide (owed t c) then [tk_data t] else [].
Proof. unfold due. by intros ->. Qed.

(** A registered connection is in the snapshot exactly when the event is for it. *)
Lemma snapshot_own h c cl u : inv h → conns h !! c = Some cl → c ∈ registered h (cl_userID cl) →
  c ∈ snapshot h u ↔ cl_userID cl = u ∨ u = "".
Proof.
  intros Hi Hcl Hr. rewrite elem_snapshot. destruct (String.eqb_spec u "") as [->|Hne].
  - split; [auto|]. intros _. eauto.
  - split; [|intros [<-|]; [done|by destruct Hne]]. intros Hu. left. symmetry. by eapply registered_own.
Qed.

(** A new broadcast: the whole snapshot has the message due. *)
Lemma inv_broadcast userID data l h :
  inv h → task h = None → l ≡ₚ base.elements (snapshot h userID) →
  inv {| clients := clients h; conns := conns h;
         task := Some {| tk_data := data; tk_pending := l; tk_stage := Serving |};
         leaving := leaving h; hub_log := hub_log h ++ [(userID, data)] |}.
Proof.
  intros Hi Ht Hl.
  assert (Hin : ∀ c, c ∈ l ↔ c ∈ snapshot h userID) by (intros c; rewrite Hl; set_solver).
  split; cbn; try apply Hi.
  - intros c cl Hcl. destruct (inv_conns _ Hi _ _ Hcl) as [B1 B2 B3 B4].
    assert (E : due h c = []) by (unfold due; by rewrite Ht).
    rewrite E, app_nil_r in B3. rewrite E, app_nil_r in B4.
    assert (H : history {| clients := clients h; conns := conns h;
         task := Some {| tk_data := data; tk_pending := l; tk_stage := Serving |};
         leaving := leaving h; hub_log := hub_log h ++ [(userID, data)] |} cl =
         history h cl ++ if decide (userID = cl_userID cl ∨ userID = "") then [data] else []).
    { unfold history. cbn. rewrite skipn_app, (proj2 (Nat.sub_0_le _ _) B2), filter_app, map_app.
      f_equal. cbn. by case_decide; rewrite ?filter_cons_True, ?filter_cons_False, ?filter_nil by done. }
    assert (D : c ∈ registered h (cl_userID cl) → c ∈ l ↔ (userID = cl_userID cl ∨ userID = "")).
    { intros Hr. rewrite Hin, (snapshot_own h c cl) by done. naive_solver. }
    split; try done; [cbn; rewrite length_app; lia| |]; rewrite H; unfold due; cbn.
    + rewrite (decide_ext _ (c ∈ l)) by apply owed_serving. destruct (decide (c ∈ l)) as [P|P]; [|rewrite app_nil_r; etrans; [exact B3|by apply prefix_app_r]].
      assert (Hr : c ∈ registered h (cl_userID cl)).
      { apply Hin, elem_snapshot in P. destruct (String.eqb userID "").
        - destruct P as [v P]. by rewrite (registered_own _ _ _ _ Hi Hcl P) in P.
        - by rewrite (registered_own _ _ _ _ Hi Hcl P) in P. }
      rewrite (B4 Hr), decide_True by (by apply D). done.
    + intros Hr. specialize (B4 Hr). specialize (D Hr). rewrite B4. f_equal. rewrite (decide_ext _ (c ∈ l)) by apply owed_serving.
      by repeat case_decide; tauto.
  - intros t c [= <-]. cbn. split; [rewrite Hl; apply NoDup_elements|].
    rewrite owed_serving, Hin, elem_snapshot. intros P.
    assert (∃ v, c ∈ registered h v) as [v Hv] by (destruct (String.eqb userID ""); eauto).
    destruct (inv_registered _ Hi _ _ Hv) as (cl & -> & _). eauto.
  - intros t c [= <-]. done.
Qed.

Ltac conn_case c' c := destruct (decide (c' = c)) as [->|?]; [rewrite ?lookup_alter_eq|rewrite ?lookup_alter_ne by done].

(** The message due is queued. *)
Lemma inv_deliver c l data cl h :
  inv h → task h = Some {| tk_data := data; tk_pending := c :: l; tk_stage := Serving |} →
  conns h !! c = Some cl → length (cl_send cl) < send_buffer →
  inv (set_task (at_conn c (push_send data) h) (Some {| tk_data := data; tk_pending := l; tk_stage := Serving |})).
Proof.
  intros Hi Ht Hcl Hroom. destruct (inv_pending _ Hi _ c Ht) as [[Hn Hnd]%NoDup_cons _].
  assert (Hsome : ∀ c', is_Some (conns h !! c') → is_Some (alter (push_send data) c (conns h) !! c')).
  { intros c' Hc'. conn_case c' c; [by apply fmap_is_Some|done]. }
  split; cbn; try apply Hi.
  - intros u c' Hr. destruct (inv_registered _ Hi _ _ Hr) as (cl' & Hcl' & Hu & Hd).
    conn_case c' c; [|eauto]. rewrite Hcl'. by exists (push_send data cl').
  - intros c' cl'. conn_case c' c.
    + rewrite Hcl. intros [= <-]. destruct (inv_conns _ Hi _ _ Hcl) as [B1 B2 B3 B4].
      rewrite (elem_due _ _ _ Ht) in B3, B4. cbn in B3, B4. rewrite decide_True in B3, B4 by (apply owed_serving; by left).
      assert (E : stream (push_send data cl) = stream cl ++ [data]) by (unfold stream; cbn; by rewrite !app_assoc).
      assert (D : due (set_task (at_conn c (push_send data) h)
        (Some {| tk_data := data; tk_pending := l; tk_stage := Serving |})) c = []) by (unfold due; cbn; rewrite decide_False by (by rewrite owed_serving); done).
      split; rewrite ?E, ?D, ?app_nil_r; try done. cbn. rewrite length_app. cbn. lia.
    + intros Hcl'. destruct (inv_conns _ Hi _ _ Hcl') as [B1 B2 B3 B4].
      assert (D : due (set_task (at_conn c (push_send data) h)
        (Some {| tk_data := data; tk_pending := l; tk_stage := Serving |})) c' = due h c').
      { unfold due. cbn. rewrite Ht. cbn. erewrite decide_ext; [done|]. rewrite !owed_serving. set_solver. }
      split; rewrite ?D; done.
  - intros t c' [= <-]. cbn. split; [done|]. intros P%owed_serving. apply Hsome.
    destruct (inv_pending _ Hi _ c' Ht) as [_ Q]. apply Q, owed_serving. by right.
  - by intros t c' [= <-].
  - intros c' Hc'. destruct (inv_leaving _ Hi _ Hc'). eauto.
Qed.

Lemma done_unregistered h c cl : inv h → conns h !! c = Some cl → cl_done cl = true → ∀ u, c ∉ registered h u.
Proof. intros Hi Hcl Hd u Hr. destruct (inv_registered _ Hi _ _ Hr) as (cl' & Hcl' & _ & Hd'). congruence. Qed.

(** What writePump does changes neither the stream nor the map. *)
Lemma inv_write c f h :
  inv h →
  (∀ cl, conns h !! c = Some cl → cl_userID (f cl) = cl_userID cl ∧ cl_since (f cl) = cl_since cl ∧
    stream (f cl) = stream cl ∧ length (cl_send (f cl)) ≤ length (cl_send cl) ∧ cl_done (f cl) = cl_done cl) →
  inv (at_conn c f h).
Proof.
  intros Hi Hf. apply inv_at_conn; [done|]. intros cl Hcl [B _ _ _].
  destruct (Hf cl Hcl) as (E1 & E2 & E3 & E4 & E5). split_and!; try done; [lia|by left].
Qed.

Lemma inv_step h h' : step h h' → inv h → inv h'.
Proof.
  intros Hs Hi.
  destruct Hs as [h c u Hc Hu|h u data l Ht Hl|h c l data cl Ht Hcl Hb|h c l data cl Ht Hcl Hd
    |h c l data cl Ht Hcl Hb Hd|h c l data cl Ht Hcl|h c l data Ht|h data Ht|h c cl Hcl Hw Hk Hb|h c cl Hcl Hw Hk
    |h c cl Hcl Hw|h c cl Hcl Hw|h c Hc].
  - by apply inv_connect.
  - by apply inv_broadcast.
  - by eapply inv_deliver.
  - destruct (inv_pending _ Hi _ 0 Ht) as [[Hn Hnd]%NoDup_cons _].
    eapply inv_pass; [done|exact Ht|done|..]; try done.
    + intros c'. rewrite !owed_serving. by right.
    + intros c'. rewrite !owed_serving. intros [->|]%elem_of_cons; eauto using done_unregistered.
  - destruct (inv_pending _ Hi _ 0 Ht) as [[Hn Hnd]%NoDup_cons _].
    eapply inv_pass; [done|exact Ht|done|..]; try done; unfold owed; cbn; set_solver.
  - destruct (inv_pending _ Hi _ 0 Ht) as [Hnd _]. destruct (forget_fields c (cl_userID cl) h) as (F1 & F2 & F3 & F4).
    eapply inv_pass; [by apply inv_forget|by rewrite F2|done|..]; try done; unfold owed; cbn.
    + naive_solver.
    + intros c' [|[= ->]]; eauto using forgotten.
    + intros c' [= <-]. rewrite F1. eauto using forgotten.
  - assert (Hgone : ∀ u, c ∉ registered h u) by by eapply (inv_forgotten _ Hi).
    destruct (inv_pending _ Hi _ 0 Ht) as [Hnd _].
    eapply inv_pass; [|exact Ht|done|..]; try done; [|unfold owed; cbn; naive_solver..].
    apply inv_at_conn; [done|]. intros cl Hcl [B _ _ _]. split_and!; try done. by right.
  - eapply inv_set_task; [done|done|]. intros c cl Hcl. left. unfold due. rewrite Ht. cbn.
    rewrite decide_False; [done|]. rewrite owed_serving. set_solver.
  - apply inv_write; [done|]. intros cl' Hcl'. assert (cl' = cl) as -> by congruence.
    split_and!; try done; unfold stream; cbn; [rewrite Hk|]; destruct (cl_send cl); cbn; auto.
  - apply inv_write; [done|]. intros cl' Hcl'. split_and!; try done. unfold stream. cbn. by rewrite app_assoc.
  - by apply inv_write.
  - assert (Hi' : inv (at_conn c stop_reading h)) by by apply inv_write.
    assert (Hcl' : conns (at_conn c stop_reading h) !! c = Some (stop_reading cl)) by (cbn; by rewrite lookup_alter_eq, Hcl).
    destruct (forget_fields c (cl_userID cl) (at_conn c stop_reading h)) as (F1 & F2 & F3 & F4).
    apply inv_set_leaving; [by apply (inv_forget _ (stop_reading cl))|].
    intros c' [->%elem_of_singleton|Hc']%elem_of_union; rewrite F1; [split; [eauto|]|].
    + intros u. by apply (forgotten c (stop_reading cl)).
    + destruct (inv_leaving _ (inv_forget _ _ _ Hi' Hcl') c') as [P Q]; change (cl_userID (stop_reading cl)) with (cl_userID cl) in *;
        [by rewrite F3|by rewrite F1 in P].
  - assert (Hi' : inv (at_conn c close_once h)).
    { apply inv_at_conn; [done|]. intros cl Hcl [B _ _ _]. split_and!; try done. right. by apply (inv_leaving _ Hi). }
    apply inv_set_leaving; [done|]. intros c' [Hc' _]%elem_of_difference. by apply (inv_leaving _ Hi').
Qed.

Lemma reachable_inv h : reachable h → inv h.
Proof.
  induction 1 as [|h h' _ IH Hs]; [|by eapply inv_step].
  split; cbn; try done; set_solver.
Qed.

(** ** Every connection is accounted for *)

(** A goroutine has removed it and is about to close it. *)
Definition closing (h : Hub) (c : nat) : Prop :=
  c ∈ leaving h ∨ ∃ t, task h = Some t ∧ tk_stage t = Forgotten c.

Definition accounted (h : Hub) : Prop := ∀ c cl, conns h !! c = Some cl →
  c ∈ registered h (cl_userID cl) ∨ cl_done cl = true ∨ closing h c.

(** A connection that is closed, or about to be. *)
Definition settled (h : Hub) (c : nat) : Prop :=
  (∀ cl, conns h !! c = Some cl → cl_done cl = true) ∨ closing h c.

Lemma accounted_mono h h' :
  accounted h →
  (∀ c cl', conns h' !! c = Some cl' →
    ∃ cl, conns h !! c = Some cl ∧ cl_userID cl' = cl_userID cl ∧ (cl_done cl = true → cl_done cl' = true)) →
  (∀ u c, c ∈ registered h u → c ∈ registered h' u ∨ settled h' c) →
  (∀ c, closing h c → settled h' c) →
  accounted h'.
Proof.
  intros Ha Hc Hr Hs c cl' Hcl'. destruct (Hc _ _ Hcl') as (cl & Hcl & -> & Hd). unfold settled in *.
  destruct (Ha _ _ Hcl) as [[|[|]]%Hr|[|[|]%Hs]]; auto.
Qed.

Lemma alter_same c f h : (∀ cl, cl_userID (f cl) = cl_userID cl ∧ (cl_done cl = true → cl_done (f cl) = true)) →
  ∀ c' cl', alter f c (conns h) !! c' = Some cl' →
    ∃ cl, conns h !! c' = Some cl ∧ cl_userID cl' = cl_userID cl ∧ (cl_done cl = true → cl_done cl' = true).
Proof.
  intros Hf c' cl'. conn_case c' c; [|eauto]. intros (cl & Hcl & ->)%fmap_Some. exists cl. split; [done|apply Hf].
Qed.

Lemma closed_settled c h h' : conns h' = alter close_once c (conns h) → settled h' c.
Proof. intros E. left. intros cl. rewrite E, lookup_alter_eq. by intros (? & _ & ->)%fmap_Some. Qed.

Lemma forget_others c c' u v h : c' ∈ registered h v → c' ∈ registered (forget c u h) v ∨ c' = c.
Proof. rewrite registered_forget. case_decide; [subst v|auto]. destruct (decide (c' = c)); set_solver. Qed.

#[local] Hint Unfold settled closing : hub.

Lemma accounted_step h h' : step h h' → accounted h → accounted h'.
Proof.
  intros Hs Ha.
  destruct Hs as [h c u Hc Hu|h u data l Ht Hl|h c l data cl Ht Hcl Hb|h c l data cl Ht Hcl Hd
    |h c l data cl Ht Hcl Hb Hd|h c l data cl Ht Hcl|h c l data Ht|h data Ht|h c cl Hcl Hw Hk Hb|h c cl Hcl Hw Hk
    |h c cl Hcl Hw|h c cl Hcl Hw|h c Hc].
  - intros c' cl'. cbn [register set_clients conns].
    change (registered _) with (registered (register c u h)). rewrite registered_register.
    destruct (decide (c' = c)) as [->|Hne].
    + rewrite lookup_insert_eq. intros [= <-]. left. case_decide; set_solver.
    + rewrite lookup_insert_ne by done. intros H. destruct (Ha _ _ H) as [Hr|[|]]; [left|by right; left|by right; right].
      case_decide as E; [rewrite <- E; set_solver|done].
  - eapply accounted_mono; [done|eauto|auto|]. intros c' [|(t & Ht' & _)]; [by right; left|by rewrite Ht in Ht'].
  - eapply accounted_mono; [done|by apply alter_same|auto|].
    intros c' [|(t & Ht' & E)]; [by right; left|by rewrite Ht in Ht'; simplify_eq].
  - eapply accounted_mono; [done|eauto|auto|]. intros c' [|(t & Ht' & E)]; [by right; left|by rewrite Ht in Ht'; simplify_eq].
  - eapply accounted_mono; [done|eauto|auto|]. intros c' [|(t & Ht' & E)]; [by right; left|by rewrite Ht in Ht'; simplify_eq].
  - destruct (forget_fields c (cl_userID cl) h) as (F1 & F2 & F3 & F4).
    eapply accounted_mono; [done|cbn; rewrite F1; eauto| |].
    + intros u c' [Hc'|E]%(forget_others c _ (cl_userID cl)); [by left|subst c']. right; right; right. by eexists.
    + intros c' [|(t & Ht' & E)]; [right; left; cbn; by rewrite F3|by rewrite Ht in Ht'; simplify_eq].
  - eapply accounted_mono; [done|by apply alter_same|auto|].
    intros c' [|(t & Ht' & E)]; [by right; left|]. rewrite Ht in Ht'. simplify_eq. cbn in E. simplify_eq.
    by eapply closed_settled.
  - eapply accounted_mono; [done|eauto|auto|]. intros c' [|(t & Ht' & E)]; [by right; left|by rewrite Ht in Ht'; simplify_eq].
  - eapply accounted_mono; [done|by apply alter_same|auto|intros c' Hc'; right; exact Hc'].
  - eapply accounted_mono; [done|by apply alter_same|auto|intros c' Hc'; right; exact Hc'].
  - eapply accounted_mono; [done|by apply alter_same|auto|intros c' Hc'; right; exact Hc'].
  - destruct (forget_fields c (cl_userID cl) (at_conn c stop_reading h)) as (F1 & F2 & F3 & F4).
    eapply accounted_mono; [done|cbn; rewrite F1; by apply alter_same| |].
    + intros u c' Hc'. destruct (forget_others c c' (cl_userID cl) u (at_conn c stop_reading h) Hc') as [H|E]; [by left|subst c'].
      right; right; left. cbn. set_solver.
    + intros c' [|(t & Ht' & E)]; right; [left; cbn; set_solver|right; exists t; cbn; by rewrite F2].
  - eapply accounted_mono; [done|by apply alter_same|auto|].
    intros c' [Hc'|?]; [|by right; right]. destruct (decide (c' = c)) as [->|]; [by eapply closed_settled|].
    right; left. cbn. set_solver.
Qed.

Lemma reachable_accounted h : reachable h → accounted h.
Proof. induction 1; [done|by eapply accounted_step]. Qed.

(** ** What the hub promises *)

(** C35.  In every state the hub can reach, whatever the goroutines interleave, a
    connection's stream (written, being written, queued) is a prefix of what
    was broadcast to its user since it connected: in order, nothing twice,
    nothing of another user.  While it is registered nothing is missing but
    the message being handed over, at most 64 are queued, and a connection no
    longer registered is closed or about to be. *)
Theorem hub_delivers h c cl :
  reachable h → conns h !! c = Some cl →
  length (cl_send cl) ≤ send_buffer ∧
  stream cl `prefix_of` history h cl ∧
  (c ∈ registered h (cl_userID cl) → stream cl ++ due h c = history h cl) ∧
  (c ∉ registered h (cl_userID cl) → cl_done cl = true ∨ closing h c).
Proof.
  intros Hr Hcl. destruct (inv_conns _ (reachable_inv _ Hr) _ _ Hcl) as [B1 _ B3 B4].
  split_and!; [done| |done|].
  - etrans; [by apply prefix_app_r|exact B3].
  - intros Hn. by destruct (reachable_accounted _ Hr _ _ Hcl).
Qed.

(** A broadcast without a user id is handed to every connection. *)
Lemma unaddressed_reaches_all h data :
  task h = None → ∃ h', step h h' ∧ ∀ u c, c ∈ registered h u → due h' c = [data].
Proof.
  intros Ht. eexists. split; [by eapply (step_broadcast _ "")|].
  intros u c Hr. unfold due. cbn. rewrite decide_True; [done|].
  apply owed_serving, elem_of_elements, (elem_snapshot h "" c). by exists u.
Qed.

(** ** A run: a connection, a broadcast to it, its delivery and its write *)

Definition run_connect : Hub :=
  register 0 "ada" {| clients := ∅; conns := <[0 := new_client NewHub "ada"]> ∅; task := None; leaving := ∅; hub_log := [] |}.

Definition run_broadcast : Hub :=
  {| clients := clients run_connect; conns := conns run_connect;
     task := Some {| tk_data := "graded"; tk_pending := [0]; tk_stage := Serving |};
     leaving := ∅; hub_log := [("ada", "graded")] |}.

Definition run_deliver : Hub :=
  set_task (at_conn 0 (push_send "graded") run_broadcast) (Some {| tk_data := "graded"; tk_pending := []; tk_stage := Serving |}).

Definition run_written : Hub := at_conn 0 write_taken (at_conn 0 take_send run_deliver).

Lemma run_written_reachable : reachable run_written.
Proof.
  eapply reachable_step; [eapply reachable_step; [eapply reachable_step; [eapply reachable_step;
    [eapply reachable_step; [apply reachable_init|]|]|]|]|].
  - by apply (step_connect NewHub 0 "ada").
  - by apply (step_broadcast run_connect "ada" "graded" [0]).
  - apply (step_deliver run_broadcast 0 [] "graded" (new_client NewHub "ada")); [done|reflexivity|unfold send_buffer; cbn; lia].
  - by apply (step_take run_deliver 0 (push_send "graded" (new_client NewHub "ada"))).
  - by apply (step_write (at_conn 0 take_send run_deliver) 0 (take_send (push_send "graded" (new_client NewHub "ada")))).
Qed.

Lemma hub_delivers_witness :
  ∃ cl, conns run_written !! 0 = Some cl ∧ cl_written cl = ["graded"] ∧
    stream cl ++ due run_written 0 = history run_written cl.
Proof.
  exists (write_taken (take_send (push_send "graded" (new_client NewHub "ada")))).
  split; [reflexivity|]. split; [reflexivity|].
  apply (hub_delivers run_written 0 _ run_written_reachable ltac:(vm_compute; reflexivity)).
  vm_compute. reflexivity.
Defined.
