(* ===== verification/Reset.v ===== *)
(** Password reset (services/api-gateway/graph/resolvers/password_reset.go):
    a code is mailed and stored as a bcrypt hash, and a confirmation with the
    code sets the password.

    The handlers run in the monad of Service.v: each SQL statement is an
    effect, the transaction of [handleConfirm] is one effect, and other
    requests run in between.  A request body is its decoded input, [None] when
    it does not decode.  Random numbers and salts are the interface
    [Randomness], PostgreSQL's [lower] is [PgLower]. *)

From S2P Require Import Prelude GoStrings Gateway Service.
From Stdlib Require Import Ascii.

#[local] Open Scope Z_scope.
#[local] Open Scope service_scope.

Record UserRow := { us_email : string; us_name : string; us_password : string }.

Record ResetRow := {
  pr_user_id : string;
  pr_email : string;
  pr_code_hash : string;
  pr_expires_at : Z;
  pr_used_at : option Z;
  pr_attempts : Z;
  pr_created_at : Z;
}.

Record State := {
  users : gmap string UserRow;
  password_resets : gmap string ResetRow;
  mails : list (string * string * string);   (* address, name, code *)
  ip_hits : Hits;
  email_hits : Hits;
}.

Class Randomness := { random_number : nat → option Z; random_salt : nat → string }.

Record PasswordResetHandler := {
  ph_limiter : option rateLimiter;
  ph_emailLimiter : option rateLimiter;
  ph_mailer_enabled : bool;
  ph_allowDirect : bool;
}.

Definition second : Z := 10 ^ 9.
Definition resetCodeTTL : Z := 15 * 60 * second.
Definition resetMaxAttempts : Z := 5.
Definition resetMinPassword : Z := 8.
Definition resetMaxPassword : Z := 72.

(** [directDefault] *)
Definition directDefault (allowDirect : bool) : Z := if allowDirect then 10 else 0.

(** The two environment variables: PASSWORD_RESET_ALLOW_DIRECT, "" when it is
    not set, and the limits read by [envInt]. *)
Definition NewPasswordResetHandler (mailer_enabled : bool) (allow_var : string)
    (ip_limit : Z → Z) (email_limit : Z → Z) : PasswordResetHandler :=
  let allowDirect :=
    if String.eqb allow_var "" then negb mailer_enabled
    else String.eqb allow_var "true" || String.eqb allow_var "1" in
  {| ph_limiter := newRateLimiter (ip_limit (directDefault allowDirect)) (10 * 60 * second);
     ph_emailLimiter := newRateLimiter (email_limit 5) (60 * 60 * second);
     ph_mailer_enabled := mailer_enabled; ph_allowDirect := allowDirect |}.

Inductive Body := Success (code_required : option bool) | Failed (msg : string).
Record Reply := { rp_status : Z; rp_body : Body }.

Definition ok : Reply := {| rp_status := 200; rp_body := Success None |}.
Definition okWith (code_required : bool) : Reply := {| rp_status := 200; rp_body := Success (Some code_required) |}.
Definition fail (status : Z) (msg : string) : Reply := {| rp_status := status; rp_body := Failed msg |}.

Definition not_updated : Reply := fail 500 "could not update your password, please try again".
Definition not_started : Reply := fail 500 "could not start the reset, please try again".
Definition rejected : Reply := fail 400 "that code is not valid or has expired — please request a new one".

Definition with_resets (s : State) (t : gmap string ResetRow) : State :=
  {| users := users s; password_resets := t; mails := mails s; ip_hits := ip_hits s; email_hits := email_hits s |}.
Definition with_users (s : State) (t : gmap string UserRow) : State :=
  {| users := t; password_resets := password_resets s; mails := mails s; ip_hits := ip_hits s;
     email_hits := email_hits s |}.

(** A step inside the process, under the limiter's lock: it does not fail. *)
Definition in_memory {A} (f : Z → State → A * State) : Svc State A :=
  λ w n s, let s := others w n s in
           let '(x, s') := f (time_at w n) s in (inl x, (n + 1)%nat, s').

(** A draw of [crypto/rand]. *)
Definition draw {A} (f : nat → A) : Svc State A := λ w n s, (inl (f n), (n + 1)%nat, s).

Definition allow_ip (h : PasswordResetHandler) (ip : string) : Svc State bool :=
  in_memory (λ now s,
    let '(ok, hits) := allow (ph_limiter h) now ip (ip_hits s) in
    (ok, {| users := users s; password_resets := password_resets s; mails := mails s;
            ip_hits := hits; email_hits := email_hits s |})).

Definition allow_email (h : PasswordResetHandler) (email : string) : Svc State bool :=
  in_memory (λ now s,
    let '(ok, hits) := allow (ph_emailLimiter h) now email (email_hits s) in
    (ok, {| users := users s; password_resets := password_resets s; mails := mails s;
            ip_hits := ip_hits s; email_hits := hits |})).

Section Handlers.
Context {V : Vault} {R : Randomness} {PL : PgLower}.

Definition normalize_email (email : string) : string := to_lower (trim_space (clip email 200)).

(** The account of an address: the first row the server gives. *)
Definition user_of (st : Stamp) (s : State) (email : string) : option (string * UserRow) :=
  head (omap (λ id, u ← users s !! id; if String.eqb (pg_lower (us_email u)) email then Some (id, u) else None)
    (st_rows st (map fst (map_to_list (users s))))).

Definition lookup_user (email : string) : Svc State (option (string * UserRow)) :=
  effect "select user" (λ st s, Some (user_of st s email, s)).

(** Six digits. *)
Definition six_digits (n : Z) : string :=
  let ds := nat_digits n in of_bytes (repeat "0"%char (6 - length ds) ++ ds).

Definition generateResetCode : Svc State (option string) :=
  n <- draw random_number;; return_ (six_digits <$> n).

Definition retire (now : Z) (user : string) (t : gmap string ResetRow) : gmap string ResetRow :=
  (λ r, if String.eqb (pr_user_id r) user && bool_decide (pr_used_at r = None)
        then {| pr_user_id := pr_user_id r; pr_email := pr_email r; pr_code_hash := pr_code_hash r;
                pr_expires_at := pr_expires_at r; pr_used_at := Some now; pr_attempts := pr_attempts r;
                pr_created_at := pr_created_at r |}
        else r) <$> t.

Definition retire_codes (user : string) : Svc State unit :=
  effect "retire codes" (λ st s, Some (tt, with_resets s (retire (st_time st) user (password_resets s)))).

Definition insert_code (user email hash : string) : Svc State unit :=
  effect "store code" (λ st s,
    match password_resets s !! st_fresh st with
    | Some _ => None
    | None =>
        Some (tt, with_resets s (<[st_fresh st :=
          {| pr_user_id := user; pr_email := email; pr_code_hash := hash;
             pr_expires_at := st_time st + resetCodeTTL; pr_used_at := None; pr_attempts := 0;
             pr_created_at := st_time st |}]> (password_resets s)))
    end).

Definition send_code (email name code : string) : Svc State unit :=
  in_memory (λ _ s,
    (tt, {| users := users s; password_resets := password_resets s; mails := mails s ++ [(email, name, code)];
            ip_hits := ip_hits s; email_hits := email_hits s |})).

Definition issue_code (email id name : string) : Svc State Reply :=
  code <- generateResetCode;;
  match code with
  | None => return_ not_started
  | Some code =>
      salt <- draw random_salt;;
      match HashPassword salt code with
      | None => return_ not_started
      | Some hash =>
          _ <- try (retire_codes id);;
          stored <- try (insert_code id email hash);;
          match stored with
          | inr _ => return_ not_started
          | inl _ => _ <- send_code email name code;; return_ (okWith true)
          end
      end
  end.

Definition handleRequest (h : PasswordResetHandler) (body : option string) : Svc State Reply :=
  match body with
  | None => return_ (fail 400 "invalid request body")
  | Some address =>
      let email := normalize_email address in
      if negb (looksLikeEmail email) then return_ (fail 400 "please enter a valid email address")
      else
        allowed <- allow_email h email;;
        if negb allowed then
          return_ (fail 429 "too many reset requests for this email — please try again later")
        else if ph_allowDirect h then return_ (okWith false)
        else
          found <- try (lookup_user email);;
          match found with
          | inl (Some (id, u)) => issue_code email id (us_name u)
          | _ => return_ (okWith true)
          end
  end.

(** The newest code of an address that is neither used nor expired. *)
Definition newer (a b : string * ResetRow) : bool := pr_created_at (snd b) <=? pr_created_at (snd a).

Definition live_code (now : Z) (email : string) (r : ResetRow) : Prop :=
  pr_email r = email ∧ pr_used_at r = None ∧ now < pr_expires_at r.

#[global] Instance live_code_dec now email r : Decision (live_code now email r).
Proof. unfold live_code. apply _. Defined.

Definition newest_code (st : Stamp) (s : State) (email : string) : option (string * ResetRow) :=
  head (order_by newer
    (omap (λ id, r ← password_resets s !! id;
                 if decide (live_code (st_time st) email r) then Some (id, r) else None)
       (st_rows st (map fst (map_to_list (password_resets s)))))).

Definition select_code (email : string) : Svc State (option (string * ResetRow)) :=
  effect "select code" (λ st s, Some (newest_code st s email, s)).

Definition use_code (now : Z) (r : ResetRow) : ResetRow :=
  {| pr_user_id := pr_user_id r; pr_email := pr_email r; pr_code_hash := pr_code_hash r;
     pr_expires_at := pr_expires_at r; pr_used_at := Some now; pr_attempts := pr_attempts r;
     pr_created_at := pr_created_at r |}.

Definition count_guess (r : ResetRow) : ResetRow :=
  {| pr_user_id := pr_user_id r; pr_email := pr_email r; pr_code_hash := pr_code_hash r;
     pr_expires_at := pr_expires_at r; pr_used_at := pr_used_at r; pr_attempts := pr_attempts r + 1;
     pr_created_at := pr_created_at r |}.

Definition set_password (hashed : string) (u : UserRow) : UserRow :=
  {| us_email := us_email u; us_name := us_name u; us_password := hashed |}.

Definition burn_code (id : string) : Svc State unit :=
  effect "burn code" (λ st s, Some (tt, with_resets s (alter (use_code (st_time st)) id (password_resets s)))).

Definition count_attempt (id : string) : Svc State unit :=
  effect "count attempt" (λ st s, Some (tt, with_resets s (alter count_guess id (password_resets s)))).

(** The transaction: the password and the code, or neither. *)
Definition change_password (user reset hashed : string) : Svc State unit :=
  effect "change password" (λ st s,
    Some (tt, {| users := alter (set_password hashed) user (users s);
                 password_resets := alter (use_code (st_time st)) reset (password_resets s);
                 mails := mails s; ip_hits := ip_hits s; email_hits := email_hits s |})).

Definition set_user_password (user hashed : string) : Svc State unit :=
  effect "update password" (λ st s, Some (tt, with_users s (alter (set_password hashed) user (users s)))).

Definition confirmDirect (email newPassword : string) : Svc State Reply :=
  found <- try (lookup_user email);;
  match found with
  | inr _ => return_ not_updated
  | inl None => return_ (fail 400 "we could not find an account with that email address")
  | inl (Some (id, _)) =>
      salt <- draw random_salt;;
      match HashPassword salt newPassword with
      | None => return_ not_updated
      | Some hashed =>
          done <- try (set_user_password id hashed);;
          match done with inr _ => return_ not_updated | inl _ => return_ ok end
      end
  end.

(** [handleConfirm] once a code for the address has been found. *)
Definition check_code (id : string) (r : ResetRow) (code newPassword : string) : Svc State Reply :=
  if resetMaxAttempts <=? pr_attempts r then _ <- try (burn_code id);; return_ rejected
  else if negb (fst (CheckPassword (pr_code_hash r) code)) then
    _ <- try (count_attempt id);; return_ rejected
  else
    salt <- draw random_salt;;
    match HashPassword salt newPassword with
    | None => return_ not_updated
    | Some hashed =>
        done <- try (change_password (pr_user_id r) id hashed);;
        match done with inr _ => return_ not_updated | inl _ => return_ ok end
    end.

Record resetConfirmInput := { ci_Email : string; ci_Code : string; ci_NewPassword : string }.

Definition handleConfirm (h : PasswordResetHandler) (body : option resetConfirmInput) : Svc State Reply :=
  match body with
  | None => return_ (fail 400 "invalid request body")
  | Some input =>
      let email := normalize_email (ci_Email input) in
      let code := trim_space (clip (ci_Code input) 12) in
      let newPassword := ci_NewPassword input in
      if byte_length newPassword <? resetMinPassword then
        return_ (fail 400 "your new password must be at least 8 characters")
      else if resetMaxPassword <? byte_length newPassword then
        return_ (fail 400 "your new password must be 72 characters or fewer")
      else if ph_allowDirect h && String.eqb code "" then confirmDirect email newPassword
      else
        found <- try (select_code email);;
        match found with
        | inl (Some (id, r)) => check_code id r code newPassword
        | _ => return_ rejected
        end
  end.

Inductive Route := RequestCode (body : option string) | Confirm (body : option resetConfirmInput) | NotFound.

(** A POST to /api/password-reset from [ip]. *)
Definition ServeHTTP (h : PasswordResetHandler) (ip : string) (r : Route) : Svc State Reply :=
  allowed <- allow_ip h ip;;
  if negb allowed then return_ (fail 429 "too many attempts — please try again shortly")
  else
    match r with
    | RequestCode body => handleRequest h body
    | Confirm body => handleConfirm h body
    | NotFound => return_ (fail 404 "not found")
    end.
End Handlers.

(** ** What the queries find *)

Section Queries.
Context {PL : PgLower}.

Lemma head_order_in {A} (le : A → A → bool) l x : head (order_by le l) = Some x → x ∈ l.
Proof.
  intros H. rewrite <- (order_by_perm le l). destruct (order_by le l); [done|].
  injection H as ->. apply list_elem_of_here.
Qed.

Definition live_rows (st : Stamp) (s : State) (email : string) : list (string * ResetRow) :=
  omap (λ id, r ← password_resets s !! id;
              if decide (live_code (st_time st) email r) then Some (id, r) else None)
    (st_rows st (map fst (map_to_list (password_resets s)))).

Lemma live_rows_elem st s email id r :
  (id, r) ∈ live_rows st s email ↔ password_resets s !! id = Some r ∧ live_code (st_time st) email r.
Proof.
  unfold live_rows. rewrite list_elem_of_omap. split.
  - intros (k & _ & H). destruct (password_resets s !! k) as [x|] eqn:E; [|done]. cbn in H.
    case_decide; [|done]. injection H as -> ->. done.
  - intros [H Hl]. exists id. rewrite H. cbn. rewrite decide_True by done. split; [|done].
    rewrite (st_rows_perm st), list_elem_of_fmap. exists (id, r). split; [done|by apply elem_of_map_to_list].
Qed.

Lemma newest_code_live st s email id r :
  newest_code st s email = Some (id, r) →
  password_resets s !! id = Some r ∧ live_code (st_time st) email r.
Proof.
  intros H. apply (live_rows_elem st s email id r). by eapply head_order_in.
Qed.

Lemma newest_code_only st s email id r :
  password_resets s !! id = Some r → live_code (st_time st) email r →
  (∀ id' r', password_resets s !! id' = Some r' → live_code (st_time st) email r' → id' = id) →
  newest_code st s email = Some (id, r).
Proof.
  intros Hr Hl Huniq. unfold newest_code. fold (live_rows st s email).
  destruct (head (order_by newer (live_rows st s email))) as [[id' r']|] eqn:E.
  - apply head_order_in, live_rows_elem in E as [E1 E2]. pose proof (Huniq _ _ E1 E2) as ->.
    by rewrite Hr in E1; injection E1 as ->.
  - assert (Hin : (id, r) ∈ order_by newer (live_rows st s email))
      by (rewrite order_by_perm; by apply live_rows_elem).
    by destruct (order_by newer _); [apply elem_of_nil in Hin|].
Qed.

Lemma user_of_found st s email id u :
  user_of st s email = Some (id, u) → users s !! id = Some u ∧ pg_lower (us_email u) = email.
Proof.
  unfold user_of. intros H.
  assert (Hin : (id, u) ∈ omap (λ id, u ← users s !! id;
    if String.eqb (pg_lower (us_email u)) email then Some (id, u) else None)
    (st_rows st (map fst (map_to_list (users s))))).
  { destruct (omap _ _); [done|]. injection H as ->. apply list_elem_of_here. }
  apply list_elem_of_omap in Hin as (k & _ & Hk). destruct (users s !! k) as [x|] eqn:E; [|done]. cbn in Hk.
  destruct (String.eqb_spec (pg_lower (us_email x)) email); [|done]. by injection Hk as -> ->.
Qed.

End Queries.

(** ** Confirming *)

Section Confirm.
Context {V : Vault} {R : Randomness} {PL : PgLower}.

Lemma select_code_alone email w n s r n' s' :
  alone w → try (select_code email) w n s = (inl r, n', s') →
  n' = (n + 1)%nat ∧ s' = s ∧ (r = inl (newest_code (stamp w n) s email) ∨ ∃ msg, r = inr msg).
Proof.
  intros Ho H. apply try_effect_alone in H as (-> & [[-> ->]|(x & [= <- <-] & [->| ->])]); eauto.
Qed.

Definition confirm_email (input : resetConfirmInput) : string := normalize_email (ci_Email input).
Definition confirm_code (input : resetConfirmInput) : string := trim_space (clip (ci_Code input) 12).

(** The code of the row was guessed while guesses were left. *)
Definition guessed (r : ResetRow) (code : string) : Prop :=
  pr_attempts r < resetMaxAttempts ∧ fst (CheckPassword (pr_code_hash r) code) = true.

Lemma check_code_spec id r code newPassword w n s reply n' s' :
  alone w → check_code id r code newPassword w n s = (inl reply, n', s') →
  (users s' = users s ∧ reply ≠ ok) ∨
  (guessed r code ∧ ∃ salt hashed t, HashPassword salt newPassword = Some hashed ∧
    users s' = alter (set_password hashed) (pr_user_id r) (users s) ∧
    password_resets s' = alter (use_code t) id (password_resets s)).
Proof.
  intros Ho. unfold check_code. destruct (Z.leb_spec resetMaxAttempts (pr_attempts r)).
  { intros H0. apply then_inv in H0 as (x & n1 & s1 & H1 & [= <- <- <-]).
    apply try_effect_alone in H1 as (_ & [[-> _]|(y & [= <- <-] & _)]); [left; split; [done|discriminate]..|done]. }
  destruct (fst (CheckPassword _ _)) eqn:Hc; cbn [negb].
  - intros H0. apply then_inv in H0 as (salt & n1 & s1 & [= <- <- <-] & H0).
    destruct (HashPassword _ newPassword) as [hashed|] eqn:Hh; [|injection H0 as <- <- <-; left; split; [done|discriminate]].
    apply then_inv in H0 as (d & n2 & s2 & H1 & H2).
    apply try_effect_alone in H1 as (_ & [[-> ->]|(y & [= <- <-] & Hd)]); [| |done].
    + injection H2 as <- <- <-. left. split; [done|discriminate].
    + assert (s' = {| users := alter (set_password hashed) (pr_user_id r) (users s);
          password_resets := alter (use_code (time_at w (n + 1))) id (password_resets s);
          mails := mails s; ip_hits := ip_hits s; email_hits := email_hits s |}) as ->
        by (destruct d; by injection H2).
      right. split; [by split|]. eauto 10.
  - intros H0. apply then_inv in H0 as (x & n1 & s1 & H1 & [= <- <- <-]).
    apply try_effect_alone in H1 as (_ & [[-> _]|(y & [= <- <-] & _)]); [left; split; [done|discriminate]..|done].
Qed.

(** Outside direct mode a confirmation changes a password only with the code
    of a live row of that address with guesses left: it sets the password of
    the row's user and of nobody else, and uses the code up; whatever else it
    answers, the passwords are as they were. *)
Theorem confirm_needs_code h input w n s reply n' s' :
  alone w → ph_allowDirect h = false → handleConfirm h (Some input) w n s = (inl reply, n', s') →
  (users s' = users s ∧ reply ≠ ok) ∨
  ∃ id r salt hashed t, password_resets s !! id = Some r ∧
    live_code (time_at w n) (confirm_email input) r ∧ guessed r (confirm_code input) ∧
    resetMinPassword ≤ byte_length (ci_NewPassword input) ≤ resetMaxPassword ∧
    HashPassword salt (ci_NewPassword input) = Some hashed ∧
    users s' = alter (set_password hashed) (pr_user_id r) (users s) ∧
    password_resets s' !! id = Some (use_code t r).
Proof.
  intros Ho Hd. unfold handleConfirm. rewrite Hd. cbn [andb].
  destruct (Z.ltb_spec (byte_length (ci_NewPassword input)) resetMinPassword); [intros [= <- <- <-]; left; split; [done|discriminate]|].
  destruct (Z.ltb_spec resetMaxPassword (byte_length (ci_NewPassword input))); [intros [= <- <- <-]; left; split; [done|discriminate]|].
  intros H1. apply then_inv in H1 as (found & n1 & s1 & H1 & H2).
  apply select_code_alone in H1 as (-> & -> & Hf); [|done].
  destruct Hf as [->|[msg ->]]; [|injection H2 as <- <- <-; left; split; [done|discriminate]].
  destruct (newest_code _ s _) as [[id r]|] eqn:E; [|injection H2 as <- <- <-; left; split; [done|discriminate]].
  apply newest_code_live in E as [Hr Hl].
  apply check_code_spec in H2 as [H2|(Hg & salt & hashed & t & Hh & Hu & Hp)]; [by left| |done].
  right. exists id, r, salt, hashed, t. split_and!; try done. by rewrite Hp, lookup_alter_eq, Hr.
Qed.
End Confirm.

(** ** Requesting *)

Section Request.
Context {V : Vault} {R : Randomness} {PL : PgLower} {VL : VaultLaws V}.

Lemma digits_of_length f n acc : (length (digits_of f n acc) ≤ f + length acc)%nat.
Proof.
  revert n acc. induction f as [|f IH]; intros n acc; cbn [digits_of]; [lia|].
  case_match; cbn [length]; [lia|]. etrans; [apply IH|]. cbn. lia.
Qed.

Lemma six_digits_short z : 0 ≤ z < 10 ^ 6 → byte_length (six_digits z) ≤ 72.
Proof.
  intros Hz. unfold byte_length, six_digits. rewrite to_of_bytes, length_app, repeat_length.
  pose proof (digits_of_length (S (Z.to_nat (Z.log2 z))) z []) as H. fold (nat_digits z) in H. cbn [length] in H.
  assert (Z.log2 z ≤ 19).
  { destruct (Z.eq_dec z 0) as [->|]; [done|]. assert (Z.log2 z < 20); [|lia]. apply Z.log2_lt_pow2; lia. }
  lia.
Qed.

(** Random numbers come, in range. *)
Definition random_works : Prop := ∀ n, ∃ z, random_number n = Some z ∧ 0 ≤ z < 10 ^ 6.

Definition fresh_ids (w : World State) (s : State) : Prop := ∀ n, password_resets s !! new_id w n = None.

Definition new_row (w : World State) (n : nat) (user email hash : string) : ResetRow :=
  {| pr_user_id := user; pr_email := email; pr_code_hash := hash; pr_expires_at := time_at w n + resetCodeTTL;
     pr_used_at := None; pr_attempts := 0; pr_created_at := time_at w n |}.

Lemma retire_none now user t id : retire now user t !! id = None ↔ t !! id = None.
Proof. unfold retire. rewrite lookup_fmap. by destruct (t !! id). Qed.

Lemma issue_code_calm email id name w n s :
  calm w → random_works → fresh_ids w s →
  ∃ code hash n', HashPassword (random_salt (n + 1)) code = Some hash ∧
    issue_code email id name w n s =
    (inl (okWith true), n',
     {| users := users s;
        password_resets := <[new_id w (n + 3) := new_row w (n + 3) id email hash]>
          (retire (time_at w (n + 2)) id (password_resets s));
        mails := mails s ++ [(email, name, code)]; ip_hits := ip_hits s; email_hits := email_hits s |}).
Proof.
  intros Hc Hr Hfresh. destruct (Hr n) as (z & Hz & Hlt).
  destruct (generate_short (random_salt (n + 1)) (six_digits z) (six_digits_short z Hlt)) as [hash Hh].
  exists (six_digits z), hash, (n + 5)%nat. split; [done|].
  unfold issue_code, generateResetCode, draw, then_, return_. rewrite Hz. cbn [fmap option_fmap option_map].
  unfold HashPassword. rewrite Hh. unfold try, retire_codes. rewrite effect_calm by done.
  unfold insert_code. rewrite effect_calm by done. cbn [stamp st_time st_fresh password_resets with_resets].
  replace (n + 1 + 1 + 1)%nat with (n + 3)%nat by lia.
  rewrite (proj2 (retire_none _ _ _ _)) by apply Hfresh. cbn.
  unfold send_code, in_memory. destruct Hc as [_ Ho]. rewrite Ho. cbn.
  by replace (n + 1 + 1)%nat with (n + 2)%nat by lia; replace (n + 3 + 1 + 1)%nat with (n + 5)%nat by lia.
Qed.

(** The answer to a request, from what the requester knows and the limiter. *)
Definition request_reply (h : PasswordResetHandler) (body : option string) (now : Z) (hits : Hits) : Reply :=
  match body with
  | None => fail 400 "invalid request body"
  | Some address =>
      if negb (looksLikeEmail (normalize_email address)) then fail 400 "please enter a valid email address"
      else if negb (fst (allow (ph_emailLimiter h) now (normalize_email address) hits)) then
        fail 429 "too many reset requests for this email — please try again later"
      else okWith (negb (ph_allowDirect h))
  end.

Lemma handleRequest_reply h body w n s :
  calm w → random_works → fresh_ids w s →
  fst (fst (handleRequest h body w n s)) = inl (request_reply h body (time_at w n) (email_hits s)).
Proof.
  intros Hc Hr Hfresh. pose proof Hc as [_ Ho]. unfold handleRequest, request_reply.
  destruct body as [address|]; [|done]. set (email := normalize_email address).
  destruct (negb (looksLikeEmail email)); [done|]. unfold then_, allow_email, in_memory. rewrite Ho.
  destruct (allow (ph_emailLimiter h) (time_at w n) email (email_hits s)) as [okd hits]. cbn [fst].
  destruct okd; cbn [negb]; [|done]. destruct (ph_allowDirect h); [done|]. cbn [negb].
  unfold try, lookup_user. rewrite effect_calm by done.
  destruct (user_of _ _ email) as [[id u]|]; [|done].
  edestruct (issue_code_calm email id (us_name u) w (n + 1 + 1)) as (code & hash & n' & _ & ->); try done.
Qed.

(** Whether an address has an account does not show: two databases that
    differ in anything but the limiter's memory give one answer to any
    request. *)
Theorem request_reveals_nothing h body w n s1 s2 :
  calm w → random_works → fresh_ids w s1 → fresh_ids w s2 → email_hits s1 = email_hits s2 →
  fst (fst (handleRequest h body w n s1)) = fst (fst (handleRequest h body w n s2)).
Proof. intros Hc Hr F1 F2 E. rewrite !handleRequest_reply by done. by rewrite E. Qed.

(** A request for a known address, step by step. *)
Lemma handleRequest_known h address w n s id u :
  calm w → random_works → fresh_ids w s → ph_allowDirect h = false →
  looksLikeEmail (normalize_email address) = true →
  fst (allow (ph_emailLimiter h) (time_at w n) (normalize_email address) (email_hits s)) = true →
  user_of (stamp w (n + 1)) s (normalize_email address) = Some (id, u) →
  ∃ code hash n' hits, HashPassword (random_salt (n + 3)) code = Some hash ∧
    handleRequest h (Some address) w n s =
    (inl (okWith true), n',
     {| users := users s;
        password_resets := <[new_id w (n + 5) := new_row w (n + 5) id (normalize_email address) hash]>
          (retire (time_at w (n + 4)) id (password_resets s));
        mails := mails s ++ [(normalize_email address, us_name u, code)];
        ip_hits := ip_hits s; email_hits := hits |}).
Proof.
  intros Hc Hr Hfresh Hd Hlook Hallow Hu. pose proof Hc as [_ Ho]. unfold handleRequest.
  rewrite Hlook, Hd. cbn [negb]. unfold then_ at 1, allow_email, in_memory. rewrite Ho.
  destruct (allow (ph_emailLimiter h) (time_at w n) _ (email_hits s)) as [okd hits]. cbn [fst] in Hallow.
  subst okd. cbn [negb]. unfold then_ at 1, try, lookup_user. rewrite effect_calm by done.
  set (s0 := Build_State _ _ _ _ _).
  replace (user_of (stamp w (n + 1)) s0 (normalize_email address)) with (Some (id, u)) by (rewrite <- Hu; done).
  destruct (issue_code_calm (normalize_email address) id (us_name u) w (n + 1 + 1) s0 Hc Hr Hfresh)
    as (code & hash & n' & Hh & ->).
  replace (n + 1 + 1 + 1)%nat with (n + 3)%nat in * by lia.
  replace (n + 1 + 1 + 3)%nat with (n + 5)%nat in * by lia.
  replace (n + 1 + 1 + 2)%nat with (n + 4)%nat in * by lia.
  exists code, hash, n', hits. split; [done|]. reflexivity.
Qed.
End Request.

(** ** From request to new password *)

Section Roundtrip.
Context {V : Vault} {R : Randomness} {PL : PgLower} {VL : VaultLaws V}.

(** Codes of an address that are still open belong to its account. *)
Definition codes_belong (s : State) (email user : string) : Prop :=
  ∀ k r, password_resets s !! k = Some r → pr_email r = email → pr_used_at r = None → pr_user_id r = user.

Lemma retired_none now user email t k r :
  (∀ r, t !! k = Some r → pr_email r = email → pr_used_at r = None → pr_user_id r = user) →
  retire now user t !! k = Some r → pr_email r = email → pr_used_at r ≠ None.
Proof.
  intros Hb Hr Hm. unfold retire in Hr. rewrite lookup_fmap in Hr.
  destruct (t !! k) as [x|] eqn:E; [|done]. injection Hr as Hr.
  destruct (pr_used_at x) eqn:Hx.
  - rewrite bool_decide_false, andb_false_r in Hr by congruence. subst r. by rewrite Hx.
  - rewrite bool_decide_true, andb_true_r in Hr by done.
    destruct (String.eqb_spec (pr_user_id x) user) as [|Hne]; [by subst r|]. subst r. by destruct Hne; eapply Hb.
Qed.

Lemma check_code_calm id r code newPassword w n s :
  calm w → guessed r code → byte_length newPassword ≤ 72 →
  ∃ hashed n', HashPassword (random_salt n) newPassword = Some hashed ∧
    check_code id r code newPassword w n s =
    (inl ok, n',
     {| users := alter (set_password hashed) (pr_user_id r) (users s);
        password_resets := alter (use_code (time_at w (n + 1))) id (password_resets s);
        mails := mails s; ip_hits := ip_hits s; email_hits := email_hits s |}).
Proof.
  intros Hc [Ha Hg] Hlen. destruct (generate_short (random_salt n) newPassword Hlen) as [hashed Hh].
  exists hashed, (n + 2)%nat. split; [done|]. unfold check_code.
  rewrite (proj2 (Z.leb_gt _ _) Ha), Hg. cbn [negb]. unfold then_, draw, HashPassword. rewrite Hh.
  unfold try, change_password. rewrite effect_calm by done.
  by replace (n + 1 + 1)%nat with (n + 2)%nat by lia.
Qed.

(** Outside direct mode a confirmation with a password of the right length is
    about the newest live code of its address. *)
Lemma handleConfirm_calm h input w n s :
  calm w → ph_allowDirect h = false →
  resetMinPassword ≤ byte_length (ci_NewPassword input) ≤ resetMaxPassword →
  handleConfirm h (Some input) w n s =
  match newest_code (stamp w n) s (confirm_email input) with
  | Some (i, r) => check_code i r (confirm_code input) (ci_NewPassword input) w (n + 1)%nat s
  | None => (inl rejected, (n + 1)%nat, s)
  end.
Proof.
  intros Hc Hd Hlen. unfold handleConfirm. rewrite Hd. cbn [andb].
  rewrite (proj2 (Z.ltb_ge _ _)), (proj2 (Z.ltb_ge _ _)) by lia. unfold then_, try, select_code.
  rewrite effect_calm by done. fold (confirm_email input).
  by destruct (newest_code _ s (confirm_email input)) as [[i r]|].
Qed.

(** After a request the new code is the only live one of its address. *)
Lemma others_retired w n s id email hash k r :
  codes_belong s email id →
  <[new_id w (n + 5) := new_row w (n + 5) id email hash]>
    (retire (time_at w (n + 4)) id (password_resets s)) !! k = Some r →
  k ≠ new_id w (n + 5) → pr_email r = email → pr_used_at r ≠ None.
Proof.
  intros Hown Hr Hk. rewrite lookup_insert_ne in Hr by done.
  eapply retired_none; [|exact Hr]. intros r0 H0. by apply (Hown k r0).
Qed.

End Roundtrip.

(** ** Two confirmations at once *)

(** The same world, where another request takes effect just before call [k]. *)
Definition meanwhile (w : World State) (k : nat) (f : State → State) : World State :=
  {| failure := failure w; time_at := time_at w; new_id := new_id w; row_order := row_order w;
     row_order_perm := row_order_perm w; others m s := if decide (m = k) then f s else others w m s |}.

Section Race.
Context {V : Vault} {R : Randomness} {PL : PgLower} {VL : VaultLaws V}.

(** A code is checked in one statement and used up in another, so two
    confirmations with one code can both succeed: if the second runs whole
    between the check and the transaction of the first, both are told that
    the password has been changed, and the first one's password stays. *)
Theorem code_used_twice h a b w n s id r :
  calm w → ph_allowDirect h = false →
  confirm_email a = confirm_email b → confirm_code a = confirm_code b →
  newest_code (stamp w n) s (confirm_email a) = Some (id, r) → guessed r (confirm_code a) →
  resetMinPassword ≤ byte_length (ci_NewPassword a) ≤ resetMaxPassword →
  resetMinPassword ≤ byte_length (ci_NewPassword b) ≤ resetMaxPassword →
  ∃ hashed, HashPassword (random_salt (n + 1)) (ci_NewPassword a) = Some hashed ∧
  let second := handleConfirm h (Some b) w n in
  let first := handleConfirm h (Some a) (meanwhile w (n + 2) (λ s, snd (second s))) n s in
  fst (fst (second s)) = inl ok ∧ fst (fst first) = inl ok ∧
  users (snd first) = alter (set_password hashed) (pr_user_id r) (users (snd (second s))).
Proof.
  intros Hc Hd Ee Ec Hnew Hg La Lb. unfold resetMinPassword, resetMaxPassword in *.
  destruct (check_code_calm id r (confirm_code b) (ci_NewPassword b) w (n + 1) s Hc
    ltac:(by rewrite <- Ec) ltac:(lia)) as (hb & m & _ & Eb).
  destruct (generate_short (random_salt (n + 1)) (ci_NewPassword a) ltac:(lia)) as [ha Ha].
  assert (Hb : handleConfirm h (Some b) w n s = check_code id r (confirm_code b) (ci_NewPassword b) w (n + 1)%nat s).
  { rewrite handleConfirm_calm by done. by rewrite <- Ee, Hnew. }
  exists ha. split; [exact Ha|]. cbv zeta. split; [by rewrite Hb, Eb|].
  set (w' := meanwhile w (n + 2) _).
  assert (Hfirst : handleConfirm h (Some a) w' n s =
    check_code id r (confirm_code a) (ci_NewPassword a) w' (n + 1)%nat s).
  { unfold handleConfirm. rewrite Hd. cbn [andb]. unfold resetMinPassword, resetMaxPassword.
    rewrite (proj2 (Z.ltb_ge _ _)), (proj2 (Z.ltb_ge _ _)) by lia. unfold then_, try, select_code, effect.
    fold (confirm_email a). destruct Hc as [Hf Ho]. cbn [w' meanwhile failure others]. rewrite Hf.
    rewrite decide_False by lia. rewrite Ho.
    replace (newest_code (stamp w' n) s (confirm_email a)) with (Some (id, r)) by (rewrite <- Hnew; done).
    done. }
  rewrite Hfirst. unfold check_code at 1 2. destruct Hg as [Hatt Hok].
  rewrite (proj2 (Z.leb_gt _ _) Hatt), Hok. cbn [negb]. unfold then_, draw, HashPassword. rewrite Ha.
  unfold try, change_password, effect. destruct Hc as [Hf Ho]. cbn [w' meanwhile failure others]. rewrite Hf.
  replace (n + 1 + 1)%nat with (n + 2)%nat by lia. rewrite decide_True by done. by split.
Qed.
End Race.
