(* ===== verification/ResetRuns.v ===== *)
(** Concrete instances of the gateway's interfaces, and a password reset run
    on them. *)

From S2P Require Import Prelude GoStrings Gateway Service Reset.

#[local] Open Scope Z_scope.

(** A "hash" that shows the password, and tokens "H<key>" and "R<key>". *)
#[global] Instance glass_vault : Vault :=
  {| bcrypt_generate _ p := if byte_length p <=? 72 then Some ("$2a$10$" +:+ p) else None;
     bcrypt_compare h p := String.eqb h ("$2a$10$" +:+ p);
     constant_time_compare := String.eqb;
     jwt_method t := if has_prefix "H" t then HMAC else if has_prefix "R" t then RSA else OtherMethod;
     jwt_verify key t :=
       if String.eqb t ("H" +:+ key) || String.eqb t ("R" +:+ key)
       then Some {| cl_UserID := "u1"; cl_Email := "ada@x.org"; cl_Role := "student" |} else None |}.

#[global] Instance glass_vault_laws : VaultLaws glass_vault.
Proof.
  split; cbn.
  - intros salt p h. destruct (Z.leb_spec (byte_length p) 72); [|done]. intros [= <-]. apply String.eqb_refl.
  - intros salt p h. destruct (Z.leb_spec (byte_length p) 72); [|done]. intros [= <-]. apply prefix_app.
  - intros salt p H. rewrite (proj2 (Z.leb_le _ _) H). by eexists.
  - intros salt p H. by rewrite (proj2 (Z.leb_gt _ _) H).
  - done.
Qed.

#[global] Instance fixed_numbers : Randomness := {| random_number _ := Some 4217; random_salt _ := "salt" |}.
#[global] Instance ascii_lower : PgLower := {| pg_lower := to_lower |}.

Lemma numbers_work : random_works.
Proof. intros n. exists 4217. split; [reflexivity|lia]. Qed.

(** A world in which everything works, at a given time. *)
Definition world_at (t : Z) : World State :=
  {| failure _ := Works; time_at _ := t; new_id n := "id" +:+ format_int (Z.of_nat n); row_order _ l := l;
     row_order_perm _ _ := Permutation_refl _; others _ s := s |}.

Lemma world_at_calm t : calm (world_at t).
Proof. by split. Qed.

Definition handler : PasswordResetHandler := NewPasswordResetHandler true "" id id.

Definition ada : UserRow := {| us_email := "Ada@x.org"; us_name := "Ada"; us_password := "old" |}.

Definition accounts : State :=
  {| users := {["u1" := ada]}; password_resets := ∅; mails := []; ip_hits := ∅; email_hits := ∅ |}.

Definition confirmation (password : string) : resetConfirmInput :=
  {| ci_Email := " ada@X.org "; ci_Code := "004217"; ci_NewPassword := password |}.

Lemma accounts_fresh t : fresh_ids (world_at t) accounts.
Proof. intros n. apply lookup_empty. Qed.

(** The database with a code that has been mailed. *)
Definition requested : State := snd (handleRequest handler (Some "ADA@x.org") (world_at second) 0%nat accounts).


Lemma confirm_needs_code_witness :
  ∃ id r, password_resets requested !! id = Some r ∧ guessed r "004217" ∧ pr_user_id r = "u1".
Proof.
  assert (Ho : fst (fst (handleConfirm handler (Some (confirmation "correct horse")) (world_at (600 * second)) 9%nat
    requested)) = inl ok) by (vm_compute; reflexivity).
  destruct (handleConfirm handler (Some (confirmation "correct horse")) (world_at (600 * second)) 9%nat requested)
    as [[reply n'] s'] eqn:E. cbn in Ho. subst reply.
  destruct (confirm_needs_code handler (confirmation "correct horse") (world_at (600 * second)) 9%nat requested ok
    n' s' (calm_alone _ (world_at_calm _)) eq_refl E) as [[_ H]|(id & r & _ & _ & _ & H & _ & Hg & _)];
    [by destruct H|].
  exists id, r. split; [exact H|]. split; [exact Hg|].
  assert (Hu : map_Forall (λ _ r, pr_user_id r = "u1") (password_resets requested))
    by (apply (bool_decide_unpack _); vm_compute; exact I).
  exact (Hu id r H).
Defined.

Lemma request_reveals_nothing_witness :
  fst (fst (handleRequest handler (Some "ada@x.org") (world_at second) 0%nat accounts)) =
  fst (fst (handleRequest handler (Some "ada@x.org") (world_at second) 0%nat
    (with_users accounts ∅))).
Proof.
  apply (request_reveals_nothing handler (Some "ada@x.org") (world_at second) 0%nat accounts (with_users accounts ∅));
    [apply world_at_calm|exact numbers_work|apply accounts_fresh|apply accounts_fresh|reflexivity].
Defined.

Lemma code_used_twice_witness :
  let second' := handleConfirm handler (Some (confirmation "stranger's")) (world_at (2 * second)) 0%nat in
  fst (fst (second' requested)) = inl ok ∧
  fst (fst (handleConfirm handler (Some (confirmation "correct horse"))
    (meanwhile (world_at (2 * second)) 2%nat (λ s, snd (second' s))) 0%nat requested)) = inl ok.
Proof.
  destruct (newest_code (stamp (world_at (2 * second)) 0%nat) requested (confirm_email (confirmation "correct horse")))
    as [[id r]|] eqn:E; [|vm_compute in E; discriminate E].
  destruct (code_used_twice handler (confirmation "correct horse") (confirmation "stranger's")
    (world_at (2 * second)) 0%nat requested id r) as (hashed & _ & H1 & H2 & _);
    [apply world_at_calm|reflexivity|reflexivity|reflexivity|exact E|
     vm_compute in E; injection E as <- <-; by split|split; apply Z.leb_le; reflexivity|
     split; apply Z.leb_le; reflexivity|].
  split; [exact H1|exact H2].
Defined.

Definition limiter : rateLimiter := {| rl_limit := 2; rl_window := 60 |}.

Lemma rate_limited_witness :
  allow_all (Some limiter) [(0, "k"); (10, "k"); (20, "k"); (65, "k")] ∅ = [true; true; false; true] ∧
  Z.of_nat (length (in_window 0 60 (allowed_times "k" [(0, "k"); (10, "k"); (20, "k"); (65, "k")]
    (allow_all (Some limiter) [(0, "k"); (10, "k"); (20, "k"); (65, "k")] ∅)))) ≤ 2.
Proof.
  split; [vm_compute; reflexivity|].
  apply (rate_limited 2 60 limiter [(0, "k"); (10, "k"); (20, "k"); (65, "k")] "k" 0);
    [reflexivity|repeat constructor; discriminate].
Defined.

Definition portal : Validator := {| va_useHMAC := true; va_secret := "s3cret"; va_publicKey := "" |}.
Definition visit : HttpRequest :=
  {| rq_Path := "/api/profile"; rq_Headers := {["Authorization" := "Bearer Hs3cret"]}; rq_TokenParam := "";
     rq_User := None |}.

Lemma Auth_guards_witness : ∃ r, Auth portal ["/api/login"] visit = Forward r ∧ header r "X-User-ID" = "u1".
Proof.
  destruct (Auth portal ["/api/login"] visit) as [r|] eqn:E; [|vm_compute in E; discriminate E].
  exists r. split; [reflexivity|].
  destruct (Auth_guards portal ["/api/login"] visit r E) as [[_ [H|H]]|(c & key & t & Hj & _ & _ & H & _)].
  - exfalso. apply elem_of_cons in H as [H|H]; [discriminate H|by apply elem_of_nil in H].
  - discriminate H.
  - rewrite H. cbn in Hj. destruct (String.eqb t ("H" +:+ key) || String.eqb t ("R" +:+ key)); [|discriminate Hj].
    by injection Hj as <-.
Defined.
