(* ===== verification/ShopRuns.v ===== *)
(** Concrete instances of the shop's interfaces, and orders, payments and
    rewards run on them. *)

From S2P Require Import Prelude GoStrings Float64 Gateway Service Shop Referral Cashfree Checkout.
From Stdlib Require Import Ascii.
From S2P Require Import ResetRuns.

#[local] Open Scope Z_scope.
#[local] Open Scope service_scope.

#[global] Instance sevens : Random.
Proof.
  refine {| rand_bytes _ k := Some (repeat 7 k) |}.
  - intros n k b [= <-]. apply repeat_length.
  - intros n k b x [= <-] Hx%list_elem_of_In%repeat_spec. subst x. lia.
Defined.

#[global] Instance plain_digests : Digests :=
  {| sha256Hex s := "sha " +:+ s; hash_ip s := s; hmac_base64 k m := k +:+ "|" +:+ m |}.

#[global] Instance any_address : Addresses := {| ParseAddress := Some |}.

(** A gateway that has collected 8099.10 rupees for every order. *)
#[global] Instance one_price : CashfreeAPI :=
  {| api_create _ _ := Some "session"; api_order _ _ := Some ("PAID", toRupees 809910);
     api_payments _ _ := Some [("77", "SUCCESS")]; unmarshal_event _ := None |}.

(** Numbers that are all in the middle of their range. *)
#[global] Instance halves : Passwords.
Proof.
  refine {| rand_int _ _ bound := if 0 <? bound then Some (bound / 2) else None; new_salt _ := "salt" |}.
  intros n i bound z H. destruct (Z.ltb_spec 0 bound); [|done]. injection H as <-.
  split; [apply Z.div_pos; lia|apply Z.div_lt; lia].
Defined.

Lemma ascii_lower_twice x : pg_lower (to_lower x) = to_lower x.
Proof.
  cbn. unfold to_lower. rewrite to_of_bytes, map_map. f_equal. apply map_ext.
  intros [b0 b1 b2 b3 b4 b5 b6 b7]. destruct b0, b1, b2, b3, b4, b5, b6, b7; reflexivity.
Qed.

(** A world in which everything works. *)
Definition shop_world : World Shop :=
  {| failure _ := Works; time_at n := Z.of_nat n; new_id n := "id" +:+ format_int (Z.of_nat n); row_order _ l := l;
     row_order_perm _ _ := Permutation_refl _; others _ s := s |}.

Lemma shop_world_calm : calm shop_world.
Proof. by split. Qed.

Definition tenth : referralProgram :=
  {| IsActive := true; CourseRewardPaise := 50000; ExamRewardPaise := 20000; FriendDiscountPercent := of_Z 10;
     FriendDiscountCap := 150000; MinOrderPaise := 100000; MonthlyCapPaise := 1000000; AttributionDays := 90;
     TermsURL := "/referrals#terms" |}.

Definition asha : ReferrerRow := new_referrer "ASHA4K2P" "Asha Rao" "asha@x.org" "9876543210" None.

Definition shop : Shop :=
  {| sh_program := Some tenth; sh_referrers := {["r1" := asha]}; sh_clicks := []; sh_conversions := ∅; sh_users := ∅;
     sh_courses := ∅; sh_invites := ∅; sh_orders := ∅; sh_exams := ∅; sh_papers := ∅; sh_registrations := ∅;
     sh_certificates := ∅; sh_attempts := ∅; sh_audit := []; sh_mails := []; sh_hits := ∅ |}.

Definition desk : ReferralHandler :=
  {| siteBase := "https://x.org"; mailer_enabled := true; ipLimiter := None; emailLimiter := None |}.

Definition till : EnrollHandler :=
  {| en_pay := {| appID := "app"; secret := "key"; env := "sandbox"; webhookBase := "https://api.x.org" |}; en_mailer_enabled := true;
     en_Referrals := Some desk; en_siteBase := "https://x.org"; en_limiter := None; en_emailLimiter := None |}.

Definition wish : OrderInput :=
  {| oi_CourseID := "5"; oi_Plan := "self"; oi_Name := "Ben Ode"; oi_Email := "Ben@x.org"; oi_Phone := "+91 9123456789";
     oi_ReferralCode := "https://x.org/r/asha4k2p?u=1" |}.

Lemma ten_percent : percentage (of_Z 10).
Proof.
  destruct (of_Z_spec 10 ltac:(lia)) as [Hf Hs]. split; [split; [exact Hf|]|vm_compute; reflexivity].
  rewrite Hs. apply Z.mul_nonneg_nonneg; [lia|apply Z.pow_nonneg; lia].
Qed.

Lemma tenth_fair : fair_program shop.
Proof. intros p [= <-]. split; [exact ten_percent|]. cbn. lia. Qed.

(** ** An order, its payment and the reward *)

(** The shop once Ben's order is open. *)
Definition ordered : Shop := snd (handleOrder till "ip" (Some wish) shop_world 0%nat shop).

Definition ben_quote : referralQuote :=
  {| q_ReferrerID := "r1"; q_Code := "ASHA4K2P"; q_DiscountPaise := 89990; q_Flags := "" |}.

Lemma wish_opened : handleOrder till "ip" (Some wish) shop_world 0%nat shop =
  (inl (order_opened "enr_id5" "session" "Full Stack Development" "self" till 809910 899900 ben_quote), 8%nat, ordered).
Proof. vm_compute. reflexivity. Qed.

Lemma paid_order_enrols_witness :
  ∃ f m' s2 user u, handleVerify till (Some "enr_id5") shop_world 20%nat ordered = (inl (fulfilled f), m', s2) ∧
    fr_Status f = Enrolled ∧ (user, "5") ∈ sh_courses s2 ∧ sh_users s2 !! user = Some u.
Proof.
  destruct (paid_order_enrols till "ip" wish shop_world 0%nat shop "enr_id5" "session" "self" "Full Stack Development"
    809910 899900 ben_quote 8%nat ordered shop_world 20%nat) as (f & m' & s2 & user & u & H1 & H2 & H3 & H4 & _).
  - exact (calm_alone _ shop_world_calm).
  - exact tenth_fair.
  - intros i k r Hi. cbn in Hi. by rewrite lookup_empty in Hi.
  - reflexivity.
  - intros n i bound Hb. cbn. apply Z.ltb_lt in Hb as ->. by eexists.
  - exact ascii_lower_twice.
  - exact wish_opened.
  - exact shop_world_calm.
  - intros k. apply lookup_empty.
  - split; [reflexivity|]. exists [("77", "SUCCESS")], "77". split; [reflexivity|]. apply list_elem_of_here.
  - exists f, m', s2, user, u. by split_and!.
Defined.

Definition paid : Shop := snd (handleVerify till (Some "enr_id5") shop_world 20%nat ordered).

(** Only one order is open. *)
Lemma ordered_unique : unique_gateway ordered.
Proof.
  assert (H : map_Forall (λ i _, i = "id5") (sh_orders ordered)) by (apply (bool_decide_unpack _); vm_compute; exact I).
  intros i j r q oid Hi Hj _ _. by rewrite (H _ _ Hi), (H _ _ Hj).
Qed.

Lemma run_eta {A B C} (p : A * B * C) : p = (p.1.1, p.1.2, p.2).
Proof. by destruct p as [[]]. Qed.

Lemma courses_changed : sh_courses paid ≠ sh_courses ordered.
Proof.
  assert (H : bool_decide (sh_courses paid = sh_courses ordered) = false) by (vm_compute; reflexivity).
  exact (proj1 (bool_decide_eq_false _) H).
Qed.

Lemma confirmation_needs_payment_witness :
  ∃ id r oid, sh_orders ordered !! id = Some r ∧ payment_proof till (Verify (Some "enr_id5")) oid (od_amount_paise r).
Proof.
  destruct (confirmation_needs_payment till (Verify (Some "enr_id5")) shop_world 20%nat ordered _ _ _
    (calm_alone _ shop_world_calm) ordered_unique (run_eta _)) as [H|H].
  - exact (False_ind _ (courses_changed (proj1 H))).
  - destruct H as (id & r & oid & H1 & _ & H3 & _). exact (ex_intro _ id (ex_intro _ r (ex_intro _ oid (conj H1 H3)))).
Defined.

(** After the payment another callback changes nothing. *)
Lemma fulfil_once_witness :
  settled paid "enr_id5" ∧ snd (fulfil till "enr_id5" "78" shop_world 90%nat paid) = paid.
Proof.
  assert (H : map_Forall (λ _ r, od_status r = Enrolled) (sh_orders paid)) by (apply (bool_decide_unpack _); vm_compute; exact I).
  assert (Hs : settled paid "enr_id5") by (intros id r Hr _; right; exact (H _ _ Hr)).
  split; [exact Hs|]. destruct (fulfil till "enr_id5" "78" shop_world 90%nat paid) as [[x n'] s'] eqn:E.
  apply (fulfil_once till "enr_id5" "78" (λ s, s = paid) shop_world 90%nat paid x n' s'); [by intros ? ->|done|done|exact E].
Defined.

(** The world in which the fourth call after the payment's fails. *)
Definition flaky : World Shop :=
  {| failure n := if bool_decide (n = 24%nat) then FailsBefore else Works; time_at := time_at shop_world;
     new_id := new_id shop_world; row_order := row_order shop_world; row_order_perm := row_order_perm shop_world;
     others _ s := s |}.

Lemma paid_order_stuck_witness :
  ∃ e n' s', fulfil till "enr_id5" "77" flaky 20%nat ordered = (inl (inr e), n', s') ∧
    is_Some (sh_users s' !! "id23") ∧ sh_mails s' = [] ∧ sh_conversions s' = ∅.
Proof.
  assert (Hr : is_Some (sh_orders ordered !! "id5")) by (vm_compute; by eexists). destruct Hr as [r Hr].
  assert (Hrow : map_Forall (λ _ r, od_gateway_order_id r = Some "enr_id5" ∧ od_status r = Created) (sh_orders ordered))
    by (apply (bool_decide_unpack _); vm_compute; exact I).
  destruct (Hrow _ _ Hr) as [H1 H2].
  destruct (paid_order_stuck till "enr_id5" "77" flaky 20%nat ordered "id5" r "id23" "EEEEEEEEEEEE" "$2a$10$EEEEEEEEEEEE")
    as (e & n' & s' & E & Hu & Hm & Hcv & _).
  - split; [done|]. split; [reflexivity|]. intros m Hm. cbn. by rewrite bool_decide_eq_false_2.
  - exact ordered_unique.
  - exact Hr.
  - exact H1.
  - exact H2.
  - reflexivity.
  - reflexivity.
  - apply first_row_none. intros k u Hk. assert (Hn : sh_users ordered = ∅) by (vm_compute; reflexivity).
    rewrite Hn in Hk. by rewrite lookup_empty in Hk.
  - reflexivity.
  - reflexivity.
  - reflexivity.
  - exists e, n', s'. split; [exact E|]. split; [by rewrite Hu|]. rewrite Hm, Hcv. by split.
Defined.

(** ** The ledger *)

Definition reward : Purchase :=
  {| pu_kind := "course"; pu_order_id := "id5"; pu_code := "ASHA4K2P"; pu_friend_name := "Ben Ode";
     pu_friend_email := "ben@x.org"; pu_item_name := "Full Stack Development"; pu_flags := "";
     pu_order_paise := 809910; pu_discount_paise := 89990 |}.

Definition staff (action ref : string) : ActionInput :=
  {| ai_Action := action; ai_Reason := ""; ai_PayoutRef := ref |}.

(** Booked, approved and paid out. *)
Definition settlement : list LedgerRequest :=
  [Book desk reward; Decide "op" "id3" (Some (staff "approve" ""));
   Decide "op" "id3" (Some (staff "pay" "UPI-1")); Refund "course" "id5" "x"].

Lemma shop_ledger : ledger shop shop.
Proof.
  split; [split; cbn; intros *; by rewrite lookup_empty|]. intros i v Hv. cbn in Hv. by rewrite lookup_empty in Hv.
Qed.

Lemma ledger_sound_witness :
  let s := snd (serve_all settlement shop_world 0%nat shop) in
  ledger shop s ∧ (cv_status <$> sh_conversions s !! "id3") = Some PaidOut.
Proof.
  cbv zeta. destruct (serve_all settlement shop_world 0%nat shop) as [[x n'] s'] eqn:E. split.
  - apply (ledger_sound settlement shop shop_world 0%nat shop x n' s'); [done|exact shop_ledger|exact E].
  - replace s' with (snd (serve_all settlement shop_world 0%nat shop)) by (by rewrite E). vm_compute. reflexivity.
Defined.

(** ** Quotes and links *)


Definition cleo : JoinInput :=
  {| ji_Name := " Cleo Day"; ji_Email := "Cleo@x.org"; ji_Phone := ""; ji_Website := "" |}.

Definition joined : Shop := snd (handleJoin desk "ip" (Some cleo) shop_world 0%nat shop).

Lemma cleo_joined : handleJoin desk "ip" (Some cleo) shop_world 0%nat shop =
  (inl (write 200 (linkPayload desk "CLEOCZDJ" "Cleo Day" tenth true)), 9%nat, joined).
Proof. vm_compute. reflexivity. Qed.

Lemma joined_link_resolves_witness :
  ∃ k, handleResolve (link desk "CLEOCZDJ") shop_world 20%nat joined =
    (inl (write 200 [("valid", VBool true); ("firstName", VStr "Cleo");
       ("friendDiscountPercent", VFloat (of_Z 10)); ("attributionDays", VInt 90)]), k, joined).
Proof.
  destruct (joined_link_resolves desk "ip" cleo "CLEOCZDJ" "Cleo Day" tenth shop_world 0%nat shop 9%nat joined
    shop_world 20%nat (calm_alone _ shop_world_calm) shop_world_calm ascii_lower_twice eq_refl cleo_joined)
    as (first & k & Hf & H).
  assert (first = "Cleo") as -> by (vm_compute in Hf; congruence). exact (ex_intro _ k H).
Defined.
