(* ===== verification/CertRuns.v ===== *)
(** Certification run on concrete instances: a registration is bought, paid
    for, opened, sat and certified; and the runs in which a link is dead. *)

From S2P Require Import Prelude GoStrings Float64 GoTime Gateway Service Shop Referral Cashfree Checkout Certify CertifyDesk Certified.
From Stdlib Require Import Ascii.
From S2P Require Import ResetRuns ShopRuns.

#[local] Open Scope Z_scope.
#[local] Open Scope service_scope.

(** Bytes that differ from step to step. *)
#[global] Instance counted : Random.
Proof.
  refine {| rand_bytes n k := Some (repeat (Z.of_nat n mod 256) k) |}.
  - intros n k b [= <-]. apply repeat_length.
  - intros n k b x [= <-] Hx%list_elem_of_In%repeat_spec. subst x. apply Z.mod_pos_bound. lia.
Defined.

#[global] Instance plain_server : CertEnv :=
  {| to_numeric2 x := x; numeric_percent a b := fmul (fdiv a b) (of_Z 100);
     pg_upper s := of_bytes (map upper_byte (to_bytes s));
     sign_token c issued expires _ := Some ("jwt " +:+ cl_UserID c) |}.

Lemma counted_bytes_come : bytes_come.
Proof. intros n k. by eexists. Qed.

Lemma plain_server_upper x : credential_ok x → pg_upper x = x.
Proof.
  intros [H _]. cbn. rewrite <- (of_to_bytes x) at 2. f_equal. induction H as [|a l Ha _ IH]; [done|].
  cbn [map]. by rewrite IH, (proj1 (credential_byte_cases a a Ha eq_refl)).
Qed.

Definition golang : ExamRow :=
  {| ex_slug := "go"; ex_title := "Go Developer"; ex_course_id := "5"; ex_assessment_id := "p1"; ex_price_paise := 899900;
     ex_pass_percent := of_Z 60; ex_link_valid_days := 30; ex_resit_wait_days := 0; ex_summary := ""; ex_is_active := true;
     ex_opens_at := None; ex_closes_at := None |}.

Definition paper : PaperView :=
  {| pv_title := "Go paper"; pv_purpose := "certification"; pv_status := "published"; pv_duration_minutes := 60; pv_total_marks := 100 |}.

(** The shop with registrations, accounts and attempts. *)
Definition exam_shop (rg : gmap string RegistrationRow) (u : gmap string Account) (a : gmap string AttemptView) : Shop :=
  {| sh_program := Some tenth; sh_referrers := {["r1" := asha]}; sh_clicks := []; sh_conversions := ∅; sh_users := u;
     sh_courses := ∅; sh_invites := ∅; sh_orders := ∅; sh_exams := {["e1" := golang]}; sh_papers := {["p1" := paper]};
     sh_registrations := rg; sh_certificates := ∅; sh_attempts := a; sh_audit := []; sh_mails := []; sh_hits := ∅ |}.

Definition fresh : Shop := exam_shop ∅ ∅ ∅.

Definition bureau : CertificationHandler :=
  {| ce_pay := en_pay till; ce_mailer_enabled := true; ce_Referrals := Some desk; ce_jwtSecret := "secret";
     ce_appBase := "https://app.x.org"; ce_siteBase := "https://x.org"; ce_ipLimiter := None; ce_emailLimiter := None |}.

Definition entry : CertOrderInput :=
  {| ki_Slug := "go"; ki_Name := "Ben Ode"; ki_Email := "Ben@x.org"; ki_Phone := "+91 9123456789";
     ki_ReferralCode := "asha4k2p"; ki_Website := "" |}.

(** The token drawn at step [n]. *)
Definition drawn (n : nat) : string := match randomToken n 32 with Some raw => of_bytes raw | None => "" end.

(** ** From the sale to the exam *)

Definition entered : Shop := snd (Certify.handleOrder bureau "ip" (Some entry) shop_world 0%nat fresh).

Lemma entry_opened : ∃ n, Certify.handleOrder bureau "ip" (Some entry) shop_world 0%nat fresh =
  (inl (registration_opened bureau "cert_id7" "session" "Go Developer" 809910 899900 ben_quote), n, entered).
Proof. eexists. vm_compute. reflexivity. Qed.

Lemma fresh_tables : ∀ w, ids_fresh w fresh.
Proof. intros w k. split; apply lookup_empty. Qed.

(** A state without digests. *)
Lemma no_digests s : bool_decide (map_Forall (λ _ r, rg_claim_token_hash r = None) (sh_registrations s)) = true → digests_fresh s.
Proof. intros H%bool_decide_eq_true n raw j q _ Hj. by rewrite (H _ _ Hj). Qed.

Lemma paid_exam_opens_witness :
  ∃ f m' s2 token expires user u,
    Certify.handleVerify bureau (Some "cert_id7") shop_world 20%nat entered = (inl (cert_fulfilled f), m', s2) ∧
    ExamMail "ben@x.org" "Ben Ode" "Go Developer" ("https://app.x.org/certification/start?t=" +:+ token) expires ∈ sh_mails s2 ∧
    sh_users s2 !! user = Some u ∧ ac_role u = "applicant".
Proof.
  destruct entry_opened as [n Hn].
  destruct (paid_exam_opens bureau "ip" entry shop_world 0%nat fresh "cert_id7" "session" "Go Developer"
    809910 899900 ben_quote n entered shop_world 20%nat) as (f & m' & s2 & name & token & expires & user & u & H1 & _ & _ & H2 & H3 & _ & H4 & _).
  - exact (calm_alone _ shop_world_calm).
  - exact tenth_fair.
  - split; [reflexivity|vm_compute; discriminate].
  - intros i k r Hi. cbn in Hi. by rewrite lookup_empty in Hi.
  - reflexivity.
  - exact counted_bytes_come.
  - exact Hn.
  - exact shop_world_calm.
  - exact (fresh_tables _).
  - apply no_digests. reflexivity.
  - split; [reflexivity|]. exists [("77", "SUCCESS")], "77". split; [reflexivity|]. apply list_elem_of_here.
  - exists f, m', s2, token, expires, user, u. split; [exact H1|].
    assert (name = "Ben Ode") as ->.
    { assert (E : sh_mails s2 = sh_mails (snd (Certify.handleVerify bureau (Some "cert_id7") shop_world 20%nat entered))) by (by rewrite H1).
      rewrite E in H2. clear -H2.
      assert (Hall : Forall (λ m, match m with ExamMail _ n _ _ _ => n = "Ben Ode" | _ => True end)
        (sh_mails (snd (Certify.handleVerify bureau (Some "cert_id7") shop_world 20%nat entered)))) by (vm_compute; repeat constructor).
      rewrite Forall_forall in Hall. exact (Hall _ H2). }
    split; [exact H2|]. split; [exact H3|]. apply H4. intros k v Hk. cbn in Hk. by rewrite lookup_empty in Hk.
Defined.

(** ** The link *)

Definition entry_paid : Shop := snd (Certify.handleVerify bureau (Some "cert_id7") shop_world 20%nat entered).

Definition ben : Account :=
  {| ac_email := "ben@x.org"; ac_name := "Ben Ode"; ac_password := UnusablePassword (of_bytes (default [] (randomToken 26 18)));
     ac_role := "applicant"; ac_phone := "+91 9123456789" |}.

Lemma ben_claims : ∃ n s', handleClaim bureau "ip" (Some (drawn 24)) shop_world 40%nat entry_paid =
  (inl (claim_answer "jwt id28" "id7" "id28" "p1" "Go Developer" (drawn 27) ben), n, s').
Proof. eexists _, _. vm_compute. reflexivity. Qed.

Lemma claim_guarded_witness :
  ∃ e v n', opened_session bureau shop_world entry_paid (sha256Hex (drawn 24)) "jwt id28" "id7" "id28" e (drawn 27) v 40 n' ∧
    ex_title e = "Go Developer" ∧ ac_role v = "applicant".
Proof.
  destruct ben_claims as (n & s' & H).
  destruct (claim_guarded bureau "ip" (drawn 24) shop_world 40%nat entry_paid "jwt id28" "id7" "id28" "p1" "Go Developer" (drawn 27) ben n s'
    (calm_alone _ shop_world_calm) H) as (e & v & _ & Ht & _ & _ & Ho & _).
  exists e, v, n. split; [exact Ho|]. split; [symmetry; exact Ht|]. exact (proj2 (os_account _ _ _ _ _ _ _ _ _ _ _ _ Ho)).
Defined.

(** ** The result *)

Definition attempt (score : Z) (started : Z) : AttemptView :=
  {| av_assessment_id := "p1"; av_user_id := "id28"; av_score := Some (of_Z score); av_max_score := Some (of_Z 100);
     av_status := "evaluated"; av_started_at := started |}.

Definition sat : Shop := exam_shop (sh_registrations entry_paid) (sh_users entry_paid) {["a1" := attempt 80 50]}.

Definition passed : Shop := snd (handleOutcome bureau " a1" shop_world 60%nat sat).

Lemma passed_certified : sh_certificates passed ≠ sh_certificates sat.
Proof.
  assert (H : bool_decide (map_to_list (sh_certificates passed) = []) = false) by (vm_compute; reflexivity).
  intros E. rewrite E in H. vm_compute in H. discriminate H.
Qed.

(** Ben's certificate, by credential and time. *)
Definition certificate (credential : string) (t : Z) : CertificateRow :=
  {| ct_credential_id := credential; ct_user_id := "id28"; ct_holder_name := "Ben Ode"; ct_title := "Go Developer"; ct_source := "exam";
     ct_exam_id := Some "e1"; ct_registration_id := Some "id7"; ct_attempt_id := Some "a1"; ct_score_percent := of_Z 80;
     ct_issued_at := t; ct_revoked_at := None; ct_revoke_reason := "" |}.

Lemma ben_passes : handleOutcome bureau " a1" shop_world 60%nat sat =
  (inl (write 200 (outcome_fields golang (attempt 80 50) ++ credential_fields bureau (certificate "KNV-S429-S429" 64))), 66%nat, passed).
Proof. vm_compute. reflexivity. Qed.

Lemma certificate_earned_witness :
  ∃ id r e u a c, result_of sat "a1" id r e "id28" u a ∧ fleb (ex_pass_percent e) (attempt_percent a) = true ∧
    ct_user_id c = "id28" ∧ ct_attempt_id c = Some "a1".
Proof.
  destruct (certificate_earned bureau " a1" shop_world 60%nat sat _ _ passed (calm_alone _ shop_world_calm) ben_passes) as [E|Hc].
  - exact (False_ind _ (passed_certified E)).
  - destruct Hc as (id & r & e & user & u & a & k & d & Hres & _ & Hp & _ & _ & _ & Hu & _ & Ha & _).
    pose proof Hres as [Hat Hrg (Huser & _ & _) _].
    assert (user = "id28") as ->.
    { rewrite <- Huser. change (trim_space " a1") with "a1" in Hat.
      assert (Hall : map_Forall (λ _ a, av_user_id a = "id28") (sh_attempts sat)) by (apply (bool_decide_unpack _); vm_compute; exact I).
      exact (Hall _ _ Hat). }
    exists id, r, e, u, a, d. split; [exact Hres|]. split; [exact Hp|]. split; [exact Hu|exact Ha].
Defined.

(** ** The credential *)

Definition issued : Shop := snd (issueCertificate "id7" "id28" "Ben Ode" "Go Developer" "a1" (of_Z 80) shop_world 61%nat sat).

Lemma ben_issued : issueCertificate "id7" "id28" "Ben Ode" "Go Developer" "a1" (of_Z 80) shop_world 61%nat sat =
  (inl (inl (certificate "KNV-SLWP-SLWP" 63)), 65%nat, issued).
Proof. vm_compute. reflexivity. Qed.

(** One registration and no certificates. *)
Lemma sat_indexed : indexed sat.
Proof.
  assert (Hid : map_Forall (λ i _, i = "id7") (sh_registrations sat)) by (apply (bool_decide_unpack _); vm_compute; exact I).
  assert (Hnone : ∀ k, sh_certificates sat !! k = None) by (intros k; apply lookup_empty).
  split.
  - intros i j c d H. rewrite Hnone in H. discriminate H.
  - intros i j c d H. rewrite Hnone in H. discriminate H.
  - intros i j r q Hi Hj _ _. rewrite (Hid _ _ Hi), (Hid _ _ Hj). reflexivity.
Qed.

Lemma credential_verifies_witness :
  handleCredential " knv-slwp-Slwp " shop_world 70%nat issued = (inl (credential_answer (certificate "KNV-SLWP-SLWP" 63)), 71%nat, issued).
Proof.
  apply (credential_verifies "id7" "id28" "Ben Ode" "Go Developer" "a1" (of_Z 80) shop_world 61%nat sat (certificate "KNV-SLWP-SLWP" 63)
    65%nat issued " knv-slwp-Slwp " shop_world 70%nat).
  - exact (calm_alone _ shop_world_calm).
  - exact shop_world_calm.
  - exact sat_indexed.
  - intros k d Hd. exfalso. assert (Hnone : sh_certificates sat !! k = None) by apply lookup_empty. rewrite Hnone in Hd. discriminate Hd.
  - exact plain_server_upper.
  - exact ben_issued.
  - vm_compute. reflexivity.
Defined.

(** ** Dead links *)

(** A registration of Ben's, by status, account, digest and time. *)
Definition registration (status : RegistrationStatus) (user hash : option string) (created : Z) : RegistrationRow :=
  {| rg_exam_id := "e1"; rg_name := "Ben Ode"; rg_email := "ben@x.org"; rg_phone := "9123456789"; rg_user_id := user; rg_invite_id := None;
     rg_amount_paise := 809910; rg_status := status; rg_claim_token_hash := hash; rg_claim_expires_at := None; rg_claimed_at := None;
     rg_certificate_id := None; rg_emailed_at := None; rg_error := ""; rg_notes := ""; rg_referral_code := ""; rg_referral_discount := 0;
     rg_referral_flags := ""; rg_gateway_order_id := Some ("cert_" +:+ format_int created); rg_gateway_payment_id := None;
     rg_created_at := created; rg_paid_at := None; rg_updated_at := created |}.

(** Failed on the first of January, paid for again later. *)
Definition resit : Shop :=
  exam_shop {["g1" := registration RegFailed (Some "id28") (Some (sha256Hex "old")) 1;
              "g2" := registration RegPaid (Some "id28") (Some (sha256Hex "new")) 100]}
    {["id28" := ben]} {["a1" := attempt 40 50]}.

Lemma resit_rows : map_Forall (λ i r, i = "g1" ∧ rg_created_at r = 1 ∧ rg_claim_token_hash r = Some (sha256Hex "old") ∨ i = "g2")
  (sh_registrations resit).
Proof. apply (bool_decide_unpack _). vm_compute. exact I. Qed.

Lemma old_result_burns_resit_witness :
  ∃ s', handleOutcome bureau "a1" shop_world 60%nat resit =
      (inl (write 200 (outcome_fields golang (attempt 40 50))), 62%nat, s') ∧
    ∃ m' s2, handleClaim bureau "ip" (Some "new") shop_world 70%nat s' = (inl (fail 409 "you have already sat this exam"), m', s2).
Proof.
  destruct (old_result_burns_resit bureau "a1" shop_world 60%nat resit "g2" (registration RegPaid (Some "id28") (Some (sha256Hex "new")) 100)
    golang "id28" ben (attempt 40 50) "new") as (s' & H1 & _ & H2).
  - exact shop_world_calm.
  - split; [vm_compute; reflexivity|vm_compute; reflexivity| |split; vm_compute; reflexivity].
    split; [reflexivity|]. split; [reflexivity|vm_compute; reflexivity].
  - discriminate.
  - vm_compute. reflexivity.
  - vm_compute. reflexivity.
  - reflexivity.
  - intros j q Hj Hne _. destruct (resit_rows _ _ Hj) as [(_ & -> & _)|E]; [reflexivity|destruct (Hne E)].
  - reflexivity.
  - vm_compute. reflexivity.
  - discriminate.
  - intros j q Hj Hq. destruct (resit_rows _ _ Hj) as [(_ & _ & E)|E]; [|exact E]. rewrite E in Hq. discriminate Hq.
  - exists s'. split; [exact H1|]. apply H2; [exact shop_world_calm|reflexivity|]. intros t k [=].
Defined.

(** Paid for, and never set up. *)
Definition stranded : Shop := exam_shop {["g1" := registration RegPaid None None 1]} ∅ ∅.

Lemma stranded_rows : map_Forall (λ i r, i = "g1" ∧ rg_claim_token_hash r = None) (sh_registrations stranded).
Proof. apply (bool_decide_unpack _). vm_compute. exact I. Qed.

Lemma resend_dead_link_witness :
  ∃ expires n' s', ResendLink bureau "g1" shop_world 60%nat stranded =
      (inl (link_sent bureau "ben@x.org" (exam_url bureau (drawn 61)) true expires), n', s') ∧
    ∃ m' s2, handleClaim bureau "ip" (Some (drawn 61)) shop_world 70%nat s' =
      (inl (fail 401 "this link is no longer valid — please contact us if you have paid for this exam"), m', s2).
Proof.
  destruct (resend_dead_link bureau "g1" shop_world 60%nat stranded (registration RegPaid None None 1) golang
    (to_bytes (drawn 61))) as (expires & n' & s' & H1 & _ & H2 & _).
  - exact shop_world_calm.
  - vm_compute. reflexivity.
  - reflexivity.
  - reflexivity.
  - vm_compute. reflexivity.
  - reflexivity.
  - vm_compute. reflexivity.
  - intros j q Hj. rewrite (proj2 (stranded_rows _ _ Hj)). discriminate.
  - rewrite of_to_bytes in H1, H2. exists expires, n', s'. split; [exact H1|]. apply H2; [exact shop_world_calm|reflexivity].
Defined.

(** The replica of the server that the gateway's notification reaches. *)
Definition back_office : World Shop :=
  {| failure _ := Works; time_at n := Z.of_nat n; new_id n := "jd" +:+ format_int (Z.of_nat n); row_order _ l := l;
     row_order_perm _ _ := Permutation_refl _; others _ s := s |}.

Lemma links_race_witness :
  ∃ s1 f2 m' s2 f1 n' s3,
    Certify.mark_paid "cert_1" "77" shop_world 10%nat (exam_shop {["g1" := registration RegCreated None None 1]} ∅ ∅) =
      (inl (inl (Some ("g1", registration RegCreated None None 1, golang))), 11%nat, s1) ∧
    Certify.fulfil bureau "cert_1" "77" back_office 20%nat s1 = (inl (inl f2), m', s2) ∧
    grant bureau "g1" (registration RegCreated None None 1) golang shop_world 11%nat s2 = (inl (inl f1), n', s3).
Proof.
  destruct (links_race bureau "cert_1" "77" "77" shop_world 10%nat back_office 20%nat
    (exam_shop {["g1" := registration RegCreated None None 1]} ∅ ∅) "g1" (registration RegCreated None None 1) golang)
    as (s1 & f2 & m' & s2 & f1 & n' & s3 & t1 & t2 & x1 & x2 & H1 & H2 & H3 & _).
  - exact shop_world_calm.
  - split; reflexivity.
  - reflexivity.
  - exact counted_bytes_come.
  - vm_compute. reflexivity.
  - reflexivity.
  - reflexivity.
  - reflexivity.
  - assert (H : map_Forall (λ i _, i = "g1") (sh_registrations (exam_shop {["g1" := registration RegCreated None None 1]} ∅ ∅)))
      by (apply (bool_decide_unpack _); vm_compute; exact I).
    intros j q Hj _. exact (H _ _ Hj).
  - vm_compute. reflexivity.
  - vm_compute. by eexists.
  - apply no_digests. vm_compute. reflexivity.
  - intros k. split; apply lookup_empty.
  - intros k. split; apply lookup_empty.
  - intros i j H. discriminate H.
  - intros a b Ha Hb. vm_compute in Ha, Hb. injection Ha as <-. injection Hb as <-. vm_compute. discriminate.
  - exists s1, f2, m', s2, f1, n', s3. split; [exact H1|]. split; [exact H2|exact H3].
Defined.

(** ** Requests in a row *)

Definition day : list CertRequest :=
  [Order bureau "ip" (Some entry); VerifyExam bureau (Some "cert_id7"); Sweep;
   Administer bureau "id7" (Some {| ri_Notes := None; ri_Action := "refund"; ri_Reason := "" |})].

Lemma certification_sound_witness :
  let s := snd (serve_certs day shop_world 0%nat fresh) in
  certified fresh s ∧ (rg_status <$> sh_registrations s !! "id7") = Some RegRefunded.
Proof.
  cbv zeta. destruct (serve_certs day shop_world 0%nat fresh) as [[x n'] s'] eqn:E. split.
  - apply (certification_sound day fresh shop_world 0%nat fresh x n' s'); [intros n s H; exact H| |exact E].
    split; [split|split].
    + intros i j c d H. cbn in H. rewrite lookup_empty in H. discriminate H.
    + intros i j c d H. cbn in H. rewrite lookup_empty in H. discriminate H.
    + intros i j r q H. cbn in H. rewrite lookup_empty in H. discriminate H.
    + intros k u H. cbn in H. rewrite lookup_empty in H. discriminate H.
    + intros k c H. cbn in H. rewrite lookup_empty in H. discriminate H.
  - replace s' with (snd (serve_certs day shop_world 0%nat fresh)) by (rewrite E; reflexivity). vm_compute. reflexivity.
Defined.
