(* ===== verification/Integrity.v ===== *)
(** The integrity report (services/api-gateway/graph/resolvers/integrity.go):
    editor snapshots, and [buildReport], which turns the evidence gathered
    during a test into a risk rating per candidate.

    [buildReport] only reads: [Evidence] is what its queries return, [None] a
    query that failed.  The report is passed from step to step, as the code
    changes it in place.  The order in which Go ranges over a map, and
    [sort.Slice], which is not stable, are the interface [GoRuntime]. *)

From S2P Require Import Prelude GoStrings Float64 Strconv GoTime Json Similarity Gateway.
From Stdlib Require Import Ascii.

#[local] Open Scope Z_scope.

Class GoRuntime := {
  range_keys : nat → gset string → list string;   (* the loop's number first *)
  sort_slice {A : Type} : (A → A → bool) → list A → list A;
}.

Class GoRuntimeLaws (R : GoRuntime) : Prop := {
  range_keys_perm k s : range_keys k s ≡ₚ base.elements s;
  sort_slice_perm {A} (less : A → A → bool) l : sort_slice less l ≡ₚ l;
  sort_slice_sorted {A} (less : A → A → bool) l :
    (∀ a b, less a b = true → less b a = false) →
    (∀ a b c, less b a = false → less c b = false → less c a = false) →
    StronglySorted (λ a b, less b a = false) (sort_slice less l);
}.

(** [less] for the greater key first. *)
Definition by_desc {A} (key : A → Z) (a b : A) : bool := key b <? key a.

(** ** Snapshots of the editor *)

(** How many runes stand alike at the front of both. *)
Fixpoint common_prefix (a b : list Z) : nat :=
  match a, b with
  | x :: a', y :: b' => if x =? y then S (common_prefix a' b') else O
  | _, _ => O
  end.

Definition insertedChars (prev next : string) : Z :=
  let a := runes prev in let b := runes next in
  let p := common_prefix a b in
  let s := common_prefix (rev (skipn p a)) (rev (skipn p b)) in
  Z.of_nat (length b - p - s).

Record snapshotIn := {
  sn_At : Z;      (* milliseconds since 1970, the client's clock *)
  sn_Language : string;
  sn_Code : string;
  sn_Reason : string;
}.

Definition maxSnapshotsPerCall : nat := 200.
Definition maxSnapshotsPerQuestion : Z := 3000.
Definition maxSnapshotBytes : Z := 102400.

(** A row of code_snapshots. *)
Record SnapshotRow := {
  sr_at : Z;
  sr_language : string;
  sr_code : string;
  sr_reason : string;
  sr_chars_added : Z;
}.

Definition minute : Z := 60 * 10 ^ 9.

Definition snapshot_at (now at_ms : Z) : Z :=
  let t := at_ms * 10 ^ 6 in
  if (at_ms =? 0) || (now + minute <? t) || (t <? now - 6 * 60 * minute) then now else t.

Definition snapshot_reason (reason : string) : string :=
  if existsb (String.eqb reason) ["start"; "edit"; "language"; "run"; "submit"] then reason else "edit".

(** The loop that queues the rows of one call. *)
Fixpoint snapshot_rows (now : Z) (prev : string) (stored : Z) (ss : list snapshotIn) : list SnapshotRow :=
  match ss with
  | [] => []
  | s :: t =>
      if maxSnapshotsPerQuestion <=? stored then []
      else
        let code := if maxSnapshotBytes <? byte_length (sn_Code s)
                    then first_bytes maxSnapshotBytes (sn_Code s) else sn_Code s in
        {| sr_at := snapshot_at now (sn_At s); sr_language := clip (sn_Language s) 20; sr_code := code;
           sr_reason := snapshot_reason (sn_Reason s); sr_chars_added := insertedChars prev code |}
        :: snapshot_rows now code (stored + 1) t
  end.

Definition snapshots_batch (now : Z) (prev : string) (stored : Z) (ss : list snapshotIn) : list SnapshotRow :=
  snapshot_rows now prev stored (firstn maxSnapshotsPerCall ss).

(** [fnv.New32a] *)
Definition fnv32a (bs : bytes) : Z :=
  fold_left (λ h b, (Z.lxor h (ru b) * 16777619) mod 2 ^ 32) bs 2166136261.

Definition base36_digit (d : Z) : ascii :=
  ascii_of_nat (Z.to_nat (if d <? 10 then 48 + d else 87 + d)).

Fixpoint base36 (fuel : nat) (n : Z) (acc : bytes) : bytes :=
  match fuel with
  | O => acc
  | S f => let acc := base36_digit (n mod 36) :: acc in if n / 36 =? 0 then acc else base36 f (n / 36) acc
  end.

Definition trapToken (attemptID questionID : string) : string :=
  of_bytes (to_bytes "kv_" ++ base36 7 (fnv32a (to_bytes (attemptID +:+ ":" +:+ questionID))) []).

(** ** The report *)

Record person := { p_AttemptID : string; p_Name : string; p_Email : string }.
Record signal := { sg_Severity : string; sg_Text : string; sg_Points : Z }.
Record attemptRisk := {
  ar_person : person;
  ar_Status : string;
  ar_IntegrityScore : float64;
  ar_Risk : string;
  ar_RiskPoints : Z;
  ar_Signals : list signal;
  ar_IPs : list string;
  ar_Sessions : Z;
}.
Record similarPair := {
  si_QuestionTitle : string; si_Language : string; si_A : person; si_B : person; si_Percent : Z;
}.
Record collusionPair := { co_A : person; co_B : person; co_SharedWrong : Z; co_BothWrong : Z }.
Record sharedIP := { ip_IP : string; ip_People : list person }.
Record integrityReport := {
  rp_Attempts : list attemptRisk;
  rp_Similarity : list similarPair;
  rp_Collusion : list collusionPair;
  rp_SharedIPs : list sharedIP;
}.

Definition simReport : Z := 60.
Definition simHigh : Z := 85.
Definition burstMinChars : Z := 100.
Definition burstCharsPerSec : float64 := of_Z 12.

Definition with_attempts (rep : integrityReport) (l : list attemptRisk) : integrityReport :=
  {| rp_Attempts := l; rp_Similarity := rp_Similarity rep; rp_Collusion := rp_Collusion rep;
     rp_SharedIPs := rp_SharedIPs rep |}.

Definition attempt_id (ar : attemptRisk) : string := p_AttemptID (ar_person ar).

(** [byID]: the attempts of the report by their id, a primary key. *)
Definition byID (rep : integrityReport) (id : string) : option attemptRisk :=
  find (λ ar, String.eqb (attempt_id ar) id) (rp_Attempts rep).

Definition at_attempt (id : string) (f : attemptRisk → attemptRisk) (rep : integrityReport) : integrityReport :=
  with_attempts rep (map (λ ar, if String.eqb (attempt_id ar) id then f ar else ar) (rp_Attempts rep)).

Definition set_signals (ar : attemptRisk) (l : list signal) : attemptRisk :=
  {| ar_person := ar_person ar; ar_Status := ar_Status ar; ar_IntegrityScore := ar_IntegrityScore ar;
     ar_Risk := ar_Risk ar; ar_RiskPoints := ar_RiskPoints ar; ar_Signals := l; ar_IPs := ar_IPs ar;
     ar_Sessions := ar_Sessions ar |}.

Definition set_network (ar : attemptRisk) (ips : list string) (n : Z) : attemptRisk :=
  {| ar_person := ar_person ar; ar_Status := ar_Status ar; ar_IntegrityScore := ar_IntegrityScore ar;
     ar_Risk := ar_Risk ar; ar_RiskPoints := ar_RiskPoints ar; ar_Signals := ar_Signals ar; ar_IPs := ips;
     ar_Sessions := n |}.

(** [add] *)
Definition add (id sev text : string) (pts : Z) (rep : integrityReport) : integrityReport :=
  at_attempt id (λ ar, set_signals ar (ar_Signals ar ++
    [{| sg_Severity := sev; sg_Text := text; sg_Points := pts |}])) rep.

(** ** Helpers *)

Definition sevRank (s : string) : Z :=
  if String.eqb s "high" then 3 else if String.eqb s "medium" then 2 else 1.

Definition sort_ints (xs : list Z) : list Z := order_by Z.leb xs.

Definition median (xs : list Z) : Z := nth (length xs / 2) (sort_ints xs) 0.

Definition pad2 (n : Z) : string := if (0 <=? n) && (n <? 10) then "0" +:+ format_int n else format_int n.

Definition dur (ms : Z) : string :=
  let s := Z.quot ms 1000 in
  if s <? 60 then format_int s +:+ "s"
  else format_int (Z.quot s 60) +:+ "m " +:+ pad2 (Z.rem s 60) +:+ "s".

Fixpoint split_byte (sep : ascii) (s : bytes) : list bytes :=
  match s with
  | [] => [[]]
  | c :: t =>
      if Ascii.eqb c sep then [] :: split_byte sep t
      else match split_byte sep t with w :: ws => (c :: w) :: ws | [] => [[c]] end
  end.

Fixpoint join_byte (sep : ascii) (ws : list bytes) : bytes :=
  match ws with
  | [] => []
  | [w] => w
  | w :: ws' => w ++ sep :: join_byte sep ws'
  end.

Definition sortedCSV (s : string) : string :=
  of_bytes (join_byte "," (map to_bytes (sort_strings (map of_bytes (split_byte "," (to_bytes s)))))).

Definition nameOf (p : person) : string := if String.eqb (p_Name p) "" then p_Email p else p_Name p.

Definition contains (xs : list string) (s : string) : bool := existsb (String.eqb s) xs.

Definition plural (n : Z) : string := if n =? 1 then "" else "s".

Definition upper_byte (a : ascii) : ascii :=
  if ((97 <=? code a) && (code a <=? 122))%nat then ascii_of_nat (code a - 32) else a.

Definition capitalize (s : string) : string :=
  match to_bytes s with c :: t => of_bytes (upper_byte c :: t) | [] => s end.

Definition filterPairs (all : list similarPair) (attemptID : string) : list similarPair :=
  filter (λ p, p_AttemptID (si_A p) = attemptID ∨ p_AttemptID (si_B p) = attemptID) all.

(** [strings.Contains] *)
Fixpoint contains_bytes (sub s : bytes) : bool :=
  bool_decide (sub `prefix_of` s) || match s with [] => false | _ :: t => contains_bytes sub t end.

(** ** Evidence: the rows of the queries *)

Record AttemptRowI := {
  ai_id : string; ai_name : string; ai_email : string; ai_status : string; ai_integrity : float64;
}.
Record answer := {
  an_attempt : string; an_question : string; an_problem : string; an_title : string;
  an_lang : string; an_code : string; an_marks : float64; an_awarded : float64; an_spentMs : Z;
}.
Record starterRow := {
  st_problem : string; st_javascript : string; st_python : string; st_java : string;
  st_cpp : string; st_go : string;
}.
Record historyRow := { hi_attempt : string; hi_question : string; hi_steps : Z; hi_bursts : Z }.
Record burstRow := {
  bu_attempt : string; bu_question : string; bu_added : Z; bu_gap : float64; bu_afterTab : bool;
}.
Record mcqRow := {
  mc_attempt : string; mc_question : string; mc_sel : string; mc_awarded : float64; mc_marks : float64;
  mc_ms : Z;
}.

Record Evidence := {
  ev_attempts : option (list AttemptRowI);
  ev_proctor : option (list (string * string * Z));     (* attempt, kind, count *)
  ev_sessions : option (list (string * string * Z));    (* attempt, address, sessions *)
  ev_answers : option (list answer);
  ev_starters : option (list starterRow);
  ev_histories : option (list historyRow);
  ev_marked : option (list (string * string * string)); (* attempt, question, a snapshot with a marker *)
  ev_bursts : option (list burstRow);
  ev_mcq : option (list mcqRow);
}.

Definition new_risk (a : AttemptRowI) : attemptRisk :=
  {| ar_person := {| p_AttemptID := ai_id a; p_Name := ai_name a; p_Email := ai_email a |};
     ar_Status := ai_status a; ar_IntegrityScore := ai_integrity a; ar_Risk := ""; ar_RiskPoints := 0;
     ar_Signals := []; ar_IPs := []; ar_Sessions := 0 |}.

(** ** Proctor tallies, status, network *)

Definition labels : list (string * string) := [
  ("tab_blur", "left the test tab"); ("fullscreen_exit", "left full screen"); ("paste", "tried to paste");
  ("copy", "tried to copy"); ("devtools", "opened developer tools"); ("multi_monitor", "used a second monitor");
  ("window_resized", "shrank the test window"); ("screenshot", "pressed Print Screen");
  ("duplicate_session", "opened the test on a second tab or device"); ("ip_change", "changed network mid-test");
  ("camera_off", "turned the camera off"); ("camera_denied", "refused the camera");
  ("multi_face", "had more than one face on camera"); ("no_face", "left the camera");
  ("voice_detected", "was talking"); ("disconnect", "went offline")].

Definition label_of (kind : string) : option string :=
  snd <$> find (λ l, String.eqb (fst l) kind) labels.

Definition one_of (s : string) (l : list string) : bool := existsb (String.eqb s) l.

Definition proctor_signal (row : string * string * Z) (rep : integrityReport) : integrityReport :=
  let '(id, kind, n) := row in
  match label_of kind with
  | None => rep
  | Some label =>
      if one_of kind ["duplicate_session"; "devtools"; "multi_monitor"] then
        add id "medium" (capitalize label +:+ " (" +:+ format_int n +:+ "×)") 20 rep
      else if one_of kind ["tab_blur"; "fullscreen_exit"; "paste"; "screenshot"; "camera_off"; "multi_face"] then
        if 3 <=? n then add id "medium" (capitalize label +:+ " " +:+ format_int n +:+ " times") 10 rep
        else add id "low" (capitalize label +:+ " " +:+ format_int n +:+ " time" +:+ plural n) 3 rep
      else add id "low" (capitalize label +:+ " (" +:+ format_int n +:+ "×)") 2 rep
  end.

(** The rows of a query, one after another; nothing when it failed. *)
Definition each {A} (f : A → integrityReport → integrityReport) (rows : option (list A))
    (rep : integrityReport) : integrityReport :=
  fold_left (λ rep row, f row rep) (default [] rows) rep.

Definition status_signal (ar : attemptRisk) (rep : integrityReport) : integrityReport :=
  if String.eqb (ar_Status ar) "disqualified" then
    add (attempt_id ar) "high" "Disqualified by the proctor (tab-switch limit reached)" 60 rep
  else if fltb (ar_IntegrityScore ar) (of_Z 60) then
    add (attempt_id ar) "medium"
      ("Low integrity score (" +:+ format_fixed 0 (ar_IntegrityScore ar) +:+ "/100)") 20 rep
  else rep.

Definition session_row (row : string * string * Z) (rep : integrityReport) : integrityReport :=
  let '(id, ip, n) := row in
  at_attempt id (λ ar,
    set_network ar
      (if negb (String.eqb ip "") && negb (contains (ar_IPs ar) ip) then ar_IPs ar ++ [ip] else ar_IPs ar) n) rep.

(** [ipPeople] *)
Definition ip_row (m : gmap string (gset string)) (row : string * string * Z) : gmap string (gset string) :=
  let '(id, ip, _) := row in
  if String.eqb ip "" then m else <[ip := {[id]} ∪ default ∅ (m !! ip)]> m.

Definition people_of (rep : integrityReport) (ids : list string) : list person :=
  omap (λ id, ar_person <$> byID rep id) ids.

Section Report.
Context {U : Unicode} {G : GoRuntime}.

(** [sort.Slice] by a name, ascending. *)
Definition sort_people (l : list person) : list person := sort_slice (key_less p_Name) l.

Definition shared_ip (m : gmap string (gset string)) (ip : string) (rep : integrityReport) : integrityReport :=
  let ids := default ∅ (m !! ip) in
  if (size ids <? 2)%nat then rep
  else
    let others := Z.of_nat (size ids) - 1 in
    let rep := {| rp_Attempts := rp_Attempts rep; rp_Similarity := rp_Similarity rep;
                  rp_Collusion := rp_Collusion rep;
                  rp_SharedIPs := rp_SharedIPs rep ++
                    [{| ip_IP := ip; ip_People := sort_people (people_of rep (range_keys 1 ids)) |}] |} in
    if (size ids <=? 4)%nat then
      fold_left (λ rep id, add id "low" ("Same network as " +:+ format_int others +:+ " other candidate" +:+
        plural others +:+ " (" +:+ ip +:+ ")") 8 rep) (range_keys 2 ids) rep
    else rep.

Definition network_signals (rows : option (list (string * string * Z))) (rep : integrityReport) : integrityReport :=
  let rep := each session_row rows rep in
  let m := fold_left ip_row (default [] rows) ∅ in
  let rep := fold_left (λ rep ip, shared_ip m ip rep) (range_keys 3 (dom m)) rep in
  {| rp_Attempts := rp_Attempts rep; rp_Similarity := rp_Similarity rep; rp_Collusion := rp_Collusion rep;
     rp_SharedIPs := sort_slice (by_desc (λ i, Z.of_nat (length (ip_People i)))) (rp_SharedIPs rep) |}.

(** ** Code *)

Definition bar (a b : string) : string := a +:+ "|" +:+ b.

(** [starters[problem][lang]]: a missing entry is the empty string. *)
Definition starter_code (rows : option (list starterRow)) (problem lang : string) : string :=
  match find (λ s, String.eqb (st_problem s) problem) (rev (default [] rows)) with
  | None => ""
  | Some s =>
      if String.eqb lang "javascript" then st_javascript s
      else if String.eqb lang "python" then st_python s
      else if String.eqb lang "java" then st_java s
      else if String.eqb lang "cpp" then st_cpp s
      else if String.eqb lang "go" then st_go s
      else ""
  end.

(** [written[attempt|question]] *)
Definition written (rows : option (list historyRow)) (a : answer) : option historyRow :=
  find (λ h, String.eqb (bar (hi_attempt h) (hi_question h)) (bar (an_attempt a) (an_question a)))
    (rev (default [] rows)).

Definition typedByHand (rows : option (list historyRow)) (a : answer) : bool :=
  match written rows a with Some h => (hi_bursts h =? 0) && (3 <=? hi_steps h) | None => false end.

Definition pasted (rows : option (list historyRow)) (a : answer) : bool :=
  match written rows a with Some h => 0 <? hi_bursts h | None => false end.

Definition printed : Type := answer * gset Z.

Definition group_key (a : answer) : string := bar (an_problem a) (an_lang a).

Definition is_blank (s : string) : bool := String.eqb (trim_space s) "".

Definition print_of (starters : option (list starterRow)) (a : answer) : gset Z :=
  without (simFingerprint (an_code a) (an_lang a))
    (simFingerprint (starter_code starters (an_problem a) (an_lang a)) (an_lang a)).

(** [groups], and the answers that go into one. *)
Definition group_of (starters : option (list starterRow)) (answers : list answer) (key : string) : list printed :=
  map (λ a, (a, print_of starters a))
    (filter (λ a, is_blank (an_code a) = false ∧ group_key a = key) answers).

Definition group_keys (answers : list answer) : gset string :=
  list_to_set (map group_key (filter (λ a, is_blank (an_code a) = false) answers)).

Definition flag (hist : option (list historyRow)) (pct : Z) (sev : string) (pts : Z)
    (self other : answer) (other_name : string) (rep : integrityReport) : integrityReport :=
  if typedByHand hist self && pasted hist other then
    add (an_attempt self) "medium"
      ("Code " +:+ format_int pct +:+ "% similar to " +:+ other_name +:+ " on “" +:+ an_title self +:+
       "” — this candidate typed it step by step, " +:+ other_name +:+ "'s arrived at once: likely the source") 20 rep
  else
    add (an_attempt self) sev
      ("Code " +:+ format_int pct +:+ "% similar to " +:+ other_name +:+ " on “" +:+ an_title self +:+ "”") pts rep.

(** The body of the loop over pairs. *)
Definition compare_pair (hist : option (list historyRow)) (x y : printed) (rep : integrityReport) : integrityReport :=
  let '(pct, ok) := simScore (snd x) (snd y) in
  if negb ok || (pct <? simReport) then rep
  else
    match byID rep (an_attempt (fst x)), byID rep (an_attempt (fst y)) with
    | Some pa, Some pb =>
        let rep := {| rp_Attempts := rp_Attempts rep;
                      rp_Similarity := rp_Similarity rep ++
                        [{| si_QuestionTitle := an_title (fst x); si_Language := an_lang (fst x);
                            si_A := ar_person pa; si_B := ar_person pb; si_Percent := pct |}];
                      rp_Collusion := rp_Collusion rep; rp_SharedIPs := rp_SharedIPs rep |} in
        let '(sev, pts) := if simHigh <=? pct then ("high", 60) else ("medium", 30) in
        flag hist pct sev pts (fst y) (fst x) (nameOf (ar_person pa))
          (flag hist pct sev pts (fst x) (fst y) (nameOf (ar_person pb)) rep)
    | _, _ => rep
    end.

(** [for i ... for j := i + 1 ...] over a list. *)
Fixpoint each_pair {A} (f : A → A → integrityReport → integrityReport) (l : list A)
    (rep : integrityReport) : integrityReport :=
  match l with
  | [] => rep
  | x :: t => each_pair f t (fold_left (λ rep y, f x y rep) t rep)
  end.

Definition similarity_signals (starters : option (list starterRow)) (hist : option (list historyRow))
    (answers : list answer) (rep : integrityReport) : integrityReport :=
  let rep := fold_left (λ rep key, each_pair (compare_pair hist) (group_of starters answers key) rep)
    (range_keys 4 (group_keys answers)) rep in
  {| rp_Attempts := rp_Attempts rep; rp_Similarity := sort_slice (by_desc si_Percent) (rp_Similarity rep);
     rp_Collusion := rp_Collusion rep; rp_SharedIPs := rp_SharedIPs rep |}.

(** [titleOf] *)
Definition titleOf (answers : list answer) (key : string) : string :=
  match find (λ a, String.eqb (bar (an_attempt a) (an_question a)) key) (rev answers) with
  | Some a => an_title a
  | None => ""
  end.

Definition has_trap (code attempt question : string) : bool :=
  contains_bytes (to_bytes (trapToken attempt question)) (to_bytes code).

(** [trapHit] *)
Definition trapHit (answers : list answer) (marked : option (list (string * string * string))) : gset string :=
  list_to_set (map (λ a, bar (an_attempt a) (an_question a))
    (filter (λ a, has_trap (an_code a) (an_attempt a) (an_question a) = true) answers)) ∪
  list_to_set (map (λ '(aid, qid, _), bar aid qid)
    (filter (λ '(aid, qid, code), has_trap code aid qid = true) (default [] marked))).

(** [strings.SplitN(k, "|", 2)[0]] *)
Definition before_bar (k : string) : string := of_bytes (hd [] (split_byte "|" (to_bytes k))).

Definition trap_signals (answers : list answer) (marked : option (list (string * string * string)))
    (rep : integrityReport) : integrityReport :=
  fold_left (λ rep k, add (before_bar k) "high" ("Answer to “" +:+ titleOf answers k +:+
    "” contains the hidden marker from the question — it was likely copied into an AI tool") 100 rep)
    (range_keys 5 (trapHit answers marked)) rep.

(** At most three bursts are reported of each attempt. *)
Fixpoint burst_signals (answers : list answer) (count : gmap string Z) (rows : list burstRow)
    (rep : integrityReport) : integrityReport :=
  match rows with
  | [] => rep
  | b :: t =>
      if fltb (of_Z 0) (bu_gap b) && fltb (fdiv (of_Z (bu_added b)) (bu_gap b)) burstCharsPerSec then
        burst_signals answers count t rep
      else
        let n := default 0 (count !! bu_attempt b) + 1 in
        let count := <[bu_attempt b := n]> count in
        if 3 <? n then burst_signals answers count t rep
        else
          let text := format_int (bu_added b) +:+ " characters of code appeared at once on “" +:+
            titleOf answers (bar (bu_attempt b) (bu_question b)) +:+ "”" in
          burst_signals answers count t
            (if bu_afterTab b then add (bu_attempt b) "medium" (text +:+ ", straight after leaving the tab") 30 rep
             else add (bu_attempt b) "low" text 12 rep)
  end.

(** [spent[problem]]: the times of the answers with full marks. *)
Definition cohort (answers : list answer) (problem : string) : list Z :=
  map an_spentMs (filter (λ a, fltb (of_Z 0) (an_marks a) && fleb (an_marks a) (an_awarded a) &&
    (0 <? an_spentMs a) && String.eqb (an_problem a) problem = true) answers).

Definition speed_signal (answers : list answer) (a : answer) (rep : integrityReport) : integrityReport :=
  let times := cohort answers (an_problem a) in
  if feqb (an_marks a) (of_Z 0) || fltb (an_awarded a) (an_marks a) || (an_spentMs a =? 0) ||
     (length times <? 4)%nat then rep
  else
    let med := median times in
    if (120000 <=? med) && (an_spentMs a * 4 <? med) then
      add (an_attempt a) "medium" ("Solved “" +:+ an_title a +:+ "” in " +:+ dur (an_spentMs a) +:+
        " — the others needed about " +:+ dur med) 20 rep
    else rep.

Definition codeSignals (ev : Evidence) (rep : integrityReport) : option integrityReport :=
  answers ← ev_answers ev;
  let rep := similarity_signals (ev_starters ev) (ev_histories ev) answers rep in
  let rep := trap_signals answers (ev_marked ev) rep in
  let rep := burst_signals answers ∅ (default [] (ev_bursts ev)) rep in
  Some (fold_left (λ rep a, speed_signal answers a rep) answers rep).

(** ** Multiple choice *)

Record pick := { pk_sel : string; pk_correct : bool }.
Record pace := { pc_answered : Z; pc_correct : Z; pc_ms : Z }.

Definition fully_right (r : mcqRow) : bool := fleb (mc_marks r) (mc_awarded r) && fltb (of_Z 0) (mc_marks r).

(** [answers] and [paces], from the rows with a selection. *)
Definition pick_row (m : gmap string (gmap string pick)) (r : mcqRow) : gmap string (gmap string pick) :=
  if String.eqb (mc_sel r) "" then m
  else <[mc_attempt r := <[mc_question r := {| pk_sel := sortedCSV (mc_sel r); pk_correct := fully_right r |}]>
          (default ∅ (m !! mc_attempt r))]> m.

Definition pace_row (m : gmap string pace) (r : mcqRow) : gmap string pace :=
  if String.eqb (mc_sel r) "" then m
  else
    let p := default {| pc_answered := 0; pc_correct := 0; pc_ms := 0 |} (m !! mc_attempt r) in
    <[mc_attempt r := {| pc_answered := pc_answered p + 1;
                         pc_correct := pc_correct p + (if fully_right r then 1 else 0);
                         pc_ms := pc_ms p + mc_ms r |}]> m.

(** The questions both answered, both wrong, and those of them with the same
    selection. *)
Definition wrong_pair (pa pb : option pick) : option (pick * pick) :=
  match pa, pb with
  | Some pa, Some pb => if pk_correct pa || pk_correct pb then None else Some (pa, pb)
  | _, _ => None
  end.

Definition both_wrong (a b : gmap string pick) : gmap string (pick * pick) := merge wrong_pair a b.

Definition same_wrong (a b : gmap string pick) : gmap string (pick * pick) :=
  filter (λ p, pk_sel (fst (snd p)) = pk_sel (snd (snd p))) (both_wrong a b).

Definition collude (same bothWrong : Z) : bool := (3 <=? same) && (bothWrong * 7 <=? same * 10).

Definition compare_picks (answers : gmap string (gmap string pick)) (x y : string)
    (rep : integrityReport) : integrityReport :=
  let a := default ∅ (answers !! x) in let b := default ∅ (answers !! y) in
  let bothWrong := Z.of_nat (size (both_wrong a b)) in
  let same := Z.of_nat (size (same_wrong a b)) in
  if collude same bothWrong then
    match byID rep x, byID rep y with
    | Some pa, Some pb =>
        let rep := {| rp_Attempts := rp_Attempts rep; rp_Similarity := rp_Similarity rep;
                      rp_Collusion := rp_Collusion rep ++
                        [{| co_A := ar_person pa; co_B := ar_person pb; co_SharedWrong := same;
                            co_BothWrong := bothWrong |}];
                      rp_SharedIPs := rp_SharedIPs rep |} in
        let text p := "Chose the same wrong answer as " +:+ nameOf p +:+ " on " +:+ format_int same +:+
          " of " +:+ format_int bothWrong +:+ " questions" in
        add (attempt_id pb) "high" (text (ar_person pa)) 45
          (add (attempt_id pa) "high" (text (ar_person pb)) 45 rep)
    | _, _ => rep
    end
  else rep.

Definition average (p : pace) : Z := Z.quot (pc_ms p) (pc_answered p).

Definition averages (paces : gmap string pace) (order : list string) : list Z :=
  omap (λ aid, p ← paces !! aid; if (5 <=? pc_answered p) && (0 <? pc_ms p) then Some (average p) else None) order.

Definition pace_signal (paces : gmap string pace) (med : Z) (aid : string) (rep : integrityReport) : integrityReport :=
  match paces !! aid with
  | None => rep
  | Some p =>
      if (pc_answered p <? 5) || (pc_ms p =? 0) then rep
      else if (average p * 4 <? med) && (pc_answered p * 8 <=? pc_correct p * 10) then
        add aid "medium" ("Answered " +:+ format_int (pc_correct p) +:+ "/" +:+ format_int (pc_answered p) +:+
          " multiple-choice questions correctly at " +:+ dur (average p) +:+ " each — the group took about " +:+
          dur med) 20 rep
      else rep
  end.

Definition mcqSignals (ev : Evidence) (rep : integrityReport) : option integrityReport :=
  rows ← ev_mcq ev;
  let answers := fold_left pick_row rows ∅ in
  let paces := fold_left pace_row rows ∅ in
  let rep := each_pair (compare_picks answers) (sort_strings (base.elements (dom answers))) rep in
  let rep := {| rp_Attempts := rp_Attempts rep; rp_Similarity := rp_Similarity rep;
                rp_Collusion := sort_slice (by_desc co_SharedWrong) (rp_Collusion rep);
                rp_SharedIPs := rp_SharedIPs rep |} in
  let avgs := averages paces (range_keys 6 (dom paces)) in
  Some (if (5 <=? length avgs)%nat
        then fold_left (λ rep aid, pace_signal paces (median avgs) aid rep) (range_keys 7 (dom paces)) rep
        else rep).

(** ** The rating *)

(** [sort.SliceStable] by a key, the greatest first. *)
Definition stable_desc {A} (key : A → Z) (l : list A) : list A := order_by (λ a b, key b <=? key a) l.

Definition sum_points (l : list signal) : Z := foldr (λ s n, sg_Points s + n) 0 l.

Definition risk_of (points : Z) : string :=
  if 60 <=? points then "high" else if 25 <=? points then "medium" else "low".

Definition rate (ar : attemptRisk) : attemptRisk :=
  let signals := stable_desc (λ s, sevRank (sg_Severity s)) (ar_Signals ar) in
  let points := ar_RiskPoints ar + sum_points signals in
  {| ar_person := ar_person ar; ar_Status := ar_Status ar; ar_IntegrityScore := ar_IntegrityScore ar;
     ar_Risk := risk_of points; ar_RiskPoints := points; ar_Signals := signals; ar_IPs := ar_IPs ar;
     ar_Sessions := ar_Sessions ar |}.

Definition rate_all (rep : integrityReport) : integrityReport :=
  with_attempts rep (stable_desc ar_RiskPoints (map rate (rp_Attempts rep))).

Definition buildReport (ev : Evidence) : option integrityReport :=
  attempts ← ev_attempts ev;
  let rep := {| rp_Attempts := map new_risk attempts; rp_Similarity := []; rp_Collusion := []; rp_SharedIPs := [] |} in
  match attempts with
  | [] => Some rep
  | _ =>
      let rep := each proctor_signal (ev_proctor ev) rep in
      let rep := fold_left (λ rep ar, status_signal ar rep) (rp_Attempts rep) rep in
      let rep := network_signals (ev_sessions ev) rep in
      rep ← codeSignals ev rep;
      rep ← mcqSignals ev rep;
      Some (rate_all rep)
  end.
End Report.

(** ** Steps of the report only add evidence *)

(** [b] is [a] with more signals, none of negative weight. *)
Definition risk_grows (a b : attemptRisk) : Prop :=
  ar_person b = ar_person a ∧ ar_RiskPoints b = ar_RiskPoints a ∧
  ∃ l, ar_Signals b = ar_Signals a ++ l ∧ Forall (λ s, 0 ≤ sg_Points s) l.

#[export] Instance risk_grows_preorder : PreOrder risk_grows.
Proof.
  split.
  - intros a. repeat split. exists []. split; [by rewrite app_nil_r|constructor].
  - intros a b c (P & R & l & S & F) (P' & R' & l' & S' & F').
    split; [congruence|split; [congruence|]]. exists (l ++ l'). rewrite S', S, <- app_assoc.
    split; [done|by apply Forall_app].
Qed.

Definition grows (r s : integrityReport) : Prop :=
  Forall2 risk_grows (rp_Attempts r) (rp_Attempts s) ∧
  (∀ p, p ∈ rp_Similarity r → p ∈ rp_Similarity s) ∧ (∀ p, p ∈ rp_Collusion r → p ∈ rp_Collusion s).

#[export] Instance grows_preorder : PreOrder grows.
Proof.
  split.
  - intros r. by repeat split.
  - intros r s t (A & B & C) (A' & B' & C'). split; [by etrans|split; auto].
Qed.

Create HintDb grows.

Lemma at_attempt_grows id f rep : (∀ ar, risk_grows ar (f ar)) → grows rep (at_attempt id f rep).
Proof.
  intros Hf. split; [|by split]. unfold at_attempt. cbn.
  induction (rp_Attempts rep) as [|ar l IH]; constructor; [|done].
  by destruct (String.eqb (attempt_id ar) id).
Qed.

Lemma add_grows id sev text pts rep : 0 ≤ pts → grows rep (add id sev text pts rep).
Proof.
  intros Hp. apply at_attempt_grows. intros ar. repeat split. eexists. split; [done|]. by repeat constructor.
Qed.

Lemma fold_grows {A} (f : integrityReport → A → integrityReport) l rep :
  (∀ r x, grows r (f r x)) → grows rep (fold_left f l rep).
Proof. intros Hf. revert rep. induction l as [|x l IH]; intros rep; [done|]. cbn. etrans; [apply Hf|apply IH]. Qed.

Lemma grows_lists r sims cols ips :
  (∀ p, p ∈ rp_Similarity r → p ∈ sims) → (∀ p, p ∈ rp_Collusion r → p ∈ cols) →
  grows r {| rp_Attempts := rp_Attempts r; rp_Similarity := sims; rp_Collusion := cols; rp_SharedIPs := ips |}.
Proof. intros Hs Hc. split; [done|by split]. Qed.

Ltac grow := first
  [ reflexivity
  | apply add_grows; lia
  | etrans; [|apply add_grows; lia]; grow ].

Lemma proctor_signal_grows row rep : grows rep (proctor_signal row rep).
Proof. destruct row as [[id kind] n]. unfold proctor_signal. repeat case_match; grow. Qed.

Lemma status_signal_grows ar rep : grows rep (status_signal ar rep).
Proof. unfold status_signal. repeat case_match; grow. Qed.

Lemma session_row_grows row rep : grows rep (session_row row rep).
Proof.
  destruct row as [[id ip] n]. apply at_attempt_grows. intros ar. repeat split. exists [].
  split; [by rewrite app_nil_r|constructor].
Qed.

Section Growth.
Context {U : Unicode} {G : GoRuntime} {GL : GoRuntimeLaws G}.

Lemma sort_slice_elem {A} (less : A → A → bool) l x : x ∈ l → x ∈ sort_slice less l.
Proof. intros H. by rewrite (sort_slice_perm less l). Qed.

Lemma shared_ip_grows m ip rep : grows rep (shared_ip m ip rep).
Proof.
  unfold shared_ip. destruct (size _ <? 2)%nat; [done|]. destruct (size _ <=? 4)%nat.
  - etrans; [|apply fold_grows; intros; grow]. by apply grows_lists.
  - by apply grows_lists.
Qed.

Lemma network_signals_grows rows rep : grows rep (network_signals rows rep).
Proof.
  unfold network_signals. etrans; [|apply grows_lists; done].
  etrans; [|apply fold_grows; intros; apply shared_ip_grows].
  apply fold_grows. intros. apply session_row_grows.
Qed.

Lemma flag_grows hist pct sev pts self other name rep :
  0 ≤ pts → grows rep (flag hist pct sev pts self other name rep).
Proof. intros Hp. unfold flag. case_match; grow. Qed.

Lemma compare_pair_grows hist x y rep : grows rep (compare_pair hist x y rep).
Proof.
  unfold compare_pair. destruct (simScore (snd x) (snd y)) as [pct ok].
  repeat case_match; simplify_eq; try done;
    (etrans; [|apply flag_grows; lia]; etrans; [|apply flag_grows; lia]; apply grows_lists; [|done];
     intros p Hp; rewrite elem_of_app; by left).
Qed.

Lemma each_pair_grows {A} (f : A → A → integrityReport → integrityReport) l rep :
  (∀ x y r, grows r (f x y r)) → grows rep (each_pair f l rep).
Proof.
  intros Hf. revert rep. induction l as [|x l IH]; intros rep; [done|]. cbn.
  etrans; [|apply IH]. by apply fold_grows.
Qed.

Lemma similarity_signals_grows starters hist answers rep :
  grows rep (similarity_signals starters hist answers rep).
Proof.
  unfold similarity_signals. etrans; [|apply grows_lists; [intros p; apply sort_slice_elem|done]].
  apply fold_grows. intros. apply each_pair_grows, compare_pair_grows.
Qed.

Lemma trap_signals_grows answers marked rep : grows rep (trap_signals answers marked rep).
Proof. apply fold_grows. intros. grow. Qed.

Lemma burst_signals_grows answers count rows rep : grows rep (burst_signals answers count rows rep).
Proof.
  revert count rep. induction rows as [|b t IH]; intros count rep; [done|]. cbn.
  repeat case_match; try apply IH; (etrans; [|apply IH]; grow).
Qed.

Lemma speed_signal_grows answers a rep : grows rep (speed_signal answers a rep).
Proof. unfold speed_signal. repeat case_match; grow. Qed.

Lemma codeSignals_grows ev rep rep' : codeSignals ev rep = Some rep' → grows rep rep'.
Proof.
  unfold codeSignals. destruct (ev_answers ev) as [answers|]; [|done]. intros [= <-].
  etrans; [|apply fold_grows; intros; apply speed_signal_grows].
  etrans; [|apply burst_signals_grows]. etrans; [|apply trap_signals_grows].
  apply similarity_signals_grows.
Qed.

Lemma compare_picks_grows answers x y rep : grows rep (compare_picks answers x y rep).
Proof.
  unfold compare_picks. repeat case_match; try done.
  etrans; [|apply add_grows; lia]. etrans; [|apply add_grows; lia]. apply grows_lists; [done|].
  intros p Hp. rewrite elem_of_app. by left.
Qed.

Lemma pace_signal_grows paces med aid rep : grows rep (pace_signal paces med aid rep).
Proof. unfold pace_signal. repeat case_match; grow. Qed.

Lemma mcqSignals_grows ev rep rep' : mcqSignals ev rep = Some rep' → grows rep rep'.
Proof.
  unfold mcqSignals. destruct (ev_mcq ev) as [rows|]; [|done]. intros [= <-].
  set (r0 := each_pair _ _ rep). assert (H : grows rep r0) by apply each_pair_grows, compare_picks_grows.
  etrans; [exact H|]. case_match.
  - etrans; [|apply fold_grows; intros; apply pace_signal_grows].
    apply grows_lists; [done|]. intros p. apply sort_slice_elem.
  - apply grows_lists; [done|]. intros p. apply sort_slice_elem.
Qed.
End Growth.

(** ** What the report says *)

(** The attempt carries a signal of weight [n] or more. *)
Definition flagged (rep : integrityReport) (id : string) (n : Z) : Prop :=
  ∃ ar s, byID rep id = Some ar ∧ s ∈ ar_Signals ar ∧ n ≤ sg_Points s.

Definition listed (rep : integrityReport) (id : string) : Prop := is_Some (byID rep id).

Lemma byID_grows r s id a : grows r s → byID r id = Some a → ∃ b, byID s id = Some b ∧ risk_grows a b.
Proof.
  intros (H & _). unfold byID. induction H as [|x y l k Hxy _ IH]; [done|]. cbn.
  destruct Hxy as (Hp & Hxy). unfold attempt_id in *. rewrite Hp.
  destruct (String.eqb (p_AttemptID (ar_person x)) id); [|done]. intros [= <-]. eexists. split; [done|by split].
Qed.

Lemma listed_grows r s id : grows r s → listed r id → listed s id.
Proof. intros Hg [a Ha]. destruct (byID_grows _ _ _ _ Hg Ha) as (b & Hb & _). by exists b. Qed.

Lemma flagged_grows r s id n : grows r s → flagged r id n → flagged s id n.
Proof.
  intros Hg (a & x & Ha & Hx & Hn). destruct (byID_grows _ _ _ _ Hg Ha) as (b & Hb & _ & _ & l & Hl & _).
  exists b, x. rewrite Hl. split_and!; [done|rewrite elem_of_app; by left|done].
Qed.

Lemma flagged_le r id m n : m ≤ n → flagged r id n → flagged r id m.
Proof. intros Hmn (a & x & Ha & Hx & Hn). exists a, x. split_and!; [done|done|lia]. Qed.

Lemma byID_at_attempt id f rep a :
  (∀ ar, attempt_id (f ar) = attempt_id ar) → byID rep id = Some a → byID (at_attempt id f rep) id = Some (f a).
Proof.
  intros Hf. unfold byID, at_attempt. cbn. induction (rp_Attempts rep) as [|x l IH]; [done|]. cbn.
  destruct (String.eqb (attempt_id x) id) eqn:E; cbn; rewrite ?Hf, E; [by intros [= ->]|done].
Qed.

Lemma add_flagged id sev text pts rep : listed rep id → flagged (add id sev text pts rep) id pts.
Proof.
  intros [a Ha]. eexists _, _. unfold add. erewrite byID_at_attempt by done. split; [done|].
  split; [apply elem_of_app; right; apply list_elem_of_here|done].
Qed.

Lemma fold_reaches {A} (f : integrityReport → A → integrityReport) l x rep :
  (∀ r y, grows r (f r y)) → x ∈ l → ∃ r, grows rep r ∧ grows (f r x) (fold_left f l rep).
Proof.
  intros Hf Hx. apply list_elem_of_split in Hx as (l1 & l2 & ->). rewrite fold_left_app. cbn.
  exists (fold_left f l1 rep). split; by apply fold_grows.
Qed.

Lemma each_pair_reaches {A} (f : A → A → integrityReport → integrityReport) l1 x l2 y l3 rep :
  (∀ x y r, grows r (f x y r)) →
  ∃ r, grows rep r ∧ grows (f x y r) (each_pair f (l1 ++ x :: l2 ++ y :: l3) rep).
Proof.
  intros Hf. revert rep. induction l1 as [|z l1 IH]; intros rep; cbn.
  - destruct (fold_reaches (λ rep y, f x y rep) (l2 ++ y :: l3) y rep) as (r & Hr & Hr');
      [intros; apply Hf|apply elem_of_app; right; apply list_elem_of_here|].
    exists r. split; [done|]. etrans; [exact Hr'|by apply each_pair_grows].
  - destruct (IH (fold_left (λ rep y0, f z y0 rep) (l1 ++ x :: l2 ++ y :: l3) rep)) as (r & Hr & Hr').
    exists r. split; [|done]. etrans; [|exact Hr]. apply fold_grows. intros. apply Hf.
Qed.

Lemma stable_desc_sorted {A} (key : A → Z) l : StronglySorted (λ a b, key b ≤ key a) (stable_desc key l).
Proof.
  unfold stable_desc. eapply strongly_sorted_weaken; [|apply (order_by_ordered _ (λ _, True))].
  - intros a b H. by apply Z.leb_le.
  - intros a b _ _ H. apply Z.leb_gt in H. apply Z.leb_le. lia.
  - intros a b c _ _ _ H H'. apply Z.leb_le in H, H'. apply Z.leb_le. lia.
  - by apply Forall_true.
Qed.

Definition start (attempts : list AttemptRowI) : integrityReport :=
  {| rp_Attempts := map new_risk attempts; rp_Similarity := []; rp_Collusion := []; rp_SharedIPs := [] |}.

Lemma start_listed attempts a : a ∈ attempts → listed (start attempts) (ai_id a).
Proof.
  unfold listed, byID, start. cbn. induction attempts as [|x l IH]; [by intros ?%elem_of_nil|].
  intros [->|Ha]%elem_of_cons; cbn; [by rewrite String.eqb_refl|]. by destruct (String.eqb _ _); [|apply IH].
Qed.

Lemma sum_points_perm l k : l ≡ₚ k → sum_points l = sum_points k.
Proof. unfold sum_points. induction 1; cbn in *; lia. Qed.

Lemma sum_points_ge l s : Forall (λ s, 0 ≤ sg_Points s) l → s ∈ l → sg_Points s ≤ sum_points l.
Proof.
  unfold sum_points. intros Hl Hs. assert (H0 : ∀ k, Forall (λ s, 0 ≤ sg_Points s) k → 0 ≤ foldr (λ s n, sg_Points s + n) 0 k)
    by (induction 1; cbn in *; lia).
  induction Hl as [|x k Hx Hk IH]; [by apply elem_of_nil in Hs|]. cbn.
  apply elem_of_cons in Hs as [->|Hs]; [specialize (H0 _ Hk)|specialize (IH Hs)]; lia.
Qed.

(** Every attempt before the rating is one of the rows, with the evidence
    gathered of it. *)
Lemma grown_attempt attempts rep ar :
  grows (start attempts) rep → ar ∈ rp_Attempts rep →
  ar_RiskPoints ar = 0 ∧ Forall (λ s, 0 ≤ sg_Points s) (ar_Signals ar).
Proof.
  intros (H & _) Har. apply list_elem_of_lookup in Har as (i & Hi).
  destruct (Forall2_lookup_r _ _ _ _ _ H Hi) as (a & Ha & _ & HR & l & HS & Hl).
  apply list_lookup_fmap_Some in Ha as (x & -> & _). by rewrite HR, HS.
Qed.

Lemma rate_points ar : ar_RiskPoints (rate ar) = ar_RiskPoints ar + sum_points (ar_Signals ar).
Proof. cbn. f_equal. apply sum_points_perm. unfold stable_desc. by rewrite order_by_perm. Qed.

Lemma flagged_rated attempts rep id n :
  grows (start attempts) rep → flagged rep id n →
  ∃ ar, ar ∈ rp_Attempts (rate_all rep) ∧ attempt_id ar = id ∧ n ≤ ar_RiskPoints ar ∧
    ar_Risk ar = risk_of (ar_RiskPoints ar).
Proof.
  intros Hg (a & s & Ha & Hs & Hn). apply find_some in Ha as [Hin Hid]. apply String.eqb_eq in Hid.
  apply list_elem_of_In in Hin. destruct (grown_attempt _ _ _ Hg Hin) as [H0 Hpos].
  exists (rate a). split_and!; [|done| |done].
  - unfold rate_all, stable_desc. cbn. rewrite order_by_perm. by apply list_elem_of_fmap_2.
  - rewrite rate_points. pose proof (sum_points_ge _ _ Hpos Hs). lia.
Qed.

Section Facts.
Context {U : Unicode} {G : GoRuntime} {GL : GoRuntimeLaws G}.

Lemma buildReport_inv ev out attempts :
  ev_attempts ev = Some attempts → attempts ≠ [] → buildReport ev = Some out →
  ∃ r0 r1 r2, grows (start attempts) r0 ∧ codeSignals ev r0 = Some r1 ∧ mcqSignals ev r1 = Some r2 ∧
    out = rate_all r2.
Proof.
  unfold buildReport. intros -> Hne H. cbn [mbind option_bind] in H. fold (start attempts) in H.
  destruct attempts as [|a l]; [done|]. set (r := network_signals _ _) in H. exists r.
  destruct (codeSignals ev r) as [r1|] eqn:E1; [|done]. cbn [mbind option_bind] in H.
  destruct (mcqSignals ev r1) as [r2|] eqn:E2; [|done]. cbn [mbind option_bind] in H.
  exists r1, r2. split_and!; [|done|done|congruence].
  unfold r. etrans; [|apply network_signals_grows]. etrans; [|apply fold_grows; intros; apply status_signal_grows].
  apply fold_grows. intros. apply proctor_signal_grows.
Qed.

Lemma flag_flagged hist pct sev pts self other name rep :
  listed rep (an_attempt self) →
  flagged (flag hist pct sev pts self other name rep) (an_attempt self)
    (if typedByHand hist self && pasted hist other then 20 else pts).
Proof. intros Hl. unfold flag. destruct (typedByHand hist self && pasted hist other); by apply add_flagged. Qed.

Definition pair_points (pct : Z) : Z := if simHigh <=? pct then 60 else 30.

(** A pair of similar answers is listed, both candidates are flagged, and at
    least one of them at full weight. *)
Lemma compare_pair_reports hist x y pct rep :
  simScore (snd x) (snd y) = (pct, true) → simReport ≤ pct →
  listed rep (an_attempt (fst x)) → listed rep (an_attempt (fst y)) →
  let out := compare_pair hist x y rep in
  (∃ p, p ∈ rp_Similarity out ∧ si_Percent p = pct ∧
     p_AttemptID (si_A p) = an_attempt (fst x) ∧ p_AttemptID (si_B p) = an_attempt (fst y)) ∧
  flagged out (an_attempt (fst x)) 20 ∧ flagged out (an_attempt (fst y)) 20 ∧
  (flagged out (an_attempt (fst x)) (pair_points pct) ∨ flagged out (an_attempt (fst y)) (pair_points pct)).
Proof.
  intros Hs Hp [a Ha] [b Hb]. unfold compare_pair. rewrite Hs, (proj2 (Z.ltb_ge _ _) Hp). cbn [negb orb].
  rewrite Ha, Hb. cbn zeta. set (r := Build_integrityReport _ _ _ _).
  assert (Hr : grows rep r) by (apply grows_lists; [|done]; intros p H; rewrite elem_of_app; by left).
  rewrite (surjective_pairing (if simHigh <=? pct then ("high", 60) else ("medium", 30))).
  assert (Epts : snd (if simHigh <=? pct then ("high", 60) else ("medium", 30)) = pair_points pct)
    by (unfold pair_points; by destruct (simHigh <=? pct)).
  rewrite Epts. set (sev := fst _). set (na := nameOf _). set (nb := nameOf _).
  assert (Hpts : 20 ≤ pair_points pct) by (unfold pair_points; destruct (simHigh <=? pct); lia).
  set (r1 := flag hist pct sev (pair_points pct) (fst x) (fst y) nb r).
  assert (Hr1 : grows r r1) by (apply flag_grows; lia).
  assert (Hr2 : grows r1 (flag hist pct sev (pair_points pct) (fst y) (fst x) na r1)) by (apply flag_grows; lia).
  assert (Fx := flag_flagged hist pct sev (pair_points pct) (fst x) (fst y) nb r
    ltac:(eapply listed_grows; [exact Hr|by eexists])).
  assert (Fy := flag_flagged hist pct sev (pair_points pct) (fst y) (fst x) na r1
    ltac:(eapply listed_grows; [etrans; [exact Hr|exact Hr1]|by eexists])).
  fold r1 in Fx. apply (flagged_grows _ _ _ _ Hr2) in Fx. split_and!.
  - eexists. split; [apply Hr2, Hr1; unfold r; cbn; apply elem_of_app; right; apply list_elem_of_here|].
    cbn. split; [done|]. apply find_some in Ha as [_ Ha]. apply find_some in Hb as [_ Hb].
    apply String.eqb_eq in Ha, Hb. by split.
  - refine (flagged_le _ _ _ _ _ Fx). destruct (typedByHand hist (fst x) && pasted hist (fst y)); lia.
  - refine (flagged_le _ _ _ _ _ Fy). destruct (typedByHand hist (fst y) && pasted hist (fst x)); lia.
  - unfold typedByHand, pasted in Fx, Fy. destruct (written hist (fst x)) as [h|], (written hist (fst y)) as [k|];
      rewrite ?andb_false_r in *; auto.
    destruct ((hi_bursts h =? 0) && (3 <=? hi_steps h) && (0 <? hi_bursts k)) eqn:E; [|by left].
    right. bool_to_prop. apply Z.ltb_lt in H0. rewrite (proj2 (Z.eqb_neq _ _)) in Fy by lia. exact Fy.
Qed.

(** The final report's entry of an attempt weighs [n] or more. *)
Definition rated (out : integrityReport) (id : string) (n : Z) : Prop :=
  ∃ ar, ar ∈ rp_Attempts out ∧ attempt_id ar = id ∧ n ≤ ar_RiskPoints ar ∧
    ar_Risk ar = risk_of (ar_RiskPoints ar).

Lemma group_of_pair starters l1 x l2 y l3 :
  is_blank (an_code x) = false → is_blank (an_code y) = false → group_key y = group_key x →
  ∃ k1 k2 k3, group_of starters (l1 ++ x :: l2 ++ y :: l3) (group_key x) =
    k1 ++ (x, print_of starters x) :: k2 ++ (y, print_of starters y) :: k3.
Proof.
  intros Hx Hy Hk. unfold group_of. rewrite !filter_app, filter_cons_True, filter_app, filter_cons_True by done.
  rewrite !map_app. cbn [map]. rewrite !map_app. cbn [map]. eauto.
Qed.

Lemma similarity_reaches starters hist l1 x l2 y l3 rep :
  is_blank (an_code x) = false → is_blank (an_code y) = false → group_key y = group_key x →
  ∃ r, grows rep r ∧
    grows (compare_pair hist (x, print_of starters x) (y, print_of starters y) r)
      (similarity_signals starters hist (l1 ++ x :: l2 ++ y :: l3) rep).
Proof.
  intros Hx Hy Hk. set (answers := l1 ++ x :: l2 ++ y :: l3).
  destruct (group_of_pair starters l1 x l2 y l3 Hx Hy Hk) as (k1 & k2 & k3 & Eg). fold answers in Eg.
  assert (Hin : group_key x ∈ range_keys 4 (group_keys answers)).
  { rewrite range_keys_perm, elem_of_elements. unfold group_keys, answers.
    rewrite elem_of_list_to_set, filter_app, filter_cons_True, map_app by done. set_solver. }
  destruct (fold_reaches (λ rep key, each_pair (compare_pair hist) (group_of starters answers key) rep)
    _ _ rep (λ r k, each_pair_grows _ _ _ (λ x y r, compare_pair_grows hist x y r)) Hin) as (r & Hr & Hr').
  rewrite Eg in Hr'.
  destruct (each_pair_reaches (compare_pair hist) k1 (x, print_of starters x) k2 (y, print_of starters y) k3 r
    (λ x y r, compare_pair_grows hist x y r)) as (s & Hs & Hs').
  exists s. split; [by etrans|]. unfold similarity_signals. etrans; [exact Hs'|]. etrans; [exact Hr'|].
  apply grows_lists; [|done]. intros p. apply sort_slice_elem.
Qed.

(** Two answers to one problem in one language whose codes score [simReport]
    or more end up in the report as a pair, and both candidates are rated; at
    [simHigh] or more, one of them at high risk. *)
Theorem similar_answers_reported ev out attempts answers l1 x l2 y l3 a b pct :
  buildReport ev = Some out → ev_attempts ev = Some attempts → ev_answers ev = Some answers →
  answers = l1 ++ x :: l2 ++ y :: l3 →
  a ∈ attempts → ai_id a = an_attempt x → b ∈ attempts → ai_id b = an_attempt y →
  an_problem x = an_problem y → an_lang x = an_lang y →
  is_blank (an_code x) = false → is_blank (an_code y) = false →
  simScore (print_of (ev_starters ev) x) (print_of (ev_starters ev) y) = (pct, true) → simReport ≤ pct →
  (∃ p, p ∈ rp_Similarity out ∧ si_Percent p = pct ∧
     p_AttemptID (si_A p) = an_attempt x ∧ p_AttemptID (si_B p) = an_attempt y) ∧
  rated out (an_attempt x) 20 ∧ rated out (an_attempt y) 20 ∧
  (rated out (an_attempt x) (pair_points pct) ∨ rated out (an_attempt y) (pair_points pct)).
Proof.
  intros Hb Ha Han Hl Hx Hxi Hy Hyi Hp Hlang Hbx Hby Hs Hpct.
  assert (Hne : attempts ≠ []) by (intros ->; by apply elem_of_nil in Hx).
  destruct (buildReport_inv _ _ _ Ha Hne Hb) as (r0 & r1 & r2 & G0 & H1 & H2 & ->).
  pose proof (mcqSignals_grows _ _ _ H2) as G2. pose proof (codeSignals_grows _ _ _ H1) as G1.
  unfold codeSignals in H1. rewrite Han in H1. injection H1 as H1.
  assert (Hk : group_key y = group_key x) by (unfold group_key; by rewrite Hp, Hlang).
  destruct (similarity_reaches (ev_starters ev) (ev_histories ev) l1 x l2 y l3 r0 Hbx Hby Hk) as (r & Gr & Gs).
  rewrite <- Hl in Gs.
  assert (Gend : grows (compare_pair (ev_histories ev) (x, print_of (ev_starters ev) x) (y, print_of (ev_starters ev) y) r) r2).
  { etrans; [exact Gs|]. etrans; [|exact G2]. rewrite <- H1.
    etrans; [|apply fold_grows; intros; apply speed_signal_grows].
    etrans; [|apply burst_signals_grows]. apply trap_signals_grows. }
  assert (Gall : grows (start attempts) r2) by (etrans; [exact G0|etrans; [exact G1|exact G2]]).
  assert (Lx : listed r (an_attempt x)).
  { eapply listed_grows; [etrans; [exact G0|exact Gr]|]. rewrite <- Hxi. by apply start_listed. }
  assert (Ly : listed r (an_attempt y)).
  { eapply listed_grows; [etrans; [exact G0|exact Gr]|]. rewrite <- Hyi. by apply start_listed. }
  destruct (compare_pair_reports (ev_histories ev) (x, print_of (ev_starters ev) x) (y, print_of (ev_starters ev) y)
    pct r Hs Hpct Lx Ly) as ((p & Hin & Hrest) & Fx & Fy & Fz).
  assert (R : ∀ id n, flagged (compare_pair (ev_histories ev) (x, print_of (ev_starters ev) x)
      (y, print_of (ev_starters ev) y) r) id n → rated (rate_all r2) id n).
  { intros id n Hf. eapply flagged_rated; [exact Gall|]. eapply flagged_grows; [exact Gend|done]. }
  split; [exists p; split; [by apply Gend|done]|]. split; [by apply R|]. split; [by apply R|].
  destruct Fz as [Fz|Fz]; [left|right]; by apply R.
Qed.

Lemma split_byte_app sep a b :
  Forall (λ c, Ascii.eqb c sep = false) a → split_byte sep (a ++ sep :: b) = a :: split_byte sep b.
Proof.
  induction 1 as [|c a Hc Ha IH]; cbn; [by rewrite Ascii.eqb_refl|]. by rewrite Hc, IH.
Qed.

Lemma before_bar_bar aid qid :
  Forall (λ c, Ascii.eqb c "|"%char = false) (to_bytes aid) → before_bar (bar aid qid) = aid.
Proof.
  intros H. unfold before_bar, bar. rewrite !to_bytes_app. change (to_bytes "|") with ["|"%char]. cbn [app].
  rewrite split_byte_app by done. apply of_to_bytes.
Qed.

Lemma gathered_rated ev r0 r1 r2 attempts id n r :
  grows (start attempts) r0 → codeSignals ev r0 = Some r1 → mcqSignals ev r1 = Some r2 →
  grows r r2 → flagged r id n → rated (rate_all r2) id n.
Proof.
  intros G0 H1 H2 Gr Hf. eapply flagged_rated; [|by eapply flagged_grows].
  etrans; [exact G0|]. etrans; [by eapply codeSignals_grows|by eapply mcqSignals_grows].
Qed.

(** An answer that carries the marker hidden in its question puts its
    candidate at high risk, whatever else the report finds. *)
Theorem trap_is_high_risk ev out attempts answers a x :
  buildReport ev = Some out → ev_attempts ev = Some attempts → ev_answers ev = Some answers →
  a ∈ attempts → x ∈ answers → ai_id a = an_attempt x →
  Forall (λ c, Ascii.eqb c "|"%char = false) (to_bytes (an_attempt x)) →
  has_trap (an_code x) (an_attempt x) (an_question x) = true →
  ∃ ar, ar ∈ rp_Attempts out ∧ attempt_id ar = an_attempt x ∧ ar_Risk ar = "high".
Proof.
  intros Hb Ha Han Hin Hx Hid Hbar Ht.
  assert (Hne : attempts ≠ []) by (intros ->; by apply elem_of_nil in Hin).
  destruct (buildReport_inv _ _ _ Ha Hne Hb) as (r0 & r1 & r2 & G0 & H1 & H2 & ->).
  pose proof H1 as E. unfold codeSignals in E. rewrite Han in E. injection E as E.
  set (s1 := similarity_signals (ev_starters ev) (ev_histories ev) answers r0) in *.
  assert (G1 : grows r0 s1) by apply similarity_signals_grows.
  assert (Hk : bar (an_attempt x) (an_question x) ∈ range_keys 5 (trapHit answers (ev_marked ev))).
  { rewrite range_keys_perm, elem_of_elements. unfold trapHit. apply elem_of_union_l, elem_of_list_to_set.
    apply (list_elem_of_fmap_2 (λ a, bar (an_attempt a) (an_question a))), list_elem_of_filter. by split. }
  destruct (fold_reaches (λ rep k, add (before_bar k) "high" ("Answer to “" +:+ titleOf answers k +:+
      "” contains the hidden marker from the question — it was likely copied into an AI tool") 100 rep)
    _ _ s1 (λ r k, add_grows _ _ _ 100 r ltac:(lia)) Hk) as (r & Gr & Gr').
  assert (Hlist : listed r (an_attempt x)).
  { eapply listed_grows; [etrans; [exact G0|etrans; [exact G1|exact Gr]]|]. rewrite <- Hid. by apply start_listed. }
  rewrite before_bar_bar in Gr' by done.
  assert (Gend : grows (trap_signals answers (ev_marked ev) s1) r2).
  { etrans; [|by eapply mcqSignals_grows]. rewrite <- E.
    etrans; [|apply fold_grows; intros; apply speed_signal_grows]. apply burst_signals_grows. }
  destruct (gathered_rated ev r0 r1 r2 attempts (an_attempt x) 100 _ G0 H1 H2 Gend
    (flagged_grows _ _ _ _ Gr' (add_flagged _ _ _ _ _ Hlist))) as (ar & Har & Hari & Hpts & Hrisk).
  exists ar. split_and!; [done|done|]. rewrite Hrisk. unfold risk_of. by rewrite (proj2 (Z.leb_le _ _)) by lia.
Qed.

Definition picks_of (rows : list mcqRow) (id : string) : gmap string pick :=
  default ∅ (fold_left pick_row rows ∅ !! id).

Lemma both_wrong_swap a b : both_wrong a b = prod_swap <$> both_wrong b a.
Proof.
  apply map_eq. intros q. unfold both_wrong. rewrite lookup_fmap, !lookup_merge.
  destruct (a !! q) as [pa|], (b !! q) as [pb|]; cbn; try done. rewrite orb_comm.
  by destruct (pk_correct pb || pk_correct pa).
Qed.

Lemma wrong_counts_sym a b :
  size (both_wrong a b) = size (both_wrong b a) ∧ size (same_wrong a b) = size (same_wrong b a).
Proof.
  unfold same_wrong. rewrite (both_wrong_swap a b). split; [by rewrite map_size_fmap|].
  rewrite map_filter_fmap, map_size_fmap. f_equal. apply map_filter_ext. intros q [pa pb] _. cbn.
  split; congruence.
Qed.

(** Counts for which a pair of candidates is reported. *)
Definition colluded (rows : list mcqRow) (x y : string) : Prop :=
  collude (Z.of_nat (size (same_wrong (picks_of rows x) (picks_of rows y))))
    (Z.of_nat (size (both_wrong (picks_of rows x) (picks_of rows y)))) = true.

Definition collusion_listed (rows : list mcqRow) (rep : integrityReport) (x y : string) : Prop :=
  ∃ p, p ∈ rp_Collusion rep ∧ p_AttemptID (co_A p) = x ∧ p_AttemptID (co_B p) = y ∧
    co_SharedWrong p = Z.of_nat (size (same_wrong (picks_of rows x) (picks_of rows y))) ∧
    co_BothWrong p = Z.of_nat (size (both_wrong (picks_of rows x) (picks_of rows y))).

Lemma compare_picks_reports rows x y rep :
  colluded rows x y → listed rep x → listed rep y →
  let out := compare_picks (fold_left pick_row rows ∅) x y rep in
  collusion_listed rows out x y ∧ flagged out x 45 ∧ flagged out y 45.
Proof.
  intros Hc [a Ha] [b Hb]. unfold compare_picks. fold (picks_of rows x) (picks_of rows y).
  unfold colluded in Hc. rewrite Hc, Ha, Hb. cbn zeta. set (r := Build_integrityReport _ _ _ _).
  assert (Hr : grows rep r) by (apply grows_lists; [done|]; intros p H; rewrite elem_of_app; by left).
  pose proof Ha as Hx. pose proof Hb as Hy. apply find_some in Hx as [_ Hx]. apply find_some in Hy as [_ Hy].
  apply String.eqb_eq in Hx, Hy. rewrite Hx, Hy.
  set (ta := ("Chose the same wrong answer as " +:+ nameOf (ar_person b) +:+ _)).
  set (tb := ("Chose the same wrong answer as " +:+ nameOf (ar_person a) +:+ _)).
  assert (G1 : grows r (add x "high" ta 45 r)) by (apply add_grows; lia).
  assert (G2 : grows (add x "high" ta 45 r) (add y "high" tb 45 (add x "high" ta 45 r))) by (apply add_grows; lia).
  split_and!.
  - eexists. split; [apply G2, G1; unfold r; cbn; apply elem_of_app; right; apply list_elem_of_here|]. by repeat split.
  - eapply flagged_grows; [exact G2|]. apply add_flagged. eapply listed_grows; [exact Hr|by eexists].
  - apply add_flagged. eapply listed_grows; [etrans; [exact Hr|exact G1]|by eexists].
Qed.

Lemma sorted_split l x y :
  StronglySorted String.le l → x ∈ l → y ∈ l → x ≠ y → String.le x y →
  ∃ l1 l2 l3, l = l1 ++ x :: l2 ++ y :: l3.
Proof.
  intros Hs Hx Hy Hne Hle. apply list_elem_of_split in Hx as (l1 & l2 & ->).
  apply elem_of_app in Hy as [Hy|[->|Hy]%elem_of_cons]; [|done|].
  - apply list_elem_of_split in Hy as (k1 & k2 & ->). exfalso. apply Hne.
    rewrite <- app_assoc in Hs. apply StronglySorted_app in Hs as (_ & _ & Hs). cbn in Hs.
    apply StronglySorted_inv in Hs as [_ Hall]. eapply Forall_forall in Hall; [|apply elem_of_app; right; apply list_elem_of_here].
    by apply (anti_symm String.le).
  - apply list_elem_of_split in Hy as (k1 & k2 & ->). eauto.
Qed.

Lemma same_wrong_empty m : size (same_wrong ∅ m) = 0%nat ∧ size (same_wrong m ∅) = 0%nat.
Proof.
  rewrite (proj2 (wrong_counts_sym m ∅)). unfold same_wrong.
  replace (both_wrong ∅ m) with (∅ : gmap string (pick * pick));
    [by rewrite map_filter_empty, map_size_empty|].
  apply map_eq. intros q. unfold both_wrong. rewrite lookup_merge, !lookup_empty. by destruct (m !! q).
Qed.

Lemma colluded_dom rows x y :
  colluded rows x y → x ∈ dom (fold_left pick_row rows ∅) ∧ y ∈ dom (fold_left pick_row rows ∅).
Proof.
  unfold colluded, picks_of. rewrite !elem_of_dom. set (m := fold_left pick_row rows ∅).
  destruct (m !! x) as [px|]; cbn [default from_option]; [|by rewrite (proj1 (same_wrong_empty _))].
  destruct (m !! y) as [py|]; cbn [default from_option]; [|by rewrite (proj2 (same_wrong_empty _))].
  by split.
Qed.

Lemma collusion_ordered ev out attempts rows a b x y :
  buildReport ev = Some out → ev_attempts ev = Some attempts → ev_mcq ev = Some rows →
  a ∈ attempts → ai_id a = x → b ∈ attempts → ai_id b = y → x ≠ y → String.le x y →
  colluded rows x y →
  collusion_listed rows out x y ∧ rated out x 45 ∧ rated out y 45.
Proof.
  intros Hb Ha Hm Hina Hx Hinb Hy Hne Hle Hc.
  assert (Hnil : attempts ≠ []) by (intros ->; by apply elem_of_nil in Hina).
  destruct (buildReport_inv _ _ _ Ha Hnil Hb) as (r0 & r1 & r2 & G0 & H1 & H2 & ->).
  assert (Gstart : grows (start attempts) r1) by (etrans; [exact G0|by eapply codeSignals_grows]).
  pose proof H2 as E. unfold mcqSignals in E. rewrite Hm in E. injection E as E.
  set (answers := fold_left pick_row rows ∅) in *.
  destruct (colluded_dom _ _ _ Hc) as [Dx Dy]. fold answers in Dx, Dy.
  destruct (sorted_split (sort_strings (base.elements (dom answers))) x y (sort_strings_sorted _)) as (l1 & l2 & l3 & El);
    [by rewrite (stable_sort_perm id), elem_of_elements..|done|done|].
  destruct (each_pair_reaches (compare_picks answers) l1 x l2 y l3 r1 (λ x y r, compare_picks_grows answers x y r))
    as (r & Gr & Gr'). rewrite <- El in Gr'.
  assert (Gend : grows (compare_picks answers x y r) r2).
  { etrans; [exact Gr'|]. rewrite <- E. case_match.
    - etrans; [|apply fold_grows; intros; apply pace_signal_grows]. apply grows_lists; [done|].
      intros p. apply sort_slice_elem.
    - apply grows_lists; [done|]. intros p. apply sort_slice_elem. }
  assert (Hl : ∀ c, c ∈ attempts → listed r (ai_id c)).
  { intros c Hin. eapply listed_grows; [etrans; [exact Gstart|exact Gr]|]. by apply start_listed. }
  destruct (compare_picks_reports rows x y r Hc) as ((p & Hp & Hrest) & Fx & Fy);
    [rewrite <- Hx; auto|rewrite <- Hy; auto|]. fold answers in Hp, Fx, Fy.
  split_and!; [exists p; split; [by apply Gend|done]|..];
    eapply (gathered_rated ev r0 r1 r2 attempts); eassumption.
Qed.

(** Two candidates who chose the same wrong answers on at least three
    questions, and on seven in ten of those both got wrong, are reported as a
    pair with the exact counts, and both are rated, in whatever order they
    are compared. *)
Theorem collusion_reported ev out attempts rows a b x y :
  buildReport ev = Some out → ev_attempts ev = Some attempts → ev_mcq ev = Some rows →
  a ∈ attempts → ai_id a = x → b ∈ attempts → ai_id b = y → x ≠ y →
  colluded rows x y →
  (collusion_listed rows out x y ∨ collusion_listed rows out y x) ∧ rated out x 45 ∧ rated out y 45.
Proof.
  intros Hb Ha Hm Hina Hx Hinb Hy Hne Hc.
  destruct (total String.le x y) as [Hle|Hle].
  - destruct (collusion_ordered ev out attempts rows a b x y) as (H1 & H2 & H3); auto.
  - assert (Hc' : colluded rows y x).
    { unfold colluded in *. destruct (wrong_counts_sym (picks_of rows y) (picks_of rows x)) as [-> ->]. done. }
    destruct (collusion_ordered ev out attempts rows b a y x) as (H1 & H2 & H3); auto.
Qed.

(** The report lists every attempt once; each one's points are the sum of its
    signals' and decide its risk, its signals come the most severe first, and
    the attempts the most suspicious first. *)
Theorem buildReport_ranks ev out attempts :
  buildReport ev = Some out → ev_attempts ev = Some attempts →
  map ar_person (rp_Attempts out) ≡ₚ map (λ a, ar_person (new_risk a)) attempts ∧
  Forall (λ ar, ar_RiskPoints ar = sum_points (ar_Signals ar) ∧ ar_Risk ar = risk_of (ar_RiskPoints ar) ∧
    StronglySorted (λ s t, sevRank (sg_Severity t) ≤ sevRank (sg_Severity s)) (ar_Signals ar))
    (rp_Attempts out) ∧
  StronglySorted (λ a b, ar_RiskPoints b ≤ ar_RiskPoints a) (rp_Attempts out).
Proof.
  intros Hb Ha. destruct (decide (attempts = [])) as [->|Hne].
  { unfold buildReport in Hb. rewrite Ha in Hb. injection Hb as <-. cbn. repeat split; constructor. }
  destruct (buildReport_inv _ _ _ Ha Hne Hb) as (r0 & r1 & r2 & G0 & H1 & H2 & ->).
  assert (Gs : grows (start attempts) r2)
    by (etrans; [exact G0|etrans; [by eapply codeSignals_grows|by eapply mcqSignals_grows]]).
  unfold rate_all, stable_desc at 1 2 3. cbn [rp_Attempts with_attempts]. split_and!.
  - rewrite order_by_perm, map_map. destruct Gs as (Gs & _). cbn in Gs.
    rewrite <- (map_map new_risk ar_person). remember (map new_risk attempts) as l eqn:El. clear El.
    induction Gs as [|x y l k (Hxy & _) _ IH]; cbn; [done|]. by rewrite Hxy, IH.
  - rewrite order_by_perm. apply Forall_map, Forall_forall. intros ar Har.
    destruct (grown_attempt _ _ _ Gs Har) as [H0 _]. cbn. rewrite H0. split_and!; [done|done|].
    apply stable_desc_sorted.
  - apply stable_desc_sorted.
Qed.
End Facts.

(** ** Snapshots *)

Lemma common_prefix_split a b :
  ∃ a' b', a = firstn (common_prefix a b) a ++ a' ∧ b = firstn (common_prefix a b) a ++ b' ∧
    (common_prefix a b ≤ length a)%nat ∧ (common_prefix a b ≤ length b)%nat.
Proof.
  revert b. induction a as [|x a IH]; intros [|y b]; cbn.
  - exists [], []. cbn. repeat split; lia.
  - exists [], (y :: b). cbn. repeat split; lia.
  - exists (x :: a), []. cbn. repeat split; lia.
  - destruct (Z.eqb_spec x y) as [->|]; cbn.
    + destruct (IH b) as (a' & b' & Ea & Eb & La & Lb). exists a', b'. rewrite <- Ea, <- Eb. repeat split; lia.
    + exists (x :: a), (y :: b). repeat split; lia.
Qed.

Lemma common_prefix_max p a b : (length p ≤ common_prefix (p ++ a) (p ++ b))%nat.
Proof. induction p as [|x p IH]; cbn; [lia|]. rewrite Z.eqb_refl. lia. Qed.

(** [insertedChars] is the size of an edit from [prev] to [next], and no edit
    that replaces one stretch by another inserts less. *)
Theorem insertedChars_least prev next :
  (∃ p old mid s, runes prev = p ++ old ++ s ∧ runes next = p ++ mid ++ s ∧
     insertedChars prev next = Z.of_nat (length mid)) ∧
  (∀ p old mid s, runes prev = p ++ old ++ s → runes next = p ++ mid ++ s →
     insertedChars prev next ≤ Z.of_nat (length mid)).
Proof.
  unfold insertedChars. generalize (runes prev), (runes next). intros a b. cbv zeta.
  pose proof (common_prefix_split a b) as (a1 & b1 & Ea & Eb & La & Lb).
  set (n := common_prefix a b) in *.
  assert (Sa : skipn n a = a1).
  { rewrite Ea at 1. rewrite skipn_app, skipn_all2 by (rewrite length_firstn; lia).
    rewrite length_firstn. replace (n - Nat.min n (length a))%nat with 0%nat by lia. done. }
  assert (Sb : skipn n b = b1).
  { rewrite Eb at 1. rewrite skipn_app, skipn_all2 by (rewrite length_firstn; lia).
    rewrite length_firstn. replace (n - Nat.min n (length a))%nat with 0%nat by lia. done. }
  rewrite Sa, Sb. pose proof (common_prefix_split (rev a1) (rev b1)) as (a2 & b2 & Ea2 & Eb2 & La2 & Lb2).
  set (m := common_prefix (rev a1) (rev b1)) in *. rewrite !length_rev in *.
  apply (f_equal (@rev Z)) in Ea2, Eb2. rewrite rev_involutive, rev_app_distr in Ea2, Eb2.
  assert (Lena : length a = (n + length a1)%nat) by (rewrite <- Sa, length_skipn; lia).
  assert (Lenb : length b = (n + length b1)%nat) by (rewrite <- Sb, length_skipn; lia).
  split.
  - exists (firstn n a), (rev a2), (rev b2), (rev (firstn m (rev a1))).
    split; [by rewrite <- Ea2|]. split; [by rewrite <- Eb2|].
    rewrite length_rev. apply (f_equal length) in Eb2. rewrite length_app, !length_rev, length_firstn, length_rev in Eb2. lia.
  - intros p old mid s Hpa Hpb.
    assert (Hn : (length p ≤ n)%nat) by (unfold n; rewrite Hpa, Hpb; apply common_prefix_max).
    assert (Ha : length a = (length p + length old + length s)%nat) by (rewrite Hpa, !length_app; lia).
    assert (Hb : length b = (length p + length mid + length s)%nat) by (rewrite Hpb, !length_app; lia).
    set (k := Nat.min (length s) (Nat.min (length a1) (length b1))).
    assert (Hk : (k ≤ m)%nat).
    { assert (T : ∀ w l l1, l = w ++ s → skipn n l = l1 → (n ≤ length l)%nat → (k ≤ length l1)%nat →
        rev l1 = firstn k (rev s) ++ skipn k (rev l1)).
      { intros w l l1 El E1 Hnl Hkl. rewrite <- (firstn_skipn k (rev l1)) at 1. f_equal.
        assert (Er : rev l = rev l1 ++ rev (firstn n l)) by (rewrite <- rev_app_distr, <- E1; by rewrite firstn_skipn).
        assert (E : firstn k (rev l) = firstn k (rev l1)).
        { rewrite Er, firstn_app, length_rev. replace (k - length l1)%nat with 0%nat by lia.
          by rewrite firstn_O, app_nil_r. }
        rewrite <- E, El, rev_app_distr, firstn_app, length_rev.
        replace (k - length s)%nat with 0%nat by (unfold k; lia). by rewrite firstn_O, app_nil_r. }
      unfold m. rewrite (T (p ++ old) a a1), (T (p ++ mid) b b1); rewrite <- ?app_assoc; try done; try (unfold k; lia).
      etrans; [|apply common_prefix_max]. rewrite length_firstn, length_rev. unfold k. lia. }
    unfold k in Hk. lia.
Qed.

(** The rows of one call: no more than are allowed for a call and for a
    question, none too long, each dated within six hours before and a minute
    after the server's clock, each with a known reason. *)
Theorem snapshots_bounded now prev stored ss :
  let rows := snapshots_batch now prev stored ss in
  (length rows ≤ maxSnapshotsPerCall)%nat ∧
  ((0 < length rows)%nat → stored + Z.of_nat (length rows) ≤ maxSnapshotsPerQuestion) ∧
  Forall (λ r, byte_length (sr_code r) ≤ maxSnapshotBytes ∧
    now - 6 * 60 * minute ≤ sr_at r ≤ now + minute ∧ 0 ≤ sr_chars_added r ∧
    sr_reason r ∈ ["start"; "edit"; "language"; "run"; "submit"]) rows.
Proof.
  unfold snapshots_batch. cbv zeta. set (l := firstn maxSnapshotsPerCall ss).
  assert (Hl : (length l ≤ maxSnapshotsPerCall)%nat) by (unfold l; rewrite length_firstn; lia).
  clearbody l. split_and!.
  - etrans; [|exact Hl]. clear Hl. revert prev stored. induction l as [|s l IH]; intros prev stored; cbn; [done|].
    destruct (maxSnapshotsPerQuestion <=? stored); cbn [length]; [lia|].
    match goal with |- context [snapshot_rows now ?c _ l] => specialize (IH c (stored + 1)) end. lia.
  - clear Hl. revert prev stored. induction l as [|s l IH]; intros prev stored; cbn; [lia|].
    destruct (Z.leb_spec maxSnapshotsPerQuestion stored); cbn [length]; [lia|]. intros _.
    match goal with |- context [snapshot_rows now ?c _ l] => specialize (IH c (stored + 1)) end.
    destruct (length (snapshot_rows now _ _ l)); [lia|]. specialize (IH ltac:(lia)). lia.
  - clear Hl. revert prev stored. induction l as [|s l IH]; intros prev stored; cbn; [constructor|].
    destruct (maxSnapshotsPerQuestion <=? stored); [constructor|]. constructor; [|apply IH]. cbn. split_and!.
    + destruct (Z.ltb_spec maxSnapshotBytes (byte_length (sn_Code s))) as [H|H]; [|done].
      unfold byte_length, first_bytes. rewrite to_of_bytes, length_firstn. unfold maxSnapshotBytes. lia.
    + unfold snapshot_at, minute. repeat case_match; bool_to_prop; lia.
    + unfold snapshot_at, minute. repeat case_match; bool_to_prop; lia.
    + unfold insertedChars. lia.
    + unfold snapshot_reason. destruct (existsb _ _) eqn:E; [|set_solver].
      apply existsb_exists in E as (r & Hr & Hs). apply String.eqb_eq in Hs as ->. by apply list_elem_of_In.
Qed.
