(* ===== verification/IntegrityRuns.v ===== *)
(** Concrete instances of the interfaces of Similarity.v and Integrity.v, and
    runs of the report on them: the two solutions of the repository's own
    test (similarity_test.go), a planted marker, shared wrong answers. *)

From S2P Require Import Prelude GoStrings Float64 Strconv GoTime Json Similarity Integrity.

#[local] Open Scope Z_scope.

(** Unicode cut down to ASCII. *)
#[global] Instance ascii_unicode : Unicode := {| is_letter := ascii_letter; is_digit := ascii_digit |}.

#[global] Instance ascii_unicode_laws : UnicodeLaws ascii_unicode.
Proof.
  assert (Hr : ∀ c, ascii_letter c = true → 65 ≤ c ≤ 122) by (intros c; unfold ascii_letter; intros H; lia).
  assert (Hd : ∀ c, ascii_digit c = true → 48 ≤ c ≤ 57) by (intros c; unfold ascii_digit; intros H; lia).
  assert (Hs : ∀ c, 48 ≤ c ≤ 122 → is_space c = false) by (intros c H; unfold is_space; lia).
  split; cbn; [done|done|..]; intros c H.
  - specialize (Hr c H). unfold ascii_digit. lia.
  - apply Hs. specialize (Hr c H). lia.
  - apply Hs. specialize (Hd c H). lia.
Qed.

(** Maps ranged over in the order of [elements], and a sort by insertion. *)
#[global] Instance plain_runtime : GoRuntime :=
  {| range_keys _ s := base.elements s; sort_slice A less l := order_by (λ a b, negb (less b a)) l |}.

#[global] Instance plain_runtime_laws : GoRuntimeLaws plain_runtime.
Proof.
  split; cbn.
  - done.
  - intros A less l. apply order_by_perm.
  - intros A less l Hasym Htrans.
    eapply strongly_sorted_weaken; [|apply (order_by_ordered _ (λ _, True))].
    + intros a b H. by apply negb_true_iff in H.
    + intros a b _ _ H. apply negb_false_iff in H. apply negb_true_iff. by apply Hasym.
    + intros a b c _ _ _ H H'. apply negb_true_iff in H, H'. apply negb_true_iff. by eapply Htrans.
    + by apply Forall_true.
Qed.

Definition original : string := "
def two_sum(nums, target):
    # remember where each value was seen
    seen = {}
    for i, n in enumerate(nums):
        want = target - n
        if want in seen:
            return [seen[want], i]
        seen[n] = i
    return []
".

Definition disguised : string := "
def two_sum(arr, goal):
    '''Find the pair.'''
    lookup = {}          # value -> index
    for idx, val in enumerate(arr):
        need = goal - val
        if need in lookup:
            return [lookup[need], idx]
        lookup[val] = idx
    return []
".

Definition independent : string := "
def two_sum(nums, target):
    order = sorted(range(len(nums)), key=lambda k: nums[k])
    lo, hi = 0, len(nums) - 1
    while lo < hi:
        total = nums[order[lo]] + nums[order[hi]]
        if total == target:
            return sorted([order[lo], order[hi]])
        if total < target:
            lo += 1
        else:
            hi -= 1
    return []
".

(** The repository's tests. *)
Example renamed_copy : simScore (simFingerprint original "python") (simFingerprint disguised "python") = (100, true).
Proof. vm_compute. reflexivity. Qed.
Example independent_apart :
  simScore (simFingerprint original "python") (simFingerprint independent "python") = (20, true).
Proof. vm_compute. reflexivity. Qed.
Example names_normalised : simTokens "x = 1 // note
/* block */ y = 's'" "javascript" = ["I"; "="; "N"; "I"; "="; "S"].
Proof. vm_compute. reflexivity. Qed.

(** ** Similarity *)

Lemma shared_run_caught_witness :
  simFingerprint original "python" ∩ simFingerprint (original +:+ independent) "python" ≠ ∅.
Proof.
  apply (shared_run_caught original (original +:+ independent) "python" "python" [] []
    (simTokens original "python") [] (simTokens independent "python"));
    [rewrite app_nil_r; reflexivity|vm_compute; reflexivity|apply Nat.leb_le; vm_compute; reflexivity].
Defined.

Definition plain_line : list lexeme :=
  [Name (runes "x"); Blank 32; Symbol 61; Blank 32; Number (runes "1"); Blank 32;
   LineComment (runes " note"); Blank 10].
Definition disguised_line : list lexeme :=
  [Name (runes "total"); Symbol 61; BlockComment (runes " why "); Number (runes "0x2A")].


Lemma pasted_scores_full_witness :
  simScore (without (simFingerprint original "python") ∅)
    (without (simFingerprint (independent +:+ original) "python") ∅) = (100, true).
Proof.
  apply (pasted_scores_full original (independent +:+ original) "python" (simTokens independent "python") []);
    [rewrite app_nil_r; vm_compute; reflexivity|apply Nat.leb_le; vm_compute; reflexivity].
Defined.

(** ** The report *)

Definition ada : AttemptRowI :=
  {| ai_id := "a1"; ai_name := "Ada"; ai_email := "ada@x.org"; ai_status := "evaluated"; ai_integrity := of_Z 100 |}.
Definition bob : AttemptRowI :=
  {| ai_id := "b2"; ai_name := ""; ai_email := "bob@x.org"; ai_status := "evaluated"; ai_integrity := of_Z 90 |}.

Definition solution (attempt code : string) : answer :=
  {| an_attempt := attempt; an_question := attempt +:+ "q"; an_problem := "p"; an_title := "Two sum";
     an_lang := "python"; an_code := code; an_marks := of_Z 10; an_awarded := of_Z 10; an_spentMs := 600000 |}.

Definition marker_code : string := "def f(): return " +:+ trapToken "b2" "b2q".

Definition wrong_pick (attempt question : string) : mcqRow :=
  {| mc_attempt := attempt; mc_question := question; mc_sel := "c,b"; mc_awarded := of_Z 0;
     mc_marks := of_Z 2; mc_ms := 30000 |}.

Definition evidence (code : string) : Evidence :=
  {| ev_attempts := Some [ada; bob]; ev_proctor := Some [("a1", "tab_blur", 4); ("a1", "unheard_of", 1)];
     ev_sessions := Some [("a1", "10.0.0.1", 1); ("b2", "10.0.0.1", 1)];
     ev_answers := Some [solution "a1" original; solution "b2" code];
     ev_starters := Some []; ev_histories := None; ev_marked := Some []; ev_bursts := Some [];
     ev_mcq := Some [wrong_pick "b2" "q1"; wrong_pick "b2" "q2"; wrong_pick "b2" "q3";
                     wrong_pick "a1" "q1"; wrong_pick "a1" "q2"; wrong_pick "a1" "q3"] |}.

Definition report_of (code : string) : integrityReport :=
  default (start []) (buildReport (evidence code)).

Lemma report_built code : buildReport (evidence code) = Some (report_of code).
Proof. reflexivity. Qed.

Lemma similar_answers_reported_witness :
  rated (report_of disguised) "a1" 60 ∨ rated (report_of disguised) "b2" 60.
Proof.
  exact (proj2 (proj2 (proj2 (similar_answers_reported (evidence disguised) (report_of disguised) [ada; bob]
    _ [] (solution "a1" original) [] (solution "b2" disguised) [] ada bob 100 (report_built disguised)
    eq_refl eq_refl eq_refl (list_elem_of_here _ _) eq_refl
    (list_elem_of_further _ _ _ (list_elem_of_here _ _)) eq_refl eq_refl eq_refl
    ltac:(vm_compute; reflexivity) ltac:(vm_compute; reflexivity) ltac:(vm_compute; reflexivity)
    ltac:(apply Z.leb_le; reflexivity))))).
Defined.

Lemma trap_is_high_risk_witness :
  ∃ ar, ar ∈ rp_Attempts (report_of marker_code) ∧ attempt_id ar = "b2" ∧ ar_Risk ar = "high".
Proof.
  exact (trap_is_high_risk (evidence marker_code) (report_of marker_code) [ada; bob] _ bob
    (solution "b2" marker_code) (report_built marker_code) eq_refl eq_refl
    (list_elem_of_further _ _ _ (list_elem_of_here _ _)) (list_elem_of_further _ _ _ (list_elem_of_here _ _))
    eq_refl ltac:(repeat constructor) ltac:(vm_compute; reflexivity)).
Defined.

Lemma collusion_reported_witness :
  rated (report_of independent) "a1" 45 ∧ rated (report_of independent) "b2" 45.
Proof.
  exact (proj2 (collusion_reported (evidence independent) (report_of independent) [ada; bob] _ ada bob "a1" "b2"
    (report_built independent) eq_refl eq_refl (list_elem_of_here _ _) eq_refl
    (list_elem_of_further _ _ _ (list_elem_of_here _ _)) eq_refl ltac:(discriminate)
    ltac:(vm_compute; reflexivity))).
Defined.

Lemma buildReport_ranks_witness :
  StronglySorted (λ a b, ar_RiskPoints b ≤ ar_RiskPoints a) (rp_Attempts (report_of disguised)) ∧
  map (λ ar, (attempt_id ar, ar_RiskPoints ar, ar_Risk ar)) (rp_Attempts (report_of disguised)) =
    [("a1", 123, "high"); ("b2", 113, "high")].
Proof.
  split.
  - exact (proj2 (proj2 (buildReport_ranks (evidence disguised) (report_of disguised) [ada; bob]
      (report_built disguised) eq_refl))).
  - vm_compute. reflexivity.
Defined.
