(* ===== verification/Wire.v ===== *)
(** Messages between the services: [encoding/json] of structs of strings,
    integers and booleans, as the submission service writes them to NATS and the
    execution worker and the assessment service read them back.

    [render] is [json.Marshal] of a value given as its tree, [decode_struct]
    what [json.Unmarshal] does to a struct, by the table of its fields.  Every
    tree of well-formed UTF-8 texts and integers survives the trip
    ([parse_render]); a byte that is not UTF-8 is replaced on the way, as the
    Go encoder does. *)

From S2P Require Import Prelude GoStrings Strconv Float64 GoTime Json Judge.
From Stdlib Require Import Ascii String.

#[local] Open Scope Z_scope.
Create HintDb wire.
#[local] Abbreviation length := List.length.

(** ** Writing *)

(** [json.Marshal] of a value given as a tree: an integer is written as its
    decimal literal, the members of a struct in the order of its fields. *)
Fixpoint render (r : raw) : bytes :=
  match r with
  | RNull => to_bytes "null"
  | RBool b => to_bytes (format_bool b)
  | RNum lit => lit
  | RStr s => quote_string s
  | RArr l => "["%char :: join_bytes ","%char (map render l) ++ ["]"%char]
  | RObj l =>
      "{"%char
        :: join_bytes ","%char (map (λ kv : string * raw, quote_string kv.1 ++ ":"%char :: render kv.2) l)
        ++ ["}"%char]
  end.

Definition render_member (kv : string * raw) : bytes := quote_string kv.1 ++ ":"%char :: render kv.2.

Definition render_string (r : raw) : string := of_bytes (render r).

Definition int_raw (n : Z) : raw := RNum (format_int_bytes n).

(** A field tagged [omitempty]: absent when it holds its zero value. *)
Definition omitempty_string (k s : string) : list (string * raw) :=
  if String.eqb s "" then [] else [(k, RStr s)].
Definition omitempty_bool (k : string) (b : bool) : list (string * raw) :=
  if b then [(k, RBool b)] else [].

(** A string of the tree holds the character U+0000. *)
Fixpoint holds_nul (r : raw) : bool :=
  match r with
  | RStr s => contains_byte zero s
  | RArr l => existsb holds_nul l
  | RObj l => existsb (λ kv, contains_byte zero kv.1 || holds_nul kv.2) l
  | _ => false
  end.

(** The same value with the members of its objects in another order. *)
Inductive reordered : raw → raw → Prop :=
  | ro_same r : reordered r r
  | ro_arr l l' : Forall2 reordered l l' → reordered (RArr l) (RArr l')
  | ro_obj l l1 l' :
      Forall2 (λ kv kv', kv.1 = kv'.1 ∧ reordered kv.2 kv'.2) l l1 → l1 ≡ₚ l' →
      reordered (RObj l) (RObj l').

(** ** Reading *)

(** A JSON value decoded into a string: [null] leaves it. *)
Definition decode_string (old : string) (v : raw) : option string :=
  match v with RStr s => Some s | RNull => Some old | _ => None end.

(** The digits of a number literal without fraction or exponent. *)
Fixpoint int_digits (acc : Z) (s : bytes) : option Z :=
  match s with
  | [] => Some acc
  | c :: r => if is_digit c then int_digits (10 * acc + digit_val c) r else None
  end.

Definition int_literal (s : bytes) : option Z :=
  let z := match s with
           | "-"%char :: r => Z.opp <$> int_digits 0 r
           | _ => int_digits 0 s
           end in
  match z with
  | Some z => if (- 2 ^ 63 <=? z) && (z <? 2 ^ 63) then Some z else None
  | None => None
  end.

(** Into an int, of 64 bits. *)
Definition decode_int (old : Z) (v : raw) : option Z :=
  match v with RNum lit => int_literal lit | RNull => Some old | _ => None end.

Definition decode_bool (old : bool) (v : raw) : option bool :=
  match v with RBool b => Some b | RNull => Some old | _ => None end.

(** The fields of a struct: the name of each and how a value updates it. *)
Definition fields (A : Type) : Type := list (string * (raw → A → option A)).

Section Struct.
Context {A : Type}.

Definition string_field (get : A → string) (set : string → A → A) : raw → A → option A :=
  λ v x, (λ s, set s x) <$> decode_string (get x) v.
Definition int_field (get : A → Z) (set : Z → A → A) : raw → A → option A :=
  λ v x, (λ z, set z x) <$> decode_int (get x) v.
Definition bool_field (get : A → bool) (set : bool → A → A) : raw → A → option A :=
  λ v x, (λ b, set b x) <$> decode_bool (get x) v.

(** One member of an object; keys match without regard to case, and a key
    that names no field is skipped. *)
Fixpoint decode_member (fs : fields A) (kv : string * raw) (x : A) : option A :=
  match fs with
  | [] => Some x
  | (name, f) :: t => if field_is name kv.1 then f kv.2 x else decode_member t kv x
  end.

Fixpoint decode_members (fs : fields A) (l : list (string * raw)) (x : A) : option A :=
  match l with
  | [] => Some x
  | kv :: t => match decode_member fs kv x with Some x => decode_members fs t x | None => None end
  end.

(** A JSON value decoded into a struct that holds [x]: [None] is an error. *)
Definition decode_struct (fs : fields A) (x : A) (v : raw) : option A :=
  match v with RNull => Some x | RObj l => decode_members fs l x | _ => None end.
End Struct.

(** ** Well-formed texts *)

(** A text every rune of which is well-formed UTF-8. *)
Inductive utf8 : bytes → Prop :=
  | utf8_nil : utf8 []
  | utf8_rune s : rune_len s ≠ 0%nat → utf8 (skipn (rune_len s) s) → utf8 s.

Fixpoint utf8_b (fuel : nat) (s : bytes) : bool :=
  match s, fuel with
  | [], _ => true
  | _, O => false
  | _, S f => match rune_len s with O => false | n => utf8_b f (skipn n s) end
  end.

Definition text (s : string) : Prop := utf8 (to_bytes s).

Lemma utf8_b_sound fuel s : utf8_b fuel s = true → utf8 s.
Proof.
  revert s. induction fuel as [|f IH]; intros [|a s]; try done; [constructor..|]. cbn [utf8_b].
  intros H. destruct (rune_len (a :: s)) eqn:E; [done|]. apply utf8_rune; rewrite E; auto.
Qed.

(** A rune's length is decided by its own bytes; those of a longer rune are
    not ASCII. *)
Lemma rune_len_prefix s n : rune_len s = n → n ≠ 0%nat →
  length (firstn n s) = n ∧ (∀ r, rune_len (firstn n s ++ r) = n) ∧
  (n = 1%nat ∧ (∃ a t, s = a :: t ∧ (code a < 128)%nat) ∨
   (2 ≤ n)%nat ∧ Forall (λ a, (128 ≤ code a)%nat) (firstn n s)).
Proof.
  intros H Hn. destruct s as [|a s]; [by subst n|]. unfold rune_len in H.
  destruct (Nat.ltb_spec (code a) 128) as [Ha|Ha].
  { subst n. simpl. split_and!; [done| |left; eauto].
    intros r. destruct (Nat.ltb_spec (code a) 128); [done|lia]. }
  destruct s as [|b s]; [by subst n|].
  destruct (in_range_b 194 223 a && continuation b) eqn:E2.
  { subst n. simpl firstn. split_and!; [done| |right; split; [lia|]].
    - intros r. simpl. destruct (Nat.ltb_spec (code a) 128); [lia|]. by rewrite E2.
    - apply andb_true_iff in E2 as [_ Hb]. unfold continuation, in_range_b in Hb.
      apply andb_true_iff in Hb as [Hb _]. apply Nat.leb_le in Hb. by repeat constructor. }
  destruct s as [|c s]; [by subst n|].
  match type of H with (if ?x then _ else _) = _ => destruct x eqn:E3 end.
  { subst n. simpl firstn. split_and!; [done| |right; split; [lia|]].
    - intros r. simpl. destruct (Nat.ltb_spec (code a) 128); [lia|]. by rewrite E2, E3.
    - unfold continuation, in_range_b in E3. repeat constructor; [lia| |];
        repeat match goal with
        | H : _ && _ = true |- _ => apply andb_true_iff in H as [? ?]
        | H : _ || _ = true |- _ => apply orb_true_iff in H as [?|?]
        | H : (_ <=? _)%nat = true |- _ => apply Nat.leb_le in H
        end; lia. }
  destruct s as [|d s]; [by subst n|].
  match type of H with (if ?x then _ else _) = _ => destruct x eqn:E4 end; [|by subst n].
  subst n. simpl firstn. split_and!; [done| |right; split; [lia|]].
  - intros r. simpl. destruct (Nat.ltb_spec (code a) 128); [lia|]. by rewrite E2, E3, E4.
  - unfold continuation, in_range_b in E4. repeat constructor; [lia| | |];
      repeat match goal with
      | H : _ && _ = true |- _ => apply andb_true_iff in H as [? ?]
      | H : _ || _ = true |- _ => apply orb_true_iff in H as [?|?]
      | H : (_ <=? _)%nat = true |- _ => apply Nat.leb_le in H
      end; lia.
Qed.

(** ** A quoted text is read back *)

Lemma high_plain a : (128 ≤ code a)%nat →
  is_char quote a = false ∧ is_char backslash a = false ∧ (code a <? 32)%nat = false.
Proof. destruct a as [[] [] [] [] [] [] [] []]; vm_compute; intros; (done || lia). Qed.

(** The escaped bytes [out] of a string literal stand for [d]: the scanner
    passes over them, and the decoder yields [d] for them. *)
Definition stands_for (out d : bytes) : Prop :=
  (∀ acc t, scan_string InString (out ++ t) acc = scan_string InString t (rev out ++ acc)) ∧
  ∀ f rest, (length (out ++ rest) ≤ f)%nat →
    ∃ f', (length rest ≤ f')%nat ∧ unquote f (out ++ rest) = d ++ unquote f' rest.

Lemma scan_string_high out : Forall (λ a, (128 ≤ code a)%nat) out → ∀ acc t,
  scan_string InString (out ++ t) acc = scan_string InString t (rev out ++ acc).
Proof.
  induction 1 as [|a out Ha _ IH]; intros acc t; [done|]. cbn [app scan_string].
  destruct (high_plain a Ha) as (-> & -> & ->). rewrite IH. cbn [rev]. by rewrite <- app_assoc.
Qed.

Lemma quote_byte_stands a : (code a < 128)%nat → stands_for (quote_byte a) [a].
Proof.
  intros Ha.
  assert (H : ∀ acc t f rest,
    scan_string InString (quote_byte a ++ t) acc = scan_string InString t (rev (quote_byte a) ++ acc) ∧
    unquote (S f) (quote_byte a ++ rest) = a :: unquote f rest).
  { intros acc t f rest. revert Ha.
    destruct a as [[] [] [] [] [] [] [] []]; vm_compute code; intros Ha; (lia || done). }
  split; [intros; by apply (H acc t 0%nat [])|].
  intros f rest Hf. destruct f as [|f].
  - exfalso. destruct a as [[] [] [] [] [] [] [] []]; vm_compute in Hf; lia.
  - exists f. split; [|by apply (H [] [] f rest)]. rewrite length_app in Hf.
    assert (1 ≤ length (quote_byte a))%nat; [|lia]. clear.
    destruct a as [[] [] [] [] [] [] [] []]; vm_compute; lia.
Qed.

Lemma rune_stands s n : rune_len s = n → (2 ≤ n)%nat → stands_for (firstn n s) (firstn n s).
Proof.
  intros Hn H2. destruct (rune_len_prefix s n Hn) as (Hl & Hr & [[-> _]|[_ Hhigh]]); [lia..|].
  split; [by apply scan_string_high|]. intros f rest Hf. rewrite length_app, Hl in Hf.
  destruct f as [|f]; [lia|]. exists f. split; [lia|].
  destruct (firstn n s) as [|a out] eqn:E; [simpl in Hl; lia|].
  assert (Ha : (128 ≤ code a)%nat) by by apply Forall_inv in Hhigh.
  cbn [app unquote]. destruct (high_plain a Ha) as (_ & -> & _).
  rewrite (app_comm_cons out rest a), Hr. destruct n as [|n]; [lia|].
  rewrite firstn_app, Hl, Nat.sub_diag, firstn_O, app_nil_r, skipn_app, Hl, Nat.sub_diag, skipn_O.
  rewrite (firstn_all2 (a :: out)), (skipn_all2 (a :: out)) by lia. done.
Qed.

Lemma separator_stands c : (code c =? 0xA8)%nat || (code c =? 0xA9)%nat = true →
  stands_for (to_bytes "\u202" ++ [hex_digit (Z.of_nat (code c) mod 16)])
    [ascii_of_nat 0xE2; ascii_of_nat 0x80; c].
Proof.
  intros Hc.
  assert (Hcc : c = ascii_of_nat 0xA8 ∨ c = ascii_of_nat 0xA9).
  { rewrite <- (ascii_nat_embedding c). unfold code in Hc.
    apply orb_true_iff in Hc as [->%Nat.eqb_eq| ->%Nat.eqb_eq]; auto. }
  split; [by destruct Hcc as [-> | ->]|]. intros f rest Hf. destruct f as [|f].
  { simpl in Hf. lia. }
  exists f. split; [rewrite length_app in Hf; simpl in Hf; lia|]. by destruct Hcc as [-> | ->].
Qed.

Lemma quote_rune_stands s out r :
  rune_len s ≠ 0%nat → quote_rune s = (out, r) →
  r = skipn (rune_len s) s ∧ stands_for out (firstn (rune_len s) s) ∧ out ≠ [].
Proof.
  intros Hn. remember (rune_len s) as n eqn:E. symmetry in E.
  destruct (rune_len_prefix s n E Hn) as (Hl & _ & Hshape).
  unfold quote_rune. destruct s as [|a s]; [by subst n|]. rewrite E.
  destruct Hshape as [[-> (a' & t & [= <- <-] & Ha)]|[H2 _]].
  - intros [= <- <-]. split_and!; [done|by apply quote_byte_stands|].
    intros Hnil. destruct a as [[] [] [] [] [] [] [] []]; vm_compute in Hnil; done.
  - destruct n as [|[|n]]; [lia..|]. cbv zeta.
    assert (Hplain : stands_for (firstn (S (S n)) (a :: s)) (firstn (S (S n)) (a :: s)) ∧
                     firstn (S (S n)) (a :: s) ≠ []) by (split; [by apply rune_stands|done]).
    destruct s as [|b [|c s]]; [intros [= <- <-]; tauto..|].
    destruct ((_ && _) && _) eqn:E3; [|intros [= <- <-]; tauto].
    apply andb_true_iff in E3 as [[Ha%Nat.eqb_eq Hb%Nat.eqb_eq]%andb_true_iff Hc].
    assert (Ea : a = ascii_of_nat 0xE2) by (rewrite <- (ascii_nat_embedding a); unfold code in Ha; congruence).
    assert (Eb : b = ascii_of_nat 0x80) by (rewrite <- (ascii_nat_embedding b); unfold code in Hb; congruence).
    assert (Hn3 : S (S n) = 3%nat).
    { rewrite <- E. subst a b. clear -Hc. revert Hc. destruct c as [[] [] [] [] [] [] [] []]; vm_compute; done. }
    rewrite Hn3. intros [= <- <-]. split; [done|]. split; [|done]. subst a b. by apply separator_stands.
Qed.

Lemma stands_nil : stands_for [] [].
Proof. split; [done|]. intros f rest Hf. by exists f. Qed.

Lemma stands_app o1 d1 o2 d2 : stands_for o1 d1 → stands_for o2 d2 → stands_for (o1 ++ o2) (d1 ++ d2).
Proof.
  intros [Hs1 Hu1] [Hs2 Hu2]. split.
  - intros acc t. rewrite <- app_assoc, Hs1, Hs2, rev_app_distr. by rewrite app_assoc.
  - intros f rest Hf. rewrite <- app_assoc in Hf |- *. destruct (Hu1 f _ Hf) as (f1 & Hf1 & ->).
    destruct (Hu2 f1 _ Hf1) as (f2 & Hf2 & ->). exists f2. by rewrite app_assoc.
Qed.

Lemma quote_runes_stands s : utf8 s → ∀ n, (length s ≤ n)%nat → stands_for (quote_runes n s) s.
Proof.
  induction 1 as [|s Hn Hrest IH]; intros n Hlen; [destruct n; apply stands_nil|].
  destruct (rune_len_prefix s _ eq_refl Hn) as (Hl & _). destruct s as [|a s]; [done|].
  destruct n as [|n]; [simpl in Hlen; lia|]. cbn [quote_runes].
  destruct (quote_rune (a :: s)) as [out r] eqn:E.
  destruct (quote_rune_stands _ _ _ Hn E) as (-> & Hout & _).
  assert (H : stands_for (out ++ quote_runes n (skipn (rune_len (a :: s)) (a :: s)))
    (firstn (rune_len (a :: s)) (a :: s) ++ skipn (rune_len (a :: s)) (a :: s))).
  { apply stands_app; [done|]. apply IH. rewrite length_skipn. cbn [List.length] in *. lia. }
  by rewrite firstn_skipn in H.
Qed.

(** What [json.Marshal] writes for a text is scanned back as that text. *)
Lemma quote_string_scan s : text s → ∃ k body,
  quote_string s = quote :: k ∧ scan_string InString k [] = Parsed body [] ∧ unquote_body body = s.
Proof.
  intros Hs. destruct (quote_runes_stands _ Hs (length (to_bytes s)) (Nat.le_refl _)) as [Hscan Hun].
  eexists _, _. split_and!; [reflexivity| |].
  - rewrite Hscan. cbn. rewrite app_nil_r, rev_involutive. reflexivity.
  - unfold unquote_body. specialize (Hun _ [] (Nat.le_refl _)) as (f' & _ & Hf').
    rewrite !app_nil_r in Hf'. rewrite Hf'. destruct f'; simpl; rewrite app_nil_r; apply of_to_bytes.
Qed.

Lemma quote_string_lays d s : text s → Lays d (RStr s) (quote_string s).
Proof. intros (k & body & -> & Hk & <-)%quote_string_scan. by apply lays_str. Qed.

(** ** A number is read back *)

Lemma digit_is n : 0 ≤ n < 10 → is_digit (digit n) = true ∧ digit_val (digit n) = n.
Proof. apply digit_read. Qed.

(** The digits of [n], read after the number [z]. *)
Lemma digits_of_spec fuel : ∀ n acc, 0 ≤ n < 2 ^ Z.of_nat fuel → (0 < fuel)%nat →
  ∃ a ds, digits_of fuel n acc = a :: ds ++ acc ∧ Forall (λ c, is_digit c = true) (a :: ds) ∧
    (0 < n → is_char "0"%char a = false) ∧ (n = 0 → ds = []) ∧
    ∀ z r, int_digits z (a :: ds ++ r) = int_digits (z * 10 ^ Z.of_nat (length (a :: ds)) + n) r.
Proof.
  induction fuel as [|f IH]; intros n acc Hn Hf; [lia|]. cbn [digits_of].
  assert (Hm : 0 ≤ n mod 10 < 10) by (apply Z.mod_pos_bound; lia).
  destruct (digit_is _ Hm) as [Hd Hv]. pose proof (Z.div_mod n 10 ltac:(lia)) as Hdm.
  destruct (Z.eqb_spec (n / 10) 0) as [E|E].
  - exists (digit (n mod 10)), []. split_and!; [done|by repeat constructor| |done|].
    + intros Hpos. apply Ascii.eqb_neq. intros Hz. rewrite <- Hz in Hv.
      change (digit_val "0"%char) with 0 in Hv. lia.
    + intros z r. cbn [app int_digits]. rewrite Hd, Hv. f_equal.
      change (10 ^ Z.of_nat (length [digit (n mod 10)])) with 10. lia.
  - assert (Hdiv : 0 < n / 10) by (pose proof (Z.div_pos n 10); lia).
    assert (Hlt : n / 10 < 2 ^ Z.of_nat f).
    { rewrite Nat2Z.inj_succ, Z.pow_succ_r in Hn by lia. assert (2 * 2 ^ Z.of_nat f ≤ 10 * 2 ^ Z.of_nat f) by (pose proof (Z.pow_pos_nonneg 2 (Z.of_nat f)); lia).
      apply Z.div_lt_upper_bound; lia. }
    destruct f as [|f]; [simpl in Hlt; lia|].
    destruct (IH (n / 10) (digit (n mod 10) :: acc)) as (a & ds & -> & Hds & Hnz & _ & Hread); [lia..|].
    exists a, (ds ++ [digit (n mod 10)]). split_and!.
    + by rewrite <- app_assoc.
    + rewrite app_comm_cons. apply Forall_app. split; [done|by repeat constructor].
    + intros _. by apply Hnz.
    + intros ->. done.
    + intros z r. rewrite <- app_assoc. cbn [app]. rewrite Hread. cbn [int_digits]. rewrite Hd, Hv.
      f_equal. rewrite app_comm_cons, length_app, Nat2Z.inj_add, Z.pow_add_r by lia.
      change (10 ^ Z.of_nat (length [digit (n mod 10)])) with 10. lia.
Qed.

Lemma nat_digits_spec n : 0 ≤ n →
  ∃ a ds, nat_digits n = a :: ds ∧ Forall (λ c, is_digit c = true) (a :: ds) ∧
    (is_char "0"%char a = true → ds = []) ∧ int_digits 0 (nat_digits n) = Some n.
Proof.
  intros Hn. unfold nat_digits.
  destruct (digits_of_spec (S (Z.to_nat (Z.log2 n))) n []) as (a & ds & -> & Hds & Hnz & Hz & Hread); [|lia|].
  { split; [done|]. rewrite Nat2Z.inj_succ, Z2Nat.id by apply Z.log2_nonneg.
    destruct (Z.eq_dec n 0) as [->|]; [done|]. apply Z.log2_spec. lia. }
  exists a, ds. rewrite app_nil_r. split_and!; [done|done| |].
  - intros Ha. destruct (Z.eq_dec n 0); [auto|]. rewrite Hnz in Ha by lia. done.
  - pose proof (Hread 0 []) as H. rewrite app_nil_r in H. by rewrite H.
Qed.

Lemma take_digits_all ds : Forall (λ c, is_digit c = true) ds → Json.take_digits ds = (ds, []).
Proof. induction 1 as [|c ds Hc _ IH]; simpl; [done|]. by rewrite Hc, IH. Qed.

Lemma nat_digits_int_part n : 0 ≤ n → int_part (nat_digits n) = Some (nat_digits n, []).
Proof.
  intros Hn. destruct (nat_digits_spec n Hn) as (a & ds & -> & Hds & H0 & _).
  cbn [int_part]. destruct (is_char "0"%char a); [by rewrite (H0 eq_refl)|].
  unfold digits1. by rewrite take_digits_all.
Qed.

Lemma minus_no_digit a : is_digit a = true → is_char minus a = false.
Proof. by destruct a as [[] [] [] [] [] [] [] []]. Qed.

Lemma format_int_lays d n : Lays d (RNum (format_int_bytes n)) (format_int_bytes n).
Proof.
  apply lays_num. unfold format_int_bytes. destruct (Z.ltb_spec n 0) as [Hn|Hn].
  - unfold scan_number.
    change (is_char minus "-"%char) with true. cbv match. rewrite nat_digits_int_part by lia. simpl. by rewrite app_nil_r.
  - pose proof (nat_digits_int_part n Hn) as H.
    destruct (nat_digits_spec n Hn) as (a & ds & E & Hds & _). unfold scan_number. rewrite E in H |- *.
    rewrite minus_no_digit by by apply Forall_inv in Hds. rewrite H. simpl. by rewrite app_nil_r.
Qed.

Definition int64_range (n : Z) : Prop := - 2 ^ 63 ≤ n < 2 ^ 63.

Lemma int_literal_format n : int64_range n → int_literal (format_int_bytes n) = Some n.
Proof.
  intros Hr. unfold int_literal, format_int_bytes. unfold int64_range in Hr.
  assert (Hb : (- 2 ^ 63 <=? n) && (n <? 2 ^ 63) = true)
    by (apply andb_true_iff; rewrite Z.leb_le, Z.ltb_lt; lia).
  destruct (Z.ltb_spec n 0) as [Hn|Hn].
  - destruct (nat_digits_spec (- n)) as (a & ds & _ & _ & _ & ->); [lia|]. simpl. rewrite Z.opp_involutive.
    by rewrite Hb.
  - destruct (nat_digits_spec n Hn) as (a & ds & E & Hds & _ & Hread). rewrite E in Hread |- *.
    assert (Ha : a ≠ "-"%char) by (intros ->; apply Forall_inv in Hds; done).
    destruct a as [[] [] [] [] [] [] [] []]; try done; cbv match; rewrite Hread; by rewrite Hb.
Qed.

Lemma decode_int_raw old n : int64_range n → decode_int old (int_raw n) = Some n.
Proof. apply int_literal_format. Qed.

(** ** A tree is read back *)

#[local] Arguments unquote_body : simpl never.

(** The trees that survive: their strings are texts, their numbers literals,
    and they are not too deep. *)
Fixpoint printable (d : Z) (r : raw) : Prop :=
  match r with
  | RNum lit => scan_number lit = Parsed lit []
  | RStr s => text s
  | RArr l =>
      d < max_depth ∧ (fix go l := match l with [] => True | x :: t => printable (d + 1) x ∧ go t end) l
  | RObj l =>
      d < max_depth ∧
      (fix go l := match l with
                   | [] => True
                   | (k, v) :: t => (text k ∧ printable (d + 1) v) ∧ go t
                   end) l
  | _ => True
  end.

Lemma printable_arr d l : printable d (RArr l) ↔ d < max_depth ∧ Forall (printable (d + 1)) l.
Proof.
  cbn [printable]. apply and_iff_compat_l. induction l as [|x l IH]; [done|]. by rewrite Forall_cons, IH.
Qed.

Lemma printable_obj d l :
  printable d (RObj l) ↔ d < max_depth ∧ Forall (λ kv, text kv.1 ∧ printable (d + 1) kv.2) l.
Proof.
  cbn [printable]. apply and_iff_compat_l. induction l as [|[k v] l IH]; [done|].
  by rewrite Forall_cons, IH.
Qed.

Lemma elements_lays d x l :
  Forall (λ r, Lays d r (render r)) (x :: l) →
  LaysElements d (x :: l) (join_bytes ","%char (map render (x :: l)) ++ ["]"%char]).
Proof.
  revert x. induction l as [|y l IH]; intros x [Hx Hl]%Forall_cons.
  - pose proof (lays_last d x [] (render x) [] ltac:(constructor) Hx ltac:(constructor)) as L.
    exact L.
  - specialize (IH y Hl). cbn [map join_bytes] in IH |- *.
    pose proof (lays_more d x _ [] (render x) [] _ ltac:(constructor) Hx ltac:(constructor) IH) as L.
    cbn [app] in L |- *. rewrite <- !app_assoc. exact L.
Qed.

Lemma members_lays d kv l :
  Forall (λ kv, text kv.1 ∧ Lays d kv.2 (render kv.2)) (kv :: l) →
  LaysMembers d (kv :: l) (join_bytes ","%char (map render_member (kv :: l)) ++ ["}"%char]).
Proof.
  revert kv. induction l as [|kv' l IH]; intros kv [[Hk Hv] Hl]%Forall_cons;
    destruct (quote_string_scan _ Hk) as (k & body & E & Hscan & Hbody);
    assert (Em : render_member kv = quote :: k ++ ":"%char :: render kv.2)
      by (unfold render_member; by rewrite E);
    destruct kv as [key v]; cbn [fst snd] in *; subst key.
  - cbn [map join_bytes]. rewrite Em.
    pose proof (lays_member d v [] k body [] [] (render v) [] ltac:(constructor) Hscan ltac:(constructor)
      ltac:(constructor) Hv ltac:(constructor)) as L.
    cbn [app] in L |- *. rewrite <- !app_assoc. exact L.
  - specialize (IH kv' Hl). cbn [map join_bytes] in IH |- *. rewrite Em.
    pose proof (lays_members d v _ [] k body [] [] (render v) [] _ ltac:(constructor) Hscan ltac:(constructor)
      ltac:(constructor) Hv ltac:(constructor) IH) as L.
    cbn [app] in L |- *. rewrite <- !app_assoc. exact L.
Qed.

Lemma render_lays r : ∀ d, printable d r → Lays d r (render r).
Proof.
  induction r as [| [|] |lit|s|l IH|l IH] using raw_nested_ind; intros d H.
  - constructor.
  - apply lays_true.
  - apply lays_false.
  - by apply lays_num.
  - by apply quote_string_lays.
  - apply printable_arr in H as [Hd H]. destruct l as [|x l].
    + apply (lays_arr_nil d []); [done|constructor].
    + apply lays_arr; [done|]. apply elements_lays.
      rewrite Forall_forall in IH, H |- *. intros r Hr. apply IH; [done|]. by apply H.
  - apply printable_obj in H as [Hd H]. destruct l as [|x l].
    + apply (lays_obj_nil d []); [done|constructor].
    + apply lays_obj; [done|]. apply members_lays.
      rewrite Forall_forall in IH, H |- *. intros kv Hkv. split; [by apply H|].
      apply (IH _ Hkv). by apply H.
Qed.

(** [json.Unmarshal] reads back the tree [json.Marshal] wrote. *)
Lemma parse_render r : printable 0 r → parse (render_string r) = Some r.
Proof.
  intros H. pose proof (parse_lays r [] (render r) []) as Hp.
  cbn [app] in Hp. rewrite app_nil_r in Hp. apply Hp; [constructor| |constructor].
  by apply render_lays.
Qed.

Lemma int_raw_printable d n : printable d (int_raw n).
Proof.
  pose proof (format_int_lays d n) as H. inversion H. assumption.
Qed.

#[export] Hint Resolve int_raw_printable : wire.
