(* ===== verification/PgTypes.v ===== *)
(** PostgreSQL's types as the services' databases use them, and [ids.IsUUID]
    (pkg/ids/ids.go).

    The server is not part of the code: [PgTypes] is what it does to a value,
    [PgLaws] the documented behaviour the theorems rely on. *)

From S2P Require Import Prelude GoStrings Strconv Json Judge Wire.
From Stdlib Require Import Ascii.

#[local] Open Scope Z_scope.

(** What PostgreSQL does to a value: a text cast to uuid (its canonical form),
    a text, a JSON text stored as JSONB and read back, a timestamp cast to
    text. *)
Class PgTypes := {
  pg_uuid : string → option string;
  pg_text : string → option string;
  jsonb : string → option string;
  timestamptz_text : Z → string;
}.

(** The documented behaviour: U+0000 has no place in JSONB or in a text, a
    text is otherwise stored as it is, a uuid's canonical form is its own, and
    JSONB keeps a value but not the order of its members. *)
Class PgLaws (T : PgTypes) := {
  jsonb_nul : ∀ s r, parse s = Some r → holds_nul r = true → jsonb s = None;
  jsonb_keeps : ∀ r, printable 0 r → holds_nul r = false →
    ∃ t r', jsonb (render_string r) = Some t ∧ parse t = Some r' ∧ reordered r r';
  text_kept : ∀ s t, pg_text s = Some t → t = s;
  text_nul : ∀ s, contains_byte zero s = true → pg_text s = None;
  uuid_canonical : ∀ s t, pg_uuid s = Some t → pg_uuid t = Some t;
}.

(** ** [ids.IsUUID] *)

Definition uuid_byte (i : nat) (c : ascii) : bool :=
  if bool_decide (i ∈ [8; 13; 18; 23]%nat) then Ascii.eqb c "-"%char
  else is_digit c || in_range_b 97 102 c || in_range_b 65 70 c.

Fixpoint uuid_bytes (i : nat) (s : bytes) : bool :=
  match s with
  | [] => true
  | c :: r => if uuid_byte i c then uuid_bytes (S i) r else false
  end.

Definition IsUUID (s : string) : bool :=
  if negb (String.length s =? 36)%nat then false else uuid_bytes 0 (to_bytes s).

(** A signed 32-bit result of Go, wrapped around. *)
Definition wrap32 (z : Z) : Z := (z + 2 ^ 31) mod 2 ^ 32 - 2 ^ 31.

(** An INT column: a value out of range is an error. *)
Definition int4 (z : Z) : option Z :=
  if (- 2 ^ 31 <=? z) && (z <? 2 ^ 31) then Some z else None.

Lemma int4_inv z y : int4 z = Some y → y = z ∧ - 2 ^ 31 ≤ z < 2 ^ 31.
Proof.
  unfold int4. destruct (_ && _) eqn:E; [|done]. intros [= <-]. bool_to_prop.
  rewrite Z.leb_le in *. rewrite Z.ltb_lt in *. done.
Qed.
