(* ===== verification/Worker.v ===== *)
(** The execution worker (services/execution-service/internal/worker/worker.go,
    spec.go) and the synchronous handlers
    (services/execution-service/internal/handler/grpc.go, spec.go).

    The Docker sandbox, the problem service and NATS are outside the model:
    [Run n req] is what the [n]-th sandbox run of a request answers,
    [GetTestCases] what the problem service answers, [publish] whether NATS
    took the message.  Module [Dispatch] is the job queue as a step relation:
    messages wait for one of a bounded number of slots. *)

From S2P Require Import Prelude GoStrings Float64 Strconv Json Judge.

#[local] Open Scope Z_scope.

(** ** Data *)

Module Codegen.
Record Param := { Name : string; Type_ : string }.
Record Method := { MName : string; Params : list Param; ReturnType : string }.
End Codegen.

(** [sandbox.ExecutionSpec] *)
Record SandboxSpec := {
  ss_IoMode : string;
  ss_EntryPoint : string;
  ss_Params : list Codegen.Param;
  ss_ReturnType : string;
  ss_Compare : string;
  ss_FloatEps : float64;
  ss_Kind : string;
  ss_Methods : list Codegen.Method;
}.

(** [sandbox.RunRequest] *)
Record RunRequest := {
  rq_ProblemId : string;
  rq_Language : string;
  rq_Code : string;
  rq_Input : string;
  rq_TimeLimitMs : Z;
  rq_MemoryLimitMb : Z;
  rq_Spec : option SandboxSpec;
  rq_Raw : bool;
}.

(** [executionv1.SubmitCodeRequest] *)
Record SubmitCodeRequest := {
  sc_SubmissionId : string;
  sc_ProblemId : string;
  sc_Language : string;
  sc_Code : string;
  sc_UserId : string;
  sc_Source : string;
}.

(** [executionv1.ExecutionResult] *)
Record ExecutionResult := {
  er_SubmissionId : string;
  er_UserId : string;
  er_ProblemId : string;
  er_OverallStatus : string;
  er_TestResults : list TestResult;
  er_CompileError : string;
  er_Runtime : Z;
  er_Memory : Z;
  er_TotalCases : Z;
  er_Source : string;
}.

(** [executionv1.RunCodeRequest] and [RunCodeResponse] *)
Record RunCodeRequest := {
  rc_ProblemId : string; rc_Language : string; rc_Code : string; rc_UserId : string }.

Record RunCodeResponse := {
  rs_JobId : string;
  rs_OverallStatus : string;
  rs_TestResults : list TestResult;
  rs_CompileError : string;
  rs_Runtime : Z;
  rs_Memory : Z;
}.

Record RunScratchpadRequest := {
  sr_Language : string; sr_Code : string; sr_Stdin : string; sr_UserId : string }.

Record RunScratchpadResponse := {
  sp_Stdout : string; sp_Stderr : string; sp_ExitCode : Z; sp_ExecutionMs : Z; sp_TimedOut : bool }.

(** gRPC status errors. *)
Inductive Code := InvalidArgument | Internal.

Definition result (A : Type) : Type := A + (Code * string).

(** ** The sandbox's form of a specification *)

Definition codegen_param (p : SignatureParam) : Codegen.Param :=
  {| Codegen.Name := sp_Name p; Codegen.Type_ := sp_Type p |}.

Definition codegen_method (m : SignatureMethod) : Codegen.Method :=
  {| Codegen.MName := sm_Name m; Codegen.Params := map codegen_param (sm_Params m);
     Codegen.ReturnType := sm_ReturnType m |}.

(** [toSandboxSpec] *)
Definition toSandboxSpec (inp : option ExecutionSpec) : option SandboxSpec :=
  match inp with
  | None => None
  | Some i =>
      Some {| ss_IoMode := es_IoMode i; ss_EntryPoint := es_EntryPoint i;
              ss_Params := map codegen_param (es_Params i); ss_ReturnType := es_ReturnType i;
              ss_Compare := es_Compare i; ss_FloatEps := es_FloatEps i; ss_Kind := es_Kind i;
              ss_Methods := map codegen_method (es_Methods i) |}
  end.

(** The languages of the [supported] maps. *)
Definition supported (language : string) : bool :=
  bool_decide (to_lower language ∈ ["python"; "javascript"; "java"; "cpp"; "go"; "sql"]).

(** [validateRunRequest] *)
Definition validateRunRequest (req : RunCodeRequest) : option string :=
  if String.eqb (rc_ProblemId req) "" then Some "problem_id is required"
  else if String.eqb (rc_Language req) "" then Some "language is required"
  else if String.eqb (rc_Code req) "" then Some "code is required"
  else if negb (supported (rc_Language req)) then
    Some ("unsupported language: " +:+ rc_Language req
          +:+ " (supported: python, javascript, java, cpp, go, sql)")
  else None.

(** ** Runs of test cases *)

Section Execution.
Context (Run : nat → RunRequest → RunResult + string)
  (GetTestCases : string → bool → (list TestCase * option ExecutionSpec) + string).

(** The request of one test case. *)
Definition case_request (problem language code : string) (spec : option ExecutionSpec)
  (tc : TestCase) : RunRequest :=
  {| rq_ProblemId := problem; rq_Language := language; rq_Code := code;
     rq_Input := tc_Input tc; rq_TimeLimitMs := tc_TimeLimitMs tc;
     rq_MemoryLimitMb := tc_MemoryLimitMb tc; rq_Spec := toSandboxSpec spec; rq_Raw := false |}.

(** The result recorded when the sandbox itself fails. *)
Definition sandbox_error (tc : TestCase) (hidden : bool) (err : string) : TestResult :=
  {| tr_TestCaseId := tc_Id tc; tr_Input := ""; tr_ExpectedOutput := ""; tr_ActualOutput := "";
     tr_Status := StatusRuntimeError; tr_ExecutionMs := 0; tr_MemoryKb := 0; tr_Error := err;
     tr_IsHidden := hidden |}.

Record tally := { ta_results : list TestResult; ta_runtime : Z; ta_memory : Z }.

(** The loop of [execute] from the [n]-th run on. *)
Fixpoint execute_loop (req : SubmitCodeRequest) (spec : option ExecutionSpec) (runAll : bool)
  (n : nat) (cases : list TestCase) (t : tally) : tally :=
  match cases with
  | [] => t
  | tc :: rest =>
      match Run n (case_request (sc_ProblemId req) (sc_Language req) (sc_Code req) spec tc) with
      | inr err =>
          execute_loop req spec runAll (S n) rest
            {| ta_results := ta_results t ++ [sandbox_error tc (tc_IsHidden tc) err];
               ta_runtime := ta_runtime t; ta_memory := ta_memory t |}
      | inl sb =>
          let tr := EvaluateTestCaseWithSpec tc sb spec in
          let t := {| ta_results := ta_results t ++ [tr];
                      ta_runtime := if ta_runtime t <? rr_ExecutionMs sb
                                    then rr_ExecutionMs sb else ta_runtime t;
                      ta_memory := if ta_memory t <? rr_MemoryKb sb
                                   then rr_MemoryKb sb else ta_memory t |} in
          if negb runAll && negb (String.eqb (tr_Status tr) StatusAccepted) then t
          else execute_loop req spec runAll (S n) rest t
      end
  end.

(** [execute] *)
Definition execute (req : SubmitCodeRequest) : ExecutionResult :=
  let res st trs ce rt mem total :=
    {| er_SubmissionId := sc_SubmissionId req; er_UserId := sc_UserId req;
       er_ProblemId := sc_ProblemId req; er_OverallStatus := st; er_TestResults := trs;
       er_CompileError := ce; er_Runtime := rt; er_Memory := mem; er_TotalCases := total;
       er_Source := sc_Source req |} in
  match GetTestCases (sc_ProblemId req) true with
  | inr err => res "RuntimeError" [] ("failed to fetch test cases: " +:+ err) 0 0 0
  | inl (cases, spec) =>
      let total := Z.of_nat (length cases) in
      if (length cases =? 0)%nat
      then res StatusRuntimeError [] "this problem has no test cases yet" 0 0 total
      else
        let runAll := String.eqb (sc_Source req) "assessment" in
        let t := execute_loop req spec runAll 0 cases
                   {| ta_results := []; ta_runtime := 0; ta_memory := 0 |} in
        res (OverallStatus (ta_results t)) (ta_results t) "" (ta_runtime t) (ta_memory t) total
  end.

(** The loop of [runCases]. *)
Fixpoint runCases_loop (req : RunCodeRequest) (spec : option ExecutionSpec) (n : nat)
  (cases : list TestCase) (trs : list TestResult) (runtime : Z) (compileError : string)
  : list TestResult * Z * string :=
  match cases with
  | [] => (trs, runtime, compileError)
  | tc :: rest =>
      match Run n (case_request (rc_ProblemId req) (rc_Language req) (rc_Code req) spec tc) with
      | inr err =>
          runCases_loop req spec (S n) rest (trs ++ [sandbox_error tc false err]) runtime
            compileError
      | inl sb =>
          let tr := EvaluateTestCaseWithSpec tc sb spec in
          runCases_loop req spec (S n) rest (trs ++ [tr])
            (if runtime <? rr_ExecutionMs sb then rr_ExecutionMs sb else runtime)
            (if String.eqb (tr_Status tr) StatusCompileError && String.eqb compileError ""
             then tr_Error tr else compileError)
      end
  end.

(** [runCases]; [jobId] is the fresh id. *)
Definition runCases (jobId : string) (req : RunCodeRequest) (includeHidden : bool)
  : result RunCodeResponse :=
  match GetTestCases (rc_ProblemId req) includeHidden with
  | inr err => inr (Internal, "fetch test cases: " +:+ err)
  | inl (cases, spec) =>
      let '(trs, runtime, compileError) := runCases_loop req spec 0 cases [] 0 "" in
      inl {| rs_JobId := jobId; rs_OverallStatus := OverallStatus trs; rs_TestResults := trs;
             rs_CompileError := compileError; rs_Runtime := runtime; rs_Memory := 0 |}
  end.

(** [RunCode] *)
Definition RunCode (jobId : string) (req : RunCodeRequest) : result RunCodeResponse :=
  match validateRunRequest req with
  | Some e => inr (InvalidArgument, e)
  | None => runCases jobId req false
  end.

(** [VerifySolution] *)
Definition VerifySolution (jobId problem language code : string) : result RunCodeResponse :=
  let run := {| rc_ProblemId := problem; rc_Language := language; rc_Code := code;
                rc_UserId := "" |} in
  match validateRunRequest run with
  | Some e => inr (InvalidArgument, e)
  | None => runCases jobId run true
  end.

(** [RunScratchpad] *)
Definition RunScratchpad (req : RunScratchpadRequest) : result RunScratchpadResponse :=
  if String.eqb (sr_Language req) "" then inr (InvalidArgument, "language is required")
  else if String.eqb (trim_space (sr_Code req)) "" then inr (InvalidArgument, "code is required")
  else if negb (supported (sr_Language req))
  then inr (InvalidArgument, "unsupported language: " +:+ sr_Language req)
  else
    match Run 0 {| rq_ProblemId := ""; rq_Language := to_lower (sr_Language req);
                   rq_Code := sr_Code req; rq_Input := sr_Stdin req; rq_TimeLimitMs := 5000;
                   rq_MemoryLimitMb := 256; rq_Spec := None; rq_Raw := true |} with
    | inr err => inr (Internal, "run failed: " +:+ err)
    | inl res =>
        inl {| sp_Stdout := rr_Stdout res; sp_Stderr := rr_Stderr res;
               sp_ExitCode := rr_ExitCode res; sp_ExecutionMs := rr_ExecutionMs res;
               sp_TimedOut := rr_TimedOut res |}
    end.

(** What a job does to its message, and what it publishes. *)
Inductive Reply := Ack | Nak.

(** [handleMessage]; [req] is the decoded message, [None] one that does not
    decode. *)
Definition handleMessage (publish : ExecutionResult → bool) (req : option SubmitCodeRequest)
  : list ExecutionResult * Reply :=
  match req with
  | None => ([], Nak)
  | Some req =>
      let result := execute req in
      if publish result then ([result], Ack) else ([], Nak)
  end.
End Execution.

(** [SubmitCode]: what it enqueues and what it answers. *)
Definition SubmitCode (publish : SubmitCodeRequest → option string) (req : SubmitCodeRequest)
  : list SubmitCodeRequest * result string :=
  if String.eqb (sc_SubmissionId req) "" || String.eqb (sc_ProblemId req) ""
     || String.eqb (sc_Language req) "" || String.eqb (sc_Code req) ""
  then ([], inr (InvalidArgument, "submission_id, problem_id, language, and code are required"))
  else
    match publish req with
    | Some err => ([], inr (Internal, "enqueue job: " +:+ err))
    | None => ([req], inl (sc_SubmissionId req))
    end.

(** [workerConcurrency]; [env] is the parsed EXEC_WORKER_CONCURRENCY. *)
Definition workerConcurrency (env : option Z) (capacity : Z) : Z :=
  match env with
  | Some n => if 0 <? n then n else capacity
  | None => capacity
  end.

(** ** Lemmas on the loops *)

Lemma evaluate_priority tc sb spec :
  tr_Status (EvaluateTestCaseWithSpec tc sb spec) = StatusAccepted
  ∨ 0 < priority (tr_Status (EvaluateTestCaseWithSpec tc sb spec)).
Proof.
  unfold EvaluateTestCaseWithSpec. repeat case_match; simplify_eq/=; auto; right; done.
Qed.

Lemma OverallStatus_accepted trs :
  OverallStatus trs = StatusAccepted → ∀ tr, tr ∈ trs → priority (tr_Status tr) = 0.
Proof.
  intros Ho tr Htr. destruct (overall_fold trs StatusAccepted) as (_ & H & _).
  replace (fold_left _ trs StatusAccepted) with (OverallStatus trs) in H by by destruct trs.
  apply H in Htr. rewrite Ho in Htr. pose proof (priority_nonneg (tr_Status tr)).
  change (priority StatusAccepted) with 0 in Htr. lia.
Qed.

Section Loops.
Context (Run : nat → RunRequest → RunResult + string).
Context (problem language code : string) (spec : option ExecutionSpec).

(** The result of one case at its turn. *)
Definition case_result (hidden : TestCase → bool) (n : nat) (tc : TestCase) : TestResult :=
  match Run n (case_request problem language code spec tc) with
  | inr err => sandbox_error tc (hidden tc) err
  | inl sb => EvaluateTestCaseWithSpec tc sb spec
  end.

Fixpoint case_results (hidden : TestCase → bool) (n : nat) (cases : list TestCase)
  : list TestResult :=
  match cases with
  | [] => []
  | tc :: rest => case_result hidden n tc :: case_results hidden (S n) rest
  end.

Lemma case_results_length hidden n cases : length (case_results hidden n cases) = length cases.
Proof. revert n. induction cases; intros n; simpl; auto. Qed.

Lemma case_results_lookup hidden n cases i :
  case_results hidden n cases !! i = case_result hidden (n + i) <$> cases !! i.
Proof.
  revert n i. induction cases as [|tc cases IH]; intros n [|i]; simpl; try done.
  - by rewrite Nat.add_0_r.
  - rewrite IH. by replace (S n + i)%nat with (n + S i)%nat by lia.
Qed.

(** Every case at its turn, judged and accepted. *)
Definition case_passes (i : nat) (tc : TestCase) : Prop :=
  ∃ sb, Run i (case_request problem language code spec tc) = inl sb
        ∧ rr_TimedOut sb = false ∧ rr_OOMKilled sb = false ∧ rr_ExitCode sb = 0
        ∧ matches (tc_ExpectedOutput tc) (rr_Stdout sb) spec = true.

Lemma case_result_accepted hidden i tc :
  priority (tr_Status (case_result hidden i tc)) = 0 →
  case_passes i tc ∧ tr_Status (case_result hidden i tc) = StatusAccepted
  ∧ tr_TestCaseId (case_result hidden i tc) = tc_Id tc.
Proof.
  unfold case_result, case_passes.
  destruct (Run i _) as [sb|err]; [|done]. unfold EvaluateTestCaseWithSpec.
  destruct (rr_TimedOut sb) eqn:E1; [done|]. destruct (rr_OOMKilled sb) eqn:E2; [done|].
  destruct (Z.eqb_spec (rr_ExitCode sb) 0) as [E3|E3]; cbn [negb]; [|done].
  destruct (matches _ _ _) eqn:E4; [|done]. intros _. split; [|done].
  exists sb. auto.
Qed.

Lemma case_result_fail hidden i tc :
  tr_Status (case_result hidden i tc) ≠ StatusAccepted →
  0 < priority (tr_Status (case_result hidden i tc)).
Proof.
  unfold case_result. destruct (Run i _) as [sb|err]; [|done].
  intros H. by destruct (evaluate_priority tc sb spec).
Qed.
End Loops.

Section ExecuteLoop.
Context (Run : nat → RunRequest → RunResult + string).
Context (req : SubmitCodeRequest) (spec : option ExecutionSpec).

Let outcomes := case_results Run (sc_ProblemId req) (sc_Language req) (sc_Code req) spec tc_IsHidden.
Let outcome := case_result Run (sc_ProblemId req) (sc_Language req) (sc_Code req) spec tc_IsHidden.

(** The loop records the outcomes in order; it stops early only behind a
    case that was judged and failed, and never when all cases must run. *)
Lemma execute_loop_results runAll n cases t :
  ∃ k, ta_results (execute_loop Run req spec runAll n cases t) = ta_results t ++ take k (outcomes n cases)
       ∧ (k = length cases ∨
          runAll = false ∧ ∃ i tr sb tc, k = S i ∧ outcomes n cases !! i = Some tr ∧
            cases !! i = Some tc ∧
            Run (n + i)%nat (case_request (sc_ProblemId req) (sc_Language req) (sc_Code req) spec tc) = inl sb ∧
            tr_Status tr ≠ StatusAccepted).
Proof.
  subst outcomes. revert n t. induction cases as [|tc cases IH]; intros n t; simpl.
  { exists 0%nat. rewrite app_nil_r. auto. }
  assert (Hk : ∀ t', ta_results t' = ta_results t ++ [outcome n tc] →
    ∃ k, ta_results (execute_loop Run req spec runAll (S n) cases t') = ta_results t ++
      take k (outcome n tc :: case_results Run (sc_ProblemId req) (sc_Language req) (sc_Code req) spec tc_IsHidden (S n) cases)
      ∧ (k = S (length cases) ∨ runAll = false ∧ ∃ i tr sb tc', k = S i ∧
          (outcome n tc :: case_results Run (sc_ProblemId req) (sc_Language req) (sc_Code req) spec tc_IsHidden (S n) cases) !! i = Some tr ∧
            (tc :: cases) !! i = Some tc' ∧
            Run (n + i)%nat (case_request (sc_ProblemId req) (sc_Language req) (sc_Code req) spec tc') = inl sb ∧
            tr_Status tr ≠ StatusAccepted)).
  { intros t' Ht'. destruct (IH (S n) t') as (k & Hk & Hd). exists (S k). split.
    - rewrite Hk, Ht'. by rewrite <- app_assoc.
    - destruct Hd as [->|(Hr & i & tr & sb & tc' & -> & H1 & H2 & H3 & H4)]; [by left|right].
      split; [done|]. exists (S i), tr, sb, tc'. 
      replace (n + S i)%nat with (S n + i)%nat by lia. auto. }
  fold (outcome n tc). unfold outcome, case_result in Hk |- *.
  destruct (Run n _) as [sb|err] eqn:E.
  - destruct (negb runAll && negb (String.eqb _ StatusAccepted)) eqn:Es; [|by apply Hk].
    bool_to_prop. apply String.eqb_neq in H0. exists 1%nat. split; [done|]. right.
    split; [done|]. eexists 0%nat, _, sb, tc. rewrite Nat.add_0_r. auto.
  - by apply Hk.
Qed.

(** The running maxima. *)
Lemma execute_loop_bounds runAll n cases t :
  ta_runtime t ≤ ta_runtime (execute_loop Run req spec runAll n cases t) ∧
  ta_memory t ≤ ta_memory (execute_loop Run req spec runAll n cases t) ∧
  (Forall (λ tr, tr_ExecutionMs tr ≤ ta_runtime t) (ta_results t) → 0 ≤ ta_runtime t →
   Forall (λ tr, tr_ExecutionMs tr ≤ ta_runtime (execute_loop Run req spec runAll n cases t))
     (ta_results (execute_loop Run req spec runAll n cases t))).
Proof.
  revert n t. induction cases as [|tc cases IH]; intros n t; cbn [execute_loop].
  { split_and!; [lia..|done]. }
  destruct (Run n _) as [sb|err].
  - set (t' := {| ta_results := _ |}).
    assert (Ht : ta_runtime t ≤ ta_runtime t' ∧ ta_memory t ≤ ta_memory t'
                 ∧ rr_ExecutionMs sb ≤ ta_runtime t').
    { unfold t'. simpl. repeat case_match; rewrite ?Z.ltb_lt, ?Z.ltb_ge in *; lia. }
    assert (Hf : Forall (λ tr, tr_ExecutionMs tr ≤ ta_runtime t) (ta_results t) →
                 Forall (λ tr, tr_ExecutionMs tr ≤ ta_runtime t') (ta_results t')).
    { intros Hf.
      assert (Hr : ta_results t' = ta_results t ++ [EvaluateTestCaseWithSpec tc sb spec]) by done.
      rewrite Hr. clearbody t'. apply Forall_app. split.
      - eapply Forall_impl; [exact Hf|]. intros tr Htr. cbn beta in *. lia.
      - constructor; [|constructor]. unfold EvaluateTestCaseWithSpec.
        destruct (if rr_TimedOut sb then _ else _). cbn. lia. }
    case_match; [split_and!; [lia..|auto]|].
    destruct (IH (S n) t') as (H1 & H2 & H3). split_and!; [lia..|]. intros. apply H3; [auto|lia].
  - set (t' := {| ta_results := _ |}). destruct (IH (S n) t') as (H1 & H2 & H3).
    split_and!; [done..|]. intros Hf H0. apply H3; [|done]. apply Forall_app.
    split; [done|]. constructor; [simpl; done|constructor].
Qed.
End ExecuteLoop.

Lemma runCases_loop_results Run req spec n cases trs rt ce :
  (∃ rt', runCases_loop Run req spec n cases trs rt ce =
  (trs ++ case_results Run (rc_ProblemId req) (rc_Language req) (rc_Code req) spec (λ _, false) n cases,
   rt', ce)).
Proof.
  revert n trs rt. induction cases as [|tc cases IH]; intros n trs rt; simpl.
  { eexists. by rewrite app_nil_r. }
  unfold case_result. destruct (Run n _) as [sb|err].
  - assert (E : String.eqb (tr_Status (EvaluateTestCaseWithSpec tc sb spec)) StatusCompileError = false).
    { unfold EvaluateTestCaseWithSpec. by repeat case_match; simplify_eq/=. }
    rewrite E. simpl. destruct (IH (S n) (trs ++ [EvaluateTestCaseWithSpec tc sb spec])
      (if rt <? rr_ExecutionMs sb then rr_ExecutionMs sb else rt)) as (rt' & ->).
    eexists. by rewrite <- app_assoc.
  - destruct (IH (S n) (trs ++ [sandbox_error tc false err]) rt) as (rt' & ->).
    eexists. by rewrite <- app_assoc.
Qed.

(** ** The job queue *)

Module Dispatch.
(** Deliveries by number: handed off and waiting for a slot, running,
    answered.  [slots] is the capacity of the [jobs] channel. *)
Record state := {
  slots : nat;
  cancelled : bool;
  waiting : gset nat;
  running : gset nat;
  replied : gmap nat Reply;
}.

Definition known (s : state) : gset nat := waiting s ∪ running s ∪ dom (replied s).

(** [Start] hands each delivery to [dispatch]; [dispatch] takes a slot while
    one is free or, once the context is cancelled, hands the message back;
    [handleMessage] replies and the slot is released. *)
Inductive step : state → state → Prop :=
  | deliver s j :
      j ∉ known s →
      step s {| slots := slots s; cancelled := cancelled s; waiting := {[j]} ∪ waiting s;
                running := running s; replied := replied s |}
  | acquire s j :
      j ∈ waiting s → (size (running s) < slots s)%nat →
      step s {| slots := slots s; cancelled := cancelled s; waiting := waiting s ∖ {[j]};
                running := {[j]} ∪ running s; replied := replied s |}
  | hand_back s j :
      j ∈ waiting s → cancelled s = true →
      step s {| slots := slots s; cancelled := cancelled s; waiting := waiting s ∖ {[j]};
                running := running s; replied := <[j := Nak]> (replied s) |}
  | finish s j r :
      j ∈ running s →
      step s {| slots := slots s; cancelled := cancelled s; waiting := waiting s;
                running := running s ∖ {[j]}; replied := <[j := r]> (replied s) |}
  | cancel s :
      step s {| slots := slots s; cancelled := true; waiting := waiting s;
                running := running s; replied := replied s |}.

Definition initial (n : nat) : state :=
  {| slots := n; cancelled := false; waiting := ∅; running := ∅; replied := ∅ |}.

Record invariant (n : nat) (s : state) : Prop := {
  inv_slots : slots s = n;
  inv_bound : (size (running s) ≤ n)%nat;
  inv_waiting : waiting s ## running s;
  inv_replied : dom (replied s) ## waiting s ∪ running s;
}.

Lemma step_invariant n s s' : invariant n s → step s s' → invariant n s'.
Proof.
  intros [Hs Hb Hw Hr] Hstep. destruct Hstep as [s j Hj|s j Hj Hlt|s j Hj _|s j r Hj|s].
  - unfold known in Hj. constructor; simpl; [done|done|set_solver..].
  - constructor; simpl; [done| |set_solver..].
    rewrite size_union by set_solver. rewrite size_singleton. lia.
  - constructor; simpl; [done|done|set_solver..|].
    rewrite dom_insert. set_solver.
  - constructor; simpl; [done| |set_solver..|].
    + assert (size (running s ∖ {[j]}) ≤ size (running s))%nat; [|lia].
      apply subseteq_size. set_solver.
    + rewrite dom_insert. set_solver.
  - by constructor.
Qed.

Lemma reachable_invariant n s : rtc step (initial n) s → invariant n s.
Proof.
  intros H. assert (Hi : invariant n (initial n)).
  { constructor; simpl; [done|apply Nat.le_0_l|set_solver..]. }
  revert Hi. induction H as [|s s' s'' Hs _ IH]; [done|]. eauto using step_invariant.
Qed.

Lemma replied_step s s' j r :
  dom (replied s) ## waiting s ∪ running s → step s s' →
  replied s !! j = Some r → replied s' !! j = Some r.
Proof.
  intros Hd Hs Hj. assert (Hin : j ∈ dom (replied s)) by by apply elem_of_dom_2 in Hj.
  destruct Hs; simpl; try done; rewrite lookup_insert_ne; [done|set_solver|done|set_solver].
Qed.

Lemma running_step s s' j :
  j ∈ running s → step s s' → j ∈ running s' ∨ ∃ r, replied s' !! j = Some r.
Proof.
  intros Hj Hs. destruct Hs as [s k|s k|s k|s k r|s]; simpl; try (left; set_solver).
  destruct (decide (j = k)) as [->|Hne]; [right; exists r; by rewrite lookup_insert_eq|].
  left. set_solver.
Qed.
End Dispatch.

(** ** Theorems *)

(** A submission is Accepted only when the problem has test cases
    and every one of them, hidden ones included, was run in order, neither
    timed out nor ran out of memory, exited with 0 and printed output that
    matches: no case is skipped and no failure is masked. *)
Theorem execute_accepted Run GetTestCases req :
  er_OverallStatus (execute Run GetTestCases req) = StatusAccepted →
  ∃ cases spec, GetTestCases (sc_ProblemId req) true = inl (cases, spec) ∧ cases ≠ [] ∧
    (∀ i tc, cases !! i = Some tc →
       case_passes Run (sc_ProblemId req) (sc_Language req) (sc_Code req) spec i tc) ∧
    Forall2 (λ tc tr, tr_TestCaseId tr = tc_Id tc ∧ tr_Status tr = StatusAccepted)
      cases (er_TestResults (execute Run GetTestCases req)).
Proof.
  unfold execute. destruct (GetTestCases _ _) as [[cases spec]|err]; [|done].
  destruct (Nat.eqb_spec (length cases) 0) as [|Hne]; [done|]. cbn. intros Ho.
  destruct (execute_loop_results Run req spec (String.eqb (sc_Source req) "assessment") 0 cases
    {| ta_results := []; ta_runtime := 0; ta_memory := 0 |}) as (k & Hk & Hd).
  rewrite Hk in Ho |- *. simpl in Ho |- *. pose proof (OverallStatus_accepted _ Ho) as Hp.
  destruct Hd as [->|(_ & i & tr & sb & tc & -> & Htr & _ & _ & Hst)].
  - exists cases, spec. rewrite take_ge in Hp |- * by by rewrite case_results_length.
    assert (Hall : ∀ i tc, cases !! i = Some tc →
      priority (tr_Status (case_result Run (sc_ProblemId req) (sc_Language req) (sc_Code req) spec
                             tc_IsHidden i tc)) = 0).
    { intros i tc Hi. apply Hp, list_elem_of_lookup. exists i. by rewrite case_results_lookup, Hi. }
    split_and!; [done|by intros ->| |].
    + intros i tc Hi. by eapply case_result_accepted, Hall.
    + apply Forall2_same_length_lookup_2; [by rewrite case_results_length|].
      intros i tc tr Hi. rewrite case_results_lookup, Hi. intros [= <-].
      by destruct (case_result_accepted _ _ _ _ _ _ _ _ (Hall i tc Hi)) as (_ & ? & ?).
  - exfalso. assert (Hz : priority (tr_Status tr) = 0).
    { apply Hp, list_elem_of_lookup. exists i. by rewrite lookup_take_lt by lia. }
    rewrite case_results_lookup in Htr. destruct (cases !! i) as [tc'|]; [|done].
    injection Htr as <-. apply case_result_fail in Hst. lia.
Qed.

Lemma execute_assessment_results Run GetTestCases req cases spec :
  sc_Source req = "assessment" → GetTestCases (sc_ProblemId req) true = inl (cases, spec) →
  er_TestResults (execute Run GetTestCases req)
    = case_results Run (sc_ProblemId req) (sc_Language req) (sc_Code req) spec tc_IsHidden 0 cases.
Proof.
  intros Hs Hg. unfold execute. rewrite Hg, Hs.
  destruct (Nat.eqb_spec (length cases) 0) as [Hl|Hne]; [by destruct cases|]. cbn.
  destruct (execute_loop_results Run req spec true 0 cases
    {| ta_results := []; ta_runtime := 0; ta_memory := 0 |}) as (k & -> & [->|[? _]]); [|done].
  simpl. by rewrite take_ge by by rewrite case_results_length.
Qed.

(** A timed-test submission runs every test case whatever the
    verdicts: one result per case, in the order of the cases, and the total it
    reports is their number. *)
Theorem execute_assessment Run GetTestCases req cases spec :
  sc_Source req = "assessment" → GetTestCases (sc_ProblemId req) true = inl (cases, spec) →
  er_TestResults (execute Run GetTestCases req)
    = case_results Run (sc_ProblemId req) (sc_Language req) (sc_Code req) spec tc_IsHidden 0 cases
  ∧ length (er_TestResults (execute Run GetTestCases req)) = length cases
  ∧ er_TotalCases (execute Run GetTestCases req) = Z.of_nat (length cases).
Proof.
  intros Hs Hg. pose proof (execute_assessment_results Run _ _ _ _ Hs Hg) as He.
  split; [done|]. rewrite He, case_results_length. split; [done|]. unfold execute. rewrite Hg.
  by destruct (Nat.eqb_spec (length cases) 0) as [->|Hne].
Qed.

(** A practice submission reports a prefix of the outcomes: it
    stops early only right after a case that was judged and did not pass, and
    the reported run time bounds that of every reported case. *)
Theorem execute_practice Run GetTestCases req cases spec :
  GetTestCases (sc_ProblemId req) true = inl (cases, spec) →
  let r := execute Run GetTestCases req in
  (∃ k, er_TestResults r = take k (case_results Run (sc_ProblemId req) (sc_Language req)
                                     (sc_Code req) spec tc_IsHidden 0 cases) ∧
     (k = length cases ∨ ∃ i tr, k = S i ∧ er_TestResults r !! i = Some tr
                                  ∧ tr_Status tr ≠ StatusAccepted)) ∧
  Forall (λ tr, tr_ExecutionMs tr ≤ er_Runtime r) (er_TestResults r).
Proof.
  intros Hg r. subst r. unfold execute. rewrite Hg.
  destruct (Nat.eqb_spec (length cases) 0) as [Hl|Hne].
  { destruct cases; [|done]. cbn. split; [|constructor]. exists 0%nat. auto. }
  cbn. set (t0 := {| ta_results := [] |}). split.
  - destruct (execute_loop_results Run req spec (String.eqb (sc_Source req) "assessment") 0 cases t0)
      as (k & -> & Hd). exists k. split; [done|].
    destruct Hd as [->|(_ & i & tr & sb & tc & -> & Htr & _ & _ & Hst)]; [by left|right].
    exists i, tr. split_and!; [done| |done]. simpl. by rewrite lookup_take_lt by lia.
  - apply execute_loop_bounds; simpl; [constructor|lia].
Qed.

(** The run path and the submit path agree: for the same code the
    synchronous check of all cases and an assessment submission give the same
    overall status and, case by case, the same id, verdict and error. *)
Theorem VerifySolution_execute Run GetTestCases jobId req r :
  sc_Source req = "assessment" →
  VerifySolution Run GetTestCases jobId (sc_ProblemId req) (sc_Language req) (sc_Code req) = inl r →
  rs_TestResults r ≠ [] →
  rs_OverallStatus r = er_OverallStatus (execute Run GetTestCases req) ∧
  Forall2 (λ a b, tr_TestCaseId a = tr_TestCaseId b ∧ tr_Status a = tr_Status b
                  ∧ tr_Error a = tr_Error b)
    (rs_TestResults r) (er_TestResults (execute Run GetTestCases req)).
Proof.
  intros Hs. unfold VerifySolution. destruct (validateRunRequest _); [done|]. unfold runCases. cbn.
  destruct (GetTestCases (sc_ProblemId req) true) as [[cases spec]|err] eqn:Hg; [|done].
  destruct (runCases_loop_results Run {| rc_ProblemId := sc_ProblemId req;
    rc_Language := sc_Language req; rc_Code := sc_Code req; rc_UserId := "" |} spec 0 cases [] 0 "")
    as (rt & ->). cbn. intros [= <-]. cbn. intros Hne.
  set (f := λ _ : TestCase, false).
  assert (H2 : ∀ n, Forall2 (λ a b, tr_TestCaseId a = tr_TestCaseId b ∧ tr_Status a = tr_Status b
                  ∧ tr_Error a = tr_Error b)
    (case_results Run (sc_ProblemId req) (sc_Language req) (sc_Code req) spec f n cases)
    (case_results Run (sc_ProblemId req) (sc_Language req) (sc_Code req) spec tc_IsHidden n cases)).
  { clear Hg Hne. induction cases as [|tc cases IH]; intros n; simpl; constructor; [|apply IH].
    unfold case_result. by destruct (Run n _). }
  pose proof (execute_assessment_results Run GetTestCases req cases spec Hs Hg) as He.
  rewrite He. split; [|apply H2].
  assert (Hos : er_OverallStatus (execute Run GetTestCases req)
                = OverallStatus (er_TestResults (execute Run GetTestCases req))).
  { unfold execute. rewrite Hg. destruct (Nat.eqb_spec (length cases) 0); [|done].
    by destruct cases. }
  rewrite Hos, He. specialize (H2 0%nat). revert H2.
  generalize (case_results Run (sc_ProblemId req) (sc_Language req) (sc_Code req) spec f 0 cases).
  generalize (case_results Run (sc_ProblemId req) (sc_Language req) (sc_Code req) spec tc_IsHidden 0 cases).
  intros l m H2. assert (Hm : map tr_Status m = map tr_Status l).
  { induction H2 as [|a b m l (_ & E & _) _ IH]; [done|]. simpl. by rewrite E, IH. }
  assert (Hf : ∀ trs, OverallStatus trs =
    fold_left (λ worst st, if priority worst <? priority st then st else worst)
      (map tr_Status trs) StatusAccepted).
  { intros trs. unfold OverallStatus. destruct trs as [|tr trs]; [done|].
    generalize StatusAccepted, (tr :: trs). clear. intros w trs. revert w.
    induction trs as [|tr trs IH]; intros w; simpl; [done|]. apply IH. }
  by rewrite !Hf, Hm.
Qed.

(** However deliveries, completions and a shutdown interleave, never
    more jobs run than there are slots, a job waits or runs or has been
    answered and never two of these, and an answer is final. *)
Theorem dispatch_bounded n s s' :
  rtc Dispatch.step (Dispatch.initial n) s → Dispatch.step s s' →
  (size (Dispatch.running s') ≤ n)%nat ∧
  Dispatch.waiting s' ## Dispatch.running s' ∧
  dom (Dispatch.replied s') ## Dispatch.waiting s' ∪ Dispatch.running s' ∧
  (∀ j r, Dispatch.replied s !! j = Some r → Dispatch.replied s' !! j = Some r) ∧
  (∀ j, j ∈ Dispatch.running s →
        j ∈ Dispatch.running s' ∨ ∃ r, Dispatch.replied s' !! j = Some r).
Proof.
  intros H Hs. apply Dispatch.reachable_invariant in H.
  pose proof (Dispatch.step_invariant _ _ _ H Hs) as [_ Hb Hw Hr].
  split_and!; [done..| |].
  - intros j r. apply Dispatch.replied_step; [apply H|done].
  - intros j Hj. by eapply Dispatch.running_step.
Qed.

(** The compile error of a run response is never set: the judge has no such
    verdict. *)
Lemma runCases_no_compile_error Run GetTestCases jobId req includeHidden r :
  runCases Run GetTestCases jobId req includeHidden = inl r → rs_CompileError r = "".
Proof.
  unfold runCases. destruct (GetTestCases _ _) as [[cases spec]|]; [|done].
  destruct (runCases_loop_results Run req spec 0 cases [] 0 "") as (rt & ->). by intros [= <-].
Qed.

(** A sandbox error does not stop a practice submission. *)
Lemma execute_loop_sandbox_error Run req spec runAll n tc cases t err :
  Run n (case_request (sc_ProblemId req) (sc_Language req) (sc_Code req) spec tc) = inr err →
  execute_loop Run req spec runAll n (tc :: cases) t =
  execute_loop Run req spec runAll (S n) cases
    {| ta_results := ta_results t ++ [sandbox_error tc (tc_IsHidden tc) err];
       ta_runtime := ta_runtime t; ta_memory := ta_memory t |}.
Proof. intros H. simpl. by rewrite H. Qed.

(** ** Concrete inputs *)

Definition echo_run (n : nat) (req : RunRequest) : RunResult + string :=
  inl {| rr_Stdout := rq_Input req; rr_Stderr := ""; rr_ExitCode := 0;
         rr_ExecutionMs := 10 + Z.of_nat n; rr_MemoryKb := 64; rr_TimedOut := false;
         rr_OOMKilled := false |}.

Definition echo_case (id expected : string) : TestCase :=
  {| tc_Id := id; tc_Input := "7"; tc_ExpectedOutput := expected; tc_IsHidden := true;
     tc_TimeLimitMs := 1000; tc_MemoryLimitMb := 64; tc_OrderIndex := 0 |}.

Definition echo_cases (outs : list string) (_ : string) (_ : bool)
  : (list TestCase * option ExecutionSpec) + string :=
  inl (map (echo_case "c") outs, None).

Definition echo_req (source : string) : SubmitCodeRequest :=
  {| sc_SubmissionId := "s"; sc_ProblemId := "p"; sc_Language := "go"; sc_Code := "x";
     sc_UserId := "u"; sc_Source := source |}.

Lemma execute_accepted_witness :
  ∃ cases spec, echo_cases ["7"; "7 "] "p" true = inl (cases, spec) ∧ cases ≠ [] ∧
    (∀ i tc, cases !! i = Some tc → case_passes echo_run "p" "go" "x" spec i tc) ∧
    Forall2 (λ tc tr, tr_TestCaseId tr = tc_Id tc ∧ tr_Status tr = StatusAccepted)
      cases (er_TestResults (execute echo_run (echo_cases ["7"; "7 "]) (echo_req ""))).
Proof.
  apply (execute_accepted echo_run (echo_cases ["7"; "7 "]) (echo_req "")).
  vm_compute. reflexivity.
Defined.

Lemma execute_assessment_witness :
  length (er_TestResults (execute echo_run (echo_cases ["8"; "7"]) (echo_req "assessment"))) = 2%nat
  ∧ er_OverallStatus (execute echo_run (echo_cases ["8"; "7"]) (echo_req "assessment"))
    = StatusWrongAnswer.
Proof.
  split; [|vm_compute; reflexivity].
  apply (execute_assessment echo_run (echo_cases ["8"; "7"]) (echo_req "assessment")
           (map (echo_case "c") ["8"; "7"]) None); reflexivity.
Defined.

Lemma execute_practice_witness :
  let r := execute echo_run (echo_cases ["8"; "7"]) (echo_req "") in
  length (er_TestResults r) = 1%nat ∧ Forall (λ tr, tr_ExecutionMs tr ≤ er_Runtime r) (er_TestResults r).
Proof.
  intros r. split; [vm_compute; reflexivity|].
  apply (execute_practice echo_run (echo_cases ["8"; "7"]) (echo_req "")
           (map (echo_case "c") ["8"; "7"]) None). reflexivity.
Defined.

Definition echo_verified : RunCodeResponse :=
  match VerifySolution echo_run (echo_cases ["8"; "7"]) "j" "p" "go" "x" with
  | inl r => r
  | inr _ => {| rs_JobId := ""; rs_OverallStatus := ""; rs_TestResults := [];
                rs_CompileError := ""; rs_Runtime := 0; rs_Memory := 0 |}
  end.

Lemma VerifySolution_execute_witness :
  rs_OverallStatus echo_verified
  = er_OverallStatus (execute echo_run (echo_cases ["8"; "7"]) (echo_req "assessment")).
Proof.
  apply (VerifySolution_execute echo_run (echo_cases ["8"; "7"]) "j" (echo_req "assessment")
           echo_verified).
  - reflexivity.
  - vm_compute. reflexivity.
  - vm_compute. discriminate.
Defined.

Lemma dispatch_bounded_witness :
  ∃ s', Dispatch.running s' = {[0%nat]} ∧ (size (Dispatch.running s') ≤ 1)%nat.
Proof.
  set (s := {| Dispatch.slots := 1; Dispatch.cancelled := false; Dispatch.waiting := {[0%nat]} ∪ ∅;
               Dispatch.running := ∅; Dispatch.replied := ∅ |}).
  assert (H0 : Dispatch.step (Dispatch.initial 1) s).
  { apply (Dispatch.deliver (Dispatch.initial 1) 0). decide_now. }
  assert (H1 := Dispatch.acquire s 0).
  eexists. split; [|eapply (dispatch_bounded 1 s); [by eapply rtc_once|apply H1]].
  - simpl. set_solver.
  - decide_now.
  - decide_now.
Defined.
