(* ===== verification/Messages.v ===== *)
(** The messages on NATS between the submission service, the execution worker
    and the assessment service, as JSON (proto/execution/v1/execution.go,
    services/submission-service/internal/orchestrator/orchestrator.go).

    Each message has its tree ([request_raw], [result_raw], [graded_raw]) and
    the table its reader decodes it with; the round-trip lemmas say that what
    one service writes the next one reads. *)

From S2P Require Import Prelude GoStrings Json Judge Wire Worker.

#[local] Open Scope Z_scope.

(** ** Execution requests *)

(** [json.Marshal(execReq)] *)
Definition request_raw (r : SubmitCodeRequest) : raw :=
  RObj ([("submission_id", RStr (sc_SubmissionId r)); ("problem_id", RStr (sc_ProblemId r));
         ("language", RStr (sc_Language r)); ("code", RStr (sc_Code r));
         ("user_id", RStr (sc_UserId r))]
        ++ omitempty_string "source" (sc_Source r)).

Definition no_request : SubmitCodeRequest :=
  {| sc_SubmissionId := ""; sc_ProblemId := ""; sc_Language := ""; sc_Code := "";
     sc_UserId := ""; sc_Source := "" |}.

Definition request_fields : fields SubmitCodeRequest :=
  [("submission_id", string_field sc_SubmissionId (λ s '(Build_SubmitCodeRequest _ p l c u f),
      Build_SubmitCodeRequest s p l c u f));
   ("problem_id", string_field sc_ProblemId (λ p '(Build_SubmitCodeRequest s _ l c u f),
      Build_SubmitCodeRequest s p l c u f));
   ("language", string_field sc_Language (λ l '(Build_SubmitCodeRequest s p _ c u f),
      Build_SubmitCodeRequest s p l c u f));
   ("code", string_field sc_Code (λ c '(Build_SubmitCodeRequest s p l _ u f),
      Build_SubmitCodeRequest s p l c u f));
   ("user_id", string_field sc_UserId (λ u '(Build_SubmitCodeRequest s p l c _ f),
      Build_SubmitCodeRequest s p l c u f));
   ("source", string_field sc_Source (λ f '(Build_SubmitCodeRequest s p l c u _),
      Build_SubmitCodeRequest s p l c u f))].

(** [json.Unmarshal(msg.Data, &req)] *)
Definition decode_request (data : string) : option SubmitCodeRequest :=
  parse data ≫= decode_struct request_fields no_request.

(** ** Test results *)

Definition result_raw (t : TestResult) : raw :=
  RObj ([("test_case_id", RStr (tr_TestCaseId t)); ("input", RStr (tr_Input t));
         ("expected_output", RStr (tr_ExpectedOutput t)); ("actual_output", RStr (tr_ActualOutput t));
         ("status", RStr (tr_Status t)); ("execution_ms", int_raw (tr_ExecutionMs t));
         ("memory_kb", int_raw (tr_MemoryKb t))]
        ++ omitempty_string "error" (tr_Error t) ++ omitempty_bool "is_hidden" (tr_IsHidden t)).

(** A slice of results: [nil] is written as [null]. *)
Definition results_raw (l : list TestResult) : raw :=
  match l with [] => RNull | _ => RArr (map result_raw l) end.

Definition no_result : TestResult :=
  {| tr_TestCaseId := ""; tr_Input := ""; tr_ExpectedOutput := ""; tr_ActualOutput := "";
     tr_Status := ""; tr_ExecutionMs := 0; tr_MemoryKb := 0; tr_Error := ""; tr_IsHidden := false |}.

Definition result_fields : fields TestResult :=
  [("test_case_id", string_field tr_TestCaseId (λ t '(Build_TestResult _ i x a s m k e h),
      Build_TestResult t i x a s m k e h));
   ("input", string_field tr_Input (λ i '(Build_TestResult t _ x a s m k e h),
      Build_TestResult t i x a s m k e h));
   ("expected_output", string_field tr_ExpectedOutput (λ x '(Build_TestResult t i _ a s m k e h),
      Build_TestResult t i x a s m k e h));
   ("actual_output", string_field tr_ActualOutput (λ a '(Build_TestResult t i x _ s m k e h),
      Build_TestResult t i x a s m k e h));
   ("status", string_field tr_Status (λ s '(Build_TestResult t i x a _ m k e h),
      Build_TestResult t i x a s m k e h));
   ("execution_ms", int_field tr_ExecutionMs (λ m '(Build_TestResult t i x a s _ k e h),
      Build_TestResult t i x a s m k e h));
   ("memory_kb", int_field tr_MemoryKb (λ k '(Build_TestResult t i x a s m _ e h),
      Build_TestResult t i x a s m k e h));
   ("error", string_field tr_Error (λ e '(Build_TestResult t i x a s m k _ h),
      Build_TestResult t i x a s m k e h));
   ("is_hidden", bool_field tr_IsHidden (λ h '(Build_TestResult t i x a s m k e _),
      Build_TestResult t i x a s m k e h))].

(** Decoding into a slice of pointers that holds [old]: an element already
    there is decoded into, and [null] is the nil pointer. *)
Fixpoint decode_pointers (old : list (option TestResult)) (l : list raw)
  : option (list (option TestResult)) :=
  match l with
  | [] => Some []
  | v :: t =>
      let here := match v with
                  | RNull => Some None
                  | _ => Some <$> decode_struct result_fields (default no_result (default None (head old))) v
                  end in
      match here, decode_pointers (tail old) t with
      | Some x, Some xs => Some (x :: xs)
      | _, _ => None
      end
  end.

Definition decode_slice (old : list (option TestResult)) (v : raw) : option (list (option TestResult)) :=
  match v with RArr l => decode_pointers old l | RNull => Some [] | _ => None end.

Definition pointers_field {A} (get : A → list (option TestResult))
  (set : list (option TestResult) → A → A) : raw → A → option A :=
  λ v x, (λ l, set l x) <$> decode_slice (get x) v.

(** ** Execution results *)

(** [json.Marshal(result)] *)
Definition execution_raw (r : ExecutionResult) : raw :=
  RObj ([("submission_id", RStr (er_SubmissionId r)); ("user_id", RStr (er_UserId r));
         ("problem_id", RStr (er_ProblemId r)); ("overall_status", RStr (er_OverallStatus r));
         ("test_results", results_raw (er_TestResults r))]
        ++ omitempty_string "compile_error" (er_CompileError r)
        ++ [("runtime_ms", int_raw (er_Runtime r)); ("memory_kb", int_raw (er_Memory r));
            ("total_cases", int_raw (er_TotalCases r))]
        ++ omitempty_string "source" (er_Source r)).

(** [executionv1.ExecutionResult] as its reader holds it: the results are
    pointers, any of which may be nil. *)
Record Inbound := {
  in_SubmissionId : string;
  in_UserId : string;
  in_ProblemId : string;
  in_OverallStatus : string;
  in_TestResults : list (option TestResult);
  in_CompileError : string;
  in_Runtime : Z;
  in_Memory : Z;
  in_TotalCases : Z;
  in_Source : string;
}.

Definition no_inbound : Inbound :=
  {| in_SubmissionId := ""; in_UserId := ""; in_ProblemId := ""; in_OverallStatus := "";
     in_TestResults := []; in_CompileError := ""; in_Runtime := 0; in_Memory := 0;
     in_TotalCases := 0; in_Source := "" |}.

Definition inbound_fields : fields Inbound :=
  [("submission_id", string_field in_SubmissionId (λ s '(Build_Inbound _ u p o t e r k n f),
      Build_Inbound s u p o t e r k n f));
   ("user_id", string_field in_UserId (λ u '(Build_Inbound s _ p o t e r k n f),
      Build_Inbound s u p o t e r k n f));
   ("problem_id", string_field in_ProblemId (λ p '(Build_Inbound s u _ o t e r k n f),
      Build_Inbound s u p o t e r k n f));
   ("overall_status", string_field in_OverallStatus (λ o '(Build_Inbound s u p _ t e r k n f),
      Build_Inbound s u p o t e r k n f));
   ("test_results", pointers_field in_TestResults (λ t '(Build_Inbound s u p o _ e r k n f),
      Build_Inbound s u p o t e r k n f));
   ("compile_error", string_field in_CompileError (λ e '(Build_Inbound s u p o t _ r k n f),
      Build_Inbound s u p o t e r k n f));
   ("runtime_ms", int_field in_Runtime (λ r '(Build_Inbound s u p o t e _ k n f),
      Build_Inbound s u p o t e r k n f));
   ("memory_kb", int_field in_Memory (λ k '(Build_Inbound s u p o t e r _ n f),
      Build_Inbound s u p o t e r k n f));
   ("total_cases", int_field in_TotalCases (λ n '(Build_Inbound s u p o t e r k _ f),
      Build_Inbound s u p o t e r k n f));
   ("source", string_field in_Source (λ f '(Build_Inbound s u p o t e r k n _),
      Build_Inbound s u p o t e r k n f))].

(** [json.Unmarshal(msg.Data, &result)] *)
Definition decode_execution (data : string) : option Inbound :=
  parse data ≫= decode_struct inbound_fields no_inbound.

(** The same result with every pointer set. *)
Definition received (r : ExecutionResult) : Inbound :=
  {| in_SubmissionId := er_SubmissionId r; in_UserId := er_UserId r; in_ProblemId := er_ProblemId r;
     in_OverallStatus := er_OverallStatus r; in_TestResults := map Some (er_TestResults r);
     in_CompileError := er_CompileError r; in_Runtime := er_Runtime r; in_Memory := er_Memory r;
     in_TotalCases := er_TotalCases r; in_Source := er_Source r |}.

(** ** Graded events *)

(** [orchestrator.GradedEvent], as JSON. *)
Record GradedEvent := {
  ge_SubmissionId : string;
  ge_UserId : string;
  ge_ProblemId : string;
  ge_OverallStatus : string;
  ge_RuntimeMs : Z;
  ge_MemoryKb : Z;
  ge_PassedCount : Z;
  ge_TotalCount : Z;
  ge_Source : string;
}.

Definition graded_raw (e : GradedEvent) : raw :=
  RObj ([("submission_id", RStr (ge_SubmissionId e)); ("user_id", RStr (ge_UserId e));
         ("problem_id", RStr (ge_ProblemId e)); ("overall_status", RStr (ge_OverallStatus e));
         ("runtime_ms", int_raw (ge_RuntimeMs e)); ("memory_kb", int_raw (ge_MemoryKb e));
         ("passed_count", int_raw (ge_PassedCount e)); ("total_count", int_raw (ge_TotalCount e))]
        ++ omitempty_string "source" (ge_Source e)).

(** ** The progress service's request *)

(** [progressv1.UpdateProblemStatusRequest] *)
Record UpdateProblemStatusRequest := {
  up_UserId : string;
  up_ProblemId : string;
  up_SetId : string;
  up_Status : string;
  up_IsCorrect : bool;
  up_RuntimeMs : Z;
  up_MemoryKb : Z;
  up_Language : string;
  up_XpEarned : Z;
}.

(** ** Round trips *)

(** [read_fields] evaluates which field each key of a written message names. *)
Ltac read_fields :=
  repeat match goal with
  | |- context [field_is ?a ?b] =>
      let v := eval vm_compute in (field_is a b) in change (field_is a b) with v; cbv iota
  end.

Ltac read_struct :=
  repeat (first
    [ progress cbn [decode_struct decode_members decode_member fst snd app]
    | progress read_fields
    | progress unfold string_field, int_field, bool_field, pointers_field
    | progress cbn [decode_string decode_bool fmap option_fmap option_map mbind option_bind
                    no_request no_result no_inbound]
    | rewrite decode_int_raw by done ]).

Definition request_texts (r : SubmitCodeRequest) : Prop :=
  text (sc_SubmissionId r) ∧ text (sc_ProblemId r) ∧ text (sc_Language r) ∧ text (sc_Code r) ∧
  text (sc_UserId r) ∧ text (sc_Source r).

Lemma request_decode r : decode_struct request_fields no_request (request_raw r) = Some r.
Proof.
  destruct r as [s p l c u f]. unfold request_raw, omitempty_string, request_fields.
  cbn [sc_SubmissionId sc_ProblemId sc_Language sc_Code sc_UserId sc_Source].
  destruct (String.eqb_spec f "") as [->|Hf]; read_struct; reflexivity.
Qed.

Definition result_ints (t : TestResult) : Prop :=
  int64_range (tr_ExecutionMs t) ∧ int64_range (tr_MemoryKb t).

Lemma result_decode t : result_ints t → decode_struct result_fields no_result (result_raw t) = Some t.
Proof.
  destruct t as [t i x a s m k e h]. intros [Hm Hk]. cbn in Hm, Hk.
  unfold result_raw, omitempty_string, omitempty_bool, result_fields.
  cbn [tr_TestCaseId tr_Input tr_ExpectedOutput tr_ActualOutput tr_Status tr_ExecutionMs tr_MemoryKb
       tr_Error tr_IsHidden].
  destruct (String.eqb_spec e "") as [->|He], h; read_struct; reflexivity.
Qed.

Lemma results_decode l : Forall result_ints l → decode_slice [] (results_raw l) = Some (map Some l).
Proof.
  assert (H : Forall result_ints l → decode_pointers [] (map result_raw l) = Some (map Some l)).
  { induction 1 as [|t l Ht _ IH]; [done|]. cbn [map decode_pointers tail head default]. rewrite IH.
    by rewrite result_decode. }
  by destruct l.
Qed.

Definition execution_ints (r : ExecutionResult) : Prop :=
  Forall result_ints (er_TestResults r) ∧ int64_range (er_Runtime r) ∧ int64_range (er_Memory r) ∧
  int64_range (er_TotalCases r).

Lemma execution_decode r :
  execution_ints r → decode_struct inbound_fields no_inbound (execution_raw r) = Some (received r).
Proof.
  destruct r as [s u p o l e rt k n f]. intros (Hl & Hr & Hk & Hn). cbn in Hl, Hr, Hk, Hn.
  apply results_decode in Hl.
  unfold execution_raw, received, omitempty_string, inbound_fields, no_inbound.
  cbn [er_SubmissionId er_UserId er_ProblemId er_OverallStatus er_TestResults er_CompileError
       er_Runtime er_Memory er_TotalCases er_Source].
  destruct (String.eqb_spec e "") as [->|He], (String.eqb_spec f "") as [->|Hf];
    read_struct; cbn [in_TestResults]; rewrite Hl; read_struct; reflexivity.
Qed.

(** ** Printable messages *)

Ltac text_now := apply (utf8_b_sound 64); vm_compute; reflexivity.

Lemma omitempty_string_printable d k s :
  text k → text s → Forall (λ kv, text kv.1 ∧ printable d kv.2) (omitempty_string k s).
Proof. intros Hk Hs. unfold omitempty_string. destruct (String.eqb s ""); [done|]. by apply Forall_singleton. Qed.

Lemma omitempty_bool_printable d k b :
  text k → Forall (λ kv, text kv.1 ∧ printable d kv.2) (omitempty_bool k b).
Proof. intros Hk. unfold omitempty_bool. destruct b; [|done]. by apply Forall_singleton. Qed.

(** [print_fields] splits the fields of a message into their keys, which are
    closed texts, and their values. *)
Ltac print_fields :=
  apply printable_obj; split; [done|];
  repeat first
    [ apply Forall_app; split
    | apply omitempty_string_printable; [text_now|]
    | apply omitempty_bool_printable; text_now
    | apply Forall_cons; split; [split; [text_now|cbn [snd]]|]
    | apply Forall_nil; exact I ];
  try done; try apply int_raw_printable.

Lemma request_printable r : request_texts r → printable 0 (request_raw r).
Proof. intros (H1 & H2 & H3 & H4 & H5 & H6). unfold request_raw. print_fields. Qed.

Definition result_texts (t : TestResult) : Prop :=
  text (tr_TestCaseId t) ∧ text (tr_Input t) ∧ text (tr_ExpectedOutput t) ∧ text (tr_ActualOutput t) ∧
  text (tr_Status t) ∧ text (tr_Error t).

Lemma result_printable d t : d < max_depth → result_texts t → printable d (result_raw t).
Proof. intros Hd (H1 & H2 & H3 & H4 & H5 & H6). unfold result_raw. print_fields. Qed.

Lemma results_printable d l : d + 1 < max_depth → Forall result_texts l → printable d (results_raw l).
Proof.
  intros Hd Hl. destruct l as [|t l]; [done|].
  cbn [results_raw]. apply printable_arr. split; [lia|]. apply Forall_map.
  eapply Forall_impl; [exact Hl|]. intros x Hx. by apply result_printable.
Qed.

Definition execution_texts (r : ExecutionResult) : Prop :=
  text (er_SubmissionId r) ∧ text (er_UserId r) ∧ text (er_ProblemId r) ∧ text (er_OverallStatus r) ∧
  Forall result_texts (er_TestResults r) ∧ text (er_CompileError r) ∧ text (er_Source r).

Lemma execution_printable r : execution_texts r → printable 0 (execution_raw r).
Proof.
  intros (H1 & H2 & H3 & H4 & H5 & H6 & H7). unfold execution_raw. print_fields.
  by apply results_printable.
Qed.

(** What one service writes, the next one reads. *)
Lemma request_roundtrip r :
  request_texts r → decode_request (render_string (request_raw r)) = Some r.
Proof.
  intros H. unfold decode_request. rewrite parse_render by by apply request_printable.
  apply request_decode.
Qed.

Lemma execution_roundtrip r :
  execution_texts r → execution_ints r →
  decode_execution (render_string (execution_raw r)) = Some (received r).
Proof.
  intros Ht Hi. unfold decode_execution. rewrite parse_render by by apply execution_printable.
  by apply execution_decode.
Qed.

(** ** Members in another order *)

(** Two members that name different fields can be decoded in either order. *)
Definition commute {A} (fs : fields A) (kv kv' : string * raw) : Prop :=
  ∀ x, (decode_member fs kv x ≫= decode_member fs kv') = (decode_member fs kv' x ≫= decode_member fs kv).

Lemma decode_members_cons {A} (fs : fields A) kv l x :
  decode_members fs (kv :: l) x = decode_member fs kv x ≫= decode_members fs l.
Proof. done. Qed.

Lemma decode_members_perm {A} (fs : fields A) l l' :
  l ≡ₚ l' → NoDup (map fst l) →
  (∀ kv kv', kv ∈ l → kv' ∈ l → kv.1 ≠ kv'.1 → commute fs kv kv') →
  ∀ x, decode_members fs l x = decode_members fs l' x.
Proof.
  induction 1 as [|kv l l' HP IH|kv kv' l|l1 l2 l3 HP1 IH1 HP2 IH2]; intros Hnd Hc x; [done| | |].
  - rewrite !decode_members_cons. destruct (decode_member fs kv x) as [y|]; [|done]. cbn.
    apply NoDup_cons in Hnd as [_ Hnd]. apply IH; [done|]. intros a b Ha Hb. apply Hc; by right.
  - rewrite !decode_members_cons. cbn [map] in Hnd. apply NoDup_cons in Hnd as [Hk _].
    assert (Hne : kv'.1 ≠ kv.1) by (intros E; apply Hk; rewrite E; by left).
    pose proof (Hc kv' kv ltac:(by left) ltac:(by right; left) Hne x) as E.
    destruct (decode_member fs kv' x) as [y|] eqn:E1, (decode_member fs kv x) as [z|] eqn:E2;
      cbn in E |- *; rewrite ?decode_members_cons; rewrite ?E; rewrite <- ?E; done.
  - rewrite IH1 by done. apply IH2; [by rewrite <- HP1|]. intros a b Ha Hb. apply Hc; by rewrite HP1.
Qed.

(** The members of a written result. *)
Definition result_members (t : TestResult) : list (string * raw) :=
  match result_raw t with RObj l => l | _ => [] end.

Lemma result_members_nodup t : NoDup (map fst (result_members t)).
Proof.
  unfold result_members, result_raw, omitempty_string, omitempty_bool.
  destruct (String.eqb (tr_Error t) ""), (tr_IsHidden t); cbn [app map fst];
    apply (bool_decide_unpack _); vm_compute; exact I.
Qed.

Lemma reordered_flat v v' :
  reordered v v' → match v with RArr _ | RObj _ => True | _ => v' = v end.
Proof. destruct 1 as [r| |]; [by destruct r|done..]. Qed.

Lemma result_members_values t kv :
  kv ∈ result_members t → match kv.2 with RArr _ | RObj _ => False | _ => True end.
Proof.
  unfold result_members, result_raw, omitempty_string, omitempty_bool.
  destruct (String.eqb (tr_Error t) ""), (tr_IsHidden t); cbn [app];
    intros H; repeat (apply elem_of_cons in H as [-> |H]; [exact I|]); by apply elem_of_nil in H.
Qed.

(** Every member a result may be written with. *)
Definition all_members (t : TestResult) : list (string * raw) :=
  [("test_case_id", RStr (tr_TestCaseId t)); ("input", RStr (tr_Input t));
   ("expected_output", RStr (tr_ExpectedOutput t)); ("actual_output", RStr (tr_ActualOutput t));
   ("status", RStr (tr_Status t)); ("execution_ms", int_raw (tr_ExecutionMs t));
   ("memory_kb", int_raw (tr_MemoryKb t)); ("error", RStr (tr_Error t));
   ("is_hidden", RBool (tr_IsHidden t))].

Lemma result_members_all t kv : kv ∈ result_members t → kv ∈ all_members t.
Proof.
  unfold result_members, result_raw, omitempty_string, omitempty_bool, all_members.
  destruct (String.eqb (tr_Error t) ""), (tr_IsHidden t); cbn [app];
    rewrite !elem_of_cons; tauto.
Qed.

Lemma all_members_commute t kv kv' :
  result_ints t → kv ∈ all_members t → kv' ∈ all_members t → kv.1 ≠ kv'.1 →
  commute result_fields kv kv'.
Proof.
  intros [Hm Hk]. destruct t as [t i x a s m k e h]. cbn in Hm, Hk.
  intros H H' Hne [t0 i0 x0 a0 s0 m0 k0 e0 h0]. revert H H' Hne. unfold all_members.
  cbn [tr_TestCaseId tr_Input tr_ExpectedOutput tr_ActualOutput tr_Status tr_ExecutionMs tr_MemoryKb
       tr_Error tr_IsHidden]. intros H H'.
  repeat (apply elem_of_cons in H as [-> |H]; [|try by apply elem_of_nil in H]);
    try (by apply elem_of_nil in H);
    repeat (apply elem_of_cons in H' as [-> |H']; [|try by apply elem_of_nil in H']);
    try (by apply elem_of_nil in H'); intros Hne; try (by destruct Hne);
    unfold result_fields; read_struct; reflexivity.
Qed.

(** A written result is read back whatever the order of its members. *)
Lemma result_decode_reordered t v :
  result_ints t → reordered (result_raw t) v → decode_struct result_fields no_result v = Some t.
Proof.
  intros Hi Hr. rewrite <- (result_decode t Hi). change (result_raw t) with (RObj (result_members t)) in *.
  inversion Hr as [| |l l1 l' Hl HP]; subst; [done|]. cbn [decode_struct].
  assert (E : result_members t = l1).
  { clear -Hl. pose proof (result_members_values t) as Hv. revert Hv Hl. generalize (result_members t) as l0.
    intros l0 Hv Hl. induction Hl as [|[k v] [k' v'] l0 l1 [Hk H1] Hl IH]; [done|]. cbn in Hk, H1. subst k'.
    rewrite IH by (intros kv Hkv; apply Hv; by right). f_equal. f_equal.
    apply reordered_flat in H1. specialize (Hv (k, v) ltac:(by left)). cbn in Hv. by destruct v. }
  subst l1. symmetry. apply decode_members_perm; [done|apply result_members_nodup|].
  intros kv kv' H1 H2. apply (all_members_commute t); [done|by apply result_members_all..].
Qed.

Lemma results_decode_reordered l v :
  Forall result_ints l → reordered (results_raw l) v → decode_slice [] v = Some (map Some l).
Proof.
  intros Hi Hr. destruct l as [|t l]; [by apply reordered_flat in Hr as ->|].
  inversion Hr as [|x l' Hl|]; subst; [by apply results_decode|]. cbn [decode_slice].
  clear Hr. change (result_raw t :: map result_raw l) with (map result_raw (t :: l)) in Hl.
  revert l' Hl Hi. generalize (t :: l) as ts. intros ts.
  induction ts as [|a ts IH]; intros l' Hl Hi.
  - by apply Forall2_nil_inv_l in Hl as ->.
  - apply Forall2_cons_inv_l in Hl as (v' & l'' & Hv & Hl & ->). apply Forall_cons in Hi as [Ha Hi].
    cbn [decode_pointers tail head default map]. rewrite (IH _ Hl Hi).
    rewrite (result_decode_reordered a v' Ha Hv). destruct v'; done || inversion Hv.
Qed.
