(* ===== verification/Submissions.v ===== *)
(** The submission service (services/submission-service/internal/repository/
    postgres.go, internal/orchestrator/orchestrator.go, internal/handler/
    grpc.go, pkg/ids/ids.go).

    [Submit] stores a submission as Pending and enqueues its execution;
    [onResult] is the callback of [listenForResults] on one message: it stores
    the verdict, reports progress for practice, and publishes the graded
    event.  The state is the submissions table with what left the process:
    the messages published and the progress updates sent. *)

From S2P Require Import Prelude GoStrings Strconv GoTime Json Judge Wire PgTypes Worker Service Messages.
From Stdlib Require Import Ascii.

#[local] Open Scope Z_scope.
#[local] Open Scope service_scope.

(** ** Data *)

(** [submissionv1.SubmitRequest] *)
Record SubmitRequest := {
  su_ProblemId : string;
  su_Language : string;
  su_Code : string;
  su_UserId : string;
  su_Source : string;
}.

(** A row of [submissions]; [sm_test_results] is the JSONB value as text. *)
Record SubmissionRow := {
  sm_user_id : string;
  sm_problem_id : string;
  sm_language : string;
  sm_code : string;
  sm_status : string;
  sm_runtime_ms : Z;
  sm_memory_kb : Z;
  sm_compile_error : option string;
  sm_test_results : string;
  sm_submitted_at : Z;
  sm_completed_at : option Z;
}.

Record State := {
  submissions : gmap string SubmissionRow;
  published : list (string * string);
  progress_calls : list UpdateProblemStatusRequest;
}.

Definition with_submissions (t : gmap string SubmissionRow) (s : State) : State :=
  {| submissions := t; published := published s; progress_calls := progress_calls s |}.

(** [submissionv1.Submission] *)
Record Submission := {
  sn_Id : string;
  sn_UserId : string;
  sn_ProblemId : string;
  sn_Language : string;
  sn_Code : string;
  sn_Status : string;
  sn_RuntimeMs : Z;
  sn_MemoryKb : Z;
  sn_TestResults : list (option TestResult);
  sn_CompileError : string;
  sn_SubmittedAt : string;
  sn_CompletedAt : string;
}.

Section Submissions.
Context {T : PgTypes}.

(** ** Repository *)

(** [CreateSubmission] *)
Definition CreateSubmission (req : SubmitRequest) : Svc State string :=
  t <- clock_now ;;
  effect "create submission" (λ st s,
    match pg_text (su_UserId req), pg_uuid (su_ProblemId req), pg_text (su_Language req),
          pg_text (su_Code req), submissions s !! st_fresh st with
    | Some user, Some problem, Some language, Some code, None =>
        Some (st_fresh st, with_submissions (<[st_fresh st :=
          {| sm_user_id := user; sm_problem_id := problem; sm_language := language;
             sm_code := code; sm_status := "Pending"; sm_runtime_ms := 0; sm_memory_kb := 0;
             sm_compile_error := None; sm_test_results := "[]"; sm_submitted_at := t;
             sm_completed_at := None |}]> (submissions s)) s)
    | _, _, _, _, _ => None
    end).

Definition set_result (status : string) (runtime memory : Z) (compileError results : string)
  (completed : Z) (r : SubmissionRow) : SubmissionRow :=
  {| sm_user_id := sm_user_id r; sm_problem_id := sm_problem_id r; sm_language := sm_language r;
     sm_code := sm_code r; sm_status := status; sm_runtime_ms := runtime; sm_memory_kb := memory;
     sm_compile_error := Some compileError; sm_test_results := results;
     sm_submitted_at := sm_submitted_at r; sm_completed_at := Some completed |}.

(** [UpdateSubmissionResult] *)
Definition UpdateSubmissionResult (id status : string) (runtime memory : Z) (compileError : string)
  (testResults : list TestResult) : Svc State unit :=
  if negb (IsUUID id) then return_ tt
  else
    let trJSON := render_string (results_raw testResults) in
    t <- clock_now ;;
    effect "update submission result" (λ st s,
      match pg_text status, pg_text compileError, jsonb trJSON, pg_uuid id with
      | Some status, Some compileError, Some results, Some key =>
          Some (tt, with_submissions
            (alter (set_result status runtime memory compileError results t) key (submissions s)) s)
      | _, _, _, _ => None
      end).

(** [json.Unmarshal(trJSON, &s.TestResults)], its error ignored: the column
    holds what [UpdateSubmissionResult] wrote, or the empty array. *)
Definition read_results (column : string) : list (option TestResult) :=
  default [] (parse column ≫= decode_slice []).

Definition read_submission (id : string) (r : SubmissionRow) : Submission :=
  {| sn_Id := id; sn_UserId := sm_user_id r; sn_ProblemId := sm_problem_id r;
     sn_Language := sm_language r; sn_Code := sm_code r; sn_Status := sm_status r;
     sn_RuntimeMs := sm_runtime_ms r; sn_MemoryKb := sm_memory_kb r;
     sn_TestResults := read_results (sm_test_results r);
     sn_CompileError := default "" (sm_compile_error r);
     sn_SubmittedAt := of_bytes (rfc3339 (sm_submitted_at r));
     sn_CompletedAt := match sm_completed_at r with
                       | Some t => of_bytes (rfc3339 t) | None => "" end |}.

(** [GetSubmission] *)
Definition GetSubmission (id : string) : Svc State Submission :=
  if negb (IsUUID id) then error ("submission not found: " +:+ id)
  else
    found <- effect "get submission" (λ st s,
      match pg_uuid id with
      | Some key => Some ((λ r, (key, r)) <$> submissions s !! key, s)
      | None => None
      end) ;;
    match found with
    | None => error ("submission not found: " +:+ id)
    | Some (key, r) => return_ (read_submission key r)
    end.

(** *** Listing *)

(** [ListSubmissionsRequest], its numbers of 32 bits. *)
Record ListSubmissionsRequest := {
  ls_UserId : string; ls_ProblemId : string; ls_Page : Z; ls_PageSize : Z }.

Record ListSubmissionsResponse := {
  lr_Submissions : list Submission; lr_Total : Z; lr_Page : Z; lr_PageSize : Z }.

Definition list_page (req : ListSubmissionsRequest) : Z := if ls_Page req <? 1 then 1 else ls_Page req.
Definition list_page_size (req : ListSubmissionsRequest) : Z :=
  if (ls_PageSize req <? 1) || (100 <? ls_PageSize req) then 20 else ls_PageSize req.
Definition list_offset (req : ListSubmissionsRequest) : Z :=
  wrap32 ((list_page req - 1) * list_page_size req).

(** The WHERE clause. *)
Definition listed (req : ListSubmissionsRequest) (r : SubmissionRow) : bool :=
  String.eqb (sm_user_id r) (ls_UserId req)
  && (String.eqb (ls_ProblemId req) "" || String.eqb (sm_problem_id r) (ls_ProblemId req)).

Definition newest (a b : string * SubmissionRow) : bool :=
  sm_submitted_at b.2 <=? sm_submitted_at a.2.

(** The rows of the query, in the order the server gives equal ones. *)
Definition listed_rows (st : Stamp) (req : ListSubmissionsRequest) (s : State)
  : list (string * SubmissionRow) :=
  let keys := st_rows st (map fst (map_to_list (submissions s))) in
  let rows := omap (λ k, (λ r, (k, r)) <$> submissions s !! k) keys in
  order_by newest (filter (λ kr, listed req kr.2 = true) rows).

(** A row of the listing: no code, no results, and the time of completion as
    the server writes it. *)
Definition list_row (kr : string * SubmissionRow) : Submission :=
  let r := kr.2 in
  {| sn_Id := kr.1; sn_UserId := sm_user_id r; sn_ProblemId := sm_problem_id r;
     sn_Language := sm_language r; sn_Code := ""; sn_Status := sm_status r;
     sn_RuntimeMs := sm_runtime_ms r; sn_MemoryKb := sm_memory_kb r; sn_TestResults := [];
     sn_CompileError := ""; sn_SubmittedAt := of_bytes (rfc3339 (sm_submitted_at r));
     sn_CompletedAt := match sm_completed_at r with Some t => timestamptz_text t | None => "" end |}.

(** [ListSubmissions]; PostgreSQL refuses a negative OFFSET, and the count's
    error is ignored. *)
Definition ListSubmissions (req : ListSubmissionsRequest) : Svc State ListSubmissionsResponse :=
  rows <- effect "list submissions" (λ st s,
    match pg_text (ls_UserId req),
          if String.eqb (ls_ProblemId req) "" then Some "" else pg_text (ls_ProblemId req) with
    | Some _, Some _ =>
        if list_offset req <? 0 then None
        else Some (take (Z.to_nat (list_page_size req))
                     (drop (Z.to_nat (list_offset req)) (listed_rows st req s)), s)
    | _, _ => None
    end) ;;
  count <- try (effect "count" (λ st s,
    let n := Z.of_nat (length (listed_rows st req s)) in
    if n <? 2 ^ 31 then Some (n, s) else None)) ;;
  return_ {| lr_Submissions := map list_row rows;
             lr_Total := match count with inl n => n | inr _ => 0 end;
             lr_Page := list_page req; lr_PageSize := list_page_size req |}.

(** ** Orchestrator *)

Definition subjectExecutionRun : string := "execution.run".
Definition subjectSubmissionGraded : string := "submission.graded".

(** [js.Publish] *)
Definition publish (subject data : string) : Svc State unit :=
  effect "publish" (λ _ s,
    Some (tt, {| submissions := submissions s; published := published s ++ [(subject, data)];
                 progress_calls := progress_calls s |})).

(** [Submit] *)
Definition Submit (req : SubmitRequest) : Svc State string :=
  submissionId <- CreateSubmission req ;;
  let execReq :=
    {| sc_SubmissionId := submissionId; sc_ProblemId := su_ProblemId req;
       sc_Language := su_Language req; sc_Code := su_Code req; sc_UserId := su_UserId req;
       sc_Source := su_Source req |} in
  sent <- try (publish subjectExecutionRun (render_string (request_raw execReq))) ;;
  match sent with
  | inr err =>
      try (UpdateSubmissionResult submissionId "RuntimeError" 0 0 "failed to enqueue job" []) ;;
      error ("publish execution job: " +:+ err)
  | inl _ => return_ submissionId
  end.

(** What the callback does to its message; a nil pointer takes the process
    down. *)
Inductive Reply := Acked | Naked | Crashed.

(** The conversion of the results in the callback, field by field. *)
Definition submission_result (tr : TestResult) : TestResult :=
  {| tr_TestCaseId := tr_TestCaseId tr; tr_Input := tr_Input tr;
     tr_ExpectedOutput := tr_ExpectedOutput tr; tr_ActualOutput := tr_ActualOutput tr;
     tr_Status := tr_Status tr; tr_ExecutionMs := tr_ExecutionMs tr; tr_MemoryKb := tr_MemoryKb tr;
     tr_Error := tr_Error tr; tr_IsHidden := tr_IsHidden tr |}.

(** The loop: the converted results and how many were accepted; [None] when
    it dereferences nil. *)
Fixpoint convert (results : list (option TestResult)) (trResults : list TestResult) (passedCount : Z)
  : option (list TestResult * Z) :=
  match results with
  | [] => Some (trResults, passedCount)
  | None :: _ => None
  | Some tr :: rest =>
      convert rest (trResults ++ [submission_result tr])
        (if String.eqb (tr_Status tr) "Accepted" then passedCount + 1 else passedCount)
  end.

(** [progressCli.UpdateProblemStatus] *)
Definition call_progress (req : UpdateProblemStatusRequest) : Svc State unit :=
  effect "update progress" (λ _ s,
    Some (tt, {| submissions := submissions s; published := published s;
                 progress_calls := progress_calls s ++ [req] |})).

(** The progress update of a practice verdict. *)
Definition progress_update (r : Inbound) (language : string) : UpdateProblemStatusRequest :=
  if String.eqb (in_OverallStatus r) "Accepted" then
    {| up_UserId := in_UserId r; up_ProblemId := in_ProblemId r; up_SetId := "";
       up_Status := "Solved"; up_IsCorrect := true; up_RuntimeMs := in_Runtime r;
       up_MemoryKb := in_Memory r; up_Language := language; up_XpEarned := 0 |}
  else
    {| up_UserId := in_UserId r; up_ProblemId := in_ProblemId r; up_SetId := "";
       up_Status := "InProgress"; up_IsCorrect := false; up_RuntimeMs := 0; up_MemoryKb := 0;
       up_Language := language; up_XpEarned := 0 |}.

(** The event of a verdict. *)
Definition graded_event (r : Inbound) (trResults : list TestResult) (passedCount : Z) : GradedEvent :=
  let n := Z.of_nat (length trResults) in
  {| ge_SubmissionId := in_SubmissionId r; ge_UserId := in_UserId r; ge_ProblemId := in_ProblemId r;
     ge_OverallStatus := in_OverallStatus r; ge_RuntimeMs := in_Runtime r; ge_MemoryKb := in_Memory r;
     ge_PassedCount := passedCount;
     ge_TotalCount := if in_TotalCases r <? n then n else in_TotalCases r;
     ge_Source := in_Source r |}.

(** The callback on a decoded result; [hasProgress] says whether the service
    was given a progress client. *)
Definition onInbound (hasProgress : bool) (r : Inbound) : Svc State Reply :=
  match convert (in_TestResults r) [] 0 with
  | None => return_ Crashed
  | Some (trResults, passedCount) =>
      stored <- try (UpdateSubmissionResult (in_SubmissionId r) (in_OverallStatus r) (in_Runtime r)
                       (in_Memory r) (in_CompileError r) trResults) ;;
      match stored with
      | inr _ => return_ Naked
      | inl _ =>
          rec <- try (GetSubmission (in_SubmissionId r)) ;;
          let language := match rec with inl s => sn_Language s | inr _ => "" end in
          (if hasProgress && negb (String.eqb (in_Source r) "assessment")
           then try (call_progress (progress_update r language)) ;; return_ tt
           else return_ tt) ;;
          try (publish subjectSubmissionGraded
                 (render_string (graded_raw (graded_event r trResults passedCount)))) ;;
          return_ Acked
      end
  end.

(** The callback of [listenForResults]. *)
Definition onResult (hasProgress : bool) (data : string) : Svc State Reply :=
  match decode_execution data with
  | None => return_ Naked
  | Some r => onInbound hasProgress r
  end.

(** ** Handlers *)

Inductive Code := InvalidArgument | NotFound | Internal.

(** [SubmissionHandler.Submit] *)
Definition HandleSubmit (req : SubmitRequest) : Svc State (string + Code * string) :=
  if String.eqb (su_UserId req) "" || String.eqb (su_ProblemId req) ""
     || String.eqb (su_Language req) "" || String.eqb (su_Code req) ""
  then return_ (inr (InvalidArgument, "user_id, problem_id, language, and code are required"))
  else
    r <- try (Submit req) ;;
    return_ (match r with
             | inl id => inl id
             | inr err => inr (Internal, "submit: " +:+ err)
             end).

(** [SubmissionHandler.GetSubmission] *)
Definition HandleGetSubmission (id : string) : Svc State (Submission + Code * string) :=
  if String.eqb id "" then return_ (inr (InvalidArgument, "id is required"))
  else
    r <- try (GetSubmission id) ;;
    return_ (match r with
             | inl s => inl s
             | inr _ => inr (NotFound, "submission not found: " +:+ id)
             end).

(** [SubmissionHandler.ListSubmissions] *)
Definition HandleListSubmissions (req : ListSubmissionsRequest)
  : Svc State (ListSubmissionsResponse + Code * string) :=
  if String.eqb (ls_UserId req) "" then return_ (inr (InvalidArgument, "user_id is required"))
  else
    r <- try (ListSubmissions req) ;;
    return_ (match r with
             | inl resp => inl resp
             | inr err => inr (Internal, "list submissions: " +:+ err)
             end).
End Submissions.

(** ** Lemmas *)

Section Lemmas.
Context {T : PgTypes} {L : PgLaws T}.

(** *** The loop *)

Lemma map_some_inj {A} (l l' : list A) : map Some l = map Some l' → l = l'.
Proof. revert l'. induction l as [|x l IH]; intros [|y l'] H; try done. injection H as -> H. by rewrite (IH l'). Qed.

Definition accepted_count (l : list TestResult) : Z :=
  Z.of_nat (length (filter (λ tr, String.eqb (tr_Status tr) "Accepted" = true) l)).

Lemma submission_result_id tr : submission_result tr = tr.
Proof. by destruct tr. Qed.

Lemma convert_received l acc passed :
  convert (map Some l) acc passed = Some (acc ++ l, passed + accepted_count l).
Proof.
  revert acc passed. induction l as [|tr l IH]; intros acc passed.
  { unfold accepted_count. simpl. by rewrite app_nil_r, Z.add_0_r. }
  cbn [map convert]. rewrite IH, submission_result_id, <- app_assoc. unfold accepted_count.
  do 2 f_equal. destruct (String.eqb (tr_Status tr) "Accepted") eqn:E.
  - rewrite filter_cons_True by done. cbn [length]. lia.
  - rewrite filter_cons_False by (rewrite E; done). lia.
Qed.

(** The results it converts, when no pointer is nil. *)
Lemma convert_inv results acc passed trs n :
  convert results acc passed = Some (trs, n) →
  ∃ l, results = map Some l ∧ trs = acc ++ l ∧ n = passed + accepted_count l.
Proof.
  intros H. assert (∃ l, results = map Some l) as [l ->].
  { revert acc passed H. induction results as [|[tr|] rest IH]; intros acc passed H; [by exists []| |done].
    apply IH in H as [l ->]. by exists (tr :: l). }
  rewrite convert_received in H. injection H as <- <-. eauto.
Qed.

Lemma accepted_count_bounds l : 0 ≤ accepted_count l ≤ Z.of_nat (length l).
Proof.
  unfold accepted_count.
  pose proof (length_filter (λ tr : TestResult, String.eqb (tr_Status tr) "Accepted" = true) l). lia.
Qed.

(** *** Effects *)

Lemma publish_inv subject data w n s x n' s' :
  alone w → try (publish subject data) w n s = (inl x, n', s') →
  n' = (n + 1)%nat ∧ submissions s' = submissions s ∧ progress_calls s' = progress_calls s ∧
  (published s' = published s ++ [(subject, data)] ∧ failure w n ≠ FailsBefore ∨
   published s' = published s ∧ failure w n = FailsBefore) ∧
  (failure w n = Works ↔ ∃ u, x = inl u).
Proof.
  intros Ho. unfold try, publish. rewrite effect_alone by done.
  destruct (failure w n) eqn:Hf; intros [= <- <- <-]; cbn [published submissions progress_calls];
    split_and!; solve [done|by auto|by split; [eexists|]|by split; [|intros [? ?]]].
Qed.

Lemma call_progress_inv req w n s x n' s' :
  alone w → try (call_progress req) w n s = (inl x, n', s') →
  n' = (n + 1)%nat ∧ submissions s' = submissions s ∧ published s' = published s ∧
  (progress_calls s' = progress_calls s ++ [req] ∧ failure w n ≠ FailsBefore ∨
   progress_calls s' = progress_calls s ∧ failure w n = FailsBefore).
Proof.
  intros Ho. unfold try, call_progress. rewrite effect_alone by done.
  destruct (failure w n) eqn:Hf; intros [= <- <- <-]; cbn [published submissions progress_calls];
    (split_and!; [done..|]); auto.
Qed.

(** What the update of a verdict did. *)
Lemma update_result_inv id status rt mem ce trs w n s n' s' :
  alone w → UpdateSubmissionResult id status rt mem ce trs w n s = (inl tt, n', s') →
  published s' = published s ∧ progress_calls s' = progress_calls s ∧
  (IsUUID id = false ∧ s' = s ∧ n' = n ∨
   IsUUID id = true ∧ n' = (n + 2)%nat ∧ ∃ results key,
     jsonb (render_string (results_raw trs)) = Some results ∧ pg_uuid id = Some key ∧
     submissions s' = alter (set_result status rt mem ce results (time_at w n)) key (submissions s)).
Proof.
  intros Ho. unfold UpdateSubmissionResult. destruct (IsUUID id) eqn:Ei; cbn [negb].
  - intros H. svc_bind H t n1 s1 Ht. injection Ht as <- <- <-. svc_call H. rewrite Ho in H.
    destruct (pg_text status) as [st'|] eqn:E1; [|done].
    destruct (pg_text ce) as [ce'|] eqn:E2; [|done].
    destruct (jsonb _) as [results|] eqn:E3; [|done]. destruct (pg_uuid id) as [key|] eqn:E4; [|done].
    apply text_kept in E1 as ->. apply text_kept in E2 as ->. injection H as <-.
    split_and!; [done..|]. right. split_and!; [done|lia|]. by exists results, key.
  - intros [= <- <-]. auto 10.
Qed.

Lemma update_result_error id status rt mem ce trs w n s msg n' s' :
  alone w → UpdateSubmissionResult id status rt mem ce trs w n s = (inr msg, n', s') →
  published s' = published s ∧ progress_calls s' = progress_calls s.
Proof.
  intros Ho. unfold UpdateSubmissionResult. destruct (IsUUID id); cbn [negb]; [|done].
  unfold then_, clock_now. rewrite effect_alone by done.
  repeat case_match; intros; simplify_eq; done.
Qed.

Lemma get_submission_reads id w n s x n' s' :
  alone w → try (GetSubmission id) w n s = (inl x, n', s') → s' = s.
Proof.
  intros Ho. unfold try, GetSubmission, then_, return_, error. destruct (IsUUID id); cbn [negb].
  - rewrite effect_alone by done. destruct (failure w n), (pg_uuid id) as [key|]; try destruct (submissions s !! key);
      intros; repeat case_match; simplify_eq/=; done.
  - by intros [= <- <- <-].
Qed.
End Lemmas.

(** ** Submitting *)

Section Submitting.
Context {T : PgTypes} {L : PgLaws T}.

(** The job of a stored submission. *)
Definition job (id : string) (req : SubmitRequest) : SubmitCodeRequest :=
  {| sc_SubmissionId := id; sc_ProblemId := su_ProblemId req; sc_Language := su_Language req;
     sc_Code := su_Code req; sc_UserId := su_UserId req; sc_Source := su_Source req |}.

(** The row of a request. *)
Definition stored (req : SubmitRequest) (problem : string) (t : Z) : SubmissionRow :=
  {| sm_user_id := su_UserId req; sm_problem_id := problem; sm_language := su_Language req;
     sm_code := su_Code req; sm_status := "Pending"; sm_runtime_ms := 0; sm_memory_kb := 0;
     sm_compile_error := None; sm_test_results := "[]"; sm_submitted_at := t; sm_completed_at := None |}.

Lemma create_inv req w n s id n' s' :
  alone w → CreateSubmission req w n s = (inl id, n', s') →
  n' = (n + 2)%nat ∧ submissions s !! id = None ∧ id = new_id w (n + 1) ∧ ∃ problem,
    pg_uuid (su_ProblemId req) = Some problem ∧
    s' = with_submissions (<[id := stored req problem (time_at w n)]> (submissions s)) s.
Proof.
  intros Ho H. unfold CreateSubmission in H. svc_bind H t n1 s1 Ht. injection Ht as <- <- <-.
  svc_call H. rewrite Ho in H. cbn [stamp st_fresh] in H.
  destruct (pg_text (su_UserId req)) as [u|] eqn:E1; [|done].
  destruct (pg_uuid (su_ProblemId req)) as [p|] eqn:E2; [|done].
  destruct (pg_text (su_Language req)) as [l|] eqn:E3; [|done].
  destruct (pg_text (su_Code req)) as [c|] eqn:E4; [|done].
  destruct (submissions s !! _) eqn:E5; [done|]. injection H as <- <-.
  apply text_kept in E1 as ->. apply text_kept in E3 as ->. apply text_kept in E4 as ->.
  split_and!; [lia|done|done|]. by exists p.
Qed.

(** A submission that is accepted is stored once,
    as Pending and with the request's own text, under a fresh id, and exactly
    one job for it is published, which the execution worker decodes to the
    request it was. *)
Theorem Submit_enqueues req w n s id n' s' :
  alone w → Submit req w n s = (inl id, n', s') →
  submissions s !! id = None ∧
  ∃ problem data, pg_uuid (su_ProblemId req) = Some problem ∧
    submissions s' = <[id := stored req problem (time_at w n)]> (submissions s) ∧
    published s' = published s ++ [("execution.run", data)] ∧
    progress_calls s' = progress_calls s ∧
    (request_texts (job id req) → decode_request data = Some (job id req)).
Proof.
  intros Ho H. unfold Submit in H. svc_bind H i n1 s1 Hc.
  apply create_inv in Hc as (-> & Hn & Hi & problem & Hp & ->); [|done].
  svc_bind H sent n2 s2 Hs. apply publish_inv in Hs as (-> & Hsub & Hprog & Hpub & Hw); [|done].
  destruct sent as [[]|err].
  - injection H as <- _ <-. split; [done|].
    exists problem, (render_string (request_raw (job i req))). split_and!; try done.
    + destruct Hpub as [[Hpub _]|[_ Hf]]; [done|].
      assert (failure w (n + 2) = Works) by (apply Hw; by eexists). congruence.
    + apply request_roundtrip.
  - svc_bind H r n3 s3 Hr. done.
Qed.

(** The runs of the two statements when they work. *)
Lemma create_works req w n s problem :
  alone w → failure w (n + 1) = Works →
  pg_text (su_UserId req) = Some (su_UserId req) → pg_uuid (su_ProblemId req) = Some problem →
  pg_text (su_Language req) = Some (su_Language req) → pg_text (su_Code req) = Some (su_Code req) →
  submissions s !! new_id w (n + 1) = None →
  CreateSubmission req w n s =
    (inl (new_id w (n + 1)), (n + 1 + 1)%nat,
     with_submissions (<[new_id w (n + 1) := stored req problem (time_at w n)]> (submissions s)) s).
Proof.
  intros Ho Hf E1 E2 E3 E4 E5. unfold CreateSubmission, then_, clock_now. rewrite effect_alone by done.
  rewrite Hf. cbn [stamp st_fresh]. by rewrite E1, E2, E3, E4, E5.
Qed.

Lemma update_works id status rt mem ce trs w n s key results :
  alone w → failure w (n + 1) = Works → IsUUID id = true → pg_uuid id = Some key →
  pg_text status = Some status → pg_text ce = Some ce →
  jsonb (render_string (results_raw trs)) = Some results →
  UpdateSubmissionResult id status rt mem ce trs w n s =
    (inl tt, (n + 1 + 1)%nat,
     with_submissions (alter (set_result status rt mem ce results (time_at w n)) key (submissions s)) s).
Proof.
  intros Ho Hf Hi Hk E1 E2 E3. unfold UpdateSubmissionResult. rewrite Hi. cbn [negb].
  unfold then_, clock_now. rewrite effect_alone by done. rewrite Hf. by rewrite E1, E2, E3, Hk.
Qed.

(** When the job cannot be enqueued the caller gets
    an error, no job is published and the stored submission is marked
    RuntimeError, so that it does not wait for a verdict for ever. *)
Theorem Submit_unsent req w n s problem :
  alone w → (∀ k, failure w k = if (k =? n + 1 + 1)%nat then FailsBefore else Works) →
  pg_text (su_UserId req) = Some (su_UserId req) → pg_uuid (su_ProblemId req) = Some problem →
  pg_text (su_Language req) = Some (su_Language req) → pg_text (su_Code req) = Some (su_Code req) →
  submissions s !! new_id w (n + 1) = None →
  IsUUID (new_id w (n + 1)) = true → pg_uuid (new_id w (n + 1)) = Some (new_id w (n + 1)) →
  pg_text "RuntimeError" = Some "RuntimeError" →
  pg_text "failed to enqueue job" = Some "failed to enqueue job" →
  ∃ results msg n' s',
    Submit req w n s = (inr msg, n', s') ∧ published s' = published s ∧
    parse results = Some RNull ∧
    submissions s' = <[new_id w (n + 1) :=
      set_result "RuntimeError" 0 0 "failed to enqueue job" results (time_at w (n + 3))
        (stored req problem (time_at w n))]> (submissions s).
Proof.
  intros Ho Hf E1 E2 E3 E4 E5 Hid Hu Es Ec.
  destruct (jsonb_keeps RNull) as (results & r' & Hj & Hp & Hr); [done|done|].
  assert (r' = RNull) as -> by by inversion Hr. exists results.
  assert (Hk : ∀ k, (k ≠ n + 1 + 1)%nat → failure w k = Works).
  { intros k Hk. rewrite Hf. by rewrite (proj2 (Nat.eqb_neq _ _) Hk). }
  do 3 eexists. unfold Submit, then_ at 1. rewrite (create_works _ _ _ _ problem) by (done || apply Hk; lia).
  unfold then_ at 1, try at 1, publish. rewrite effect_alone by done. rewrite Hf, Nat.eqb_refl.
  unfold then_, try at 1. rewrite (update_works _ _ _ _ _ _ _ _ _ (new_id w (n + 1)) results)
    by (done || apply Hk; lia).
  unfold error. split_and!; [reflexivity|done|done|].
  cbn [submissions with_submissions]. replace (n + 3)%nat with (n + 1 + 1 + 1)%nat by lia.
  apply map_eq. intros k. destruct (decide (k = new_id w (n + 1))) as [->|Hne].
  - by rewrite lookup_alter_eq, !lookup_insert_eq.
  - by rewrite lookup_alter_ne, !lookup_insert_ne.
Qed.
End Submitting.

(** ** Verdicts *)

Section Verdicts.
Context {T : PgTypes} {L : PgLaws T}.

(** The event of a result all of whose pointers are set. *)
Definition event_of (r : Inbound) (l : list TestResult) : GradedEvent :=
  graded_event r l (accepted_count l).

(** What the callback leaves in the outbox: at most one progress update, for
    practice only, and at most the one event. *)
Definition reported (hasProgress : bool) (r : Inbound) (l : list TestResult) (s s' : State) : Prop :=
  (progress_calls s' = progress_calls s ∨
   hasProgress = true ∧ in_Source r ≠ "assessment" ∧
   ∃ language, progress_calls s' = progress_calls s ++ [progress_update r language]) ∧
  (published s' = published s ∨
   published s' = published s ++ [("submission.graded", render_string (graded_raw (event_of r l)))]).

Lemma onInbound_inv hp r w n s o n' s' :
  alone w → onInbound hp r w n s = (inl o, n', s') →
  (o = Crashed ∧ s' = s ∧ ¬ ∃ l, in_TestResults r = map Some l) ∨
  ∃ l r1 n1 s1, in_TestResults r = map Some l ∧
    UpdateSubmissionResult (in_SubmissionId r) (in_OverallStatus r) (in_Runtime r) (in_Memory r)
      (in_CompileError r) l w n s = (r1, n1, s1) ∧
    match r1 with
    | inr _ => o = Naked ∧ s' = s1
    | inl _ => o = Acked ∧ submissions s' = submissions s1 ∧ reported hp r l s1 s'
    end.
Proof.
  intros Ho. unfold onInbound. destruct (convert _ _ _) as [[trs passed]|] eqn:Ec.
  - apply convert_inv in Ec as (l & El & -> & ->). cbn [app]. intros H. right.
    svc_bind H answer n1 s1 Hu. unfold try in Hu.
    destruct (UpdateSubmissionResult _ _ _ _ _ l w n s) as [[r1 n2] s2] eqn:E. injection Hu as <- <- <-.
    exists l, r1, n2, s2. split_and!; [done|done|]. destruct r1 as [[]|msg].
    2: { injection H as <- <- <-. done. }
    svc_bind H rec n3 s3 Hg. apply get_submission_reads in Hg as ->; [|done].
    svc_bind H u n4 s4 Hp. svc_bind H x n5 s5 Hs. injection H as <- <- <-.
    apply publish_inv in Hs as (_ & Hsub & Hprog & Hpub & _); [|done].
    assert (Hc : submissions s4 = submissions s2 ∧ published s4 = published s2 ∧
      (progress_calls s4 = progress_calls s2 ∨ hp = true ∧ in_Source r ≠ "assessment" ∧
       ∃ language, progress_calls s4 = progress_calls s2 ++ [progress_update r language])).
    { destruct (hp && negb (String.eqb (in_Source r) "assessment")) eqn:Eh.
      - svc_bind Hp y n6 s6 Hcall. injection Hp as <- <- <-.
        apply call_progress_inv in Hcall as (_ & -> & -> & Hcall); [|done].
        bool_to_prop. apply String.eqb_neq in H0.
        split_and!; [done..|]. destruct Hcall as [[-> _]|[-> _]]; [right|by left].
        split_and!; [done..|by eexists].
      - injection Hp as <- <- <-. auto. }
    destruct Hc as (Hc1 & Hc2 & Hc3). split; [done|]. rewrite Hsub, Hc1. split; [done|].
    unfold reported. rewrite Hprog. split; [done|]. rewrite <- Hc2.
    destruct Hpub as [[-> _]|[-> _]]; auto.
  - intros [= <- <- <-]. left. split_and!; [done..|]. intros [l El].
    rewrite El, convert_received in Ec. done.
Qed.

(** A result that is acknowledged has been stored:
    the submission holds its status, times and cases.  A timed-test result
    reports no progress; a practice result reports at most once, as Solved
    and correct exactly when it was accepted.  At most one event is
    published; it counts the accepted cases, never more than the total, and
    the total is the number of cases of the problem or of results, whichever
    is more. *)
Theorem onResult_reports hp data r w n s n' s' :
  alone w → decode_execution data = Some r →
  onResult hp data w n s = (inl Acked, n', s') →
  ∃ l, in_TestResults r = map Some l ∧
    (IsUUID (in_SubmissionId r) = true → ∃ results key,
       jsonb (render_string (results_raw l)) = Some results ∧ pg_uuid (in_SubmissionId r) = Some key ∧
       submissions s' = alter (set_result (in_OverallStatus r) (in_Runtime r) (in_Memory r)
                                 (in_CompileError r) results (time_at w n)) key (submissions s)) ∧
    (in_Source r = "assessment" → progress_calls s' = progress_calls s) ∧
    (∀ c, progress_calls s' = progress_calls s ++ [c] →
       (up_Status c = "Solved" ↔ in_OverallStatus r = "Accepted") ∧
       (up_IsCorrect c = true ↔ in_OverallStatus r = "Accepted") ∧
       up_UserId c = in_UserId r ∧ up_ProblemId c = in_ProblemId r) ∧
    (published s' = published s ∨ ∃ ev,
       published s' = published s ++ [("submission.graded", render_string (graded_raw ev))] ∧
       ge_SubmissionId ev = in_SubmissionId r ∧ ge_OverallStatus ev = in_OverallStatus r ∧
       ge_PassedCount ev = accepted_count l ∧ 0 ≤ ge_PassedCount ev ≤ ge_TotalCount ev ∧
       ge_TotalCount ev = Z.max (in_TotalCases r) (Z.of_nat (length l)) ∧ ge_Source ev = in_Source r).
Proof.
  intros Ho Hd. unfold onResult. rewrite Hd. intros H.
  apply onInbound_inv in H as [(? & _)|(l & r1 & n1 & s1 & El & Hu & H)]; [done| |done].
  exists l. split; [done|]. destruct r1 as [[]|]; [|by destruct H].
  destruct H as (_ & Hsub & Hprog & Hpub).
  apply update_result_inv in Hu as (Hup & Hupc & Hu); [|done]. rewrite Hupc in Hprog. rewrite Hup in Hpub.
  split_and!.
  - intros Hid. destruct Hu as [(Hno & _)|(_ & _ & results & key & Hj & Hk & Hs)]; [congruence|].
    exists results, key. by rewrite Hsub.
  - intros Hsrc. destruct Hprog as [?|(_ & Hno & _)]; [done|congruence].
  - intros c Hc. destruct Hprog as [E|(_ & _ & lang & E)]; rewrite E in Hc.
    + apply (f_equal length) in Hc. rewrite length_app in Hc. simpl in Hc. lia.
    + apply app_inv_head in Hc. injection Hc as <-. unfold progress_update.
      destruct (String.eqb_spec (in_OverallStatus r) "Accepted") as [Ea|Ea]; cbn; split_and!; done.
  - destruct Hpub as [?|Hpub]; [by left|]. right. exists (event_of r l). split; [exact Hpub|].
    pose proof (accepted_count_bounds l). unfold event_of, graded_event.
    cbn [ge_SubmissionId ge_OverallStatus ge_PassedCount ge_TotalCount ge_Source].
    destruct (Z.ltb_spec (in_TotalCases r) (Z.of_nat (length l))); split_and!; done || lia.
Qed.
(** Strings of a tree that hold U+0000. *)
Lemma result_raw_nul tr :
  contains_byte zero (tr_ActualOutput tr) = true → holds_nul (result_raw tr) = true.
Proof. intros H. unfold result_raw. cbn [app holds_nul existsb fst snd]. rewrite H. by rewrite !orb_true_r. Qed.

Lemma results_raw_nul l tr :
  tr ∈ l → contains_byte zero (tr_ActualOutput tr) = true → holds_nul (results_raw l) = true.
Proof.
  intros Hin Hn. destruct l as [|t l]; [by apply elem_of_nil in Hin|]. cbn [results_raw holds_nul].
  apply existsb_exists. exists (result_raw tr). split; [|by apply result_raw_nul].
  apply in_map. by apply list_elem_of_In.
Qed.

(** An output with the character U+0000 cannot be stored:
    whatever else works, the result is refused, so it is delivered again,
    refused again, and its verdict never leaves the service. *)
Theorem onResult_nul hp data r l tr w n s :
  decode_execution data = Some r → in_TestResults r = map Some l →
  IsUUID (in_SubmissionId r) = true → Forall result_texts l →
  tr ∈ l → contains_byte zero (tr_ActualOutput tr) = true →
  ∃ n' s', onResult hp data w n s = (inl Naked, n', s') ∧ (alone w → s' = s).
Proof.
  intros Hd El Hid Ht Hin Hn. unfold onResult. rewrite Hd. unfold onInbound.
  rewrite El, convert_received. cbn [app].
  assert (Hj : jsonb (render_string (results_raw l)) = None).
  { apply (jsonb_nul _ (results_raw l)); [|by eapply results_raw_nul].
    apply parse_render. by apply results_printable. }
  unfold UpdateSubmissionResult. rewrite Hid. cbn [negb]. unfold then_, try, clock_now, effect.
  rewrite Hj. set (s1 := others w (n + 1) s).
  assert (Hs : alone w → s1 = s) by (intros Ho; apply Ho).
  destruct (failure w (n + 1)); [|eauto|]; 
    destruct (pg_text (in_OverallStatus r)), (pg_text (in_CompileError r)); eauto.
Qed.
End Verdicts.

(** ** Reading verdicts back *)

Section ReadBack.
Context {T : PgTypes} {L : PgLaws T}.

Lemma get_works id w n s key row :
  calm w → IsUUID id = true → pg_uuid id = Some key → submissions s !! key = Some row →
  GetSubmission id w n s = (inl (read_submission key row), (n + 1)%nat, s).
Proof.
  intros Hw Hi Hk Hr. unfold GetSubmission. rewrite Hi. cbn [negb]. unfold then_.
  rewrite effect_calm by done. by rewrite Hk, Hr.
Qed.

(** Once a result is acknowledged, its submission
    reads back with the status and times of the result, every test result as
    the worker wrote it and in its order, and the code that was submitted. *)
Theorem GetSubmission_verdict hp data r l w n s n' s' w2 m key row :
  alone w → decode_execution data = Some r → in_TestResults r = map Some l →
  Forall result_texts l → Forall result_ints l → holds_nul (results_raw l) = false →
  IsUUID (in_SubmissionId r) = true → pg_uuid (in_SubmissionId r) = Some key →
  submissions s !! key = Some row →
  onResult hp data w n s = (inl Acked, n', s') → calm w2 →
  ∃ sub, GetSubmission (in_SubmissionId r) w2 m s' = (inl sub, (m + 1)%nat, s') ∧
    sn_Id sub = key ∧ sn_Status sub = in_OverallStatus r ∧ sn_TestResults sub = map Some l ∧
    sn_CompileError sub = in_CompileError r ∧ sn_RuntimeMs sub = in_Runtime r ∧
    sn_MemoryKb sub = in_Memory r ∧ sn_UserId sub = sm_user_id row ∧
    sn_ProblemId sub = sm_problem_id row ∧ sn_Language sub = sm_language row ∧ sn_Code sub = sm_code row.
Proof.
  intros Ho Hd El Ht Hi Hnul Hid Hkey Hrow H Hw2. unfold onResult in H. rewrite Hd in H.
  apply onInbound_inv in H as [(? & _)|(l' & r1 & n1 & s1 & El' & Hu & H)]; [done| |done].
  assert (l' = l) as ->.
  { apply map_some_inj. by rewrite <- El, <- El'. }
  destruct r1 as [[]|]; [|by destruct H]. destruct H as (_ & Hsub & _).
  apply update_result_inv in Hu as (_ & _ & [(Hno & _)|(_ & _ & results & key' & Hj & Hk & Hs)]);
    [congruence| |done].
  rewrite Hkey in Hk. injection Hk as <-.
  destruct (jsonb_keeps (results_raw l)) as (t & r' & Hj' & Hp & Hr); [by apply results_printable|done|].
  rewrite Hj in Hj'. injection Hj' as <-.
  eexists. split.
  { apply get_works; [done..|]. by rewrite Hsub, Hs, lookup_alter_eq, Hrow. }
  cbn. split_and!; try done. unfold read_results. rewrite Hp. cbn.
  by rewrite (results_decode_reordered l r' Hi Hr).
Qed.

(** Row by row, what a verdict wrote, its time of completion apart. *)
Definition settled_row (r : SubmissionRow) := set_result (sm_status r) (sm_runtime_ms r) (sm_memory_kb r)
  (default "" (sm_compile_error r)) (sm_test_results r) 0 r.

(** Delivering a result twice is delivering it
    once: the second delivery leaves every submission as it is but for its
    time of completion, and publishes the same event again. *)
Theorem onResult_redelivered hp data w w2 n m s n' m' s' s'' :
  alone w → alone w2 → onResult hp data w n s = (inl Acked, n', s') →
  onResult hp data w2 m s' = (inl Acked, m', s'') →
  settled_row <$> submissions s'' = settled_row <$> submissions s' ∧
  (∀ ev, published s' = published s ++ [ev] →
    published s'' = published s' ∨ published s'' = published s' ++ [ev]).
Proof.
  intros Ho Ho2. unfold onResult. destruct (decode_execution data) as [r|]; [|done].
  intros H H2.
  apply onInbound_inv in H as [(? & _)|(l & r1 & n1 & s1 & El & Hu & H)]; [done| |done].
  apply onInbound_inv in H2 as [(? & _)|(l2 & r2 & m1 & s2 & El2 & Hu2 & H2)]; [done| |done].
  assert (l2 = l) as ->.
  { apply map_some_inj. by rewrite <- El, <- El2. }
  destruct r1 as [[]|]; [|by destruct H]. destruct r2 as [[]|]; [|by destruct H2].
  destruct H as (_ & Hsub & _ & Hpub), H2 as (_ & Hsub2 & _ & Hpub2).
  apply update_result_inv in Hu as (Hup & _ & Hu); [|done].
  apply update_result_inv in Hu2 as (Hup2 & _ & Hu2); [|done].
  rewrite Hup in Hpub. rewrite Hup2 in Hpub2. split.
  - rewrite Hsub2. destruct Hu as [(Hid & -> & _)|(Hid & _ & results & key & Hj & Hk & Hs)],
      Hu2 as [(Hid2 & -> & _)|(Hid2 & _ & results2 & key2 & Hj2 & Hk2 & Hs2)];
      [done|congruence|congruence|].
    rewrite Hj in Hj2. rewrite Hk in Hk2. injection Hj2 as <-. injection Hk2 as <-.
    rewrite Hs2, Hsub, Hs. apply map_eq. intros k. rewrite !lookup_fmap.
    destruct (decide (k = key)) as [->|Hne]; [|by rewrite !lookup_alter_ne].
    rewrite !lookup_alter_eq. by destruct (submissions s !! key).
  - intros ev Hev. destruct Hpub as [E|E]; rewrite E in Hev.
    + apply (f_equal length) in Hev. rewrite length_app in Hev. simpl in Hev. lia.
    + apply app_inv_head in Hev. injection Hev as <-. exact Hpub2.
Qed.
End ReadBack.

(** ** Listing *)

Section Listing.
Context {T : PgTypes}.

Lemma keyed_rows (t : gmap string SubmissionRow) keys :
  keys ≡ₚ map fst (map_to_list t) → omap (λ k, (λ r, (k, r)) <$> t !! k) keys ≡ₚ map_to_list t.
Proof.
  intros ->. apply reflexive_eq. pose proof (λ k r, proj1 (elem_of_map_to_list t k r)) as H.
  induction (map_to_list t) as [|[k r] l IH]; [done|]. cbn [map omap list_omap fst].
  rewrite (H k r) by by left. cbn. f_equal. apply IH. intros k' r' Hin. apply H. by right.
Qed.

Lemma listed_rows_perm st req s :
  listed_rows st req s ≡ₚ filter (λ kr, listed req kr.2 = true) (map_to_list (submissions s)).
Proof.
  unfold listed_rows. rewrite (order_by_perm newest), keyed_rows; [done|]. apply st_rows_perm.
Qed.

Lemma listed_rows_ordered st req s :
  StronglySorted (λ a b, newest a b = true) (listed_rows st req s).
Proof.
  apply (order_by_ordered newest (λ _, True)); [| |by apply Forall_true]; unfold newest.
  - intros a b _ _ H. apply Z.leb_gt in H. apply Z.leb_le. lia.
  - intros a b c _ _ _ H1 H2. apply Z.leb_le in H1, H2. apply Z.leb_le. lia.
Qed.

(** The numbers of a request are of 32 bits. *)
Definition page_numbers (req : ListSubmissionsRequest) : Prop :=
  - 2 ^ 31 ≤ ls_Page req < 2 ^ 31 ∧ - 2 ^ 31 ≤ ls_PageSize req < 2 ^ 31.

Lemma list_page_size_bounds req : 1 ≤ list_page_size req ≤ 100.
Proof.
  unfold list_page_size. destruct (_ || _) eqn:E; [lia|]. apply orb_false_iff in E as [E1 E2].
  rewrite Z.ltb_ge in E1, E2. lia.
Qed.

Lemma list_offset_exact req :
  (list_page req - 1) * list_page_size req < 2 ^ 31 →
  list_offset req = (list_page req - 1) * list_page_size req.
Proof.
  intros H. unfold list_offset, wrap32. pose proof (list_page_size_bounds req).
  assert (1 ≤ list_page req) by (unfold list_page; destruct (Z.ltb_spec (ls_Page req) 1); lia).
  rewrite Z.mod_small; nia.
Qed.

(** A page is the slice of the user's submissions
    (of the one problem, when one is named) that its number and size say,
    newest first, with between 1 and 100 rows to a page, as long as the
    product of number and size does not leave 32 bits. *)
Theorem ListSubmissions_page req w n s :
  calm w → pg_text (ls_UserId req) = Some (ls_UserId req) →
  (ls_ProblemId req ≠ "" → pg_text (ls_ProblemId req) = Some (ls_ProblemId req)) →
  (list_page req - 1) * list_page_size req < 2 ^ 31 → Z.of_nat (size (submissions s)) < 2 ^ 31 →
  ∃ rows resp, ListSubmissions req w n s = (inl resp, (n + 1 + 1)%nat, s) ∧
    rows ≡ₚ filter (λ kr, listed req kr.2 = true) (map_to_list (submissions s)) ∧
    StronglySorted (λ a b, sm_submitted_at b.2 ≤ sm_submitted_at a.2) rows ∧
    lr_Submissions resp =
      map list_row (take (Z.to_nat (list_page_size req))
                      (drop (Z.to_nat ((list_page req - 1) * list_page_size req)) rows)) ∧
    1 ≤ list_page_size req ≤ 100 ∧ lr_Total resp = Z.of_nat (length rows) ∧
    lr_Page resp = list_page req ∧ lr_PageSize resp = list_page_size req.
Proof.
  intros Hw Hu Hp Hoff Hsize. exists (listed_rows (stamp w n) req s). unfold ListSubmissions.
  assert (E : (if String.eqb (ls_ProblemId req) "" then Some "" else pg_text (ls_ProblemId req)) ≠ None).
  { destruct (String.eqb_spec (ls_ProblemId req) "") as [|Hne]; [done|]. by rewrite Hp. }
  unfold then_ at 1. rewrite effect_calm by done. rewrite Hu.
  destruct (if String.eqb (ls_ProblemId req) "" then _ else _); [|done].
  pose proof (list_page_size_bounds req) as Hb. rewrite list_offset_exact by done.
  assert (0 ≤ (list_page req - 1) * list_page_size req).
  { assert (1 ≤ list_page req) by (unfold list_page; destruct (Z.ltb_spec (ls_Page req) 1); lia). nia. }
  rewrite (proj2 (Z.ltb_ge _ 0)) by done. unfold then_, try. rewrite effect_calm by done.
  assert (Hlen : ∀ st, length (listed_rows st req s) = length (listed_rows (stamp w n) req s))
    by (intros st; apply Permutation_length; by rewrite !listed_rows_perm).
  rewrite (proj2 (Z.ltb_lt _ _)).
  - eexists. split; [reflexivity|]. split; [apply listed_rows_perm|]. split.
    { eapply strongly_sorted_weaken, listed_rows_ordered. intros a b Hab. by apply Z.leb_le. }
    cbn [lr_Submissions lr_Total lr_Page lr_PageSize]. by rewrite Hlen.
  - rewrite listed_rows_perm. pose proof (length_filter (λ kr, listed req kr.2 = true) (map_to_list (submissions s))).
    rewrite length_map_to_list in *. lia.
Qed.
End Listing.

(** ** Events that are lost *)

Section Lost.
Context {T : PgTypes} {L : PgLaws T}.

(** When only the publication of the graded event
    fails, the result is acknowledged all the same: the submission holds its
    verdict, but no event was published and none will be, since the result is
    not delivered again. *)
Theorem onResult_event_lost hp data r l w n s key row results :
  alone w → (∀ k, failure w k = if (k =? n + 1 + 1 + 1)%nat then FailsBefore else Works) →
  decode_execution data = Some r → in_TestResults r = map Some l → in_Source r = "assessment" →
  IsUUID (in_SubmissionId r) = true → pg_uuid (in_SubmissionId r) = Some key →
  submissions s !! key = Some row → pg_text (in_OverallStatus r) = Some (in_OverallStatus r) →
  pg_text (in_CompileError r) = Some (in_CompileError r) →
  jsonb (render_string (results_raw l)) = Some results →
  ∃ n' s', onResult hp data w n s = (inl Acked, n', s') ∧ published s' = published s ∧
    submissions s' = alter (set_result (in_OverallStatus r) (in_Runtime r) (in_Memory r)
                              (in_CompileError r) results (time_at w n)) key (submissions s).
Proof.
  intros Ho Hf Hd El Hsrc Hid Hkey Hrow Es Ec Hj. unfold onResult. rewrite Hd. unfold onInbound.
  rewrite El, convert_received. cbn [app].
  assert (Hk : ∀ k, (k ≠ n + 1 + 1 + 1)%nat → failure w k = Works).
  { intros k Hk. rewrite Hf. by rewrite (proj2 (Nat.eqb_neq _ _) Hk). }
  unfold then_ at 1, try at 1.
  rewrite (update_works _ _ _ _ _ _ _ _ _ key results) by (done || apply Hk; lia).
  unfold then_ at 1, try at 1, GetSubmission. rewrite Hid. cbn [negb].
  unfold then_ at 1. rewrite effect_alone by done. rewrite Hk by lia.
  cbn [submissions with_submissions]. rewrite Hkey, lookup_alter_eq, Hrow. cbn [fmap option_fmap option_map].
  unfold return_. rewrite Hsrc. change (String.eqb "assessment" "assessment") with true.
  cbn [negb]. rewrite andb_false_r. unfold then_, try, publish. rewrite effect_alone by done.
  rewrite Hf, Nat.eqb_refl. do 2 eexists. done.
Qed.
End Lost.
