(* ===== verification/Progress.v ===== *)
(** The progress service (services/progress-service/internal/repository/
    postgres.go, internal/cache/redis.go, internal/handler/grpc.go).

    [UpdateProblemStatus] is one transaction over five tables: the status of a
    problem for a user, twice, the user's totals, the totals of a practice set
    and the log of active days, from which [calculateStreak] counts the
    streak.  The handlers keep two caches in front of the reads. *)

From S2P Require Import Prelude GoStrings GoTime Float64 PgTypes Service Messages.

#[local] Open Scope Z_scope.
#[local] Open Scope service_scope.

(** ** Data *)

(** A row of [problems], the columns read here. *)
Record ProblemMeta := { pm_difficulty : string; pm_set_id : option string; pm_xp : Z }.

(** A row of [problem_progress], keyed by user and problem. *)
Record ProblemRow := {
  pr_set_id : option string;
  pr_status : string;
  pr_solved_at : option Z;
  pr_attempts : Z;
  pr_runtime_ms : Z;
  pr_memory_kb : Z;
  pr_language : string;
}.

(** A row of [problem_user_status]. *)
Record StatusRow := { us_status : string; us_solved_at : option Z; us_attempts : Z }.

(** A row of [user_progress]. *)
Record UserRow := {
  ur_total_solved : Z;
  ur_total_attempted : Z;
  ur_easy_solved : Z;
  ur_medium_solved : Z;
  ur_hard_solved : Z;
  ur_current_streak : Z;
  ur_longest_streak : Z;
  ur_total_xp : Z;
  ur_last_active : Z;
}.

(** A row of [set_progress]. *)
Record SetRow := { sr_solved : Z; sr_total : Z }.

(** The tables; a day is its number since 1970. *)
Record Tables := {
  problems : gmap string ProblemMeta;
  problem_progress : gmap (string * string) ProblemRow;
  problem_user_status : gmap (string * string) StatusRow;
  user_progress : gmap string UserRow;
  set_progress : gmap (string * string) SetRow;
  activity_log : gset (string * Z);
}.

(** [time.Format("2006-01-02")] as a date, and [Truncate(24 * time.Hour)]. *)
Definition day_of (t : Z) : Z := t / (day_seconds * nanos).

(** ** The streak *)

(** The loop of [calculateStreak] over the days, latest first. *)
Fixpoint streak_loop (expected : Z) (dates : list Z) : Z :=
  match dates with
  | [] => 0
  | d :: rest =>
      if (d =? expected) || (d =? expected - 1) then 1 + streak_loop (d - 1) rest else 0
  end.

(** The days of a user, latest first. *)
Definition active_days (user : string) (s : gset (string * Z)) : list Z :=
  order_by (λ a b, b <=? a)
    (omap (λ ud : string * Z, if String.eqb ud.1 user then Some ud.2 else None) (elements s)).

(** [calculateStreak] at the time [now]. *)
Definition calculateStreak (user : string) (now : Z) (t : Tables) : Z :=
  streak_loop (day_of now) (active_days user (activity_log t)).

(** ** [UpdateProblemStatus] *)

Definition boolToInt (b : bool) : Z := if b then 1 else 0.

Definition solved_status : string := "Solved".
Definition is_solved (status : string) : bool := String.eqb status solved_status.

(** What the transaction reads before it writes. *)
Record Known := {
  kn_currentStatus : option string;
  kn_meta : ProblemMeta;
}.

Definition alreadySolved (k : Known) : bool :=
  match kn_currentStatus k with Some st => is_solved st | None => false end.
Definition alreadyAttempted (k : Known) : bool := bool_decide (is_Some (kn_currentStatus k)).
Definition isNewSolve (req : UpdateProblemStatusRequest) (k : Known) : bool :=
  up_IsCorrect req && negb (alreadySolved k).
Definition isNewAttempt (k : Known) : bool := negb (alreadyAttempted k).
Definition setIDStr (k : Known) : string := default "" (pm_set_id (kn_meta k)).

Definition xpEarned (req : UpdateProblemStatusRequest) (k : Known) : Z :=
  if isNewSolve req k then
    if 0 <? up_XpEarned req then up_XpEarned req else pm_xp (kn_meta k)
  else 0.

Definition solvedAt (req : UpdateProblemStatusRequest) (k : Known) (now : Z) : option Z :=
  if up_IsCorrect req || alreadySolved k then Some now else None.

Definition statusToStore (req : UpdateProblemStatusRequest) (k : Known) : string :=
  if alreadySolved k then "Solved" else up_Status req.

(** The two reads; [None] is an error, no such problem among them. *)
Definition read_known (user problem : string) (t : Tables) : option Known :=
  match problems t !! problem with
  | Some meta => Some {| kn_currentStatus := pr_status <$> problem_progress t !! (user, problem);
                         kn_meta := meta |}
  | None => None
  end.

(** The row of [problem_progress] after the upsert. *)
Definition upsert_problem (req : UpdateProblemStatusRequest) (k : Known) (now : Z)
  (old : option ProblemRow) : option ProblemRow :=
  let status := statusToStore req k in
  match old with
  | None =>
      Some {| pr_set_id := if String.eqb (setIDStr k) "" then None else Some (setIDStr k);
              pr_status := status; pr_solved_at := solvedAt req k now; pr_attempts := 1;
              pr_runtime_ms := up_RuntimeMs req; pr_memory_kb := up_MemoryKb req;
              pr_language := up_Language req |}
  | Some r =>
      attempts ← int4 (pr_attempts r + 1);
      Some {| pr_set_id := pr_set_id r;
              pr_status := if is_solved (pr_status r) then "Solved" else status;
              pr_solved_at := match pr_solved_at r with
                              | Some x => Some x | None => solvedAt req k now end;
              pr_attempts := attempts;
              pr_runtime_ms := if is_solved status then up_RuntimeMs req else pr_runtime_ms r;
              pr_memory_kb := if is_solved status then up_MemoryKb req else pr_memory_kb r;
              pr_language := up_Language req |}
  end.

(** The row of [problem_user_status] after the upsert. *)
Definition upsert_status (req : UpdateProblemStatusRequest) (k : Known) (now : Z)
  (old : option StatusRow) : option StatusRow :=
  let status := statusToStore req k in
  match old with
  | None => Some {| us_status := status; us_solved_at := solvedAt req k now; us_attempts := 1 |}
  | Some r =>
      attempts ← int4 (us_attempts r + 1);
      Some {| us_status := if is_solved (us_status r) then "Solved" else status;
              us_solved_at := match us_solved_at r with
                              | Some x => Some x | None => solvedAt req k now end;
              us_attempts := attempts |}
  end.

Definition no_progress : UserRow :=
  {| ur_total_solved := 0; ur_total_attempted := 0; ur_easy_solved := 0; ur_medium_solved := 0;
     ur_hard_solved := 0; ur_current_streak := 0; ur_longest_streak := 0; ur_total_xp := 0;
     ur_last_active := 0 |}.

(** The row of [user_progress] after the upsert. *)
Definition upsert_user (req : UpdateProblemStatusRequest) (k : Known) (now : Z)
  (old : option UserRow) : option UserRow :=
  let u := default no_progress old in
  let solved_of d := boolToInt (isNewSolve req k && String.eqb (pm_difficulty (kn_meta k)) d) in
  solved ← int4 (ur_total_solved u + boolToInt (isNewSolve req k));
  attempted ← int4 (ur_total_attempted u + boolToInt (isNewAttempt k));
  easy ← int4 (ur_easy_solved u + solved_of "Easy");
  medium ← int4 (ur_medium_solved u + solved_of "Medium");
  hard ← int4 (ur_hard_solved u + solved_of "Hard");
  xp ← int4 (ur_total_xp u + xpEarned req k);
  Some {| ur_total_solved := solved; ur_total_attempted := attempted; ur_easy_solved := easy;
          ur_medium_solved := medium; ur_hard_solved := hard;
          ur_current_streak := ur_current_streak u; ur_longest_streak := ur_longest_streak u;
          ur_total_xp := xp; ur_last_active := day_of now |}.

(** The row of [set_progress] after the upsert. *)
Definition upsert_set (req : UpdateProblemStatusRequest) (k : Known) (total : Z)
  (old : option SetRow) : option SetRow :=
  solved ← int4 (match old with Some r => sr_solved r | None => 0 end + boolToInt (isNewSolve req k));
  Some {| sr_solved := solved; sr_total := total |}.

(** The number of problems of a set. *)
Definition set_size (set : string) (t : Tables) : Z :=
  Z.of_nat (length (filter (λ m : string * ProblemMeta, pm_set_id m.2 = Some set) (map_to_list (problems t)))).

(** The set's row is written only for a problem of a set. *)
Definition write_set (user : string) (req : UpdateProblemStatusRequest) (k : Known) (t : Tables)
  : option (gmap (string * string) SetRow) :=
  if String.eqb (setIDStr k) "" then Some (set_progress t)
  else
    total ← int4 (set_size (setIDStr k) t);
    row ← upsert_set req k total (set_progress t !! (user, setIDStr k));
    Some (<[(user, setIDStr k) := row]> (set_progress t)).

(** The streak's UPDATE. *)
Definition set_streak (streak : Z) (u : UserRow) : UserRow :=
  {| ur_total_solved := ur_total_solved u; ur_total_attempted := ur_total_attempted u;
     ur_easy_solved := ur_easy_solved u; ur_medium_solved := ur_medium_solved u;
     ur_hard_solved := ur_hard_solved u; ur_current_streak := streak;
     ur_longest_streak := Z.max (ur_longest_streak u) streak;
     ur_total_xp := ur_total_xp u; ur_last_active := ur_last_active u |}.

(** The writes of the transaction, with what it has read; [now] is the time
    taken at its start, [later] that of [calculateStreak]. *)
Definition write_known (user problem : string) (req : UpdateProblemStatusRequest) (k : Known)
  (now later : Z) (t : Tables) : option Tables :=
  prow ← upsert_problem req k now (problem_progress t !! (user, problem));
  srow ← upsert_status req k now (problem_user_status t !! (user, problem));
  urow ← upsert_user req k now (user_progress t !! user);
  sets ← write_set user req k t;
  let log := {[ (user, day_of now) ]} ∪ activity_log t in
  let streak := streak_loop (day_of later) (active_days user log) in
  Some {| problems := problems t;
          problem_progress := <[(user, problem) := prow]> (problem_progress t);
          problem_user_status := <[(user, problem) := srow]> (problem_user_status t);
          user_progress := <[user := set_streak streak urow]> (user_progress t);
          set_progress := sets; activity_log := log |}.

(** The transaction. *)
Definition update_tables (user problem : string) (req : UpdateProblemStatusRequest) (now later : Z)
  (t : Tables) : option Tables :=
  k ← read_known user problem t;
  write_known user problem req k now later t.

Definition total_xp (user : string) (t : Tables) : Z :=
  match user_progress t !! user with Some u => ur_total_xp u | None => 0 end.

(** ** The service *)

(** [progressv1.UserProgress] and its parts. *)
Record SetProgress := {
  sp_SetId : string; sp_Title : string; sp_Progress : spec_float; sp_Solved : Z; sp_Total : Z }.

Record UserProgress := {
  gp_UserId : string;
  gp_row : UserRow;
  gp_SetProgress : list SetProgress;
}.

(** [progressv1.ProblemStatus] *)
Record ProblemStatus := {
  ps_UserId : string;
  ps_ProblemId : string;
  ps_Status : string;
  ps_SolvedAt : string;
  ps_Attempts : Z;
}.

(** The tables and the Redis caches, each entry with the time it expires. *)
Record ProgressStore := {
  tables : Tables;
  user_cache : gmap string (UserProgress * Z);
  status_cache : gmap string (ProblemStatus * Z);
}.

Definition with_tables (t : Tables) (s : ProgressStore) : ProgressStore :=
  {| tables := t; user_cache := user_cache s; status_cache := status_cache s |}.

Definition ttlUserProgress : Z := 180 * nanos.
Definition ttlProblemStatus : Z := 60 * nanos.

(** [float32] arithmetic: binary32. *)
Definition float32 (z : Z) : spec_float := binary_normalize 24 128 z 0 false.
Definition percent (solved total : Z) : spec_float :=
  SFmul 24 128 (SFdiv 24 128 (float32 solved) (float32 total)) (float32 100).

Section Service.
Context {PT : PgTypes}.

(** The titles of [practice_sets], another service's table. *)
Context (set_title : string → option string).

(** *** Repository *)

Definition set_entry (set : string) (r : SetRow) : SetProgress :=
  {| sp_SetId := set; sp_Title := default "" (set_title set);
     sp_Progress := if 0 <? sr_total r then percent (sr_solved r) (sr_total r) else S754_zero false;
     sp_Solved := sr_solved r; sp_Total := sr_total r |}.

Definition user_sets (user : string) (t : Tables) : list SetProgress :=
  omap (λ e : string * string * SetRow,
    if String.eqb e.1.1 user then Some (set_entry e.1.2 e.2) else None) (map_to_list (set_progress t)).

(** [GetUserProgress]; an error of the second query leaves the list empty. *)
Definition GetUserProgress (user : string) : Svc ProgressStore UserProgress :=
  row <- effect "get user progress" (λ _ s,
    match pg_text user with
    | Some user => Some (default no_progress (user_progress (tables s) !! user), s)
    | None => None
    end) ;;
  sets <- try (effect "set progress" (λ _ s, Some (user_sets user (tables s), s))) ;;
  return_ {| gp_UserId := user; gp_row := row;
             gp_SetProgress := match sets with inl l => l | inr _ => [] end |}.

(** [GetProblemStatus] *)
Definition GetProblemStatus (user problem : string) : Svc ProgressStore ProblemStatus :=
  let unsolved := {| ps_UserId := user; ps_ProblemId := problem; ps_Status := "Unsolved";
                     ps_SolvedAt := ""; ps_Attempts := 0 |} in
  if negb (IsUUID problem) then return_ unsolved
  else
    row <- effect "get problem status" (λ _ s,
      match pg_text user, pg_uuid problem with
      | Some user, Some key => Some (problem_progress (tables s) !! (user, key), s)
      | _, _ => None
      end) ;;
    return_ (match row with
             | None => unsolved
             | Some r => {| ps_UserId := user; ps_ProblemId := problem; ps_Status := pr_status r;
                            ps_SolvedAt := match pr_solved_at r with
                                           | Some t => of_bytes (rfc3339 t) | None => "" end;
                            ps_Attempts := pr_attempts r |}
             end).

(** [UpdateProblemStatus]: the new total, 0 when it cannot be read. *)
Definition UpdateProblemStatus (req : UpdateProblemStatusRequest) : Svc ProgressStore Z :=
  if negb (IsUUID (up_ProblemId req)) then error "get problem details: no rows in result set"
  else
    now <- clock_now ;;
    later <- clock_now ;;
    effect "update problem status" (λ _ s,
      match pg_text (up_UserId req), pg_uuid (up_ProblemId req), pg_text (up_Status req),
            pg_text (up_Language req) with
      | Some user, Some problem, Some _, Some _ =>
          (λ t, (tt, with_tables t s)) <$> update_tables user problem req now later (tables s)
      | _, _, _, _ => None
      end) ;;
    xp <- try (effect "read xp" (λ _ s, Some (total_xp (up_UserId req) (tables s), s))) ;;
    return_ (match xp with inl n => n | inr _ => 0 end).

(** *** Handlers *)

Inductive Code := InvalidArgument | Internal.

Definition user_key (user : string) : string := "progress:user:" +:+ user.
Definition status_key (user problem : string) : string :=
  "progress:problem:" +:+ user +:+ ":" +:+ problem.

(** A cache entry that has not expired; [None] is a miss or an error. *)
Definition cached {V} (c : ProgressStore → gmap string (V * Z)) (key : string) : Svc ProgressStore (option V) :=
  now <- clock_now ;;
  r <- try (effect "redis get" (λ _ s,
    Some (match c s !! key with
          | Some (v, expiry) => if now <? expiry then Some v else None
          | None => None
          end, s))) ;;
  return_ (match r with inl v => v | inr _ => None end).

Definition cache_user (p : UserProgress) : Svc ProgressStore unit :=
  now <- clock_now ;;
  try (effect "redis set" (λ _ s,
    Some (tt, {| tables := tables s;
                 user_cache := <[user_key (gp_UserId p) := (p, now + ttlUserProgress)]> (user_cache s);
                 status_cache := status_cache s |}))) ;;
  return_ tt.

Definition cache_status (p : ProblemStatus) : Svc ProgressStore unit :=
  now <- clock_now ;;
  try (effect "redis set" (λ _ s,
    Some (tt, {| tables := tables s; user_cache := user_cache s;
                 status_cache := <[status_key (ps_UserId p) (ps_ProblemId p) :=
                                     (p, now + ttlProblemStatus)]> (status_cache s) |}))) ;;
  return_ tt.

(** [InvalidateUserProgress] *)
Definition InvalidateUserProgress (user : string) : Svc ProgressStore unit :=
  try (effect "redis del" (λ _ s,
    Some (tt, {| tables := tables s; user_cache := delete (user_key user) (user_cache s);
                 status_cache := status_cache s |}))) ;;
  return_ tt.

(** [ProgressHandler.GetUserProgress] *)
Definition HandleGetUserProgress (user : string) : Svc ProgressStore (UserProgress + Code * string) :=
  if String.eqb user "" then return_ (inr (InvalidArgument, "user_id is required"))
  else
    hit <- cached user_cache (user_key user) ;;
    match hit with
    | Some p => return_ (inl p)
    | None =>
        r <- try (GetUserProgress user) ;;
        match r with
        | inr err => return_ (inr (Internal, "get user progress: " +:+ err))
        | inl p => cache_user p ;; return_ (inl p)
        end
    end.

(** [ProgressHandler.GetProblemStatus] *)
Definition HandleGetProblemStatus (user problem : string) : Svc ProgressStore (ProblemStatus + Code * string) :=
  if String.eqb user "" || String.eqb problem ""
  then return_ (inr (InvalidArgument, "user_id and problem_id are required"))
  else
    hit <- cached status_cache (status_key user problem) ;;
    match hit with
    | Some p => return_ (inl p)
    | None =>
        r <- try (GetProblemStatus user problem) ;;
        match r with
        | inr err => return_ (inr (Internal, "get problem status: " +:+ err))
        | inl p => cache_status p ;; return_ (inl p)
        end
    end.

(** [ProgressHandler.UpdateProblemStatus] *)
Definition HandleUpdateProblemStatus (req : UpdateProblemStatusRequest) : Svc ProgressStore (Z + Code * string) :=
  if String.eqb (up_UserId req) "" || String.eqb (up_ProblemId req) ""
  then return_ (inr (InvalidArgument, "user_id and problem_id are required"))
  else
    r <- try (UpdateProblemStatus req) ;;
    match r with
    | inr err => return_ (inr (Internal, "update problem status: " +:+ err))
    | inl xp => InvalidateUserProgress (up_UserId req) ;; return_ (inl xp)
    end.
End Service.

(** ** The streak *)

Lemma active_days_elem user s d : d ∈ active_days user s ↔ (user, d) ∈ s.
Proof.
  unfold active_days. rewrite (order_by_perm (λ a b, b <=? a)), list_elem_of_omap.
  setoid_rewrite elem_of_elements. split.
  - intros ([u d'] & Hin & H). cbn in H. destruct (String.eqb_spec u user) as [->|]; [|done].
    by injection H as ->.
  - intros H. exists (user, d). split; [done|]. cbn. by rewrite String.eqb_refl.
Qed.

Lemma active_days_nodup user s : NoDup (active_days user s).
Proof.
  unfold active_days. rewrite (order_by_perm (λ a b, b <=? a)).
  pose proof (NoDup_elements s) as Hnd. induction (elements s) as [|[u d] l IH]; [constructor|].
  apply NoDup_cons in Hnd as [Hn Hnd]. cbn [omap list_omap fst snd].
  destruct (String.eqb_spec u user) as [->|]; [|by apply IH].
  apply NoDup_cons. split; [|by apply IH]. rewrite list_elem_of_omap. intros ([u' d'] & Hin & H).
  cbn in H. destruct (String.eqb_spec u' user) as [->|]; [|done]. injection H as ->. done.
Qed.

(** Days strictly descending. *)
Definition descending : list Z → Prop := StronglySorted Z.gt.

Lemma active_days_descending user s : descending (active_days user s).
Proof.
  pose proof (active_days_nodup user s) as Hnd.
  assert (Hs : StronglySorted (λ a b, (b <=? a) = true) (active_days user s)).
  { apply (order_by_ordered (λ a b, b <=? a) (λ _, True)); [| |by apply Forall_true].
    - intros a b _ _ H. apply Z.leb_gt in H. apply Z.leb_le. lia.
    - intros a b c _ _ _ H1 H2. apply Z.leb_le in H1, H2. apply Z.leb_le. lia. }
  unfold descending. induction Hs as [|d l Hs IH Hall]; [constructor|].
  apply NoDup_cons in Hnd as [Hn Hnd]. constructor; [by apply IH|].
  rewrite Forall_forall in Hall |- *. intros x Hx. specialize (Hall x Hx). apply Z.leb_le in Hall.
  assert (x ≠ d) by (intros ->; done). lia.
Qed.

(** The days in a row that end on [expected]. *)
Fixpoint days_in_a_row (expected : Z) (dates : list Z) : Z :=
  match dates with
  | d :: rest => if d =? expected then 1 + days_in_a_row (d - 1) rest else 0
  | [] => 0
  end.

Lemma days_in_a_row_le expected dates : 0 ≤ days_in_a_row expected dates ≤ streak_loop expected dates.
Proof.
  revert expected. induction dates as [|d l IH]; intros e; cbn [days_in_a_row streak_loop]; [lia|].
  specialize (IH (d - 1)). destruct (Z.eqb_spec d e); cbn [orb]; [lia|].
  destruct (d =? e - 1); [|lia]. lia.
Qed.

(** The streak is the longest run of days in which no day is followed by
    more than one day off, the last of them today or yesterday. *)
Fixpoint run_with_gaps (last : Z) (dates : list Z) : nat :=
  match dates with
  | d :: rest => if bool_decide (last - 2 ≤ d) then S (run_with_gaps d rest) else 0%nat
  | [] => 0%nat
  end.

Lemma streak_loop_run last dates :
  descending dates → Forall (λ d, d < last) dates →
  streak_loop (last - 1) dates = Z.of_nat (run_with_gaps last dates).
Proof.
  intros Hs. revert last. induction Hs as [|d l Hs IH Hall]; intros last Hlast; [done|].
  apply Forall_cons in Hlast as [Hd Hlast]. cbn [streak_loop run_with_gaps].
  specialize (IH d ltac:(eapply Forall_impl; [exact Hall|]; intros; lia)).
  destruct (Z.eqb_spec d (last - 1)), (Z.eqb_spec d (last - 1 - 1)); cbn [orb];
    case_bool_decide; lia.
Qed.

(** The days every other of which is a day off. *)
Fixpoint every_other (n : nat) (last : Z) : list Z :=
  match n with O => [] | S n => last :: every_other n (last - 2) end.

Lemma every_other_streak n e : streak_loop e (every_other n e) = Z.of_nat n ∧
                               streak_loop (e + 1) (every_other n e) = Z.of_nat n.
Proof.
  revert e. induction n as [|n IH]; intros e; [done|]. cbn [every_other streak_loop].
  rewrite Z.eqb_refl. destruct (IH (e - 2)) as [_ H]. replace (e - 2 + 1) with (e - 1) in H by lia.
  rewrite H. rewrite (proj2 (Z.eqb_eq e (e + 1 - 1))) by lia. rewrite orb_true_r. cbn [orb]. lia.
Qed.

(** The streak is the length of the longest run
    of active days that ends today or yesterday and in which any single day
    off is forgiven.  It is never less than the number of days in a row up
    to today, but a user active only every other day has a streak of all those
    days although no two of them are in a row. *)
Theorem calculateStreak_gaps user now t :
  let days := active_days user (activity_log t) in
  (∀ d, d ∈ days ↔ (user, d) ∈ activity_log t) ∧
  (Forall (λ d, d ≤ day_of now) days →
   calculateStreak user now t = Z.of_nat (run_with_gaps (day_of now + 1) days)) ∧
  days_in_a_row (day_of now) days ≤ calculateStreak user now t ∧
  (∀ n, days = every_other n (day_of now) → calculateStreak user now t = Z.of_nat n).
Proof.
  intros days. split_and!.
  - intros d. apply active_days_elem.
  - intros Hd. unfold calculateStreak. rewrite <- streak_loop_run.
    + by replace (day_of now + 1 - 1) with (day_of now) by lia.
    + apply active_days_descending.
    + eapply Forall_impl; [exact Hd|]. intros x Hx. cbn in Hx |- *. lia.
  - apply days_in_a_row_le.
  - intros n E. unfold calculateStreak. fold days. rewrite E. apply every_other_streak.
Qed.

(** ** The totals *)

Section Counting.
Context {K V : Type} `{Countable K} (P : K * V → Prop) `{!∀ x, Decision (P x)}.

Definition count_rows (m : gmap K V) : Z := Z.of_nat (size (filter P m)).

Lemma count_rows_insert m k v :
  count_rows (<[k := v]> m) =
    count_rows m + boolToInt (bool_decide (P (k, v)))
    - boolToInt (match m !! k with Some old => bool_decide (P (k, old)) | None => false end).
Proof.
  unfold count_rows. assert (E : filter P (delete k m) = delete k (filter P m)) by apply map_filter_delete.
  assert (Hd : Z.of_nat (size (delete k (filter P m))) =
    Z.of_nat (size (filter P m)) - boolToInt (match m !! k with Some old => bool_decide (P (k, old)) | None => false end)).
  { destruct (m !! k) as [old|] eqn:Em; [case_bool_decide as Ho|].
    - assert (Hl : filter P m !! k = Some old) by by apply map_lookup_filter_Some.
      pose proof (map_size_insert_None k old _ (lookup_delete_eq (filter P m) k)) as Hs.
      rewrite insert_delete_eq, (insert_id _ _ _ Hl) in Hs. cbn. lia.
    - rewrite delete_id; [cbn; lia|]. apply map_lookup_filter_None. right. intros x Hx.
      rewrite Em in Hx. by injection Hx as <-.
    - rewrite delete_id; [cbn; lia|]. apply map_lookup_filter_None. by left. }
  rewrite map_filter_insert. destruct (decide (P (k, v))) as [Hp|Hp].
  - rewrite bool_decide_true by done. rewrite <- insert_delete_eq, map_size_insert_None by apply lookup_delete_eq.
    cbn [boolToInt]. lia.
  - rewrite bool_decide_false by done. rewrite E. cbn [boolToInt]. lia.
Qed.
End Counting.

(** The problems a user has a row for, and those solved. *)
Definition attempted_by (user : string) (kr : string * string * ProblemRow) : Prop := kr.1.1 = user.
Definition solved_by (user : string) (kr : string * string * ProblemRow) : Prop :=
  kr.1.1 = user ∧ pr_status kr.2 = "Solved".

#[export] Instance attempted_by_dec user kr : Decision (attempted_by user kr).
Proof. unfold attempted_by. apply _. Defined.
#[export] Instance solved_by_dec user kr : Decision (solved_by user kr).
Proof. unfold solved_by. apply _. Defined.

Definition user_row (user : string) (t : Tables) : UserRow := default no_progress (user_progress t !! user).

(** The totals of every user agree with the rows, the two status tables agree
    with each other, and the longest streak is the longest. *)
Record consistent (t : Tables) : Prop := {
  co_solved : ∀ u, ur_total_solved (user_row u t) = count_rows (solved_by u) (problem_progress t);
  co_attempted : ∀ u, ur_total_attempted (user_row u t) = count_rows (attempted_by u) (problem_progress t);
  co_split : ∀ u, let r := user_row u t in
    0 ≤ ur_easy_solved r ∧ 0 ≤ ur_medium_solved r ∧ 0 ≤ ur_hard_solved r ∧
    ur_easy_solved r + ur_medium_solved r + ur_hard_solved r ≤ ur_total_solved r;
  co_streak : ∀ u, ur_current_streak (user_row u t) ≤ ur_longest_streak (user_row u t);
  co_status : ∀ key, problem_user_status t !! key =
    (λ r, {| us_status := pr_status r; us_solved_at := pr_solved_at r; us_attempts := pr_attempts r |})
      <$> problem_progress t !! key;
  co_solved_at : ∀ key r, problem_progress t !! key = Some r → pr_status r = "Solved" →
    is_Some (pr_solved_at r);
}.

(** The requests the submission service sends: solved exactly when correct. *)
Definition coherent (req : UpdateProblemStatusRequest) : Prop :=
  up_IsCorrect req = is_solved (up_Status req).

Lemma is_solved_spec s : is_solved s = true ↔ s = "Solved".
Proof. apply String.eqb_eq. Qed.

Lemma upsert_user_inv req k now old u :
  upsert_user req k now old = Some u →
  let v := default no_progress old in
  let solved_of d := boolToInt (isNewSolve req k && String.eqb (pm_difficulty (kn_meta k)) d) in
  ur_total_solved u = ur_total_solved v + boolToInt (isNewSolve req k) ∧
  ur_total_attempted u = ur_total_attempted v + boolToInt (isNewAttempt k) ∧
  ur_easy_solved u = ur_easy_solved v + solved_of "Easy" ∧
  ur_medium_solved u = ur_medium_solved v + solved_of "Medium" ∧
  ur_hard_solved u = ur_hard_solved v + solved_of "Hard" ∧
  ur_total_xp u = ur_total_xp v + xpEarned req k ∧
  ur_current_streak u = ur_current_streak v ∧ ur_longest_streak u = ur_longest_streak v.
Proof.
  unfold upsert_user. cbv zeta. intros H.
  repeat match type of H with
  | (int4 ?z ≫= _) = Some _ =>
      let E := fresh "E" in let y := fresh "y" in
      destruct (int4 z) as [y|] eqn:E; [|done]; apply int4_inv in E as [-> _]; cbn [mbind option_bind] in H
  end.
  injection H as <-. done.
Qed.

Lemma difficulty_split b d :
  let part x := boolToInt (b && String.eqb d x) in
  0 ≤ part "Easy" ∧ 0 ≤ part "Medium" ∧ 0 ≤ part "Hard" ∧ part "Easy" + part "Medium" + part "Hard" ≤ boolToInt b.
Proof.
  cbv zeta. destruct b; cbn [andb boolToInt]; [|lia].
  destruct (String.eqb_spec d "Easy") as [->|]; [cbn; lia|].
  destruct (String.eqb_spec d "Medium") as [->|]; [cbn; lia|].
  destruct (String.eqb_spec d "Hard"); cbn; lia.
Qed.

(** What the upsert stored, against what was known. *)
Lemma upsert_problem_inv req k now old r :
  upsert_problem req k now old = Some r →
  pr_attempts r = match old with Some o => pr_attempts o | None => 0 end + 1 ∧
  pr_status r = (if match old with Some o => is_solved (pr_status o) | None => false end
                 then "Solved" else statusToStore req k) ∧
  pr_solved_at r = match old with
                   | Some o => match pr_solved_at o with Some x => Some x | None => solvedAt req k now end
                   | None => solvedAt req k now
                   end.
Proof.
  unfold upsert_problem. destruct old as [o|].
  - destruct (int4 _) as [a|] eqn:E; [|done]. apply int4_inv in E as [-> _]. by intros [= <-].
  - by intros [= <-].
Qed.

Lemma upsert_status_inv req k now old r :
  upsert_status req k now old = Some r →
  us_attempts r = match old with Some o => us_attempts o | None => 0 end + 1 ∧
  us_status r = (if match old with Some o => is_solved (us_status o) | None => false end
                 then "Solved" else statusToStore req k) ∧
  us_solved_at r = match old with
                   | Some o => match us_solved_at o with Some x => Some x | None => solvedAt req k now end
                   | None => solvedAt req k now
                   end.
Proof.
  unfold upsert_status. destruct old as [o|].
  - destruct (int4 _) as [a|] eqn:E; [|done]. apply int4_inv in E as [-> _]. by intros [= <-].
  - by intros [= <-].
Qed.

(** The writes of a transaction that went through. *)
Lemma update_tables_inv user problem req now later t t' :
  update_tables user problem req now later t = Some t' →
  ∃ meta prow srow urow sets streak,
    let k := {| kn_currentStatus := pr_status <$> problem_progress t !! (user, problem); kn_meta := meta |} in
    problems t !! problem = Some meta ∧
    upsert_problem req k now (problem_progress t !! (user, problem)) = Some prow ∧
    upsert_status req k now (problem_user_status t !! (user, problem)) = Some srow ∧
    upsert_user req k now (user_progress t !! user) = Some urow ∧
    write_set user req k t = Some sets ∧
    problems t' = problems t ∧
    problem_progress t' = <[(user, problem) := prow]> (problem_progress t) ∧
    problem_user_status t' = <[(user, problem) := srow]> (problem_user_status t) ∧
    user_progress t' = <[user := set_streak streak urow]> (user_progress t) ∧
    set_progress t' = sets ∧ activity_log t' = {[ (user, day_of now) ]} ∪ activity_log t.
Proof.
  unfold update_tables, read_known. destruct (problems t !! problem) as [meta|]; [|done].
  cbn [mbind option_bind]. set (k := {| kn_currentStatus := _; kn_meta := _ |}). unfold write_known.
  destruct (upsert_problem _ _ _ _) as [prow|] eqn:E1; [|done].
  destruct (upsert_status _ _ _ _) as [srow|] eqn:E2; [|done].
  destruct (upsert_user _ _ _ _) as [urow|] eqn:E3; [|done].
  destruct (write_set _ _ _ _) as [sets|] eqn:E4; [|done].
  cbn [mbind option_bind]. intros [= <-]. exists meta, prow, srow, urow, sets. eexists. done.
Qed.

(** Newly solved: not before, and now. *)
Lemma new_solve_count req meta now old r :
  coherent req →
  upsert_problem req {| kn_currentStatus := pr_status <$> old; kn_meta := meta |} now old = Some r →
  boolToInt (is_solved (pr_status r)) =
    boolToInt (match old with Some o => is_solved (pr_status o) | None => false end)
    + boolToInt (isNewSolve req {| kn_currentStatus := pr_status <$> old; kn_meta := meta |}).
Proof.
  intros Hc H. apply upsert_problem_inv in H as (_ & -> & _).
  unfold isNewSolve, statusToStore, alreadySolved, coherent in *. cbn [kn_currentStatus].
  destruct old as [o|]; cbn [fmap option_fmap option_map].
  - destruct (is_solved (pr_status o)) eqn:E; cbn [negb]; rewrite ?andb_false_r, ?andb_true_r, ?Hc; done.
  - by rewrite andb_true_r, Hc.
Qed.

Lemma user_row_insert user row t' t :
  user_progress t' = <[user := row]> (user_progress t) →
  user_row user t' = row ∧ ∀ u, u ≠ user → user_row u t' = user_row u t.
Proof.
  intros E. unfold user_row. rewrite E. split; [by rewrite lookup_insert_eq|].
  intros u Hu. by rewrite lookup_insert_ne.
Qed.

Lemma bool_decide_solved r : bool_decide (pr_status r = "Solved") = is_solved (pr_status r).
Proof.
  unfold is_solved, solved_status. destruct (String.eqb_spec (pr_status r) "Solved");
    [by apply bool_decide_true|by apply bool_decide_false].
Qed.

Lemma solved_count_insert u user problem r m :
  count_rows (solved_by u) (<[(user, problem) := r]> m) =
    count_rows (solved_by u) m +
    if bool_decide (user = u)
    then boolToInt (is_solved (pr_status r))
         - boolToInt (match m !! (user, problem) with Some o => is_solved (pr_status o) | None => false end)
    else 0.
Proof.
  rewrite count_rows_insert. unfold solved_by. cbn [fst snd]. destruct (decide (user = u)) as [->|Hne].
  - rewrite (bool_decide_true (u = u)) by done.
    assert (E : ∀ o, bool_decide (u = u ∧ pr_status o = "Solved") = is_solved (pr_status o)).
    { intros o. rewrite <- bool_decide_solved. apply bool_decide_ext. tauto. }
    rewrite E. destruct (m !! (u, problem)) as [o|]; [rewrite E|]; lia.
  - rewrite (bool_decide_false (user = u)) by done.
    rewrite bool_decide_false by tauto. destruct (m !! (user, problem)) as [o|]; [|cbn; lia].
    rewrite bool_decide_false by tauto. cbn. lia.
Qed.

Lemma attempted_count_insert u user problem r m :
  count_rows (attempted_by u) (<[(user, problem) := r]> m) =
    count_rows (attempted_by u) m +
    if bool_decide (user = u)
    then 1 - boolToInt (bool_decide (is_Some (m !! (user, problem)))) else 0.
Proof.
  rewrite count_rows_insert. unfold attempted_by. cbn [fst snd]. destruct (decide (user = u)) as [->|Hne].
  - assert (Hb : ∀ D : Decision (u = u), @bool_decide (u = u) D = true)
      by (intros D; by apply bool_decide_true).
    rewrite !Hb. destruct (m !! (u, problem)) as [o|]; rewrite ?Hb.
    + rewrite (bool_decide_true (is_Some _)) by by eexists. cbn. lia.
    + rewrite (bool_decide_false (is_Some _)) by by intros []. cbn. lia.
  - assert (Hb : ∀ D : Decision (user = u), @bool_decide (user = u) D = false)
      by (intros D; by apply bool_decide_false).
    rewrite !Hb. destruct (m !! (user, problem)); rewrite ?Hb; cbn; lia.
Qed.

(** The two status tables get the same row. *)
Lemma upserts_agree req k now old r r' :
  upsert_problem req k now old = Some r →
  upsert_status req k now
    ((λ o, {| us_status := pr_status o; us_solved_at := pr_solved_at o; us_attempts := pr_attempts o |}) <$> old)
    = Some r' →
  r' = {| us_status := pr_status r; us_solved_at := pr_solved_at r; us_attempts := pr_attempts r |}.
Proof.
  intros (Ha & Hs & Ht)%upsert_problem_inv (Ha' & Hs' & Ht')%upsert_status_inv.
  destruct r' as [s a n]. cbn [us_status us_solved_at us_attempts] in *. subst s a n.
  rewrite Ha, Hs, Ht. by destruct old.
Qed.

(** A solved row has the time it was solved. *)
Lemma upsert_solved_at req meta now old r :
  coherent req →
  upsert_problem req {| kn_currentStatus := pr_status <$> old; kn_meta := meta |} now old = Some r →
  (∀ o, old = Some o → pr_status o = "Solved" → is_Some (pr_solved_at o)) →
  pr_status r = "Solved" → is_Some (pr_solved_at r).
Proof.
  intros Hc (_ & Hs & ->)%upsert_problem_inv Hold Hr. rewrite Hs in Hr.
  unfold statusToStore, solvedAt, alreadySolved, coherent in *. cbn [kn_currentStatus] in *.
  destruct old as [o|]; cbn [fmap option_fmap option_map] in *.
  - destruct (pr_solved_at o) as [x|] eqn:Ex; [done|]. destruct (is_solved (pr_status o)) eqn:E.
    + rewrite orb_true_r. done.
    + rewrite orb_false_r, Hc. apply is_solved_spec in Hr. by rewrite Hr.
  - rewrite orb_false_r, Hc. apply is_solved_spec in Hr. by rewrite Hr.
Qed.

Lemma update_tables_consistent user problem req now later t t' :
  coherent req → consistent t → update_tables user problem req now later t = Some t' → consistent t'.
Proof.
  intros Hc [C1 C2 C3 C4 C5 C6] H.
  apply update_tables_inv in H as (meta & prow & srow & urow & sets & streak & H). cbv zeta in H.
  destruct H as (_ & Hp & Hs & Hu & _ & _ & E1 & E2 & E3 & _ & _).
  destruct (user_row_insert _ _ _ _ E3) as [Hrow Hother].
  apply upsert_user_inv in Hu as (U1 & U2 & U3 & U4 & U5 & _ & _ & _). fold (user_row user t) in *.
  set (k := {| kn_currentStatus := _; kn_meta := meta |}) in *.
  pose proof (new_solve_count _ _ _ _ _ Hc Hp) as Hnew. fold k in Hnew.
  pose proof (difficulty_split (isNewSolve req k) (pm_difficulty (kn_meta k))) as Hsplit.
  cbv zeta in Hsplit.
  assert (Hatt : boolToInt (isNewAttempt k) =
                 1 - boolToInt (bool_decide (is_Some (problem_progress t !! (user, problem))))).
  { unfold isNewAttempt, alreadyAttempted. cbn [kn_currentStatus k].
    rewrite (bool_decide_ext _ (is_Some (problem_progress t !! (user, problem)))) by by rewrite fmap_is_Some.
    destruct (bool_decide _); done. }
  split.
  - intros u. rewrite E1, solved_count_insert. destruct (decide (user = u)) as [<-|Hne];
      [rewrite (bool_decide_true (user = user)) by done
      |rewrite (bool_decide_false (user = u)), Hother by done; rewrite C1; lia].
    rewrite Hrow. cbn [set_streak ur_total_solved]. rewrite U1, C1. lia.
  - intros u. rewrite E1, attempted_count_insert. destruct (decide (user = u)) as [<-|Hne];
      [rewrite (bool_decide_true (user = user)) by done
      |rewrite (bool_decide_false (user = u)), Hother by done; rewrite C2; lia].
    rewrite Hrow. cbn [set_streak ur_total_attempted]. rewrite U2, C2, Hatt. lia.
  - intros u. destruct (decide (u = user)) as [->|Hne]; [|rewrite Hother by done; apply C3].
    rewrite Hrow. cbv zeta. cbn [set_streak ur_easy_solved ur_medium_solved ur_hard_solved ur_total_solved].
    specialize (C3 user). cbv zeta in C3. rewrite U1, U3, U4, U5. lia.
  - intros u. destruct (decide (u = user)) as [->|Hne]; [|rewrite Hother by done; apply C4].
    rewrite Hrow. cbn. lia.
  - intros key. rewrite E1, E2. destruct (decide (key = (user, problem))) as [->|Hne].
    + rewrite !lookup_insert_eq. cbn. f_equal. rewrite C5 in Hs. by eapply upserts_agree.
    + by rewrite !lookup_insert_ne.
  - intros key r. rewrite E1. destruct (decide (key = (user, problem))) as [->|Hne].
    + rewrite lookup_insert_eq. intros [= <-]. eapply upsert_solved_at; [exact Hc|exact Hp|]. apply C6.
    + rewrite lookup_insert_ne by done. apply C6.
Qed.

(** The tables of a new service. *)
Definition no_tables (ps : gmap string ProblemMeta) : Tables :=
  {| problems := ps; problem_progress := ∅; problem_user_status := ∅; user_progress := ∅;
     set_progress := ∅; activity_log := ∅ |}.

Lemma no_tables_consistent ps : consistent (no_tables ps).
Proof. split; try done; intros u; unfold count_rows; by rewrite map_filter_empty. Qed.

(** ** Requests *)

Section Requests.
Context {PT : PgTypes} (set_title : string → option string).

(** The requests of the service. *)
Inductive Request :=
  | ReadUser (user : string)
  | ReadProblem (user problem : string)
  | Update (req : UpdateProblemStatusRequest).

Definition serve (r : Request) : Svc ProgressStore unit :=
  match r with
  | ReadUser user => HandleGetUserProgress set_title user ;; return_ tt
  | ReadProblem user problem => HandleGetProblemStatus user problem ;; return_ tt
  | Update req => HandleUpdateProblemStatus req ;; return_ tt
  end.

Fixpoint serve_all (l : list Request) : Svc ProgressStore unit :=
  match l with
  | [] => return_ tt
  | r :: t => serve r ;; serve_all t
  end.

(** An effect that leaves the tables alone. *)
Lemma preserves_read {A} label (f : Stamp → ProgressStore → option (A * ProgressStore)) :
  (∀ st s x s', f st s = Some (x, s') → tables s' = tables s) →
  preserves (λ s, consistent (tables s)) (effect label f).
Proof. intros Hf. apply preserves_effect. intros st s x s' Hs H. by rewrite (Hf _ _ _ _ H). Qed.

Lemma UpdateProblemStatus_preserves req :
  coherent req → preserves (λ s, consistent (tables s)) (UpdateProblemStatus req).
Proof.
  intros Hc. unfold UpdateProblemStatus. preserves_steps.
  - apply preserves_effect. intros st s z s' Hs H.
    destruct (pg_text (up_UserId req)) as [user|]; [|done].
    destruct (pg_uuid (up_ProblemId req)) as [problem|]; [|done].
    destruct (pg_text (up_Status req)); [|done]. destruct (pg_text (up_Language req)); [|done].
    destruct (update_tables _ _ _ _ _ _) as [t'|] eqn:E; [|done]. injection H as _ <-.
    by eapply update_tables_consistent.
  - apply preserves_read. intros st s y s' H. by injection H as _ <-.
Qed.

Ltac reads_only :=
  apply preserves_read; intros st s y s' H; repeat case_match; simplify_eq/=; done.

Lemma serve_preserves r :
  match r with Update req => coherent req | _ => True end →
  preserves (λ s, consistent (tables s)) (serve r).
Proof.
  intros Hr. destruct r as [user|user problem|req]; unfold serve.
  - unfold HandleGetUserProgress, cached, GetUserProgress, cache_user. preserves_steps; reads_only.
  - unfold HandleGetProblemStatus, cached, GetProblemStatus, cache_status. preserves_steps; reads_only.
  - unfold HandleUpdateProblemStatus, InvalidateUserProgress. preserves_steps; try reads_only.
    by apply UpdateProblemStatus_preserves.
Qed.

Lemma serve_all_preserves l :
  Forall (λ r, match r with Update req => coherent req | _ => True end) l →
  preserves (λ s, consistent (tables s)) (serve_all l).
Proof.
  induction 1 as [|r l Hr _ IH]; [apply preserves_return|]. cbn [serve_all].
  apply preserves_then; [by apply serve_preserves|done].
Qed.

End Requests.

(** ** What an update awards *)

(** Whether a user has solved a problem. *)
Definition has_solved (user problem : string) (t : Tables) : bool :=
  match problem_progress t !! (user, problem) with Some r => is_solved (pr_status r) | None => false end.

Lemma isNewSolve_spec req meta user problem t :
  isNewSolve req {| kn_currentStatus := pr_status <$> problem_progress t !! (user, problem); kn_meta := meta |}
  = up_IsCorrect req && negb (has_solved user problem t).
Proof.
  unfold isNewSolve, alreadySolved, has_solved. cbn [kn_currentStatus].
  by destruct (problem_progress t !! (user, problem)).
Qed.

(** The set's row counts the new solve, if there is a set. *)
Lemma write_set_solved user req k t sets set :
  write_set user req k t = Some sets → setIDStr k = set → set ≠ "" →
  sr_solved (default {| sr_solved := 0; sr_total := 0 |} (sets !! (user, set))) =
    sr_solved (default {| sr_solved := 0; sr_total := 0 |} (set_progress t !! (user, set)))
    + boolToInt (isNewSolve req k).
Proof.
  intros H <- Hne. unfold write_set in H. rewrite (proj2 (String.eqb_neq _ _) Hne) in H.
  destruct (int4 (set_size _ _)) as [total|]; [|done]. cbn [mbind option_bind] in H.
  unfold upsert_set in H. destruct (int4 _) as [solved|] eqn:E; [|done]. cbn [mbind option_bind] in H.
  injection H as <-. apply int4_inv in E as [-> _]. rewrite lookup_insert_eq. cbn.
  by destruct (set_progress t !! (user, setIDStr k)).
Qed.

(** The solve of an update: counted and paid for when it is new. *)
Lemma update_effect user problem req now later t t' :
  coherent req → update_tables user problem req now later t = Some t' →
  let new := up_IsCorrect req && negb (has_solved user problem t) in
  (if new then True else total_xp user t' = total_xp user t) ∧
  ur_total_solved (user_row user t') = ur_total_solved (user_row user t) + boolToInt new ∧
  has_solved user problem t' = has_solved user problem t || up_IsCorrect req.
Proof.
  intros Hc H. apply update_tables_inv in H as (meta & prow & srow & urow & sets & streak & H). cbv zeta in H.
  destruct H as (Hm & Hp & _ & Hu & _ & _ & E1 & _ & E3 & _ & _). cbv zeta.
  pose proof (new_solve_count _ _ _ _ _ Hc Hp) as Hnew.
  destruct (user_row_insert _ _ _ _ E3) as [Hrow _].
  apply upsert_user_inv in Hu as (U1 & _ & _ & _ & _ & U6 & _ & _). fold (user_row user t) in U1, U6.
  set (k := {| kn_currentStatus := _; kn_meta := meta |}) in *.
  assert (Hn : isNewSolve req k = up_IsCorrect req && negb (has_solved user problem t)) by apply isNewSolve_spec.
  split_and!.
  - rewrite <- Hn. destruct (isNewSolve req k) eqn:En; [done|]. unfold total_xp.
    rewrite E3, lookup_insert_eq. cbn [set_streak ur_total_xp]. rewrite U6. unfold xpEarned. rewrite En.
    unfold user_row. destruct (user_progress t !! user); cbn; lia.
  - rewrite Hrow. cbn [set_streak ur_total_solved]. by rewrite U1, Hn.
  - unfold has_solved at 1. rewrite E1, lookup_insert_eq.
    fold (has_solved user problem t) in Hnew. rewrite Hn in Hnew.
    destruct (is_solved (pr_status prow)), (has_solved user problem t), (up_IsCorrect req); cbn in Hnew; done || lia.
Qed.

(** A solve is counted and paid for once: an update adds
    to the user's experience points, solved total and set exactly when it
    is correct and the problem was not solved before, what it adds is the
    request's points or else the problem's, a problem once solved stays
    solved with the time it was first solved, and every update counts one
    attempt. *)
Theorem update_awards user problem req now later t t' :
  coherent req → update_tables user problem req now later t = Some t' →
  ∃ meta r', problems t !! problem = Some meta ∧ problem_progress t' !! (user, problem) = Some r' ∧
    let new := up_IsCorrect req && negb (has_solved user problem t) in
    total_xp user t' = total_xp user t +
      (if new then if 0 <? up_XpEarned req then up_XpEarned req else pm_xp meta else 0) ∧
    ur_total_solved (user_row user t') = ur_total_solved (user_row user t) + boolToInt new ∧
    (∀ set, pm_set_id meta = Some set → set ≠ "" →
       sr_solved (default {| sr_solved := 0; sr_total := 0 |} (set_progress t' !! (user, set))) =
       sr_solved (default {| sr_solved := 0; sr_total := 0 |} (set_progress t !! (user, set))) + boolToInt new) ∧
    has_solved user problem t' = has_solved user problem t || up_IsCorrect req ∧
    (∀ r x, problem_progress t !! (user, problem) = Some r → pr_solved_at r = Some x →
       pr_solved_at r' = Some x) ∧
    pr_attempts r' = match problem_progress t !! (user, problem) with
                     | Some r => pr_attempts r | None => 0 end + 1.
Proof.
  intros Hc H. destruct (update_effect _ _ _ _ _ _ _ Hc H) as (_ & Htot & Hsol).
  apply update_tables_inv in H as (meta & prow & srow & urow & sets & streak & H). cbv zeta in H.
  destruct H as (Hm & Hp & _ & Hu & Hset & _ & E1 & _ & E3 & E4 & _).
  exists meta, prow. rewrite E1, lookup_insert_eq. split; [done|]. split; [done|]. cbv zeta.
  apply upsert_user_inv in Hu as (_ & _ & _ & _ & _ & U6 & _ & _). fold (user_row user t) in U6.
  set (k := {| kn_currentStatus := _; kn_meta := meta |}) in *.
  assert (Hn : isNewSolve req k = up_IsCorrect req && negb (has_solved user problem t)) by apply isNewSolve_spec.
  apply upsert_problem_inv in Hp as (Hat & _ & Hsa). split_and!; [|exact Htot| |exact Hsol| |exact Hat].
  - unfold total_xp. rewrite E3, lookup_insert_eq. cbn [set_streak ur_total_xp]. rewrite U6.
    unfold xpEarned. rewrite Hn. cbn [k kn_meta]. f_equal. unfold user_row. by destruct (user_progress t !! user).
  - intros set Hs Hne. rewrite E4, <- Hn. apply (write_set_solved user req k); [exact Hset| |done].
    unfold setIDStr. cbn [k kn_meta]. by rewrite Hs.
  - intros r x Hr Hx. rewrite Hsa, Hr. by rewrite Hx.
Qed.

(** A wrong submission to a problem that
    is already solved replaces the run time and memory kept with the solution
    by its own, which the submission service sends as zero. *)
Theorem resubmission_overwrites_runtime user problem req now later t t' r :
  update_tables user problem req now later t = Some t' →
  problem_progress t !! (user, problem) = Some r → pr_status r = "Solved" →
  ∃ r', problem_progress t' !! (user, problem) = Some r' ∧ pr_status r' = "Solved" ∧
    pr_runtime_ms r' = up_RuntimeMs req ∧ pr_memory_kb r' = up_MemoryKb req.
Proof.
  intros H Hr Hs. apply update_tables_inv in H as (meta & prow & srow & urow & sets & streak & H). cbv zeta in H.
  destruct H as (_ & Hp & _ & _ & _ & _ & E1 & _). exists prow. rewrite E1, lookup_insert_eq.
  split; [done|]. rewrite Hr in Hp. cbn [fmap option_fmap option_map] in Hp. unfold upsert_problem in Hp.
  destruct (int4 _); [|done]. cbn [mbind option_bind] in Hp. injection Hp as <-. cbn.
  unfold statusToStore, alreadySolved. cbn [kn_currentStatus]. by rewrite Hs.
Qed.

(** Two correct submissions to the same problem whose
    transactions both read before either writes are both counted as the first
    solve: the total of solved problems is then one more than the number of
    problems solved. *)
Theorem race_double_counts user problem req req' k now later now' later' t t1 t2 :
  coherent req → coherent req' → consistent t → up_IsCorrect req = true → up_IsCorrect req' = true →
  has_solved user problem t = false → read_known user problem t = Some k →
  write_known user problem req k now later t = Some t1 →
  write_known user problem req' k now' later' t1 = Some t2 →
  ur_total_solved (user_row user t2) = count_rows (solved_by user) (problem_progress t2) + 1.
Proof.
  intros Hc Hc' Hco Hok Hok' Hno Hk H1 H2.
  assert (H1' : update_tables user problem req now later t = Some t1).
  { unfold update_tables. by rewrite Hk. }
  pose proof (update_tables_consistent _ _ _ _ _ _ _ Hc Hco H1') as Hco1.
  assert (Hk1 : isNewSolve req' k = true).
  { unfold read_known in Hk. destruct (problems t !! problem) as [meta|]; [|done]. injection Hk as <-.
    rewrite isNewSolve_spec, Hok', Hno. done. }
  destruct (update_effect _ _ _ _ _ _ _ Hc H1') as (_ & _ & Hsolved).
  rewrite Hno, Hok in Hsolved. cbn in Hsolved.
  unfold write_known in H2.
  destruct (upsert_problem _ _ _ _) as [prow|] eqn:E1; [|done].
  destruct (upsert_status _ _ _ _) as [srow|]; [|done].
  destruct (upsert_user _ _ _ _) as [urow|] eqn:E3; [|done].
  destruct (write_set _ _ _ _) as [sets|]; [|done]. cbn [mbind option_bind] in H2. injection H2 as <-.
  match goal with |- ur_total_solved (user_row _ ?T) = _ =>
    destruct (user_row_insert user _ T t1 eq_refl) as [-> _] end.
  cbn [problem_progress set_streak ur_total_solved].
  rewrite solved_count_insert, bool_decide_true by done. fold (has_solved user problem t1).
  rewrite Hsolved. apply upsert_problem_inv in E1 as (_ & Hst & _).
  fold (has_solved user problem t1) in Hst. rewrite Hsolved in Hst.
  rewrite Hst. change (is_solved "Solved") with true.
  apply upsert_user_inv in E3 as (U1 & _). fold (user_row user t1) in U1. rewrite U1, Hk1.
  rewrite (co_solved _ Hco1). cbn [boolToInt]. lia.
Qed.

(** ** The caches *)

Section Caches.
Context {PT : PgTypes} (set_title : string → option string).

Lemma cached_calm {V} (c : ProgressStore → gmap string (V * Z)) key w n s :
  calm w → cached c key w n s =
    (inl (match c s !! key with
          | Some (v, expiry) => if time_at w n <? expiry then Some v else None
          | None => None
          end), (n + 1 + 1)%nat, s).
Proof. intros Hw. unfold cached, then_, clock_now, try. by rewrite effect_calm. Qed.

Lemma UpdateProblemStatus_caches req w n s r n' s' :
  alone w → UpdateProblemStatus req w n s = (r, n', s') →
  user_cache s' = user_cache s ∧ status_cache s' = status_cache s.
Proof.
  intros Ho. unfold UpdateProblemStatus, then_, clock_now, try, error, return_.
  destruct (negb _); [by intros [= _ _ <-]|]. rewrite effect_alone by done.
  destruct (failure w _); [| |]; repeat case_match; intros; simplify_eq/=;
    repeat match goal with
    | H : effect _ _ _ _ _ = _ |- _ => rewrite effect_alone in H by done
    | H : (match _ with _ => _ end) = _ |- _ => case_match; simplify_eq/=
    | H : _ <$> _ = Some _ |- _ => apply fmap_Some in H as (? & ? & ?); simplify_eq/=
    end; done.
Qed.

(** After a successful update the next read of the
    user's progress gives the totals of the tables; but the status of the
    problem that was cached before the update is still what a read of it
    gives, until the entry expires. *)
Theorem update_invalidates req w n s xp n1 s1 :
  calm w → pg_text (up_UserId req) = Some (up_UserId req) →
  HandleUpdateProblemStatus req w n s = (inl (inl xp), n1, s1) →
  (∃ p n2 s2, HandleGetUserProgress set_title (up_UserId req) w n1 s1 = (inl (inl p), n2, s2) ∧
     gp_row p = user_row (up_UserId req) (tables s1)) ∧
  (∀ old expiry, status_cache s !! status_key (up_UserId req) (up_ProblemId req) = Some (old, expiry) →
     time_at w n1 < expiry →
     HandleGetProblemStatus (up_UserId req) (up_ProblemId req) w n1 s1 = (inl (inl old), (n1 + 1 + 1)%nat, s1)).
Proof.
  intros Hw Ht H. unfold HandleUpdateProblemStatus in H.
  destruct (String.eqb_spec (up_UserId req) "") as [|Hu]; [done|].
  destruct (String.eqb_spec (up_ProblemId req) "") as [|Hp]; [done|]. cbn [orb] in H.
  svc_bind H r n2 s2 Hr. unfold try in Hr.
  destruct (UpdateProblemStatus req w n s) as [[r0 n0] s0] eqn:E. injection Hr as <- <- <-.
  destruct (UpdateProblemStatus_caches _ _ _ _ _ _ _ (calm_alone _ Hw) E) as [_ Hsc].
  destruct r0 as [xp'|]; [|done]. svc_bind H u n3 s3 Hi. injection H as <- <- <-.
  unfold InvalidateUserProgress, then_, try, return_ in Hi. rewrite effect_calm in Hi by done.
  injection Hi as <- <- <-. cbn [tables user_cache status_cache]. split.
  - unfold HandleGetUserProgress. rewrite (proj2 (String.eqb_neq _ _) Hu). unfold then_ at 1.
    rewrite cached_calm by done. cbn [user_cache]. rewrite lookup_delete_eq.
    unfold GetUserProgress, cache_user, then_, try, clock_now, return_.
    rewrite effect_calm by done. rewrite Ht. rewrite effect_calm by done. rewrite effect_calm by done.
    do 3 eexists. done.
  - intros old expiry Hc Hlt. unfold HandleGetProblemStatus.
    rewrite (proj2 (String.eqb_neq _ _) Hu), (proj2 (String.eqb_neq _ _) Hp). cbn [orb].
    unfold then_. rewrite cached_calm by done. cbn [status_cache]. rewrite Hsc, Hc.
    by rewrite (proj2 (Z.ltb_lt _ _) Hlt).
Qed.
End Caches.
