(* ===== verification/Store.v ===== *)
(** The assessment service's database as the repository methods see it
    (services/assessment-service/internal/repository, migrations/001-006), and
    the monad the methods run in.

    A table is a finite map from primary keys to rows.  A method is a sequence
    of statements; [statement] is one of them on the pool or inside a
    transaction.  An environment decides everything the service does not: the
    clock, fresh ids, random seeds, the order of rows a query leaves open,
    which statements fail before or after taking effect, and what the other
    requests do to the database before each statement of the pool
    ([interfere]).  A transaction is one step: its own statements see no
    interference, and an error rolls back to its start.

    [respects G m] says that [m], run among requests that keep the relation
    [G], keeps it too. *)

From S2P Require Import Prelude GoStrings Float64 Grading.

#[local] Open Scope Z_scope.

(** ** Rows *)

Inductive AttemptStatus := InProgress | Submitted | Evaluating | Evaluated | Disqualified | Expired.
Inductive QKind := Mcq | Coding | Descriptive.
Inductive GradingStatus := Ungraded | Pending | Graded | ManualReview.

#[export] Instance attempt_status_eq_dec : EqDecision AttemptStatus.
Proof. solve_decision. Defined.
#[export] Instance qkind_eq_dec : EqDecision QKind.
Proof. solve_decision. Defined.
#[export] Instance grading_status_eq_dec : EqDecision GradingStatus.
Proof. solve_decision. Defined.

(** [assessmentv1.Proctoring], as stored in assessments.proctoring. *)
Record Proctoring := {
  RequireFullscreen : bool;
  TabSwitchLimit : Z;
  BlockCopyPaste : bool;
  Webcam : bool;
}.

(** Marks and scores are NUMERIC with two decimals: integers in hundredths.
    Times are nanoseconds. *)
Record AssessmentRow := {
  as_company_id : option string;
  as_title : string;
  as_description : string;
  as_purpose : string;
  as_duration_minutes : Z;
  as_total_marks : Z;
  as_passing_marks : Z;
  as_negative_marking : Z;
  as_shuffle_questions : bool;
  as_shuffle_options : bool;
  as_allow_backtrack : bool;
  as_lock_forward : bool;
  as_reveal_results : bool;
  as_proctoring : Proctoring;
  as_status : string;
  as_opens_at : option Z;
  as_closes_at : option Z;
  as_max_attempts : Z;
  as_course_ids : list string;
  as_created_by : string;
  as_created_at : Z;
}.

Record SectionRow := {
  se_assessment_id : string;
  se_title : string;
  se_kind : QKind;
  se_order_index : Z;
  se_duration_minutes : option Z;
  se_cutoff_marks : Z;
  se_pick_count : option Z;
  se_pick_topic : string;
  se_pick_difficulty : string;
  se_pick_course : string;
  se_pick_marks : Z;
  se_partial_credit : bool;
}.

Record SectionQuestionRow := {
  sq_section_id : string;
  sq_mcq_question_id : option string;
  sq_problem_id : option string;
  sq_marks : Z;
  sq_order_index : Z;
}.

Record McqQuestionRow := {
  mq_company_id : option string;
  mq_course_id : string;
  mq_topic : string;
  mq_difficulty : string;
  mq_body : string;
  mq_kind : string;
  mq_is_active : bool;
  mq_explanation : string;
  mq_created_by : option string;
  mq_created_at : Z;
}.

Record McqOptionRow := {
  mo_question_id : string;
  mo_body : string;
  mo_is_correct : bool;
  mo_order_index : Z;
}.

Record InviteRow := {
  in_assessment_id : string;
  in_email : string;
  in_user_id : option string;
  in_token : string;
  in_status : string;
  in_expires_at : option Z;
  in_sent_at : option Z;
}.

Record AttemptRow := {
  at_assessment_id : string;
  at_user_id : string;
  at_invite_id : option string;
  at_attempt_no : Z;
  at_status : AttemptStatus;
  at_seed : Z;
  at_started_at : Z;
  at_expires_at : Z;
  at_submitted_at : option Z;
  at_evaluated_at : option Z;
  at_score : Z;
  at_max_score : Z;
  at_section_scores : gmap string float64;
  at_integrity_score : Z;
}.

Record QuestionRow := {
  aq_attempt_id : string;
  aq_section_id : string;
  aq_kind : QKind;
  aq_mcq_question_id : option string;
  aq_problem_id : option string;
  aq_order_index : Z;
  aq_marks : Z;
  aq_option_order : list string;
  aq_selected_options : list string;
  aq_text_answer : option string;
  aq_submission_id : option string;
  aq_language : string;
  aq_code : string;
  aq_awarded_marks : option Z;
  aq_grading_status : GradingStatus;
  aq_time_spent_ms : Z;
  aq_visited : bool;
  aq_marked_review : bool;
}.

(** Keyed by submission_id, which is unique. *)
Record SubmissionRow := {
  sb_attempt_question_id : string;
  sb_language : string;
  sb_code : string;
  sb_passed_count : option Z;
  sb_total_count : option Z;
  sb_status : string;
}.

Record EventRow := { pe_attempt_id : string; pe_kind : string; pe_detail : string; pe_occurred_at : Z }.

(** [ShortlistCriteria] of proto/assessment/v1/assessment.go, stored as JSON. *)
Record ShortlistCriteria := {
  MinScorePercent : float64;
  SectionCutoffs : gmap string float64;
  MinIntegrity : float64;
  TopN : Z;
  ExcludeFlagged : bool;
}.

Record ShortlistRow := {
  sl_assessment_id : string;
  sl_name : string;
  sl_criteria : ShortlistCriteria;
  sl_created_by : string;
  sl_created_at : Z;
}.

Record EntryRow := { le_user_id : string; le_rank : Z; le_decision : string; le_notes : string }.

Record UserRow := { us_name : string; us_email : string }.

Record CompanyRow := {
  co_name : string;
  co_slug : string;
  co_logo_url : string;
  co_website : string;
  co_created_at : Z;
}.

Record DB := {
  assessments : gmap string AssessmentRow;
  assessment_sections : gmap string SectionRow;
  section_questions : gmap string SectionQuestionRow;
  mcq_questions : gmap string McqQuestionRow;
  mcq_options : gmap string McqOptionRow;
  assessment_invites : gmap string InviteRow;
  attempts : gmap string AttemptRow;
  attempt_questions : gmap string QuestionRow;
  attempt_submissions : gmap string SubmissionRow;
  proctor_events : list EventRow;
  shortlists : gmap string ShortlistRow;
  shortlist_entries : gmap (string * string) EntryRow; (* by shortlist and attempt *)
  users : gmap string UserRow;
  user_courses : gset (string * string);
  problem_titles : gmap string string;
  companies : gmap string CompanyRow;
  company_members : gmap (string * string) string; (* the role, by company and user *)
}.

Definition with_attempts (f : gmap string AttemptRow → gmap string AttemptRow) (db : DB) : DB :=
  {| assessments := assessments db; assessment_sections := assessment_sections db;
     section_questions := section_questions db; mcq_questions := mcq_questions db;
     mcq_options := mcq_options db; assessment_invites := assessment_invites db;
     attempts := f (attempts db); attempt_questions := attempt_questions db;
     attempt_submissions := attempt_submissions db; proctor_events := proctor_events db;
     shortlists := shortlists db; shortlist_entries := shortlist_entries db; users := users db;
     user_courses := user_courses db; problem_titles := problem_titles db;
     companies := companies db; company_members := company_members db |}.

Definition with_questions (f : gmap string QuestionRow → gmap string QuestionRow) (db : DB) : DB :=
  {| assessments := assessments db; assessment_sections := assessment_sections db;
     section_questions := section_questions db; mcq_questions := mcq_questions db;
     mcq_options := mcq_options db; assessment_invites := assessment_invites db;
     attempts := attempts db; attempt_questions := f (attempt_questions db);
     attempt_submissions := attempt_submissions db; proctor_events := proctor_events db;
     shortlists := shortlists db; shortlist_entries := shortlist_entries db; users := users db;
     user_courses := user_courses db; problem_titles := problem_titles db;
     companies := companies db; company_members := company_members db |}.

Definition with_submissions (f : gmap string SubmissionRow → gmap string SubmissionRow) (db : DB) : DB :=
  {| assessments := assessments db; assessment_sections := assessment_sections db;
     section_questions := section_questions db; mcq_questions := mcq_questions db;
     mcq_options := mcq_options db; assessment_invites := assessment_invites db;
     attempts := attempts db; attempt_questions := attempt_questions db;
     attempt_submissions := f (attempt_submissions db); proctor_events := proctor_events db;
     shortlists := shortlists db; shortlist_entries := shortlist_entries db; users := users db;
     user_courses := user_courses db; problem_titles := problem_titles db;
     companies := companies db; company_members := company_members db |}.

Definition with_invites (f : gmap string InviteRow → gmap string InviteRow) (db : DB) : DB :=
  {| assessments := assessments db; assessment_sections := assessment_sections db;
     section_questions := section_questions db; mcq_questions := mcq_questions db;
     mcq_options := mcq_options db; assessment_invites := f (assessment_invites db);
     attempts := attempts db; attempt_questions := attempt_questions db;
     attempt_submissions := attempt_submissions db; proctor_events := proctor_events db;
     shortlists := shortlists db; shortlist_entries := shortlist_entries db; users := users db;
     user_courses := user_courses db; problem_titles := problem_titles db;
     companies := companies db; company_members := company_members db |}.

Definition with_events (f : list EventRow → list EventRow) (db : DB) : DB :=
  {| assessments := assessments db; assessment_sections := assessment_sections db;
     section_questions := section_questions db; mcq_questions := mcq_questions db;
     mcq_options := mcq_options db; assessment_invites := assessment_invites db;
     attempts := attempts db; attempt_questions := attempt_questions db;
     attempt_submissions := attempt_submissions db; proctor_events := f (proctor_events db);
     shortlists := shortlists db; shortlist_entries := shortlist_entries db; users := users db;
     user_courses := user_courses db; problem_titles := problem_titles db;
     companies := companies db; company_members := company_members db |}.

Definition with_mcq_options (f : gmap string McqOptionRow → gmap string McqOptionRow) (db : DB) : DB :=
  {| assessments := assessments db; assessment_sections := assessment_sections db;
     section_questions := section_questions db; mcq_questions := mcq_questions db;
     mcq_options := f (mcq_options db); assessment_invites := assessment_invites db;
     attempts := attempts db; attempt_questions := attempt_questions db;
     attempt_submissions := attempt_submissions db; proctor_events := proctor_events db;
     shortlists := shortlists db; shortlist_entries := shortlist_entries db; users := users db;
     user_courses := user_courses db; problem_titles := problem_titles db;
     companies := companies db; company_members := company_members db |}.

Definition with_assessments (f : gmap string AssessmentRow → gmap string AssessmentRow) (db : DB) : DB :=
  {| assessments := f (assessments db); assessment_sections := assessment_sections db;
     section_questions := section_questions db; mcq_questions := mcq_questions db;
     mcq_options := mcq_options db; assessment_invites := assessment_invites db;
     attempts := attempts db; attempt_questions := attempt_questions db;
     attempt_submissions := attempt_submissions db; proctor_events := proctor_events db;
     shortlists := shortlists db; shortlist_entries := shortlist_entries db; users := users db;
     user_courses := user_courses db; problem_titles := problem_titles db;
     companies := companies db; company_members := company_members db |}.

Definition with_sections (f : gmap string SectionRow → gmap string SectionRow) (db : DB) : DB :=
  {| assessments := assessments db; assessment_sections := f (assessment_sections db);
     section_questions := section_questions db; mcq_questions := mcq_questions db;
     mcq_options := mcq_options db; assessment_invites := assessment_invites db;
     attempts := attempts db; attempt_questions := attempt_questions db;
     attempt_submissions := attempt_submissions db; proctor_events := proctor_events db;
     shortlists := shortlists db; shortlist_entries := shortlist_entries db; users := users db;
     user_courses := user_courses db; problem_titles := problem_titles db;
     companies := companies db; company_members := company_members db |}.

Definition with_question_lists (f : gmap string SectionQuestionRow → gmap string SectionQuestionRow) (db : DB) : DB :=
  {| assessments := assessments db; assessment_sections := assessment_sections db;
     section_questions := f (section_questions db); mcq_questions := mcq_questions db;
     mcq_options := mcq_options db; assessment_invites := assessment_invites db;
     attempts := attempts db; attempt_questions := attempt_questions db;
     attempt_submissions := attempt_submissions db; proctor_events := proctor_events db;
     shortlists := shortlists db; shortlist_entries := shortlist_entries db; users := users db;
     user_courses := user_courses db; problem_titles := problem_titles db;
     companies := companies db; company_members := company_members db |}.

Definition with_shortlists (f : gmap string ShortlistRow → gmap string ShortlistRow) (db : DB) : DB :=
  {| assessments := assessments db; assessment_sections := assessment_sections db;
     section_questions := section_questions db; mcq_questions := mcq_questions db;
     mcq_options := mcq_options db; assessment_invites := assessment_invites db;
     attempts := attempts db; attempt_questions := attempt_questions db;
     attempt_submissions := attempt_submissions db; proctor_events := proctor_events db;
     shortlists := f (shortlists db); shortlist_entries := shortlist_entries db; users := users db;
     user_courses := user_courses db; problem_titles := problem_titles db;
     companies := companies db; company_members := company_members db |}.

Definition with_entries (f : gmap (string * string) EntryRow → gmap (string * string) EntryRow) (db : DB) : DB :=
  {| assessments := assessments db; assessment_sections := assessment_sections db;
     section_questions := section_questions db; mcq_questions := mcq_questions db;
     mcq_options := mcq_options db; assessment_invites := assessment_invites db;
     attempts := attempts db; attempt_questions := attempt_questions db;
     attempt_submissions := attempt_submissions db; proctor_events := proctor_events db;
     shortlists := shortlists db; shortlist_entries := f (shortlist_entries db); users := users db;
     user_courses := user_courses db; problem_titles := problem_titles db;
     companies := companies db; company_members := company_members db |}.

Definition with_mcq_questions (f : gmap string McqQuestionRow → gmap string McqQuestionRow) (db : DB) : DB :=
  {| assessments := assessments db; assessment_sections := assessment_sections db;
     section_questions := section_questions db; mcq_questions := f (mcq_questions db);
     mcq_options := mcq_options db; assessment_invites := assessment_invites db;
     attempts := attempts db; attempt_questions := attempt_questions db;
     attempt_submissions := attempt_submissions db; proctor_events := proctor_events db;
     shortlists := shortlists db; shortlist_entries := shortlist_entries db; users := users db;
     user_courses := user_courses db; problem_titles := problem_titles db;
     companies := companies db; company_members := company_members db |}.

Definition with_companies (f : gmap string CompanyRow → gmap string CompanyRow) (db : DB) : DB :=
  {| assessments := assessments db; assessment_sections := assessment_sections db;
     section_questions := section_questions db; mcq_questions := mcq_questions db;
     mcq_options := mcq_options db; assessment_invites := assessment_invites db;
     attempts := attempts db; attempt_questions := attempt_questions db;
     attempt_submissions := attempt_submissions db; proctor_events := proctor_events db;
     shortlists := shortlists db; shortlist_entries := shortlist_entries db; users := users db;
     user_courses := user_courses db; problem_titles := problem_titles db;
     companies := f (companies db); company_members := company_members db |}.

Definition with_members (f : gmap (string * string) string → gmap (string * string) string) (db : DB) : DB :=
  {| assessments := assessments db; assessment_sections := assessment_sections db;
     section_questions := section_questions db; mcq_questions := mcq_questions db;
     mcq_options := mcq_options db; assessment_invites := assessment_invites db;
     attempts := attempts db; attempt_questions := attempt_questions db;
     attempt_submissions := attempt_submissions db; proctor_events := proctor_events db;
     shortlists := shortlists db; shortlist_entries := shortlist_entries db; users := users db;
     user_courses := user_courses db; problem_titles := problem_titles db;
     companies := companies db; company_members := f (company_members db) |}.

Definition empty_db : DB :=
  {| assessments := ∅; assessment_sections := ∅; section_questions := ∅; mcq_questions := ∅;
     mcq_options := ∅; assessment_invites := ∅; attempts := ∅; attempt_questions := ∅;
     attempt_submissions := ∅; proctor_events := []; shortlists := ∅; shortlist_entries := ∅; users := ∅;
     user_courses := ∅; problem_titles := ∅; companies := ∅; company_members := ∅ |}.

(** ** Queries *)

(** The rows that satisfy [p], with their keys. *)
Definition rows_where {R} (p : string → R → bool) (t : gmap string R) : list (string * R) :=
  filter (λ kv, p kv.1 kv.2 = true) (map_to_list t).

(** [UPDATE ... WHERE id = $1]. *)
Definition update_row {R} (id : string) (f : R → R) (t : gmap string R) : gmap string R :=
  alter f id t.

Lemma elem_rows_where {R} (p : string → R → bool) t k r :
  (k, r) ∈ rows_where p t ↔ t !! k = Some r ∧ p k r = true.
Proof.
  unfold rows_where. rewrite list_elem_of_filter, elem_of_map_to_list. simpl. tauto.
Qed.

Lemma update_row_const {R} (id : string) (f : R → R) t r :
  t !! id = Some r → update_row id f t = update_row id (λ _, f r) t.
Proof.
  intros Hr. unfold update_row. apply map_eq. intros k. destruct (decide (k = id)) as [->|Hne].
  - by rewrite !lookup_alter_eq, Hr.
  - by rewrite !lookup_alter_ne.
Qed.

Lemma rows_where_insert {R} (p : string → R → bool) t id r :
  t !! id = None → rows_where p (<[id := r]> t) ≡ₚ
  if p id r then (id, r) :: rows_where p t else rows_where p t.
Proof.
  intros Hn. unfold rows_where. rewrite map_to_list_insert by done.
  destruct (p id r) eqn:E; [by rewrite filter_cons_True|]. by rewrite filter_cons_False by (simpl; congruence).
Qed.

(** ** Values that cross to PostgreSQL *)

(** What the driver and the server do to a value: a float64 bound to a
    NUMERIC parameter of the given bound in hundredths ([None]: out of range),
    a float64 bound to the parameter of [GREATEST($2, 0)], whose type the
    server infers, an int64 bound to an integer parameter, a text cast to
    uuid, [lower] under the database's collation; and a NUMERIC scanned into a
    float64. *)
Class Postgres := {
  num_param : Z → float64 → option Z;
  greatest_param : float64 → option Z;
  int_param : Z → option Z;
  uuid_param : string → option string;
  sql_lower : string → string;
  num_value : Z → float64;
}.

(** The documented behaviour the theorems rely on. *)
Class PostgresLaws (P : Postgres) := {
  num_param_bound : ∀ lim x z, num_param lim x = Some z → - lim < z < lim;
  num_param_nonneg : ∀ lim x z, num_param lim x = Some z → fleb (S754_zero false) x = true → 0 ≤ z;
  num_param_mono : ∀ lim x y z w,
    num_param lim x = Some z → num_param lim y = Some w → fleb x y = true → z ≤ w;
  num_param_value : ∀ lim z, - lim < z < lim → lim ≤ 10 ^ 8 → num_param lim (num_value z) = Some z;
}.

(** [math/rand] seeded with a number: what its [n]-th [Int31n(bound)] gives. *)
Class GoRand := {
  int31n : Z → nat → nat → nat;
  int31n_lt : ∀ seed n bound, (0 < bound)%nat → (int31n seed n bound < bound)%nat;
}.

(** ** The monad *)

Inductive Err :=
  | ErrNotFound
  | ErrForbidden
  | ErrAttemptClosed
  | ErrNoAttemptsLeft
  | ErrNotInvited
  | ErrSubmissionNotLinked
  | ErrMsg (msg : string)
  | ErrDB (label : string).

#[export] Instance err_eq_dec : EqDecision Err.
Proof. solve_decision. Defined.

Inductive Fault := NoFault | FailBefore | FailAfter.

Record Env := {
  fault : nat → Fault;
  clock : nat → Z;
  fresh : nat → string;
  seed_bytes : nat → option Z;
  arrange : nat → list string → list string;
  arrange_perm : ∀ n l, arrange n l ≡ₚ l;
  interfere : nat → DB → DB;
}.

(** Which handle a helper runs on. *)
Inductive Querier := Pool | Tx.

(** What a statement may read of the environment. *)
Record Stamp := {
  st_now : Z;
  st_id : nat → string;
  st_order : list string → list string;
  st_order_perm : ∀ l, st_order l ≡ₚ l;
}.

Definition stamp_at (e : Env) (n : nat) : Stamp :=
  {| st_now := clock e n; st_id := λ i, fresh e (n + i); st_order := arrange e n;
     st_order_perm := arrange_perm e n |}.

Definition M (A : Type) : Type := Env → nat → DB → (A + Err) * nat * DB.

Definition ret {A} (x : A) : M A := λ e n db, (inl x, n, db).
Definition fail {A} (err : Err) : M A := λ e n db, (inr err, n, db).
Definition bind {A B} (m : M A) (k : A → M B) : M B :=
  λ e n db, match m e n db with
            | (inl x, n', db') => k x e n' db'
            | (inr err, n', db') => (inr err, n', db')
            end.

Declare Scope repo_scope.
Delimit Scope repo_scope with repo.
Notation "x <- m ;; k" := (bind m (λ x, k))
  (at level 100, m at next level, k at level 200, right associativity) : repo_scope.
Notation "m ;; k" := (bind m (λ _, k))
  (at level 100, k at level 200, right associativity) : repo_scope.

#[local] Open Scope repo_scope.

(** [time.Now().UTC()] *)
Definition now : M Z := λ e n db, (inl (clock e n), S n, db).

(** [randomSeed] *)
Definition randomSeed : M Z :=
  λ e n db, match seed_bytes e n with
            | Some b => (inl (b / 2), S n, db)
            | None => (inr (ErrDB "generate attempt seed"), S n, db)
            end.

(** One SQL statement.  [f] is its meaning: [None] is an error of the server
    (a constraint, a value out of range), which changes nothing. *)
Definition statement {A} (q : Querier) (label : string) (f : Stamp → DB → option (A * DB)) : M A :=
  λ e n db,
    let db := match q with Pool => interfere e n db | Tx => db end in
    match fault e n with
    | FailBefore => (inr (ErrDB label), S n, db)
    | flt =>
        match f (stamp_at e n) db with
        | None => (inr (ErrDB label), S n, db)
        | Some (x, db') =>
            (match flt with FailAfter => inr (ErrDB label) | _ => inl x end, S n, db')
        end
    end.

Definition select {A} (q : Querier) (label : string) (f : DB → A) : M A :=
  statement q label (λ _ db, Some (f db, db)).

(** [Begin], a body on the transaction, [Commit]; any error rolls back.  A
    failing [Commit] may still have taken effect. *)
Definition transaction {A} (begin_label commit_label : string) (body : M A) : M A :=
  λ e n db,
    let db0 := interfere e n db in
    match fault e n with
    | NoFault =>
        match body e (S n) db0 with
        | (inr err, n1, _) => (inr err, n1, db0)
        | (inl x, n1, db1) =>
            match fault e n1 with
            | FailBefore => (inr (ErrDB commit_label), S n1, db0)
            | FailAfter => (inr (ErrDB commit_label), S n1, db1)
            | NoFault => (inl x, S n1, db1)
            end
        end
    | _ => (inr (ErrDB begin_label), S n, db0)
    end.

(** The error as a value, for callers that go on after one. *)
Definition attempt_ {A} (m : M A) : M (A + Err) :=
  λ e n db, let '(r, n', db') := m e n db in (inl r, n', db').

Fixpoint mapM_ {A} (f : A → M unit) (l : list A) : M unit :=
  match l with
  | [] => ret tt
  | x :: t => f x ;; mapM_ f t
  end.

(** ** Rely and guarantee *)

Section Respects.
Context (G : DB → DB → Prop) `{!PreOrder G}.

Definition quiet_env (e : Env) : Prop := ∀ n db, G db (interfere e n db).

Definition respects {A} (m : M A) : Prop :=
  ∀ e n db r n' db', quiet_env e → m e n db = (r, n', db') → G db db'.

Lemma respects_ret {A} (x : A) : respects (ret x).
Proof. intros e n db r n' db' _ [= <- <- <-]. reflexivity. Qed.

Lemma respects_fail {A} err : respects (A := A) (fail err).
Proof. intros e n db r n' db' _ [= <- <- <-]. reflexivity. Qed.

Lemma respects_bind {A B} (m : M A) (k : A → M B) :
  respects m → (∀ x, respects (k x)) → respects (bind m k).
Proof.
  intros Hm Hk e n db r n' db' He. unfold bind.
  destruct (m e n db) as [[[x|err] n1] db1] eqn:E; intros H.
  - etrans; [by eapply Hm|by eapply Hk].
  - simplify_eq. by eapply Hm.
Qed.

Lemma respects_now : respects now.
Proof. intros e n db r n' db' _ [= <- <- <-]. reflexivity. Qed.

Lemma respects_seed : respects randomSeed.
Proof.
  intros e n db r n' db' _. unfold randomSeed.
  destruct (seed_bytes e n); intros [= <- <- <-]; reflexivity.
Qed.

Lemma respects_statement {A} q label (f : Stamp → DB → option (A * DB)) :
  (∀ st db x db', f st db = Some (x, db') → G db db') → respects (statement q label f).
Proof.
  intros Hf e n db r n' db' He. unfold statement.
  set (db0 := match q with Pool => interfere e n db | Tx => db end).
  assert (H0 : G db db0) by (destruct q; [apply He|reflexivity]).
  destruct (fault e n), (f (stamp_at e n) db0) as [[x db1]|] eqn:E;
    intros [= <- <- <-]; try done; (etrans; [exact H0|by eapply Hf]).
Qed.

Lemma respects_select {A} q label (f : DB → A) : respects (select q label f).
Proof. apply respects_statement. intros st db x db' [= <- <-]. reflexivity. Qed.

Lemma respects_transaction {A} bl cl (body : M A) :
  respects body → respects (transaction bl cl body).
Proof.
  intros Hb e n db r n' db' He. unfold transaction.
  assert (H0 : G db (interfere e n db)) by apply He.
  destruct (fault e n); [|intros [= <- <- <-]; done..].
  destruct (body e (S n) (interfere e n db)) as [[[x|err] n1] db1] eqn:E.
  - apply Hb in E; [|done].
    destruct (fault e n1); intros [= <- <- <-]; try done; by etrans.
  - by intros [= <- <- <-].
Qed.

(** Or when what its successful runs do as a whole is in [G]. *)
Lemma respects_transaction_whole {A} bl cl (body : M A) :
  (∀ e n db x n' db', body e n db = (inl x, n', db') → G db db') → respects (transaction bl cl body).
Proof.
  intros Hb e n db r n' db' He. unfold transaction.
  assert (H0 : G db (interfere e n db)) by apply He.
  destruct (fault e n); [|intros [= <- <- <-]; done..].
  destruct (body e (S n) (interfere e n db)) as [[[x|err] n1] db1] eqn:E.
  - apply Hb in E. destruct (fault e n1); intros [= <- <- <-]; try done; by etrans.
  - by intros [= <- <- <-].
Qed.

Lemma respects_attempt {A} (m : M A) : respects m → respects (attempt_ m).
Proof.
  intros Hm e n db r n' db' He. unfold attempt_.
  destruct (m e n db) as [[r' n1] db1] eqn:E. intros [= <- <- <-]. by eapply Hm.
Qed.

Lemma respects_mapM {A} (f : A → M unit) l :
  (∀ x, x ∈ l → respects (f x)) → respects (mapM_ f l).
Proof.
  induction l as [|x l IH]; intros Hf; simpl; [apply respects_ret|].
  apply respects_bind; [apply Hf; constructor|]. intros _. apply IH.
  intros y Hy. apply Hf. by constructor.
Qed.

Lemma respects_if {A} (b : bool) (m1 m2 : M A) :
  respects m1 → respects m2 → respects (if b then m1 else m2).
Proof. by destruct b. Qed.

Lemma respects_option {A B} (o : option B) (f : B → M A) (m : M A) :
  (∀ x, respects (f x)) → respects m →
  respects (match o with Some x => f x | None => m end).
Proof. destruct o; auto. Qed.
End Respects.

Create HintDb respects.
#[export] Hint Resolve respects_ret respects_fail respects_now respects_seed respects_select : respects.

(** [respects_steps] follows the structure of a method down to the statements
    that write. *)
Ltac respects_steps :=
  repeat first
    [ solve [eauto 2 with respects typeclass_instances]
    | apply respects_bind; [| |intros ?]
    | apply respects_transaction
    | apply respects_attempt
    | apply respects_mapM; [|intros ? ?]
    | progress cbn beta
    | match goal with
      | |- respects _ (if ?b then _ else _) => destruct b eqn:?
      | |- respects _ (match ?o with _ => _ end) => destruct o eqn:?
      end ].

(** ** Runs without faults or interference *)

(** A quiet run: no statement fails and no other request interferes. *)
Definition undisturbed (e : Env) : Prop :=
  (∀ n, fault e n = NoFault) ∧ (∀ n db, interfere e n db = db).

Lemma bind_inl {A B} (m : M A) (k : A → M B) e n db x n1 db1 :
  m e n db = (inl x, n1, db1) → bind m k e n db = k x e n1 db1.
Proof. unfold bind. by intros ->. Qed.

Lemma bind_inr {A B} (m : M A) (k : A → M B) e n db err n1 db1 :
  m e n db = (inr err, n1, db1) → bind m k e n db = (inr err, n1, db1).
Proof. unfold bind. by intros ->. Qed.

(** What a successful sequence did. *)
Lemma bind_inv {A B} (m : M A) (k : A → M B) e n db y n' db' :
  bind m k e n db = (inl y, n', db') →
  ∃ x n1 db1, m e n db = (inl x, n1, db1) ∧ k x e n1 db1 = (inl y, n', db').
Proof. unfold bind. destruct (m e n db) as [[[x|err] n1] db1]; [eauto 10|done]. Qed.

Lemma statement_inv {A} q label (f : Stamp → DB → option (A * DB)) e n db x n' db' :
  statement q label f e n db = (inl x, n', db') →
  n' = S n ∧
  f (stamp_at e n) (match q with Pool => interfere e n db | Tx => db end) = Some (x, db').
Proof.
  unfold statement. destruct (fault e n), (f _ _) as [[y db1]|] eqn:E; intros; by simplify_eq.
Qed.

Lemma select_inv {A} q label (f : DB → A) e n db x n' db' :
  select q label f e n db = (inl x, n', db') →
  n' = S n ∧ db' = (match q with Pool => interfere e n db | Tx => db end) ∧ x = f db'.
Proof. intros H. apply statement_inv in H as [-> H]. by simplify_eq. Qed.

Lemma transaction_inv {A} bl cl (body : M A) e n db x n' db' :
  transaction bl cl body e n db = (inl x, n', db') →
  ∃ n1, n' = S n1 ∧ body e (S n) (interfere e n db) = (inl x, n1, db').
Proof.
  unfold transaction. destruct (fault e n); try done.
  destruct (body _ _ _) as [[[y|err] n1] db1]; [|done].
  destruct (fault e n1); intros; simplify_eq. by exists n1.
Qed.

(** [run_bind H x n db Hm] splits the successful run [H] of a sequence: [Hm] is
    its first step with result [x], [H] the rest.  [run_stmt] and [run_read]
    open a statement or a read. *)
Ltac run_bind H x n db Hm :=
  apply bind_inv in H;
  let H0 := fresh in destruct H as (x & n & db & Hm & H0); rename H0 into H.

Ltac run_stmt H :=
  apply statement_inv in H;
  let H0 := fresh in destruct H as (-> & H0); rename H0 into H.

Ltac run_read H := apply select_inv in H; destruct H as (-> & -> & ->).

(** A transaction that reports an error before its commit changed nothing. *)
Lemma transaction_atomic {A} bl cl (body : M A) e n db err n' db' :
  transaction bl cl body e n db = (inr err, n', db') →
  db' = interfere e n db ∨ (err = ErrDB cl ∧ ∃ x n1, body e (S n) (interfere e n db) = (inl x, n1, db')).
Proof.
  unfold transaction. destruct (fault e n); [|intros; simplify_eq; by left..].
  destruct (body _ _ _) as [[[y|err'] n1] db1] eqn:E; [|intros; simplify_eq; by left].
  destruct (fault e n1); intros; simplify_eq; [by left|right; eauto].
Qed.
