(* ===== verification/Concrete.v ===== *)
(** Concrete instances of the interfaces the models are parameterised by, for
    the witnesses: PostgreSQL's NUMERIC conversions (round half away from zero
    to two decimals, as the server documents), a generator of random numbers,
    and environments in which nothing fails. *)

From S2P Require Import Prelude GoStrings Float64 Strconv Store.

#[local] Open Scope Z_scope.

#[export] Instance fin_dec x : Decision (fin x).
Proof. destruct x; simpl; apply _. Defined.

(** [n / d] to the nearest integer, halves up; [0 <= n]. *)
Definition half_up (n d : Z) : Z := (2 * n + d) / (2 * d).

Definition hundredths (x : float64) : Z :=
  let s := sval x in
  if s <? 0 then - half_up (- s * 100) (2 ^ 1074) else half_up (s * 100) (2 ^ 1074).

Definition numeric_of (lim : Z) (x : float64) : option Z :=
  if decide (fin x) then
    let z := hundredths x in
    if decide (- lim < z < lim) then Some z else None
  else None.

Definition float_of (z : Z) : float64 := round_ratio (z <? 0) (Z.abs z) 100.

#[export] Instance postgres_model : Postgres := {
  num_param := numeric_of;
  greatest_param := numeric_of (10 ^ 8);
  int_param := λ z, if decide (- 2 ^ 31 ≤ z < 2 ^ 31) then Some z else None;
  uuid_param := Some;
  sql_lower := to_lower;
  num_value := float_of;
}.

Lemma half_up_mono n m d : 0 < d → n ≤ m → half_up n d ≤ half_up m d.
Proof. intros Hd Hle. unfold half_up. apply Z.div_le_mono; lia. Qed.

Lemma half_up_nonneg n d : 0 < d → 0 ≤ n → 0 ≤ half_up n d.
Proof. intros Hd Hn. unfold half_up. apply Z.div_pos; lia. Qed.

(** The scale of binary64, kept from unfolding. *)
Lemma scale_pos : 0 < 2 ^ 1074.
Proof. apply Z.pow_pos_nonneg; lia. Qed.

Lemma hundredths_mono x y : sval x ≤ sval y → hundredths x ≤ hundredths y.
Proof.
  pose proof scale_pos as Hp. unfold hundredths. cbn zeta.
  generalize dependent (2 ^ 1074). intros D Hp Hle.
  destruct (Z.ltb_spec (sval x) 0), (Z.ltb_spec (sval y) 0).
  - assert (half_up (- sval y * 100) D ≤ half_up (- sval x * 100) D)
      by (apply half_up_mono; lia). lia.
  - pose proof (half_up_nonneg (- sval x * 100) D Hp ltac:(lia)).
    pose proof (half_up_nonneg (sval y * 100) D Hp ltac:(lia)). lia.
  - lia.
  - apply half_up_mono; lia.
Qed.

Lemma half_up_near n d a : 0 < d → 2 * d * a - d ≤ 2 * n < 2 * d * a + d → half_up n d = a.
Proof. intros Hd Hn. unfold half_up. symmetry. apply Z.div_unique with (r := 2 * n + d - 2 * d * a); lia. Qed.

Lemma float_of_hundredths z : Z.abs z < 10 ^ 8 → fin (float_of z) ∧ hundredths (float_of z) = z.
Proof.
  intros Hz. unfold float_of. set (a := Z.abs z).
  assert (Ha : 0 ≤ a < 10 ^ 8) by lia.
  set (q := a * 2 ^ 30 / 100).
  assert (Hq : 100 * q ≤ a * 2 ^ 30 < 100 * (q + 1)).
  { pose proof (Z.mul_div_le (a * 2 ^ 30) 100 ltac:(lia)).
    pose proof (Z.mul_succ_div_gt (a * 2 ^ 30) 100 ltac:(lia)). unfold q. lia. }
  assert (Hq53 : 0 ≤ q ∧ q + 1 < 2 ^ 53).
  { split; [apply Z.div_pos; lia|]. assert (a * 2 ^ 30 < 10 ^ 8 * 2 ^ 30) by lia. lia. }
  assert (Hex : ∀ m, 0 ≤ m ≤ 2 ^ 53 → rscale m (2 ^ 30) = m * 2 ^ 1044).
  { intros m Hm. destruct (Z.eq_dec m 0) as [->|Hm0]; [by rewrite rscale_zero|].
    apply rscale_exact; lia. }
  assert (Hlo : q * 2 ^ 1044 ≤ rscale a 100).
  { rewrite <- Hex by lia. apply rscale_le; lia. }
  assert (Hhi : rscale a 100 ≤ (q + 1) * 2 ^ 1044).
  { rewrite <- Hex by lia. apply rscale_le; lia. }
  pose proof scale_pos as Hp.
  assert (HD : 2 ^ 1074 = 2 ^ 30 * 2 ^ 1044) by (rewrite <- Z.pow_add_r; [done|lia|lia]).
  assert (Hpos : 0 < 2 ^ 1044) by (apply Z.pow_pos_nonneg; lia).
  destruct (round_ratio_spec (z <? 0) a 100) as [Hf Hs]; [lia|lia| |].
  { apply Z.le_lt_trans with ((q + 1) * 2 ^ 1044); [done|]. unfold fmax_scale.
    replace 2098 with (1054 + 1044) by lia. rewrite (Z.pow_add_r 2 1054) by lia.
    apply Z.mul_lt_mono_pos_r; [done|]. apply Z.lt_trans with (2 ^ 53); [lia|].
    apply Z.pow_lt_mono_r; lia. }
  split; [done|]. unfold hundredths. rewrite Hs. clear Hs Hf Hex.
  assert (Hr : half_up (rscale a 100 * 100) (2 ^ 1074) = a).
  { apply half_up_near; [done|]. rewrite HD. revert Hlo Hhi Hpos. generalize (rscale a 100), (2 ^ 1044).
    intros r P Hlo Hhi HP. nia. }
  assert (Hr0 : 0 ≤ rscale a 100) by (apply rscale_ge_0; lia).
  cbn zeta. unfold sgn. destruct (Z.ltb_spec z 0) as [Hneg|Hpos'].
  - destruct (Z.ltb_spec (- rscale a 100) 0) as [_|H0].
    + rewrite Z.opp_involutive, Hr. lia.
    + replace (- rscale a 100) with (rscale a 100) by lia. rewrite Hr.
      assert (rscale a 100 = 0) as E by lia. rewrite E in Hr. simpl in Hr.
      unfold half_up in Hr. rewrite Z.div_small in Hr by lia. lia.
  - destruct (Z.ltb_spec (rscale a 100) 0); [lia|]. rewrite Hr. lia.
Qed.

#[export] Instance postgres_model_laws : PostgresLaws postgres_model.
Proof.
  split; simpl; unfold numeric_of.
  - intros lim x z. by repeat case_decide; intros; simplify_eq.
  - intros lim x z Hz Hx. revert Hz. repeat case_decide; intros; simplify_eq.
    rewrite fleb_spec in Hx by done. apply Z.leb_le in Hx. change (sval (S754_zero false)) with 0 in Hx.
    unfold hundredths. cbn zeta. destruct (Z.ltb_spec (sval x) 0); [lia|].
    apply half_up_nonneg; [apply scale_pos|lia].
  - intros lim x y z w Hz Hw Hx. revert Hz Hw. repeat case_decide; intros; simplify_eq.
    apply hundredths_mono. rewrite fleb_spec in Hx by done. by apply Z.leb_le.
  - intros lim z Hz Hlim. destruct (float_of_hundredths z) as [Hf Hh]; [lia|].
    rewrite decide_True by done. rewrite Hh. by rewrite decide_True.
Qed.

#[export] Instance rand_model : GoRand.
Proof.
  refine {| int31n := λ seed n bound, ((Z.to_nat seed + n) mod bound)%nat |}.
  intros seed n bound Hb. apply Nat.mod_upper_bound. lia.
Defined.

(** Keys the fresh ids of the model have. *)
Definition numbered_id (n : nat) : string := "id-" +:+ format_int (Z.of_nat n).

(** Nothing fails, nobody interferes, each step takes a second. *)
Definition calm (start : Z) : Env := {|
  fault := λ _, NoFault;
  clock := λ n, start + Z.of_nat n * 10 ^ 9;
  fresh := numbered_id;
  seed_bytes := λ _, Some 7;
  arrange := λ _ l, l;
  arrange_perm := λ _ l, Permutation_refl l;
  interfere := λ _ db, db;
|}.

Lemma calm_undisturbed start : undisturbed (calm start).
Proof. by split. Qed.

(** ** A small database: a published hiring test with one choice, one coding
    and one descriptive question; [u] sits attempt [A], [w] has finished
    attempt [B], [v] is invited. *)

Definition demo_proctoring : Proctoring :=
  {| RequireFullscreen := true; TabSwitchLimit := 1; BlockCopyPaste := true; Webcam := false |}.

Definition demo_test (status : string) : AssessmentRow :=
  {| as_company_id := Some "c"; as_title := "Backend"; as_description := ""; as_purpose := "hiring";
     as_duration_minutes := 60; as_total_marks := 0; as_passing_marks := 5; as_negative_marking := 25;
     as_shuffle_questions := false; as_shuffle_options := true; as_allow_backtrack := false;
     as_lock_forward := true; as_reveal_results := true; as_proctoring := demo_proctoring;
     as_status := status; as_opens_at := None; as_closes_at := None; as_max_attempts := 1;
     as_course_ids := []; as_created_by := "r"; as_created_at := 0 |}.

Definition demo_section (kind : QKind) (order : Z) : SectionRow :=
  {| se_assessment_id := "T"; se_title := "Part"; se_kind := kind; se_order_index := order;
     se_duration_minutes := None; se_cutoff_marks := 0; se_pick_count := None; se_pick_topic := "";
     se_pick_difficulty := ""; se_pick_course := ""; se_pick_marks := 0; se_partial_credit := false |}.

Definition demo_listed (section : string) (mcq problem : option string) (marks order : Z) : SectionQuestionRow :=
  {| sq_section_id := section; sq_mcq_question_id := mcq; sq_problem_id := problem;
     sq_marks := marks; sq_order_index := order |}.

Definition demo_mcq : McqQuestionRow :=
  {| mq_company_id := None; mq_course_id := "go"; mq_topic := "types"; mq_difficulty := "Easy";
     mq_body := "Which?"; mq_kind := "single"; mq_is_active := true;
     mq_explanation := ""; mq_created_by := None; mq_created_at := 0 |}.

Definition demo_option (body : string) (correct : bool) (order : Z) : McqOptionRow :=
  {| mo_question_id := "m1"; mo_body := body; mo_is_correct := correct; mo_order_index := order |}.

Definition demo_invite (email : string) : InviteRow :=
  {| in_assessment_id := "T"; in_email := email; in_user_id := None; in_token := "tok";
     in_status := "invited"; in_expires_at := None; in_sent_at := None |}.

(** 2025-01-01T00:00:00Z, in nanoseconds. *)
Definition demo_start : Z := 1735689600 * 10 ^ 9.

Definition demo_attempt (user : string) (status : AttemptStatus) (score : Z) : AttemptRow :=
  {| at_assessment_id := "T"; at_user_id := user; at_invite_id := None; at_attempt_no := 1;
     at_status := status; at_seed := 7; at_started_at := demo_start;
     at_expires_at := demo_start + 3600 * 10 ^ 9;
     at_submitted_at := if decide (status = InProgress) then None else Some (demo_start + 10 ^ 9);
     at_evaluated_at := None; at_score := score; at_max_score := 1500;
     at_section_scores := ∅; at_integrity_score := 10000 |}.

Definition demo_question (section : string) (kind : QKind) (mcq problem : option string) (order marks : Z)
  (selected : list string) (g : GradingStatus) : QuestionRow :=
  {| aq_attempt_id := "A"; aq_section_id := section; aq_kind := kind; aq_mcq_question_id := mcq;
     aq_problem_id := problem; aq_order_index := order; aq_marks := marks;
     aq_option_order := []; aq_selected_options := selected; aq_text_answer := None;
     aq_submission_id := None; aq_language := ""; aq_code := ""; aq_awarded_marks := None;
     aq_grading_status := g; aq_time_spent_ms := 0; aq_visited := true; aq_marked_review := false |}.

Definition demo_submission : SubmissionRow :=
  {| sb_attempt_question_id := "A2"; sb_language := "go"; sb_code := "package main";
     sb_passed_count := None; sb_total_count := None; sb_status := "" |}.

Definition demo_user (name email : string) : UserRow := {| us_name := name; us_email := email |}.

Definition demo : DB :=
  {| assessments := {[ "T" := demo_test "published"; "N" := demo_test "draft" ]};
     assessment_sections := {[ "S1" := demo_section Mcq 0; "S2" := demo_section Coding 1 ]};
     section_questions := {[ "L1" := demo_listed "S1" (Some "m1") None 400 0;
                             "L2" := demo_listed "S2" None (Some "p1") 600 0 ]};
     mcq_questions := {[ "m1" := demo_mcq ]};
     mcq_options := {[ "o1" := demo_option "yes" true 0; "o2" := demo_option "no" false 1 ]};
     assessment_invites := {[ "I" := demo_invite "v@x.org" ]};
     attempts := {[ "A" := demo_attempt "u" InProgress 0; "B" := demo_attempt "w" Evaluated 900 ]};
     attempt_questions := {[ "A1" := demo_question "S1" Mcq (Some "m1") None 0 400 ["o1"] Ungraded;
                             "A2" := demo_question "S2" Coding None (Some "p1") 1 600 [] Pending;
                             "A3" := demo_question "S3" Descriptive None None 2 500 [] ManualReview ]};
     attempt_submissions := {[ "s1" := demo_submission ]};
     proctor_events := []; shortlists := ∅; shortlist_entries := ∅;
     users := {[ "u" := demo_user "U" "u@x.org"; "v" := demo_user "V" "v@x.org";
                 "w" := demo_user "W" "w@x.org" ]};
     user_courses := ∅; problem_titles := {[ "p1" := "Sum" ]};
     companies := {[ "c" := {| co_name := "Acme"; co_slug := "acme"; co_logo_url := ""; co_website := ""; co_created_at := 0 |} ]};
     company_members := {[ ("c", "r") := "owner" ]} |}.

Definition demo_env : Env := calm (demo_start + 60 * 10 ^ 9).

(** A run that succeeds with a result and a state that pass the test [P]. *)
Definition checked {A} (P : A → DB → bool) (r : (A + Err) * nat * DB) : bool :=
  match r.1.1 with inl x => P x r.2 | inr _ => false end.

Lemma checked_run {A} (P : A → DB → bool) r :
  checked P r = true → ∃ x n' db', r = (inl x, n', db') ∧ P x db' = true.
Proof. destruct r as [[[x|err] n'] db']; [|done]. intros H. by exists x, n', db'. Qed.

(** [run_demo E HP P t] runs [t], which succeeds and passes [P]; [E] is its
    equation. *)
Tactic Notation "run_demo" ident(E) ident(HP) uconstr(P) constr(t) :=
  let x := fresh "x" in let n := fresh "n'" in let db := fresh "db'" in
  destruct (checked_run P t) as (x & n & db & E & HP);
  [vm_compute; reflexivity|exists x, n, db; split; [exact E|]].
