(* ===== verification/Scoring.v ===== *)
(** Closing and scoring attempts
    (services/assessment-service/internal/repository/scoring.go, and
    [loadAttempt] of attempts.go).

    [FinalizeAttempt] runs [gradeObjective], the two updates and [recompute]
    in one transaction; [ApplyGradedSubmission] and [GradeDescriptive] run
    [recompute] on the pool, statement by statement. *)

From S2P Require Import Prelude GoStrings Float64 Strconv GoTime Grading Store.

#[local] Open Scope Z_scope.
#[local] Open Scope repo_scope.

Section Scoring.
Context {PG : Postgres}.

(** ** The attempt with its settings *)

Record attemptCtx := {
  cx_ID : string;
  cx_AssessmentID : string;
  cx_UserID : string;
  cx_Status : AttemptStatus;
  cx_Seed : Z;
  cx_StartedAt : Z;
  cx_ExpiresAt : Z;
  cx_MaxScore : float64;
  cx_Score : float64;
  cx_IntegrityScore : float64;
  cx_Title : string;
  cx_AllowBacktrack : bool;
  cx_LockForward : bool;
  cx_RevealResults : bool;
  cx_NegativeMarking : float64;
  cx_PassingMarks : float64;
  cx_Purpose : string;
  cx_Proctoring : Proctoring;
}.

Definition attempt_ctx (id : string) (at_ : AttemptRow) (a : AssessmentRow) : attemptCtx :=
  {| cx_ID := id; cx_AssessmentID := at_assessment_id at_; cx_UserID := at_user_id at_;
     cx_Status := at_status at_; cx_Seed := at_seed at_; cx_StartedAt := at_started_at at_;
     cx_ExpiresAt := at_expires_at at_; cx_MaxScore := num_value (at_max_score at_);
     cx_Score := num_value (at_score at_); cx_IntegrityScore := num_value (at_integrity_score at_);
     cx_Title := as_title a; cx_AllowBacktrack := as_allow_backtrack a;
     cx_LockForward := as_lock_forward a; cx_RevealResults := as_reveal_results a;
     cx_NegativeMarking := num_value (as_negative_marking a);
     cx_PassingMarks := of_Z (as_passing_marks a); cx_Purpose := as_purpose a;
     cx_Proctoring := as_proctoring a |}.

Definition find_ctx (attemptID : string) (db : DB) : option attemptCtx :=
  match attempts db !! attemptID with
  | Some at_ =>
      match assessments db !! at_assessment_id at_ with
      | Some a => Some (attempt_ctx attemptID at_ a)
      | None => None
      end
  | None => None
  end.

(** [loadAttempt]; the row lock is what makes the transaction one step. *)
Definition loadAttempt (q : Querier) (attemptID : string) : M attemptCtx :=
  r <- select q "load attempt" (find_ctx attemptID) ;;
  match r with Some a => ret a | None => fail ErrNotFound end.

(** ** Objective questions *)

Definition is_kind (k : QKind) (q : QuestionRow) : bool := bool_decide (aq_kind q = k).

Definition in_attempt (attemptID : string) (_ : string) (q : QuestionRow) : bool :=
  String.eqb (aq_attempt_id q) attemptID.

Definition attempt_rows (attemptID : string) (db : DB) : list (string * QuestionRow) :=
  rows_where (in_attempt attemptID) (attempt_questions db).

(** The options of a question, in the order the aggregate lists them. *)
Definition options_of (order : list string → list string) (mcq : option string) (db : DB)
  : list (string * McqOptionRow) :=
  match mcq with
  | Some m =>
      omap (λ id, match mcq_options db !! id with Some o => Some (id, o) | None => None end)
        (order (map fst (rows_where (λ _ o, String.eqb (mo_question_id o) m) (mcq_options db))))
  | None => []
  end.

Definition mcq_input (order : list string → list string) (db : DB) (negativeMarking : float64)
  (s : SectionRow) (q : QuestionRow) : McqInput :=
  let correct := filter (λ o, mo_is_correct o.2 = true) (options_of order (aq_mcq_question_id q) db) in
  {| Kind := match aq_mcq_question_id q with
             | Some m => match mcq_questions db !! m with Some r => mq_kind r | None => "single" end
             | None => "single"
             end;
     Marks := num_value (aq_marks q);
     CorrectIDs := map fst correct;
     SelectedIDs := aq_selected_options q;
     TextAnswer := default "" (aq_text_answer q);
     AcceptedAnswers := map (λ o, mo_body o.2) correct;
     PartialCredit := se_partial_credit s;
     NegativeMarking := negativeMarking |}.

(** The rows of the grading query, each with the mark computed from it.  A
    question whose section is gone does not join. *)
Definition mcq_marks (order : list string → list string) (attemptID : string)
  (negativeMarking : float64) (db : DB) : list (string * float64) :=
  omap (λ row : string * QuestionRow,
          if is_kind Mcq row.2 then
            match assessment_sections db !! aq_section_id row.2 with
            | Some s => Some (row.1, ScoreMcq (mcq_input order db negativeMarking s row.2))
            | None => None
            end
          else None)
    (attempt_rows attemptID db).

(** NUMERIC(6,2), NUMERIC(8,2) and NUMERIC(5,2), in hundredths. *)
Definition marks_limit : Z := 10 ^ 6.
Definition score_limit : Z := 10 ^ 8.
Definition integrity_limit : Z := 10 ^ 5.

Definition set_mark (z : Z) (q : QuestionRow) : QuestionRow :=
  {| aq_attempt_id := aq_attempt_id q; aq_section_id := aq_section_id q; aq_kind := aq_kind q;
     aq_mcq_question_id := aq_mcq_question_id q; aq_problem_id := aq_problem_id q;
     aq_order_index := aq_order_index q; aq_marks := aq_marks q;
     aq_option_order := aq_option_order q; aq_selected_options := aq_selected_options q;
     aq_text_answer := aq_text_answer q; aq_submission_id := aq_submission_id q;
     aq_language := aq_language q; aq_code := aq_code q; aq_awarded_marks := Some z;
     aq_grading_status := Graded; aq_time_spent_ms := aq_time_spent_ms q;
     aq_visited := aq_visited q; aq_marked_review := aq_marked_review q |}.

Definition save_mark (id : string) (marks : float64) (db : DB) : option (unit * DB) :=
  match num_param marks_limit marks with
  | Some z => Some (tt, with_questions (update_row id (set_mark z)) db)
  | None => None
  end.

(** [gradeObjective] *)
Definition gradeObjective (q : Querier) (attemptID : string) (negativeMarking : float64) : M unit :=
  results <- statement q "load mcq answers"
               (λ st db, Some (mcq_marks (st_order st) attemptID negativeMarking db, db)) ;;
  mapM_ (λ s, statement q "save mcq mark" (λ _, save_mark s.1 s.2)) results.

(** ** Totals *)

Definition awarded (q : QuestionRow) : Z := default 0 (aq_awarded_marks q).

Definition sum_awarded (rows : list (string * QuestionRow)) : Z :=
  foldr (λ row z, awarded row.2 + z) 0 rows.

Definition count_status (g : GradingStatus) (rows : list (string * QuestionRow)) : Z :=
  Z.of_nat (length (filter (λ row : string * QuestionRow, aq_grading_status row.2 = g) rows)).

Definition section_sums (rows : list (string * QuestionRow)) : gmap string Z :=
  foldr (λ row m, <[aq_section_id row.2 := default 0 (m !! aq_section_id row.2) + awarded row.2]> m)
    ∅ rows.

Definition settled (s : AttemptStatus) : bool :=
  match s with Submitted | Evaluating | Evaluated => true | _ => false end.

Definition set_score (now score : Z) (sections : gmap string float64) (pending : bool)
  (a : AttemptRow) : AttemptRow :=
  {| at_assessment_id := at_assessment_id a; at_user_id := at_user_id a;
     at_invite_id := at_invite_id a; at_attempt_no := at_attempt_no a;
     at_status := if settled (at_status a)
                  then (if pending then Evaluating else Evaluated) else at_status a;
     at_seed := at_seed a; at_started_at := at_started_at a; at_expires_at := at_expires_at a;
     at_submitted_at := at_submitted_at a;
     at_evaluated_at := if settled (at_status a) && negb pending
                        then Some now else at_evaluated_at a;
     at_score := score; at_max_score := at_max_score a; at_section_scores := sections;
     at_integrity_score := at_integrity_score a |}.

Definition save_score (attemptID : string) (total : float64) (sections : gmap string float64)
  (pending : bool) (now : Z) (db : DB) : option (unit * DB) :=
  match greatest_param total with
  | Some z =>
      let score := Z.max z 0 in
      if score <? score_limit
      then Some (tt, with_attempts (update_row attemptID
                       (set_score now score sections pending)) db)
      else None
  | None => None
  end.

(** [recompute] *)
Definition recompute (q : Querier) (attemptID : string) : M unit :=
  agg <- select q "aggregate attempt marks"
    (λ db, let rows := attempt_rows attemptID db in
           (num_value (sum_awarded rows), count_status Pending rows, count_status ManualReview rows)) ;;
  sections <- select q "aggregate section marks"
    (λ db, num_value <$> section_sums (attempt_rows attemptID db)) ;;
  let '(total, pending, manual) := agg in
  statement q "update attempt score"
    (λ st, save_score attemptID total sections (0 <? pending) (st_now st)).

(** ** Summaries *)

Record AttemptSummary := {
  sm_Id : string;
  sm_AssessmentId : string;
  sm_AssessmentName : string;
  sm_UserId : string;
  sm_UserName : string;
  sm_UserEmail : string;
  sm_AttemptNo : Z;
  sm_Status : AttemptStatus;
  sm_StartedAt : string;
  sm_SubmittedAt : string;
  sm_EvaluatedAt : string;
  sm_Score : float64;
  sm_MaxScore : float64;
  sm_Percent : float64;
  sm_IntegrityScore : float64;
  sm_Passed : bool;
  sm_SectionScores : gmap string float64;
  sm_SectionMax : gmap string float64;
  sm_Decision : string;
  sm_Purpose : string;
}.

Definition section_max (rows : list (string * QuestionRow)) : gmap string Z :=
  foldr (λ row m, <[aq_section_id row.2 := default 0 (m !! aq_section_id row.2) + aq_marks row.2]> m)
    ∅ rows.

(** The decision of the best-ranked shortlist entry of an attempt. *)
Definition best_decision (id : string) (db : DB) : string :=
  match order_by (λ a b : (string * string) * EntryRow, le_rank a.2 <=? le_rank b.2)
          (filter (λ kv : (string * string) * EntryRow, kv.1.2 = id) (map_to_list (shortlist_entries db))) with
  | (_, e) :: _ => le_decision e
  | [] => ""
  end.

(** One row of [attemptSummaries]. *)
Definition summary_of (db : DB) (id : string) (at_ : AttemptRow) (a : AssessmentRow)
  : AttemptSummary :=
  let score := num_value (at_score at_) in
  let max := num_value (at_max_score at_) in
  let passing := of_Z (as_passing_marks a) in
  let u := users db !! at_user_id at_ in
  {| sm_Id := id; sm_AssessmentId := at_assessment_id at_; sm_AssessmentName := as_title a;
     sm_UserId := at_user_id at_;
     sm_UserName := match u with Some u => us_name u | None => "" end;
     sm_UserEmail := match u with Some u => us_email u | None => "" end;
     sm_AttemptNo := at_attempt_no at_; sm_Status := at_status at_;
     sm_StartedAt := fmtTime (Some (at_started_at at_)); sm_SubmittedAt := fmtTime (at_submitted_at at_);
     sm_EvaluatedAt := fmtTime (at_evaluated_at at_); sm_Score := score; sm_MaxScore := max;
     sm_Percent := if fltb float_zero max then round2 (fmul (fdiv score max) (of_Z 100))
                   else float_zero;
     sm_IntegrityScore := num_value (at_integrity_score at_);
     sm_Passed := fltb float_zero passing && fleb passing score;
     sm_SectionScores := at_section_scores at_;
     sm_SectionMax := num_value <$> section_max (attempt_rows id db);
     sm_Decision := best_decision id db;
     sm_Purpose := as_purpose a |}.

Definition find_summary (attemptID : string) (db : DB) : option AttemptSummary :=
  match attempts db !! attemptID with
  | Some at_ =>
      match assessments db !! at_assessment_id at_ with
      | Some a => Some (summary_of db attemptID at_ a)
      | None => None
      end
  | None => None
  end.

(** [AttemptSummary] *)
Definition loadSummary (attemptID : string) : M AttemptSummary :=
  r <- select Pool "list attempt summaries" (find_summary attemptID) ;;
  match r with Some s => ret s | None => fail ErrNotFound end.

(** ** Closing an attempt *)

Definition set_closed (now : Z) (status : AttemptStatus) (a : AttemptRow) : AttemptRow :=
  {| at_assessment_id := at_assessment_id a; at_user_id := at_user_id a;
     at_invite_id := at_invite_id a; at_attempt_no := at_attempt_no a; at_status := status;
     at_seed := at_seed a; at_started_at := at_started_at a; at_expires_at := at_expires_at a;
     at_submitted_at := Some now; at_evaluated_at := at_evaluated_at a;
     at_score := at_score a; at_max_score := at_max_score a;
     at_section_scores := at_section_scores a; at_integrity_score := at_integrity_score a |}.

Definition set_invite_status (status : string) (i : InviteRow) : InviteRow :=
  {| in_assessment_id := in_assessment_id i; in_email := in_email i; in_user_id := in_user_id i;
     in_token := in_token i; in_status := status; in_expires_at := in_expires_at i;
     in_sent_at := in_sent_at i |}.

Definition close_attempt (attemptID : string) (status : AttemptStatus) (now : Z) (db : DB) : DB :=
  with_attempts (update_row attemptID (set_closed now status)) db.

Definition submit_invite (attemptID : string) (db : DB) : DB :=
  match attempts db !! attemptID with
  | Some a =>
      match at_invite_id a with
      | Some i => with_invites (update_row i (set_invite_status "submitted")) db
      | None => db
      end
  | None => db
  end.

(** The status a closing attempt takes before [recompute] settles it. *)
Definition closing_status (reason : string) : AttemptStatus :=
  if String.eqb reason "proctor" then Disqualified else Submitted.

(** The body of the transaction; on an attempt that is no longer live it
    does nothing. *)
Definition finalize_body (attemptID reason : string) : M unit :=
  a <- loadAttempt Tx attemptID ;;
  if negb (bool_decide (cx_Status a = InProgress)) then ret tt
  else
    gradeObjective Tx attemptID (cx_NegativeMarking a) ;;
    statement Tx "close attempt"
      (λ st db, Some (tt, close_attempt attemptID (closing_status reason) (st_now st) db)) ;;
    statement Tx "mark invite submitted" (λ _ db, Some (tt, submit_invite attemptID db)) ;;
    recompute Tx attemptID.

(** [FinalizeAttempt] *)
Definition FinalizeAttempt (attemptID reason : string) : M AttemptSummary :=
  transaction "begin finalize" "commit finalize" (finalize_body attemptID reason) ;;
  loadSummary attemptID.

(** ** Verdicts of the judge *)

Definition set_verdict (status : string) (passed total : Z) (s : SubmissionRow) : SubmissionRow :=
  {| sb_attempt_question_id := sb_attempt_question_id s; sb_language := sb_language s;
     sb_code := sb_code s; sb_passed_count := Some passed; sb_total_count := Some total;
     sb_status := status |}.

Record best_submission := { bs_score : float64; bs_sub : string; bs_lang : string; bs_src : string }.

(** The graded submissions of a question, in the order the query lists
    them. *)
Definition graded_submissions (order : list string → list string) (questionID : string) (db : DB)
  : list (string * SubmissionRow) :=
  omap (λ id, match attempt_submissions db !! id with Some s => Some (id, s) | None => None end)
    (order (map fst (rows_where
      (λ _ s, String.eqb (sb_attempt_question_id s) questionID
              && bool_decide (is_Some (sb_passed_count s)))
      (attempt_submissions db)))).

(** The loop that keeps the best: the first of the highest scores. *)
Fixpoint best_of (marks : float64) (best : option best_submission)
  (rows : list (string * SubmissionRow)) : option best_submission :=
  match rows with
  | [] => best
  | (id, s) :: t =>
      let score := ScoreCoding (default 0 (sb_passed_count s)) (default 0 (sb_total_count s)) marks in
      let this := {| bs_score := score; bs_sub := id; bs_lang := sb_language s; bs_src := sb_code s |} in
      best_of marks
        (match best with
         | Some b => if fltb (bs_score b) score then Some this else best
         | None => Some this
         end) t
  end.

Definition set_coding_mark (z : Z) (b : best_submission) (q : QuestionRow) : QuestionRow :=
  {| aq_attempt_id := aq_attempt_id q; aq_section_id := aq_section_id q; aq_kind := aq_kind q;
     aq_mcq_question_id := aq_mcq_question_id q; aq_problem_id := aq_problem_id q;
     aq_order_index := aq_order_index q; aq_marks := aq_marks q;
     aq_option_order := aq_option_order q; aq_selected_options := aq_selected_options q;
     aq_text_answer := aq_text_answer q; aq_submission_id := Some (bs_sub b);
     aq_language := bs_lang b; aq_code := bs_src b; aq_awarded_marks := Some z;
     aq_grading_status := Graded; aq_time_spent_ms := aq_time_spent_ms q;
     aq_visited := aq_visited q; aq_marked_review := aq_marked_review q |}.

Definition save_coding_mark (questionID : string) (b : best_submission) (db : DB)
  : option (unit * DB) :=
  match num_param marks_limit (bs_score b) with
  | Some z => Some (tt, with_questions (update_row questionID (set_coding_mark z b)) db)
  | None => None
  end.

(** [ApplyGradedSubmission] *)
Definition ApplyGradedSubmission (submissionID status : string) (passed total : Z) : M unit :=
  link <- statement Pool "update attempt submission"
    (λ _ db, match uuid_param submissionID with
             | Some id => Some (sb_attempt_question_id <$> attempt_submissions db !! id,
                                with_submissions (update_row id (set_verdict status passed total)) db)
             | None => None
             end) ;;
  match link with
  | None => fail ErrSubmissionNotLinked
  | Some questionID =>
      q <- select Pool "load attempt question for grading" (λ db, attempt_questions db !! questionID) ;;
      match q with
      | None => fail (ErrDB "load attempt question for grading")
      | Some q =>
          best <- statement Pool "load attempt submissions"
            (λ st db, Some (best_of (num_value (aq_marks q)) None
                              (graded_submissions (st_order st) questionID db), db)) ;;
          match best with
          | None => ret tt
          | Some b =>
              statement Pool "save coding mark" (λ _, save_coding_mark questionID b) ;;
              recompute Pool (aq_attempt_id q)
          end
      end
  end.

(** [GradeDescriptive] *)
Definition GradeDescriptive (attemptID questionID : string) (marks : float64)
  : M (float64 * float64) :=
  q <- select Pool "lookup descriptive question"
    (λ db, match attempt_questions db !! questionID with
           | Some q => if in_attempt attemptID questionID q && is_kind Descriptive q
                       then Some (num_value (aq_marks q)) else None
           | None => None
           end) ;;
  match q with
  | None => fail ErrNotFound
  | Some maxMarks =>
      if fltb marks float_zero || fltb maxMarks marks
      then fail (ErrMsg ("marks must be between 0 and " +:+ format_g maxMarks))
      else
        statement Pool "save descriptive mark" (λ _, save_mark questionID marks) ;;
        recompute Pool attemptID ;;
        s <- loadSummary attemptID ;;
        ret (sm_Score s, sm_MaxScore s)
  end.

(** The attempts past their deadline, at most 200 of them. *)
Definition due_attempts (order : list string → list string) (now : Z) (db : DB) : list string :=
  firstn 200 (order (map fst (rows_where
    (λ _ a, bool_decide (at_status a = InProgress) && (at_expires_at a <? now)) (attempts db)))).

(** The loop of [ExpireDueAttempts]. *)
Fixpoint expire_loop (ids : list string) (closed : Z) : M Z :=
  match ids with
  | [] => ret closed
  | id :: t =>
      r <- attempt_ (FinalizeAttempt id "timeout") ;;
      match r with
      | inl _ => expire_loop t (closed + 1)
      | inr _ => expire_loop t closed
      end
  end.

(** [ExpireDueAttempts] *)
Definition ExpireDueAttempts : M Z :=
  ids <- statement Pool "find expired attempts"
    (λ st db, Some (due_attempts (st_order st) (st_now st) db, db)) ;;
  expire_loop ids 0.

(** [PendingGradingCount] *)
Definition PendingGradingCount (attemptID : string) : M Z :=
  select Pool "count pending grading" (λ db, count_status Pending (attempt_rows attemptID db)).

(** ** Withheld results *)

(** [resultsWithheld] *)
Definition resultsWithheld (purpose : string) : bool :=
  let p := to_lower (trim_space purpose) in
  String.eqb p "scholarship" || String.eqb p "hiring".

(** [redactWithheld] *)
Definition redactWithheld (s : AttemptSummary) : AttemptSummary :=
  if negb (resultsWithheld (sm_Purpose s)) then s
  else
    {| sm_Id := sm_Id s; sm_AssessmentId := sm_AssessmentId s;
       sm_AssessmentName := sm_AssessmentName s; sm_UserId := sm_UserId s;
       sm_UserName := sm_UserName s; sm_UserEmail := sm_UserEmail s;
       sm_AttemptNo := sm_AttemptNo s; sm_Status := sm_Status s; sm_StartedAt := sm_StartedAt s;
       sm_SubmittedAt := sm_SubmittedAt s; sm_EvaluatedAt := sm_EvaluatedAt s;
       sm_Score := float_zero; sm_MaxScore := float_zero; sm_Percent := float_zero;
       sm_IntegrityScore := sm_IntegrityScore s; sm_Passed := false; sm_SectionScores := ∅;
       sm_SectionMax := ∅; sm_Decision := ""; sm_Purpose := sm_Purpose s |}.

(** [attemptSummaries] over the attempts that satisfy [p], in the order [le],
    all of them. *)
Definition summaries_where (p : string → AttemptRow → bool) (le : AttemptRow → AttemptRow → bool)
  (db : DB) : list AttemptSummary :=
  omap (λ row : string * AttemptRow,
          match assessments db !! at_assessment_id row.2 with
          | Some a => Some (summary_of db row.1 row.2 a)
          | None => None
          end)
    (order_by (λ x y : string * AttemptRow, le x.2 y.2) (rows_where p (attempts db))).

Definition summaries_of_user (userID : string) : DB → list AttemptSummary :=
  summaries_where (λ _ a, String.eqb (at_user_id a) userID)
    (λ a b, at_started_at b <=? at_started_at a).

(** [ListMyAttempts] *)
Definition ListMyAttempts (userID : string) : M (list AttemptSummary) :=
  out <- select Pool "list attempt summaries" (summaries_of_user userID) ;;
  ret (map redactWithheld out).

(** ** What the transaction does *)

(** The marks written one after another; [None] when one is out of range. *)
Fixpoint apply_marks (ms : list (string * float64)) (db : DB) : option DB :=
  match ms with
  | [] => Some db
  | (id, m) :: t =>
      match save_mark id m db with Some (_, db') => apply_marks t db' | None => None end
  end.

Definition recompute_effect (attemptID : string) (now : Z) (db : DB) : option DB :=
  let rows := attempt_rows attemptID db in
  snd <$> save_score attemptID (num_value (sum_awarded rows)) (num_value <$> section_sums rows)
            (0 <? count_status Pending rows) now db.

(** The whole of [finalize_body] on a live attempt: [closed_at] and
    [settled_at] are the times of its updates. *)
Definition finalize_effect (attemptID reason : string) (order : list string → list string)
  (closed_at settled_at : Z) (a : attemptCtx) (db : DB) : option DB :=
  match apply_marks (mcq_marks order attemptID (cx_NegativeMarking a) db) db with
  | Some db1 =>
      recompute_effect attemptID settled_at
        (submit_invite attemptID
           (close_attempt attemptID (closing_status reason) closed_at db1))
  | None => None
  end.

Lemma loadAttempt_inv q id e n db a n' db' :
  loadAttempt q id e n db = (inl a, n', db') →
  n' = S n ∧ db' = (match q with Pool => interfere e n db | Tx => db end)
  ∧ find_ctx id db' = Some a.
Proof.
  intros H. run_bind H r n1 db1 Hm. run_read Hm.
  destruct (find_ctx id _) as [a'|] eqn:E; [|done]. injection H as <- <- <-. done.
Qed.

Lemma find_ctx_inv id db a :
  find_ctx id db = Some a →
  ∃ at_ s, attempts db !! id = Some at_ ∧ assessments db !! at_assessment_id at_ = Some s
           ∧ a = attempt_ctx id at_ s.
Proof.
  unfold find_ctx. destruct (attempts db !! id) as [at_|] eqn:E1; [|done].
  destruct (assessments db !! at_assessment_id at_) as [s|] eqn:E2; [|done].
  intros [= <-]. eauto.
Qed.

Lemma mapM_marks ms e n db u n' db' :
  mapM_ (λ s : string * float64, statement Tx "save mcq mark" (λ _, save_mark s.1 s.2)) ms e n db
    = (inl u, n', db') → apply_marks ms db = Some db'.
Proof.
  revert n db. induction ms as [|[id m] ms IH]; intros n db H; simpl in *.
  - by injection H as <- <- <-.
  - run_bind H x n1 db1 Hm. run_stmt Hm. simpl in Hm. rewrite Hm. by eapply IH.
Qed.

Lemma recompute_tx_inv id e n db u n' db' :
  recompute Tx id e n db = (inl u, n', db') →
  ∃ now, recompute_effect id now db = Some db'.
Proof.
  intros H. run_bind H agg n1 db1 Hm. run_read Hm. run_bind H secs n2 db2 Hm. run_read Hm.
  run_stmt H. eexists. unfold recompute_effect. by erewrite H.
Qed.

(** A transaction of [FinalizeAttempt] that succeeds found the attempt
    closed and changed nothing, or found it live and had exactly
    [finalize_effect]. *)
Lemma finalize_body_inv id reason e n db u n' db' :
  finalize_body id reason e n db = (inl u, n', db') →
  ∃ a, find_ctx id db = Some a ∧
    (cx_Status a ≠ InProgress ∧ db' = db ∨
     cx_Status a = InProgress ∧ ∃ order t1 t2, (∀ l, order l ≡ₚ l) ∧
       finalize_effect id reason order t1 t2 a db = Some db').
Proof.
  intros H. run_bind H a n1 db1 Ha. apply loadAttempt_inv in Ha. destruct Ha as (-> & -> & Ha).
  exists a. split; [done|].
  case_bool_decide as Hs; cbn [negb] in H; [|left; by injection H as <- <- <-].
  right. split; [done|].
  run_bind H u1 n2 db2 Hg. run_bind Hg ms n3 db3 Hm. run_stmt Hm. injection Hm as <- <-.
  apply mapM_marks in Hg.
  run_bind H u2 n4 db4 Hm. run_stmt Hm. injection Hm as _ <-.
  run_bind H u3 n5 db5 Hm. run_stmt Hm. injection Hm as _ <-.
  apply recompute_tx_inv in H. destruct H as (t2 & H).
  exists (arrange e (S n)). eexists _, t2. split; [apply arrange_perm|].
  unfold finalize_effect. rewrite Hg. exact H.
Qed.

(** *** The marks *)

Lemma nodup_omap {A B} (f : string * A → option (string * B)) (l : list (string * A)) :
  (∀ x y, f x = Some y → y.1 = x.1) → NoDup (map fst l) → NoDup (map fst (omap f l)).
Proof.
  intros Hf. induction l as [|x l IH]; simpl; [done|]. intros [Hx Hl]%NoDup_cons.
  destruct (f x) as [y|] eqn:E; [|by apply IH]. simpl. apply NoDup_cons. split; [|by apply IH].
  rewrite (Hf _ _ E). intros (z & Hz & Hin)%list_elem_of_fmap.
  apply list_elem_of_omap in Hin as (w & Hw & Ew). apply Hx.
  apply list_elem_of_fmap. exists w. split; [|done]. by rewrite Hz, (Hf _ _ Ew).
Qed.

Lemma nodup_rows {R} (p : string → R → bool) (t : gmap string R) :
  NoDup (map fst (rows_where p t)).
Proof.
  unfold rows_where. pose proof (NoDup_fst_map_to_list t) as H. revert H.
  induction (map_to_list t) as [|[k r] l IH]; simpl; [done|]. intros [Hk Hl]%NoDup_cons.
  destruct (decide (p k r = true)) as [Hp|Hp].
  - rewrite filter_cons_True by done. simpl. apply NoDup_cons. split; [|by apply IH].
    intros (y & Hy & Hin)%list_elem_of_fmap. apply Hk, list_elem_of_fmap. exists y.
    split; [done|]. by apply list_elem_of_filter in Hin as [_ Hin].
  - rewrite filter_cons_False by done. by apply IH.
Qed.

Lemma mcq_marks_nodup order id neg db : NoDup (map fst (mcq_marks order id neg db)).
Proof.
  apply nodup_omap; [|apply nodup_rows]. intros [i q] y. simpl.
  destruct (is_kind Mcq q); [|done]. destruct (assessment_sections db !! _); [|done].
  by intros [= <-].
Qed.

(** The mark a list of marks gives a question. *)
Definition mark_of (ms : list (string * float64)) (id : string) : option float64 :=
  (list_to_map ms : gmap string float64) !! id.

(** What [apply_marks] does to the question table. *)
Definition marked (ms : list (string * float64)) (t t' : gmap string QuestionRow) : Prop :=
  ∀ id, match mark_of ms id with
        | Some m => ∃ z, num_param marks_limit m = Some z ∧ t' !! id = set_mark z <$> t !! id
        | None => t' !! id = t !! id
        end.

Lemma apply_marks_spec ms db db' :
  NoDup (map fst ms) → apply_marks ms db = Some db' →
  ∃ t', db' = with_questions (λ _, t') db ∧ marked ms (attempt_questions db) t'.
Proof.
  unfold marked, mark_of. revert db. induction ms as [|[id m] ms IH]; intros db; simpl.
  { intros _ [= <-]. exists (attempt_questions db). split; [by destruct db|].
    intros id. by rewrite lookup_empty. }
  intros [Hid Hnd]%NoDup_cons. unfold save_mark at 1.
  destruct (num_param marks_limit m) as [z|] eqn:Ez; [|done].
  intros H. apply IH in H; [|done]. destruct H as (t' & -> & H). exists t'. split; [done|].
  intros id'. specialize (H id'). simpl in H. destruct (decide (id' = id)) as [->|Hne].
  - rewrite lookup_insert_eq. exists z. split; [done|].
    destruct (list_to_map ms !! id) as [m'|] eqn:E.
    + exfalso. apply Hid. apply elem_of_list_to_map_2 in E. apply list_elem_of_fmap.
      by exists (id, m').
    + rewrite H. unfold update_row. by rewrite lookup_alter_eq.
  - rewrite lookup_insert_ne by done. unfold update_row in H.
    destruct (list_to_map ms !! id') as [m'|];
      [destruct H as (z' & Hz & H); exists z'; split; [done|]|];
      rewrite H, lookup_alter_ne by done; done.
Qed.

Lemma mark_of_mcq order id neg db qid m :
  mark_of (mcq_marks order id neg db) qid = Some m ↔
  ∃ q s, attempt_questions db !! qid = Some q ∧ aq_attempt_id q = id ∧ aq_kind q = Mcq
         ∧ assessment_sections db !! aq_section_id q = Some s
         ∧ m = ScoreMcq (mcq_input order db neg s q).
Proof.
  unfold mark_of. rewrite <- elem_of_list_to_map by apply mcq_marks_nodup.
  unfold mcq_marks. rewrite list_elem_of_omap. split.
  - intros ([i q] & Hin & H). apply elem_rows_where in Hin as [Hq Ha]. simpl in H.
    destruct (is_kind Mcq q) eqn:Ek; [|done]. apply bool_decide_eq_true in Ek.
    destruct (assessment_sections db !! _) as [s|] eqn:Es; [|done]. injection H as <- <-.
    exists q, s. apply String.eqb_eq in Ha. done.
  - intros (q & s & Hq & Ha & Hk & Hs & ->). exists (qid, q). split.
    + apply elem_rows_where. split; [done|]. by apply String.eqb_eq.
    + simpl. unfold is_kind. by rewrite bool_decide_true, Hs.
Qed.

(** *** The total *)

Lemma recompute_effect_inv id now db db' a :
  recompute_effect id now db = Some db' → attempts db !! id = Some a →
  let rows := attempt_rows id db in
  ∃ z, greatest_param (num_value (sum_awarded rows)) = Some z ∧ Z.max z 0 < score_limit ∧
    db' = with_attempts (update_row id (set_score now (Z.max z 0) (num_value <$> section_sums rows)
                                          (0 <? count_status Pending rows))) db.
Proof.
  unfold recompute_effect, save_score. cbn zeta.
  destruct (greatest_param _) as [z|]; [|done]. destruct (Z.ltb_spec (Z.max z 0) score_limit); [|done].
  intros [= <-] _. exists z. done.
Qed.

Lemma submit_invite_same id db :
  attempts (submit_invite id db) = attempts db
  ∧ attempt_questions (submit_invite id db) = attempt_questions db
  ∧ assessments (submit_invite id db) = assessments db.
Proof.
  unfold submit_invite. destruct (attempts db !! id) as [a|]; [|done]. by destruct (at_invite_id a).
Qed.

Lemma attempt_rows_questions id db db' :
  attempt_questions db' = attempt_questions db → attempt_rows id db' = attempt_rows id db.
Proof. unfold attempt_rows. by intros ->. Qed.

(** The effect of a finalization on the two tables it settles. *)
Lemma finalize_effect_inv id reason order t1 t2 at_ s db db' :
  attempts db !! id = Some at_ →
  finalize_effect id reason order t1 t2 (attempt_ctx id at_ s) db = Some db' →
  marked (mcq_marks order id (num_value (as_negative_marking s)) db)
    (attempt_questions db) (attempt_questions db') ∧
  assessments db' = assessments db ∧
  (∀ other, other ≠ id → attempts db' !! other = attempts db !! other) ∧
  let rows := attempt_rows id db' in
  ∃ z, greatest_param (num_value (sum_awarded rows)) = Some z ∧ Z.max z 0 < score_limit ∧
    attempts db' !! id = Some
      (set_score t2 (Z.max z 0) (num_value <$> section_sums rows) (0 <? count_status Pending rows)
         (set_closed t1 (closing_status reason) at_)).
Proof.
  intros Hat. unfold finalize_effect. simpl cx_NegativeMarking.
  destruct (apply_marks _ _) as [db1|] eqn:Em; [|done]. intros H.
  apply apply_marks_spec in Em as (t' & -> & Hm); [|apply mcq_marks_nodup].
  set (db2 := close_attempt _ _ _ _) in H. destruct (submit_invite_same id db2) as (E1 & E2 & E3).
  apply (recompute_effect_inv _ _ _ _ (set_closed t1 (closing_status reason) at_)) in H
    as (z & Hz & Hlim & ->).
  - cbn zeta. cbn [attempt_questions with_attempts attempts assessments].
    split_and!.
    + rewrite E2. exact Hm.
    + by rewrite E3.
    + intros other Hne. rewrite E1. unfold update_row, db2, close_attempt. cbn.
      unfold update_row. by rewrite !lookup_alter_ne.
    + exists z. split_and!; [exact Hz|done|]. rewrite E1. unfold update_row, db2, close_attempt. cbn.
      unfold update_row. by rewrite !lookup_alter_eq, Hat.
  - rewrite E1. unfold db2, close_attempt. cbn. unfold update_row. by rewrite lookup_alter_eq, Hat.
Qed.

Lemma FinalizeAttempt_inv id reason e n db s n' db' :
  undisturbed e → FinalizeAttempt id reason e n db = (inl s, n', db') →
  ∃ n1, finalize_body id reason e (S n) db = (inl tt, n1, db') ∧ find_summary id db' = Some s.
Proof.
  intros [_ Hi] H. run_bind H u n1 db1 Ht. destruct u.
  apply transaction_inv in Ht as (n2 & -> & Ht). rewrite Hi in Ht.
  run_bind H r n3 db3 Hr. run_read Hr. rewrite Hi in H.
  destruct (find_summary id db1) as [s'|] eqn:E; [|done]. injection H as <- <- <-. eauto.
Qed.

(** ** Properties *)

(** C4.  A successful call on a live attempt closes it for good:
    the attempt is Disqualified if proctoring ended it, otherwise Evaluating
    while a verdict of the judge is pending and Evaluated when none is; it
    carries a submission time, and its score is the sum of the marks awarded
    to its questions as they now stand, never below zero.  Other attempts are
    untouched. *)
Theorem FinalizeAttempt_settles id reason e n db s n' db' at_ :
  undisturbed e → FinalizeAttempt id reason e n db = (inl s, n', db') →
  attempts db !! id = Some at_ → at_status at_ = InProgress →
  let rows := attempt_rows id db' in
  (∃ at', attempts db' !! id = Some at' ∧
     at_status at' = (if String.eqb reason "proctor" then Disqualified
                      else if 0 <? count_status Pending rows then Evaluating else Evaluated) ∧
     is_Some (at_submitted_at at') ∧
     (∃ z, greatest_param (num_value (sum_awarded rows)) = Some z ∧ at_score at' = Z.max z 0) ∧
     sm_Score s = num_value (at_score at') ∧ sm_Status s = at_status at') ∧
  (∀ other, other ≠ id → attempts db' !! other = attempts db !! other).
Proof.
  intros He H Hat Hs rows. apply FinalizeAttempt_inv in H as (n1 & H & Hsum); [|done].
  apply finalize_body_inv in H as (a & Ha & H). apply find_ctx_inv in Ha as (at1 & as_ & Hat1 & Has & ->).
  simplify_eq. destruct H as [[Hc _]|(_ & order & t1 & t2 & _ & H)]; [done|].
  apply finalize_effect_inv in H as (_ & Hass & Hoth & z & Hz & _ & Hnew); [|done].
  split; [|done]. eexists. split; [exact Hnew|]. fold rows in Hnew, Hz |- *. split_and!.
  - simpl. unfold closing_status. by destruct (String.eqb reason "proctor").
  - by eexists.
  - eauto.
  - unfold find_summary in Hsum. rewrite Hnew in Hsum. cbn in Hsum. rewrite Hass, Has in Hsum.
    by injection Hsum as <-.
  - unfold find_summary in Hsum. rewrite Hnew in Hsum. cbn in Hsum. rewrite Hass, Has in Hsum.
    by injection Hsum as <-.
Qed.

(** It grades exactly the multiple-choice questions of the
    attempt: each gets the mark [ScoreMcq] gives its saved answer under the
    assessment's negative marking and is Graded, and nothing else about it
    changes; coding and descriptive questions and the questions of other
    attempts are left as they were. *)
Theorem FinalizeAttempt_grades id reason e n db s n' db' at_ as_ :
  undisturbed e → FinalizeAttempt id reason e n db = (inl s, n', db') →
  attempts db !! id = Some at_ → assessments db !! at_assessment_id at_ = Some as_ →
  at_status at_ = InProgress →
  ∀ qid q, attempt_questions db !! qid = Some q →
    if bool_decide (aq_attempt_id q = id ∧ aq_kind q = Mcq
                    ∧ is_Some (assessment_sections db !! aq_section_id q))
    then ∃ order sec z, (∀ l, order l ≡ₚ l) ∧
           assessment_sections db !! aq_section_id q = Some sec ∧
           num_param marks_limit
             (ScoreMcq (mcq_input order db (num_value (as_negative_marking as_)) sec q)) = Some z ∧
           attempt_questions db' !! qid = Some (set_mark z q)
    else attempt_questions db' !! qid = Some q.
Proof.
  intros He H Hat Has Hs qid q Hq. apply FinalizeAttempt_inv in H as (n1 & H & _); [|done].
  apply finalize_body_inv in H as (a & Ha & H).
  apply find_ctx_inv in Ha as (at1 & as1 & Hat1 & Has1 & ->). simplify_eq.
  destruct H as [[Hc _]|(_ & order & t1 & t2 & Hord & H)]; [done|].
  apply finalize_effect_inv in H as (Hm & _); [|done]. specialize (Hm qid).
  destruct (mark_of _ qid) as [m|] eqn:E.
  - apply mark_of_mcq in E as (q' & sec & Hq' & Ha & Hk & Hsec & ->).
    rewrite Hq in Hq'. injection Hq' as <-.
    rewrite bool_decide_true by by split_and!.
    destruct Hm as (z & Hz & Hm). exists order, sec, z. by rewrite Hm, Hq.
  - rewrite bool_decide_false; [by rewrite Hm|]. intros (Ha & Hk & sec & Hsec).
    assert (E' : is_Some (mark_of (mcq_marks order id (num_value (as_negative_marking as1)) db) qid)).
    { eexists. apply mark_of_mcq. exists q, sec. split_and!; done. }
    rewrite E in E'. by destruct E'.
Qed.

Lemma statement_calm {A} q label (f : Stamp → DB → option (A * DB)) e n db x db' :
  undisturbed e → f (stamp_at e n) db = Some (x, db') →
  statement q label f e n db = (inl x, S n, db').
Proof. intros [Hf Hi] H. unfold statement. rewrite Hf, Hi. destruct q; by rewrite H. Qed.

Lemma select_calm {A} q label (f : DB → A) e n db :
  undisturbed e → select q label f e n db = (inl (f db), S n, db).
Proof. intros He. by apply statement_calm. Qed.

Lemma loadAttempt_calm q id e n db a :
  undisturbed e → find_ctx id db = Some a → loadAttempt q id e n db = (inl a, S n, db).
Proof.
  intros He Ha. unfold loadAttempt.
  erewrite bind_inl by by apply select_calm. by rewrite Ha.
Qed.

Lemma finalize_closed id reason e n db a s :
  undisturbed e → find_ctx id db = Some a → cx_Status a ≠ InProgress →
  find_summary id db = Some s →
  ∃ n', FinalizeAttempt id reason e n db = (inl s, n', db).
Proof.
  intros He Ha Hc Hs. pose proof He as [Hf Hi].
  assert (Hb : finalize_body id reason e (S n) db = (inl tt, S (S n), db)).
  { unfold finalize_body. erewrite bind_inl by by apply loadAttempt_calm. cbv beta.
    by rewrite bool_decide_false. }
  eexists. unfold FinalizeAttempt.
  erewrite bind_inl; [|unfold transaction; by rewrite Hf, Hi, Hb, Hf].
  unfold loadSummary. erewrite bind_inl by by apply select_calm. by rewrite Hs.
Qed.

(** Closing an attempt twice, for whatever reasons, is
    closing it once: the second call changes nothing and answers the same
    summary. *)
Theorem FinalizeAttempt_idempotent id reason reason' e e' n m db s n' db' :
  undisturbed e → undisturbed e' → FinalizeAttempt id reason e n db = (inl s, n', db') →
  ∃ m', FinalizeAttempt id reason' e' m db' = (inl s, m', db').
Proof.
  intros He He' H. apply FinalizeAttempt_inv in H as (n1 & H & Hsum); [|done].
  apply finalize_body_inv in H as (a & Ha & [[Hc ->]|(Hs & order & t1 & t2 & _ & H)]).
  - by eapply finalize_closed.
  - apply find_ctx_inv in Ha as (at_ & as_ & Hat & Has & ->).
    apply finalize_effect_inv in H as (_ & Hass & _ & z & _ & _ & Hnew); [|done].
    eapply (finalize_closed _ _ _ _ _ (attempt_ctx id _ as_)); [done| | |done].
    + unfold find_ctx. rewrite Hnew. simpl. by rewrite Hass, Has.
    + simpl. unfold closing_status. destruct (String.eqb reason "proctor"); simpl; [done|].
      by destruct (0 <? _).
Qed.

(** A call that fails leaves no half-graded attempt, whatever
    statement failed: either nothing it did remains, or the whole transaction
    took effect and only the report of it was lost. *)
Theorem FinalizeAttempt_atomic id reason e n db err n' db' :
  (∀ k d, interfere e k d = d) → FinalizeAttempt id reason e n db = (inr err, n', db') →
  db' = db ∨ ∃ k, finalize_body id reason e (S n) db = (inl tt, k, db').
Proof.
  intros Hi. unfold FinalizeAttempt, bind at 1.
  destruct (transaction _ _ _ e n db) as [[[u|err'] n1] db1] eqn:E.
  - apply transaction_inv in E as (n2 & -> & E). rewrite Hi in E. destruct u.
    intros H. right. exists n2. rewrite E. f_equal.
    unfold loadSummary, bind, select, statement in H. rewrite Hi in H.
    destruct (fault e (S n2)); simpl in H; try (by injection H as _ _ <-).
    destruct (find_summary id db1); [done|]. by injection H as _ _ <-.
  - intros [= -> -> ->]. apply transaction_atomic in E as [->|(_ & [] & n2 & E)];
      rewrite Hi in *; [by left|right; eauto].
Qed.

(** *** The best submission *)

Definition submission_score (marks : float64) (s : SubmissionRow) : float64 :=
  ScoreCoding (default 0 (sb_passed_count s)) (default 0 (sb_total_count s)) marks.

(** [b] is one of the rows, and no row scores higher. *)
Definition is_best (marks : float64) (rows : list (string * SubmissionRow)) (b : best_submission)
  : Prop :=
  (∃ id s, (id, s) ∈ rows ∧ b = {| bs_score := submission_score marks s; bs_sub := id;
                                   bs_lang := sb_language s; bs_src := sb_code s |}) ∧
  ∀ id s, (id, s) ∈ rows → fltb (bs_score b) (submission_score marks s) = false.

Lemma best_of_from marks rows seen b :
  is_best marks seen b → ∃ b', best_of marks (Some b) rows = Some b' ∧ is_best marks (seen ++ rows) b'.
Proof.
  revert seen b. induction rows as [|[id s] rows IH]; intros seen b Hb; simpl.
  { exists b. by rewrite app_nil_r. }
  fold (submission_score marks s). set (this := {| bs_score := _ |}).
  replace (seen ++ (id, s) :: rows) with ((seen ++ [(id, s)]) ++ rows) by by rewrite <- app_assoc.
  destruct Hb as [(i & r & Hin & ->) Hmax]. cbn [bs_score] in *.
  destruct (fltb (submission_score marks r) (submission_score marks s)) eqn:E; apply IH.
  - split; [exists id, s; split; [set_solver|done]|]. intros id' s' [Hin'|Hin']%elem_of_app.
    + specialize (Hmax _ _ Hin'). cbn. destruct (fltb (submission_score marks s) _) eqn:E'; [|done].
      by rewrite (fltb_trans _ _ _ E E') in Hmax.
    + apply list_elem_of_singleton in Hin' as [= -> ->]. apply fltb_irrefl.
  - split; [exists i, r; split; [set_solver|done]|]. intros id' s' [Hin'|Hin']%elem_of_app; [by eauto|].
    apply list_elem_of_singleton in Hin' as [= -> ->]. exact E.
Qed.

Lemma best_of_spec marks rows :
  match best_of marks None rows with
  | None => rows = []
  | Some b => is_best marks rows b
  end.
Proof.
  destruct rows as [|[id s] rows]; [done|]. simpl. fold (submission_score marks s).
  destruct (best_of_from marks rows [(id, s)] {| bs_score := submission_score marks s; bs_sub := id;
    bs_lang := sb_language s; bs_src := sb_code s |}) as (b & -> & Hb); [|exact Hb].
  split; [exists id, s; split; [constructor|done]|].
  intros id' s' [= -> ->]%list_elem_of_singleton. apply fltb_irrefl.
Qed.

Lemma elem_graded_submissions order qid db id s :
  (∀ l, order l ≡ₚ l) →
  (id, s) ∈ graded_submissions order qid db ↔
  attempt_submissions db !! id = Some s ∧ sb_attempt_question_id s = qid ∧ is_Some (sb_passed_count s).
Proof.
  intros Ho. unfold graded_submissions. rewrite list_elem_of_omap. split.
  - intros (k & Hk & H). destruct (attempt_submissions db !! k) as [r|] eqn:E; [|done].
    injection H as -> ->. split; [done|]. rewrite Ho in Hk.
    apply list_elem_of_fmap in Hk as ([k' r'] & -> & Hin). apply elem_rows_where in Hin as [Hl Hp].
    simpl in E. rewrite Hl in E. injection E as ->. bool_to_prop. apply String.eqb_eq in H. done.
  - intros (Hl & Hq & Hp). exists id. rewrite Hl. split; [|done]. rewrite Ho.
    apply list_elem_of_fmap. exists (id, s). split; [done|]. apply elem_rows_where.
    split; [done|]. rewrite (proj2 (String.eqb_eq _ _) Hq). by apply bool_decide_eq_true.
Qed.

Lemma recompute_calm q id e n db u n' db' :
  undisturbed e → recompute q id e n db = (inl u, n', db') →
  ∃ now, recompute_effect id now db = Some db'.
Proof.
  intros [_ Hi] H. run_bind H agg n1 db1 Hm. run_read Hm. run_bind H secs n2 db2 Hm. run_read Hm.
  run_stmt H. eexists. unfold recompute_effect. destruct q; rewrite ?Hi in H; by erewrite H.
Qed.

(** A successful call, step by step. *)
Lemma ApplyGradedSubmission_inv sub status passed total e n db n' db' :
  undisturbed e →
  ApplyGradedSubmission sub status passed total e n db = (inl tt, n', db') →
  ∃ id s, uuid_param sub = Some id ∧ attempt_submissions db !! id = Some s ∧
    let qid := sb_attempt_question_id s in
    let db1 := with_submissions (update_row id (set_verdict status passed total)) db in
    ∃ q order b z now, attempt_questions db !! qid = Some q ∧ (∀ l, order l ≡ₚ l) ∧
      best_of (num_value (aq_marks q)) None (graded_submissions order qid db1) = Some b ∧
      num_param marks_limit (bs_score b) = Some z ∧
      recompute_effect (aq_attempt_id q) now
        (with_questions (update_row qid (set_coding_mark z b)) db1) = Some db'.
Proof.
  intros He H. pose proof He as [_ Hi].
  run_bind H link n1 db1 Hm. run_stmt Hm. rewrite Hi in Hm.
  destruct (uuid_param sub) as [id|]; [|done]. injection Hm as <- <-.
  destruct (attempt_submissions db !! id) as [s|] eqn:Hs; [|done]. cbn [fmap option_fmap option_map] in H.
  exists id, s. split_and!; [done..|]. cbv zeta.
  run_bind H q0 n2 db2 Hm. run_read Hm. rewrite Hi in H. cbn [attempt_questions with_submissions] in H.
  destruct (attempt_questions db !! sb_attempt_question_id s) as [q|]; [|done].
  set (db1 := with_submissions _ db) in *.
  run_bind H best n3 db3 Hm. run_stmt Hm. rewrite Hi in Hm. injection Hm as <- <-.
  cbn [st_order stamp_at] in H. set (order := arrange e _) in H.
  assert (Hord : ∀ l, order l ≡ₚ l) by apply arrange_perm.
  destruct (best_of _ None _) as [b|] eqn:Eb; cycle 1.
  { exfalso. pose proof (best_of_spec (num_value (aq_marks q))
      (graded_submissions order (sb_attempt_question_id s) db1)) as Hnil. rewrite Eb in Hnil.
    assert (Hin : (id, set_verdict status passed total s)
      ∈ graded_submissions order (sb_attempt_question_id s) db1).
    { apply elem_graded_submissions; [done|]. unfold db1. cbn. unfold update_row.
      rewrite lookup_alter_eq, Hs. split_and!; [done..|by eexists]. }
    rewrite Hnil in Hin. by apply elem_of_nil in Hin. }
  run_bind H u n4 db4 Hm. run_stmt Hm. rewrite Hi in Hm. unfold save_coding_mark in Hm.
  destruct (num_param _ _) as [z|] eqn:Ez; [|done]. injection Hm as _ <-.
  apply recompute_calm in H as (now & H); [|done]. exists q, order, b, z, now. done.
Qed.

(** [recompute] writes one attempt row only. *)
Lemma recompute_effect_tables id now db db' :
  recompute_effect id now db = Some db' →
  attempt_submissions db' = attempt_submissions db ∧ attempt_questions db' = attempt_questions db ∧
  (∀ k, k ≠ id → attempts db' !! k = attempts db !! k).
Proof.
  unfold recompute_effect, save_score. cbn zeta. destruct (greatest_param _); [|done].
  destruct (_ <? _); [|done]. intros [= <-]. split_and!; [done..|]. intros k Hk. cbn.
  unfold update_row. by rewrite lookup_alter_ne.
Qed.

(** C5.  A verdict leaves the question with its best
    submission, not its last: the awarded mark, the linked submission and
    the stored code are those of a graded submission of the question that no
    graded submission of it, the new one included, outscores; and the
    attempt's score is the clamped sum of the marks as they then stand. *)
Theorem ApplyGradedSubmission_best sub status passed total e n db n' db' s q :
  undisturbed e → uuid_param sub = Some sub →
  ApplyGradedSubmission sub status passed total e n db = (inl tt, n', db') →
  attempt_submissions db !! sub = Some s →
  attempt_questions db !! sb_attempt_question_id s = Some q →
  let marks := num_value (aq_marks q) in
  ∃ best b z,
    attempt_submissions db' !! best = Some b ∧
    sb_attempt_question_id b = sb_attempt_question_id s ∧ is_Some (sb_passed_count b) ∧
    num_param marks_limit (submission_score marks b) = Some z ∧
    attempt_questions db' !! sb_attempt_question_id s =
      Some (set_coding_mark z {| bs_score := submission_score marks b; bs_sub := best;
                                 bs_lang := sb_language b; bs_src := sb_code b |} q) ∧
    (∀ other o, attempt_submissions db' !! other = Some o →
       sb_attempt_question_id o = sb_attempt_question_id s → is_Some (sb_passed_count o) →
       fltb (submission_score marks b) (submission_score marks o) = false) ∧
    attempt_submissions db' !! sub = Some (set_verdict status passed total s) ∧
    ∀ a, attempts db !! aq_attempt_id q = Some a →
      ∃ a' t, attempts db' !! aq_attempt_id q = Some a' ∧
        greatest_param (num_value (sum_awarded (attempt_rows (aq_attempt_id q) db'))) = Some t ∧
        at_score a' = Z.max t 0.
Proof.
  intros He Hsub H Hs Hq marks.
  apply ApplyGradedSubmission_inv in H as (id & s' & Hid & Hs' & q' & order & b & z & now & Hq' & Hord & Hb & Hz & H);
    [|done].
  rewrite Hsub in Hid. injection Hid as <-. rewrite Hs in Hs'. injection Hs' as <-.
  rewrite Hq in Hq'. injection Hq' as <-. fold marks in Hb.
  set (db1 := with_submissions _ db) in *.
  pose proof (best_of_spec marks (graded_submissions order (sb_attempt_question_id s) db1)) as Hbest.
  rewrite Hb in Hbest. destruct Hbest as [(id & b' & Hin & ->) Hmax].
  apply elem_graded_submissions in Hin as (Hb1 & Hbq & Hbp); [|done].
  destruct (recompute_effect_tables _ _ _ _ H) as (Hss & Hsq & _). cbn in Hss, Hsq.
  exists id, b', z. rewrite Hss, Hsq. split_and!; [done..| | | |].
  - unfold update_row. by rewrite lookup_alter_eq, Hq.
  - intros other o Ho Hoq Hop. apply (Hmax other). by apply elem_graded_submissions.
  - unfold update_row. by rewrite lookup_alter_eq, Hs.
  - intros a Ha. apply (recompute_effect_inv _ _ _ _ a) in H as (t & Ht & _ & ->); [|exact Ha].
    eexists _, t.
    split_and!; [cbn; unfold update_row; by rewrite lookup_alter_eq, Ha|exact Ht|done].
Qed.

(** A recruiter's mark is stored only for a descriptive
    question of that attempt and only within its range: a successful call
    had [0 <= marks <= maximum], and a mark outside is refused with nothing
    changed. *)
Theorem GradeDescriptive_bounds aid qid marks e n db r n' db' q :
  undisturbed e → GradeDescriptive aid qid marks e n db = (r, n', db') →
  attempt_questions db !! qid = Some q →
  (fltb marks float_zero || fltb (num_value (aq_marks q)) marks = true →
     (∃ err, r = inr err) ∧ db' = db) ∧
  (∀ out, r = inl out →
     aq_attempt_id q = aid ∧ aq_kind q = Descriptive
     ∧ fltb marks float_zero = false ∧ fltb (num_value (aq_marks q)) marks = false
     ∧ ∃ z, num_param marks_limit marks = Some z
            ∧ attempt_questions db' !! qid = Some (set_mark z q)).
Proof.
  intros He H Hq. unfold GradeDescriptive in H.
  rewrite (bind_inl _ _ _ _ _ _ _ _ (select_calm _ _ _ _ _ _ He)) in H. cbv beta in H.
  rewrite Hq in H.
  destruct (in_attempt aid qid q && is_kind Descriptive q) eqn:Ek;
    [|injection H as <- <- <-; split; [eauto|done]].
  bool_to_prop. unfold in_attempt in *. apply String.eqb_eq in H0.
  unfold is_kind in H1. apply bool_decide_eq_true in H1.
  destruct (fltb marks float_zero || fltb (num_value (aq_marks q)) marks) eqn:Em.
  { injection H as <- <- <-. split; [eauto|done]. }
  split; [done|]. intros out ->. apply orb_false_iff in Em as [Em1 Em2]. split_and!; [done..|].
  pose proof He as [_ Hi].
  run_bind H u n1 db1 Hm. run_stmt Hm. rewrite Hi in Hm. unfold save_mark in Hm.
  destruct (num_param _ _) as [z|]; [|done]. injection Hm as _ <-. exists z. split; [done|].
  run_bind H u2 n2 db2 Hr. apply recompute_calm in Hr as (now & Hr); [|done].
  run_bind H sm n3 db3 Hl. run_bind Hl rr n4 db4 Hm. run_read Hm. rewrite Hi in *.
  assert (db' = db2) as ->.
  { destruct (find_summary aid db2); [|done]. injection Hl as <- <- <-. by injection H as _ _ <-. }
  unfold recompute_effect, save_score in Hr. cbn zeta in Hr. destruct (greatest_param _); [|done].
  destruct (_ <? _); [|done]. injection Hr as <-. cbn. unfold update_row.
  by rewrite lookup_alter_eq, Hq.
Qed.
End Scoring.

Arguments attemptCtx : clear implicits.
Arguments AttemptSummary : clear implicits.
