(* ===== verification/Attempts.v ===== *)
(** Starting a test: the first half of
    services/assessment-service/internal/repository/attempts.go, with
    [GetAssessment] and [loadSections] of authoring.go.

    Times are nanoseconds; PostgreSQL keeps microseconds ([to_micro]), and an
    assessment's window travels as RFC 3339 text, which keeps seconds
    ([GoTime.fmtTime]).  [math/rand] is the [GoRand] interface; [shuffle] is
    [rand.Shuffle] over it. *)

From S2P Require Import Prelude GoStrings Float64 Strconv GoTime Grading Store Scoring.

#[local] Open Scope Z_scope.
#[local] Open Scope repo_scope.

(** How Go prints %q in a message. *)
Class GoFormat := { quote_go : string → string }.

Definition to_micro (t : Z) : Z := t / 1000 * 1000.

Definition minute : Z := 60 * 10 ^ 9.

(** [maxInt32] *)
Definition maxInt32 (a b : Z) : Z := if b <? a then a else b.

(** [nullable], [derefStr] *)
Definition nullable (s : string) : option string := if String.eqb s "" then None else Some s.
Definition derefStr (s : option string) : string := default "" s.

(** [Duration.Seconds] *)
Definition duration_seconds (d : Z) : float64 :=
  fadd (of_Z (d ÷ 10 ^ 9)) (fdiv (of_Z (Z.rem d (10 ^ 9))) (of_Z (10 ^ 9))).

(** [secondsLeft] *)
Definition secondsLeft (a : attemptCtx) (now : Z) : Z :=
  if negb (bool_decide (cx_Status a = InProgress)) then 0
  else
    let left := to_Z (ftrunc (duration_seconds (cx_ExpiresAt a - now))) in
    if left <? 0 then 0 else left.

(** [inviteOnly] *)
Definition inviteOnly (purpose : string) : bool := negb (equal_fold (trim_space purpose) "practice").

(** [initialGradingStatus] *)
Definition initialGradingStatus (kind : QKind) : GradingStatus :=
  if bool_decide (kind = Descriptive) then ManualReview else Ungraded.

(** ** Shuffling *)

Section Shuffle.
Context {GR : GoRand} {A : Type} (seed : Z).

Definition swap (i j : nat) (l : list A) : list A :=
  match l !! i, l !! j with
  | Some x, Some y => <[i := y]> (<[j := x]> l)
  | _, _ => l
  end.

(** The downward loop of [rand.Shuffle]; [k] counts the draws made. *)
Fixpoint shuffle_from (i k : nat) (l : list A) : list A * nat :=
  match i with
  | O => (l, k)
  | S i' => shuffle_from i' (S k) (swap i (int31n seed k (S i)) l)
  end.

Definition shuffle (k : nat) (l : list A) : list A * nat :=
  shuffle_from (length l - 1) k l.
End Shuffle.

(** ** The assessment as authored *)

Record SectionQuestion := {
  qn_Id : string;
  qn_McqQuestionId : string;
  qn_ProblemId : string;
  qn_Marks : Z;
}.

Record Section_ := {
  sn_Id : string;
  sn_Title : string;
  sn_Kind : QKind;
  sn_OrderIndex : Z;
  sn_DurationMinutes : Z;
  sn_CutoffMarks : Z;
  sn_PickCount : Z;
  sn_PickTopic : string;
  sn_PickDifficulty : string;
  sn_PickCourse : string;
  sn_PickMarks : Z;
  sn_PartialCredit : bool;
  sn_Questions : list SectionQuestion;
}.

(** Without the fields only lists show: the company's name, the author and the
    times of creation and change. *)
Record Assessment := {
  am_Id : string;
  am_CompanyId : string;
  am_Title : string;
  am_Description : string;
  am_Purpose : string;
  am_DurationMinutes : Z;
  am_TotalMarks : Z;
  am_PassingMarks : Z;
  am_NegativeMarking : float64;
  am_ShuffleQuestions : bool;
  am_ShuffleOptions : bool;
  am_AllowBacktrack : bool;
  am_LockForward : bool;
  am_RevealResults : bool;
  am_Proctoring : Proctoring;
  am_Status : string;
  am_OpensAt : string;
  am_ClosesAt : string;
  am_MaxAttempts : Z;
  am_CourseIds : list string;
  am_QuestionCount : Z;
  am_Sections : list Section_;
}.

(** The rows of assessment_sections by (order_index, title). *)
Definition section_rows (assessmentID : string) (db : DB) : list (string * SectionRow) :=
  order_by (λ a b, (se_order_index a.2 <? se_order_index b.2)
                   || (se_order_index a.2 =? se_order_index b.2)
                      && String.leb (se_title a.2) (se_title b.2))
    (rows_where (λ _ s, String.eqb (se_assessment_id s) assessmentID) (assessment_sections db)).

Definition section_head (row : string * SectionRow) : Section_ :=
  let '(id, s) := row in
  {| sn_Id := id; sn_Title := se_title s; sn_Kind := se_kind s; sn_OrderIndex := se_order_index s;
     sn_DurationMinutes := default 0 (se_duration_minutes s); sn_CutoffMarks := se_cutoff_marks s;
     sn_PickCount := default 0 (se_pick_count s); sn_PickTopic := se_pick_topic s;
     sn_PickDifficulty := se_pick_difficulty s; sn_PickCourse := se_pick_course s;
     sn_PickMarks := se_pick_marks s; sn_PartialCredit := se_partial_credit s; sn_Questions := [] |}.

Definition questions_of_section (id : string) (db : DB) : list SectionQuestion :=
  map (λ row : string * SectionQuestionRow,
         {| qn_Id := row.1; qn_McqQuestionId := derefStr (sq_mcq_question_id row.2);
            qn_ProblemId := derefStr (sq_problem_id row.2); qn_Marks := sq_marks row.2 |})
    (order_by (λ a b, sq_order_index a.2 <=? sq_order_index b.2)
       (rows_where (λ _ q, String.eqb (sq_section_id q) id) (section_questions db))).

Definition with_section_questions (db : DB) (s : Section_) : Section_ :=
  {| sn_Id := sn_Id s; sn_Title := sn_Title s; sn_Kind := sn_Kind s; sn_OrderIndex := sn_OrderIndex s;
     sn_DurationMinutes := sn_DurationMinutes s; sn_CutoffMarks := sn_CutoffMarks s;
     sn_PickCount := sn_PickCount s; sn_PickTopic := sn_PickTopic s;
     sn_PickDifficulty := sn_PickDifficulty s; sn_PickCourse := sn_PickCourse s;
     sn_PickMarks := sn_PickMarks s; sn_PartialCredit := sn_PartialCredit s;
     sn_Questions := questions_of_section (sn_Id s) db |}.

(** [loadSections] *)
Definition loadSections (assessmentID : string) : M (list Section_) :=
  sections <- select Pool "load sections" (λ db, map section_head (section_rows assessmentID db)) ;;
  match sections with
  | [] => ret []
  | _ => select Pool "load section questions" (λ db, map (with_section_questions db) sections)
  end.

(** Questions per attempt: the size of a draw, else of the list. *)
Definition question_count (sections : list Section_) : Z :=
  fold_left (λ c s, int32 (c + if 0 <? sn_PickCount s then sn_PickCount s
                               else Z.of_nat (length (sn_Questions s)))) sections 0.

(** What [GetAssessment] makes of the row and the sections. *)
Definition assessment_of `{!Postgres} (id : string) (a : AssessmentRow) (sections : list Section_)
  : Assessment :=
  {| am_Id := id; am_CompanyId := derefStr (as_company_id a); am_Title := as_title a;
     am_Description := as_description a; am_Purpose := as_purpose a;
     am_DurationMinutes := as_duration_minutes a; am_TotalMarks := as_total_marks a;
     am_PassingMarks := as_passing_marks a;
     am_NegativeMarking := num_value (as_negative_marking a);
     am_ShuffleQuestions := as_shuffle_questions a; am_ShuffleOptions := as_shuffle_options a;
     am_AllowBacktrack := as_allow_backtrack a; am_LockForward := as_lock_forward a;
     am_RevealResults := as_reveal_results a; am_Proctoring := as_proctoring a;
     am_Status := as_status a; am_OpensAt := fmtTime (as_opens_at a);
     am_ClosesAt := fmtTime (as_closes_at a); am_MaxAttempts := as_max_attempts a;
     am_CourseIds := as_course_ids a; am_QuestionCount := question_count sections;
     am_Sections := sections |}.

(** [GetAssessment] *)
Definition GetAssessment `{!Postgres} (id : string) : M Assessment :=
  r <- select Pool "get assessment" (λ db, assessments db !! id) ;;
  match r with
  | None => fail ErrNotFound
  | Some a =>
      sections <- loadSections id ;;
      ret (assessment_of id a sections)
  end.

(** ** Building a paper *)

Record paperQuestion := {
  pq_SectionID : string;
  pq_Kind : QKind;
  pq_McqQuestionID : string;
  pq_ProblemID : string;
  pq_OrderIndex : Z;
  pq_Marks : float64;
  pq_OptionOrder : list string;
}.

Definition set_order (i : Z) (q : paperQuestion) : paperQuestion :=
  {| pq_SectionID := pq_SectionID q; pq_Kind := pq_Kind q; pq_McqQuestionID := pq_McqQuestionID q;
     pq_ProblemID := pq_ProblemID q; pq_OrderIndex := i; pq_Marks := pq_Marks q;
     pq_OptionOrder := pq_OptionOrder q |}.

Definition set_marks (m : float64) (q : paperQuestion) : paperQuestion :=
  {| pq_SectionID := pq_SectionID q; pq_Kind := pq_Kind q; pq_McqQuestionID := pq_McqQuestionID q;
     pq_ProblemID := pq_ProblemID q; pq_OrderIndex := pq_OrderIndex q; pq_Marks := m;
     pq_OptionOrder := pq_OptionOrder q |}.

Definition set_options (opts : list string) (q : paperQuestion) : paperQuestion :=
  {| pq_SectionID := pq_SectionID q; pq_Kind := pq_Kind q; pq_McqQuestionID := pq_McqQuestionID q;
     pq_ProblemID := pq_ProblemID q; pq_OrderIndex := pq_OrderIndex q; pq_Marks := pq_Marks q;
     pq_OptionOrder := opts |}.

(** Order indices from [order] on. *)
Fixpoint number_from (order : Z) (l : list paperQuestion) : list paperQuestion :=
  match l with
  | [] => []
  | q :: t => set_order order q :: number_from (order + 1) t
  end.

(** [assessmentv1.McqGeneralCourse] *)
Definition McqGeneralCourse : string := "__general".

(** The WHERE clause of [drawFromBank]. *)
Definition bank_match (companyID : string) (s : Section_) (m : McqQuestionRow) : bool :=
  mq_is_active m
  && (if String.eqb companyID "" then bool_decide (mq_company_id m = None)
      else bool_decide (mq_company_id m = Some companyID) || bool_decide (mq_company_id m = None))
  && (if String.eqb (sn_PickCourse s) "" then true
      else if String.eqb (sn_PickCourse s) McqGeneralCourse then String.eqb (mq_course_id m) ""
      else String.eqb (mq_course_id m) (sn_PickCourse s))
  && (String.eqb (sn_PickTopic s) "" || String.eqb (mq_topic m) (sn_PickTopic s))
  && (String.eqb (sn_PickDifficulty s) "" || String.eqb (mq_difficulty m) (sn_PickDifficulty s)).

Definition bank_ids (companyID : string) (s : Section_) (db : DB) : list string :=
  firstn 2000 (sort_strings (map fst (rows_where (λ _ m, bank_match companyID s m) (mcq_questions db)))).

Definition option_ids (order : list string → list string) (db : DB) (question : string) : list string :=
  map fst (order_by (λ a b, mo_order_index a.2 <=? mo_order_index b.2)
             (options_of order (Some question) db)).

Section Paper.
Context {GR : GoRand} {GF : GoFormat}.

(** [drawFromBank] *)
Definition drawFromBank (companyID : string) (s : Section_) (seed : Z) (k : nat)
  : M (list string * nat) :=
  ids <- select Pool "draw from bank" (bank_ids companyID s) ;;
  if Z.of_nat (length ids) <? sn_PickCount s
  then fail (ErrMsg ("section " +:+ quote_go (sn_Title s) +:+ " needs " +:+ format_int (sn_PickCount s)
                     +:+ " questions but the bank only has " +:+ format_int (Z.of_nat (length ids))
                     +:+ " matching"))
  else
    let '(ids, k) := shuffle seed k ids in
    ret (firstn (Z.to_nat (sn_PickCount s)) ids, k).

Definition listed_question (s : Section_) (q : SectionQuestion) : paperQuestion :=
  {| pq_SectionID := sn_Id s; pq_Kind := sn_Kind s; pq_McqQuestionID := qn_McqQuestionId q;
     pq_ProblemID := qn_ProblemId q; pq_OrderIndex := 0;
     pq_Marks := of_Z (maxInt32 (qn_Marks q) 1); pq_OptionOrder := [] |}.

Definition bank_question (s : Section_) (id : string) : paperQuestion :=
  {| pq_SectionID := sn_Id s; pq_Kind := sn_Kind s; pq_McqQuestionID := id; pq_ProblemID := "";
     pq_OrderIndex := 0; pq_Marks := of_Z (maxInt32 (sn_PickMarks s) 1); pq_OptionOrder := [] |}.

(** The questions of one section: its list, a draw from its list, a draw from
    the bank, or none. *)
Definition pick_section (companyID : string) (seed : Z) (k : nat) (s : Section_)
  : M (list paperQuestion * nat) :=
  match sn_Questions s with
  | _ :: _ =>
      let picked := map (listed_question s) (sn_Questions s) in
      if (0 <? sn_PickCount s) && (sn_PickCount s <? Z.of_nat (length picked)) then
        let '(picked, k) := shuffle seed k picked in
        ret (map (set_marks (of_Z (maxInt32 (sn_PickMarks s) 1)))
               (firstn (Z.to_nat (sn_PickCount s)) picked), k)
      else ret (picked, k)
  | [] =>
      if (0 <? sn_PickCount s) && bool_decide (sn_Kind s = Mcq) then
        r <- drawFromBank companyID s seed k ;;
        ret (map (bank_question s) r.1, r.2)
      else ret ([], k)
  end.

Fixpoint build_sections (a : Assessment) (seed : Z) (sections : list Section_) (k : nat)
  (paper : list paperQuestion) : M (list paperQuestion * nat) :=
  match sections with
  | [] => ret (paper, k)
  | s :: t =>
      r <- pick_section (am_CompanyId a) seed k s ;;
      let '(picked, k) := r in
      let '(picked, k) := if am_ShuffleQuestions a then shuffle seed k picked else (picked, k) in
      build_sections a seed t k (paper ++ number_from (Z.of_nat (length paper)) picked)
  end.

(** The loop of [assignOptionOrder] over the paper. *)
Fixpoint order_options (shuffled : bool) (seed : Z) (byQuestion : string → list string) (k : nat)
  (paper : list paperQuestion) : list paperQuestion :=
  match paper with
  | [] => []
  | q :: t =>
      if String.eqb (pq_McqQuestionID q) "" then q :: order_options shuffled seed byQuestion k t
      else
        let opts := byQuestion (pq_McqQuestionID q) in
        let '(opts, k) := if shuffled then shuffle seed k opts else (opts, k) in
        set_options opts q :: order_options shuffled seed byQuestion k t
  end.

(** [assignOptionOrder] *)
Definition assignOptionOrder (paper : list paperQuestion) (shuffled : bool) (seed : Z) (k : nat)
  : M (list paperQuestion) :=
  if bool_decide (Forall (λ q, pq_McqQuestionID q = "") paper) then ret paper
  else
    byQuestion <- statement Pool "load option order" (λ st db, Some (option_ids (st_order st) db, db)) ;;
    ret (order_options shuffled seed byQuestion k paper).

(** [buildPaper] *)
Definition buildPaper (a : Assessment) (seed : Z) : M (list paperQuestion) :=
  r <- build_sections a seed (am_Sections a) 0 [] ;;
  let '(paper, k) := r in
  assignOptionOrder paper (am_ShuffleOptions a) seed k.
End Paper.

(** ** Starting an attempt *)

Record StartAttemptRequest := { sa_AssessmentId : string; sa_UserId : string; sa_InviteToken : string }.

Section Start.
Context {PG : Postgres} {GR : GoRand} {GF : GoFormat} (IsUUID : string → bool).

(** [userEmail]; an unknown user has none. *)
Definition userEmail (userID : string) : M string :=
  select Pool "lookup user email" (λ db, match users db !! userID with
                                         | Some u => us_email u | None => "" end).

(** [practiceAudienceOK] *)
Definition practiceAudienceOK (a : Assessment) (userID : string) : M unit :=
  if inviteOnly (am_Purpose a) || bool_decide (am_CourseIds a = []) then ret tt
  else
    ok <- (if IsUUID userID
           then select Pool "check course enrolment"
                  (λ db, existsb (λ c, bool_decide ((userID, c) ∈ user_courses db)) (am_CourseIds a))
           else ret false) ;;
    if negb ok then fail (ErrMsg "this test is only open to students of its course") else ret tt.

(** The first row of an invite lookup. *)
Definition find_invite (p : InviteRow → bool) (st : Stamp) (db : DB) : option (string * InviteRow) :=
  match st_order st (map fst (rows_where (λ _ i, p i) (assessment_invites db))) with
  | id :: _ => (λ i, (id, i)) <$> assessment_invites db !! id
  | [] => None
  end.

(** [resolveInvite] *)
Definition resolveInvite (a : Assessment) (req : StartAttemptRequest) : M string :=
  if negb (inviteOnly (am_Purpose a)) then ret ""
  else
    r <- (if negb (String.eqb (sa_InviteToken req) "") then
            statement Pool "resolve invite"
              (λ st db, Some (find_invite (λ i, String.eqb (in_token i) (sa_InviteToken req)
                              && String.eqb (in_assessment_id i) (sa_AssessmentId req)) st db, db))
          else
            email <- userEmail (sa_UserId req) ;;
            if String.eqb email "" then fail ErrNotInvited
            else
              statement Pool "resolve invite"
                (λ st db, Some (find_invite (λ i, String.eqb (in_assessment_id i) (sa_AssessmentId req)
                                && String.eqb (sql_lower (in_email i)) (sql_lower email)) st db, db))) ;;
    match r with
    | None => fail ErrNotInvited
    | Some (id, i) =>
        match in_expires_at i with
        | Some t =>
            now <- now ;;
            if t <? now then fail (ErrMsg "your invitation has expired") else ret id
        | None => ret id
        end
    end.

(** The latest live attempt of a user. *)
Definition live_attempt (assessmentID userID : string) (db : DB) : option string :=
  match order_by (λ a b : string * AttemptRow, at_started_at b.2 <=? at_started_at a.2)
          (rows_where (λ _ a, String.eqb (at_assessment_id a) assessmentID
                              && String.eqb (at_user_id a) userID
                              && bool_decide (at_status a = InProgress)) (attempts db)) with
  | (id, _) :: _ => Some id
  | [] => None
  end.

Definition attempts_used (assessmentID userID : string) (db : DB) : Z :=
  Z.of_nat (length (rows_where (λ _ a, String.eqb (at_assessment_id a) assessmentID
                                       && String.eqb (at_user_id a) userID) (attempts db))).

Definition new_attempt (req : StartAttemptRequest) (inviteID : string) (no seed now expiresAt max : Z)
  : AttemptRow :=
  {| at_assessment_id := sa_AssessmentId req; at_user_id := sa_UserId req;
     at_invite_id := nullable inviteID; at_attempt_no := no; at_status := InProgress;
     at_seed := seed; at_started_at := to_micro now; at_expires_at := to_micro expiresAt;
     at_submitted_at := None; at_evaluated_at := None; at_score := 0; at_max_score := max;
     at_section_scores := ∅; at_integrity_score := 10000 |}.

(** The insert fails on a used key, on a second attempt with the same number
    (UNIQUE (assessment_id, user_id, attempt_no)), without its assessment, or
    when the maximum is out of range. *)
Definition insert_attempt (req : StartAttemptRequest) (inviteID : string)
  (no seed now expiresAt : Z) (maxScore : float64) (st : Stamp) (db : DB) : option (string * DB) :=
  match num_param score_limit maxScore with
  | Some max =>
      let id := st_id st 0 in
      if bool_decide (attempts db !! id = None)
         && bool_decide (is_Some (assessments db !! sa_AssessmentId req))
         && bool_decide (rows_where (λ _ a, String.eqb (at_assessment_id a) (sa_AssessmentId req)
                           && String.eqb (at_user_id a) (sa_UserId req)
                           && (at_attempt_no a =? no)) (attempts db) = [])
      then Some (id, with_attempts
                       (<[id := new_attempt req inviteID no seed now expiresAt max]>) db)
      else None
  | None => None
  end.

Definition new_question (attemptID : string) (q : paperQuestion) (marks : Z) : QuestionRow :=
  {| aq_attempt_id := attemptID; aq_section_id := pq_SectionID q; aq_kind := pq_Kind q;
     aq_mcq_question_id := nullable (pq_McqQuestionID q); aq_problem_id := nullable (pq_ProblemID q);
     aq_order_index := pq_OrderIndex q; aq_marks := marks; aq_option_order := pq_OptionOrder q;
     aq_selected_options := []; aq_text_answer := None; aq_submission_id := None;
     aq_language := ""; aq_code := ""; aq_awarded_marks := None;
     aq_grading_status := initialGradingStatus (pq_Kind q); aq_time_spent_ms := 0;
     aq_visited := false; aq_marked_review := false |}.

(** UNIQUE (attempt_id, order_index), and the attempt must exist. *)
Definition insert_question (attemptID : string) (q : paperQuestion) (st : Stamp) (db : DB)
  : option (unit * DB) :=
  match num_param marks_limit (pq_Marks q) with
  | Some marks =>
      let id := st_id st 0 in
      if bool_decide (attempt_questions db !! id = None)
         && bool_decide (is_Some (attempts db !! attemptID))
         && bool_decide (rows_where (λ _ r, String.eqb (aq_attempt_id r) attemptID
                           && (aq_order_index r =? pq_OrderIndex q)) (attempt_questions db) = [])
      then Some (tt, with_questions (<[id := new_question attemptID q marks]>) db)
      else None
  | None => None
  end.

Definition start_invite (userID : string) (i : InviteRow) : InviteRow :=
  {| in_assessment_id := in_assessment_id i; in_email := in_email i; in_user_id := Some userID;
     in_token := in_token i; in_status := "started"; in_expires_at := in_expires_at i;
     in_sent_at := in_sent_at i |}.

Definition start_body (req : StartAttemptRequest) (inviteID : string) (no seed now expiresAt : Z)
  (maxScore : float64) (paper : list paperQuestion) : M string :=
  attemptID <- statement Tx "insert attempt"
                 (insert_attempt req inviteID no seed now expiresAt maxScore) ;;
  mapM_ (λ q, statement Tx "insert attempt question" (insert_question attemptID q)) paper ;;
  (if negb (String.eqb inviteID "") then
     statement Tx "mark invite started"
       (λ _ db, Some (tt, with_invites (update_row inviteID (start_invite (sa_UserId req))) db))
   else ret tt) ;;
  ret attemptID.

Definition sum_marks (paper : list paperQuestion) : float64 :=
  fold_left (λ acc q, fadd acc (pq_Marks q)) paper float_zero.

(** The server-side deadline: the duration, cut at the closing time. *)
Definition deadline (a : Assessment) (now : Z) : Z :=
  let expiresAt := now + int64 (am_DurationMinutes a * minute) in
  match parseTimeValue (am_ClosesAt a) with
  | Some closes => if closes <? expiresAt then closes else expiresAt
  | None => expiresAt
  end.

(** [StartAttempt] *)
Definition StartAttempt (req : StartAttemptRequest) : M string :=
  live <- select Pool "check live attempt" (live_attempt (sa_AssessmentId req) (sa_UserId req)) ;;
  match live with
  | Some id => ret id
  | None =>
      a <- GetAssessment (sa_AssessmentId req) ;;
      if negb (String.eqb (am_Status a) "published") then fail (ErrMsg "this test is not open")
      else
        now <- now ;;
        let opens := parseTimeValue (am_OpensAt a) in
        if match opens with Some o => now <? o | None => false end
        then fail (ErrMsg ("this test opens at " +:+ format_rfc1123 (default 0 opens)))
        else if match parseTimeValue (am_ClosesAt a) with Some c => c <? now | None => false end
        then fail (ErrMsg "this test has closed")
        else
          practiceAudienceOK a (sa_UserId req) ;;
          inviteID <- resolveInvite a req ;;
          used <- select Pool "count attempts" (attempts_used (sa_AssessmentId req) (sa_UserId req)) ;;
          if maxInt32 (am_MaxAttempts a) 1 <=? used then fail ErrNoAttemptsLeft
          else
            seed <- randomSeed ;;
            paper <- buildPaper a seed ;;
            if bool_decide (paper = []) then fail (ErrMsg "this test has no questions")
            else
              transaction "begin start attempt" "commit start attempt"
                (start_body req inviteID (used + 1) seed now (deadline a now) (sum_marks paper) paper)
  end.
End Start.

(** [startability], on the fields of the summary it reads. *)
Definition startability (now : Z) (opensAt closesAt : option Z) (liveAttemptId : string)
  (attemptsUsed maxAttempts : Z) : bool * string :=
  if negb (String.eqb liveAttemptId "") then (true, "")
  else if match opensAt with Some o => now <? o | None => false end
  then (false, "Opens " +:+ format_opens (default 0 opensAt) +:+ " UTC")
  else if match closesAt with Some c => c <? now | None => false end
  then (false, "This test has closed")
  else if maxAttempts <=? attemptsUsed then (false, "You have used all attempts")
  else (true, "").

(** ** What starting an attempt writes *)

Section StartEffect.
Context {PG : Postgres}.

(** The question rows of a paper, inserted one by one. *)
Lemma insert_question_inv attemptID q st db u db' :
  insert_question attemptID q st db = Some (u, db') →
  ∃ id m, num_param marks_limit (pq_Marks q) = Some m
    ∧ attempt_questions db !! id = None ∧ is_Some (attempts db !! attemptID)
    ∧ (∀ i r, attempt_questions db !! i = Some r → aq_attempt_id r = attemptID →
              aq_order_index r ≠ pq_OrderIndex q)
    ∧ db' = with_questions (<[id := new_question attemptID q m]>) db.
Proof.
  unfold insert_question. destruct (num_param _ _) as [m|]; [|done].
  destruct (_ && _) eqn:E; [|done]. bool_to_prop. intros [= <- <-].
  exists (st_id st 0), m. split_and!; try done. intros i r Hr Ha Ho.
  assert (Hin : (i, r) ∈ rows_where (λ _ r, String.eqb (aq_attempt_id r) attemptID
                           && (aq_order_index r =? pq_OrderIndex q)) (attempt_questions db)).
  { apply elem_rows_where. split; [done|]. apply andb_true_iff.
    split; [by apply String.eqb_eq|by apply Z.eqb_eq]. }
  rewrite H0 in Hin. by apply elem_of_nil in Hin.
Qed.

Lemma insert_paper_inv attemptID paper : ∀ e n db u n' db',
  mapM_ (λ q, statement Tx "insert attempt question" (insert_question attemptID q)) paper e n db
    = (inl u, n', db') →
  attempts db' = attempts db ∧ assessments db' = assessments db ∧
  (∀ id r, attempt_questions db !! id = Some r → attempt_questions db' !! id = Some r) ∧
  (∀ id r, attempt_questions db' !! id = Some r → attempt_questions db !! id = Some r ∨
     ∃ q m, q ∈ paper ∧ num_param marks_limit (pq_Marks q) = Some m
            ∧ r = new_question attemptID q m) ∧
  (∀ q, q ∈ paper → ∃ id m, num_param marks_limit (pq_Marks q) = Some m
     ∧ attempt_questions db' !! id = Some (new_question attemptID q m)
     ∧ attempt_questions db !! id = None).
Proof.
  induction paper as [|q paper IH]; intros e n db u n' db' H; simpl in H.
  { injection H as <- <- <-. split_and!; auto. intros q Hq. by apply elem_of_nil in Hq. }
  run_bind H u1 n1 db1 Hm. run_stmt Hm.
  apply insert_question_inv in Hm as (id & m & Em & Hnone & _ & _ & ->).
  apply IH in H as (Ha & Hs & Hold & Hnew & Hall). simpl in *.
  assert (Hkeep : ∀ i r, attempt_questions db !! i = Some r → attempt_questions db' !! i = Some r).
  { intros i r Hr. apply Hold. rewrite lookup_insert_ne; [done|congruence]. }
  split_and!; [done|done|done| |].
  - intros i r Hr. destruct (Hnew _ _ Hr) as [Hi|(q' & m' & Hq' & E & ->)].
    + destruct (decide (i = id)) as [->|Hne].
      * rewrite lookup_insert_eq in Hi. injection Hi as <-. right. exists q, m.
        split; [constructor|done].
      * rewrite lookup_insert_ne in Hi by done. by left.
    + right. exists q', m'. split; [by constructor|done].
  - intros q' [->|Hq']%elem_of_cons.
    + exists id, m. split_and!; [done| |done]. apply Hold. by rewrite lookup_insert_eq.
    + destruct (Hall _ Hq') as (i & m' & E & Hi & Hn). exists i, m'. split_and!; [done..|].
      destruct (decide (i = id)) as [->|Hne]; [by rewrite lookup_insert_eq in Hn|].
      by rewrite lookup_insert_ne in Hn.
Qed.

Lemma start_body_inv req inviteID no seed now expiresAt maxScore paper e n db id n' db' :
  start_body req inviteID no seed now expiresAt maxScore paper e n db = (inl id, n', db') →
  ∃ max, num_param score_limit maxScore = Some max ∧
    attempts db !! id = None ∧ is_Some (assessments db !! sa_AssessmentId req) ∧
    (∀ i a, attempts db !! i = Some a → at_assessment_id a = sa_AssessmentId req →
            at_user_id a = sa_UserId req → at_attempt_no a ≠ no) ∧
    attempts db' = <[id := new_attempt req inviteID no seed now expiresAt max]> (attempts db) ∧
    (∀ i r, attempt_questions db !! i = Some r → attempt_questions db' !! i = Some r) ∧
    (∀ i r, attempt_questions db' !! i = Some r → attempt_questions db !! i = Some r ∨
       ∃ q m, q ∈ paper ∧ num_param marks_limit (pq_Marks q) = Some m
              ∧ r = new_question id q m) ∧
    (∀ q, q ∈ paper → ∃ i m, num_param marks_limit (pq_Marks q) = Some m
       ∧ attempt_questions db' !! i = Some (new_question id q m)).
Proof.
  intros H. run_bind H aid n1 db1 Hm. run_stmt Hm.
  unfold insert_attempt in Hm. destruct (num_param score_limit maxScore) as [max|]; [|done].
  destruct (_ && _) eqn:E; [|done]. bool_to_prop. injection Hm as <- <-.
  run_bind H u n2 db2 Hq. apply insert_paper_inv in Hq as (Ha & Hs & Hold & Hnew & Hall).
  run_bind H u' n3 db3 Hi. injection H as <- <- <-.
  assert (Hdb : attempts db3 = attempts db2 ∧ attempt_questions db3 = attempt_questions db2).
  { destruct (negb _); [run_stmt Hi; by injection Hi as <- <-|by injection Hi as <- <- <-]. }
  destruct Hdb as [Hda Hdq]. exists max. rewrite Hda, Hdq, Ha. simpl in *.
  split_and!; [done|done|done| |done|done|done|].
  - intros i a Hia E1 E2 E3.
    assert (Hin : (i, a) ∈ rows_where (λ _ a, String.eqb (at_assessment_id a) (sa_AssessmentId req)
                           && String.eqb (at_user_id a) (sa_UserId req)
                           && (at_attempt_no a =? no)) (attempts db)).
    { apply elem_rows_where. split; [done|]. rewrite E1, E2, E3, !String.eqb_refl. simpl.
      apply Z.eqb_refl. }
    rewrite H1 in Hin. by apply elem_of_nil in Hin.
  - intros q Hq. destruct (Hall q Hq) as (i & m & Em & Hi' & _). eauto.
Qed.
End StartEffect.
