(* ===== verification/Papers.v ===== *)
(** What starting an attempt promises: who may start one, which questions the
    paper holds, and what the transaction writes
    (services/assessment-service/internal/repository/attempts.go). *)

From S2P Require Import Prelude GoStrings Float64 Strconv GoTime Grading Store Scoring Attempts.

#[local] Open Scope Z_scope.
#[local] Open Scope repo_scope.

(** ** Shuffling permutes *)

Section ShufflePerm.
Context {GR : GoRand} {A : Type} (seed : Z).

Lemma swap_perm i j (l : list A) : swap i j l ≡ₚ l.
Proof.
  unfold swap. destruct (l !! i) as [x|] eqn:Ei, (l !! j) as [y|] eqn:Ej; try done.
  by apply Permutation_insert_swap.
Qed.

Lemma shuffle_from_perm i k (l : list A) : (shuffle_from seed i k l).1 ≡ₚ l.
Proof. revert k l. induction i as [|i IH]; intros k l; simpl; [done|]. by rewrite IH, swap_perm. Qed.

Lemma shuffle_perm k (l l' : list A) k' : shuffle seed k l = (l', k') → l' ≡ₚ l.
Proof. intros H. change l' with (l', k').1. rewrite <- H. apply shuffle_from_perm. Qed.
End ShufflePerm.

(** ** Papers *)

(** A paper question without its place and option order. *)
Definition content (q : paperQuestion) :=
  (pq_SectionID q, pq_Kind q, pq_McqQuestionID q, pq_ProblemID q, pq_Marks q).

(** The questions a section may contribute: its list, a choice of its list of
    the asked size at the section's marks, distinct active questions of the
    bank that match the section, or none. *)
Inductive drawn (companyID : string) (db : DB) (s : Section_) : list paperQuestion → Prop :=
  | drawn_all part :
      sn_Questions s ≠ [] → ¬ (0 < sn_PickCount s < Z.of_nat (length (sn_Questions s))) →
      part ≡ₚ map (listed_question s) (sn_Questions s) → drawn companyID db s part
  | drawn_some chosen part :
      sn_Questions s ≠ [] → 0 < sn_PickCount s < Z.of_nat (length (sn_Questions s)) →
      chosen ⊆+ map (listed_question s) (sn_Questions s) →
      Z.of_nat (length chosen) = sn_PickCount s →
      part ≡ₚ map (set_marks (of_Z (maxInt32 (sn_PickMarks s) 1))) chosen →
      drawn companyID db s part
  | drawn_bank ids part :
      sn_Questions s = [] → sn_Kind s = Mcq → 0 < sn_PickCount s →
      NoDup ids → Z.of_nat (length ids) = sn_PickCount s →
      (∀ id, id ∈ ids → ∃ m, mcq_questions db !! id = Some m ∧ bank_match companyID s m = true) →
      part ≡ₚ map (bank_question s) ids → drawn companyID db s part
  | drawn_none :
      sn_Questions s = [] → ¬ (sn_Kind s = Mcq ∧ 0 < sn_PickCount s) → drawn companyID db s [].

Lemma drawn_perm c db s part part' : part' ≡ₚ part → drawn c db s part → drawn c db s part'.
Proof.
  intros HP H. revert HP. destruct H; intros HP; try by (econstructor; try done; by rewrite HP).
  apply Permutation_nil_r in HP as ->. by apply drawn_none.
Qed.

Lemma number_from_content i l : map content (number_from i l) = map content l.
Proof. revert i. induction l as [|q l IH]; intros i; simpl; [done|]. by rewrite IH. Qed.

Lemma number_from_length i l : length (number_from i l) = length l.
Proof. revert i. induction l as [|q l IH]; intros i; simpl; [done|]. by rewrite IH. Qed.

Lemma number_from_order i l : map pq_OrderIndex (number_from i l) = seqZ i (Z.of_nat (length l)).
Proof.
  revert i. induction l as [|q l IH]; intros i; [done|]. cbn [map number_from length].
  rewrite IH, (seqZ_cons i) by lia. f_equal. f_equal; lia.
Qed.

Lemma number_from_options i l :
  Forall (λ q, pq_OptionOrder q = []) l → Forall (λ q, pq_OptionOrder q = []) (number_from i l).
Proof. intros H. revert i. induction H as [|q l Hq _ IH]; intros i; simpl; constructor; [done|apply IH]. Qed.

(** The option order a question of the paper carries. *)
Definition options_placed (shuffled : bool) (order : list string → list string) (db : DB)
  (q : paperQuestion) : Prop :=
  if String.eqb (pq_McqQuestionID q) "" then pq_OptionOrder q = []
  else pq_OptionOrder q ≡ₚ option_ids order db (pq_McqQuestionID q)
       ∧ (shuffled = false → pq_OptionOrder q = option_ids order db (pq_McqQuestionID q)).

Section PaperLemmas.
Context {GR : GoRand} {GF : GoFormat}.

Lemma order_options_spec shuffled seed order db k l :
  Forall (λ q, pq_OptionOrder q = []) l →
  let l' := order_options shuffled seed (option_ids order db) k l in
  map content l' = map content l ∧ map pq_OrderIndex l' = map pq_OrderIndex l
  ∧ Forall (options_placed shuffled order db) l'.
Proof.
  intros H. revert k. induction H as [|q l Hq _ IH]; intros k; cbn zeta; simpl; [done|].
  destruct (String.eqb_spec (pq_McqQuestionID q) "") as [E|E].
  - destruct (IH k) as (H1 & H2 & H3). simpl. rewrite H1, H2. split_and!; [done..|].
    constructor; [|done]. unfold options_placed. by rewrite E.
  - destruct (if shuffled then _ else _) as [opts k'] eqn:Es.
    destruct (IH k') as (H1 & H2 & H3). simpl. rewrite H1, H2. split_and!; [done..|].
    constructor; [|done]. unfold options_placed. cbn.
    rewrite (proj2 (String.eqb_neq _ _) E). destruct shuffled.
    + split; [by eapply shuffle_perm|done].
    + by injection Es as <- _.
Qed.

Lemma bank_ids_spec c s db : NoDup (bank_ids c s db) ∧
  ∀ id, id ∈ bank_ids c s db → ∃ m, mcq_questions db !! id = Some m ∧ bank_match c s m = true.
Proof.
  unfold bank_ids. set (ids := map fst _).
  assert (HP : sort_strings ids ≡ₚ ids) by apply stable_sort_perm. split.
  - eapply sublist_NoDup; [|apply sublist_take]. rewrite HP. apply nodup_rows.
  - intros id Hid. eapply elem_of_sublist in Hid; [|apply sublist_take].
    rewrite HP in Hid. apply list_elem_of_fmap in Hid as ([k m] & -> & Hin).
    apply elem_rows_where in Hin as [Hm Hp]. eauto.
Qed.

Lemma pick_section_inv c seed k s e n db picked k' n' db' :
  undisturbed e → pick_section c seed k s e n db = (inl (picked, k'), n', db') →
  db' = db ∧ drawn c db s picked ∧ Forall (λ q, pq_OptionOrder q = []) picked.
Proof.
  intros [_ Hi] H. unfold pick_section in H. destruct (sn_Questions s) as [|q0 qs] eqn:Eq.
  - destruct ((0 <? sn_PickCount s) && bool_decide (sn_Kind s = Mcq)) eqn:Ep.
    + bool_to_prop. apply Z.ltb_lt in H0. run_bind H r n1 db1 Hd. injection H as <- _ <- <-.
      run_bind Hd ids n2 db2 Hm. run_read Hm. rewrite Hi in *.
      destruct (bank_ids_spec c s db) as [Hnd Hmatch].
      destruct (Z.ltb_spec (Z.of_nat (length (bank_ids c s db))) (sn_PickCount s)); [done|].
      destruct (shuffle seed k (bank_ids c s db)) as [ids k2] eqn:Es. injection Hd as <- <- <-.
      apply shuffle_perm in Es. split_and!; [done| |].
      * apply drawn_bank with (firstn (Z.to_nat (sn_PickCount s)) ids); try done.
        -- eapply sublist_NoDup; [|apply sublist_take]. by rewrite Es.
        -- rewrite length_take, Es. lia.
        -- intros id Hid. apply Hmatch. rewrite <- Es. eapply elem_of_sublist; [exact Hid|apply sublist_take].
      * apply Forall_map, Forall_forall. done.
    + injection H as <- _ <- <-. split_and!; [done| |constructor].
      apply drawn_none; [done|]. intros [Hk Hp]. apply Z.ltb_lt in Hp.
      rewrite Hp, bool_decide_true in Ep by done. done.
  - assert (Hopts : ∀ l, Forall (λ q, pq_OptionOrder q = []) (map (listed_question s) l)).
    { intros l. by apply Forall_map, Forall_forall. }
    destruct ((0 <? sn_PickCount s) && _) eqn:Ep.
    + bool_to_prop. apply Z.ltb_lt in H0. apply Z.ltb_lt in H1. rewrite length_map in H1.
      destruct (shuffle seed k _) as [l k2] eqn:Es. apply shuffle_perm in Es.
      injection H as <- _ <- <-. split_and!; [done| |].
      * apply drawn_some with (firstn (Z.to_nat (sn_PickCount s)) l); rewrite ?Eq; try done.
        -- rewrite <- Es. apply sublist_submseteq, sublist_take.
        -- rewrite length_take, Es, length_map. simpl in *. lia.
      * apply Forall_map. apply Forall_take.
        eapply Forall_impl; [rewrite Es; apply Hopts|]. done.
    + injection H as <- _ <- <-. split_and!; [done| |apply (Hopts (q0 :: qs))].
      apply drawn_all; rewrite ?Eq; try done. intros [H1 H2].
      apply Z.ltb_lt in H1. rewrite H1 in Ep. simpl in Ep. rewrite length_map in Ep.
      apply Z.ltb_ge in Ep. simpl in *. lia.
Qed.

Lemma build_sections_inv a seed e : undisturbed e → ∀ sections k paper0 n db paper k' n' db',
  build_sections a seed sections k paper0 e n db = (inl (paper, k'), n', db') →
  db' = db ∧ ∃ parts tail, Forall2 (drawn (am_CompanyId a) db) sections parts ∧ paper = paper0 ++ tail ∧
    map content tail = map content (concat parts) ∧
    map pq_OrderIndex tail = seqZ (Z.of_nat (length paper0)) (Z.of_nat (length tail)) ∧
    Forall (λ q, pq_OptionOrder q = []) tail.
Proof.
  intros He. induction sections as [|s sections IH]; intros k paper0 n db paper k' n' db' H; simpl in H.
  { injection H as <- _ _ <-. split; [done|]. exists [], []. rewrite app_nil_r. by split_and!. }
  run_bind H r n1 db1 Hm. destruct r as [picked k1].
  apply pick_section_inv in Hm as (-> & Hd & Ho); [|done].
  destruct (if am_ShuffleQuestions a then _ else _) as [picked' k2] eqn:Es.
  assert (HP : picked' ≡ₚ picked).
  { destruct (am_ShuffleQuestions a); [by eapply shuffle_perm|by injection Es as <- _]. }
  apply IH in H as (-> & parts & tail & Hparts & -> & Hc & Hi & Hopt). split; [done|].
  exists (picked' :: parts), (number_from (Z.of_nat (length paper0)) picked' ++ tail).
  split_and!.
  - constructor; [by eapply drawn_perm|done].
  - by rewrite app_assoc.
  - simpl. by rewrite !map_app, number_from_content, Hc.
  - rewrite map_app, number_from_order, Hi, !length_app, number_from_length.
    rewrite !Nat2Z.inj_add, seqZ_app by lia. done.
  - apply Forall_app. split; [|done]. apply number_from_options. by rewrite HP.
Qed.

Lemma buildPaper_inv a seed e n db paper n' db' :
  undisturbed e → buildPaper a seed e n db = (inl paper, n', db') →
  db' = db ∧
  map pq_OrderIndex paper = seqZ 0 (Z.of_nat (length paper)) ∧
  (∃ parts, Forall2 (drawn (am_CompanyId a) db) (am_Sections a) parts ∧
            map content paper = map content (concat parts)) ∧
  ∃ order, (∀ l, order l ≡ₚ l) ∧ Forall (options_placed (am_ShuffleOptions a) order db) paper.
Proof.
  intros He H. run_bind H r n1 db1 Hm. destruct r as [paper1 k].
  apply build_sections_inv in Hm as (-> & parts & tail & Hparts & -> & Hc & Hi & Ho); [|done].
  simpl in H. unfold assignOptionOrder in H. case_bool_decide as Hnone.
  - injection H as <- _ <-. split_and!; eauto. exists id. split; [done|].
    apply Forall_forall. intros q Hq. unfold options_placed.
    rewrite Forall_forall in Hnone. rewrite (Hnone _ Hq). simpl. rewrite Forall_forall in Ho. by apply Ho.
  - run_bind H by_ n2 db2 Hm. run_stmt Hm. injection Hm as <- <-. injection H as <- _ <-.
    destruct He as [_ Hint]. rewrite !Hint.
    destruct (order_options_spec (am_ShuffleOptions a) seed (arrange e n1) db k tail Ho) as (H1 & H2 & H3).
    cbn zeta in *. split_and!; [done| |exists parts; by rewrite H1|].
    + rewrite H2, Hi. simpl. f_equal. apply (f_equal length) in H1. rewrite !length_map in H1. by rewrite H1.
    + exists (arrange e n1). split; [apply arrange_perm|done].
Qed.

(** C10.  A paper is numbered 0, 1, 2, ... without gaps; its questions are,
    section by section, the section's own list, a choice of exactly the asked
    size from it, or that many distinct active questions of the bank that
    match the section's course, topic and difficulty and belong to the
    company or to nobody; each multiple-choice question carries exactly its
    options, in authored order unless options are shuffled. *)
Theorem buildPaper_spec a seed e n db paper n' db' :
  undisturbed e → buildPaper a seed e n db = (inl paper, n', db') →
  db' = db ∧
  map pq_OrderIndex paper = seqZ 0 (Z.of_nat (length paper)) ∧
  (∃ parts, Forall2 (drawn (am_CompanyId a) db) (am_Sections a) parts ∧
            map content paper = map content (concat parts)) ∧
  ∃ order, (∀ l, order l ≡ₚ l) ∧ Forall (options_placed (am_ShuffleOptions a) order db) paper.
Proof. apply buildPaper_inv. Qed.
End PaperLemmas.

(** ** Starting *)

Section Start.
Context {PG : Postgres} {GR : GoRand} {GF : GoFormat} (IsUUID : string → bool).

Definition live_of (req : StartAttemptRequest) (a : AttemptRow) : Prop :=
  at_assessment_id a = sa_AssessmentId req ∧ at_user_id a = sa_UserId req ∧ at_status a = InProgress.

Lemma live_attempt_spec req db :
  match live_attempt (sa_AssessmentId req) (sa_UserId req) db with
  | Some id => ∃ a, attempts db !! id = Some a ∧ live_of req a
  | None => ∀ id a, attempts db !! id = Some a → ¬ live_of req a
  end.
Proof.
  unfold live_attempt. set (rows := rows_where _ (attempts db)).
  set (le := λ a b : string * AttemptRow, _).
  assert (Hin : ∀ id a, (id, a) ∈ order_by le rows ↔ attempts db !! id = Some a ∧ live_of req a).
  { intros id a. rewrite (order_by_perm le rows). unfold rows. rewrite elem_rows_where.
    unfold live_of. rewrite !andb_true_iff, !String.eqb_eq, bool_decide_eq_true. tauto. }
  destruct (order_by le rows) as [|[id a] l].
  - intros id a Ha Hl. by apply (elem_of_nil (id, a)), Hin.
  - exists a. apply Hin. constructor.
Qed.

(** An invitation that admits the candidate: by its token or by the address
    it was sent to, and not expired. *)
Definition invited (req : StartAttemptRequest) (now : Z) (db : DB) (inviteID : string) : Prop :=
  ∃ i, assessment_invites db !! inviteID = Some i ∧ in_assessment_id i = sa_AssessmentId req ∧
    (∀ t, in_expires_at i = Some t → now ≤ t) ∧
    if String.eqb (sa_InviteToken req) ""
    then ∃ u, users db !! sa_UserId req = Some u ∧ us_email u ≠ ""
              ∧ sql_lower (in_email i) = sql_lower (us_email u)
    else in_token i = sa_InviteToken req.

Lemma find_invite_inv p st db id i :
  find_invite p st db = Some (id, i) → assessment_invites db !! id = Some i ∧ p i = true.
Proof.
  unfold find_invite. destruct (st_order st _) as [|k l] eqn:E; [done|].
  destruct (assessment_invites db !! k) as [j|] eqn:Ej; [|done]. intros [= -> ->]. split; [done|].
  assert (Hk : id ∈ st_order st (map fst (rows_where (λ _ i, p i) (assessment_invites db))))
    by (rewrite E; constructor).
  rewrite st_order_perm in Hk. apply list_elem_of_fmap in Hk as ([k' j'] & -> & Hin).
  apply elem_rows_where in Hin as [Hl Hp]. simpl in *. congruence.
Qed.

Lemma resolveInvite_inv a req e n db id n' db' :
  undisturbed e → resolveInvite a req e n db = (inl id, n', db') →
  db' = db ∧ if inviteOnly (am_Purpose a) then ∃ k, (n ≤ k)%nat ∧ invited req (clock e k) db id
             else id = "".
Proof.
  intros [_ Hi] H. unfold resolveInvite in H.
  destruct (inviteOnly (am_Purpose a)); cbn [negb] in H; [|by injection H as <- _ <-].
  run_bind H r n1 db1 Hm.
  assert (Hr : (n ≤ n1)%nat ∧ db1 = db ∧ ∀ id i, r = Some (id, i) →
    assessment_invites db !! id = Some i ∧ in_assessment_id i = sa_AssessmentId req ∧
    if String.eqb (sa_InviteToken req) ""
    then ∃ u, users db !! sa_UserId req = Some u ∧ us_email u ≠ ""
              ∧ sql_lower (in_email i) = sql_lower (us_email u)
    else in_token i = sa_InviteToken req).
  { destruct (String.eqb_spec (sa_InviteToken req) "") as [E|E]; cbn [negb] in Hm.
    - run_bind Hm email n2 db2 Hu. run_read Hu. rewrite Hi in *.
      destruct (users db !! sa_UserId req) as [u|] eqn:Eu; [|done].
      destruct (String.eqb_spec (us_email u) ""); [done|]. run_stmt Hm. rewrite Hi in Hm.
      injection Hm as <- <-. split_and!; [lia|done|]. intros j i Hj.
      apply find_invite_inv in Hj as [Hj Hp]. bool_to_prop. apply String.eqb_eq in H0, H1. eauto 10.
    - run_stmt Hm. rewrite Hi in Hm. injection Hm as <- <-. split_and!; [lia|done|]. intros j i Hj.
      apply find_invite_inv in Hj as [Hj Hp]. bool_to_prop. apply String.eqb_eq in H0, H1. done. }
  destruct Hr as (Hn & -> & Hr). destruct r as [[j i]|]; [|done].
  destruct (Hr _ _ eq_refl) as (H1 & H2 & H3). clear Hr.
  destruct (in_expires_at i) as [t|] eqn:Et.
  - run_bind H t0 n2 db2 Hm'. injection Hm' as <- <- <-.
    destruct (Z.ltb_spec t (clock e n1)) as [|Hle]; [done|]. injection H as <- _ <-.
    split; [done|]. exists n1. split; [done|]. exists i. split_and!; [done..|congruence|done].
  - injection H as <- _ <-. split; [done|]. exists n1. split; [done|]. exists i. split_and!; [done..|congruence|done].
Qed.

Lemma audience_inv a user e n db u n' db' :
  undisturbed e → practiceAudienceOK IsUUID a user e n db = (inl u, n', db') →
  (n ≤ n')%nat ∧ db' = db ∧ (inviteOnly (am_Purpose a) = false → am_CourseIds a ≠ [] →
              ∃ c, c ∈ am_CourseIds a ∧ (user, c) ∈ user_courses db).
Proof.
  intros [_ Hi] H. unfold practiceAudienceOK in H.
  destruct (inviteOnly (am_Purpose a)); cbn [orb] in H; [by injection H as _ <- <-|].
  case_bool_decide as Hc; [by injection H as _ <- <-|].
  run_bind H ok n1 db1 Hm. destruct ok; [|done]. injection H as _ <- <-.
  destruct (IsUUID user); [|done]. apply select_inv in Hm as (-> & E & Hok). rewrite Hi in E. subst db1.
  split_and!; [lia|done|]. intros _ _. symmetry in Hok. apply existsb_exists in Hok as (c & Hc1 & Hc2).
  exists c. apply bool_decide_eq_true in Hc2. split; [|done]. by apply list_elem_of_In.
Qed.

(** The assessment as [GetAssessment] reads it. *)
Definition authored (id : string) (a : AssessmentRow) (db : DB) : Assessment :=
  assessment_of id a (map (with_section_questions db) (map section_head (section_rows id db))).

Lemma GetAssessment_inv id e n db a n' db' :
  undisturbed e → GetAssessment id e n db = (inl a, n', db') →
  (n ≤ n')%nat ∧ db' = db ∧ ∃ as_, assessments db !! id = Some as_ ∧ a = authored id as_ db.
Proof.
  intros [_ Hi] H. run_bind H r n1 db1 Hm. run_read Hm. rewrite Hi in H.
  destruct (assessments db !! id) as [as_|]; [|done].
  run_bind H secs n2 db2 Hs. injection H as <- <- <-.
  assert (E : (n ≤ n2)%nat ∧ db2 = db ∧ secs = am_Sections (authored id as_ db)).
  { run_bind Hs heads n3 db3 Hm. run_read Hm. rewrite Hi in Hs. simpl.
    destruct (map section_head (section_rows id db)) as [|h hs];
      [injection Hs as <- <- <-; split_and!; [lia|done..]|].
    run_read Hs. rewrite Hi. split_and!; [lia|done..]. }
  destruct E as (Hn & -> & ->). eauto.
Qed.

(** An instant a window may name: a four-digit year, not the zero time; and
    the second it is read back as. *)
Definition in_calendar (t : Z) : Prop := four_digit_year t ∧ t ≠ zero_time.
Definition second (t : Z) : Z := t / nanos * nanos.

Lemma window_read o t : o = Some t → in_calendar t → parseTimeValue (fmtTime o) = Some (second t).
Proof.
  intros -> [Ht Hz]. rewrite parse_window by done. by rewrite (proj2 (Z.eqb_neq _ _)).
Qed.

(** What the moment [now] and the attempts made so far must satisfy. *)
Definition may_start (a : AssessmentRow) (req : StartAttemptRequest) (now : Z) (db : DB) : Prop :=
  as_status a = "published" ∧
  (∀ o, as_opens_at a = Some o → in_calendar o → second o ≤ now) ∧
  (∀ c, as_closes_at a = Some c → in_calendar c → now ≤ second c) ∧
  attempts_used (sa_AssessmentId req) (sa_UserId req) db < Z.max (as_max_attempts a) 1.

(** The run of a start that creates an attempt, step by step. *)
Lemma StartAttempt_inv req e n db id n' db' :
  undisturbed e → StartAttempt IsUUID req e n db = (inl id, n', db') →
  live_attempt (sa_AssessmentId req) (sa_UserId req) db = Some id ∧ db' = db ∨
  live_attempt (sa_AssessmentId req) (sa_UserId req) db = None ∧
  ∃ a j inviteID seed paper max k k', (n ≤ j)%nat ∧ let now := clock e j in
    assessments db !! sa_AssessmentId req = Some a ∧ may_start a req now db ∧
    (if inviteOnly (as_purpose a) then ∃ i, (j ≤ i)%nat ∧ invited req (clock e i) db inviteID else inviteID = "") ∧
    (inviteOnly (as_purpose a) = false → as_course_ids a ≠ [] →
       ∃ c, c ∈ as_course_ids a ∧ (sa_UserId req, c) ∈ user_courses db) ∧
    buildPaper (authored (sa_AssessmentId req) a db) seed e k db = (inl paper, k', db) ∧ paper ≠ [] ∧
    num_param score_limit (sum_marks paper) = Some max ∧ attempts db !! id = None ∧
    attempts db' = <[id := new_attempt req inviteID
        (attempts_used (sa_AssessmentId req) (sa_UserId req) db + 1) seed now
        (deadline (authored (sa_AssessmentId req) a db) now) max]> (attempts db) ∧
    (∀ i r, attempt_questions db !! i = Some r → attempt_questions db' !! i = Some r) ∧
    (∀ i r, attempt_questions db' !! i = Some r → attempt_questions db !! i = Some r ∨
       ∃ q m, q ∈ paper ∧ num_param marks_limit (pq_Marks q) = Some m ∧ r = new_question id q m) ∧
    (∀ q, q ∈ paper → ∃ i m, num_param marks_limit (pq_Marks q) = Some m
       ∧ attempt_questions db' !! i = Some (new_question id q m)).
Proof.
  intros He H. pose proof He as [_ Hi]. run_bind H live n1 db1 Hm. run_read Hm. rewrite Hi in H.
  destruct (live_attempt _ _ db) as [lid|]; [left; by injection H as <- _ <-|right; split; [done|]].
  run_bind H a0 n2 db2 Hm. apply GetAssessment_inv in Hm as (Hn2 & -> & a & Ha & ->); [|done].
  destruct (String.eqb_spec (am_Status (authored (sa_AssessmentId req) a db)) "published") as [Es|];
    cbn [negb] in H; [|done].
  run_bind H t n3 db3 Hm. injection Hm as <- <- <-.
  cbv zeta in H.
  destruct (match parseTimeValue (am_OpensAt _) with Some o => _ | None => _ end) eqn:Eo; [done|].
  destruct (match parseTimeValue (am_ClosesAt _) with Some c => _ | None => _ end) eqn:Ec; [done|].
  run_bind H u n4 db4 Hm. apply audience_inv in Hm as (Hn4 & -> & Haud); [|done].
  run_bind H inv n5 db5 Hm. apply resolveInvite_inv in Hm as [-> Hinv]; [|done].
  run_bind H used n6 db6 Hm. run_read Hm. rewrite Hi in H.
  set (used := attempts_used _ _ db) in *.
  destruct (Z.leb_spec (maxInt32 (am_MaxAttempts (authored (sa_AssessmentId req) a db)) 1) used) as [|Hu];
    [done|].
  run_bind H seed n7 db7 Hm. unfold randomSeed in Hm.
  destruct (seed_bytes e _) as [b|]; [|done]. injection Hm as <- <- <-.
  run_bind H paper n8 db8 Hp. pose proof Hp as Hp'. apply buildPaper_inv in Hp' as [-> _]; [|done].
  case_bool_decide as Hne; [done|].
  apply transaction_inv in H as (n9 & -> & H). rewrite Hi in H.
  apply start_body_inv in H as (max & Hmax & Hnone & _ & _ & Hat & Hold & Hnew & Hall).
  eexists a, _, inv, (b / 2), paper, max, _, _. split; [exact (Nat.le_trans _ _ _ (Nat.le_succ_diag_r n) Hn2)|].
  split_and!; [done| |destruct (inviteOnly _) in Hinv |- *; [destruct Hinv as (i & Hle & Hinv); exists i; split; [lia|exact Hinv]|exact Hinv]|exact Haud|exact Hp|done|done|done|exact Hat|done|done|done].
  repeat split; [exact Es| | |].
  - intros o Ho Hin. cbn [am_OpensAt authored assessment_of] in Eo.
    rewrite (window_read _ _ Ho Hin) in Eo. by apply Z.ltb_ge in Eo.
  - intros c Hc Hin. cbn [am_ClosesAt authored assessment_of] in Ec.
    rewrite (window_read _ _ Hc Hin) in Ec. by apply Z.ltb_ge in Ec.
  - fold used. unfold maxInt32 in Hu. cbn in Hu. destruct (Z.ltb_spec 1 (as_max_attempts a)); lia.
Qed.

(** C8.  A start creates an attempt only for a candidate who has none
    live, on a published test, inside its window, with attempts left, and who
    is allowed in: on an invite-only test the holder of an unexpired
    invitation to it, on a practice test aimed at courses a student of one of
    them.  Otherwise the live attempt is answered and nothing is written. *)
Theorem StartAttempt_eligible req e n db id n' db' :
  undisturbed e → StartAttempt IsUUID req e n db = (inl id, n', db') →
  (∃ a, attempts db !! id = Some a ∧ live_of req a) ∧ db' = db ∨
  (∀ i a, attempts db !! i = Some a → ¬ live_of req a) ∧ attempts db !! id = None ∧
  ∃ a j, (n ≤ j)%nat ∧ assessments db !! sa_AssessmentId req = Some a ∧ may_start a req (clock e j) db ∧
    (inviteOnly (as_purpose a) = true → ∃ inviteID i, (j ≤ i)%nat ∧ invited req (clock e i) db inviteID) ∧
    (inviteOnly (as_purpose a) = false → as_course_ids a ≠ [] →
       ∃ c, c ∈ as_course_ids a ∧ (sa_UserId req, c) ∈ user_courses db).
Proof.
  intros He H. pose proof (live_attempt_spec req db) as Hl.
  apply StartAttempt_inv in H as [[E ->]|(E & a & j & inv & seed & paper & max & k & k' & Hj & Ha & Hm & Hi & Hc & _ & _ & _ & Hn & _)];
    [| |done]; rewrite E in Hl; [by left|right]. split_and!; [done..|].
  exists a, j. split_and!; [done..| |done]. intros Ei. rewrite Ei in Hi.
  destruct Hi as (i & Hji & Hi). eauto.
Qed.

(** A new attempt is in progress, carries the next attempt
    number, the maximum its paper adds up to, full integrity and a deadline
    no later than the test's duration allows nor than its closing time; its
    questions in the database are exactly those of the paper built for it,
    unanswered and unvisited, and no other attempt or question changes. *)
Theorem StartAttempt_materializes req e n db id n' db' a :
  undisturbed e → StartAttempt IsUUID req e n db = (inl id, n', db') →
  attempts db !! id = None → assessments db !! sa_AssessmentId req = Some a →
  (∀ i r, attempt_questions db !! i = Some r → aq_attempt_id r ≠ id) →
  ∃ at_ seed paper k k',
    buildPaper (authored (sa_AssessmentId req) a db) seed e k db = (inl paper, k', db) ∧
    attempts db' = <[id := at_]> (attempts db) ∧
    at_status at_ = InProgress ∧ at_user_id at_ = sa_UserId req ∧
    at_attempt_no at_ = attempts_used (sa_AssessmentId req) (sa_UserId req) db + 1 ∧
    num_param score_limit (sum_marks paper) = Some (at_max_score at_) ∧
    at_integrity_score at_ = 100 * 100 ∧
    (0 ≤ as_duration_minutes a < 2 ^ 27 →
       at_expires_at at_ < at_started_at at_ + as_duration_minutes a * minute + 1000) ∧
    (∀ c, as_closes_at a = Some c → in_calendar c → at_expires_at at_ ≤ c) ∧
    (∀ i r, attempt_questions db' !! i = Some r ∧ aq_attempt_id r = id →
       ∃ q m, q ∈ paper ∧ num_param marks_limit (pq_Marks q) = Some m ∧ r = new_question id q m) ∧
    (∀ q, q ∈ paper → ∃ i m, num_param marks_limit (pq_Marks q) = Some m
       ∧ attempt_questions db' !! i = Some (new_question id q m)) ∧
    (∀ i r, aq_attempt_id r ≠ id →
       attempt_questions db' !! i = Some r ↔ attempt_questions db !! i = Some r).
Proof.
  intros He H Hnone Ha Hfresh. pose proof (live_attempt_spec req db) as Hl.
  apply StartAttempt_inv in H as [[E _]|(_ & a' & j & inv & seed & paper & max & k & k' & _ & Ha' & _ & _ & _ & Hp & _ & Hmax & _ & Hat & Hold & Hnew & Hall)];
    [| |done].
  { rewrite E in Hl. destruct Hl as (? & ? & _). congruence. }
  rewrite Ha in Ha'. injection Ha' as <-. set (now := clock e j) in *.
  eexists _, seed, paper, k, k'. split_and!; [exact Hp|exact Hat|done|done|done|exact Hmax|done| | | |exact Hall|].
  - intros Hd. cbn [at_expires_at at_started_at new_attempt].
    assert (Hi : int64 (as_duration_minutes a * minute) = as_duration_minutes a * minute).
    { unfold int64, minute. rewrite Z.mod_small; lia. }
    assert (Hdl : deadline (authored (sa_AssessmentId req) a db) now ≤ now + as_duration_minutes a * minute).
    { unfold deadline. cbn [am_ClosesAt am_DurationMinutes authored assessment_of]. rewrite Hi.
      destruct (parseTimeValue _) as [z|]; [|lia]. destruct (Z.ltb_spec z (now + as_duration_minutes a * minute)); lia. }
    unfold to_micro.
    pose proof (Z.mul_div_le (deadline (authored (sa_AssessmentId req) a db) now) 1000 ltac:(lia)).
    pose proof (Z.mul_succ_div_gt now 1000 ltac:(lia)). lia.
  - intros c Hc Hin. cbn [at_expires_at new_attempt].
    assert (Hdl : deadline (authored (sa_AssessmentId req) a db) now ≤ c).
    { unfold deadline. cbn [am_ClosesAt am_DurationMinutes authored assessment_of].
      rewrite (window_read _ _ Hc Hin).
      assert (second c ≤ c) by (unfold second, nanos; pose proof (Z.mul_div_le c (10 ^ 9) ltac:(lia)); lia).
      destruct (Z.ltb_spec (second c) (now + int64 (as_duration_minutes a * minute))); lia. }
    unfold to_micro.
    pose proof (Z.mul_div_le (deadline (authored (sa_AssessmentId req) a db) now) 1000 ltac:(lia)). lia.
  - intros i r [Hr Hrid]. destruct (Hnew _ _ Hr) as [Hr'|Hr']; [|done]. by destruct (Hfresh _ _ Hr').
  - intros i r Hr. split; [|apply Hold]. intros Hr'.
    destruct (Hnew _ _ Hr') as [?|(q & m & _ & _ & ->)]; [done|]. by destruct Hr.
Qed.
End Start.
