(* ===== verification/Authoring.v ===== *)
(** Authoring and publishing tests
    (services/assessment-service/internal/repository/authoring.go):
    publication and its validation, sections and their question lists, and
    removal.

    [validateForPublish] promises a total for every candidate's paper;
    [validated_paper_total] states when [buildPaper] keeps that promise and
    [pool_drawn_whole] when it does not. *)

From S2P Require Import Prelude GoStrings Float64 Strconv GoTime Grading Store Scoring Attempts Papers.

#[local] Open Scope Z_scope.
#[local] Open Scope repo_scope.

(** ** Validation *)

(** [courseList] *)
Fixpoint course_loop (seen : list string) (ids : list string) : list string :=
  match ids with
  | [] => []
  | id :: t =>
      let id := trim_space id in
      if negb (String.eqb id "") && negb (bool_decide (id ∈ seen))
      then id :: course_loop (id :: seen) t else course_loop seen t
  end.

Definition courseList (ids : option (list string)) : list string :=
  match ids with None => [] | Some ids => course_loop [] ids end.

(** [defaultStr] of bank.go *)
Definition defaultStr (v fallback : string) : string :=
  if String.eqb (trim_space v) "" then fallback else v.

Record tally := { t_total : Z; t_warnings : list string; t_minutes : Z }.

Section Validate.
Context {GF : GoFormat}.

(** The marks one section adds to the total. *)
Definition section_total (s : Section_) (total : Z) : Z + string :=
  let count := Z.of_nat (length (sn_Questions s)) in
  let drawn_marks := int32 (total + int32 (sn_PickCount s * maxInt32 (sn_PickMarks s) 1)) in
  if (0 <? sn_PickCount s) && (0 <? count) then
    if int32 count <? sn_PickCount s
    then inr ("section " +:+ quote_go (sn_Title s) +:+ " draws " +:+ format_int (sn_PickCount s)
              +:+ " questions from a pool of only " +:+ format_int count)
    else inl drawn_marks
  else if 0 <? sn_PickCount s then
    if negb (bool_decide (sn_Kind s = Mcq))
    then inr ("section " +:+ quote_go (sn_Title s) +:+ " can only draw from the bank for MCQ questions")
    else inl drawn_marks
  else if count =? 0 then inr ("section " +:+ quote_go (sn_Title s) +:+ " has no questions")
  else inl (fold_left (λ total q, int32 (total + maxInt32 (qn_Marks q) 1)) (sn_Questions s) total).

Definition section_warnings (s : Section_) : list string :=
  if bool_decide (sn_Kind s = Descriptive)
  then ["section " +:+ quote_go (sn_Title s)
        +:+ " is descriptive — those answers need manual grading before results are final"]
  else [].

(** The loop over the sections. *)
Fixpoint validate_sections (sections : list Section_) (t : tally) : tally + string :=
  match sections with
  | [] => inl t
  | s :: rest =>
      match section_total s (t_total t) with
      | inr msg => inr msg
      | inl total =>
          validate_sections rest
            {| t_total := total; t_warnings := t_warnings t ++ section_warnings s;
               t_minutes := int32 (t_minutes t + sn_DurationMinutes s) |}
      end
  end.

(** [validateForPublish]: the total marks and the warnings, or an error. *)
Definition validateForPublish (a : Assessment) : Z * list string + string :=
  if bool_decide (am_Sections a = []) then inr "cannot publish a test with no sections"
  else
    match validate_sections (am_Sections a) {| t_total := 0; t_warnings := []; t_minutes := 0 |} with
    | inr msg => inr msg
    | inl t =>
        let warnings :=
          if (0 <? t_minutes t) && (am_DurationMinutes a <? t_minutes t)
          then t_warnings t ++ ["section timers add up to " +:+ format_int (t_minutes t)
                                +:+ " min but the test allows " +:+ format_int (am_DurationMinutes a)
                                +:+ " min"]
          else t_warnings t in
        if t_total t <? am_PassingMarks a
        then inr ("passing marks (" +:+ format_int (am_PassingMarks a)
                  +:+ ") exceed the total marks (" +:+ format_int (t_total t) +:+ ")")
        else if String.eqb (am_Purpose a) "hiring" && String.eqb (am_CompanyId a) ""
        then inr "a hiring test must belong to a company"
        else inl (t_total t, warnings)
    end.
End Validate.

(** ** Publishing *)

Record PublishAssessmentRequest := { pb_Id : string; pb_Publish : bool }.
Record PublishAssessmentResponse := {
  pr_Status : string; pr_TotalMarks : Z; pr_Warnings : list string }.

(** The settings of an assessment the code writes after creation. *)
Definition set_status (status : string) (total : Z) (a : AssessmentRow) : AssessmentRow :=
  {| as_company_id := as_company_id a; as_title := as_title a; as_description := as_description a;
     as_purpose := as_purpose a; as_duration_minutes := as_duration_minutes a;
     as_total_marks := total; as_passing_marks := as_passing_marks a;
     as_negative_marking := as_negative_marking a; as_shuffle_questions := as_shuffle_questions a;
     as_shuffle_options := as_shuffle_options a; as_allow_backtrack := as_allow_backtrack a;
     as_lock_forward := as_lock_forward a; as_reveal_results := as_reveal_results a;
     as_proctoring := as_proctoring a; as_status := status; as_opens_at := as_opens_at a;
     as_closes_at := as_closes_at a; as_max_attempts := as_max_attempts a;
     as_course_ids := as_course_ids a; as_created_by := as_created_by a; as_created_at := as_created_at a |}.

(** [UPDATE assessments SET status = ... WHERE id = $1]: whether a row was
    there. *)
Definition update_status (id status : string) (total : AssessmentRow → Z) (db : DB) : bool * DB :=
  (bool_decide (is_Some (assessments db !! id)),
   with_assessments (update_row id (λ a, set_status status (total a) a)) db).

(** [PublishAssessment] *)
Definition PublishAssessment `{!Postgres, !GoFormat} (req : PublishAssessmentRequest)
  : M PublishAssessmentResponse :=
  if negb (pb_Publish req) then
    found <- statement Pool "unpublish assessment" (λ _ db, Some (update_status (pb_Id req) "draft" as_total_marks db)) ;;
    if negb found then fail ErrNotFound
    else ret {| pr_Status := "draft"; pr_TotalMarks := 0; pr_Warnings := [] |}
  else
    a <- GetAssessment (pb_Id req) ;;
    match validateForPublish a with
    | inr msg => fail (ErrMsg msg)
    | inl (total, warnings) =>
        found <- statement Pool "publish assessment"
          (λ _ db, Some (update_status (pb_Id req) "published" (λ _, total) db)) ;;
        if negb found then fail (ErrDB "publish assessment")
        else ret {| pr_Status := "published"; pr_TotalMarks := total; pr_Warnings := warnings |}
    end.

(** [DELETE FROM assessments WHERE id = $1], with the cascades of the schema. *)
Definition delete_assessment (id : string) (db : DB) : DB :=
  let sections := filter (λ kv, se_assessment_id kv.2 = id) (assessment_sections db) in
  let gone := filter (λ kv, at_assessment_id kv.2 = id) (attempts db) in
  let questions := filter (λ kv, is_Some (gone !! aq_attempt_id kv.2)) (attempt_questions db) in
  {| assessments := delete id (assessments db);
     assessment_sections := filter (λ kv, se_assessment_id kv.2 ≠ id) (assessment_sections db);
     section_questions := filter (λ kv, sections !! sq_section_id kv.2 = None) (section_questions db);
     mcq_questions := mcq_questions db; mcq_options := mcq_options db;
     assessment_invites := filter (λ kv, in_assessment_id kv.2 ≠ id) (assessment_invites db);
     attempts := filter (λ kv, at_assessment_id kv.2 ≠ id) (attempts db);
     attempt_questions := filter (λ kv, gone !! aq_attempt_id kv.2 = None) (attempt_questions db);
     attempt_submissions := filter (λ kv, questions !! sb_attempt_question_id kv.2 = None)
                              (attempt_submissions db);
     proctor_events := filter (λ ev, gone !! pe_attempt_id ev = None) (proctor_events db);
     shortlists := filter (λ kv, sl_assessment_id kv.2 ≠ id) (shortlists db);
     shortlist_entries := filter (λ kv, gone !! kv.1.2 = None
         ∧ sl_assessment_id <$> (shortlists db !! kv.1.1) ≠ Some id)
       (shortlist_entries db);
     users := users db; user_courses := user_courses db; problem_titles := problem_titles db;
     companies := companies db; company_members := company_members db |}.

(** [DeleteAssessment] *)
Definition DeleteAssessment (id : string) : M unit :=
  count <- select Pool "count attempts"
    (λ db, Z.of_nat (length (rows_where (λ _ a, String.eqb (at_assessment_id a) id) (attempts db)))) ;;
  if 0 <? count then
    statement Pool "archive assessment"
      (λ _ db, Some (tt, (update_status id "archived" as_total_marks db).2))
  else
    found <- statement Pool "delete assessment"
      (λ _ db, Some (bool_decide (is_Some (assessments db !! id)), delete_assessment id db)) ;;
    if negb found then fail ErrNotFound else ret tt.

(** ** Sections *)

(** A section as the client sends it: its kind is a text. *)
Record SectionInput := {
  si_Id : string;
  si_AssessmentId : string;
  si_Title : string;
  si_Kind : string;
  si_OrderIndex : Z;
  si_DurationMinutes : Z;
  si_CutoffMarks : Z;
  si_PickCount : Z;
  si_PickTopic : string;
  si_PickCourse : string;
  si_PickDifficulty : string;
  si_PickMarks : Z;
  si_PartialCredit : bool;
}.

Definition kind_of_text (s : string) : option QKind :=
  if String.eqb s "mcq" then Some Mcq
  else if String.eqb s "coding" then Some Coding
  else if String.eqb s "descriptive" then Some Descriptive
  else None.

Definition kind_text (k : QKind) : string :=
  match k with Mcq => "mcq" | Coding => "coding" | Descriptive => "descriptive" end.

Definition section_row (s : SectionInput) (assessmentID : string) (kind : QKind) : SectionRow :=
  {| se_assessment_id := assessmentID; se_title := defaultStr (si_Title s) "Section"; se_kind := kind;
     se_order_index := si_OrderIndex s;
     se_duration_minutes := if 0 <? si_DurationMinutes s then Some (si_DurationMinutes s) else None;
     se_cutoff_marks := si_CutoffMarks s;
     se_pick_count := if 0 <? si_PickCount s then Some (si_PickCount s) else None;
     se_pick_topic := si_PickTopic s; se_pick_difficulty := si_PickDifficulty s;
     se_pick_course := si_PickCourse s; se_pick_marks := maxInt32 (si_PickMarks s) 1;
     se_partial_credit := si_PartialCredit s |}.

(** [UpsertSection] *)
Definition UpsertSection (section : option SectionInput) : M string :=
  match section with
  | None => fail (ErrMsg "assessment id is required")
  | Some s =>
      if String.eqb (si_AssessmentId s) "" then fail (ErrMsg "assessment id is required")
      else
        match kind_of_text (si_Kind s) with
        | None => fail (ErrMsg "section kind must be mcq, coding or descriptive")
        | Some kind =>
            if String.eqb (si_Id s) "" then
              statement Pool "insert section"
                (λ st db,
                   let id := st_id st 0 in
                   if bool_decide (assessment_sections db !! id = None)
                      && bool_decide (is_Some (assessments db !! si_AssessmentId s))
                   then Some (id, with_sections (<[id := section_row s (si_AssessmentId s) kind]>) db)
                   else None)
            else
              found <- statement Pool "update section"
                (λ _ db, Some (bool_decide (is_Some (assessment_sections db !! si_Id s)),
                   with_sections (update_row (si_Id s) (λ old, section_row s (se_assessment_id old) kind)) db)) ;;
              if negb found then fail ErrNotFound else ret (si_Id s)
        end
  end.

(** [DeleteSection]; its question list goes with it. *)
Definition DeleteSection (id : string) : M unit :=
  found <- statement Pool "delete section"
    (λ _ db, Some (bool_decide (is_Some (assessment_sections db !! id)),
       with_sections (delete id)
         (with_question_lists (filter (λ kv, sq_section_id kv.2 ≠ id)) db))) ;;
  if negb found then fail ErrNotFound else ret tt.

(** ** Question lists *)

Record SetSectionQuestionsRequest := { ss_SectionId : string; ss_Questions : list SectionQuestion }.

(** The first question whose reference does not fit the section's kind. *)
Fixpoint misplaced (kind : QKind) (i : Z) (qs : list SectionQuestion) : option string :=
  match qs with
  | [] => None
  | q :: t =>
      if bool_decide (kind = Coding) then
        if String.eqb (qn_ProblemId q) ""
        then Some ("question " +:+ format_int (i + 1) +:+ ": a coding section needs a problem id")
        else misplaced kind (i + 1) t
      else if String.eqb (qn_McqQuestionId q) ""
      then Some ("question " +:+ format_int (i + 1) +:+ ": a " +:+ kind_text kind
                 +:+ " section needs a bank question id")
      else misplaced kind (i + 1) t
  end.

(** The question ids that belong to another company. *)
Definition foreign_count (company : string) (ids : list string) (db : DB) : Z :=
  Z.of_nat (length (rows_where
    (λ id m, bool_decide (id ∈ ids)
             && match mq_company_id m with Some c => negb (String.eqb c company) | None => false end)
    (mcq_questions db))).

Definition listed_row (sectionID : string) (i : Z) (q : SectionQuestion) : SectionQuestionRow :=
  {| sq_section_id := sectionID; sq_mcq_question_id := nullable (qn_McqQuestionId q);
     sq_problem_id := nullable (qn_ProblemId q); sq_marks := maxInt32 (qn_Marks q) 1;
     sq_order_index := i |}.

(** The insert needs the section, exactly one reference, and the bank question
    it names. *)
Definition insert_listed (sectionID : string) (i : Z) (q : SectionQuestion) (st : Stamp) (db : DB)
  : option (unit * DB) :=
  let id := st_id st 0 in
  if bool_decide (section_questions db !! id = None)
     && bool_decide (is_Some (assessment_sections db !! sectionID))
     && xorb (String.eqb (qn_McqQuestionId q) "") (String.eqb (qn_ProblemId q) "")
     && (String.eqb (qn_McqQuestionId q) ""
         || bool_decide (is_Some (mcq_questions db !! qn_McqQuestionId q)))
  then Some (tt, with_question_lists (<[id := listed_row sectionID i q]>) db)
  else None.

Fixpoint insert_list (sectionID : string) (i : Z) (qs : list SectionQuestion) : M unit :=
  match qs with
  | [] => ret tt
  | q :: t =>
      statement Tx ("insert section question " +:+ format_int (i + 1)) (insert_listed sectionID i q) ;;
      insert_list sectionID (i + 1) t
  end.

(** The kind of a section and the company its test belongs to. *)
Definition section_owner (id : string) (db : DB) : option (QKind * option string) :=
  match assessment_sections db !! id with
  | Some s =>
      match assessments db !! se_assessment_id s with
      | Some a => Some (se_kind s, as_company_id a)
      | None => None
      end
  | None => None
  end.

(** [SetSectionQuestions] *)
Definition SetSectionQuestions (req : SetSectionQuestionsRequest) : M unit :=
  owner <- select Pool "lookup section kind" (section_owner (ss_SectionId req)) ;;
  match owner with
  | None => fail ErrNotFound
  | Some (kind, company) =>
      let ids := filter (λ id, id ≠ "") (map qn_McqQuestionId (ss_Questions req)) in
      (match company with
       | Some c =>
           if bool_decide (ids = []) then ret tt
           else
             foreign <- select Pool "check question ownership" (foreign_count c ids) ;;
             if 0 <? foreign
             then fail (ErrMsg (format_int foreign +:+ " question(s) belong to another company's bank"))
             else ret tt
       | None => ret tt
       end) ;;
      match misplaced kind 0 (ss_Questions req) with
      | Some msg => fail (ErrMsg msg)
      | None =>
          transaction "begin set section questions" "commit set section questions"
            (statement Tx "clear section questions"
               (λ _ db, Some (tt, with_question_lists
                          (filter (λ kv, sq_section_id kv.2 ≠ ss_SectionId req)) db)) ;;
             insert_list (ss_SectionId req) 0 (ss_Questions req))
      end
  end.

(** ** Totals *)

Definition sum_Z (l : list Z) : Z := foldr Z.add 0 l.

(** Marks that are whole numbers, at least one each, adding up to [z]. *)
Definition whole (l : list float64) (z : Z) : Prop :=
  ∃ zs, l = map of_Z zs ∧ Forall (λ m, 1 ≤ m) zs ∧ sum_Z zs = z.

Lemma sum_Z_app l k : sum_Z (l ++ k) = sum_Z l + sum_Z k.
Proof. induction l as [|z l IH]; simpl; [done|]. lia. Qed.

#[export] Instance sum_Z_perm : Proper ((≡ₚ) ==> (=)) sum_Z.
Proof. intros l k. induction 1; simpl; lia. Qed.

Lemma sum_Z_pos l : Forall (λ m, 1 ≤ m) l → Z.of_nat (length l) ≤ sum_Z l.
Proof. induction 1; simpl; lia. Qed.

Lemma whole_perm l k z : l ≡ₚ k → whole k z → whole l z.
Proof.
  intros HP (zs & -> & H1 & <-). apply Permutation_map_inv in HP as (ys & -> & HP).
  exists ys. split_and!; [done|by rewrite <- HP|by rewrite <- HP].
Qed.

Lemma whole_app l k y z : whole l y → whole k z → whole (l ++ k) (y + z).
Proof.
  intros (ys & -> & Hy & <-) (zs & -> & Hz & <-). exists (ys ++ zs).
  rewrite map_app, sum_Z_app. split_and!; [done| |done]. by apply Forall_app.
Qed.

Lemma whole_const {A} (l : list A) m : 1 ≤ m →
  whole (map (λ _, of_Z m) l) (Z.of_nat (length l) * m).
Proof.
  intros Hm. exists (map (λ _, m) l). rewrite map_map. split_and!; [done| |].
  - by apply Forall_map, Forall_forall.
  - induction l as [|x l IH]; simpl length; [done|]. simpl sum_Z. lia.
Qed.

Lemma whole_sum l z : whole l z → z ≤ 2 ^ 53 → fold_left fadd l float_zero = of_Z z.
Proof.
  intros (zs & -> & Hz & <-) Hb.
  assert (H : ∀ acc, 0 ≤ acc → acc + sum_Z zs ≤ 2 ^ 53 →
    fold_left fadd (map of_Z zs) (of_Z acc) = of_Z (acc + sum_Z zs)).
  { clear Hb. induction Hz as [|m zs Hm Hz IH]; intros acc Hacc Hb; simpl in *; [by rewrite Z.add_0_r|].
    pose proof (sum_Z_pos _ Hz). rewrite fadd_of_Z by lia. rewrite IH by lia. f_equal. lia. }
  apply (H 0); lia.
Qed.

Lemma maxInt32_max a b : maxInt32 a b = Z.max a b.
Proof. unfold maxInt32. destruct (Z.ltb_spec b a); lia. Qed.

(** The marks a section adds up to, without wrap-around. *)
Definition section_marks (s : Section_) : Z :=
  if 0 <? sn_PickCount s then sn_PickCount s * Z.max (sn_PickMarks s) 1
  else sum_Z (map (λ q, Z.max (qn_Marks q) 1) (sn_Questions s)).

Definition total_marks (a : Assessment) : Z := sum_Z (map section_marks (am_Sections a)).

(** A section that draws its whole list gives every question the section's
    marks. *)
Definition equal_weight (s : Section_) : Prop :=
  sn_PickCount s = Z.of_nat (length (sn_Questions s)) →
  ∀ q, q ∈ sn_Questions s → Z.max (qn_Marks q) 1 = Z.max (sn_PickMarks s) 1.

Lemma int32_id z : 0 ≤ z < 2 ^ 31 → int32 z = z.
Proof. intros Hz. unfold int32. rewrite Z.mod_small; lia. Qed.

Section Totals.
Context {GF : GoFormat}.

Lemma section_marks_nonneg s : 0 ≤ section_marks s.
Proof.
  unfold section_marks. destruct (Z.ltb_spec 0 (sn_PickCount s)); [lia|].
  etrans; [|apply sum_Z_pos, Forall_map, Forall_forall]; [lia|]. intros q _. lia.
Qed.

Lemma section_total_exact s total total' :
  section_total s total = inl total' → 0 ≤ total → total + section_marks s < 2 ^ 31 →
  total' = total + section_marks s ∧
  (sn_Questions s = [] → sn_Kind s = Mcq ∧ 0 < sn_PickCount s) ∧
  (0 < sn_PickCount s → sn_Questions s ≠ [] →
     int32 (Z.of_nat (length (sn_Questions s))) < sn_PickCount s → False).
Proof.
  unfold section_total, section_marks. rewrite maxInt32_max. intros H Ht Hb.
  destruct (Z.ltb_spec 0 (sn_PickCount s)) as [Hp|Hp]; cbn [andb] in H.
  - assert (Hd : int32 (total + int32 (sn_PickCount s * Z.max (sn_PickMarks s) 1))
                 = total + sn_PickCount s * Z.max (sn_PickMarks s) 1).
    { rewrite (int32_id (_ * _)) by nia. by rewrite int32_id by nia. }
    destruct (sn_Questions s) as [|q qs] eqn:Eq; simpl length in H.
    + destruct (Z.ltb_spec 0 (Z.of_nat 0)); [lia|]. case_bool_decide as Hk; [|done]. cbn in H.
      injection H as <-. split_and!; [done|done|done].
    + destruct (Z.ltb_spec 0 (Z.of_nat (S (length qs)))); [|lia].
      destruct (Z.ltb_spec (int32 (Z.of_nat (S (length qs)))) (sn_PickCount s)) as [|Hle]; [done|].
      injection H as <-. split_and!; [done|done|]. intros _ _ Hlt. simpl length in Hlt. lia.
  - destruct (sn_Questions s) as [|q0 qs0] eqn:Eq; [done|]. rewrite <- Eq in *.
    destruct (Z.eqb_spec (Z.of_nat (length (sn_Questions s))) 0) as [E|_]; [by rewrite Eq in E|].
    injection H as <-. split_and!; [|by rewrite Eq|lia]. clear Eq.
    revert total Ht Hb. induction (sn_Questions s) as [|q qs IH]; intros total Ht Hb; simpl in *; [lia|].
    assert (0 ≤ sum_Z (map (λ q, Z.max (qn_Marks q) 1) qs)).
    { etrans; [|apply sum_Z_pos, Forall_map, Forall_forall]; [lia|]. intros x _. lia. }
    rewrite maxInt32_max, int32_id by lia. rewrite IH by lia. lia.
Qed.

Lemma drawn_whole c db s part :
  drawn c db s part → equal_weight s → sn_PickCount s ≤ Z.of_nat (length (sn_Questions s)) ∨ sn_Questions s = [] →
  (sn_Questions s = [] → sn_Kind s = Mcq ∧ 0 < sn_PickCount s) →
  whole (map pq_Marks part) (section_marks s).
Proof.
  intros Hd Heq Hle Hne.
  assert (Hlist : whole (map pq_Marks (map (listed_question s) (sn_Questions s)))
            (sum_Z (map (λ q, Z.max (qn_Marks q) 1) (sn_Questions s)))).
  { exists (map (λ q, Z.max (qn_Marks q) 1) (sn_Questions s)). rewrite !map_map. split_and!; [|..].
    - apply map_ext. intros q. simpl. by rewrite maxInt32_max.
    - apply Forall_map, Forall_forall. intros q _. lia.
    - done. }
  unfold section_marks. destruct Hd as [part Hq Hpick HP|chosen part Hq Hpick Hsub Hlen HP|ids part Hq Hk Hp Hnd Hlen Hm HP|Hq Hn].
  - apply (whole_perm _ (map pq_Marks (map (listed_question s) (sn_Questions s)))); [by rewrite HP|].
    destruct (Z.ltb_spec 0 (sn_PickCount s)) as [Hp|]; [|done].
    assert (E : sn_PickCount s = Z.of_nat (length (sn_Questions s))).
    { destruct Hle as [|?]; [lia|done]. }
    specialize (Heq E). rewrite E.
    assert (Hsame : map (λ q, Z.max (qn_Marks q) 1) (sn_Questions s)
                    = map (λ _, Z.max (sn_PickMarks s) 1) (sn_Questions s)).
    { apply map_ext_in. intros q Hin. apply Heq. by apply list_elem_of_In. }
    rewrite Hsame in Hlist. clear -Hlist. destruct Hlist as (zs & E1 & E2 & E3). exists zs.
    split_and!; [done..|]. rewrite E3. clear. induction (sn_Questions s) as [|q l IH]; [done|].
    simpl length. cbn [map sum_Z foldr]. change (foldr Z.add 0) with sum_Z. rewrite IH. lia.
  - destruct (Z.ltb_spec 0 (sn_PickCount s)) as [_|]; [|lia].
    apply (whole_perm _ (map pq_Marks (map (set_marks (of_Z (maxInt32 (sn_PickMarks s) 1))) chosen)));
      [by rewrite HP|].
    rewrite map_map. simpl. rewrite <- Hlen, maxInt32_max. apply whole_const. lia.
  - destruct (Z.ltb_spec 0 (sn_PickCount s)) as [_|]; [|lia].
    apply (whole_perm _ (map pq_Marks (map (bank_question s) ids))); [by rewrite HP|].
    rewrite map_map. simpl. rewrite <- Hlen, maxInt32_max. apply whole_const. lia.
  - by destruct (Hne Hq) as [? ?]; destruct Hn.
Qed.
End Totals.

Section Published.
Context {GF : GoFormat}.

(** A section a validated test may hold. *)
Definition section_valid (s : Section_) : Prop :=
  (sn_Questions s = [] → sn_Kind s = Mcq ∧ 0 < sn_PickCount s) ∧
  (sn_PickCount s ≤ Z.of_nat (length (sn_Questions s)) ∨ sn_Questions s = []).

Lemma validate_sections_exact sections t t' :
  validate_sections sections t = inl t' → 0 ≤ t_total t →
  t_total t + sum_Z (map section_marks sections) < 2 ^ 31 →
  Forall (λ s, Z.of_nat (length (sn_Questions s)) < 2 ^ 31) sections →
  t_total t' = t_total t + sum_Z (map section_marks sections) ∧ Forall section_valid sections.
Proof.
  revert t. induction sections as [|s rest IH]; intros t H Ht Hb Hlen; cbn [validate_sections] in H.
  { injection H as <-. simpl. split; [lia|constructor]. }
  apply Forall_cons in Hlen as [Hlen Hrest].
  destruct (section_total s (t_total t)) as [total|] eqn:E; [|done].
  assert (Hnn : 0 ≤ sum_Z (map section_marks rest)).
  { clear. induction rest as [|s rest IH]; simpl; [lia|]. pose proof (section_marks_nonneg s). lia. }
  simpl in Hb. pose proof (section_marks_nonneg s).
  apply section_total_exact in E as (-> & Hempty & Hpool); [|done|lia].
  apply IH in H as [-> Hall]; [|simpl; lia..|done]. simpl. split; [lia|]. constructor; [|done].
  split; [done|]. destruct (sn_Questions s) as [|q qs] eqn:Eq; [by right|left]. rewrite <- Eq in *.
  rewrite int32_id in Hpool by lia.
  destruct (Z.le_gt_cases (sn_PickCount s) (Z.of_nat (length (sn_Questions s)))); [done|].
  exfalso. apply Hpool; [lia|congruence|lia].
Qed.

Lemma validateForPublish_exact a total ws :
  validateForPublish a = inl (total, ws) → total_marks a < 2 ^ 31 →
  Forall (λ s, Z.of_nat (length (sn_Questions s)) < 2 ^ 31) (am_Sections a) →
  am_Sections a ≠ [] ∧ total = total_marks a ∧ am_PassingMarks a ≤ total ∧
  Forall section_valid (am_Sections a).
Proof.
  unfold validateForPublish. intros H Hb Hlen. case_bool_decide as Hne; [done|].
  destruct (validate_sections _ _) as [t|] eqn:E; [|done].
  apply validate_sections_exact in E as [Et Hall]; [|simpl; lia|done|done]. cbn [t_total] in Et.
  cbv zeta in H. destruct (Z.ltb_spec (t_total t) (am_PassingMarks a)); [done|].
  destruct (_ && _); [done|]. injection H as <- _. unfold total_marks. split_and!; [done|lia|done|done].
Qed.

Lemma section_marks_pos s : section_valid s → 1 ≤ section_marks s.
Proof.
  intros [Hempty _]. unfold section_marks. destruct (Z.ltb_spec 0 (sn_PickCount s)); [nia|].
  destruct (sn_Questions s) as [|q qs]; [destruct (Hempty eq_refl); lia|].
  etrans; [|apply sum_Z_pos, Forall_map, Forall_forall; intros x _; lia]. simpl. lia.
Qed.

Lemma parts_whole c db sections parts :
  Forall2 (drawn c db) sections parts → Forall section_valid sections → Forall equal_weight sections →
  whole (map pq_Marks (concat parts)) (sum_Z (map section_marks sections)).
Proof.
  induction 1 as [|s part sections parts Hd _ IH]; intros Hv He.
  { exists []. by repeat constructor. }
  apply Forall_cons in Hv as [[Hv1 Hv2] Hv], He as [He1 He]. simpl. rewrite map_app.
  apply whole_app; [by eapply drawn_whole|by apply IH].
Qed.

Lemma marks_of_content l k : map content l = map content k → map pq_Marks l = map pq_Marks k.
Proof.
  intros H. assert (E : ∀ l, map pq_Marks l = map (λ c, c.2) (map content l)).
  { intros x. rewrite map_map. done. }
  by rewrite !E, H.
Qed.

Context {GR : GoRand} {PG : Postgres}.

(** The total [validateForPublish] caches is the maximum of every
    paper: whatever the seed, a paper built for a validated test is not
    empty and its marks add up to exactly that total, which the passing marks
    do not exceed; provided the total fits an int32 and a section drawing its
    whole list weighs its questions equally. *)
Theorem validated_paper_total a total ws seed e n db paper n' db' :
  validateForPublish a = inl (total, ws) → total_marks a < 2 ^ 31 →
  Forall (λ s, Z.of_nat (length (sn_Questions s)) < 2 ^ 31 ∧ equal_weight s) (am_Sections a) →
  undisturbed e → buildPaper a seed e n db = (inl paper, n', db') →
  paper ≠ [] ∧ sum_marks paper = of_Z total ∧ am_PassingMarks a ≤ total.
Proof.
  intros Hv Hb [Hlen Heq]%Forall_and He H.
  apply validateForPublish_exact in Hv as (Hne & -> & Hpass & Hall); [|done..].
  apply buildPaper_inv in H as (_ & _ & (parts & Hparts & Hc) & _); [|done].
  pose proof (parts_whole _ _ _ _ Hparts Hall Heq) as Hw.
  rewrite <- (marks_of_content _ _ Hc) in Hw.
  split_and!; [| |done].
  - intros ->. destruct Hw as (zs & Hz & _ & Hs). destruct zs; [|done]. simpl in Hs.
    destruct (am_Sections a) as [|s rest]; [done|]. apply Forall_cons in Hall as [Hs1 Hrest].
    apply section_marks_pos in Hs1. simpl in Hs.
    assert (0 ≤ sum_Z (map section_marks rest)).
    { clear. induction rest as [|s rest IH]; simpl; [lia|]. pose proof (section_marks_nonneg s). lia. }
    lia.
  - unfold sum_marks. fold (total_marks a) in Hw. rewrite <- (whole_sum _ _ Hw) by lia.
    generalize float_zero. clear. induction paper as [|q paper IH]; intros z; simpl; [done|apply IH].
Qed.
End Published.

(** A section that draws its whole pool: one question worth five marks in a
    section worth one mark each.  Validation caches a total of 1; every paper
    is worth 5. *)
Definition pool_section : Section_ :=
  {| sn_Id := "s"; sn_Title := "Pool"; sn_Kind := Coding; sn_OrderIndex := 0; sn_DurationMinutes := 0;
     sn_CutoffMarks := 0; sn_PickCount := 1; sn_PickTopic := ""; sn_PickDifficulty := "";
     sn_PickCourse := ""; sn_PickMarks := 1; sn_PartialCredit := false;
     sn_Questions := [{| qn_Id := "q"; qn_McqQuestionId := ""; qn_ProblemId := "p"; qn_Marks := 5 |}] |}.

Definition pool_test : Assessment :=
  {| am_Id := "a"; am_CompanyId := ""; am_Title := "Pool"; am_Description := ""; am_Purpose := "practice";
     am_DurationMinutes := 60; am_TotalMarks := 0; am_PassingMarks := 0; am_NegativeMarking := float_zero;
     am_ShuffleQuestions := false; am_ShuffleOptions := false; am_AllowBacktrack := true;
     am_LockForward := false; am_RevealResults := true;
     am_Proctoring := {| RequireFullscreen := false; TabSwitchLimit := 0; BlockCopyPaste := false;
                         Webcam := false |};
     am_Status := "draft"; am_OpensAt := ""; am_ClosesAt := ""; am_MaxAttempts := 1; am_CourseIds := [];
     am_QuestionCount := 1; am_Sections := [pool_section] |}.

Theorem pool_drawn_whole `{!GoRand, !GoFormat} seed e n db :
  validateForPublish pool_test = inl (1, []) ∧
  ∃ paper, buildPaper pool_test seed e n db = (inl paper, n, db) ∧ sum_marks paper = of_Z 5.
Proof.
  split; [done|]. exists [set_order 0 (listed_question pool_section (hd {| qn_Id := ""; qn_McqQuestionId := "";
    qn_ProblemId := ""; qn_Marks := 0 |} (sn_Questions pool_section)))].
  split; [done|by vm_compute].
Qed.

(** ** What publishing, deleting and listing change *)

Section Effects.
Context {PG : Postgres} {GF : GoFormat}.

Lemma update_status_found id status total db db' :
  Some (update_status id status total db) = Some (true, db') →
  ∃ a, assessments db !! id = Some a ∧
    db' = with_assessments (<[id := set_status status (total a) a]>) db.
Proof.
  unfold update_status. intros [= H <-]. apply bool_decide_eq_true in H as [a Ha]. exists a.
  split; [done|]. unfold with_assessments. f_equal. unfold update_row. apply map_eq. intros k.
  destruct (decide (k = id)) as [->|Hne].
  - by rewrite lookup_alter_eq, Ha, lookup_insert_eq.
  - by rewrite lookup_alter_ne, lookup_insert_ne.
Qed.

(** Publishing succeeds only for a test that passes
    [validateForPublish] as it then stands, and it stores exactly the total
    and answers exactly the warnings validation gave; unpublishing returns it
    to draft.  No other row of the database changes. *)
Theorem PublishAssessment_validated req e n db resp n' db' :
  undisturbed e → PublishAssessment req e n db = (inl resp, n', db') →
  ∃ a, assessments db !! pb_Id req = Some a ∧
    (pb_Publish req = true →
       validateForPublish (authored (pb_Id req) a db) = inl (pr_TotalMarks resp, pr_Warnings resp)) ∧
    pr_Status resp = (if pb_Publish req then "published" else "draft") ∧
    db' = with_assessments
            (<[pb_Id req := set_status (pr_Status resp)
                 (if pb_Publish req then pr_TotalMarks resp else as_total_marks a) a]>) db.
Proof.
  intros He H. pose proof He as [_ Hi]. unfold PublishAssessment in H.
  destruct (pb_Publish req); cbn [negb] in H.
  - run_bind H a0 n1 db1 Hm. apply GetAssessment_inv in Hm as (_ & -> & a & Ha & ->); [|done].
    destruct (validateForPublish _) as [[total ws]|msg] eqn:Ev; [|done].
    run_bind H found n2 db2 Hm. run_stmt Hm. rewrite Hi in Hm.
    destruct found; [|done]. injection H as <- _ <-.
    apply update_status_found in Hm as (a' & Ha' & ->).
    rewrite Ha in Ha'. injection Ha' as <-. exists a. done.
  - run_bind H found n2 db2 Hm. run_stmt Hm. rewrite Hi in Hm.
    destruct found; [|done]. injection H as <- _ <-.
    apply update_status_found in Hm as (a' & Ha' & ->). exists a'. done.
Qed.

(** Removing a test never removes a result: whether it
    is archived or deleted, every attempt, question, submission and proctoring
    event of the database stays as it was. *)
Theorem DeleteAssessment_keeps_results id e n db n' db' :
  undisturbed e → DeleteAssessment id e n db = (inl tt, n', db') →
  attempts db' = attempts db ∧ attempt_questions db' = attempt_questions db ∧
  attempt_submissions db' = attempt_submissions db ∧ proctor_events db' = proctor_events db ∧
  ((∃ k a, attempts db !! k = Some a ∧ at_assessment_id a = id) →
     ∀ a, assessments db !! id = Some a → ∃ a', assessments db' !! id = Some a' ∧ as_status a' = "archived").
Proof.
  intros He H. pose proof He as [_ Hi]. run_bind H c n1 db1 Hm. run_read Hm. rewrite Hi in H.
  set (mine := rows_where _ (attempts db)) in H.
  assert (Hmine : ∀ k a, (k, a) ∈ mine ↔ attempts db !! k = Some a ∧ at_assessment_id a = id).
  { intros k a. unfold mine. by rewrite elem_rows_where, String.eqb_eq. }
  destruct (Z.ltb_spec 0 (Z.of_nat (length mine))) as [Hpos|Hz].
  - run_stmt H. rewrite Hi in H. injection H as <-. split_and!; try done.
    intros _ a Ha. cbn. unfold update_row. rewrite lookup_alter_eq, Ha. eauto.
  - assert (Hnone : ∀ k a, attempts db !! k = Some a → at_assessment_id a ≠ id).
    { intros k a Ha E. assert (Hin : (k, a) ∈ mine) by by apply Hmine.
      destruct mine; [by apply elem_of_nil in Hin|simpl in Hz; lia]. }
    run_bind H found n2 db2 Hm. run_stmt Hm. rewrite Hi in Hm. injection Hm as <- <-.
    destruct (negb _); [done|]. injection H as _ <-.
    assert (Hgone : filter (λ kv : string * AttemptRow, at_assessment_id kv.2 = id) (attempts db) = ∅).
    { apply map_empty. intros k. rewrite map_lookup_filter_None. right. intros a Ha. by apply (Hnone k). }
    unfold delete_assessment. cbn. rewrite Hgone.
    assert (Hq : filter (λ kv : string * QuestionRow, is_Some ((∅ : gmap string AttemptRow) !! aq_attempt_id kv.2))
                   (attempt_questions db) = ∅).
    { apply map_empty. intros k. rewrite map_lookup_filter_None. right. intros q _. simpl.
      rewrite lookup_empty. by apply is_Some_None. }
    rewrite Hq. split_and!.
    + apply map_filter_id. intros k a Ha. by apply (Hnone k).
    + apply map_filter_id. intros k q _. apply lookup_empty.
    + apply map_filter_id. intros k q _. apply lookup_empty.
    + rewrite <- (app_nil_r (proctor_events db)) at 2. clear.
      induction (proctor_events db) as [|ev l IH]; [done|]. by rewrite filter_cons_True, IH by apply lookup_empty.
    + intros (k & a & Ha & E). by destruct (Hnone _ _ Ha).
Qed.
End Effects.

(** ** Question lists read back as saved *)

Section Lists.
Context {PG : Postgres}.

Definition in_section (sid : string) (_ : string) (q : SectionQuestionRow) : bool :=
  String.eqb (sq_section_id q) sid.

(** The rows a list becomes, numbered from [i]. *)
Fixpoint listed_rows (sid : string) (i : Z) (qs : list SectionQuestion) : list SectionQuestionRow :=
  match qs with
  | [] => []
  | q :: t => listed_row sid i q :: listed_rows sid (i + 1) t
  end.

Lemma insert_list_inv sid qs e : ∀ i n db u n' db',
  insert_list sid i qs e n db = (inl u, n', db') →
  map snd (rows_where (in_section sid) (section_questions db'))
    ≡ₚ map snd (rows_where (in_section sid) (section_questions db)) ++ listed_rows sid i qs ∧
  (∀ k r, sq_section_id r ≠ sid →
     section_questions db' !! k = Some r ↔ section_questions db !! k = Some r) ∧
  db' = with_question_lists (λ _, section_questions db') db ∧
  Forall (λ q, (qn_McqQuestionId q = "" ↔ qn_ProblemId q ≠ "") ∧
               (qn_McqQuestionId q ≠ "" → is_Some (mcq_questions db !! qn_McqQuestionId q))) qs.
Proof.
  induction qs as [|q qs IH]; intros i n db u n' db' H; simpl in H.
  { injection H as _ _ <-. rewrite app_nil_r. split_and!; try done. by destruct db. }
  run_bind H u1 n1 db1 Hm. run_stmt Hm. unfold insert_listed in Hm.
  destruct (_ && _) eqn:E in Hm; [|done]. bool_to_prop. injection Hm as _ <-.
  set (id := st_id _ 0) in *. apply IH in H as (HP & Hoth & Hdb & Hall). cbn in HP, Hoth, Hall.
  split_and!.
  - rewrite HP, rows_where_insert by done.
    unfold in_section at 1. cbn [listed_row sq_section_id]. rewrite String.eqb_refl. simpl.
    by rewrite Permutation_middle.
  - intros k r Hr. rewrite (Hoth k r Hr). destruct (decide (k = id)) as [->|Hne].
    + rewrite lookup_insert_eq. split; [|congruence]. intros [= <-]. by destruct Hr.
    + by rewrite lookup_insert_ne.
  - rewrite Hdb. by destruct db.
  - constructor; [|exact Hall].
    destruct (String.eqb_spec (qn_McqQuestionId q) "") as [E|E], (String.eqb_spec (qn_ProblemId q) "") as [E'|E'];
      try done; split; try done.
    intros _. apply orb_true_iff in H1 as [H1|H1]; [done|]. by apply bool_decide_eq_true in H1.
Qed.

(** A listed question as [loadSections] reads it back. *)
Definition reference (q : SectionQuestion) := (qn_McqQuestionId q, qn_ProblemId q, qn_Marks q).

Definition stored (q : SectionQuestion) := (qn_McqQuestionId q, qn_ProblemId q, Z.max (qn_Marks q) 1).

Lemma derefStr_nullable s : derefStr (nullable s) = s.
Proof. unfold nullable. by destruct (String.eqb_spec s "") as [->|]. Qed.

Definition row_reference (r : SectionQuestionRow) :=
  (derefStr (sq_mcq_question_id r), derefStr (sq_problem_id r), sq_marks r).

Lemma listed_rows_order sid i qs : map sq_order_index (listed_rows sid i qs) = seqZ i (Z.of_nat (length qs)).
Proof.
  revert i. induction qs as [|q qs IH]; intros i; [done|]. cbn [listed_rows map length].
  rewrite IH, (seqZ_cons i) by lia. f_equal. f_equal; lia.
Qed.

Lemma listed_rows_reference sid i qs : map row_reference (listed_rows sid i qs) = map stored qs.
Proof.
  revert i. induction qs as [|q qs IH]; intros i; [done|]. cbn [listed_rows map].
  rewrite IH. f_equal. unfold row_reference, stored. simpl.
  by rewrite !derefStr_nullable, maxInt32_max.
Qed.

(** Two lists of rows with the same elements, both in increasing order of an
    index that tells them apart, are equal. *)
Lemma sorted_rows_eq {A} (key : A → Z) (l k : list A) :
  l ≡ₚ k → StronglySorted Z.le (map key l) → StronglySorted Z.lt (map key k) → l = k.
Proof.
  revert k. induction l as [|x l IH]; intros k HP Hl Hk.
  { symmetry in HP. by apply Permutation_nil_r in HP as ->. }
  destruct k as [|y k]; [by apply Permutation_nil_r in HP|]. simpl in Hl, Hk.
  apply StronglySorted_inv in Hl as [Hl1 Hl2], Hk as [Hk1 Hk2].
  rewrite Forall_map, Forall_forall in Hl2, Hk2.
  assert (x = y) as ->.
  { assert (Hx : x ∈ y :: k) by (rewrite <- HP; constructor).
    assert (Hy : y ∈ x :: l) by (rewrite HP; constructor).
    apply elem_of_cons in Hx as [|Hx]; [done|]. apply elem_of_cons in Hy as [|Hy]; [done|].
    specialize (Hl2 _ Hy). specialize (Hk2 _ Hx). simpl in *. lia. }
  f_equal. apply IH; [by apply Permutation_cons_inv in HP|done|done].
Qed.

Lemma seqZ_sorted m n : StronglySorted Z.lt (seqZ m n).
Proof.
  destruct (Z.le_gt_cases n 0) as [Hn|Hn]; [rewrite seqZ_nil by done; constructor|].
  rewrite <- (Z2Nat.id n) by lia. generalize (Z.to_nat n). clear Hn n. intros n. revert m.
  induction n as [|n IH]; intros m; [constructor|]. rewrite seqZ_cons by lia.
  replace (Z.pred (Z.of_nat (S n))) with (Z.of_nat n) by lia. constructor; [apply IH|].
  apply Forall_forall. intros x Hx%elem_of_seqZ. lia.
Qed.

(** Only owner and kind of the section, and nobody else's questions. *)
Lemma foreign_none c ids db :
  foreign_count c ids db ≤ 0 → ∀ id m, id ∈ ids → mcq_questions db !! id = Some m →
  mq_company_id m = None ∨ mq_company_id m = Some c.
Proof.
  unfold foreign_count. intros H id m Hid Hm.
  destruct (mq_company_id m) as [c'|] eqn:Ec; [right|by left].
  destruct (String.eqb_spec c' c) as [->|Hne]; [done|]. exfalso.
  set (rows := rows_where _ _) in H. assert (Hin : (id, m) ∈ rows).
  { apply elem_rows_where. split; [done|]. rewrite Ec, (proj2 (String.eqb_neq _ _)) by done.
    by rewrite bool_decide_true. }
  destruct rows; [by apply elem_of_nil in Hin|simpl in H; lia].
Qed.

(** What the builder saves is what it loads: after a
    successful save the section's list reads back as the saved questions, in
    the saved order, with marks of at least one; each question names exactly
    one of a bank question and a problem; a company's test lists only its own
    and the platform's questions; and the lists of other sections are
    untouched. *)
Theorem SetSectionQuestions_roundtrip req e n db n' db' :
  undisturbed e → SetSectionQuestions req e n db = (inl tt, n', db') →
  let sid := ss_SectionId req in
  map reference (questions_of_section sid db') = map stored (ss_Questions req) ∧
  (∀ other, other ≠ sid → ∀ k r, sq_section_id r = other →
     section_questions db' !! k = Some r ↔ section_questions db !! k = Some r) ∧
  ∃ kind company, section_owner sid db = Some (kind, company) ∧
    Forall (λ q, (qn_McqQuestionId q = "" ↔ qn_ProblemId q ≠ "") ∧
                 (kind = Coding ↔ qn_ProblemId q ≠ "") ∧
                 (∀ c m, company = Some c → mcq_questions db !! qn_McqQuestionId q = Some m →
                    qn_McqQuestionId q ≠ "" → mq_company_id m = None ∨ mq_company_id m = Some c))
      (ss_Questions req).
Proof.
  intros He H sid. pose proof He as [_ Hi]. run_bind H owner n1 db1 Hm. run_read Hm. rewrite Hi in *.
  destruct (section_owner _ db) as [[kind company]|] eqn:Eo; [|done].
  run_bind H u n2 db2 Hown.
  assert (Hforeign : db2 = db ∧ ∀ c q m, company = Some c → q ∈ ss_Questions req →
    mcq_questions db !! qn_McqQuestionId q = Some m → qn_McqQuestionId q ≠ "" →
    mq_company_id m = None ∨ mq_company_id m = Some c).
  { assert (Hids : ∀ q, q ∈ ss_Questions req → qn_McqQuestionId q ≠ "" →
      qn_McqQuestionId q ∈ filter (λ id, id ≠ "") (map qn_McqQuestionId (ss_Questions req))).
    { intros q Hq Hne. apply list_elem_of_filter. split; [done|]. apply list_elem_of_fmap. eauto. }
    destruct company as [c0|]; [|by injection Hown as _ _ <-].
    case_bool_decide as Hnil.
    { injection Hown as _ _ <-. split; [done|]. intros c q m _ Hq _ Hne.
      specialize (Hids _ Hq Hne). rewrite Hnil in Hids. by apply elem_of_nil in Hids. }
    run_bind Hown f n3 db3 Hm. run_read Hm. rewrite Hi in Hown.
    destruct (Z.ltb_spec 0 (foreign_count c0 (filter (λ id, id ≠ "") (map qn_McqQuestionId (ss_Questions req))) db)) as [|Hle];
      [done|].
    injection Hown as _ _ <-. split; [done|]. intros c q m [= <-] Hq Hm Hne.
    eapply foreign_none; [exact Hle|by apply Hids|done]. }
  destruct Hforeign as [-> Hforeign]. destruct (misplaced kind 0 _) eqn:Emis; [done|].
  apply transaction_inv in H as (n4 & -> & H). rewrite Hi in H.
  run_bind H u2 n5 db5 Hm. run_stmt Hm. injection Hm as _ <-.
  apply insert_list_inv in H as (HP & Hoth & _ & Hall). cbn in HP, Hoth, Hall.
  assert (Hclear : rows_where (in_section sid) (filter (λ kv, sq_section_id kv.2 ≠ sid) (section_questions db)) = []).
  { apply elem_of_nil_inv. intros [k r] Hin.
    apply elem_rows_where in Hin as [Hk Hs]. apply map_lookup_filter_Some in Hk as [_ Hk].
    apply String.eqb_eq in Hs. by destruct Hk. }
  fold sid in HP. rewrite Hclear in HP. simpl in HP. split_and!.
  - unfold questions_of_section. rewrite map_map. fold sid. cbn [qn_Id qn_McqQuestionId qn_ProblemId qn_Marks].
    set (rows := order_by _ _).
    assert (Hsort : map snd rows = listed_rows sid 0 (ss_Questions req)).
    { apply (sorted_rows_eq sq_order_index).
      - unfold rows. rewrite (order_by_perm _ _). exact HP.
      - unfold rows. rewrite map_map. apply (order_by_sorted (λ row : string * SectionQuestionRow, sq_order_index row.2)).
      - rewrite listed_rows_order. apply seqZ_sorted. }
    rewrite <- (listed_rows_reference sid 0), <- Hsort, map_map. done.
  - intros other Hne k r Hr. rewrite (Hoth k r) by (rewrite Hr; done).
    rewrite map_lookup_filter_Some. split; [by intros [? _]|]. intros Hk. split; [done|].
    simpl. by rewrite Hr.
  - exists kind, company. split; [done|]. clear -Hall Hforeign Emis. revert Emis Hforeign. generalize 0.
    induction Hall as [|q qs [Hq1 Hq2] Hall IH]; intros i Emis Hforeign; constructor.
    + split_and!; [done| |].
      * cbn [misplaced] in Emis. case_bool_decide as Hk.
        -- destruct (String.eqb_spec (qn_ProblemId q) ""); [done|]. by split.
        -- destruct (String.eqb_spec (qn_McqQuestionId q) ""); [done|]. split; [done|]. intros Hp.
           by rewrite <- Hq1 in Hp.
      * intros c m Hc Hm Hne. eapply Hforeign; [done|constructor|done|done].
    + apply (IH (i + 1)).
      * cbn [misplaced] in Emis. case_bool_decide; by destruct (String.eqb _ "") in Emis.
      * intros c q' m Hc Hin. apply Hforeign; [done|by constructor].
Qed.
End Lists.
