(* ===== verification/Results.v ===== *)
(** Shortlists (services/assessment-service/internal/repository/results.go).

    [ComputeShortlist] ranks the finished attempts of a test that meet the
    recruiter's criteria and, when asked to, stores the ranking;
    [SetCandidateDecision] records what is decided about one of them. *)

From S2P Require Import Prelude GoStrings Float64 Strconv GoTime Grading Store Scoring Attempts Authoring.

#[local] Open Scope Z_scope.
#[local] Open Scope repo_scope.

Record ComputeShortlistRequest := {
  cs_AssessmentId : string;
  cs_ActorId : string;
  cs_Name : string;
  cs_Criteria : option ShortlistCriteria;
  cs_Save : bool;
}.

Record ShortlistEntry := {
  en_AttemptId : string;
  en_UserId : string;
  en_UserName : string;
  en_UserEmail : string;
  en_Rank : Z;
  en_Score : float64;
  en_MaxScore : float64;
  en_Percent : float64;
  en_Integrity : float64;
  en_Decision : string;
  en_Notes : string;
}.

Record Shortlist := {
  sh_Id : string;
  sh_AssessmentId : string;
  sh_Name : string;
  sh_Criteria : ShortlistCriteria;
  sh_CreatedBy : string;
  sh_CreatedAt : string;
  sh_Entries : list ShortlistEntry;
  sh_Total : Z;
}.

Definition no_criteria : ShortlistCriteria :=
  {| MinScorePercent := float_zero; SectionCutoffs := ∅; MinIntegrity := float_zero; TopN := 0;
     ExcludeFlagged := false |}.

(** [meetsCriteria] *)
Definition meetsCriteria (s : AttemptSummary) (c : ShortlistCriteria) : bool :=
  if ExcludeFlagged c
     && (bool_decide (sm_Status s = Disqualified) || fltb (sm_IntegrityScore s) (of_Z 100)) then false
  else if fltb float_zero (MinScorePercent c) && fltb (sm_Percent s) (MinScorePercent c) then false
  else if fltb float_zero (MinIntegrity c) && fltb (sm_IntegrityScore s) (MinIntegrity c) then false
  else forallb (λ kv : string * float64,
                  negb (fltb (default float_zero (sm_SectionScores s !! kv.1)) kv.2))
         (map_to_list (SectionCutoffs c)).

(** The comparison of the ranking: score, then integrity, then the text of the
    submission time. *)
Definition ranks_before (a b : AttemptSummary) : bool :=
  if negb (feqb (sm_Score a) (sm_Score b)) then fltb (sm_Score b) (sm_Score a)
  else if negb (feqb (sm_IntegrityScore a) (sm_IntegrityScore b))
  then fltb (sm_IntegrityScore b) (sm_IntegrityScore a)
  else str_less (sm_SubmittedAt a) (sm_SubmittedAt b).

(** [sort.SliceStable]: one goes in front of another unless the other ranks
    strictly before it. *)
Definition keeps_place (a b : AttemptSummary) : bool := negb (ranks_before b a).

Definition entry_of (rank : Z) (s : AttemptSummary) : ShortlistEntry :=
  {| en_AttemptId := sm_Id s; en_UserId := sm_UserId s; en_UserName := sm_UserName s;
     en_UserEmail := sm_UserEmail s; en_Rank := rank; en_Score := sm_Score s;
     en_MaxScore := sm_MaxScore s; en_Percent := sm_Percent s; en_Integrity := sm_IntegrityScore s;
     en_Decision := "shortlisted"; en_Notes := "" |}.

Fixpoint entries_from (rank : Z) (l : list AttemptSummary) : list ShortlistEntry :=
  match l with
  | [] => []
  | s :: t => entry_of rank s :: entries_from (rank + 1) t
  end.

Definition top_n (n : Z) (l : list AttemptSummary) : list AttemptSummary :=
  if (0 <? n) && (n <? Z.of_nat (length l)) then firstn (Z.to_nat n) l else l.

Section Shortlists.
Context {PG : Postgres}.

(** The finished attempts of a test, by score. *)
Definition finished (assessmentID : string) : DB → list AttemptSummary :=
  summaries_where
    (λ _ a, String.eqb (at_assessment_id a) assessmentID
            && (bool_decide (at_status a = Evaluated) || bool_decide (at_status a = Disqualified)))
    (λ a b, at_score b <=? at_score a).

Definition shortlist_row (req : ComputeShortlistRequest) (out : Shortlist) (now : Z) : ShortlistRow :=
  {| sl_assessment_id := cs_AssessmentId req; sl_name := sh_Name out; sl_criteria := sh_Criteria out;
     sl_created_by := cs_ActorId req; sl_created_at := to_micro now |}.

Definition insert_shortlist (req : ComputeShortlistRequest) (out : Shortlist) (st : Stamp) (db : DB)
  : option ((string * Z) * DB) :=
  let id := st_id st 0 in
  if bool_decide (shortlists db !! id = None)
     && bool_decide (is_Some (assessments db !! cs_AssessmentId req))
  then Some ((id, to_micro (st_now st)),
             with_shortlists (<[id := shortlist_row req out (st_now st)]>) db)
  else None.

(** The primary key (shortlist_id, attempt_id) and the attempt it names. *)
Definition insert_entry (id : string) (e : ShortlistEntry) (db : DB) : option (unit * DB) :=
  if bool_decide (shortlist_entries db !! (id, en_AttemptId e) = None)
     && bool_decide (is_Some (attempts db !! en_AttemptId e))
  then Some (tt, with_entries (<[(id, en_AttemptId e) :=
         {| le_user_id := en_UserId e; le_rank := en_Rank e; le_decision := "shortlisted";
            le_notes := "" |}]>) db)
  else None.

(** JSON has no infinities and no NaN. *)
Definition marshals (c : ShortlistCriteria) : bool :=
  let ok (x : float64) := match x with S754_zero _ | S754_finite _ _ _ => true | _ => false end in
  ok (MinScorePercent c) && ok (MinIntegrity c)
  && forallb (λ kv : string * float64, ok kv.2) (map_to_list (SectionCutoffs c)).

Definition with_saved (id : string) (created : Z) (actor : string) (s : Shortlist) : Shortlist :=
  {| sh_Id := id; sh_AssessmentId := sh_AssessmentId s; sh_Name := sh_Name s;
     sh_Criteria := sh_Criteria s; sh_CreatedBy := actor; sh_CreatedAt := fmtTime (Some created);
     sh_Entries := sh_Entries s; sh_Total := sh_Total s |}.

(** [saveShortlist] *)
Definition saveShortlist (req : ComputeShortlistRequest) (out : Shortlist) : M Shortlist :=
  if negb (marshals (sh_Criteria out)) then fail (ErrDB "marshal criteria")
  else
    r <- transaction "begin save shortlist" "commit save shortlist"
      (r <- statement Tx "insert shortlist" (insert_shortlist req out) ;;
       mapM_ (λ e, statement Tx "insert shortlist entry" (λ _, insert_entry r.1 e)) (sh_Entries out) ;;
       ret r) ;;
    ret (with_saved r.1 r.2 (cs_ActorId req) out).

(** The ranking before it is stored. *)
Definition ranking (req : ComputeShortlistRequest) (summaries : list AttemptSummary) : Shortlist :=
  let criteria := default no_criteria (cs_Criteria req) in
  let eligible := filter (λ s, meetsCriteria s criteria = true) summaries in
  let eligible := top_n (TopN criteria) (order_by keeps_place eligible) in
  {| sh_Id := ""; sh_AssessmentId := cs_AssessmentId req;
     sh_Name := defaultStr (cs_Name req) "Shortlist"; sh_Criteria := criteria; sh_CreatedBy := "";
     sh_CreatedAt := ""; sh_Entries := entries_from 1 eligible;
     sh_Total := Z.of_nat (length eligible) |}.

(** [ComputeShortlist] *)
Definition ComputeShortlist (req : ComputeShortlistRequest) : M Shortlist :=
  summaries <- select Pool "list attempt summaries" (finished (cs_AssessmentId req)) ;;
  let out := ranking req summaries in
  if negb (cs_Save req) then ret out else saveShortlist req out.

Definition set_decision (decision notes : string) (e : EntryRow) : EntryRow :=
  {| le_user_id := le_user_id e; le_rank := le_rank e; le_decision := decision; le_notes := notes |}.

(** [SetCandidateDecision] *)
Definition SetCandidateDecision (shortlistID attemptID decision notes : string) : M unit :=
  if negb (bool_decide (decision ∈ ["shortlisted"; "rejected"; "on_hold"; "hired"]))
  then fail (ErrMsg "decision must be shortlisted, rejected, on_hold or hired")
  else
    found <- statement Pool "set candidate decision"
      (λ _ db, Some (bool_decide (is_Some (shortlist_entries db !! (shortlistID, attemptID))),
         with_entries (alter (set_decision decision notes) (shortlistID, attemptID)) db)) ;;
    if negb found then fail ErrNotFound else ret tt.
End Shortlists.

(** ** The ranking is an order *)

(** Scores as NUMERIC columns hold them: finite. *)
Definition rankable (s : AttemptSummary) : Prop := fin (sm_Score s) ∧ fin (sm_IntegrityScore s).

(** What [ranks_before a b] being false says of the two. *)
Lemma keeps_place_spec a b : rankable a → rankable b →
  keeps_place a b = true ↔
  sval (sm_Score b) < sval (sm_Score a) ∨
  sval (sm_Score b) = sval (sm_Score a) ∧
  (sval (sm_IntegrityScore b) < sval (sm_IntegrityScore a) ∨
   sval (sm_IntegrityScore b) = sval (sm_IntegrityScore a) ∧ String.le (sm_SubmittedAt a) (sm_SubmittedAt b)).
Proof.
  intros [Ha1 Ha2] [Hb1 Hb2]. unfold keeps_place, ranks_before.
  rewrite !feqb_spec, !fltb_spec, negb_true_iff by done.
  destruct (Z.eqb_spec (sval (sm_Score b)) (sval (sm_Score a))); cbn [negb].
  2: { rewrite Z.ltb_ge. lia. }
  destruct (Z.eqb_spec (sval (sm_IntegrityScore b)) (sval (sm_IntegrityScore a))); cbn [negb].
  2: { rewrite Z.ltb_ge. lia. }
  rewrite str_less_false. naive_solver lia.
Qed.

Lemma keeps_place_total a b : rankable a → rankable b → keeps_place a b = false → keeps_place b a = true.
Proof.
  intros Ha Hb H. apply keeps_place_spec; [done..|].
  apply not_true_iff_false in H. rewrite keeps_place_spec in H by done.
  destruct (Z.lt_trichotomy (sval (sm_Score a)) (sval (sm_Score b))) as [?|[?|?]]; [by left| |tauto].
  destruct (Z.lt_trichotomy (sval (sm_IntegrityScore a)) (sval (sm_IntegrityScore b))) as [?|[?|?]];
    (right; split; [lia|]); [by left| |exfalso; apply H; right; split; [lia|left; lia]].
  right. split; [lia|]. destruct (String.le_total (sm_SubmittedAt a) (sm_SubmittedAt b)); [|done].
  exfalso. apply H. right. split; [lia|]. right. split; [lia|done].
Qed.

Lemma keeps_place_trans a b c : rankable a → rankable b → rankable c →
  keeps_place a b = true → keeps_place b c = true → keeps_place a c = true.
Proof.
  intros Ha Hb Hc H1 H2. apply keeps_place_spec in H1, H2; [|done..]. apply keeps_place_spec; [done..|].
  destruct H1 as [?|[? [?|[? ?]]]], H2 as [?|[? [?|[? ?]]]]; try (left; lia); right; (split; [lia|]);
    try (left; lia). right. split; [lia|]. by etrans.
Qed.

Section ShortlistLemmas.
Context {PG : Postgres}.

Lemma elem_finished aid db s :
  s ∈ finished aid db ↔ ∃ id a asmt, attempts db !! id = Some a ∧ at_assessment_id a = aid ∧
    (at_status a = Evaluated ∨ at_status a = Disqualified) ∧
    assessments db !! aid = Some asmt ∧ s = summary_of db id a asmt.
Proof.
  unfold finished, summaries_where. rewrite list_elem_of_omap. split.
  - intros ([id a] & Hin & H). rewrite (order_by_perm _ _) in Hin. apply elem_rows_where in Hin as [Ha Hp].
    simpl in H. destruct (assessments db !! at_assessment_id a) as [asmt|] eqn:E; [|done]. injection H as <-.
    apply andb_true_iff in Hp as [<-%String.eqb_eq Hp]. exists id, a, asmt. split_and!; try done.
    apply orb_true_iff in Hp as [H%bool_decide_eq_true|H%bool_decide_eq_true]; auto.
  - intros (id & a & asmt & Ha & <- & Hs & Has & ->). exists (id, a). rewrite (order_by_perm _ _). split.
    + apply elem_rows_where. split; [done|]. rewrite String.eqb_refl. simpl. apply orb_true_iff.
      destruct Hs as [->| ->]; [by left|by right].
    + simpl. by rewrite Has.
Qed.

Lemma insert_entries_inv id entries e : ∀ n db u n' db',
  mapM_ (λ x, statement Tx "insert shortlist entry" (λ _, insert_entry id x)) entries e n db = (inl u, n', db') →
  db' = with_entries (λ _, shortlist_entries db') db ∧
  NoDup (map en_AttemptId entries) ∧
  (∀ k, k.1 ≠ id ∨ k.2 ∉ map en_AttemptId entries → shortlist_entries db' !! k = shortlist_entries db !! k) ∧
  (∀ x, x ∈ entries → shortlist_entries db !! (id, en_AttemptId x) = None ∧
     shortlist_entries db' !! (id, en_AttemptId x) =
       Some {| le_user_id := en_UserId x; le_rank := en_Rank x; le_decision := "shortlisted"; le_notes := "" |}).
Proof.
  induction entries as [|x entries IH]; intros n db u n' db' H; simpl in H.
  { injection H as _ _ <-. split_and!; [by destruct db|constructor|done|]. intros x Hx. by apply elem_of_nil in Hx. }
  run_bind H u1 n1 db1 Hm. run_stmt Hm. unfold insert_entry in Hm.
  destruct (_ && _) eqn:E in Hm; [|done]. bool_to_prop. injection Hm as _ <-.
  apply IH in H as (Hdb & Hnd & Hoth & Hall). cbn in Hoth, Hall.
  assert (Hx : en_AttemptId x ∉ map en_AttemptId entries).
  { intros (y & Hy & Hin)%list_elem_of_fmap. destruct (Hall _ Hin) as [Hn _].
    rewrite <- Hy, lookup_insert_eq in Hn. done. }
  split_and!.
  - rewrite Hdb. by destruct db.
  - simpl. by constructor.
  - intros k Hk. rewrite Hoth by (simpl in Hk; set_solver).
    rewrite lookup_insert_ne; [done|]. intros <-. simpl in Hk. destruct Hk as [?|Hk]; [done|]. set_solver.
  - intros y [->|Hy]%elem_of_cons.
    + split; [done|]. rewrite Hoth by by right. by rewrite lookup_insert_eq.
    + destruct (Hall _ Hy) as [Hn Hs]. split; [|done].
      destruct (decide (en_AttemptId y = en_AttemptId x)) as [Ey|Ey].
      * by rewrite Ey, lookup_insert_eq in Hn.
      * rewrite lookup_insert_ne in Hn; [done|congruence].
Qed.

(** What a shortlist of the pool under the criteria is. *)
Definition shortlist_of (c : ShortlistCriteria) (pool : list AttemptSummary) (out : Shortlist) : Prop :=
  ∃ chosen rest,
    chosen ++ rest ≡ₚ filter (λ s, meetsCriteria s c = true) pool ∧
    StronglySorted (λ a b, keeps_place a b = true) (chosen ++ rest) ∧
    sh_Entries out = entries_from 1 chosen ∧ sh_Total out = Z.of_nat (length chosen) ∧
    (rest = [] ∨ 0 < TopN c ∧ Z.of_nat (length chosen) = TopN c).

Lemma ranking_spec req pool :
  Forall rankable pool → shortlist_of (default no_criteria (cs_Criteria req)) pool (ranking req pool).
Proof.
  intros Hall. unfold ranking, shortlist_of. cbn [sh_Entries sh_Total].
  set (c := default no_criteria (cs_Criteria req)). set (el := filter _ pool).
  assert (Hel : Forall rankable el).
  { apply Forall_forall. intros s [_ Hs]%list_elem_of_filter. rewrite Forall_forall in Hall. by apply Hall. }
  set (l := order_by keeps_place el). unfold top_n.
  assert (Hsort : StronglySorted (λ a b, keeps_place a b = true) l).
  { apply (order_by_ordered keeps_place rankable); auto using keeps_place_total.
    intros a b d. apply keeps_place_trans. }
  assert (HP : l ≡ₚ el) by apply order_by_perm.
  destruct (Z.ltb_spec 0 (TopN c)) as [Hn|Hn]; cbn [andb].
  - destruct (Z.ltb_spec (TopN c) (Z.of_nat (length l))) as [Hlt|Hge].
    + exists (firstn (Z.to_nat (TopN c)) l), (skipn (Z.to_nat (TopN c)) l). rewrite take_drop.
      split_and!; try done. right. split; [done|]. rewrite length_take. lia.
    + exists l, []. rewrite app_nil_r. split_and!; try done. by left.
  - exists l, []. rewrite app_nil_r. split_and!; try done. by left.
Qed.

(** C31.  A shortlist ranks, from 1, the finished attempts of its test
    that meet the criteria, and no others: by score, then integrity, then
    earlier submission; when a size is set it is cut to exactly that many,
    and nobody left out ranks before anybody kept.  A preview changes
    nothing. *)
Theorem ComputeShortlist_ranks req e n db out n' db' :
  undisturbed e → ComputeShortlist req e n db = (inl out, n', db') →
  Forall rankable (finished (cs_AssessmentId req) db) →
  shortlist_of (default no_criteria (cs_Criteria req)) (finished (cs_AssessmentId req) db) out ∧
  (∀ s, s ∈ finished (cs_AssessmentId req) db ↔ ∃ id a asmt,
     attempts db !! id = Some a ∧ at_assessment_id a = cs_AssessmentId req ∧
     (at_status a = Evaluated ∨ at_status a = Disqualified) ∧
     assessments db !! cs_AssessmentId req = Some asmt ∧ s = summary_of db id a asmt) ∧
  (cs_Save req = false → db' = db).
Proof.
  intros [_ Hi] H Hall. pose proof (ranking_spec req _ Hall) as Hr.
  run_bind H l n1 db1 Hm. run_read Hm. rewrite Hi in H.
  split_and!; [|intros s; apply elem_finished|].
  - destruct (cs_Save req); cbn [negb] in H; [|by injection H as <- _ _].
    unfold saveShortlist in H. destruct (negb _); [done|]. run_bind H r n2 db2 Ht.
    injection H as <- _ _. exact Hr.
  - intros E. rewrite E in H. by injection H as _ _ <-.
Qed.

(** A saved shortlist is stored whole: under the returned id
    the database holds the criteria and one entry per ranked candidate, with
    the rank the answer shows, undecided; nobody is listed twice, the entries
    of other shortlists stay, and a failing save stores nothing. *)
Theorem ComputeShortlist_saves req e n db r n' db' :
  (∀ k d, interfere e k d = d) → ComputeShortlist req e n db = (r, n', db') →
  match r with
  | inr err => err = ErrDB "commit save shortlist" ∨ db' = db
  | inl out => cs_Save req = true →
      ∃ now, shortlists db !! sh_Id out = None ∧
        db' = with_entries (λ _, shortlist_entries db')
                (with_shortlists (<[sh_Id out := shortlist_row req out now]>) db) ∧
        NoDup (map en_AttemptId (sh_Entries out)) ∧
        (∀ k, k.1 ≠ sh_Id out → shortlist_entries db' !! k = shortlist_entries db !! k) ∧
        ∀ x, x ∈ sh_Entries out → shortlist_entries db' !! (sh_Id out, en_AttemptId x) =
          Some {| le_user_id := en_UserId x; le_rank := en_Rank x; le_decision := "shortlisted"; le_notes := "" |}
  end.
Proof.
  intros Hi H. unfold ComputeShortlist, bind at 1 in H.
  destruct (select _ _ _ e n db) as [[[l|err] n1] db1] eqn:Es; cycle 1.
  { injection H as <- _ <-. right. unfold select, statement in Es. rewrite Hi in Es.
    destruct (fault e n); by injection Es as _ _ <-. }
  apply select_inv in Es as (-> & -> & ->). rewrite Hi in H. cbv zeta in H.
  destruct (cs_Save req); cbn [negb] in H; [|by injection H as <- _ _].
  unfold saveShortlist in H. destruct (negb _); [injection H as <- _ <-; by right|].
  unfold bind at 1 in H. destruct (transaction _ _ _ e _ _) as [[[p|err] n2] db2] eqn:Et; cycle 1.
  { injection H as <- _ <-. apply transaction_atomic in Et as [->|(-> & _)]; [right; by rewrite Hi|by left]. }
  injection H as <- _ <-. intros _. apply transaction_inv in Et as (n3 & -> & Ht). rewrite Hi in Ht.
  run_bind Ht p' n4 db4 Hm. run_stmt Hm. unfold insert_shortlist in Hm.
  destruct (_ && _) eqn:E in Hm; [|done]. bool_to_prop. injection Hm as <- <-.
  run_bind Ht u n5 db5 Hen. injection Ht as <- _ <-.
  apply insert_entries_inv in Hen as (Hdb & Hnd & Hoth & Hin). cbn [fst] in *.
  exists (st_now (stamp_at e (S (S n)))). split_and!; [done|exact Hdb|exact Hnd| |].
  - intros k Hk. rewrite Hoth by by left. done.
  - intros x Hx. by apply Hin.
Qed.
End ShortlistLemmas.
