(* ===== verification/Consumer.v ===== *)
(** The verdict consumer and the expiry sweeper
    (services/assessment-service/internal/consumer/graded.go,
    services/assessment-service/internal/sweeper/sweeper.go).

    The consumer answers each delivery of a submission.graded event with an
    acknowledgement, a refusal or a delayed refusal; JetStream delivers again
    until it is acknowledged. *)

From S2P Require Import Prelude GoStrings Float64 Strconv GoTime Grading Json Wire Judge Store Scoring Attempts.
From Stdlib Require Import Ascii.

#[local] Open Scope Z_scope.
#[local] Open Scope repo_scope.

(** ** The event *)

Record gradedEvent := {
  ev_SubmissionId : string;
  ev_UserId : string;
  ev_ProblemId : string;
  ev_OverallStatus : string;
  ev_PassedCount : Z;
  ev_TotalCount : Z;
  ev_Source : string;
}.

Definition no_event : gradedEvent :=
  {| ev_SubmissionId := ""; ev_UserId := ""; ev_ProblemId := ""; ev_OverallStatus := "";
     ev_PassedCount := 0; ev_TotalCount := 0; ev_Source := "" |}.

Definition event_fields : fields gradedEvent :=
  [("submission_id", string_field ev_SubmissionId (λ s '(Build_gradedEvent _ u p o c t f),
      Build_gradedEvent s u p o c t f));
   ("user_id", string_field ev_UserId (λ u '(Build_gradedEvent s _ p o c t f),
      Build_gradedEvent s u p o c t f));
   ("problem_id", string_field ev_ProblemId (λ p '(Build_gradedEvent s u _ o c t f),
      Build_gradedEvent s u p o c t f));
   ("overall_status", string_field ev_OverallStatus (λ o '(Build_gradedEvent s u p _ c t f),
      Build_gradedEvent s u p o c t f));
   ("passed_count", int_field ev_PassedCount (λ c '(Build_gradedEvent s u p o _ t f),
      Build_gradedEvent s u p o c t f));
   ("total_count", int_field ev_TotalCount (λ t '(Build_gradedEvent s u p o c _ f),
      Build_gradedEvent s u p o c t f));
   ("source", string_field ev_Source (λ f '(Build_gradedEvent s u p o c t _),
      Build_gradedEvent s u p o c t f))].

(** [json.Unmarshal(msg.Data, &ev)]; [None] is an error. *)
Definition decode_event (data : string) : option gradedEvent :=
  parse data ≫= decode_struct event_fields no_event.

(** ** One delivery *)

Inductive Outcome := Ack | Nak | NakWithDelay.

Definition maxLinkRetries : Z := 10.

Section Consumer.
Context {PG : Postgres}.

(** [handle]; [delivered] is the delivery count of the message's metadata,
    when it has any. *)
Definition handle (data : string) (delivered : option Z) : M Outcome :=
  match decode_event data with
  | None => ret Ack
  | Some ev =>
      r <- attempt_ (ApplyGradedSubmission (ev_SubmissionId ev) (ev_OverallStatus ev)
                       (int32 (ev_PassedCount ev)) (int32 (ev_TotalCount ev))) ;;
      match r with
      | inr ErrSubmissionNotLinked =>
          if String.eqb (ev_Source ev) "assessment"
             && match delivered with Some d => d <? maxLinkRetries | None => false end
          then ret NakWithDelay else ret Ack
      | inr _ => ret Nak
      | inl _ => ret Ack
      end
  end.

(** The deliveries of one message until it is acknowledged, at most [fuel]:
    the number made. *)
Fixpoint deliveries (fuel : nat) (data : string) (count : Z) : M Z :=
  match fuel with
  | O => ret count
  | S f =>
      o <- handle data (Some (count + 1)) ;;
      match o with
      | Ack => ret (count + 1)
      | _ => deliveries f data (count + 1)
      end
  end.

(** ** The sweeper *)

(** One tick of [Run]: an error is logged and the loop goes on. *)
Definition sweep_tick : M unit := attempt_ ExpireDueAttempts ;; ret tt.

Fixpoint Run (ticks : nat) : M unit :=
  match ticks with
  | O => ret tt
  | S t => sweep_tick ;; Run t
  end.

(** ** Lemmas *)

Lemma handle_inv data delivered e n db o n' db' ev :
  decode_event data = Some ev → handle data delivered e n db = (inl o, n', db') →
  ∃ r, ApplyGradedSubmission (ev_SubmissionId ev) (ev_OverallStatus ev) (int32 (ev_PassedCount ev))
         (int32 (ev_TotalCount ev)) e n db = (r, n', db') ∧
    o = match r with
        | inl _ => Ack
        | inr ErrSubmissionNotLinked =>
            if String.eqb (ev_Source ev) "assessment"
               && match delivered with Some d => d <? maxLinkRetries | None => false end
            then NakWithDelay else Ack
        | inr _ => Nak
        end.
Proof.
  intros Hev. unfold handle. rewrite Hev. intros H. run_bind H r n1 db1 Hm. unfold attempt_ in Hm.
  destruct (ApplyGradedSubmission _ _ _ _ e n db) as [[r0 n0] db0]. injection Hm as <- <- <-.
  exists r0. destruct r0 as [u|err]; [by injection H as <- <- <-|].
  destruct err; try by injection H as <- <- <-.
  destruct (_ && _); by injection H as <- <- <-.
Qed.

(** The consumer acknowledges an event only when it is done with it: it
    cannot be decoded, its verdict is applied, or no attempt knows the
    submission and the event is of practice or was delivered ten times; a
    verdict of a test whose link is not written yet is delivered again after
    a delay, and after any other error at once.  An undecodable event leaves
    the database alone. *)
Theorem handle_outcome data delivered e n db o n' db' :
  handle data delivered e n db = (inl o, n', db') →
  match decode_event data with
  | None => o = Ack ∧ db' = db
  | Some ev =>
      ∃ r, ApplyGradedSubmission (ev_SubmissionId ev) (ev_OverallStatus ev) (int32 (ev_PassedCount ev))
             (int32 (ev_TotalCount ev)) e n db = (r, n', db') ∧
        let waits := ev_Source ev = "assessment" ∧ ∃ d, delivered = Some d ∧ d < 10 in
        (o = Ack ↔ r = inl tt ∨ r = inr ErrSubmissionNotLinked ∧ ¬ waits) ∧
        (o = NakWithDelay ↔ r = inr ErrSubmissionNotLinked ∧ waits) ∧
        (o = Nak ↔ ∃ err, r = inr err ∧ err ≠ ErrSubmissionNotLinked)
  end.
Proof.
  intros H. destruct (decode_event data) as [ev|] eqn:Eev.
  - eapply handle_inv in H as (r & Hr & ->); [|done]. exists r. split; [done|]. cbv zeta.
    set (b := String.eqb (ev_Source ev) "assessment" && _).
    assert (Hb : b = true ↔ ev_Source ev = "assessment" ∧ ∃ d, delivered = Some d ∧ d < 10).
    { unfold b. rewrite andb_true_iff, String.eqb_eq. destruct delivered as [d|]; [|naive_solver].
      unfold maxLinkRetries. rewrite Z.ltb_lt. naive_solver. }
    rewrite <- Hb. destruct r as [[]|err]; [naive_solver|].
    destruct err; try naive_solver. destruct b; naive_solver.
  - unfold handle in H. rewrite Eev in H. by injection H as <- _ <-.
Qed.

(** An event whose submission id is no uuid: the statement fails each time,
    and each time the event is delivered again. *)
Theorem handle_malformed_id data ev delivered e n db :
  decode_event data = Some ev → uuid_param (ev_SubmissionId ev) = None → undisturbed e →
  handle data delivered e n db = (inl Nak, S n, db).
Proof.
  intros Hev Hid [Hf Hi]. unfold handle. rewrite Hev. unfold bind at 1, attempt_, ApplyGradedSubmission.
  unfold bind at 1, statement. rewrite Hf, Hi, Hid. done.
Qed.
End Consumer.

(** ** Delivered twice *)

Section Redelivery.
Context {PG : Postgres} {PL : PostgresLaws PG}.

Lemma update_row_twice {R} (id : string) (f : R → R) t :
  (∀ r, f (f r) = f r) → update_row id f (update_row id f t) = update_row id f t.
Proof.
  intros Hf. unfold update_row. rewrite alter_alter_eq. apply map_eq. intros k.
  destruct (decide (k = id)) as [->|Hne]; [|by rewrite !lookup_alter_ne].
  rewrite !lookup_alter_eq. destruct (t !! id); simpl; [by rewrite Hf|done].
Qed.

Lemma update_row_found {R} (id : string) (f : R → R) t r :
  t !! id = Some r → update_row id f t = <[id := f r]> t.
Proof.
  intros Hr. unfold update_row. apply map_eq. intros k. destruct (decide (k = id)) as [->|Hne].
  - by rewrite lookup_alter_eq, Hr, lookup_insert_eq.
  - by rewrite lookup_alter_ne, lookup_insert_ne.
Qed.

(** Two best submissions of the same rows earn the same mark. *)
Lemma best_same_mark marks rows rows' b b' z z' lim :
  best_of marks None rows = Some b → best_of marks None rows' = Some b' →
  (∀ r, r ∈ rows ↔ r ∈ rows') → (∀ id s, (id, s) ∈ rows → fin (submission_score marks s)) →
  num_param lim (bs_score b) = Some z → num_param lim (bs_score b') = Some z' → z = z'.
Proof.
  intros Hb Hb' Hrows Hfin Hz Hz'. pose proof (best_of_spec marks rows) as H1.
  pose proof (best_of_spec marks rows') as H2. rewrite Hb in H1. rewrite Hb' in H2.
  destruct H1 as [(i & s & Hin & ->) Hmax], H2 as [(j & t & Hin' & ->) Hmax']. simpl in *.
  assert (Hf : fin (submission_score marks s) ∧ fin (submission_score marks t)).
  { split; [by eapply Hfin|]. eapply (Hfin j). by apply Hrows. }
  destruct Hf as [Hf1 Hf2]. apply Hrows in Hin'. apply Hrows in Hin.
  specialize (Hmax _ _ Hin'). specialize (Hmax' _ _ Hin). rewrite fltb_spec in Hmax, Hmax' by done.
  apply Z.ltb_ge in Hmax, Hmax'.
  assert (E1 : fleb (submission_score marks s) (submission_score marks t) = true)
    by (rewrite fleb_spec by done; by apply Z.leb_le).
  assert (E2 : fleb (submission_score marks t) (submission_score marks s) = true)
    by (rewrite fleb_spec by done; by apply Z.leb_le).
  pose proof (num_param_mono _ _ _ _ _ Hz Hz' E1). pose proof (num_param_mono _ _ _ _ _ Hz' Hz E2). lia.
Qed.

(** What the scores depend on. *)
Definition marking (q : QuestionRow) := (aq_attempt_id q, aq_awarded_marks q, aq_grading_status q).

Lemma sum_awarded_marking aid db db' :
  marking <$> attempt_questions db' = marking <$> attempt_questions db →
  sum_awarded (attempt_rows aid db') = sum_awarded (attempt_rows aid db).
Proof.
  set (part := λ x : string * (string * option Z * GradingStatus),
                 if String.eqb x.2.1.1 aid then default 0 x.2.1.2 else 0).
  assert (H : ∀ db, sum_awarded (attempt_rows aid db)
    = foldr (λ x acc, part x + acc) 0 (map_to_list (marking <$> attempt_questions db))).
  { intros d. assert (HP : foldr (λ x acc, part x + acc) 0 (map_to_list (marking <$> attempt_questions d))
      = foldr (λ x acc, part x + acc) 0 (prod_map id marking <$> map_to_list (attempt_questions d))).
    { rewrite map_to_list_fmap. done. }
    rewrite HP. unfold sum_awarded, attempt_rows, rows_where, in_attempt. clear HP.
    induction (map_to_list (attempt_questions d)) as [|[k q] l IH]; [done|]. simpl.
    unfold part at 1. simpl. destruct (String.eqb (aq_attempt_id q) aid) eqn:E.
    - rewrite filter_cons_True by done. simpl. by rewrite IH.
    - rewrite filter_cons_False by (simpl; congruence). by rewrite IH. }
  intros E. by rewrite !H, E.
Qed.

Lemma remark_marking (qid : string) (t : gmap string QuestionRow) z b b' q :
  t !! qid = Some q →
  marking <$> update_row qid (set_coding_mark z b') (<[qid := set_coding_mark z b q]> t)
  = marking <$> <[qid := set_coding_mark z b q]> t.
Proof.
  intros Hq. apply map_eq. intros k. rewrite !lookup_fmap. unfold update_row.
  destruct (decide (k = qid)) as [->|Hne].
  - by rewrite lookup_alter_eq, lookup_insert_eq.
  - by rewrite lookup_alter_ne, !lookup_insert_ne.
Qed.

(** Delivering a verdict twice is delivering it once: applied again
    to the state its first application left, it changes no submission, no
    question's mark or grading status, and not the attempt's score. *)
Theorem verdict_redelivered sub status passed total e e' n m db n' m' db' db'' :
  undisturbed e → undisturbed e' →
  ApplyGradedSubmission sub status passed total e n db = (inl tt, n', db') →
  ApplyGradedSubmission sub status passed total e' m db' = (inl tt, m', db'') →
  (∀ k s q, attempt_submissions db' !! k = Some s →
     attempt_questions db' !! sb_attempt_question_id s = Some q →
     fin (submission_score (num_value (aq_marks q)) s)) →
  attempt_submissions db'' = attempt_submissions db' ∧
  (∀ k, marking <$> attempt_questions db'' !! k = marking <$> attempt_questions db' !! k) ∧
  (∀ k, at_score <$> attempts db'' !! k = at_score <$> attempts db' !! k).
Proof.
  intros He He' H1 H2 Hfin.
  apply ApplyGradedSubmission_inv in H1 as (id & s & Hid & Hs & q & order & b & z & now & Hq & Hord & Hb & Hz & H1);
    [|done].
  apply ApplyGradedSubmission_inv in H2 as (id' & s' & Hid' & Hs' & q' & order' & b' & z' & now' & Hq' & Hord' & Hb' & Hz' & H2);
    [|done].
  rewrite Hid in Hid'. injection Hid' as <-.
  destruct (recompute_effect_tables _ _ _ _ H1) as (Hsub1 & Hqs1 & _).
  destruct (recompute_effect_tables _ _ _ _ H2) as (Hsub2 & Hqs2 & Hoth). cbn in Hsub1, Hqs1, Hsub2, Hqs2.
  assert (E : s' = set_verdict status passed total s).
  { rewrite Hsub1 in Hs'. unfold update_row in Hs'. rewrite lookup_alter_eq, Hs in Hs'. by injection Hs' as <-. }
  subst s'. cbn [sb_attempt_question_id set_verdict] in *. set (qid := sb_attempt_question_id s) in *.
  assert (Eq : q' = set_coding_mark z b q).
  { rewrite Hqs1 in Hq'. unfold update_row in Hq'. rewrite lookup_alter_eq, Hq in Hq'. by injection Hq' as <-. }
  assert (Hsubs : update_row id (set_verdict status passed total) (attempt_submissions db')
                  = attempt_submissions db').
  { rewrite Hsub1. by apply update_row_twice. }
  assert (Hz2 : z = z').
  { assert (Em : aq_marks q' = aq_marks q) by by subst q'. rewrite Em in Hb'.
    eapply best_same_mark; [exact Hb|exact Hb'| | |exact Hz|exact Hz'].
    - intros [k r]. rewrite !elem_graded_submissions by done. cbn. by rewrite Hsubs, Hsub1.
    - intros k r Hin. apply elem_graded_submissions in Hin as (Hr & Hrq & _); [|done]. cbn in Hr.
      rewrite <- Hsub1 in Hr. rewrite <- Em. eapply Hfin; [exact Hr|]. by rewrite Hrq. }
  subst z'.
  assert (Hqs : attempt_questions db' = <[qid := set_coding_mark z b q]> (attempt_questions db)).
  { rewrite Hqs1. by apply update_row_found. }
  assert (Hmark : marking <$> attempt_questions db'' = marking <$> attempt_questions db').
  { rewrite Hqs2, Hqs. by apply remark_marking. }
  split_and!.
  - by rewrite Hsub2.
  - intros k. rewrite <- !lookup_fmap. by rewrite Hmark.
  - assert (Eaid : aq_attempt_id q' = aq_attempt_id q) by by subst q'. rewrite Eaid in *.
    intros k. destruct (decide (k = aq_attempt_id q)) as [->|Hne]; [|by rewrite Hoth].
    destruct (attempts db' !! aq_attempt_id q) as [a|] eqn:Ha.
    + apply (recompute_effect_inv _ _ _ _ a) in H2 as (t & Ht & _ & E2); [|exact Ha].
      assert (∃ a0, attempts db !! aq_attempt_id q = Some a0) as [a0 Ha0].
      { unfold recompute_effect, save_score in H1. cbn zeta in H1. destruct (greatest_param _); [|done].
        destruct (_ <? _); [|done]. injection H1 as E1. rewrite <- E1 in Ha. cbn in Ha.
        unfold update_row in Ha. rewrite lookup_alter_eq in Ha.
        destruct (attempts db !! aq_attempt_id q); [eauto|done]. }
      apply (recompute_effect_inv _ _ _ _ a0) in H1 as (t1 & Ht1 & _ & E1); [|exact Ha0].
      assert (Es1 : at_score a = Z.max t1 0).
      { rewrite E1 in Ha. cbn in Ha. unfold update_row in Ha. rewrite lookup_alter_eq, Ha0 in Ha.
        by injection Ha as <-. }
      rewrite E2. cbn. unfold update_row. rewrite lookup_alter_eq, Ha. simpl. f_equal. rewrite Es1.
      assert (Ett : t = t1); [|by rewrite Ett].
      erewrite (attempt_rows_questions _ db'') in Ht by (symmetry; exact Hqs2).
      erewrite (attempt_rows_questions _ db') in Ht1 by (symmetry; exact Hqs1).
      rewrite (sum_awarded_marking _ _ _ Hmark) in Ht. congruence.
    + unfold recompute_effect, save_score in H2. cbn zeta in H2. destruct (greatest_param _); [|done].
      destruct (_ <? _); [|done]. injection H2 as <-. cbn. unfold update_row. by rewrite lookup_alter_eq, Ha.
Qed.
End Redelivery.
