(* ===== verification/Pipeline.v ===== *)
(** From a submission's run to its mark: the execution worker, the submission
    service and the assessment service composed along the messages between
    them.

    The worker's result ([Worker.execute]) crosses as JSON to
    [Submissions.onResult], whose event crosses as JSON to [Consumer.handle],
    which marks the question of the attempt; a practice verdict goes to
    [Progress.update_tables] instead, which awards it. *)

From S2P Require Import Prelude GoStrings Float64 Strconv GoTime Grading Json Judge Wire PgTypes Worker Service Messages Submissions.
From S2P Require Import Progress.
From S2P Require Import Store Scoring Attempts Consumer.

#[local] Open Scope Z_scope.
#[local] Open Scope repo_scope.

(** ** The event crosses *)

(** What the assessment service keeps of the event. *)
Definition event_read (e : GradedEvent) : gradedEvent :=
  {| ev_SubmissionId := ge_SubmissionId e; ev_UserId := ge_UserId e; ev_ProblemId := ge_ProblemId e;
     ev_OverallStatus := ge_OverallStatus e; ev_PassedCount := ge_PassedCount e;
     ev_TotalCount := ge_TotalCount e; ev_Source := ge_Source e |}.

Definition event_texts (e : GradedEvent) : Prop :=
  text (ge_SubmissionId e) ∧ text (ge_UserId e) ∧ text (ge_ProblemId e) ∧
  text (ge_OverallStatus e) ∧ text (ge_Source e).

Lemma event_printable e : event_texts e → printable 0 (graded_raw e).
Proof. intros (H1 & H2 & H3 & H4 & H5). unfold graded_raw. print_fields. Qed.

Lemma event_decode e :
  int64_range (ge_PassedCount e) → int64_range (ge_TotalCount e) →
  decode_struct event_fields no_event (graded_raw e) = Some (event_read e).
Proof.
  destruct e as [s u p o rt mk pc tc f]. cbn [ge_PassedCount ge_TotalCount]. intros Hp Ht.
  unfold graded_raw, event_read, omitempty_string, event_fields, no_event.
  cbn [ge_SubmissionId ge_UserId ge_ProblemId ge_OverallStatus ge_RuntimeMs ge_MemoryKb
       ge_PassedCount ge_TotalCount ge_Source].
  destruct (String.eqb_spec f "") as [->|Hf]; read_struct; reflexivity.
Qed.

(** The event the submission service publishes is the event the assessment
    service reads. *)
Lemma event_roundtrip e :
  event_texts e → int64_range (ge_PassedCount e) → int64_range (ge_TotalCount e) →
  decode_event (render_string (graded_raw e)) = Some (event_read e).
Proof.
  intros Ht Hp Hn. unfold decode_event. rewrite parse_render by by apply event_printable.
  by apply event_decode.
Qed.

(** ** The verdict arrives *)

Section Verdict.
Context {PG : Postgres}.

Lemma statement_err {A} q label (f : Stamp → DB → option (A * DB)) e n db err n' db' :
  statement q label f e n db = (inr err, n', db') → err = ErrDB label.
Proof.
  unfold statement. destruct (fault e n); repeat case_match; intros; by simplify_eq.
Qed.
Lemma bind_err {A B} (m : M A) (k : A → M B) e n db err n' db' :
  bind m k e n db = (inr err, n', db') →
  m e n db = (inr err, n', db') ∨
  ∃ x n1 db1, m e n db = (inl x, n1, db1) ∧ k x e n1 db1 = (inr err, n', db').
Proof. unfold bind. destruct (m e n db) as [[[x|err'] n1] db1]; [eauto 10|]. intros [= -> -> ->]. by left. Qed.

(** A submission that some attempt knows is never reported as unknown. *)
Lemma ApplyGradedSubmission_linked sub id row status passed total e n db n' db' :
  undisturbed e → uuid_param sub = Some id → attempt_submissions db !! id = Some row →
  ApplyGradedSubmission sub status passed total e n db ≠ (inr ErrSubmissionNotLinked, n', db').
Proof.
  intros [Hf Hi] Hid Hrow H. apply bind_err in H as [H|(link & n1 & db1 & Hl & H)];
    [by apply statement_err in H|].
  apply statement_inv in Hl as (_ & Hl). rewrite Hi, Hid, Hrow in Hl. injection Hl as <- <-.
  cbn [fmap option_fmap option_map] in H.
  apply bind_err in H as [H|(q & n2 & db2 & _ & H)]; [by apply statement_err in H|].
  destruct q as [q|]; [|done].
  apply bind_err in H as [H|(best & n3 & db3 & _ & H)]; [by apply statement_err in H|].
  destruct best as [b|]; [|done].
  apply bind_err in H as [H|(u & n4 & db4 & _ & H)]; [by apply statement_err in H|].
  apply bind_err in H as [H|(agg & n5 & db5 & _ & H)]; [by apply statement_err in H|].
  apply bind_err in H as [H|(secs & n6 & db6 & _ & H)]; [by apply statement_err in H|].
  destruct agg as [[t p] m]. by apply statement_err in H.
Qed.

(** An acknowledged event of a known submission has been applied. *)
Lemma handle_applied data delivered ev e n db id row n' db' :
  undisturbed e → decode_event data = Some ev → uuid_param (ev_SubmissionId ev) = Some id →
  attempt_submissions db !! id = Some row → handle data delivered e n db = (inl Consumer.Ack, n', db') →
  ApplyGradedSubmission (ev_SubmissionId ev) (ev_OverallStatus ev) (int32 (ev_PassedCount ev))
    (int32 (ev_TotalCount ev)) e n db = (inl tt, n', db').
Proof.
  intros He Hev Hid Hrow H. eapply handle_inv in H as (r & Hr & Ho); [|exact Hev].
  destruct r as [[]|err]; [exact Hr|]. destruct err; try done.
  by apply ApplyGradedSubmission_linked with (id := id) (row := row) in Hr.
Qed.
End Verdict.

(** ** The cases that pass *)

Section Passing.
Context (Run : nat → RunRequest → RunResult + string).
Context (problem language code : string) (spec : option ExecutionSpec).

(** The case passes at its turn: [case_passes], decided. *)
Definition passes (i : nat) (tc : TestCase) : bool :=
  match Run i (case_request problem language code spec tc) with
  | inl sb => negb (rr_TimedOut sb) && negb (rr_OOMKilled sb) && (rr_ExitCode sb =? 0)
              && matches (tc_ExpectedOutput tc) (rr_Stdout sb) spec
  | inr _ => false
  end.

Lemma passes_spec i tc : passes i tc = true ↔ case_passes Run problem language code spec i tc.
Proof.
  unfold passes, case_passes. destruct (Run i _) as [sb|err].
  - rewrite !andb_true_iff, !negb_true_iff, Z.eqb_eq. naive_solver.
  - naive_solver.
Qed.

Fixpoint passing (i : nat) (cases : list TestCase) : Z :=
  match cases with
  | [] => 0
  | tc :: t => (if passes i tc then 1 else 0) + passing (S i) t
  end.

Lemma case_status_accepted hidden i tc :
  String.eqb (tr_Status (case_result Run problem language code spec hidden i tc)) "Accepted" = passes i tc.
Proof.
  unfold passes, case_result. destruct (Run i _) as [sb|err]; [|done]. unfold EvaluateTestCaseWithSpec.
  destruct (rr_TimedOut sb); [done|]. destruct (rr_OOMKilled sb); [done|].
  destruct (rr_ExitCode sb =? 0); [|done]. by destruct (matches _ _ _).
Qed.

Lemma accepted_passing hidden i cases :
  accepted_count (case_results Run problem language code spec hidden i cases) = passing i cases.
Proof.
  revert i. induction cases as [|tc cases IH]; intros i; [done|]. cbn [case_results passing].
  rewrite <- IH, <- (case_status_accepted hidden). unfold accepted_count.
  destruct (String.eqb _ "Accepted") eqn:E.
  - rewrite filter_cons_True by done. cbn [length]. lia.
  - rewrite filter_cons_False by (rewrite E; done). lia.
Qed.

Lemma passing_bounds i cases : 0 ≤ passing i cases ≤ Z.of_nat (length cases).
Proof.
  revert i. induction cases as [|tc cases IH]; intros i; cbn [passing length]; [lia|].
  specialize (IH (S i)). destruct (passes i tc); lia.
Qed.

Lemma passing_all i cases :
  (∀ k tc, cases !! k = Some tc → passes (i + k) tc = true) → passing i cases = Z.of_nat (length cases).
Proof.
  revert i. induction cases as [|tc cases IH]; intros i H; cbn [passing length]; [lia|].
  pose proof (H 0%nat tc eq_refl) as H0. rewrite Nat.add_0_r in H0. rewrite H0.
  rewrite IH; [lia|]. intros k x Hk. replace (S i + k)%nat with (i + S k)%nat by lia. by apply H.
Qed.
End Passing.

(** ** End to end *)

Section EndToEnd.
Context {PG : Postgres} {T : PgTypes} {L : PgLaws T}.
Context (Run : nat → RunRequest → RunResult + string)
  (GetTestCases : string → bool → (list TestCase * option ExecutionSpec) + string).

Lemma int32_small z : 0 ≤ z < 2 ^ 31 → int32 z = z.
Proof. intros H. unfold int32. rewrite Z.mod_small; lia. Qed.

(** The passing cases of a job. *)
Definition job_passing (req : SubmitCodeRequest) (spec : option ExecutionSpec) (cases : list TestCase) : Z :=
  passing Run (sc_ProblemId req) (sc_Language req) (sc_Code req) spec 0 cases.

(** The event of a timed test's result counts the passing cases out of all of
    them. *)
Lemma execute_event req cases spec :
  sc_Source req = "assessment" → GetTestCases (sc_ProblemId req) true = inl (cases, spec) →
  let res := execute Run GetTestCases req in
  let ev := event_of (received res) (er_TestResults res) in
  ge_SubmissionId ev = sc_SubmissionId req ∧ ge_OverallStatus ev = er_OverallStatus res ∧
  ge_PassedCount ev = job_passing req spec cases ∧ ge_TotalCount ev = Z.of_nat (length cases) ∧
  ge_Source ev = "assessment".
Proof.
  intros Hs Hg res ev. pose proof (execute_assessment_results Run _ _ _ _ Hs Hg) as Hr. fold res in Hr.
  assert (Hn : length (er_TestResults res) = length cases) by by rewrite Hr, case_results_length.
  assert (Ht : er_TotalCases res = Z.of_nat (length cases)).
  { subst res. unfold execute. rewrite Hg. by destruct (Nat.eqb_spec (length cases) 0) as [->|]. }
  assert (He : er_SubmissionId res = sc_SubmissionId req ∧ er_Source res = sc_Source req).
  { subst res. unfold execute. rewrite Hg. by destruct (Nat.eqb_spec (length cases) 0). }
  destruct He as [He1 He2]. subst ev. unfold event_of, graded_event.
  cbn [ge_SubmissionId ge_OverallStatus ge_PassedCount ge_TotalCount ge_Source received
       in_SubmissionId in_OverallStatus in_TotalCases in_Source].
  rewrite He1, He2, Hn, Ht. split_and!; try done.
  - unfold job_passing. by rewrite Hr, accepted_passing.
  - by rewrite Z.ltb_irrefl.
Qed.

(** One run of the pipeline: the worker's result [res] of a timed test's job
    reached the submission service, which published the event [data], which
    the assessment service acknowledged. *)
Definition judged (req : SubmitCodeRequest) (data : string) (w : World State) (n : nat) (s : State) : Prop :=
  let res := execute Run GetTestCases req in
  execution_texts res ∧ execution_ints res ∧ alone w ∧
  ∃ n' s', onResult true (render_string (execution_raw res)) w n s = (inl Submissions.Acked, n', s') ∧
    published s' = published s ++ [("submission.graded", data)].

Lemma published_once {A B} (l : list (A * B)) a x y :
  l ++ [(a, y)] = l ++ [(a, x)] → x = y.
Proof. intros H. apply app_inv_head in H. by injection H. Qed.

Lemma published_some {A} (l : list A) x : l ≠ l ++ [x].
Proof. intros H. apply (f_equal length) in H. rewrite length_app in H. simpl in H. lia. Qed.

Lemma acked_event hp text r w n s n' s' data :
  decode_execution text = Some (received r) → alone w →
  onResult hp text w n s = (inl Submissions.Acked, n', s') →
  published s' = published s ++ [("submission.graded", data)] →
  data = render_string (graded_raw (event_of (received r) (er_TestResults r))).
Proof.
  intros Hd Ho H Hp. unfold onResult in H. rewrite Hd in H.
  apply onInbound_inv in H as [(? & _)|(l & r1 & n1 & s1 & El & Hu & H)]; [done| |done].
  apply map_some_inj in El. subst l. destruct r1 as [[]|]; [|by destruct H].
  apply update_result_inv in Hu as (Hup & _); [|done].
  destruct H as (_ & _ & _ & [E|E]); rewrite E, Hup in Hp.
  - by apply published_some in Hp.
  - by apply published_once in Hp.
Qed.

Lemma judged_event req data w n s :
  judged req data w n s →
  let res := execute Run GetTestCases req in
  data = render_string (graded_raw (event_of (received res) (er_TestResults res))).
Proof.
  intros (Ht & Hi & Ho & n' & s' & H & Hp) res.
  eapply acked_event; [|exact Ho|exact H|exact Hp]. by apply execution_roundtrip.
Qed.

Lemma judged_reads req cases spec data w n s :
  sc_Source req = "assessment" → GetTestCases (sc_ProblemId req) true = inl (cases, spec) →
  Z.of_nat (length cases) < 2 ^ 31 → judged req data w n s →
  ∃ ev, decode_event data = Some ev ∧ ev_SubmissionId ev = sc_SubmissionId req ∧
    ev_OverallStatus ev = er_OverallStatus (execute Run GetTestCases req) ∧
    int32 (ev_PassedCount ev) = job_passing req spec cases ∧
    int32 (ev_TotalCount ev) = Z.of_nat (length cases).
Proof.
  intros Hs Hg Hlen Hj. pose proof (judged_event _ _ _ _ _ Hj) as Hd.
  destruct (execute_event req cases spec Hs Hg) as (E1 & E2 & E3 & E4 & E5).
  pose proof (passing_bounds Run (sc_ProblemId req) (sc_Language req) (sc_Code req) spec 0 cases) as Hb.
  fold (job_passing req spec cases) in Hb.
  destruct Hj as ((T1 & T2 & T3 & T4 & _ & _ & T7) & _). cbv zeta in *.
  eexists. split.
  { rewrite Hd. apply event_roundtrip.
    - unfold event_texts, event_of, graded_event. cbn. done.
    - rewrite E3. unfold int64_range. lia.
    - rewrite E4. unfold int64_range. lia. }
  unfold event_read. cbn [ev_SubmissionId ev_OverallStatus ev_PassedCount ev_TotalCount].
  rewrite E1, E2, E3, E4, !int32_small by lia. done.
Qed.

(** C6.  The verdict that reaches the attempt is the verdict
    of the run: when a timed test's job has gone through the worker, the
    submission service and the assessment service, the linked submission holds
    the status of the run, the number of test cases its program passed and the
    number of test cases of the problem. *)
Theorem verdict_arrives req cases spec data w n s delivered e m db id row m' db' :
  sc_Source req = "assessment" → GetTestCases (sc_ProblemId req) true = inl (cases, spec) →
  Z.of_nat (length cases) < 2 ^ 31 → judged req data w n s →
  undisturbed e → uuid_param (sc_SubmissionId req) = Some id → attempt_submissions db !! id = Some row →
  handle data delivered e m db = (inl Consumer.Ack, m', db') →
  ∃ row', attempt_submissions db' !! id = Some row' ∧
    sb_passed_count row' =
      Some (passing Run (sc_ProblemId req) (sc_Language req) (sc_Code req) spec 0 cases) ∧
    sb_total_count row' = Some (Z.of_nat (length cases)) ∧
    sb_status row' = er_OverallStatus (execute Run GetTestCases req) ∧
    sb_attempt_question_id row' = sb_attempt_question_id row ∧ sb_code row' = sb_code row.
Proof.
  intros Hs Hg Hlen Hj He Hid Hrow H.
  destruct (judged_reads _ _ _ _ _ _ _ Hs Hg Hlen Hj) as (ev & Hev & E1 & E2 & E3 & E4).
  rewrite <- E1 in Hid. pose proof (handle_applied _ _ _ _ _ _ _ _ _ _ He Hev Hid Hrow H) as Ha.
  rewrite E3, E4 in Ha.
  apply ApplyGradedSubmission_inv in Ha as (id' & row0 & Hid' & Hrow' & q & order & b & z & now & Hq & Hord & Hb & Hz & Hr);
    [|done].
  rewrite Hid in Hid'. injection Hid' as <-. rewrite Hrow in Hrow'. injection Hrow' as <-.
  apply recompute_effect_tables in Hr as (Hsub & _ & _). cbn in Hsub.
  eexists. rewrite Hsub. unfold update_row. rewrite lookup_alter_eq, Hrow. cbn. rewrite E2. done.
Qed.
(** A timed-test submission whose program passes every test
    case earns the question its full marks, whatever the candidate submitted
    for it before. *)
Theorem full_marks {PL : PostgresLaws PG} req cases spec data w n s delivered e m db id row m' db' q M :
  sc_Source req = "assessment" → GetTestCases (sc_ProblemId req) true = inl (cases, spec) →
  0 < Z.of_nat (length cases) < 2 ^ 31 → judged req data w n s →
  (∀ k tc, cases !! k = Some tc →
     case_passes Run (sc_ProblemId req) (sc_Language req) (sc_Code req) spec k tc) →
  undisturbed e → uuid_param (sc_SubmissionId req) = Some id → attempt_submissions db !! id = Some row →
  handle data delivered e m db = (inl Consumer.Ack, m', db') →
  attempt_questions db !! sb_attempt_question_id row = Some q →
  num_value (aq_marks q) = of_Z M → 0 ≤ aq_marks q < marks_limit → whole_marks M (Z.of_nat (length cases)) →
  (∀ k o, attempt_submissions db !! k = Some o → sb_attempt_question_id o = sb_attempt_question_id row →
     whole_marks M (default 0 (sb_total_count o))) →
  ∃ q', attempt_questions db' !! sb_attempt_question_id row = Some q' ∧
    aq_awarded_marks q' = Some (aq_marks q) ∧ aq_grading_status q' = Graded ∧ aq_marks q' = aq_marks q.
Proof.
  intros Hs Hg Hlen Hj Hall He Hid Hrow H Hq HM Hlim HW Htot.
  destruct (judged_reads _ _ _ _ _ _ _ Hs Hg ltac:(lia) Hj) as (ev & Hev & E1 & E2 & E3 & E4).
  rewrite <- E1 in Hid. pose proof (handle_applied _ _ _ _ _ _ _ _ _ _ He Hev Hid Hrow H) as Ha.
  assert (Hp : job_passing req spec cases = Z.of_nat (length cases)).
  { apply passing_all. intros k tc Hk. apply passes_spec. by apply Hall. }
  rewrite E3, E4, Hp in Ha.
  apply ApplyGradedSubmission_inv in Ha as (id' & row0 & Hid' & Hrow' & q0 & order & b & z & now & Hq' & Hord & Hb & Hz & Hr);
    [|done].
  rewrite Hid in Hid'. injection Hid' as <-. rewrite Hrow in Hrow'. injection Hrow' as <-.
  rewrite Hq in Hq'. injection Hq' as <-.
  apply recompute_effect_tables in Hr as (_ & Hqs & _). cbn in Hqs.
  exists (set_coding_mark z b q). rewrite Hqs. unfold update_row. rewrite lookup_alter_eq, Hq.
  split_and!; try done. cbn [set_coding_mark aq_awarded_marks]. f_equal.
  set (db1 := with_submissions _ db) in *.
  pose proof (best_of_spec (num_value (aq_marks q)) (graded_submissions order (sb_attempt_question_id row) db1)) as Hbest.
  rewrite Hb in Hbest. destruct Hbest as [(i & r & Hin & ->) Hmax]. cbn [bs_score] in *. rewrite HM in *.
  apply elem_graded_submissions in Hin as (Hr & Hrq & _); [|done].
  assert (Hr' : whole_marks M (default 0 (sb_total_count r))).
  { subst db1. cbn in Hr. unfold update_row in Hr. destruct (decide (i = id)) as [->|Hne].
    - rewrite lookup_alter_eq, Hrow in Hr. injection Hr as <-. exact HW.
    - rewrite lookup_alter_ne in Hr by done. by eapply Htot. }
  set (this := set_verdict (ev_OverallStatus ev) (Z.of_nat (length cases)) (Z.of_nat (length cases)) row).
  assert (Hthis : submission_score (of_Z M) this = of_Z M).
  { unfold submission_score, ScoreCoding. cbn. rewrite (proj2 (Z.leb_gt _ _)) by lia. cbn [orb].
    by rewrite Z.leb_refl. }
  specialize (Hmax id this). rewrite Hthis in Hmax.
  assert (Hnot : fltb (submission_score (of_Z M) r) (of_Z M) = false).
  { apply Hmax. apply elem_graded_submissions; [done|]. subst db1. cbn. unfold update_row.
    rewrite lookup_alter_eq, Hrow. done. }
  destruct (ScoreCoding_bounds (default 0 (sb_passed_count r)) _ M Hr') as ([Hfin _] & Hle).
  fold (submission_score (of_Z M) r) in Hfin, Hle.
  assert (HfM : fin (of_Z M)) by (destruct (of_Z_spec M) as [? _]; [destruct HW; lia|done]).
  assert (Hge : fleb (of_Z M) (submission_score (of_Z M) r) = true).
  { rewrite fleb_spec by done. rewrite fltb_spec in Hnot by done. apply Z.leb_le. apply Z.ltb_ge in Hnot. lia. }
  assert (HzM : num_param marks_limit (of_Z M) = Some (aq_marks q)).
  { rewrite <- HM. apply num_param_value; unfold marks_limit in *; lia. }
  pose proof (num_param_mono _ _ _ _ _ Hz HzM Hle). pose proof (num_param_mono _ _ _ _ _ HzM Hz Hge). lia.
Qed.
End EndToEnd.

(** ** A practice verdict is awarded *)

Section Awarded.
Context {T : PgTypes} {L : PgLaws T}.

Lemma progress_update_coherent r language : coherent (progress_update r language).
Proof. unfold progress_update, coherent. by destruct (String.eqb (in_OverallStatus r) "Accepted"). Qed.

Lemma progress_update_correct r language language' :
  up_IsCorrect (progress_update r language') = up_IsCorrect (progress_update r language).
Proof. unfold progress_update. by destruct (String.eqb (in_OverallStatus r) "Accepted"). Qed.

(** The progress update an acknowledged result sent, if it sent one. *)
Lemma acked_progress hp data r w n s n' s' c :
  decode_execution data = Some r → alone w →
  onResult hp data w n s = (inl Submissions.Acked, n', s') → progress_calls s' = progress_calls s ++ [c] →
  ∃ language, c = progress_update r language.
Proof.
  intros Hd Ho H Hc. unfold onResult in H. rewrite Hd in H.
  apply onInbound_inv in H as [(? & _)|(l & r1 & n1 & s1 & El & Hu & H)]; [done| |done].
  destruct r1 as [[]|]; [|by destruct H]. apply update_result_inv in Hu as (_ & Hup & _); [|done].
  destruct H as (_ & _ & [E|(_ & _ & language & E)] & _); rewrite E, Hup in Hc.
  - by apply published_some in Hc.
  - apply app_inv_head in Hc. injection Hc as <-. by exists language.
Qed.

(** One delivery of a result, acknowledged, that sends the progress update [c]. *)
Definition sends_update (hp : bool) (data : string) (w : World Submissions.State) (n : nat)
    (s s' : Submissions.State) (c : UpdateProblemStatusRequest) : Prop :=
  (∃ n', onResult hp data w n s = (inl Submissions.Acked, n', s')) ∧
  progress_calls s' = progress_calls s ++ [c].

(** C28.  A practice verdict delivered twice is awarded once: of
    the two progress updates it causes, the second adds no experience points,
    no solved problem, and leaves the problem solved if it was. *)
Theorem awarded_once hp data w w2 n m s s' s'' c c' user problem now now' later later' t t1 t2 :
  alone w → alone w2 → sends_update hp data w n s s' c → sends_update hp data w2 m s' s'' c' →
  update_tables user problem c now later t = Some t1 →
  update_tables user problem c' now' later' t1 = Some t2 →
  total_xp user t2 = total_xp user t1 ∧
  ur_total_solved (user_row user t2) = ur_total_solved (user_row user t1) ∧
  has_solved user problem t2 = has_solved user problem t1.
Proof.
  intros Ho Ho2 [[n' H] Hc] [[m' H2] Hc'] Hu Hu2.
  destruct (decode_execution data) as [r|] eqn:Hd; [|unfold onResult in H; by rewrite Hd in H].
  destruct (acked_progress _ _ _ _ _ _ _ _ _ Hd Ho H Hc) as [l ->].
  destruct (acked_progress _ _ _ _ _ _ _ _ _ Hd Ho2 H2 Hc') as [l' ->].
  destruct (update_effect _ _ _ _ _ _ _ (progress_update_coherent r l) Hu) as (_ & _ & Hs1).
  destruct (update_effect _ _ _ _ _ _ _ (progress_update_coherent r l') Hu2) as (Hx & Ht & Hs2).
  rewrite (progress_update_correct r l l') in Hx, Ht, Hs2. rewrite Hs1 in Hx, Ht, Hs2.
  destruct (up_IsCorrect (progress_update r l)), (has_solved user problem t); cbn in *;
    rewrite ?Hs1, ?Hs2; (split_and!; [lia|lia|done]).
Qed.
End Awarded.
