(* ===== verification/Answers.v ===== *)
(** Sitting a test (services/assessment-service/internal/repository/attempts.go
    from [GetAttemptState] on, [GetAttemptResult] of scoring.go) and the
    handlers that combine repository calls
    (services/assessment-service/internal/handler/grpc.go).

    Every write to an answer carries the condition [stillLive], which is the
    guard of the statement itself, not of the reads before it. *)

From S2P Require Import Prelude GoStrings Float64 Strconv GoTime Grading Store Scoring Attempts.
From Stdlib Require Import Ascii.

#[local] Open Scope Z_scope.
#[local] Open Scope repo_scope.

(** ** The paper as shown *)

Record McqOption := { op_Id : string; op_Body : string; op_IsCorrect : bool; op_OrderIndex : Z }.

Record AttemptQuestion := {
  q_Id : string;
  q_SectionId : string;
  q_Kind : QKind;
  q_OrderIndex : Z;
  q_Marks : float64;
  q_Body : string;
  q_McqKind : string;
  q_Options : list McqOption;
  q_ProblemId : string;
  q_ProblemTitle : string;
  q_SelectedOptionIds : list string;
  q_TextAnswer : string;
  q_SubmissionId : string;
  q_Language : string;
  q_Code : string;
  q_GradingStatus : GradingStatus;
  q_Visited : bool;
  q_MarkedReview : bool;
  q_TimeSpentMs : Z;
  q_AwardedMarks : option float64;
}.

Record AttemptSection := {
  as_Id : string; as_Title : string; as_Kind : QKind; as_OrderIndex : Z; as_DurationMinutes : Z }.

Record AttemptState := {
  st_AttemptId : string;
  st_AssessmentId : string;
  st_Title : string;
  st_Status : AttemptStatus;
  st_AllowBacktrack : bool;
  st_LockForward : bool;
  st_Proctoring : Proctoring;
  st_ServerNow : string;
  st_ExpiresAt : string;
  st_SecondsLeft : Z;
  st_MaxScore : float64;
  st_NegativeMarking : float64;
  st_ResultsWithheld : bool;
  st_Sections : list AttemptSection;
  st_Questions : list AttemptQuestion;
}.

Record SaveAnswerRequest := {
  sv_AttemptId : string;
  sv_UserId : string;
  sv_QuestionId : string;
  sv_SelectedOptionIds : list string;
  sv_TextAnswer : string;
  sv_TimeSpentMs : Z;
  sv_MarkedReview : bool;
  sv_ClearAnswer : bool;
  sv_Language : string;
  sv_Code : string;
}.

Record RecordProctorEventRequest := {
  pr_AttemptId : string; pr_UserId : string; pr_Kind : string; pr_Detail : string }.

Record RecordProctorEventResponse := {
  ps_IntegrityScore : float64; ps_Terminated : bool; ps_Warning : string }.

Record AttemptResult := {
  ar_Summary : AttemptSummary;
  ar_Questions : option (list AttemptQuestion);
  ar_Revealed : bool;
  ar_Withheld : bool;
}.

(** [btrim]: spaces only. *)
Definition is_blank_char (a : ascii) : bool := Ascii.eqb a " "%char.
Definition btrim (s : string) : string :=
  of_bytes (trim_right is_blank_char (drop_while is_blank_char (to_bytes s))).

Definition question_row (includeScores : bool) `{!Postgres} (db : DB) (row : string * QuestionRow)
  : AttemptQuestion :=
  let '(id, q) := row in
  let m := match aq_mcq_question_id q with Some m => mcq_questions db !! m | None => None end in
  {| q_Id := id; q_SectionId := aq_section_id q; q_Kind := aq_kind q; q_OrderIndex := aq_order_index q;
     q_Marks := num_value (aq_marks q);
     q_Body := match m with Some m => mq_body m | None => "" end;
     q_McqKind := match m with Some m => mq_kind m | None => "" end;
     q_Options := []; q_ProblemId := derefStr (aq_problem_id q);
     q_ProblemTitle := match aq_problem_id q with
                       | Some p => default "" (problem_titles db !! p) | None => "" end;
     q_SelectedOptionIds := aq_selected_options q; q_TextAnswer := derefStr (aq_text_answer q);
     q_SubmissionId := derefStr (aq_submission_id q); q_Language := aq_language q;
     q_Code := aq_code q; q_GradingStatus := aq_grading_status q; q_Visited := aq_visited q;
     q_MarkedReview := aq_marked_review q; q_TimeSpentMs := aq_time_spent_ms q;
     q_AwardedMarks := if includeScores then num_value <$> aq_awarded_marks q else None |}.

(** The options of one question in its frozen order. *)
Fixpoint frozen_options (byID : string → option McqOption) (i : Z) (order : list string)
  : list McqOption :=
  match order with
  | [] => []
  | id :: t =>
      match byID id with
      | Some o =>
          {| op_Id := op_Id o; op_Body := op_Body o; op_IsCorrect := op_IsCorrect o;
             op_OrderIndex := i |} :: frozen_options byID (i + 1) t
      | None => frozen_options byID (i + 1) t
      end
  end.

Definition with_options (opts : list McqOption) (q : AttemptQuestion) : AttemptQuestion :=
  {| q_Id := q_Id q; q_SectionId := q_SectionId q; q_Kind := q_Kind q;
     q_OrderIndex := q_OrderIndex q; q_Marks := q_Marks q; q_Body := q_Body q;
     q_McqKind := q_McqKind q; q_Options := opts; q_ProblemId := q_ProblemId q;
     q_ProblemTitle := q_ProblemTitle q; q_SelectedOptionIds := q_SelectedOptionIds q;
     q_TextAnswer := q_TextAnswer q; q_SubmissionId := q_SubmissionId q;
     q_Language := q_Language q; q_Code := q_Code q; q_GradingStatus := q_GradingStatus q;
     q_Visited := q_Visited q; q_MarkedReview := q_MarkedReview q;
     q_TimeSpentMs := q_TimeSpentMs q; q_AwardedMarks := q_AwardedMarks q |}.

(** The option order of a multiple-choice row, none for the others. *)
Definition row_order (q : QuestionRow) : list string :=
  match aq_mcq_question_id q with Some _ => aq_option_order q | None => [] end.

(** The option query; without scores the column read for correctness is the
    constant [false]. *)
Definition option_rows (includeScores : bool) (ids : list string) (db : DB) (id : string)
  : option McqOption :=
  if bool_decide (id ∈ ids) then
    match mcq_options db !! id with
    | Some o => Some {| op_Id := id; op_Body := mo_body o;
                        op_IsCorrect := if includeScores then mo_is_correct o else false;
                        op_OrderIndex := 0 |}
    | None => None
    end
  else None.

Section Answers.
Context {PG : Postgres}.

Definition ordered_rows (attemptID : string) (db : DB) : list (string * QuestionRow) :=
  order_by (λ a b : string * QuestionRow, aq_order_index a.2 <=? aq_order_index b.2)
    (attempt_rows attemptID db).

(** [attemptQuestions] *)
Definition attemptQuestions (attemptID : string) (includeScores : bool) : M (list AttemptQuestion) :=
  rows <- select Pool "load attempt questions"
    (λ db, map (λ row, (row_order row.2, question_row includeScores db row))
             (ordered_rows attemptID db)) ;;
  let allOptionIDs := concat (map fst rows) in
  if bool_decide (allOptionIDs = []) then ret (map snd rows)
  else
    byID <- select Pool "load attempt options" (option_rows includeScores allOptionIDs) ;;
    ret (map (λ row : list string * AttemptQuestion,
                if bool_decide (row.1 = []) then row.2
                else with_options (frozen_options byID 0 row.1) row.2) rows).

(** [attemptSections] *)
Definition attemptSections (assessmentID : string) : M (list AttemptSection) :=
  select Pool "load attempt sections"
    (λ db, map (λ row : string * SectionRow,
                  {| as_Id := row.1; as_Title := se_title row.2; as_Kind := se_kind row.2;
                     as_OrderIndex := se_order_index row.2;
                     as_DurationMinutes := default 0 (se_duration_minutes row.2) |})
             (section_rows assessmentID db)).

(** [GetAttemptState] *)
Definition GetAttemptState (attemptID userID : string) : M AttemptState :=
  a <- loadAttempt Pool attemptID ;;
  if negb (String.eqb (cx_UserID a) userID) then fail ErrForbidden
  else
    now <- now ;;
    a <- (if bool_decide (cx_Status a = InProgress) && (cx_ExpiresAt a <? now)
          then FinalizeAttempt attemptID "timeout" ;; loadAttempt Pool attemptID
          else ret a) ;;
    sections <- attemptSections (cx_AssessmentID a) ;;
    questions <- attemptQuestions attemptID false ;;
    ret {| st_AttemptId := cx_ID a; st_AssessmentId := cx_AssessmentID a; st_Title := cx_Title a;
           st_Status := cx_Status a; st_AllowBacktrack := cx_AllowBacktrack a;
           st_LockForward := cx_LockForward a; st_Proctoring := cx_Proctoring a;
           st_ServerNow := of_bytes (rfc3339 now); st_ExpiresAt := of_bytes (rfc3339 (cx_ExpiresAt a));
           st_SecondsLeft := secondsLeft a now; st_MaxScore := cx_MaxScore a;
           st_NegativeMarking := cx_NegativeMarking a;
           st_ResultsWithheld := resultsWithheld (cx_Purpose a);
           st_Sections := sections; st_Questions := questions |}.

(** ** Answering *)

(** [requireLiveAttempt] *)
Definition requireLiveAttempt (attemptID userID : string) : M attemptCtx :=
  a <- loadAttempt Pool attemptID ;;
  if negb (String.eqb (cx_UserID a) userID) then fail ErrForbidden
  else if negb (bool_decide (cx_Status a = InProgress)) then fail ErrAttemptClosed
  else
    now <- now ;;
    if cx_ExpiresAt a <? now then
      FinalizeAttempt attemptID "timeout" ;;
      fail ErrAttemptClosed
    else ret a.

(** Not yet answered, as the sequential lock sees it. *)
Definition unanswered (q : QuestionRow) : bool :=
  if bool_decide (aq_kind q = Coding) then bool_decide (aq_submission_id q = None)
  else bool_decide (aq_selected_options q = [])
       && String.eqb (default "" (btrim <$> aq_text_answer q)) "".

Definition first_pending (attemptID : string) (orderIndex : Z) (db : DB) : option Z :=
  head (map (λ row : string * QuestionRow, aq_order_index row.2)
          (filter (λ row : string * QuestionRow,
                     (aq_order_index row.2 <? orderIndex) && unanswered row.2 = true)
             (ordered_rows attemptID db))).

(** [requireEarlierAnswered] *)
Definition requireEarlierAnswered (attemptID : string) (orderIndex : Z) : M unit :=
  pending <- select Pool "check sequential lock" (λ db, default (-1) (first_pending attemptID orderIndex db)) ;;
  if 0 <=? pending
  then fail (ErrMsg ("answer question " +:+ format_int (pending + 1) +:+ " before moving on"))
  else ret tt.

(** The condition [stillLive]. *)
Definition stillLive (attemptID : string) (db : DB) : bool :=
  match attempts db !! attemptID with
  | Some a => bool_decide (at_status a = InProgress)
  | None => false
  end.

(** An UPDATE of one question of a live attempt: the number of rows it
    changed. *)
Definition update_live (questionID attemptID : string) (f : QuestionRow → QuestionRow) (db : DB)
  : Z * DB :=
  match attempt_questions db !! questionID with
  | Some q =>
      if String.eqb (aq_attempt_id q) attemptID && stillLive attemptID db
      then (1, with_questions (update_row questionID f) db) else (0, db)
  | None => (0, db)
  end.

Definition save_draft (req : SaveAnswerRequest) (spent : Z) (q : QuestionRow) : QuestionRow :=
  {| aq_attempt_id := aq_attempt_id q; aq_section_id := aq_section_id q; aq_kind := aq_kind q;
     aq_mcq_question_id := aq_mcq_question_id q; aq_problem_id := aq_problem_id q;
     aq_order_index := aq_order_index q; aq_marks := aq_marks q;
     aq_option_order := aq_option_order q; aq_selected_options := aq_selected_options q;
     aq_text_answer := aq_text_answer q; aq_submission_id := aq_submission_id q;
     aq_language := if String.eqb (sv_Language req) "" then aq_language q else sv_Language req;
     aq_code := sv_Code req; aq_awarded_marks := aq_awarded_marks q;
     aq_grading_status := aq_grading_status q;
     aq_time_spent_ms := aq_time_spent_ms q + Z.max spent 0; aq_visited := true;
     aq_marked_review := sv_MarkedReview req |}.

Definition save_selection (req : SaveAnswerRequest) (selected : list string) (spent : Z)
  (q : QuestionRow) : QuestionRow :=
  {| aq_attempt_id := aq_attempt_id q; aq_section_id := aq_section_id q; aq_kind := aq_kind q;
     aq_mcq_question_id := aq_mcq_question_id q; aq_problem_id := aq_problem_id q;
     aq_order_index := aq_order_index q; aq_marks := aq_marks q;
     aq_option_order := aq_option_order q; aq_selected_options := selected;
     aq_text_answer := if sv_ClearAnswer req then None else Some (sv_TextAnswer req);
     aq_submission_id := aq_submission_id q; aq_language := aq_language q; aq_code := aq_code q;
     aq_awarded_marks := aq_awarded_marks q; aq_grading_status := aq_grading_status q;
     aq_time_spent_ms := aq_time_spent_ms q + Z.max spent 0; aq_visited := true;
     aq_marked_review := sv_MarkedReview req |}.

(** The casts of the statement's parameters. *)
Fixpoint uuids (l : list string) : option (list string) :=
  match l with
  | [] => Some []
  | x :: t => match uuid_param x, uuids t with Some y, Some ys => Some (y :: ys) | _, _ => None end
  end.

Definition draft_statement (req : SaveAnswerRequest) (db : DB) : option (Z * DB) :=
  match int_param (sv_TimeSpentMs req) with
  | Some spent => Some (update_live (sv_QuestionId req) (sv_AttemptId req) (save_draft req spent) db)
  | None => None
  end.

Definition selection_statement (req : SaveAnswerRequest) (db : DB) : option (Z * DB) :=
  match uuids (if sv_ClearAnswer req then [] else sv_SelectedOptionIds req),
        int_param (sv_TimeSpentMs req) with
  | Some selected, Some spent =>
      Some (update_live (sv_QuestionId req) (sv_AttemptId req) (save_selection req selected spent) db)
  | _, _ => None
  end.

(** The furthest question visited, -1 for none. *)
Definition furthest_visited (attemptID : string) (db : DB) : Z :=
  foldr (λ row z, if aq_visited row.2 then Z.max (aq_order_index row.2) z else z) (-1)
    (attempt_rows attemptID db).

Definition find_question (questionID attemptID : string) (db : DB) : option QuestionRow :=
  match attempt_questions db !! questionID with
  | Some q => if String.eqb (aq_attempt_id q) attemptID then Some q else None
  | None => None
  end.

(** [SaveAnswer] *)
Definition SaveAnswer (req : SaveAnswerRequest) : M Z :=
  a <- requireLiveAttempt (sv_AttemptId req) (sv_UserId req) ;;
  q <- select Pool "lookup attempt question"
    (λ db, (λ q, (aq_kind q, aq_order_index q))
             <$> find_question (sv_QuestionId req) (sv_AttemptId req) db) ;;
  match q with
  | None => fail ErrNotFound
  | Some (kind, orderIndex) =>
      (if cx_LockForward a then requireEarlierAnswered (sv_AttemptId req) orderIndex else ret tt) ;;
      if bool_decide (kind = Coding) then
        n <- statement Pool "save coding draft" (λ _, draft_statement req) ;;
        if n =? 0 then fail ErrAttemptClosed
        else
          t <- now ;;
          ret (secondsLeft a t)
      else
        (if negb (cx_AllowBacktrack a) then
           furthest <- select Pool "check backtrack" (furthest_visited (sv_AttemptId req)) ;;
           if orderIndex <? furthest
           then fail (ErrMsg "this test does not allow going back to an earlier question")
           else ret tt
         else ret tt) ;;
        n <- statement Pool "save answer" (λ _, selection_statement req) ;;
        if n =? 0 then fail ErrAttemptClosed
        else
          t <- now ;;
          ret (secondsLeft a t)
  end.

(** ** Code *)

(** [AttemptCodingQuestion] *)
Definition AttemptCodingQuestion (attemptID userID questionID : string) : M string :=
  a <- requireLiveAttempt attemptID userID ;;
  q <- select Pool "lookup coding question"
    (λ db, match find_question questionID attemptID db with
           | Some q => if is_kind Coding q then Some (derefStr (aq_problem_id q), aq_order_index q)
                       else None
           | None => None
           end) ;;
  match q with
  | None => fail ErrNotFound
  | Some (problemID, orderIndex) =>
      (if cx_LockForward a then requireEarlierAnswered attemptID orderIndex else ret tt) ;;
      if String.eqb problemID "" then fail (ErrMsg "this question has no problem attached")
      else ret problemID
  end.

Definition mark_pending (submissionID language code : string) (q : QuestionRow) : QuestionRow :=
  {| aq_attempt_id := aq_attempt_id q; aq_section_id := aq_section_id q; aq_kind := aq_kind q;
     aq_mcq_question_id := aq_mcq_question_id q; aq_problem_id := aq_problem_id q;
     aq_order_index := aq_order_index q; aq_marks := aq_marks q;
     aq_option_order := aq_option_order q; aq_selected_options := aq_selected_options q;
     aq_text_answer := aq_text_answer q; aq_submission_id := Some submissionID;
     aq_language := language; aq_code := code; aq_awarded_marks := aq_awarded_marks q;
     aq_grading_status := Pending; aq_time_spent_ms := aq_time_spent_ms q; aq_visited := true;
     aq_marked_review := aq_marked_review q |}.

(** The insert needs its question; a known submission id changes nothing. *)
Definition insert_submission (questionID submissionID language code : string) (db : DB)
  : option (unit * DB) :=
  match attempt_submissions db !! submissionID with
  | Some _ => Some (tt, db)
  | None =>
      if bool_decide (is_Some (attempt_questions db !! questionID)) then
        Some (tt, with_submissions (<[submissionID :=
          {| sb_attempt_question_id := questionID; sb_language := language; sb_code := code;
             sb_passed_count := None; sb_total_count := None; sb_status := "Pending" |}]>) db)
      else None
  end.

Definition record_body (attemptID questionID submissionID language code : string) : M unit :=
  statement Tx "insert attempt submission"
    (λ _, insert_submission questionID submissionID language code) ;;
  n <- statement Tx "mark question pending"
    (λ _ db, Some (update_live questionID attemptID (mark_pending submissionID language code) db)) ;;
  if n =? 0 then fail ErrAttemptClosed else ret tt.

(** [RecordCodeSubmission] *)
Definition RecordCodeSubmission (attemptID questionID submissionID language code : string) : M Z :=
  transaction "begin record submission" "commit record submission"
    (record_body attemptID questionID submissionID language code) ;;
  a <- loadAttempt Pool attemptID ;;
  t <- now ;;
  ret (secondsLeft a t).

(** [GetAttemptSubmissionStatus]: status, passed and total counts. *)
Definition GetAttemptSubmissionStatus (attemptID userID submissionID : string) : M (string * Z * Z) :=
  a <- loadAttempt Pool attemptID ;;
  if negb (String.eqb (cx_UserID a) userID) then fail ErrForbidden
  else
    r <- select Pool "get submission status"
      (λ db, match attempt_submissions db !! submissionID with
             | Some s =>
                 match find_question (sb_attempt_question_id s) attemptID db with
                 | Some _ => Some (sb_status s, default 0 (sb_passed_count s), default 0 (sb_total_count s))
                 | None => None
                 end
             | None => None
             end) ;;
    match r with None => fail ErrNotFound | Some out => ret out end.

(** ** Proctoring *)

Definition decay (p : Z) (a : AttemptRow) : AttemptRow :=
  {| at_assessment_id := at_assessment_id a; at_user_id := at_user_id a;
     at_invite_id := at_invite_id a; at_attempt_no := at_attempt_no a; at_status := at_status a;
     at_seed := at_seed a; at_started_at := at_started_at a; at_expires_at := at_expires_at a;
     at_submitted_at := at_submitted_at a; at_evaluated_at := at_evaluated_at a;
     at_score := at_score a; at_max_score := at_max_score a;
     at_section_scores := at_section_scores a;
     at_integrity_score := Z.max (at_integrity_score a - p) 0 |}.

(** The event is inserted and the score decayed by one statement; without
    the attempt the insert's foreign key fails. *)
Definition proctor_statement (req : RecordProctorEventRequest) (penalty : float64) (st : Stamp) (db : DB)
  : option (Z * DB) :=
  match attempts db !! pr_AttemptId req, num_param integrity_limit penalty with
  | Some a, Some p =>
      Some (at_integrity_score (decay p a),
            with_attempts (update_row (pr_AttemptId req) (decay p))
              (with_events (λ l, l ++ [{| pe_attempt_id := pr_AttemptId req;
                                          pe_kind := pr_Kind req; pe_detail := pr_Detail req;
                                          pe_occurred_at := to_micro (st_now st) |}]) db))
  | _, _ => None
  end.

Definition is_breach (kind : string) : bool :=
  String.eqb kind "tab_blur" || String.eqb kind "fullscreen_exit".

Definition count_breaches (attemptID : string) (db : DB) : Z :=
  Z.of_nat (length (filter (λ ev, String.eqb (pe_attempt_id ev) attemptID && is_breach (pe_kind ev) = true)
                      (proctor_events db))).

(** [RecordProctorEvent] *)
Definition RecordProctorEvent (req : RecordProctorEventRequest) : M RecordProctorEventResponse :=
  a <- loadAttempt Pool (pr_AttemptId req) ;;
  if negb (String.eqb (cx_UserID a) (pr_UserId req)) then fail ErrForbidden
  else if negb (bool_decide (cx_Status a = InProgress)) then
    ret {| ps_IntegrityScore := cx_IntegrityScore a; ps_Terminated := false; ps_Warning := "" |}
  else
    score <- statement Pool "record proctor event"
      (proctor_statement req (IntegrityPenalty (pr_Kind req))) ;;
    let limit := TabSwitchLimit (cx_Proctoring a) in
    if (0 <? limit) && is_breach (pr_Kind req) then
      breaches <- select Pool "count proctor breaches" (count_breaches (pr_AttemptId req)) ;;
      if limit <=? breaches then
        FinalizeAttempt (pr_AttemptId req) "proctor" ;;
        ret {| ps_IntegrityScore := num_value score; ps_Terminated := true;
               ps_Warning := "Test ended: you left the test window " +:+ format_int breaches
                             +:+ " times." |}
      else
        let remaining := limit - breaches in
        ret {| ps_IntegrityScore := num_value score; ps_Terminated := false;
               ps_Warning := if remaining <=? 2
                             then "Warning: " +:+ format_int remaining
                                  +:+ " more switches will end your test."
                             else "" |}
    else ret {| ps_IntegrityScore := num_value score; ps_Terminated := false; ps_Warning := "" |}.

(** ** Results *)

(** [GetAttemptResult] *)
Definition GetAttemptResult (attemptID userID : string) : M AttemptResult :=
  a <- loadAttempt Pool attemptID ;;
  if negb (String.eqb (cx_UserID a) userID) then fail ErrForbidden
  else if bool_decide (cx_Status a = InProgress)
  then fail (ErrMsg "this attempt is still in progress")
  else
    summary <- loadSummary attemptID ;;
    if resultsWithheld (cx_Purpose a) then
      ret {| ar_Summary := redactWithheld summary; ar_Questions := None; ar_Revealed := false;
             ar_Withheld := true |}
    else if negb (cx_RevealResults a) then
      ret {| ar_Summary := summary; ar_Questions := None; ar_Revealed := cx_RevealResults a;
             ar_Withheld := false |}
    else
      questions <- attemptQuestions attemptID true ;;
      ret {| ar_Summary := summary; ar_Questions := Some questions;
             ar_Revealed := cx_RevealResults a; ar_Withheld := false |}.

(** ** Handlers *)

(** The handler's [SubmitAttempt]. *)
Definition SubmitAttempt (attemptID userID reason : string) : M AttemptSummary :=
  state <- GetAttemptState attemptID userID ;;
  if negb (bool_decide (st_Status state = InProgress)) then
    summary <- loadSummary attemptID ;;
    ret (redactWithheld summary)
  else
    summary <- FinalizeAttempt attemptID (if String.eqb reason "" then "user" else reason) ;;
    ret (redactWithheld summary).

(** The handler's [SubmitAttemptCode]; [Submit] is the submission service. *)
Definition SubmitAttemptCode (Submit : string → string → string → string + string)
  (attemptID userID questionID language code : string) : M (string * Z) :=
  problemID <- AttemptCodingQuestion attemptID userID questionID ;;
  match Submit problemID language code with
  | inr _ => fail (ErrMsg "could not submit your code, please try again")
  | inl submissionID =>
      left <- RecordCodeSubmission attemptID questionID submissionID language code ;;
      ret (submissionID, left)
  end.

(** The handler's [StartAttempt]. *)
Definition HandleStart `{!GoRand, !GoFormat} (IsUUID : string → bool) (req : StartAttemptRequest)
  : M AttemptState :=
  attemptID <- StartAttempt IsUUID req ;;
  GetAttemptState attemptID (sa_UserId req).
End Answers.

(** The gRPC code of an error. *)
Inductive StatusCode :=
  OK | NotFound | PermissionDenied | FailedPrecondition | ResourceExhausted | InternalError.

(** [wrap] *)
Definition wrap (err : option Err) : StatusCode :=
  match err with
  | None => OK
  | Some ErrNotFound => NotFound
  | Some ErrForbidden => PermissionDenied
  | Some ErrAttemptClosed => FailedPrecondition
  | Some ErrNoAttemptsLeft => ResourceExhausted
  | Some ErrNotInvited => PermissionDenied
  | Some _ => InternalError
  end.

(** ** Lemmas on the gates *)

Section AnswerLemmas.
Context {PG : Postgres}.

Lemma requireLiveAttempt_inv id user e n db a n' db' :
  requireLiveAttempt id user e n db = (inl a, n', db') →
  n' = S (S n) ∧ db' = interfere e n db ∧ find_ctx id db' = Some a ∧ cx_UserID a = user
  ∧ cx_Status a = InProgress ∧ clock e (S n) ≤ cx_ExpiresAt a.
Proof.
  intros H. run_bind H a0 n1 db1 Hm. apply loadAttempt_inv in Hm as (-> & -> & Ha).
  destruct (String.eqb_spec (cx_UserID a0) user); [|done]. cbn [negb] in H.
  case_bool_decide as Hs; [|done]. cbn [negb] in H.
  run_bind H t n2 db2 Hm. injection Hm as <- <- <-.
  destruct (Z.ltb_spec (cx_ExpiresAt a0) (clock e (S n))).
  - run_bind H s n3 db3 Hm. done.
  - by injection H as <- <- <-.
Qed.

Lemma update_live_inv qid aid f db m db' :
  update_live qid aid f db = (m, db') →
  m = 0 ∧ db' = db ∨
  m = 1 ∧ stillLive aid db = true ∧ db' = with_questions (update_row qid f) db
  ∧ ∃ q, attempt_questions db !! qid = Some q ∧ aq_attempt_id q = aid.
Proof.
  unfold update_live. destruct (attempt_questions db !! qid) as [q|]; [|intros [= <- <-]; by left].
  destruct (String.eqb_spec (aq_attempt_id q) aid); [|intros [= <- <-]; by left]. simpl.
  destruct (stillLive aid db); intros [= <- <-]; [right|by left]. eauto 10.
Qed.

(** How a successful save changed the question. *)
Inductive saved (req : SaveAnswerRequest) (q : QuestionRow) : QuestionRow → Prop :=
  | saved_draft spent :
      int_param (sv_TimeSpentMs req) = Some spent → saved req q (save_draft req spent q)
  | saved_selection selected spent :
      uuids (if sv_ClearAnswer req then [] else sv_SelectedOptionIds req) = Some selected →
      int_param (sv_TimeSpentMs req) = Some spent →
      saved req q (save_selection req selected spent q).

Definition earlier_answered (aid : string) (orderIndex : Z) (db : DB) : Prop :=
  ∀ id q, attempt_questions db !! id = Some q → aq_attempt_id q = aid →
          aq_order_index q < orderIndex → unanswered q = false.

Lemma ordered_rows_elem aid db id q :
  (id, q) ∈ ordered_rows aid db ↔ attempt_questions db !! id = Some q ∧ aq_attempt_id q = aid.
Proof.
  unfold ordered_rows, attempt_rows. rewrite (order_by_perm _ _), elem_rows_where.
  unfold in_attempt. by rewrite String.eqb_eq.
Qed.

(** No order index is negative on a paper [buildPaper] numbered; for those
    the lock's -1 is unambiguous. *)
Definition indices_nonneg (aid : string) (db : DB) : Prop :=
  ∀ id q, attempt_questions db !! id = Some q → aq_attempt_id q = aid → 0 ≤ aq_order_index q.

Lemma first_pending_none aid i db : first_pending aid i db = None → earlier_answered aid i db.
Proof.
  unfold first_pending, earlier_answered. intros H id q Hq Ha Hlt.
  destruct (unanswered q) eqn:E; [|done]. exfalso.
  set (l := filter _ _) in H. assert (Hin : (id, q) ∈ l).
  { apply list_elem_of_filter. split; [|by apply ordered_rows_elem]. simpl.
    apply andb_true_iff. split; [by apply Z.ltb_lt|done]. }
  destruct l; [by apply elem_of_nil in Hin|done].
Qed.

Lemma first_pending_some aid i db p :
  first_pending aid i db = Some p →
  ∃ id q, attempt_questions db !! id = Some q ∧ aq_attempt_id q = aid ∧ aq_order_index q = p
          ∧ p < i ∧ unanswered q = true.
Proof.
  unfold first_pending. destruct (filter _ _) as [|[id q] l] eqn:E; [done|]. intros [= <-].
  assert (Hin : (id, q) ∈ (id, q) :: l) by constructor. rewrite <- E in Hin.
  apply list_elem_of_filter in Hin as [Hp Hin]. simpl in Hp. apply andb_true_iff in Hp as [Hp1 Hp2].
  apply ordered_rows_elem in Hin as [Hq Ha]. apply Z.ltb_lt in Hp1. eauto 10.
Qed.

Lemma requireEarlierAnswered_inv aid i e n db u n' db' :
  requireEarlierAnswered aid i e n db = (inl u, n', db') →
  n' = S n ∧ db' = interfere e n db ∧ (indices_nonneg aid db' → earlier_answered aid i db').
Proof.
  intros H. run_bind H p n1 db1 Hm. run_read Hm.
  destruct (Z.leb_spec 0 (default (-1) (first_pending aid i (interfere e n db)))) as [Hle|Hlt];
    [done|]. injection H as _ <- <-. split_and!; [done..|]. intros Hn.
  destruct (first_pending aid i (interfere e n db)) as [p|] eqn:E; [|by apply first_pending_none].
  apply first_pending_some in E as (id & q & Hq & Ha & <- & _). specialize (Hn _ _ Hq Ha).
  simpl in Hlt. lia.
Qed.

Lemma furthest_visited_max aid db id q :
  attempt_questions db !! id = Some q → aq_attempt_id q = aid → aq_visited q = true →
  aq_order_index q ≤ furthest_visited aid db.
Proof.
  intros Hq Ha Hv. assert (Hin : (id, q) ∈ attempt_rows aid db).
  { apply elem_rows_where. split; [done|]. by apply String.eqb_eq. }
  unfold furthest_visited. induction (attempt_rows aid db) as [|[i r] l IH]; [by apply elem_of_nil in Hin|].
  simpl. apply elem_of_cons in Hin as [[= <- <-]|Hin].
  - rewrite Hv. lia.
  - specialize (IH Hin). destruct (aq_visited r); lia.
Qed.

(** The guards on sequence a save went through: the states in which they were
    evaluated, and what they found. *)
Definition sequence_kept (req : SaveAnswerRequest) (a : attemptCtx) (kind : QKind) (i : Z) (db : DB)
  : Prop :=
  (cx_LockForward a = true → indices_nonneg (sv_AttemptId req) db →
     earlier_answered (sv_AttemptId req) i db) ∧
  (cx_AllowBacktrack a = false → kind ≠ Coding → ∀ id q, attempt_questions db !! id = Some q →
     aq_attempt_id q = sv_AttemptId req → aq_visited q = true → aq_order_index q ≤ i).

(** A successful save, step by step: the gate held at [db1], the guards of
    sequence held between, and the write happened in [dbw], where the attempt
    was live. *)
Lemma SaveAnswer_inv req e n db left n' db' :
  SaveAnswer req e n db = (inl left, n', db') →
  ∃ a dbw q q', find_ctx (sv_AttemptId req) (interfere e n db) = Some a ∧
    cx_UserID a = sv_UserId req ∧ cx_Status a = InProgress ∧ clock e (S n) ≤ cx_ExpiresAt a ∧
    stillLive (sv_AttemptId req) dbw = true ∧
    attempt_questions dbw !! sv_QuestionId req = Some q ∧ aq_attempt_id q = sv_AttemptId req ∧
    saved req q q' ∧ db' = with_questions (update_row (sv_QuestionId req) (λ _, q')) dbw ∧
    (undisturbed e → dbw = db ∧ sequence_kept req a (aq_kind q) (aq_order_index q) db).
Proof.
  intros H. run_bind H a n1 db1 Hm. apply requireLiveAttempt_inv in Hm as (-> & -> & Ha & Hu & Hs & Ht).
  run_bind H q0 n2 db2 Hm. run_read Hm.
  destruct (find_question _ _ _) as [q1|] eqn:Eq; [|done]. cbn in H.
  run_bind H u n3 db3 Hl.
  assert (Hl' : undisturbed e → db3 = db ∧ (cx_LockForward a = true → indices_nonneg (sv_AttemptId req) db →
     earlier_answered (sv_AttemptId req) (aq_order_index q1) db)).
  { intros [_ Hi]. rewrite !Hi in Hl. destruct (cx_LockForward a).
    - apply requireEarlierAnswered_inv in Hl as (_ & -> & He). rewrite Hi in *. auto.
    - injection Hl as _ _ <-. done. }
  clear Hl.
  assert (Hw : ∀ label f e1 n0 db0 k dbk, statement (A := Z) Pool label (λ _, f) e1 n0 db0 = (inl k, S n0, dbk) →
    f (interfere e1 n0 db0) = Some (k, dbk)).
  { intros * Hst. by apply statement_inv in Hst as [_ Hst]. }
  assert (Hu' : undisturbed e → attempt_questions db !! sv_QuestionId req = Some q1).
  { intros [_ Hi]. rewrite !Hi in Eq. unfold find_question in Eq.
    destruct (attempt_questions db !! _) as [q2|]; [|done]. destruct (String.eqb _ _); [|done]. congruence. }
  case_bool_decide as Hk.
  - run_bind H k n4 db4 Hm. run_stmt Hm. unfold draft_statement in Hm.
    destruct (int_param _) as [spent|] eqn:Ei; [|done]. injection Hm as Hm.
    apply update_live_inv in Hm as [[-> _]|(-> & Hlive & -> & q & Hq & Hqa)]; [done|].
    cbn [Z.eqb] in H. run_bind H t n5 db5 Hm. injection Hm as <- <- <-. injection H as <- <- <-.
    exists a, (interfere e n3 db3), q, (save_draft req spent q). split_and!; try done.
    + by constructor.
    + unfold with_questions. f_equal. by apply update_row_const.
    + intros Hund. pose proof Hund as [_ Hi]. destruct (Hl' Hund) as [-> Hseq]. rewrite Hi in *.
      split; [done|]. specialize (Hu' Hund). simplify_eq. by split.
  - run_bind H u2 n4 db4 Hb.
    assert (Hb' : undisturbed e → db4 = db3 ∧ (cx_AllowBacktrack a = false →
       furthest_visited (sv_AttemptId req) db3 ≤ aq_order_index q1)).
    { intros [_ Hi]. destruct (cx_AllowBacktrack a); cbn [negb] in Hb.
      - injection Hb as _ _ <-. done.
      - run_bind Hb fv n5 db5 Hm. run_read Hm. rewrite Hi in *.
        destruct (Z.ltb_spec (aq_order_index q1) (furthest_visited (sv_AttemptId req) db3)); [done|].
        injection Hb as _ _ <-. done. }
    clear Hb. run_bind H k n5 db5 Hm. run_stmt Hm. unfold selection_statement in Hm.
    destruct (uuids _) as [sel|] eqn:Es; [|done].
    destruct (int_param _) as [spent|] eqn:Ei; [|done]. injection Hm as Hm.
    apply update_live_inv in Hm as [[-> _]|(-> & Hlive & -> & q & Hq & Hqa)]; [done|].
    cbn [Z.eqb] in H. run_bind H t n6 db6 Hm. injection Hm as <- <- <-. injection H as <- <- <-.
    exists a, (interfere e n4 db4), q, (save_selection req sel spent q). split_and!; try done.
    + by constructor.
    + unfold with_questions. f_equal. by apply update_row_const.
    + intros Hund. pose proof Hund as [_ Hi]. destruct (Hl' Hund) as [-> Hseq].
      destruct (Hb' Hund) as [-> Hback]. rewrite Hi in *. split; [done|].
      specialize (Hu' Hund). simplify_eq. split; [done|]. intros Hab _ id r Hr Hra Hv.
      etrans; [by eapply furthest_visited_max|by apply Hback].
Qed.
End AnswerLemmas.

(** ** Properties *)

Section AnswerTheorems.
Context {PG : Postgres}.

Lemma apply_marks_events ms db db' :
  apply_marks ms db = Some db' → proctor_events db' = proctor_events db.
Proof.
  revert db. induction ms as [|[i m] ms IH]; intros db; simpl; [by intros [= <-]|].
  unfold save_mark. destruct (num_param _ _); [|done]. intros H. by rewrite (IH _ H).
Qed.

(** C7.  Whatever else runs, a save succeeds only for the owner of an
    attempt that was found in progress and before its deadline, and that was
    still in progress in the very state the answer was written to; the write
    replaces one question of that attempt by the requested answer (or coding
    draft) and changes nothing else. *)
Theorem SaveAnswer_guarded req e n db left n' db' :
  SaveAnswer req e n db = (inl left, n', db') →
  ∃ a dbw q q',
    find_ctx (sv_AttemptId req) (interfere e n db) = Some a ∧ cx_UserID a = sv_UserId req ∧
    cx_Status a = InProgress ∧ clock e (S n) ≤ cx_ExpiresAt a ∧
    stillLive (sv_AttemptId req) dbw = true ∧
    attempt_questions dbw !! sv_QuestionId req = Some q ∧ aq_attempt_id q = sv_AttemptId req ∧
    saved req q q' ∧ db' = with_questions (update_row (sv_QuestionId req) (λ _, q')) dbw.
Proof.
  intros H. apply SaveAnswer_inv in H as (a & dbw & q & q' & H1 & H2 & H3 & H4 & H5 & H6 & H7 & H8 & H9 & _).
  exists a, dbw, q, q'. split_and!; done.
Qed.

(** On a sequential paper (lock_forward) a successful save had every
    earlier question answered; where going back is not allowed a successful
    save of an answer is never to a question before one already visited. *)
Theorem SaveAnswer_sequence req e n db left n' db' :
  undisturbed e → SaveAnswer req e n db = (inl left, n', db') →
  ∃ a q, find_ctx (sv_AttemptId req) db = Some a ∧
    attempt_questions db !! sv_QuestionId req = Some q ∧
    (cx_LockForward a = true → indices_nonneg (sv_AttemptId req) db →
       earlier_answered (sv_AttemptId req) (aq_order_index q) db) ∧
    (cx_AllowBacktrack a = false → aq_kind q ≠ Coding → ∀ id r,
       attempt_questions db !! id = Some r → aq_attempt_id r = sv_AttemptId req →
       aq_visited r = true → aq_order_index r ≤ aq_order_index q).
Proof.
  intros He H. apply SaveAnswer_inv in H as (a & dbw & q & q' & H1 & _ & _ & _ & _ & H6 & _ & _ & _ & H10).
  destruct (H10 He) as [-> [Hl Hb]]. destruct He as [_ Hi]. rewrite Hi in H1. exists a, q. split_and!; done.
Qed.

(** An event on a live attempt is appended to the ledger and
    takes its penalty off the integrity score, never below zero; the attempt
    is ended exactly when a limit is configured, the event is a breach of
    focus and the breaches on record have reached the limit, and then it is
    Disqualified. *)
Theorem RecordProctorEvent_effect req e n db resp n' db' at_ as_ :
  undisturbed e → RecordProctorEvent req e n db = (inl resp, n', db') →
  attempts db !! pr_AttemptId req = Some at_ → assessments db !! at_assessment_id at_ = Some as_ →
  at_status at_ = InProgress →
  let limit := TabSwitchLimit (as_proctoring as_) in
  ∃ p at' t,
    num_param integrity_limit (IntegrityPenalty (pr_Kind req)) = Some p ∧
    attempts db' !! pr_AttemptId req = Some at' ∧
    at_integrity_score at' = Z.max (at_integrity_score at_ - p) 0 ∧
    ps_IntegrityScore resp = num_value (at_integrity_score at') ∧
    proctor_events db' = proctor_events db ++
      [{| pe_attempt_id := pr_AttemptId req; pe_kind := pr_Kind req; pe_detail := pr_Detail req; pe_occurred_at := t |}] ∧
    ps_Terminated resp = (0 <? limit) && is_breach (pr_Kind req)
                         && (limit <=? count_breaches (pr_AttemptId req) db') ∧
    at_status at' = (if ps_Terminated resp then Disqualified else InProgress).
Proof.
  intros He H Hat Has Hs limit. pose proof He as [_ Hi].
  run_bind H a n1 db1 Hm. apply loadAttempt_inv in Hm as (-> & -> & Ha). rewrite Hi in *.
  apply find_ctx_inv in Ha as (at1 & as1 & Hat1 & Has1 & ->).
  rewrite Hat in Hat1. injection Hat1 as <-. rewrite Has in Has1. injection Has1 as <-.
  destruct (negb _); [done|]. cbn [cx_Status attempt_ctx] in H. rewrite Hs in H. cbn in H.
  run_bind H score n2 db2 Hm. run_stmt Hm. rewrite Hi in Hm. unfold proctor_statement in Hm.
  rewrite Hat in Hm. destruct (num_param _ _) as [p|] eqn:Ep; [|done]. injection Hm as <- <-.
  set (db2 := with_attempts _ _) in H.
  assert (Hat2 : attempts db2 !! pr_AttemptId req = Some (decay p at_)).
  { unfold db2. cbn. unfold update_row. by rewrite lookup_alter_eq, Hat. }
  fold limit in H. exists p.
  destruct ((0 <? limit) && is_breach (pr_Kind req)) eqn:Eb; cbn [andb];
    [|injection H as <- <- <-; eexists _, _; split_and!; [done|exact Hat2|done..]].
  run_bind H breaches n3 db3 Hm. run_read Hm. rewrite Hi in H.
  destruct (limit <=? count_breaches (pr_AttemptId req) db2) eqn:El; cycle 1.
  { injection H as <- <- <-. eexists _, _. rewrite El. split_and!; [done|exact Hat2|done..]. }
  run_bind H s n4 db4 Hf. injection H as <- <- <-.
  pose proof (FinalizeAttempt_inv _ _ _ _ _ _ _ _ He Hf) as (k & Hb & _).
  apply finalize_body_inv in Hb as (a & Ha & Hb).
  apply find_ctx_inv in Ha as (at2 & as2 & Hat2' & Has2 & ->).
  rewrite Hat2 in Hat2'. injection Hat2' as <-.
  destruct Hb as [[Hc _]|(_ & order & t1 & t2 & _ & Hb)]; [done|].
  assert (Hev : proctor_events db4 = proctor_events db2).
  { clear -Hb. unfold finalize_effect in Hb.
    destruct (apply_marks _ _) as [d1|] eqn:Em; [|done].
    assert (proctor_events d1 = proctor_events db2) as <-.
    { by eapply apply_marks_events. }
    unfold recompute_effect, save_score in Hb. cbn zeta in Hb. destruct (greatest_param _); [|done].
    destruct (_ <? _); [|done]. injection Hb as <-. cbn. unfold submit_invite.
    destruct (attempts _ !! _) as [x|]; [|done]. by destruct (at_invite_id x). }
  apply finalize_effect_inv in Hb as (_ & _ & _ & z & _ & _ & Hnew); [|done].
  eexists _, _. split_and!; [done|exact Hnew|done|done| | |done].
  - rewrite Hev. done.
  - cbn. unfold count_breaches. rewrite Hev. unfold count_breaches in El. by rewrite El.
Qed.

Lemma frozen_options_hidden byID i order :
  (∀ id o, byID id = Some o → op_IsCorrect o = false) →
  Forall (λ o, op_IsCorrect o = false) (frozen_options byID i order).
Proof.
  intros Hb. revert i. induction order as [|id t IH]; intros i; simpl; [constructor|].
  destruct (byID id) as [o|] eqn:E; [|apply IH]. constructor; [cbn; exact (Hb _ _ E)|apply IH].
Qed.

Definition no_key (q : AttemptQuestion) : Prop :=
  q_AwardedMarks q = None ∧ Forall (λ o, op_IsCorrect o = false) (q_Options q).

Lemma attemptQuestions_no_key id e n db qs n' db' :
  attemptQuestions id false e n db = (inl qs, n', db') → Forall no_key qs.
Proof.
  intros H. run_bind H rows n1 db1 Hm. run_read Hm.
  set (rows := map (λ row, (row_order row.2, question_row false (interfere e n db) row))
                (ordered_rows id (interfere e n db))) in H.
  assert (Hr : Forall (λ row : list string * AttemptQuestion,
                 q_AwardedMarks row.2 = None ∧ q_Options row.2 = []) rows).
  { unfold rows. generalize (ordered_rows id (interfere e n db)). intros l.
    induction l as [|[i q] l IH]; simpl; constructor; [by split|exact IH]. }
  cbv zeta in H. case_bool_decide.
  - injection H as <- _ _. apply Forall_map. eapply Forall_impl; [exact Hr|].
    intros [o q] [H1 H2]. simpl in *. split; [done|]. rewrite H2. constructor.
  - run_bind H byID n2 db2 Hm. run_read Hm. injection H as <- _ _. apply Forall_map.
    eapply Forall_impl; [exact Hr|]. intros [o q] [H1 H2]. simpl in *. case_bool_decide; split; try done.
    + rewrite H2. constructor.
    + apply frozen_options_hidden. intros i op. unfold option_rows. case_bool_decide; [|done].
      destruct (mcq_options _ !! i); [|done]. by intros [= <-].
Qed.


(** A summary that says nothing of the result. *)
Definition says_nothing (s : AttemptSummary) : Prop :=
  sm_Score s = float_zero ∧ sm_MaxScore s = float_zero ∧ sm_Percent s = float_zero ∧
  sm_Passed s = false ∧ sm_SectionScores s = ∅ ∧ sm_SectionMax s = ∅ ∧ sm_Decision s = "".

Lemma redactWithheld_spec s :
  sm_Purpose (redactWithheld s) = sm_Purpose s ∧
  (resultsWithheld (sm_Purpose s) = true → says_nothing (redactWithheld s)) ∧
  (resultsWithheld (sm_Purpose s) = false → redactWithheld s = s).
Proof. unfold redactWithheld. by destruct (resultsWithheld (sm_Purpose s)) eqn:E. Qed.

(** C30.  On a scholarship or hiring paper no answer to a candidate
    carries a score, a maximum, a percentage, a pass mark, section marks or a
    decision: not the list of their attempts, not the summary returned by
    submitting, not the result page, which then shows no question either. *)
Theorem candidate_results_withheld user id reason e n db :
  (∀ l n' db', ListMyAttempts user e n db = (inl l, n', db') →
     ∀ s, s ∈ l → resultsWithheld (sm_Purpose s) = true → says_nothing s) ∧
  (∀ s n' db', SubmitAttempt id user reason e n db = (inl s, n', db') →
     resultsWithheld (sm_Purpose s) = true → says_nothing s) ∧
  (∀ r n' db', undisturbed e → GetAttemptResult id user e n db = (inl r, n', db') →
     resultsWithheld (sm_Purpose (ar_Summary r)) = true →
     says_nothing (ar_Summary r) ∧ ar_Questions r = None ∧ ar_Withheld r = true).
Proof.
  assert (Hred : ∀ s, resultsWithheld (sm_Purpose (redactWithheld s)) = true →
                      says_nothing (redactWithheld s)).
  { intros s Hs. destruct (redactWithheld_spec s) as (E & H & _). rewrite E in Hs. auto. }
  split_and!.
  - intros l n' db' H. run_bind H out n1 db1 Hm. injection H as <- _ _.
    intros s (s' & -> & _)%list_elem_of_fmap. apply Hred.
  - intros s n' db' H. run_bind H st n1 db1 Hm. destruct (negb _);
      run_bind H s' n2 db2 Hs; injection H as <- _ _; apply Hred.
  - intros r n' db' [_ Hi] H. run_bind H a n1 db1 Hm. apply loadAttempt_inv in Hm as (-> & -> & Ha).
    rewrite Hi in *. destruct (negb _); [done|]. destruct (bool_decide _); [done|].
    run_bind H s n2 db2 Hs. run_bind Hs o n3 db3 Hm. run_read Hm. rewrite Hi in *.
    apply find_ctx_inv in Ha as (at_ & as_ & Hat & Has & ->).
    destruct (find_summary id db) as [s0|] eqn:E; [|done]. injection Hs as <- _ _.
    assert (Hp : sm_Purpose s0 = as_purpose as_).
    { unfold find_summary in E. rewrite Hat, Has in E. by injection E as <-. }
    cbn [cx_Purpose attempt_ctx] in H. rewrite <- Hp in H.
    destruct (resultsWithheld (sm_Purpose s0)) eqn:Ew.
    + injection H as <- _ _. cbn. intros _. split_and!; [|done..]. apply Hred.
      by rewrite (proj1 (redactWithheld_spec s0)).
    + intros Hw. exfalso. destruct (negb _).
      * injection H as <- _ _. cbn in Hw. congruence.
      * run_bind H qs n4 db4 Hm. injection H as <- _ _. cbn in Hw. congruence.
Qed.

(** Every repository error reaches the client with its own
    gRPC code: OK only without an error, NotFound, FailedPrecondition and
    ResourceExhausted each for exactly one error, PermissionDenied for the
    two refusals of access, Internal for everything else. *)
Theorem wrap_injective_codes err :
  (wrap err = OK ↔ err = None) ∧
  (wrap err = NotFound ↔ err = Some ErrNotFound) ∧
  (wrap err = FailedPrecondition ↔ err = Some ErrAttemptClosed) ∧
  (wrap err = ResourceExhausted ↔ err = Some ErrNoAttemptsLeft) ∧
  (wrap err = PermissionDenied ↔ err = Some ErrForbidden ∨ err = Some ErrNotInvited).
Proof. destruct err as [[]|]; simpl; split_and!; split; naive_solver. Qed.
End AnswerTheorems.
