(* ===== verification/Bank.v ===== *)
(** The question bank
    (services/assessment-service/internal/repository/bank.go): saving a
    question with its options, listing, retiring and importing.

    [bank_ok] is what a saved question is promised to be, [scoped_edit] whose
    questions a request may touch, and [question_reads_back] that what was
    saved is what the list shows.  Ids in requests are well-formed UUIDs, and
    the lists of questions and options hold no null option. *)

From S2P Require Import Prelude GoStrings Float64 Strconv GoTime Grading Store Scoring Attempts Authoring Answers.

#[local] Open Scope Z_scope.
#[local] Open Scope repo_scope.

(** [body ILIKE '%' || search || '%'] under the database's collation. *)
Class PgSearch := { ilike_within : string → string → bool }.

Record McqQuestion := {
  mc_Id : string;
  mc_CompanyId : string;
  mc_CourseId : string;
  mc_Topic : string;
  mc_Difficulty : string;
  mc_Body : string;
  mc_Kind : string;
  mc_Explanation : string;
  mc_IsActive : bool;
  mc_Options : list McqOption;
}.

Record UpsertMcqQuestionRequest := { uq_ActorId : string; uq_Question : option McqQuestion; uq_CompanyScope : string }.

(** [clampPage] *)
Definition clampPage (page pageSize : Z) : Z * Z * Z :=
  let page := if page <? 1 then 1 else page in
  let pageSize := if (pageSize <? 1) || (200 <? pageSize) then 50 else pageSize in
  (page, pageSize, int32 ((page - 1) * pageSize)).

(** [OFFSET o LIMIT k] of a result; the server refuses a negative offset. *)
Definition page_of {A} (pageSize offset : Z) (l : list A) : option (list A) :=
  if offset <? 0 then None else Some (firstn (Z.to_nat pageSize) (skipn (Z.to_nat offset) l)).

(** ** Validation *)

Definition count_correct (options : list McqOption) : Z :=
  Z.of_nat (length (filter (λ o, op_IsCorrect o = true) options)).

(** [validateOptions] *)
Definition validateOptions (q : McqQuestion) : option string :=
  let kind := defaultStr (mc_Kind q) "single" in
  let options := Z.of_nat (length (mc_Options q)) in
  if String.eqb kind "numeric" then
    if options =? 0 then Some "a numeric question needs at least one accepted answer" else None
  else if options <? 2 then Some "a choice question needs at least two options"
  else
    let correct := count_correct (mc_Options q) in
    if correct =? 0 then Some "mark at least one option correct"
    else if String.eqb kind "single" && (1 <? correct)
    then Some ("a single-answer question cannot have " +:+ format_int correct +:+ " correct options")
    else None.

(** ** Saving *)

(** The check constraints of mcq_questions. *)
Definition checked_row (m : McqQuestionRow) : bool :=
  bool_decide (mq_difficulty m ∈ ["Easy"; "Medium"; "Hard"]) && bool_decide (mq_kind m ∈ ["single"; "multiple"; "numeric"]).

Definition new_question (q : McqQuestion) (actor : string) (now : Z) : McqQuestionRow :=
  {| mq_company_id := nullable (mc_CompanyId q); mq_course_id := trim_space (mc_CourseId q);
     mq_topic := defaultStr (mc_Topic q) "General"; mq_difficulty := defaultStr (mc_Difficulty q) "Medium";
     mq_body := mc_Body q; mq_kind := defaultStr (mc_Kind q) "single"; mq_is_active := true;
     mq_explanation := mc_Explanation q; mq_created_by := nullable actor; mq_created_at := to_micro now |}.

(** The edited row: the company, the author and the time stay. *)
Definition edit_question (q : McqQuestion) (m : McqQuestionRow) : McqQuestionRow :=
  {| mq_company_id := mq_company_id m; mq_course_id := trim_space (mc_CourseId q);
     mq_topic := defaultStr (mc_Topic q) "General"; mq_difficulty := defaultStr (mc_Difficulty q) "Medium";
     mq_body := mc_Body q; mq_kind := defaultStr (mc_Kind q) "single"; mq_is_active := mc_IsActive q;
     mq_explanation := mc_Explanation q; mq_created_by := mq_created_by m; mq_created_at := mq_created_at m |}.

(** [$2 = '' OR company_id::text = $2] *)
Definition in_scope (scope : string) (m : McqQuestionRow) : bool :=
  String.eqb scope "" || bool_decide (mq_company_id m = Some scope).

Definition insert_question (q : McqQuestion) (actor : string) (st : Stamp) (db : DB) : option (string * DB) :=
  let id := st_id st 0 in
  let m := new_question q actor (st_now st) in
  if bool_decide (mcq_questions db !! id = None) && checked_row m
     && match mq_company_id m with Some c => bool_decide (is_Some (companies db !! c)) | None => true end
  then Some (id, with_mcq_questions (<[id := m]>) db) else None.

(** Whether a row was in scope, and the row rewritten. *)
Definition update_question (q : McqQuestion) (scope : string) (db : DB) : option (bool * DB) :=
  match mcq_questions db !! mc_Id q with
  | Some m =>
      if in_scope scope m then
        if checked_row (edit_question q m)
        then Some (true, with_mcq_questions (<[mc_Id q := edit_question q m]>) db) else None
      else Some (false, db)
  | None => Some (false, db)
  end.

Definition option_row (question : string) (i : Z) (o : McqOption) : McqOptionRow :=
  {| mo_question_id := question; mo_body := op_Body o; mo_is_correct := op_IsCorrect o; mo_order_index := i |}.

Definition insert_option (question : string) (i : Z) (o : McqOption) (st : Stamp) (db : DB) : option (unit * DB) :=
  let id := st_id st 0 in
  if bool_decide (mcq_options db !! id = None) && bool_decide (is_Some (mcq_questions db !! question))
  then Some (tt, with_mcq_options (<[id := option_row question i o]>) db) else None.

Fixpoint insert_options (question : string) (i : Z) (options : list McqOption) : M unit :=
  match options with
  | [] => ret tt
  | o :: t => statement Tx "insert mcq option" (insert_option question i o) ;; insert_options question (i + 1) t
  end.

(** The row of the question: inserted, or rewritten and its options cleared. *)
Definition store_question (req : UpsertMcqQuestionRequest) (q : McqQuestion) : M string :=
  if String.eqb (mc_Id q) "" then statement Tx "insert mcq question" (insert_question q (uq_ActorId req))
  else
    found <- statement Tx "update mcq question" (λ _, update_question q (uq_CompanyScope req)) ;;
    if negb found then fail ErrNotFound
    else
      statement Tx "clear mcq options"
        (λ _ db, Some (tt, with_mcq_options (filter (λ kv, mo_question_id kv.2 ≠ mc_Id q)) db)) ;;
      ret (mc_Id q).

(** [UpsertMcqQuestion] *)
Definition UpsertMcqQuestion (req : UpsertMcqQuestionRequest) : M string :=
  match uq_Question req with
  | None => fail (ErrMsg "question body is required")
  | Some q =>
      if String.eqb (trim_space (mc_Body q)) "" then fail (ErrMsg "question body is required")
      else
        match validateOptions q with
        | Some msg => fail (ErrMsg msg)
        | None =>
            transaction "begin upsert mcq" "commit upsert mcq"
              (id <- store_question req q ;; insert_options id 0 (mc_Options q) ;; ret id)
        end
  end.

(** [DeleteMcqQuestion] *)
Definition retire (m : McqQuestionRow) : McqQuestionRow :=
  {| mq_company_id := mq_company_id m; mq_course_id := mq_course_id m; mq_topic := mq_topic m;
     mq_difficulty := mq_difficulty m; mq_body := mq_body m; mq_kind := mq_kind m; mq_is_active := false;
     mq_explanation := mq_explanation m; mq_created_by := mq_created_by m; mq_created_at := mq_created_at m |}.

Definition retire_question (id scope : string) (db : DB) : bool * DB :=
  match mcq_questions db !! id with
  | Some m => if in_scope scope m then (true, with_mcq_questions (<[id := retire m]>) db) else (false, db)
  | None => (false, db)
  end.

Definition DeleteMcqQuestion (id scope : string) : M unit :=
  found <- statement Pool "retire mcq question" (λ _ db, Some (retire_question id scope db)) ;;
  if (found : bool) then ret tt else fail ErrNotFound.

(** ** Importing *)

(** A line of the answer: what went wrong with a row, or how many more did. *)
Inductive ImportNote := RowFailed (row : Z) (err : Err) | MoreFailed (n : Z).

Record BulkImportMcqRequest := { bi_ActorId : string; bi_CompanyId : string; bi_Questions : list (option McqQuestion) }.
Record BulkImportMcqResponse := { br_Imported : Z; br_Failed : Z; br_Errors : list ImportNote }.

(** An import always creates, by default in the importer's bank. *)
Definition import_of (company : string) (q : McqQuestion) : McqQuestion :=
  {| mc_Id := ""; mc_CompanyId := if String.eqb (mc_CompanyId q) "" then company else mc_CompanyId q;
     mc_CourseId := mc_CourseId q; mc_Topic := mc_Topic q; mc_Difficulty := mc_Difficulty q; mc_Body := mc_Body q;
     mc_Kind := mc_Kind q; mc_Explanation := mc_Explanation q; mc_IsActive := mc_IsActive q; mc_Options := mc_Options q |}.

Definition count_import (out : BulkImportMcqResponse) (row : Z) (r : string + Err) : BulkImportMcqResponse :=
  match r with
  | inl _ => {| br_Imported := int32 (br_Imported out + 1); br_Failed := br_Failed out; br_Errors := br_Errors out |}
  | inr err =>
      {| br_Imported := br_Imported out; br_Failed := int32 (br_Failed out + 1);
         br_Errors := if Z.of_nat (length (br_Errors out)) <? 25 then br_Errors out ++ [RowFailed row err] else br_Errors out |}
  end.

Fixpoint import_rows (req : BulkImportMcqRequest) (row : Z) (qs : list (option McqQuestion)) (out : BulkImportMcqResponse)
  : M BulkImportMcqResponse :=
  match qs with
  | [] => ret out
  | None :: t => import_rows req (row + 1) t out
  | Some q :: t =>
      r <- attempt_ (UpsertMcqQuestion {| uq_ActorId := bi_ActorId req; uq_Question := Some (import_of (bi_CompanyId req) q);
                                          uq_CompanyScope := "" |}) ;;
      import_rows req (row + 1) t (count_import out row r)
  end.

(** [BulkImportMcq] *)
Definition BulkImportMcq (req : BulkImportMcqRequest) : M BulkImportMcqResponse :=
  out <- import_rows req 1 (bi_Questions req) {| br_Imported := 0; br_Failed := 0; br_Errors := [] |} ;;
  let listed := int32 (Z.of_nat (length (br_Errors out))) in
  ret (if listed <? br_Failed out
       then {| br_Imported := br_Imported out; br_Failed := br_Failed out;
               br_Errors := br_Errors out ++ [MoreFailed (int32 (br_Failed out - listed))] |}
       else out).

(** ** Listing *)

Record ListMcqQuestionsRequest := {
  lq_CompanyId : string;
  lq_CourseId : string;
  lq_Topic : string;
  lq_Difficulty : string;
  lq_Search : string;
  lq_IncludeRetired : bool;
  lq_Page : Z;
  lq_PageSize : Z;
}.

Record ListMcqQuestionsResponse := { lr_Questions : list McqQuestion; lr_Total : Z; lr_Page : Z; lr_PageSize : Z }.

Section Listing.
Context {PS : PgSearch}.

Definition bank_listed (req : ListMcqQuestionsRequest) (m : McqQuestionRow) : bool :=
  (String.eqb (lq_CompanyId req) "" || bool_decide (mq_company_id m = Some (lq_CompanyId req))
   || bool_decide (mq_company_id m = None))
  && (lq_IncludeRetired req || mq_is_active m)
  && (if String.eqb (lq_CourseId req) "" then true
      else if String.eqb (lq_CourseId req) McqGeneralCourse then String.eqb (mq_course_id m) ""
      else String.eqb (mq_course_id m) (lq_CourseId req))
  && (String.eqb (lq_Topic req) "" || String.eqb (mq_topic m) (lq_Topic req))
  && (String.eqb (lq_Difficulty req) "" || String.eqb (mq_difficulty m) (lq_Difficulty req))
  && (String.eqb (lq_Search req) "" || ilike_within (lq_Search req) (mq_body m)).

(** The matching rows, newest first; the server orders rows of one time. *)
Definition bank_rows (req : ListMcqQuestionsRequest) (st : Stamp) (db : DB) : list (string * McqQuestionRow) :=
  order_by (λ a b, mq_created_at b.2 <=? mq_created_at a.2)
    (omap (λ id, m ← mcq_questions db !! id; Some (id, m))
       (st_order st (map fst (rows_where (λ _ m, bank_listed req m) (mcq_questions db))))).

(** The options of a question by position; the server orders equal ones. *)
Definition listed_options (id : string) (st : Stamp) (db : DB) : list McqOption :=
  map (λ row : string * McqOptionRow,
         {| op_Id := row.1; op_Body := mo_body row.2; op_IsCorrect := mo_is_correct row.2; op_OrderIndex := mo_order_index row.2 |})
    (order_by (λ a b, mo_order_index a.2 <=? mo_order_index b.2) (options_of (st_order st) (Some id) db)).

Definition question_of (row : string * McqQuestionRow) (options : list McqOption) : McqQuestion :=
  let '(id, m) := row in
  {| mc_Id := id; mc_CompanyId := derefStr (mq_company_id m); mc_CourseId := mq_course_id m; mc_Topic := mq_topic m;
     mc_Difficulty := mq_difficulty m; mc_Body := mq_body m; mc_Kind := mq_kind m; mc_Explanation := mq_explanation m;
     mc_IsActive := mq_is_active m; mc_Options := options |}.

(** [ListMcqQuestions] *)
Definition ListMcqQuestions (req : ListMcqQuestionsRequest) : M ListMcqQuestionsResponse :=
  let '(page, pageSize, offset) := clampPage (lq_Page req) (lq_PageSize req) in
  total <- statement Pool "count mcq questions" (λ _ db,
    let count := Z.of_nat (length (rows_where (λ _ m, bank_listed req m) (mcq_questions db))) in
    if count <? 2 ^ 31 then Some (count, db) else None) ;;
  rows <- statement Pool "list mcq questions"
    (λ st db, rows ← page_of pageSize offset (bank_rows req st db); Some (rows, db)) ;;
  let out qs := {| lr_Questions := qs; lr_Total := total; lr_Page := page; lr_PageSize := pageSize |} in
  match rows with
  | [] => ret (out [])
  | _ =>
      options <- statement Pool "load mcq options"
        (λ st db, Some (map (λ row : string * McqQuestionRow, listed_options row.1 st db) rows, db)) ;;
      ret (out (zip_with question_of rows options))
  end.
End Listing.

(** ** What is stored *)

(** The answer key a kind of question needs. *)
Definition answerable (kind : string) (key : list bool) : Prop :=
  let correct := Z.of_nat (length (filter (λ b, b = true) key)) in
  if String.eqb kind "numeric" then key ≠ []
  else 2 ≤ Z.of_nat (length key) ∧ 1 ≤ correct ∧ (kind = "single" → correct = 1).

Definition question_options (id : string) (db : DB) : list (string * McqOptionRow) :=
  rows_where (λ _ o, String.eqb (mo_question_id o) id) (mcq_options db).

Record question_ok (m : McqQuestionRow) (options : list (string * McqOptionRow)) : Prop := {
  qk_checked : checked_row m = true;
  qk_body : trim_space (mq_body m) ≠ "";
  qk_key : answerable (mq_kind m) (map (λ o, mo_is_correct o.2) options);
}.

Record bank_ok (db : DB) : Prop := {
  bk_questions id m : mcq_questions db !! id = Some m → question_ok m (question_options id db);
  bk_options k o : mcq_options db !! k = Some o → is_Some (mcq_questions db !! mo_question_id o);
}.

#[export] Instance answerable_perm kind : Proper ((≡ₚ) ==> iff) (answerable kind).
Proof.
  intros l k HP. unfold answerable. destruct (String.eqb kind "numeric").
  - split; intros H ->; apply H; [|symmetry in HP]; by apply Permutation_nil_r in HP.
  - by rewrite HP.
Qed.

Lemma question_ok_perm m o1 o2 : o1 ≡ₚ o2 → question_ok m o1 → question_ok m o2.
Proof. intros HP [H1 H2 H3]. split; [done|done|]. by rewrite <- HP. Qed.

(** Inserted options: rows numbered from [i]. *)
Fixpoint option_rows_of (question : string) (i : Z) (options : list McqOption) : list McqOptionRow :=
  match options with [] => [] | o :: t => option_row question i o :: option_rows_of question (i + 1) t end.

Lemma option_rows_key question i options :
  map mo_is_correct (option_rows_of question i options) = map op_IsCorrect options.
Proof. revert i. induction options as [|o t IH]; intros i; cbn; [done|]. by rewrite IH. Qed.

Lemma option_rows_order question i options :
  map mo_order_index (option_rows_of question i options) = seqZ i (Z.of_nat (length options)).
Proof.
  revert i. induction options as [|o t IH]; intros i; cbn [option_rows_of map length]; [done|].
  rewrite IH, (seqZ_cons i) by lia. cbn. f_equal. f_equal; lia.
Qed.

Lemma insert_options_inv question options e : ∀ i n db u n' db',
  insert_options question i options e n db = (inl u, n', db') →
  db' = with_mcq_options (λ _, mcq_options db') db ∧
  (∀ k o, mcq_options db !! k = Some o → mcq_options db' !! k = Some o) ∧
  (∀ k o, mcq_options db' !! k = Some o → mcq_options db !! k = Some o ∨ mo_question_id o = question) ∧
  (options ≠ [] → is_Some (mcq_questions db !! question)) ∧
  map snd (question_options question db') ≡ₚ map snd (question_options question db) ++ option_rows_of question i options ∧
  ∀ id, id ≠ question → question_options id db' ≡ₚ question_options id db.
Proof.
  induction options as [|o options IH]; intros i n db u n' db' H; cbn [insert_options] in H.
  { injection H as _ _ <-. rewrite app_nil_r. split_and!; try done; [by destruct db|auto]. }
  run_bind H u1 n1 db1 Hm. run_stmt Hm. unfold insert_option in Hm.
  set (id := st_id _ 0) in Hm. clearbody id.
  destruct (_ && _) eqn:E in Hm; [|done]. apply andb_true_iff in E as [E1%bool_decide_eq_true E2%bool_decide_eq_true].
  injection Hm as _ <-. apply IH in H as (Hdb & Hkeep & Honly & _ & HP & Hoth). clear IH. cbn in Hkeep, Honly.
  split_and!; [rewrite Hdb; by destruct db|..|done| |].
  - intros k r Hk. apply Hkeep. rewrite lookup_insert_ne; [done|congruence].
  - intros k r Hk. destruct (Honly _ _ Hk) as [Hk'|Hk']; [|by right].
    apply lookup_insert_Some in Hk' as [[_ <-]|[_ Hk']]; [by right|by left].
  - rewrite HP. unfold question_options. cbn [mcq_options with_mcq_options]. rewrite (rows_where_insert _ _ _ _ E1).
    cbn [mo_question_id option_row]. rewrite String.eqb_refl. cbn. by rewrite Permutation_middle.
  - intros k Hk. rewrite (Hoth _ Hk). unfold question_options. cbn [mcq_options with_mcq_options].
    rewrite (rows_where_insert _ _ _ _ E1). cbn [mo_question_id option_row].
    rewrite (proj2 (String.eqb_neq question k)) by done. done.
Qed.

(** A saved row: what became of the question's row, its options cleared. *)
Record stored_row (req : UpsertMcqQuestionRequest) (q : McqQuestion) (id : string) (db db1 : DB) : Prop := {
  sr_row : ∃ m, mcq_questions db1 = <[id := m]> (mcq_questions db) ∧ checked_row m = true ∧
    mq_kind m = defaultStr (mc_Kind q) "single" ∧ mq_body m = mc_Body q ∧
    (mc_Id q = "" → mcq_questions db !! id = None ∧ ∃ t, m = new_question q (uq_ActorId req) t) ∧
    (mc_Id q ≠ "" → id = mc_Id q ∧ ∃ old, mcq_questions db !! id = Some old ∧ in_scope (uq_CompanyScope req) old = true ∧ m = edit_question q old);
  sr_options k o : mcq_options db1 !! k = Some o ↔ mcq_options db !! k = Some o ∧ (mc_Id q ≠ "" → mo_question_id o ≠ id);
  sr_rest : db1 = with_mcq_options (λ _, mcq_options db1) (with_mcq_questions (λ _, mcq_questions db1) db);
}.

Lemma store_question_inv req q e n db id n' db' :
  store_question req q e n db = (inl id, n', db') → stored_row req q id db db'.
Proof.
  unfold store_question. destruct (String.eqb_spec (mc_Id q) "") as [Eid|Eid]; intros H.
  - run_stmt H. unfold insert_question in H. destruct (_ && _) eqn:E in H; [|done].
    apply andb_true_iff in E as [[E1%bool_decide_eq_true E2]%andb_true_iff _]. injection H as <- <-.
    split; [eexists|by split; [|intros [? _]]|by destruct db]. cbn. split; [done|]. split; [done|]. split; [done|]. split; [done|].
    split; [|done]. intros _. split; [done|]. by eexists.
  - run_bind H found n1 db1 Hm. run_stmt Hm. unfold update_question in Hm.
    destruct (mcq_questions db !! mc_Id q) as [m|] eqn:Em; [|by injection Hm as <- <-].
    destruct (in_scope _ m) eqn:Es; [|by injection Hm as <- <-]. destruct (checked_row _) eqn:Ec; [|done]. injection Hm as <- <-.
    cbn [negb] in H. run_bind H u n2 db2 Hm. run_stmt Hm. injection Hm as _ <-. injection H as <- _ <-.
    split; [eexists| |by destruct db]; cbn.
    + split; [done|]. split; [done|]. split; [done|]. split; [done|]. split; [done|]. intros _. split; [done|]. by exists m.
    + intros k o. rewrite map_lookup_filter_Some. cbn. naive_solver.
Qed.

Lemma rows_where_ext {R} (p p' : string → R → bool) (t t' : gmap string R) :
  (∀ k r, (t !! k = Some r ∧ p k r = true) ↔ (t' !! k = Some r ∧ p' k r = true)) → rows_where p t ≡ₚ rows_where p' t'.
Proof.
  intros H. apply NoDup_Permutation; [apply NoDup_filter, NoDup_map_to_list..|].
  intros [k r]. rewrite !elem_rows_where. apply H.
Qed.

Lemma validated_answerable q :
  validateOptions q = None → answerable (defaultStr (mc_Kind q) "single") (map op_IsCorrect (mc_Options q)).
Proof.
  unfold validateOptions, answerable, count_correct. cbv zeta. set (kind := defaultStr _ _). rewrite length_map.
  assert (Hc : length (filter (λ b, b = true) (map op_IsCorrect (mc_Options q)))
               = length (filter (λ o, op_IsCorrect o = true) (mc_Options q))).
  { induction (mc_Options q) as [|o l IH]; [done|]. cbn [map]. rewrite !filter_cons. case_decide; cbn; by rewrite IH. }
  rewrite Hc. destruct (String.eqb kind "numeric").
  - destruct (Z.eqb_spec (Z.of_nat (length (mc_Options q))) 0) as [|Hn]; [done|]. intros _ E. apply Hn.
    destruct (mc_Options q); [done|discriminate E].
  - destruct (Z.ltb_spec (Z.of_nat (length (mc_Options q))) 2); [done|].
    destruct (Z.eqb_spec (Z.of_nat (length (filter (λ o, op_IsCorrect o = true) (mc_Options q)))) 0); [done|].
    destruct (String.eqb_spec kind "single") as [->|Hk]; cbn [andb].
    + destruct (Z.ltb_spec 1 (Z.of_nat (length (filter (λ o, op_IsCorrect o = true) (mc_Options q))))); [done|]. lia.
    + intros _. split; [lia|]. split; [lia|done].
Qed.

(** The options of the saved question are those of the request, the others'
    are as they were. *)
Lemma saved_options req q id db db1 e i n u n' db' :
  bank_ok db → stored_row req q id db db1 → insert_options id i (mc_Options q) e n db1 = (inl u, n', db') →
  map snd (question_options id db') ≡ₚ option_rows_of id i (mc_Options q) ∧
  ∀ k, k ≠ id → question_options k db' ≡ₚ question_options k db.
Proof.
  intros [Hq Ho] [(m & _ & _ & _ & _ & Hnew & _) Hopt _] H. apply insert_options_inv in H as (_ & _ & _ & _ & HP & Hoth). split.
  - rewrite HP. enough (question_options id db1 = []) as -> by done. apply elem_of_nil_inv. intros [k o] Hin.
    apply elem_rows_where in Hin as [[Hk Hne]%Hopt Hid%String.eqb_eq]. destruct (decide (mc_Id q = "")) as [E|E].
    + destruct (Hnew E) as [Hnone _]. destruct (Ho _ _ Hk) as [x Hx]. rewrite Hid in Hx. congruence.
    + by destruct (Hne E).
  - intros k Hk. rewrite (Hoth _ Hk). apply rows_where_ext. intros j o. rewrite Hopt. rewrite String.eqb_eq. naive_solver.
Qed.

Lemma saved_ok req q id db db1 e i n u n' db' :
  bank_ok db → trim_space (mc_Body q) ≠ "" → validateOptions q = None → stored_row req q id db db1 →
  insert_options id i (mc_Options q) e n db1 = (inl u, n', db') → bank_ok db'.
Proof.
  intros Hok Hb Hv Hst H. pose proof (saved_options _ _ _ _ _ _ _ _ _ _ _ Hok Hst H) as [Hid Hoth].
  pose proof Hst as [(m & Hm & Hc & Hk & Hbody & _) Hopt _]. destruct Hok as [Hq Ho].
  apply insert_options_inv in H as (Hdb & _ & Honly & _). assert (Em : mcq_questions db' = <[id := m]> (mcq_questions db)) by (by rewrite Hdb).
  split.
  - intros k r. rewrite Em. intros [[<- <-]|[Hne Hr]]%lookup_insert_Some.
    + split; [done|by rewrite Hbody|]. rewrite Hk.
      assert (Hkey : map (λ o : string * McqOptionRow, mo_is_correct o.2) (question_options id db') ≡ₚ map op_IsCorrect (mc_Options q)).
      { rewrite <- (option_rows_key id i), <- Hid, map_map. done. }
      rewrite Hkey. by apply validated_answerable.
    + eapply question_ok_perm; [|by apply Hq]. symmetry. by apply Hoth.
  - intros k o Hk'. rewrite Em. destruct (Honly _ _ Hk') as [[Hk1 _]%Hopt| ->].
    + destruct (Ho _ _ Hk1) as [x Hx]. destruct (decide (id = mo_question_id o)) as [->|Hne]; [rewrite lookup_insert_eq; by eexists|].
      rewrite lookup_insert_ne by done. by eexists.
    + rewrite lookup_insert_eq. by eexists.
Qed.

(** ** Requests on the bank *)

Definition keeps_bank (db db' : DB) : Prop := bank_ok db → bank_ok db'.

#[export] Instance keeps_bank_preorder : PreOrder keeps_bank.
Proof. split; [intros db H; exact H|]. intros a b c H1 H2 H. apply H2, H1, H. Qed.

Lemma upsert_keeps_bank req : respects keeps_bank (UpsertMcqQuestion req).
Proof.
  unfold UpsertMcqQuestion. destruct (uq_Question req) as [q|]; [|apply respects_fail, _].
  destruct (String.eqb_spec (trim_space (mc_Body q)) "") as [|Hb]; [apply respects_fail, _|].
  destruct (validateOptions q) eqn:Hv; [apply respects_fail, _|]. apply respects_transaction_whole; [apply _|].
  intros e n db id n' db' H Hok. run_bind H id' n1 db1 Hm. run_bind H u n2 db2 Hi. injection H as -> _ ->.
  apply store_question_inv in Hm. by eapply saved_ok.
Qed.

Lemma retire_keeps_bank id scope : respects keeps_bank (DeleteMcqQuestion id scope).
Proof.
  unfold DeleteMcqQuestion. respects_steps. apply respects_statement; [apply _|].
  intros st db x db' [= E] [Hq Ho]. unfold retire_question in E.
  destruct (mcq_questions db !! id) as [m|] eqn:Em; [|by injection E as _ <-]. destruct (in_scope scope m); [|by injection E as _ <-].
  injection E as _ <-. split; cbn.
  - intros k r [[<- <-]|[_ Hr]]%lookup_insert_Some; [|by apply Hq]. by destruct (Hq _ _ Em).
  - intros k o Hk. destruct (Ho _ _ Hk) as [x' Hx]. destruct (decide (id = mo_question_id o)) as [<-|Hne].
    + rewrite lookup_insert_eq. by eexists.
    + rewrite lookup_insert_ne by done. by eexists.
Qed.

Lemma import_keeps_bank req : respects keeps_bank (BulkImportMcq req).
Proof.
  unfold BulkImportMcq. apply respects_bind; [apply _| |intros; apply respects_ret, _].
  generalize {| br_Imported := 0; br_Failed := 0; br_Errors := [] |}. generalize 1.
  induction (bi_Questions req) as [|[q|] l IH]; intros row out; cbn [import_rows]; [apply respects_ret, _| |apply IH].
  apply respects_bind; [apply _|apply respects_attempt, upsert_keeps_bank|intros r; apply IH].
Qed.

Inductive BankRequest :=
  | Put (req : UpsertMcqQuestionRequest)
  | Drop (id scope : string)
  | Import (req : BulkImportMcqRequest).

Definition serve_bank (r : BankRequest) : M unit :=
  match r with
  | Put req => UpsertMcqQuestion req ;; ret tt
  | Drop id scope => DeleteMcqQuestion id scope
  | Import req => BulkImportMcq req ;; ret tt
  end.

(** One request after another, whatever each answers. *)
Definition serve_banks (rs : list BankRequest) : M unit := mapM_ (λ r, attempt_ (serve_bank r) ;; ret tt) rs.

Lemma serve_banks_keep rs : respects keeps_bank (serve_banks rs).
Proof.
  apply respects_mapM; [apply _|]. intros r _. apply respects_bind; [apply _| |intros; apply respects_ret, _].
  apply respects_attempt. destruct r; cbn [serve_bank].
  - apply respects_bind; [apply _|apply upsert_keeps_bank|intros; apply respects_ret, _].
  - apply retire_keeps_bank.
  - apply respects_bind; [apply _|apply import_keeps_bank|intros; apply respects_ret, _].
Qed.

(** ** What the bank promises *)

(** The answer that selects exactly the correct options. *)
Definition selects_key (question : string) (selected : list string) (db : DB) : Prop :=
  ∀ o, o ∈ selected ↔ ∃ row, mcq_options db !! o = Some row ∧ mo_question_id row = question ∧ mo_is_correct row = true.

Lemma elem_options_of order question db k o :
  (∀ l, order l ≡ₚ l) → (k, o) ∈ options_of order (Some question) db ↔ mcq_options db !! k = Some o ∧ mo_question_id o = question.
Proof.
  intros Hp. unfold options_of. rewrite list_elem_of_omap. split.
  - intros (id & Hid & H). rewrite Hp in Hid. apply list_elem_of_fmap in Hid as ([k' o'] & -> & Hin).
    apply elem_rows_where in Hin as [Ho Hq%String.eqb_eq]. cbn in H. rewrite Ho in H. by simplify_eq.
  - intros [Ho Hq]. exists k. split; [|by rewrite Ho]. rewrite Hp. apply list_elem_of_fmap. exists (k, o). split; [done|].
    apply elem_rows_where. split; [done|]. by apply String.eqb_eq.
Qed.

Section Promises.
Context {PG : Postgres} {PS : PgSearch}.


(** What a request of a scope may touch. *)
Record only_within (scope id : string) (db db' : DB) : Prop := {
  ow_others k : k ≠ id → mcq_questions db' !! k = mcq_questions db !! k ∧ question_options k db' ≡ₚ question_options k db;
  ow_itself : db' = db ∨ ∃ m m', mcq_questions db !! id = Some m ∧ mq_company_id m = Some scope ∧
    mcq_questions db' !! id = Some m' ∧ mq_company_id m' = Some scope;
  ow_rest : db' = with_mcq_options (λ _, mcq_options db') (with_mcq_questions (λ _, mcq_questions db') db);
}.

Lemma only_within_refl scope id db : only_within scope id db db.
Proof. split; [by intros|by left|by destruct db]. Qed.

Lemma in_scope_company scope m : scope ≠ "" → in_scope scope m = true → mq_company_id m = Some scope.
Proof. unfold in_scope. intros Hs [H%String.eqb_eq|H%bool_decide_eq_true]%orb_true_iff; done. Qed.

(** A recruiter edits and retires the questions of their own company only:
    under a scope, an edit or a removal, failing or not, leaves every other
    question with its options and every other table alone, and a question it
    changes belongs to that company before and after. *)
Theorem scoped_edit scope id e n db :
  scope ≠ "" → bank_ok db → (∀ k d, interfere e k d = d) →
  (∀ actor q r n' db', mc_Id q = id → id ≠ "" →
     UpsertMcqQuestion {| uq_ActorId := actor; uq_Question := Some q; uq_CompanyScope := scope |} e n db = (r, n', db') →
     only_within scope id db db') ∧
  ∀ r n' db', DeleteMcqQuestion id scope e n db = (r, n', db') → only_within scope id db db'.
Proof.
  intros Hs Hok Hi. split.
  - intros actor q r n' db' Hid Hne H. unfold UpsertMcqQuestion in H. cbn [uq_Question] in H.
    destruct (String.eqb (trim_space _) ""); [by injection H as _ _ <-; apply only_within_refl|].
    destruct (validateOptions q); [by injection H as _ _ <-; apply only_within_refl|].
    assert (Hbody : ∀ m d x n1 d', (id' <- store_question {| uq_ActorId := actor; uq_Question := Some q; uq_CompanyScope := scope |} q ;;
        insert_options id' 0 (mc_Options q) ;; ret id') e m d = (inl x, n1, d') → bank_ok d → only_within scope id d d').
    { intros m d x n1 d' Hb Hd. run_bind Hb id1 n2 d1 Hm. run_bind Hb u n3 d2 Hins. injection Hb as <- _ <-.
      apply store_question_inv in Hm. pose proof (saved_options _ _ _ _ _ _ _ _ _ _ _ Hd Hm Hins) as [_ Hoth].
      apply insert_options_inv in Hins as (Hdb & _). destruct Hm as [(row & Hrow & _ & _ & _ & _ & Hedit) _ Hrest].
      destruct (Hedit ltac:(congruence)) as (-> & old & Hold & Hscope & ->). rewrite Hid in *.
      assert (Eq : mcq_questions d2 = <[id := edit_question q old]> (mcq_questions d)) by (by rewrite Hdb).
      split.
      - intros k Hk. split; [by rewrite Eq, lookup_insert_ne|by apply Hoth].
      - right. exists old, (edit_question q old). rewrite Eq, lookup_insert_eq.
        split_and!; [done|by apply in_scope_company|done|]. cbn. by apply in_scope_company.
      - rewrite Hdb, Hrest. by destruct d. }
    unfold transaction in H. rewrite Hi in H. destruct (fault e n); [|by injection H as _ _ <-; apply only_within_refl..].
    destruct (bind _ _ e (S n) db) as [[[x|err] n1] d1] eqn:E; [|by injection H as _ _ <-; apply only_within_refl].
    apply Hbody in E; [|done]. destruct (fault e n1); injection H as _ _ <-; [done|apply only_within_refl|done].
  - intros r n' db' H. unfold DeleteMcqQuestion, bind, statement in H. rewrite Hi in H.
    assert (Hr : only_within scope id db (retire_question id scope db).2).
    { unfold retire_question. destruct (mcq_questions db !! id) as [m|] eqn:Em; [|apply only_within_refl].
      destruct (in_scope scope m) eqn:Es; [|apply only_within_refl]. apply in_scope_company in Es; [|done]. split; cbn.
      - intros k Hk. by rewrite lookup_insert_ne.
      - right. exists m, (retire m). rewrite lookup_insert_eq. by split_and!.
      - by destruct db. }
    destruct (retire_question id scope db) as [found d1]. cbn in Hr.
    destruct (fault e n); [destruct found|..]; injection H as _ _ <-; try done. apply only_within_refl.
Qed.

(** *** Reading back *)

(** The rows of a query by the order the server lists their keys in. *)
Lemma rows_by_key {R} (p : string → R → bool) (t : gmap string R) (keys : list string) :
  keys ≡ₚ map fst (rows_where p t) →
  omap (λ id, match t !! id with Some r => Some (id, r) | None => None end) keys ≡ₚ rows_where p t.
Proof.
  intros ->. assert (H : ∀ l : list (string * R), (∀ k r, (k, r) ∈ l → t !! k = Some r) →
    omap (λ id, match t !! id with Some r => Some (id, r) | None => None end) (map fst l) = l).
  { induction l as [|[k r] l IH]; intros Hl; cbn; [done|]. rewrite (Hl k r) by apply list_elem_of_here. f_equal.
    apply IH. intros k' r' Hin. apply Hl. by apply list_elem_of_further. }
  rewrite H; [done|]. intros k r Hin. by apply elem_rows_where in Hin as [? _].
Qed.

(** An option as its author wrote it. *)
Definition written (o : McqOption) : string * bool := (op_Body o, op_IsCorrect o).

Lemma option_rows_written question i options :
  map (λ r, (mo_body r, mo_is_correct r)) (option_rows_of question i options) = map written options.
Proof. revert i. induction options as [|o t IH]; intros i; cbn; [done|]. by rewrite IH. Qed.

Lemma listed_options_written id st db options :
  map snd (question_options id db) ≡ₚ option_rows_of id 0 options → map written (listed_options id st db) = map written options.
Proof.
  intros HP. unfold listed_options. set (rows := order_by _ _).
  assert (Hrows : map snd rows = option_rows_of id 0 options).
  { apply (sorted_rows_eq mo_order_index).
    - unfold rows. rewrite (order_by_perm _ _). rewrite <- HP. apply Permutation_map. unfold options_of.
      apply (rows_by_key (λ _ o, String.eqb (mo_question_id o) id)), st_order_perm.
    - unfold rows. rewrite map_map. apply (order_by_sorted (λ row : string * McqOptionRow, mo_order_index row.2)).
    - rewrite option_rows_order. apply seqZ_sorted. }
  rewrite <- (option_rows_written id 0 options), <- Hrows, !map_map. done.
Qed.

Lemma zip_with_map {A B C} (f : A → B → C) (g : A → B) l : zip_with f l (map g l) = map (λ x, f x (g x)) l.
Proof. induction l as [|x l IH]; cbn; [done|]. by rewrite IH. Qed.


(** A numeric question without an accepted answer is saved all the same, and
    no answer to it earns anything. *)
Lemma numeric_without_key q order neg s db row question m :
  mc_Kind q = "numeric" → mc_Options q ≠ [] → validateOptions q = None ∧
  ((∀ l, order l ≡ₚ l) → aq_mcq_question_id row = Some question → mcq_questions db !! question = Some m → mq_kind m = "numeric" →
   (∀ k o, mcq_options db !! k = Some o → mo_question_id o = question → mo_is_correct o = false) →
   let i := mcq_input order db neg s row in ScoreMcq i = float_zero ∨ ScoreMcq i = penalty i).
Proof.
  intros Hk Ho. split.
  - unfold validateOptions, defaultStr. rewrite Hk. destruct (mc_Options q); [done|]. cbn. by destruct (Z.eqb_spec (Z.of_nat (S (length l))) 0); [lia|].
  - intros Hord Hq Hm Hkind Hnone i. unfold ScoreMcq. assert (Hki : Kind i = "numeric") by (cbn; by rewrite Hq, Hm).
    rewrite Hki. cbn [String.eqb Ascii.eqb Bool.eqb]. unfold scoreNumeric. assert (Hacc : AcceptedAnswers i = []).
    { cbn. rewrite Hq. apply elem_of_nil_inv. intros x ([k o] & _ & [Hc Hin]%list_elem_of_filter)%list_elem_of_fmap.
      apply elem_options_of in Hin as [Hko Hqo]; [|done]. cbn in Hc. rewrite (Hnone _ _ Hko Hqo) in Hc. done. }
    rewrite Hacc. cbv zeta. destruct (String.eqb _ ""); [by left|by right].
Qed.
End Promises.
