(* ===== verification/Companies.v ===== *)
(** Companies and access
    (services/assessment-service/internal/repository/companies.go): partner
    companies, their members, and [Authorize], the decision every recruiter
    route of the gateway rests on.

    [authorize_decides] compares the decision with [may_administer].  Ids in
    requests are well-formed UUIDs. *)

From S2P Require Import Prelude GoStrings Float64 Strconv GoTime Grading Store Scoring Attempts.

#[local] Open Scope Z_scope.
#[local] Open Scope repo_scope.

(** [ORDER BY] of a text column, under the database's collation. *)
Class PgCollation := { text_le : string → string → bool }.

Record Company := {
  cp_Id : string;
  cp_Name : string;
  cp_Slug : string;
  cp_LogoUrl : string;
  cp_Website : string;
  cp_CreatedAt : string;
}.

Record CreateCompanyRequest := { cc_Name : string; cc_Slug : string; cc_LogoUrl : string; cc_Website : string }.

Record CompanyMember := { cm_CompanyId : string; cm_UserId : string; cm_Email : string; cm_Name : string; cm_Role : string }.

Record AddCompanyMemberRequest := { ac_CompanyId : string; ac_UserId : string; ac_Role : string }.

Record AuthorizeRequest := { az_UserId : string; az_Role : string; az_CompanyId : string; az_AssessmentId : string }.

Record AuthorizeResponse := { au_Allowed : bool; au_Reason : string }.

(** ** Companies and members *)

Definition company_of (id : string) (c : CompanyRow) : Company :=
  {| cp_Id := id; cp_Name := co_name c; cp_Slug := co_slug c; cp_LogoUrl := co_logo_url c; cp_Website := co_website c;
     cp_CreatedAt := fmtTime (Some (co_created_at c)) |}.

Definition company_row (req : CreateCompanyRequest) (now : Z) : CompanyRow :=
  {| co_name := cc_Name req; co_slug := cc_Slug req; co_logo_url := cc_LogoUrl req; co_website := cc_Website req;
     co_created_at := to_micro now |}.

(** Slugs are unique. *)
Definition insert_company (req : CreateCompanyRequest) (st : Stamp) (db : DB) : option (Company * DB) :=
  let id := st_id st 0 in
  if bool_decide (companies db !! id = None)
     && bool_decide (rows_where (λ _ c, String.eqb (co_slug c) (cc_Slug req)) (companies db) = [])
  then Some (company_of id (company_row req (st_now st)), with_companies (<[id := company_row req (st_now st)]>) db)
  else None.

(** [CreateCompany] *)
Definition CreateCompany (req : CreateCompanyRequest) : M Company :=
  statement Pool "create company" (insert_company req).

Definition is_member (company user : string) (db : DB) : bool :=
  bool_decide (is_Some (company_members db !! (company, user))).

(** [AddCompanyMember]: any role but owner is a recruiter's. *)
Definition AddCompanyMember (req : AddCompanyMemberRequest) : M unit :=
  let role := if negb (String.eqb (ac_Role req) "owner") then "recruiter" else ac_Role req in
  statement Pool "add company member"
    (λ _ db, if bool_decide (is_Some (companies db !! ac_CompanyId req))
             then Some (tt, with_members (<[(ac_CompanyId req, ac_UserId req) := role]>) db) else None).

(** A name a left join may not have: those sort last. *)
Definition name_le `{!PgCollation} (a b : option string) : bool :=
  match a, b with
  | Some a, Some b => text_le a b
  | _, None => true
  | None, Some _ => false
  end.

Definition member_rows (company : string) (db : DB) : list ((string * string) * string) :=
  filter (λ kv : (string * string) * string, kv.1.1 = company) (map_to_list (company_members db)).

Definition member_of (db : DB) (m : (string * string) * string) : CompanyMember :=
  let u := users db !! m.1.2 in
  {| cm_CompanyId := m.1.1; cm_UserId := m.1.2; cm_Email := match u with Some u => us_email u | None => "" end;
     cm_Name := match u with Some u => us_name u | None => "" end; cm_Role := m.2 |}.

Section Lists.
Context {PC : PgCollation}.

(** [ListCompanies]; the server orders equal names. *)
Definition ListCompanies (userID : string) : M (list Company) :=
  statement Pool "list companies"
    (λ st db,
       let p id (_ : CompanyRow) := String.eqb userID "" || is_member id userID db in
       Some (map (λ row : string * CompanyRow, company_of row.1 row.2)
               (order_by (λ a b, text_le (co_name a.2) (co_name b.2))
                  (omap (λ id, c ← companies db !! id; Some (id, c)) (st_order st (map fst (rows_where p (companies db)))))), db)).

(** [ListCompanyMembers] *)
Definition ListCompanyMembers (companyID : string) : M (list CompanyMember) :=
  select Pool "list company members"
    (λ db, map (member_of db)
             (order_by (λ a b : (string * string) * string, name_le (us_name <$> users db !! a.1.2) (us_name <$> users db !! b.1.2))
                (member_rows companyID db))).
End Lists.

(** ** Access *)

(** [assessmentCompany] *)
Definition assessmentCompany (assessmentID : string) : M string :=
  r <- select Pool "lookup assessment company" (λ db, as_company_id <$> assessments db !! assessmentID) ;;
  match r with
  | None => fail ErrNotFound
  | Some None => ret ""
  | Some (Some c) => ret c
  end.

Definition allowed : AuthorizeResponse := {| au_Allowed := true; au_Reason := "" |}.
Definition denied (reason : string) : AuthorizeResponse := {| au_Allowed := false; au_Reason := reason |}.

Definition member_check (company user : string) : M AuthorizeResponse :=
  if String.eqb company "" then ret (denied "no company scope")
  else
    exists_ <- select Pool "check membership" (is_member company user) ;;
    ret (if negb exists_ then denied "not a member of the owning company" else allowed).

(** [Authorize] *)
Definition Authorize (req : AuthorizeRequest) : M AuthorizeResponse :=
  if String.eqb (az_Role req) "admin" then ret allowed
  else if negb (String.eqb (az_Role req) "recruiter") then ret (denied "recruiter or admin role required")
  else if negb (String.eqb (az_AssessmentId req) "") then
    owner <- assessmentCompany (az_AssessmentId req) ;;
    if String.eqb owner "" then ret (denied "platform assessments are admin-only")
    else member_check owner (az_UserId req)
  else member_check (az_CompanyId req) (az_UserId req).

(** [AssessmentIDForAttempt] *)
Definition AssessmentIDForAttempt (attemptID : string) : M string :=
  r <- select Pool "lookup attempt assessment" (λ db, at_assessment_id <$> attempts db !! attemptID) ;;
  match r with Some id => ret id | None => fail ErrNotFound end.

(** [AssessmentIDForShortlist] *)
Definition AssessmentIDForShortlist (shortlistID : string) : M string :=
  r <- select Pool "lookup shortlist assessment" (λ db, sl_assessment_id <$> shortlists db !! shortlistID) ;;
  match r with Some id => ret id | None => fail ErrNotFound end.

(** ** The decision *)

(** The company that decides: the test's own when a test is named. *)
Definition deciding_company (req : AuthorizeRequest) (db : DB) : option string :=
  if String.eqb (az_AssessmentId req) "" then Some (az_CompanyId req)
  else derefStr ∘ as_company_id <$> assessments db !! az_AssessmentId req.

Definition may_administer (req : AuthorizeRequest) (db : DB) : Prop :=
  az_Role req = "admin" ∨
  az_Role req = "recruiter" ∧ ∃ c, deciding_company req db = Some c ∧ c ≠ "" ∧ is_member c (az_UserId req) db = true.

(** No other request runs between the steps of this one. *)
Definition alone (e : Env) : Prop := ∀ n db, interfere e n db = db.

(** A read that succeeds or fails, alone, leaves the database. *)
Lemma select_alone {A} q label (f : DB → A) e n db :
  alone e → ∃ r, select q label f e n db = (r, S n, db) ∧ (r = inl (f db) ∨ r = inr (ErrDB label)).
Proof.
  intros He. unfold select, statement. assert (match q with Pool => interfere e n db | Tx => db end = db) as -> by (destruct q; [apply He|done]).
  destruct (fault e n); eexists; (split; [reflexivity|]); auto.
Qed.

Lemma member_check_decides company user e n db :
  alone e → ∃ r n', member_check company user e n db = (r, n', db) ∧
    (r = inr (ErrDB "check membership") ∨
     ∃ resp, r = inl resp ∧ (au_Allowed resp = true ↔ company ≠ "" ∧ is_member company user db = true)).
Proof.
  intros He. unfold member_check. destruct (String.eqb_spec company "") as [->|Hne].
  - exists (inl (denied "no company scope")), n. split; [done|]. right. eexists. split; [done|]. split; [done|]. by intros [].
  - destruct (select_alone Pool "check membership" (is_member company user) e n db He) as (r & Hr & [->| ->]).
    + rewrite (bind_inl _ _ _ _ _ _ _ _ Hr). do 2 eexists. split; [reflexivity|]. right. eexists. split; [done|].
      destruct (is_member company user db); cbn; [by split|]. split; [done|]. by intros [].
    + rewrite (bind_inr _ _ _ _ _ _ _ _ Hr). do 2 eexists. split; [reflexivity|]. by left.
Qed.

(** Without other requests, the decision is [may_administer]'s. *)
Lemma authorize_spec req e n db :
  alone e → ∃ r n', Authorize req e n db = (r, n', db) ∧
    match r with
    | inl resp => au_Allowed resp = true ↔ may_administer req db
    | inr err => az_Role req = "recruiter" ∧ (err = ErrNotFound → assessments db !! az_AssessmentId req = None)
    end.
Proof.
  intros He.
  unfold may_administer, deciding_company. unfold Authorize at 1.
  destruct (String.eqb_spec (az_Role req) "admin") as [Hadm|Hadm].
  { exists (inl allowed), n. split; [done|]. split; [by left|done]. }
  destruct (String.eqb_spec (az_Role req) "recruiter") as [Hrec|Hrec]; cbn [negb].
  2: { eexists (inl _), n. split; [reflexivity|]. cbn. split; [done|]. by intros [|[]]. }
  destruct (String.eqb_spec (az_AssessmentId req) "") as [Ha|Ha]; cbn [negb].
  { destruct (member_check_decides (az_CompanyId req) (az_UserId req) e n db He) as (r & n' & Hr & Hd).
    exists r, n'. split; [exact Hr|]. destruct Hd as [->|(resp & -> & Hd)]; [done|]. rewrite Hd. split.
    - intros [H1 H2]. right. by eauto.
    - intros [|(_ & c & [= <-] & ?)]; done. }
  destruct (select_alone Pool "lookup assessment company" (λ db, as_company_id <$> assessments db !! az_AssessmentId req) e n db He)
    as (r & Hr & [->| ->]); unfold assessmentCompany.
  2: { exists (inr (ErrDB "lookup assessment company")), (S n). split; [|done]. unfold bind. by rewrite Hr. }
  destruct (assessments db !! az_AssessmentId req) as [a|] eqn:Ea; cbn in Hr |- *.
  2: { exists (inr ErrNotFound), (S n). split; [|done]. unfold bind. by rewrite Hr. }
  set (owner := derefStr (as_company_id a)).
  assert (Hgo : ∀ k : string → M AuthorizeResponse, bind (r <- select Pool "lookup assessment company" (λ db, as_company_id <$> assessments db !! az_AssessmentId req) ;;
     match r with None => fail ErrNotFound | Some None => ret "" | Some (Some c) => ret c end) k e n db = k owner e (S n) db).
  { intros k. unfold bind. rewrite Hr. unfold owner. by destruct (as_company_id a). }
  rewrite Hgo. clearbody owner. destruct (String.eqb_spec owner "") as [->|Hne].
  { eexists (inl _), _. split; [reflexivity|]. split; [done|]. intros [|(_ & c & [= <-] & ? & _)]; done. }
  destruct (member_check_decides owner (az_UserId req) e (S n) db He) as (r' & n' & Hr' & Hd).
  exists r', n'. split; [exact Hr'|]. destruct Hd as [->|(resp & -> & Hd)]; [done|]. rewrite Hd. split.
  - intros [H1 H2]. right. by eauto.
  - intros [|(_ & c & [= <-] & ?)]; done.
Qed.

(** C12.  The access decision: on its own, whatever statements fail, it changes
    nothing, and an answer allows exactly admins and recruiters who are members
    of the deciding company - the owner of the test when one is named, whatever
    company the request claims; a test without an owner is the admins' alone.
    A test that does not exist is reported as such. *)
Theorem authorize_decides req e n db :
  alone e → ∃ r n', Authorize req e n db = (r, n', db) ∧
    match r with
    | inl resp => au_Allowed resp = true ↔ may_administer req db
    | inr err => az_Role req = "recruiter" ∧ (err = ErrNotFound → assessments db !! az_AssessmentId req = None)
    end ∧
    (∀ company, az_AssessmentId req ≠ "" →
       Authorize {| az_UserId := az_UserId req; az_Role := az_Role req; az_CompanyId := company; az_AssessmentId := az_AssessmentId req |} e n db
       = Authorize req e n db).
Proof.
  intros He. destruct (authorize_spec req e n db He) as (r & n' & Hr & Hd). exists r, n'. split_and!; [exact Hr|exact Hd|].
  intros company Ha. unfold Authorize. cbn. by rewrite (proj2 (String.eqb_neq _ _) Ha).
Qed.
