(* ===== verification/BankRuns.v ===== *)
(** Runs of the question bank on the small database of Concrete.v. *)

From S2P Require Import Prelude GoStrings Float64 Strconv GoTime Grading Store Concrete Scoring Attempts Papers Authoring Answers Bank.

#[local] Open Scope Z_scope.

(** The search of the model: the whole body. *)
#[export] Instance search_model : PgSearch := {| ilike_within := String.eqb |}.

Lemma demo_bank : bank_ok demo.
Proof.
  split.
  - intros id m H. unfold demo in H. cbn [mcq_questions] in H. apply lookup_singleton_Some in H as [<- <-]. split; [reflexivity|by vm_compute|].
    vm_compute. split_and!; [discriminate|discriminate|reflexivity].
  - intros k o H. unfold demo in H. cbn [mcq_options] in H. assert (mo_question_id o = "m1") as ->; [|by eexists].
    by apply lookup_insert_Some in H as [[_ <-]|[_ [_ <-]%lookup_singleton_Some]].
Qed.

Definition demo_author (question body : string) (options : list McqOption) : UpsertMcqQuestionRequest :=
  {| uq_ActorId := "r"; uq_CompanyScope := "c";
     uq_Question := Some {| mc_Id := question; mc_CompanyId := "c"; mc_CourseId := " go "; mc_Topic := ""; mc_Difficulty := "Hard";
       mc_Body := body; mc_Kind := ""; mc_Explanation := "why"; mc_IsActive := true; mc_Options := options |} |}.

Definition demo_choice (body : string) (correct : bool) : McqOption :=
  {| op_Id := ""; op_Body := body; op_IsCorrect := correct; op_OrderIndex := 0 |}.

Definition demo_choices : list McqOption := [demo_choice "four" true; demo_choice "five" false].

(** A new question, one without a body, and the retirement of another
    company's: the first question still scores. *)
Definition demo_requests : list BankRequest :=
  [Put (demo_author "" "2+2?" demo_choices); Put (demo_author "" " " demo_choices); Drop "m1" "c"].

(** The key of the first question, as a check of the rows. *)
Definition only_o1 (db : DB) : bool :=
  bool_decide (map_Forall (λ k o, bool_decide (mo_question_id o = "m1") && mo_is_correct o = true → k = "o1") (mcq_options db))
  && match mcq_options db !! "o1" with Some o => bool_decide (mo_question_id o = "m1") && mo_is_correct o | None => false end.

Lemma only_o1_key db : only_o1 db = true → selects_key "m1" ["o1"] db.
Proof.
  intros [Ha%bool_decide_eq_true_1 Hb]%andb_true_iff o. rewrite list_elem_of_singleton. split.
  - intros ->. destruct (mcq_options db !! "o1") as [row|]; [|done]. apply andb_true_iff in Hb as [Hq%bool_decide_eq_true Hc]. by exists row.
  - intros (row & Hr & Hq & Hc). apply (Ha _ _ Hr). by rewrite Hq, Hc.
Qed.


(** A recruiter of the company rewrites the question the run before saved. *)
Definition saved_db : DB := (UpsertMcqQuestion (demo_author "" "2+2?" demo_choices) demo_env 0%nat demo).2.

Lemma saved_bank : bank_ok saved_db.
Proof.
  unfold saved_db. destruct (UpsertMcqQuestion (demo_author "" "2+2?" demo_choices) demo_env 0%nat demo) as [[r n] db] eqn:E.
  exact (upsert_keeps_bank _ demo_env _ _ _ _ _ (λ _ _ H, H) E demo_bank).
Qed.

Lemma scoped_edit_witness :
  ∃ n' db', UpsertMcqQuestion (demo_author "id-1" "2+3?" [demo_choice "five" true; demo_choice "six" false]) demo_env 0%nat saved_db
      = (inl "id-1", n', db') ∧ only_within "c" "id-1" saved_db db' ∧
    UpsertMcqQuestion (demo_author "m1" "2+3?" demo_choices) demo_env 0%nat saved_db = (inr ErrNotFound, 2%nat, saved_db).
Proof.
  destruct (checked_run (λ id _, String.eqb id "id-1")
    (UpsertMcqQuestion (demo_author "id-1" "2+3?" [demo_choice "five" true; demo_choice "six" false]) demo_env 0%nat saved_db))
    as (id & n' & db' & E & ->%String.eqb_eq); [vm_compute; reflexivity|].
  exists n', db'. split; [exact E|]. split; [|vm_compute; reflexivity].
  eapply (proj1 (scoped_edit "c" "id-1" demo_env 0%nat saved_db ltac:(discriminate) saved_bank (λ _ _, eq_refl))); [| |exact E]; [reflexivity|discriminate].
Defined.

Definition demo_search : ListMcqQuestionsRequest :=
  {| lq_CompanyId := "c"; lq_CourseId := "go"; lq_Topic := "General"; lq_Difficulty := ""; lq_Search := "";
     lq_IncludeRetired := false; lq_Page := 0; lq_PageSize := 0 |}.

