(* ===== verification/Drafts.v ===== *)
(** Drafting tests: [CreateAssessment], [UpdateAssessment] and
    [ListAssessments] of
    services/assessment-service/internal/repository/authoring.go.

    [drafts_sane] is what every stored test has, whatever is created, patched,
    published and removed; [merged_row] is which fields a patch leaves.  Ids in requests are well-formed UUIDs. *)

From S2P Require Import Prelude GoStrings Float64 Strconv GoTime Grading Store Scoring Attempts Authoring Bank.

#[local] Open Scope Z_scope.
#[local] Open Scope repo_scope.

(** A test as the client sends it. *)
Record AssessmentInput := {
  ai_Id : string;
  ai_CompanyId : string;
  ai_Title : string;
  ai_Description : string;
  ai_Purpose : string;
  ai_DurationMinutes : Z;
  ai_PassingMarks : Z;
  ai_NegativeMarking : float64;
  ai_ShuffleQuestions : bool;
  ai_ShuffleOptions : bool;
  ai_AllowBacktrack : bool;
  ai_LockForward : bool;
  ai_RevealResults : bool;
  ai_Proctoring : option Proctoring;
  ai_OpensAt : string;
  ai_ClosesAt : string;
  ai_MaxAttempts : Z;
  ai_CourseIds : option (list string);
}.

(** A stored [null] reads as no proctoring. *)
Definition no_proctoring : Proctoring :=
  {| RequireFullscreen := false; TabSwitchLimit := 0; BlockCopyPaste := false; Webcam := false |}.

(** The parameter of [CASE WHEN $6 > 0 THEN $6 ELSE negative_marking END]:
    the server infers its type from the first use, and the driver converts the
    float64; in hundredths, [None] out of range. *)
Class PgCase := { positive_param : float64 → option Z }.

Definition negative_limit : Z := 10 ^ 4.

Definition purposes : list string := ["practice"; "hiring"; "scholarship"; "certification"].

(** ** Creating *)

Definition draft_row (a : AssessmentInput) (actor : string) (negative now : Z) : AssessmentRow :=
  {| as_company_id := nullable (ai_CompanyId a); as_title := ai_Title a; as_description := ai_Description a;
     as_purpose := defaultStr (ai_Purpose a) "practice"; as_duration_minutes := ai_DurationMinutes a; as_total_marks := 0;
     as_passing_marks := ai_PassingMarks a; as_negative_marking := negative; as_shuffle_questions := ai_ShuffleQuestions a;
     as_shuffle_options := ai_ShuffleOptions a; as_allow_backtrack := ai_AllowBacktrack a; as_lock_forward := ai_LockForward a;
     as_reveal_results := ai_RevealResults a; as_proctoring := default no_proctoring (ai_Proctoring a); as_status := "draft";
     as_opens_at := to_micro <$> parseTime (ai_OpensAt a); as_closes_at := to_micro <$> parseTime (ai_ClosesAt a);
     as_max_attempts := maxInt32 (ai_MaxAttempts a) 1; as_course_ids := courseList (ai_CourseIds a); as_created_by := actor;
     as_created_at := to_micro now |}.

Section Drafts.
Context {PG : Postgres} {PC : PgCase}.

Definition insert_draft (a : AssessmentInput) (actor : string) (st : Stamp) (db : DB) : option (string * DB) :=
  let id := st_id st 0 in
  match num_param negative_limit (ai_NegativeMarking a) with
  | None => None
  | Some negative =>
      let row := draft_row a actor negative (st_now st) in
      if bool_decide (assessments db !! id = None) && bool_decide (as_purpose row ∈ purposes)
         && match as_company_id row with Some c => bool_decide (is_Some (companies db !! c)) | None => true end
      then Some (id, with_assessments (<[id := row]>) db) else None
  end.

(** [CreateAssessment] *)
Definition CreateAssessment (actor : string) (assessment : option AssessmentInput) : M string :=
  match assessment with
  | None => fail (ErrMsg "title is required")
  | Some a =>
      if String.eqb (trim_space (ai_Title a)) "" then fail (ErrMsg "title is required")
      else if ai_DurationMinutes a <=? 0 then fail (ErrMsg "duration_minutes must be positive")
      else statement Pool "insert assessment" (insert_draft a actor)
  end.

(** ** Editing *)

(** [COALESCE(NULLIF($n, ''), old)], [CASE WHEN $n > 0 THEN $n ELSE old END]. *)
Definition keep_text (sent old : string) : string := if String.eqb sent "" then old else sent.
Definition keep_number (sent old : Z) : Z := if 0 <? sent then sent else old.

(** The row after the update; [negative] is the parameter the server got. *)
Definition merged_row (a : AssessmentInput) (negative : Z) (old : AssessmentRow) : AssessmentRow :=
  let full := negb (String.eqb (ai_Title a) "") in
  let flag (sent kept : bool) := if full then sent else kept in
  {| as_company_id := as_company_id old; as_title := keep_text (ai_Title a) (as_title old);
     as_description := keep_text (ai_Description a) (as_description old); as_purpose := as_purpose old;
     as_duration_minutes := keep_number (ai_DurationMinutes a) (as_duration_minutes old); as_total_marks := as_total_marks old;
     as_passing_marks := keep_number (ai_PassingMarks a) (as_passing_marks old);
     as_negative_marking := keep_number negative (as_negative_marking old);
     as_shuffle_questions := flag (ai_ShuffleQuestions a) (as_shuffle_questions old);
     as_shuffle_options := flag (ai_ShuffleOptions a) (as_shuffle_options old);
     as_allow_backtrack := flag (ai_AllowBacktrack a) (as_allow_backtrack old);
     as_lock_forward := flag (ai_LockForward a) (as_lock_forward old);
     as_reveal_results := flag (ai_RevealResults a) (as_reveal_results old);
     as_proctoring := default (as_proctoring old) (ai_Proctoring a); as_status := as_status old;
     as_opens_at := match parseTime (ai_OpensAt a) with Some t => Some (to_micro t) | None => as_opens_at old end;
     as_closes_at := match parseTime (ai_ClosesAt a) with Some t => Some (to_micro t) | None => as_closes_at old end;
     as_max_attempts := keep_number (ai_MaxAttempts a) (as_max_attempts old); as_course_ids := as_course_ids old;
     as_created_by := as_created_by old; as_created_at := as_created_at old |}.

Definition set_courses (courses : list string) (a : AssessmentRow) : AssessmentRow :=
  {| as_company_id := as_company_id a; as_title := as_title a; as_description := as_description a; as_purpose := as_purpose a;
     as_duration_minutes := as_duration_minutes a; as_total_marks := as_total_marks a; as_passing_marks := as_passing_marks a;
     as_negative_marking := as_negative_marking a; as_shuffle_questions := as_shuffle_questions a;
     as_shuffle_options := as_shuffle_options a; as_allow_backtrack := as_allow_backtrack a; as_lock_forward := as_lock_forward a;
     as_reveal_results := as_reveal_results a; as_proctoring := as_proctoring a; as_status := as_status a;
     as_opens_at := as_opens_at a; as_closes_at := as_closes_at a; as_max_attempts := as_max_attempts a;
     as_course_ids := courses; as_created_by := as_created_by a; as_created_at := as_created_at a |}.

Definition update_draft (a : AssessmentInput) (db : DB) : option (bool * DB) :=
  match positive_param (ai_NegativeMarking a) with
  | None => None
  | Some negative =>
      match assessments db !! ai_Id a with
      | None => Some (false, db)
      | Some old =>
          let row := merged_row a negative old in
          if as_negative_marking row <? negative_limit
          then Some (true, with_assessments (<[ai_Id a := row]>) db) else None
      end
  end.

(** [UpdateAssessment] *)
Definition UpdateAssessment (assessment : option AssessmentInput) : M unit :=
  match assessment with
  | None => fail (ErrMsg "assessment id is required")
  | Some a =>
      if String.eqb (ai_Id a) "" then fail (ErrMsg "assessment id is required")
      else
        found <- statement Pool "update assessment" (λ _, update_draft a) ;;
        if negb found then fail ErrNotFound
        else
          match ai_CourseIds a with
          | None => ret tt
          | Some ids =>
              statement Pool "update assessment audience"
                (λ _ db, Some (tt, with_assessments (update_row (ai_Id a) (set_courses (courseList (Some ids)))) db))
          end
  end.
End Drafts.

(** ** Listing *)

Record ListAssessmentsRequest := { la_CompanyId : string; la_Purpose : string; la_Status : string; la_Page : Z; la_PageSize : Z }.

Record ListedAssessment := {
  ls_Id : string;
  ls_CompanyId : string;
  ls_CompanyName : string;
  ls_Title : string;
  ls_Description : string;
  ls_Purpose : string;
  ls_DurationMinutes : Z;
  ls_TotalMarks : Z;
  ls_Status : string;
  ls_OpensAt : string;
  ls_ClosesAt : string;
  ls_MaxAttempts : Z;
  ls_CreatedAt : string;
  ls_AttemptCount : Z;
  ls_CourseIds : list string;
  ls_QuestionCount : Z;
}.

Definition draft_listed (req : ListAssessmentsRequest) (a : AssessmentRow) : bool :=
  (String.eqb (la_CompanyId req) "" || bool_decide (as_company_id a = Some (la_CompanyId req)))
  && (String.eqb (la_Purpose req) "" || String.eqb (as_purpose a) (la_Purpose req))
  && (String.eqb (la_Status req) "" || String.eqb (as_status a) (la_Status req)).

(** Questions per attempt: the size of a draw, else of the list. *)
Definition questions_per_attempt (id : string) (db : DB) : Z :=
  sum_Z (map (λ row : string * SectionRow,
                default (Z.of_nat (length (rows_where (λ _ q, String.eqb (sq_section_id q) row.1) (section_questions db))))
                  (se_pick_count row.2))
           (rows_where (λ _ s, String.eqb (se_assessment_id s) id) (assessment_sections db))).

Definition attempts_of (id : string) (db : DB) : Z :=
  Z.of_nat (length (rows_where (λ _ a, String.eqb (at_assessment_id a) id) (attempts db))).

Definition fits_int32 (z : Z) : bool := (- 2 ^ 31 <=? z) && (z <? 2 ^ 31).

(** One row; [None] when a count does not fit an int32. *)
Definition listed_assessment (db : DB) (row : string * AssessmentRow) : option ListedAssessment :=
  let '(id, a) := row in
  let attempts := attempts_of id db in
  let questions := questions_per_attempt id db in
  if fits_int32 attempts && fits_int32 questions then
    Some {| ls_Id := id; ls_CompanyId := derefStr (as_company_id a);
            ls_CompanyName := match c ← as_company_id a; companies db !! c with Some c => co_name c | None => "" end;
            ls_Title := as_title a; ls_Description := as_description a; ls_Purpose := as_purpose a;
            ls_DurationMinutes := as_duration_minutes a; ls_TotalMarks := as_total_marks a; ls_Status := as_status a;
            ls_OpensAt := fmtTime (as_opens_at a); ls_ClosesAt := fmtTime (as_closes_at a); ls_MaxAttempts := as_max_attempts a;
            ls_CreatedAt := fmtTime (Some (as_created_at a)); ls_AttemptCount := attempts; ls_CourseIds := as_course_ids a;
            ls_QuestionCount := questions |}
  else None.

(** Newest first; the server orders rows of one time. *)
Definition draft_rows (req : ListAssessmentsRequest) (st : Stamp) (db : DB) : list (string * AssessmentRow) :=
  order_by (λ a b, as_created_at b.2 <=? as_created_at a.2)
    (omap (λ id, a ← assessments db !! id; Some (id, a))
       (st_order st (map fst (rows_where (λ _ a, draft_listed req a) (assessments db))))).

(** [ListAssessments] *)
Definition ListAssessments (req : ListAssessmentsRequest) : M (list ListedAssessment * Z) :=
  let '(_, pageSize, offset) := clampPage (la_Page req) (la_PageSize req) in
  total <- statement Pool "count assessments" (λ _ db,
    let count := Z.of_nat (length (rows_where (λ _ a, draft_listed req a) (assessments db))) in
    if fits_int32 count then Some (count, db) else None) ;;
  rows <- statement Pool "list assessments"
    (λ st db, rows ← page_of pageSize offset (draft_rows req st db); out ← mapM (listed_assessment db) rows; Some (out, db)) ;;
  ret (rows, total).

(** ** What every stored test has *)

Record draft_ok (a : AssessmentRow) : Prop := {
  dk_title : as_title a ≠ "";
  dk_duration : 0 < as_duration_minutes a;
  dk_attempts : 1 ≤ as_max_attempts a;
  dk_purpose : as_purpose a ∈ purposes;
  dk_status : as_status a ∈ ["draft"; "published"; "archived"];
  dk_courses : NoDup (as_course_ids a);
  dk_named : "" ∉ as_course_ids a;
}.

Definition sane (db : DB) : Prop := map_Forall (λ _ a, draft_ok a) (assessments db).

(** An audience is the sent names, trimmed, each once and none blank. *)
Lemma course_loop_spec ids : ∀ seen, "" ∉ course_loop seen ids ∧ NoDup (course_loop seen ids) ∧
  ∀ x, x ∈ course_loop seen ids ↔ x ≠ "" ∧ x ∉ seen ∧ ∃ i, i ∈ ids ∧ x = trim_space i.
Proof.
  induction ids as [|i t IH]; intros seen; cbn [course_loop].
  { split_and!; [apply not_elem_of_nil|constructor|]. intros x. split; [by intros ?%elem_of_nil|]. by intros (_ & _ & j & ?%elem_of_nil & _). }
  destruct (String.eqb_spec (trim_space i) "") as [E|Hne]; cbn [negb andb].
  { destruct (IH seen) as (H1 & H2 & H3). split_and!; [done|done|]. intros x. rewrite H3. split; intros (Hx & Hs & j & Hj & ->); (split_and!; [done|done|]).
    - exists j. by split; [apply list_elem_of_further|].
    - apply elem_of_cons in Hj as [->|Hj]; [done|by exists j]. }
  case_bool_decide as Hin; cbn [negb].
  { destruct (IH seen) as (H1 & H2 & H3). split_and!; [done|done|]. intros x. rewrite H3. split; intros (Hx & Hs & j & Hj & ->); (split_and!; [done|done|]).
    - exists j. by split; [apply list_elem_of_further|].
    - apply elem_of_cons in Hj as [->|Hj]; [done|by exists j]. }
  destruct (IH (trim_space i :: seen)) as (H1 & H2 & H3). split_and!.
  - by intros [?|?]%elem_of_cons.
  - constructor; [|done]. rewrite H3. intros (_ & Hs & _). apply Hs, list_elem_of_here.
  - intros x. rewrite elem_of_cons, H3. split.
    + intros [->|(Hx & Hs & j & Hj & ->)]; (split_and!; [done| |]); try done.
      * exists i. by split; [apply list_elem_of_here|].
      * intros Hs'. by apply Hs, list_elem_of_further.
      * exists j. by split; [apply list_elem_of_further|].
    + intros (Hx & Hs & j & Hj & ->). destruct (decide (trim_space j = trim_space i)) as [->|Hd]; [by left|right].
      apply elem_of_cons in Hj as [->|Hj]; [done|]. split_and!; [done| |by exists j]. by intros [?|?]%elem_of_cons.
Qed.

Lemma courseList_sane ids : NoDup (courseList ids) ∧ "" ∉ courseList ids.
Proof. destruct ids as [ids|]; [by destruct (course_loop_spec ids []) as (? & ? & _)|]. split; [constructor|apply not_elem_of_nil]. Qed.

Definition keeps_sane (db db' : DB) : Prop := sane db → sane db'.

#[export] Instance keeps_sane_preorder : PreOrder keeps_sane.
Proof. split; [intros db H; exact H|]. intros a b c H1 H2 H. apply H2, H1, H. Qed.

Lemma sane_insert id a db : draft_ok a → sane db → sane (with_assessments (<[id := a]>) db).
Proof. intros Ha H. unfold sane. cbn. by apply map_Forall_insert_2. Qed.

Lemma sane_update id f db : (∀ a, draft_ok a → draft_ok (f a)) → sane db → sane (with_assessments (update_row id f) db).
Proof.
  intros Hf H k a. cbn. unfold update_row. intros Hk. apply lookup_alter_Some in Hk as [(-> & old & Hold & ->)|[_ Hk]].
  - apply Hf. by eapply H.
  - by eapply H.
Qed.

Lemma keeps_sane_same db db' : assessments db' = assessments db → keeps_sane db db'.
Proof. unfold keeps_sane, sane. by intros ->. Qed.

Section Sane.
Context {PG : Postgres} {PC : PgCase} {GF : GoFormat}.

(** A failing or a successful read, a statement elsewhere: as [respects] with
    the statements' own obligation. *)
Ltac sane_steps := respects_steps; try (apply respects_statement; [apply _|]; intros st db y db').

Lemma create_sane actor a : respects keeps_sane (CreateAssessment actor a).
Proof.
  unfold CreateAssessment. destruct a as [a|]; [|apply respects_fail, _].
  destruct (String.eqb_spec (trim_space (ai_Title a)) "") as [|Ht]; [apply respects_fail, _|].
  destruct (Z.leb_spec (ai_DurationMinutes a) 0) as [|Hd]; [apply respects_fail, _|]. apply respects_statement; [apply _|].
  intros st db x db' H Hs. unfold insert_draft in H. destruct (num_param _ _) as [z|]; [|done].
  destruct (_ && _ && _) eqn:E; [|done]. bool_to_prop. injection H as <- <-. apply sane_insert; [|done].
  destruct (courseList_sane (ai_CourseIds a)) as [Hnd Hne]. split; cbn; try done.
  - intros E. by rewrite E in Ht.
  - rewrite maxInt32_max. lia.
  - apply list_elem_of_here.
Qed.

Lemma merged_ok a z old : draft_ok old → draft_ok (merged_row a z old).
Proof.
  intros []. split; cbn; try done.
  - unfold keep_text. by destruct (String.eqb_spec (ai_Title a) "").
  - unfold keep_number. by destruct (Z.ltb_spec 0 (ai_DurationMinutes a)).
  - unfold keep_number. destruct (Z.ltb_spec 0 (ai_MaxAttempts a)); lia.
Qed.

Lemma update_sane a : respects keeps_sane (UpdateAssessment a).
Proof.
  unfold UpdateAssessment. sane_steps.
  - intros H Hs. unfold update_draft in H. destruct (positive_param _) as [z|]; [|done].
    destruct (assessments db !! _) as [old|] eqn:Eo; [|by injection H as <- <-]. destruct (_ <? _); [|done].
    injection H as <- <-. apply sane_insert; [|done]. apply merged_ok. by eapply Hs.
  - intros [= <- <-]. intros Hs. apply sane_update; [|done]. intros r []. destruct (courseList_sane (Some l)). by split.
Qed.

Lemma status_sane id status total db : status ∈ ["draft"; "published"; "archived"] → keeps_sane db (update_status id status total db).2.
Proof. intros Hst Hs. unfold update_status. cbn. apply sane_update; [|done]. intros a []. by split. Qed.

Lemma publish_sane req : respects keeps_sane (PublishAssessment req).
Proof.
  unfold PublishAssessment, GetAssessment, loadSections.
  sane_steps; intros [= _ <-]; apply (status_sane (pb_Id req)); by vm_compute; repeat constructor.
Qed.

Lemma delete_sane id : respects keeps_sane (DeleteAssessment id).
Proof.
  unfold DeleteAssessment. sane_steps; intros [= _ <-].
  - apply (status_sane id). by repeat constructor.
  - intros Hs k a. cbn. intros [_ Hk]%lookup_delete_Some. by eapply Hs.
Qed.

Lemma section_sane s : respects keeps_sane (UpsertSection s).
Proof. unfold UpsertSection. sane_steps; [case_match; [|done]|]; intros [= _ <-]; by apply keeps_sane_same. Qed.

Lemma drop_section_sane id : respects keeps_sane (DeleteSection id).
Proof. unfold DeleteSection. sane_steps. intros [= _ <-]. by apply keeps_sane_same. Qed.

Lemma insert_list_sane sid qs : ∀ i, respects keeps_sane (insert_list sid i qs).
Proof.
  induction qs as [|q t IH]; intros i; cbn [insert_list]; [apply respects_ret, _|].
  apply respects_bind; [apply _| |intros; apply IH]. apply respects_statement; [apply _|]. intros st db x db'.
  unfold insert_listed. case_match; [|done]. intros [= _ <-]. by apply keeps_sane_same.
Qed.

Lemma set_list_sane req : respects keeps_sane (SetSectionQuestions req).
Proof. unfold SetSectionQuestions. sane_steps; [|apply insert_list_sane]. intros [= _ <-]. by apply keeps_sane_same. Qed.

(** What an author may ask for. *)
Inductive AuthorRequest :=
  | Create (actor : string) (a : option AssessmentInput)
  | Edit (a : option AssessmentInput)
  | Publish (req : PublishAssessmentRequest)
  | Remove (id : string)
  | PutSection (s : option SectionInput)
  | DropSection (id : string)
  | SetList (req : SetSectionQuestionsRequest).

Definition serve_author (r : AuthorRequest) : M unit :=
  match r with
  | Create actor a => CreateAssessment actor a ;; ret tt
  | Edit a => UpdateAssessment a
  | Publish req => PublishAssessment req ;; ret tt
  | Remove id => DeleteAssessment id
  | PutSection s => UpsertSection s ;; ret tt
  | DropSection id => DeleteSection id
  | SetList req => SetSectionQuestions req
  end.

Definition serve_authors (rs : list AuthorRequest) : M unit := mapM_ (λ r, attempt_ (serve_author r) ;; ret tt) rs.

Lemma serve_authors_sane rs : respects keeps_sane (serve_authors rs).
Proof.
  apply respects_mapM; [apply _|]. intros r _. apply respects_bind; [apply _| |intros; apply respects_ret, _].
  apply respects_attempt.
  destruct r; cbn [serve_author];
    first [apply respects_bind; [apply _| |intros; apply respects_ret, _] | idtac];
    [apply create_sane|apply update_sane|apply publish_sane|apply delete_sane|apply section_sane|apply drop_section_sane|apply set_list_sane].
Qed.

End Sane.
