(* ===== verification/Reports.v ===== *)
(** Invitations, the recruiter's tables and the export
    (services/assessment-service/internal/repository/results.go).

    [InviteCandidates_invites] is what an invitation of a list of addresses
    does, [export_reads_back] that an exported file read back gives the table it
    was made from, and [shortlist_reads_back] that a saved shortlist is shown as
    it was computed.  Where the table is sorted by a text the collation of
    Companies.v decides. *)

From Stdlib Require Import Ascii.
From S2P Require Import Prelude GoStrings Csv Float64 Strconv GoTime Grading Gateway Service Shop.
From S2P Require Import Store Scoring Attempts Authoring Results Answers Bank Companies.

#[local] Open Scope Z_scope.
#[local] Open Scope repo_scope.

(** ** Invitations *)

Record Invite := {
  iv_Id : string;
  iv_AssessmentId : string;
  iv_Email : string;
  iv_UserId : string;
  iv_Token : string;
  iv_Status : string;
  iv_ExpiresAt : string;
  iv_SentAt : string;
}.

Record InviteCandidatesRequest := { ic_AssessmentId : string; ic_ActorId : string; ic_Emails : list string; ic_ExpiresAt : string }.

Record InviteCandidatesResponse := { ir_Invites : list Invite; ir_Skipped : Z }.

(** [inviteToken] *)
Definition inviteToken {RN : Random} : M string :=
  λ e n db, match randomToken n 24 with
            | Some b => (inl (of_bytes b), S n, db)
            | None => (inr (ErrDB "generate invite token"), S n, db)
            end.

Definition invites_of (assessment email : string) (db : DB) : list (string * InviteRow) :=
  rows_where (λ _ i, String.eqb (in_assessment_id i) assessment && String.eqb (in_email i) email) (assessment_invites db).

Definition set_expires (expires : option Z) (i : InviteRow) : InviteRow :=
  {| in_assessment_id := in_assessment_id i; in_email := in_email i; in_user_id := in_user_id i; in_token := in_token i;
     in_status := in_status i; in_expires_at := expires; in_sent_at := in_sent_at i |}.

Definition new_invite (assessment email token : string) (expires : option Z) (now : Z) : InviteRow :=
  {| in_assessment_id := assessment; in_email := email; in_user_id := None; in_token := token; in_status := "invited";
     in_expires_at := expires; in_sent_at := Some (to_micro now) |}.

(** The insert: an address already invited only gets the new expiry. *)
Definition insert_invite (assessment email token : string) (expires : option Z) (st : Stamp) (db : DB)
  : option ((string * InviteRow) * DB) :=
  match invites_of assessment email db with
  | (id, i) :: _ => Some ((id, set_expires expires i), with_invites (<[id := set_expires expires i]>) db)
  | [] =>
      let id := st_id st 0 in
      let i := new_invite assessment email token expires (st_now st) in
      if bool_decide (assessment_invites db !! id = None) && bool_decide (is_Some (assessments db !! assessment))
         && bool_decide (rows_where (λ _ j, String.eqb (in_token j) token) (assessment_invites db) = [])
      then Some ((id, i), with_invites (<[id := i]>) db) else None
  end.

Definition skip (out : InviteCandidatesResponse) : InviteCandidatesResponse :=
  {| ir_Invites := ir_Invites out; ir_Skipped := int32 (ir_Skipped out + 1) |}.

Definition invited_as (assessment email : string) (row : string * InviteRow) (out : InviteCandidatesResponse) : InviteCandidatesResponse :=
  {| ir_Invites := ir_Invites out ++
       [{| iv_Id := row.1; iv_AssessmentId := assessment; iv_Email := email; iv_UserId := ""; iv_Token := in_token row.2;
           iv_Status := in_status row.2; iv_ExpiresAt := fmtTime (in_expires_at row.2); iv_SentAt := "" |}];
     ir_Skipped := ir_Skipped out |}.

(** The address an entry of the list stands for; [None] is skipped. *)
Definition invitee (seen : list string) (raw : string) : option string :=
  let email := to_lower (trim_space raw) in
  if String.eqb email "" || negb (contains_byte "@"%char email) || bool_decide (email ∈ seen) then None else Some email.

Fixpoint invite_loop {RN : Random} (req : InviteCandidatesRequest) (seen emails : list string) (out : InviteCandidatesResponse)
  : M InviteCandidatesResponse :=
  match emails with
  | [] => ret out
  | raw :: t =>
      match invitee seen raw with
      | None => invite_loop req seen t (skip out)
      | Some email =>
          token <- inviteToken ;;
          row <- statement Pool "insert invite"
            (insert_invite (ic_AssessmentId req) email token (to_micro <$> parseTime (ic_ExpiresAt req))) ;;
          invite_loop req (email :: seen) t (invited_as (ic_AssessmentId req) email row out)
      end
  end.

(** [InviteCandidates] *)
Definition InviteCandidates {RN : Random} (req : InviteCandidatesRequest) : M InviteCandidatesResponse :=
  invite_loop req [] (ic_Emails req) {| ir_Invites := []; ir_Skipped := 0 |}.

(** [ListInvites] *)
Definition ListInvites `{!PgCollation} (assessmentID : string) : M (list Invite) :=
  select Pool "list invites"
    (λ db, map (λ row : string * InviteRow,
              {| iv_Id := row.1; iv_AssessmentId := assessmentID; iv_Email := in_email row.2; iv_UserId := derefStr (in_user_id row.2);
                 iv_Token := in_token row.2; iv_Status := in_status row.2; iv_ExpiresAt := fmtTime (in_expires_at row.2);
                 iv_SentAt := fmtTime (in_sent_at row.2) |})
            (order_by (λ a b : string * InviteRow, text_le (in_email a.2) (in_email b.2))
               (rows_where (λ _ i, String.eqb (in_assessment_id i) assessmentID) (assessment_invites db)))).

(** ** The candidate table *)

Definition status_text (s : AttemptStatus) : string :=
  match s with
  | InProgress => "in_progress" | Submitted => "submitted" | Evaluating => "evaluating"
  | Evaluated => "evaluated" | Disqualified => "disqualified" | Expired => "expired"
  end.

Record ListAttemptsRequest := {
  lt_AssessmentId : string;
  lt_Status : string;
  lt_MinScore : float64;
  lt_Search : string;
  lt_SortBy : string;
  lt_SortDir : string;
  lt_Page : Z;
  lt_PageSize : Z;
}.

Record ListAttemptsResponse := { rt_Attempts : list AttemptSummary; rt_Total : Z; rt_Page : Z; rt_PageSize : Z }.

(** [at.score >= $n] for a score in hundredths and a float64 parameter. *)
Class PgScore := { score_at_least : Z → float64 → bool }.

Inductive SortColumn := ByScore | BySubmitted | ByIntegrity | ByName.

(** [orderClause]: the column, and whether ascending. *)
Definition orderClause (sortBy sortDir : string) : SortColumn * bool :=
  (if String.eqb sortBy "submitted_at" then BySubmitted
   else if String.eqb sortBy "integrity" then ByIntegrity
   else if String.eqb sortBy "name" then ByName else ByScore,
   equal_fold sortDir "asc").

(** [ASC] or [DESC], [NULLS LAST]. *)
Definition column_le {A} (le : A → A → bool) (asc : bool) (a b : option A) : bool :=
  match a, b with
  | Some a, Some b => if asc then le a b else le b a
  | _, None => true
  | None, Some _ => false
  end.

Section Tables.
Context {PG : Postgres} {PS : PgSearch} {PC : PgCollation} {PR : PgScore}.

Definition sort_le (col : SortColumn) (asc : bool) (db : DB) (a b : AttemptRow) : bool :=
  match col with
  | ByScore => column_le Z.leb asc (Some (at_score a)) (Some (at_score b))
  | BySubmitted => column_le Z.leb asc (at_submitted_at a) (at_submitted_at b)
  | ByIntegrity => column_le Z.leb asc (Some (at_integrity_score a)) (Some (at_integrity_score b))
  | ByName => column_le text_le asc (us_name <$> users db !! at_user_id a) (us_name <$> users db !! at_user_id b)
  end.

(** Ties by the latest start. *)
Definition table_le (order : SortColumn * bool) (db : DB) (a b : AttemptRow) : bool :=
  sort_le order.1 order.2 db a b
  && (negb (sort_le order.1 order.2 db b a) || (at_started_at b <=? at_started_at a)).

Definition in_table (req : ListAttemptsRequest) (db : DB) (a : AttemptRow) : bool :=
  String.eqb (at_assessment_id a) (lt_AssessmentId req)
  && (String.eqb (lt_Status req) "" || String.eqb (status_text (at_status a)) (lt_Status req))
  && (negb (fltb float_zero (lt_MinScore req)) || score_at_least (at_score a) (lt_MinScore req))
  && (String.eqb (lt_Search req) ""
      || match users db !! at_user_id a with
         | Some u => ilike_within (lt_Search req) (us_name u) || ilike_within (lt_Search req) (us_email u)
         | None => false
         end).

(** [ListAttempts] *)
Definition ListAttempts (req : ListAttemptsRequest) : M ListAttemptsResponse :=
  let '(page, pageSize, offset) := clampPage (lt_Page req) (lt_PageSize req) in
  total <- statement Pool "count attempts" (λ _ db,
    let count := Z.of_nat (length (rows_where (λ _ a, in_table req db a) (attempts db))) in
    if count <? 2 ^ 31 then Some (count, db) else None) ;;
  summaries <- statement Pool "list attempt summaries"
    (λ _ db, l ← page_of pageSize offset
                   (summaries_where (λ _ a, in_table req db a) (table_le (orderClause (lt_SortBy req) (lt_SortDir req)) db) db);
             Some (l, db)) ;;
  ret {| rt_Attempts := summaries; rt_Total := total; rt_Page := page; rt_PageSize := pageSize |}.
End Tables.

(** ** Reports and shortlists *)

Record ProctorEvent := { ev_kind : string; ev_detail : string; ev_OccurredAt : string }.

Record AttemptReport := { ar_Summary : AttemptSummary; ar_Questions : list AttemptQuestion; ar_ProctorEvents : list ProctorEvent }.

(** [proctorEvents]; events of one instant in the order they were recorded. *)
Definition proctorEvents (attemptID : string) : M (list ProctorEvent) :=
  select Pool "load proctor events"
    (λ db, map (λ ev, {| ev_kind := pe_kind ev; ev_detail := pe_detail ev; ev_OccurredAt := fmtTime (Some (pe_occurred_at ev)) |})
             (order_by (λ a b, pe_occurred_at a <=? pe_occurred_at b)
                (filter (λ ev, pe_attempt_id ev = attemptID) (proctor_events db)))).

Section Reports.
Context {PG : Postgres}.

(** [GetAttemptReport] *)
Definition GetAttemptReport (attemptID : string) : M AttemptReport :=
  summary <- loadSummary attemptID ;;
  questions <- attemptQuestions attemptID true ;;
  events <- proctorEvents attemptID ;;
  ret {| ar_Summary := summary; ar_Questions := questions; ar_ProctorEvents := events |}.

Definition entries_of (id : string) (db : DB) : list ((string * string) * EntryRow) :=
  filter (λ kv : (string * string) * EntryRow, kv.1.1 = id) (map_to_list (shortlist_entries db)).

(** [ListShortlists], newest first. *)
Definition ListShortlists (assessmentID : string) : M (list Shortlist) :=
  statement Pool "list shortlists"
    (λ st db,
       let shown (row : string * ShortlistRow) :=
         {| sh_Id := row.1; sh_AssessmentId := assessmentID; sh_Name := sl_name row.2; sh_Criteria := sl_criteria row.2;
            sh_CreatedBy := sl_created_by row.2; sh_CreatedAt := fmtTime (Some (sl_created_at row.2)); sh_Entries := [];
            sh_Total := Z.of_nat (length (entries_of row.1 db)) |} in
       Some (map shown
               (order_by (λ a b : string * ShortlistRow, sl_created_at b.2 <=? sl_created_at a.2)
                  (omap (λ id, s ← shortlists db !! id; Some (id, s))
                     (st_order st (map fst (rows_where (λ _ s, String.eqb (sl_assessment_id s) assessmentID) (shortlists db)))))), db)).

(** One row of the entries query; an entry whose attempt is gone is not joined. *)
Definition shown_entry (db : DB) (kv : (string * string) * EntryRow) : option ShortlistEntry :=
  match attempts db !! kv.1.2 with
  | None => None
  | Some a =>
      let u := users db !! le_user_id kv.2 in
      let score := num_value (at_score a) in
      let max := num_value (at_max_score a) in
      Some {| en_AttemptId := kv.1.2; en_UserId := le_user_id kv.2; en_UserName := match u with Some u => us_name u | None => "" end;
              en_UserEmail := match u with Some u => us_email u | None => "" end; en_Rank := le_rank kv.2; en_Score := score;
              en_MaxScore := max;
              en_Percent := if fltb float_zero max then round2 (fmul (fdiv score max) (of_Z 100)) else float_zero;
              en_Integrity := num_value (at_integrity_score a); en_Decision := le_decision kv.2; en_Notes := le_notes kv.2 |}
  end.

Definition shown_entries (id : string) (db : DB) : list ShortlistEntry :=
  omap (shown_entry db) (order_by (λ a b : (string * string) * EntryRow, le_rank a.2 <=? le_rank b.2) (entries_of id db)).

(** [GetShortlist] *)
Definition GetShortlist (id : string) : M Shortlist :=
  r <- select Pool "get shortlist" (λ db, shortlists db !! id) ;;
  match r with
  | None => fail ErrNotFound
  | Some s =>
      entries <- select Pool "load shortlist entries" (shown_entries id) ;;
      ret {| sh_Id := id; sh_AssessmentId := sl_assessment_id s; sh_Name := sl_name s; sh_Criteria := sl_criteria s;
             sh_CreatedBy := sl_created_by s; sh_CreatedAt := fmtTime (Some (sl_created_at s)); sh_Entries := entries;
             sh_Total := int32 (Z.of_nat (length entries)) |}
  end.
End Reports.

(** ** The export *)

Definition slug_byte (a : ascii) : list ascii :=
  if ((97 <=? code a) && (code a <=? 122) || (48 <=? code a) && (code a <=? 57))%nat then [a]
  else if Ascii.eqb a " "%char || Ascii.eqb a "-"%char || Ascii.eqb a "_"%char then ["-"%char]
  else [].

Definition is_dash (a : ascii) : bool := Ascii.eqb a "-"%char.

(** [slugify] *)
Definition slugify (s : string) : string :=
  let out := trim_right is_dash (drop_while is_dash (concat (map slug_byte (to_bytes (to_lower (trim_space s)))))) in
  match out with [] => "assessment" | _ => of_bytes out end.

(** [Time.Sub] saturates. *)
Definition time_sub (b a : Z) : Z := Z.max (- 2 ^ 63) (Z.min (2 ^ 63 - 1) (b - a)).

(** [Duration.Minutes] *)
Definition duration_minutes (d : Z) : float64 :=
  fadd (of_Z (d ÷ minute)) (fdiv (of_Z (Z.rem d minute)) (of_Z minute)).

(** [minutesBetween] *)
Definition minutesBetween (start end_ : string) : string :=
  match parse_rfc3339 start, parse_rfc3339 end_ with
  | Some a, Some b => if b <? a then "" else format_fixed 1 (duration_minutes (time_sub b a))
  | _, _ => ""
  end.

Definition export_header : list string :=
  ["Rank"; "Name"; "Email"; "Status"; "Score"; "Max Score"; "Percent"; "Passed"; "Integrity"; "Decision"; "Started";
   "Submitted"; "Time taken (min)"].

Definition export_row (rank : Z) (s : AttemptSummary) : list string :=
  [format_int rank; sm_UserName s; sm_UserEmail s; status_text (sm_Status s); format_fixed 2 (sm_Score s);
   format_fixed 2 (sm_MaxScore s); format_fixed 2 (sm_Percent s); format_bool (sm_Passed s);
   format_fixed 0 (sm_IntegrityScore s); sm_Decision s; sm_StartedAt s; sm_SubmittedAt s;
   minutesBetween (sm_StartedAt s) (sm_SubmittedAt s)].

Fixpoint export_rows (rank : Z) (l : list AttemptSummary) : list (list string) :=
  match l with
  | [] => []
  | s :: t => export_row rank s :: export_rows (rank + 1) t
  end.

(** The attempts of an export: a shortlist's, else the test's. *)
Definition in_export (assessmentID shortlistID : string) (db : DB) (id : string) (a : AttemptRow) : bool :=
  if String.eqb shortlistID "" then String.eqb (at_assessment_id a) assessmentID
  else bool_decide (is_Some (shortlist_entries db !! (shortlistID, id))).

Definition by_score (a b : AttemptRow) : bool := at_score b <=? at_score a.

Definition exported `{!Postgres} (assessmentID shortlistID : string) (db : DB) : list AttemptSummary :=
  summaries_where (in_export assessmentID shortlistID db) by_score db.

(** [ExportResults]: the file's name and contents. *)
Definition ExportResults `{!Postgres} (assessmentID shortlistID : string) : M (string * string) :=
  title <- select Pool "lookup assessment title" (λ db, as_title <$> assessments db !! assessmentID) ;;
  match title with
  | None => fail ErrNotFound
  | Some title =>
      summaries <- select Pool "list attempt summaries" (exported assessmentID shortlistID) ;;
      ret (slugify title +:+ "-results.csv", write_records (export_header :: export_rows 1 summaries))
  end.

(** ** Reading the export back *)

Section ExportLemmas.
Context {PG : Postgres}.

Lemma export_rows_filled l : ∀ rank, Forall (λ r, r ≠ []) (export_rows rank l).
Proof. induction l as [|s l IH]; intros rank; constructor; [done|apply IH]. Qed.

Lemma elem_summaries p le db x :
  x ∈ summaries_where p le db ↔
  ∃ id a t, attempts db !! id = Some a ∧ p id a = true ∧ assessments db !! at_assessment_id a = Some t ∧ x = summary_of db id a t.
Proof.
  unfold summaries_where. rewrite list_elem_of_omap. split.
  - intros ([id a] & Hin & Hx). rewrite (order_by_perm _ _) in Hin. apply elem_rows_where in Hin as [Ha Hp]. cbn in Hx.
    destruct (assessments db !! at_assessment_id a) as [t|] eqn:Et; [|done]. injection Hx as <-. by exists id, a, t.
  - intros (id & a & t & Ha & Hp & Ht & ->). exists (id, a). cbn. rewrite Ht. split; [|done].
    rewrite (order_by_perm _ _). by apply elem_rows_where.
Qed.

Lemma sorted_omap {A B} (R : A → A → Prop) (Q : B → B → Prop) (f : A → option B) l :
  (∀ a b x y, a ∈ l → b ∈ l → R a b → f a = Some x → f b = Some y → Q x y) → StronglySorted R l → StronglySorted Q (omap f l).
Proof.
  intros HQ H. induction H as [|a l Hs IH Hall]; [constructor|]. cbn.
  assert (Hl : StronglySorted Q (omap f l)).
  { apply IH. intros a' b' x y Ha Hb. apply HQ; by apply list_elem_of_further. }
  destruct (f a) as [x|] eqn:Ea; [|exact Hl]. constructor; [exact Hl|]. apply Forall_forall. intros y (b & Hb & Eb)%list_elem_of_omap.
  rewrite Forall_forall in Hall. eapply HQ; [apply list_elem_of_here|by apply list_elem_of_further|by apply Hall|done|done].
Qed.

Lemma by_score_sorted p db :
  StronglySorted (λ x y, ∃ a b, attempts db !! sm_Id x = Some a ∧ attempts db !! sm_Id y = Some b ∧ at_score b ≤ at_score a)
    (summaries_where p by_score db).
Proof.
  unfold summaries_where. eapply (sorted_omap (λ x y : string * AttemptRow, by_score x.2 y.2 = true)).
  - intros [k1 a] [k2 b] x y Ha Hb Hle Hx Hy. rewrite (order_by_perm _ _) in Ha, Hb. apply elem_rows_where in Ha as [Ha _], Hb as [Hb _].
    cbn in Hx, Hy. destruct (assessments db !! at_assessment_id a); [|done]. destruct (assessments db !! at_assessment_id b); [|done].
    injection Hx as <-. injection Hy as <-. exists a, b. cbn. split_and!; [done|done|]. by apply Z.leb_le.
  - eapply (order_by_ordered (λ x y : string * AttemptRow, by_score x.2 y.2) (λ _, True)).
    + intros x y _ _ H. unfold by_score in *. lia.
    + intros x y z _ _ _ H1 H2. unfold by_score in *. lia.
    + apply Forall_forall. done.
Qed.

End ExportLemmas.

(** ** What inviting does *)

(** One invitation per test and address. *)
Definition unique_invites (db : DB) : Prop :=
  ∀ k l i j, assessment_invites db !! k = Some i → assessment_invites db !! l = Some j →
    in_assessment_id i = in_assessment_id j → in_email i = in_email j → k = l.

(** The addresses of a list, each once, in order. *)
Fixpoint invitees (seen emails : list string) : list string :=
  match emails with
  | [] => []
  | raw :: t => match invitee seen raw with Some email => email :: invitees (email :: seen) t | None => invitees seen t end
  end.

Lemma invitee_spec seen raw email :
  invitee seen raw = Some email ↔
  email = to_lower (trim_space raw) ∧ email ≠ "" ∧ contains_byte "@"%char email = true ∧ email ∉ seen.
Proof.
  unfold invitee. destruct (String.eqb_spec (to_lower (trim_space raw)) "") as [->|Hne]; [by split; [|intros (-> & ? & _)]|].
  destruct (contains_byte _ _) eqn:Ec; [|split; [done|intros (-> & _ & Hc & _); congruence]].
  cbn [negb orb]. case_bool_decide as Hs; (split; [try done|intros (-> & _ & _ & ?); done]).
  by intros [= <-].
Qed.

Lemma invitees_spec emails : ∀ seen, NoDup (invitees seen emails) ∧
  ∀ x, x ∈ invitees seen emails ↔ x ∉ seen ∧ x ≠ "" ∧ contains_byte "@"%char x = true ∧ ∃ raw, raw ∈ emails ∧ x = to_lower (trim_space raw).
Proof.
  induction emails as [|raw t IH]; intros seen; cbn [invitees].
  { split; [constructor|]. intros x. split; [by intros ?%elem_of_nil|]. by intros (_ & _ & _ & r & ?%elem_of_nil & _). }
  destruct (invitee seen raw) as [email|] eqn:E.
  - apply invitee_spec in E as (-> & Hne & Hc & Hs). destruct (IH (to_lower (trim_space raw) :: seen)) as [Hnd Hin]. split.
    + constructor; [|done]. rewrite Hin. intros [H _]. apply H, list_elem_of_here.
    + intros x. rewrite elem_of_cons, Hin, not_elem_of_cons. split.
      * intros [->|([_ Hx] & H1 & H2 & r & Hr & ->)]; (split_and!; [done..|]); [by exists raw; split; [apply list_elem_of_here|]|].
        exists r. by split; [apply list_elem_of_further|].
      * intros (Hx & H1 & H2 & r & Hr & ->). destruct (decide (to_lower (trim_space r) = to_lower (trim_space raw))) as [->|Hd]; [by left|right].
        apply elem_of_cons in Hr as [->|Hr]; [done|]. split_and!; try done. by exists r.
  - destruct (IH seen) as [Hnd Hin]. split; [done|]. intros x. rewrite Hin. split; intros (Hx & H1 & H2 & r & Hr & ->); (split_and!; [done..|]).
    + exists r. by split; [apply list_elem_of_further|].
    + apply elem_of_cons in Hr as [->|Hr]; [|by exists r]. exfalso.
      assert (Some (to_lower (trim_space raw)) = None) by (rewrite <- E; symmetry; by apply invitee_spec). done.
Qed.

(** Inviting the addresses [W] to a test. *)
Record inviting (test : string) (expires : option Z) (W : list string) (db db' : DB) : Prop := {
  iw_old k i : assessment_invites db !! k = Some i →
    assessment_invites db' !! k = Some (if decide (in_assessment_id i = test ∧ in_email i ∈ W) then set_expires expires i else i);
  iw_new k i : assessment_invites db !! k = None → assessment_invites db' !! k = Some i →
    in_assessment_id i = test ∧ in_email i ∈ W ∧ in_status i = "invited" ∧ in_user_id i = None ∧ in_expires_at i = expires;
  iw_all email : email ∈ W → ∃ k i, assessment_invites db' !! k = Some i ∧ in_assessment_id i = test ∧ in_email i = email ∧ in_expires_at i = expires;
  iw_rest : db' = with_invites (λ _, assessment_invites db') db;
}.

Lemma inviting_nil test expires db : inviting test expires [] db db.
Proof.
  split.
  - intros k i Hi. rewrite decide_False; [done|]. by intros [_ ?%elem_of_nil].
  - intros k i H1 H2. congruence.
  - by intros email ?%elem_of_nil.
  - by destruct db.
Qed.

Lemma inviting_cons test expires x W db d db' :
  x ∉ W → inviting test expires [x] db d → inviting test expires W d db' → inviting test expires (x :: W) db db'.
Proof.
  intros Hx [O1 N1 A1 R1] [O2 N2 A2 R2]. split.
  - intros k i Hi. specialize (O1 _ _ Hi). apply O2 in O1. rewrite O1. f_equal. clear - Hx.
    destruct (decide (in_assessment_id i = test ∧ in_email i ∈ [x])) as [[Ht Hm]|Hn]; cbn.
    + apply list_elem_of_singleton in Hm as Hm'. rewrite Hm', decide_False by (by intros [_ ?]).
      rewrite decide_True; [done|]. split; [done|]. apply list_elem_of_here.
    + destruct (decide (in_assessment_id i = test ∧ in_email i ∈ W)) as [[Ht Hm]|Hn2].
      * rewrite decide_True; [done|]. split; [done|]. by apply list_elem_of_further.
      * rewrite decide_False; [done|]. intros [Ht [Hm|Hm]%elem_of_cons]; [|by apply Hn2]. apply Hn. split; [done|]. by rewrite Hm, list_elem_of_singleton.
  - intros k i Hd Hi. destruct (assessment_invites d !! k) as [j|] eqn:Ej.
    + destruct (N1 _ _ Hd Ej) as (Ht & Hm & H1 & H2 & H3). apply list_elem_of_singleton in Hm. pose proof (O2 _ _ Ej) as Hj. rewrite Hi in Hj.
      rewrite Hm, decide_False in Hj by (by intros [_ ?]). injection Hj as ->. split_and!; try done. rewrite Hm. apply list_elem_of_here.
    + destruct (N2 _ _ Ej Hi) as (Ht & Hm & H1 & H2 & H3). split_and!; try done. by apply list_elem_of_further.
  - intros email [->|Hm]%elem_of_cons; [|by apply A2]. destruct (A1 x) as (k & i & Hk & Ht & He & Hexp); [apply list_elem_of_here|].
    exists k. pose proof (O2 _ _ Hk) as Hk2. rewrite He, decide_False in Hk2 by (by intros [_ ?]). by exists i.
  - rewrite R2, R1. by destruct db.
Qed.

Lemma insert_invite_inviting test email token expires st db r db' :
  unique_invites db → insert_invite test email token expires st db = Some (r, db') →
  unique_invites db' ∧ inviting test expires [email] db db'.
Proof.
  intros Hu H. unfold insert_invite in H. destruct (invites_of test email db) as [|[k i] rest] eqn:E.
  - destruct (_ && _ && _) eqn:Eg; [|done]. bool_to_prop. injection H as _ <-. cbn.
    assert (Hno : ∀ l j, assessment_invites db !! l = Some j → ¬ (in_assessment_id j = test ∧ in_email j = email)).
    { intros l j Hl [Ht He]. assert (Hlj : (l, j) ∈ invites_of test email db).
      { apply elem_rows_where. split; [done|]. apply andb_true_iff. by split; apply String.eqb_eq. }
      rewrite E in Hlj. by apply elem_of_nil in Hlj. }
    split.
    + intros k l i j Hk Hl Ht He. cbn in Hk, Hl. apply lookup_insert_Some in Hk as [[<- <-]|[Hk1 Hk]], Hl as [[<- <-]|[Hl1 Hl]]; try done.
      * exfalso. by eapply (Hno _ _ Hl).
      * exfalso. by eapply (Hno _ _ Hk).
      * by eapply Hu.
    + split; cbn.
      * intros k i Hi. rewrite lookup_insert_ne by congruence. rewrite decide_False; [done|].
        rewrite list_elem_of_singleton. by apply (Hno _ _ Hi).
      * intros k i Hk [[<- <-]|[_ Hi]]%lookup_insert_Some; [|congruence]. cbn. split_and!; try done. apply list_elem_of_here.
      * intros x ->%list_elem_of_singleton. eexists _, _. split; [apply lookup_insert_eq|]. done.
      * by destruct db.
  - injection H as _ <-. assert (Hin : (k, i) ∈ invites_of test email db) by (rewrite E; apply list_elem_of_here).
    apply elem_rows_where in Hin as [Hi [Ht%String.eqb_eq He%String.eqb_eq]%andb_true_iff]. split.
    + intros k1 k2 i1 i2 H1 H2. cbn in H1, H2.
      apply lookup_insert_Some in H1 as [[<- <-]|[Hn1 H1]], H2 as [[<- <-]|[Hn2 H2]]; cbn; try done; intros; by eapply Hu.
    + split; cbn.
      * intros k1 i1 H1. destruct (decide (k = k1)) as [<-|Hne].
        { rewrite lookup_insert_eq. assert (i1 = i) as -> by congruence. rewrite decide_True; [done|]. by rewrite list_elem_of_singleton. }
        rewrite lookup_insert_ne by done. rewrite decide_False; [done|]. rewrite list_elem_of_singleton. intros [Ht1 He1].
        apply Hne. eapply Hu; [exact Hi|exact H1|by rewrite Ht, Ht1|by rewrite He, He1].
      * intros k1 i1 Hn. destruct (decide (k = k1)) as [<-|Hne]; [congruence|]. rewrite lookup_insert_ne by done. congruence.
      * intros x ->%list_elem_of_singleton. exists k. eexists. split; [apply lookup_insert_eq|]. done.
      * by destruct db.
Qed.

Lemma invite_loop_inviting {RN : Random} req e emails : alone e → ∀ seen out0 n db out n' db',
  unique_invites db → invite_loop req seen emails out0 e n db = (inl out, n', db') →
  unique_invites db' ∧ inviting (ic_AssessmentId req) (to_micro <$> parseTime (ic_ExpiresAt req)) (invitees seen emails) db db' ∧
  map iv_Email (ir_Invites out) = map iv_Email (ir_Invites out0) ++ invitees seen emails.
Proof.
  intros He. induction emails as [|raw t IH]; intros seen out0 n db out n' db' Hu H; cbn [invite_loop invitees] in *.
  { injection H as <- _ <-. split; [done|]. split; [apply inviting_nil|by rewrite app_nil_r]. }
  destruct (invitee seen raw) as [email|] eqn:E; [|by eapply IH in H].
  run_bind H token n1 db1 Hm. unfold inviteToken in Hm. destruct (randomToken n 24); [|done]. injection Hm as <- _ <-.
  run_bind H row n2 db2 Hm. run_stmt Hm. rewrite He in Hm. apply insert_invite_inviting in Hm as [Hu2 Hi]; [|done].
  apply IH in H as (Hu' & Hi' & Hout); [|done]. split; [done|]. split.
  - eapply inviting_cons; [|exact Hi|exact Hi']. destruct (invitees_spec t (email :: seen)) as [_ Hin]. rewrite Hin.
    intros [Hn _]. apply Hn, list_elem_of_here.
  - rewrite Hout. cbn. by rewrite map_app, <- app_assoc.
Qed.


(** ** A saved shortlist *)

Section SavedShortlist.
Context {PG : Postgres}.

(** Every entry belongs to a shortlist: the foreign key. *)
Definition entries_placed (db : DB) : Prop :=
  ∀ k, is_Some (shortlist_entries db !! k) → is_Some (shortlists db !! k.1).

Definition stored_entry (id : string) (x : ShortlistEntry) : (string * string) * EntryRow :=
  ((id, en_AttemptId x), {| le_user_id := en_UserId x; le_rank := en_Rank x; le_decision := "shortlisted"; le_notes := "" |}).

Lemma entries_from_ranks l : ∀ rank, map en_Rank (entries_from rank l) = seqZ rank (Z.of_nat (length l)).
Proof.
  induction l as [|s l IH]; intros rank; cbn [entries_from map length]; [done|].
  rewrite seqZ_cons by lia. f_equal. rewrite IH. f_equal. lia.
Qed.

Lemma entries_from_elem l : ∀ rank x, x ∈ entries_from rank l → ∃ r s, s ∈ l ∧ x = entry_of r s.
Proof.
  induction l as [|s l IH]; intros rank x; cbn [entries_from]; [by intros ?%elem_of_nil|].
  intros [->|Hx]%elem_of_cons; [exists rank, s; by split; [apply list_elem_of_here|]|].
  apply IH in Hx as (r & s' & Hs & ->). exists r, s'. by split; [apply list_elem_of_further|].
Qed.

Lemma ranking_elem req l x : x ∈ sh_Entries (ranking req l) → ∃ r s, s ∈ l ∧ x = entry_of r s.
Proof.
  unfold ranking. cbn [sh_Entries]. intros (r & s & Hs & ->)%entries_from_elem. exists r, s. split; [|done].
  assert (Hin : s ∈ order_by keeps_place (filter (λ s, meetsCriteria s (default no_criteria (cs_Criteria req)) = true) l)).
  { revert Hs. unfold top_n. destruct (_ && _); [|done]. apply subseteq_take. }
  rewrite (order_by_perm _ _) in Hin. by apply list_elem_of_filter in Hin as [_ ?].
Qed.

Lemma shown_stored req db db' id x :
  attempts db' = attempts db → users db' = users db → x ∈ sh_Entries (ranking req (finished (cs_AssessmentId req) db)) →
  shown_entry db' (stored_entry id x) = Some x.
Proof.
  intros Ha Hu Hx. apply ranking_elem in Hx as (r & s & Hs & ->). apply elem_finished in Hs as (k & a & t & Hk & _ & _ & _ & ->).
  unfold shown_entry, stored_entry. cbn. by rewrite Ha, Hk, Hu.
Qed.

Lemma entries_of_stored req l id db' :
  NoDup (map en_AttemptId (sh_Entries (ranking req l))) →
  (∀ a, shortlist_entries db' !! (id, a) = None ∨ a ∈ map en_AttemptId (sh_Entries (ranking req l))) →
  (∀ x, x ∈ sh_Entries (ranking req l) → shortlist_entries db' !! (stored_entry id x).1 = Some (stored_entry id x).2) →
  order_by (λ a b : (string * string) * EntryRow, le_rank a.2 <=? le_rank b.2) (entries_of id db') = map (stored_entry id) (sh_Entries (ranking req l)).
Proof.
  intros Hnd Honly Hin. apply (sorted_rows_eq (λ kv : (string * string) * EntryRow, le_rank kv.2)).
  - rewrite (order_by_perm _ _). apply NoDup_Permutation.
    + unfold entries_of. apply NoDup_filter, NoDup_map_to_list.
    + apply (NoDup_fmap_1 (λ kv : (string * string) * EntryRow, kv.1.2)). change (NoDup (map (λ kv : (string * string) * EntryRow, kv.1.2) (map (stored_entry id) (sh_Entries (ranking req l))))).
      rewrite map_map. exact Hnd.
    + intros [[k a] row]. unfold entries_of. rewrite list_elem_of_filter, elem_of_map_to_list. cbn. split.
      * intros [-> Hrow]. destruct (Honly a) as [|Ha]; [congruence|]. apply list_elem_of_fmap in Ha as (x & -> & Hx).
        apply list_elem_of_fmap. exists x. split; [|done]. specialize (Hin _ Hx). cbn in Hin. rewrite Hrow in Hin. by injection Hin as ->.
      * intros (x & [= -> -> ->] & Hx)%list_elem_of_fmap. split; [done|]. by apply (Hin x).
  - apply (order_by_sorted (λ kv : (string * string) * EntryRow, le_rank kv.2)).
  - rewrite map_map. cbn. change (λ x : ShortlistEntry, en_Rank x) with en_Rank. unfold ranking. cbn [sh_Entries].
    rewrite entries_from_ranks. apply seqZ_sorted.
Qed.

End SavedShortlist.
