(* ===== verification/Recruiter.v ===== *)
(** The recruiter desk of the API gateway
    (services/api-gateway/graph/resolvers/recruiter.go): test authoring,
    invitations, results and shortlists over HTTP, on top of the assessment
    service's operations and the error codes of its handler
    (services/assessment-service/internal/handler/grpc.go).

    [recruiter_confined] bounds what a recruiter's request can change by the
    companies they belong to, and [section_unguarded] is the route that escapes
    the bound.  A request comes with its context from Gateway.v; its body is
    given by what [json.Decoder] makes of it for each type it is decoded into. *)

From Stdlib Require Import Ascii.
From S2P Require Import Prelude GoStrings Csv Float64 Strconv GoTime Grading Gateway Service Shop.
From S2P Require Import Store Scoring Attempts Authoring Results Answers Bank Companies Drafts Reports.

#[local] Open Scope Z_scope.
#[local] Open Scope repo_scope.

(** ** Requests and answers *)

(** [None]: not a JSON value of the type. *)
Record Body := {
  bd_company : option CreateCompanyRequest;
  bd_member : option AddCompanyMemberRequest;
  bd_question : option McqQuestion;
  bd_import : option BulkImportMcqRequest;
  bd_assessment : option AssessmentInput;
  bd_publish : option bool;             (* the field, when it is there *)
  bd_section : option SectionInput;
  bd_questions : option (list SectionQuestion);
  bd_invite : option InviteCandidatesRequest;
  bd_marks : option float64;
  bd_shortlist : option ComputeShortlistRequest;
  bd_decision : option (string * string);
}.

Record RecruiterRequest := {
  rr_Request : HttpRequest;
  rr_Method : string;
  rr_Query : gmap string (list string);
  rr_MinScore : float64;                (* [strconv.ParseFloat] of minScore *)
  rr_Body : Body;
}.

Inductive Payload :=
  | PError (msg : string)
  | PFailure (err : Err)                (* the text of a service's error *)
  | PEmpty
  | PCompanies (l : list Company)
  | PCompany (c : Company)
  | PMembers (l : list CompanyMember)
  | PBank (r : ListMcqQuestionsResponse)
  | PId (id : string)
  | PImport (r : BulkImportMcqResponse)
  | PAssessments (l : list ListedAssessment) (n : Z)
  | PAssessment (a : Assessment)
  | PPublished (r : PublishAssessmentResponse)
  | PInvited (r : InviteCandidatesResponse)
  | PInvites (l : list Invite)
  | PTable (r : ListAttemptsResponse)
  | PReport (r : AttemptReport)
  | PMarks (score max : float64)
  | PCsv (file csv : string)
  | PShortlist (s : Shortlist)
  | PShortlists (l : list Shortlist).

Record Answer := { aw_Code : Z; aw_Payload : Payload }.

Definition refuse (code : Z) (msg : string) : Answer := {| aw_Code := code; aw_Payload := PError msg |}.

(** [grpcFail]: the service's error under the code its handler gave it. *)
Definition http_code (c : StatusCode) : Z :=
  match c with
  | NotFound => 404
  | PermissionDenied => 403
  | FailedPrecondition | ResourceExhausted => 409
  | OK | InternalError => 500
  end.

Definition grpcFail (err : Err) : Answer := {| aw_Code := http_code (wrap (Some err)); aw_Payload := PFailure err |}.

(** A refused publication is the author's mistake. *)
Definition publish_fail (err : Err) : Answer :=
  if bool_decide (err = ErrNotFound) then grpcFail err else {| aw_Code := 400; aw_Payload := PFailure err |}.

(** [respond] *)
Definition respond_with {A} (failed : Err → Answer) (shown : A → Payload) (m : M A) : M Answer :=
  r <- attempt_ m ;;
  ret (match r with inl x => {| aw_Code := 200; aw_Payload := shown x |} | inr err => failed err end).

Definition respond {A} : (A → Payload) → M A → M Answer := respond_with grpcFail.

(** [decode] *)
Definition decode {A} (body : option A) (k : A → M Answer) : M Answer :=
  match body with Some x => k x | None => ret (refuse 400 "invalid request body") end.

(** [strconv.Atoi]; [None] is a non-nil error. *)
Definition atoi_digits (neg : bool) (s : bytes) : option Z :=
  match s with
  | [] => None
  | _ =>
      if forallb Strconv.is_digit s then
        let v := fold_left (λ v d, v * 10 + digit_val d) s 0 in
        let v := if neg then - v else v in
        if (- 2 ^ 63 <=? v) && (v <? 2 ^ 63) then Some v else None
      else None
  end.

Definition atoi (s : string) : option Z :=
  match to_bytes s with
  | a :: r => if Ascii.eqb a Strconv.minus then atoi_digits true r
              else if Ascii.eqb a Strconv.plus then atoi_digits false r else atoi_digits false (a :: r)
  | [] => None
  end.

(** [intQuery] *)
Definition intQuery (v : string) (fallback : Z) : Z :=
  match atoi v with Some n => if n <=? 0 then fallback else int32 n | None => fallback end.

(** [first], and [url.Values.Get] *)
Definition first (v : list string) : string := match v with [] => "" | x :: _ => x end.

Definition query (r : RecruiterRequest) (k : string) : string := first (default [] (rr_Query r !! k)).

(** ** Guards *)

Definition authorize_test (role user test : string) : M AuthorizeResponse :=
  Authorize {| az_UserId := user; az_Role := role; az_CompanyId := ""; az_AssessmentId := test |}.

Definition authorize_company (role user company : string) : M AuthorizeResponse :=
  Authorize {| az_UserId := user; az_Role := role; az_CompanyId := company; az_AssessmentId := "" |}.

(** [guard] *)
Definition guard (role user test : string) (next : M Answer) : M Answer :=
  r <- attempt_ (authorize_test role user test) ;;
  match r with
  | inr err => ret (grpcFail err)
  | inl resp => if negb (au_Allowed resp) then ret (refuse 403 (au_Reason resp)) else next
  end.

(** Whether the caller may act for a company; an error is a refusal. *)
Definition company_guard (role user company : string) {A} (denied_ next : M A) : M A :=
  r <- attempt_ (authorize_company role user company) ;;
  match r with
  | inl resp => if au_Allowed resp then next else denied_
  | inr _ => denied_
  end.

Definition not_member : Answer := refuse 403 "not a member of this company".

(** [adminOnly] *)
Definition adminOnly (role : string) (next : M Answer) : M Answer :=
  if negb (String.eqb role "admin") then ret (refuse 403 "admin access required") else next.

Section Recruiter.
Context {PG : Postgres} {GF : GoFormat} {PC : PgCase} {PS : PgSearch} {PL : PgCollation} {PR : PgScore} {RN : Random}.

(** [guardAttempt] *)
Definition guardAttempt (role user attempt : string) (next : M Answer) : M Answer :=
  r <- attempt_ (GetAttemptReport attempt) ;;
  match r with
  | inr err => ret (grpcFail err)
  | inl report => guard role user (sm_AssessmentId (ar_Summary report)) next
  end.

(** [guardShortlist] *)
Definition guardShortlist (role user shortlist : string) (next : M Answer) : M Answer :=
  r <- attempt_ (GetShortlist shortlist) ;;
  match r with
  | inr err => ret (grpcFail err)
  | inl sl => guard role user (sh_AssessmentId sl) next
  end.

(** [recruiterCompany]: the company acted for, or the refusal. *)
Definition recruiterCompany (role user requested : string) : M (string + Answer) :=
  if String.eqb role "admin" then ret (inl requested)
  else if negb (String.eqb requested "") then
    company_guard role user requested (ret (inr not_member)) (ret (inl requested))
  else
    r <- attempt_ (ListCompanies user) ;;
    ret (match r with
         | inr err => inr (grpcFail err)
         | inl [] => inr (refuse 403 "your account is not linked to a company yet")
         | inl [c] => inl (cp_Id c)
         | inl _ => inr (refuse 400 "choose which company to work in")
         end).

Definition acting_for (role user requested : string) (k : string → M Answer) : M Answer :=
  r <- recruiterCompany role user requested ;;
  match r with inl company => k company | inr refusal => ret refusal end.

(** ** Handlers *)

Definition listCompanies (role user : string) : M Answer :=
  respond PCompanies (ListCompanies (if negb (String.eqb role "admin") then user else "")).

Definition createCompany (b : Body) : M Answer := decode (bd_company b) (λ req, respond PCompany (CreateCompany req)).

Definition listCompanyMembers (role user company : string) : M Answer :=
  company_guard role user company (ret not_member) (respond PMembers (ListCompanyMembers company)).

Definition addCompanyMember (b : Body) (company : string) : M Answer :=
  decode (bd_member b) (λ req,
    respond (λ _, PEmpty) (AddCompanyMember {| ac_CompanyId := company; ac_UserId := ac_UserId req; ac_Role := ac_Role req |})).

Definition listMcq (r : RecruiterRequest) (role user : string) : M Answer :=
  acting_for role user (query r "companyId") (λ company,
    respond PBank (ListMcqQuestions
      {| lq_CompanyId := company; lq_CourseId := query r "course"; lq_Topic := query r "topic"; lq_Difficulty := query r "difficulty";
         lq_Search := query r "search"; lq_IncludeRetired := String.eqb (query r "includeRetired") "true";
         lq_Page := intQuery (query r "page") 1; lq_PageSize := intQuery (query r "pageSize") 50 |})).

Definition in_company (company : string) (q : McqQuestion) : McqQuestion :=
  {| mc_Id := mc_Id q; mc_CompanyId := company; mc_CourseId := mc_CourseId q; mc_Topic := mc_Topic q; mc_Difficulty := mc_Difficulty q;
     mc_Body := mc_Body q; mc_Kind := mc_Kind q; mc_Explanation := mc_Explanation q; mc_IsActive := mc_IsActive q; mc_Options := mc_Options q |}.

Definition upsertMcq (b : Body) (role user : string) : M Answer :=
  decode (bd_question b) (λ q,
    if negb (String.eqb role "admin") then
      acting_for role user (mc_CompanyId q) (λ company,
        respond PId (UpsertMcqQuestion {| uq_ActorId := user; uq_Question := Some (in_company company q); uq_CompanyScope := company |}))
    else respond PId (UpsertMcqQuestion {| uq_ActorId := user; uq_Question := Some q; uq_CompanyScope := "" |})).

Definition importMcq (b : Body) (role user : string) : M Answer :=
  decode (bd_import b) (λ req,
    if negb (String.eqb role "admin") then
      acting_for role user (bi_CompanyId req) (λ company,
        respond PImport (BulkImportMcq {| bi_ActorId := user; bi_CompanyId := company;
                                          bi_Questions := map (fmap (in_company company)) (bi_Questions req) |}))
    else respond PImport (BulkImportMcq {| bi_ActorId := user; bi_CompanyId := bi_CompanyId req; bi_Questions := bi_Questions req |})).

Definition deleteMcq (r : RecruiterRequest) (role user id : string) : M Answer :=
  if negb (String.eqb role "admin") then
    acting_for role user (query r "companyId") (λ company, respond (λ _, PEmpty) (DeleteMcqQuestion id company))
  else respond (λ _, PEmpty) (DeleteMcqQuestion id "").

(** The tests of every company of the recruiter, one company after another. *)
Fixpoint list_memberships (r : RecruiterRequest) (companies : list Company) (out : list ListedAssessment) (count : Z) : M Answer :=
  match companies with
  | [] => ret {| aw_Code := 200; aw_Payload := PAssessments out count |}
  | c :: t =>
      resp <- attempt_ (ListAssessments {| la_CompanyId := cp_Id c; la_Purpose := query r "purpose"; la_Status := query r "status";
                                           la_Page := 0; la_PageSize := 200 |}) ;;
      match resp with
      | inr err => ret (grpcFail err)
      | inl (l, n) => list_memberships r t (out ++ l) (int32 (count + n))
      end
  end.

Definition listAssessmentsForMemberships (r : RecruiterRequest) (user : string) : M Answer :=
  companies <- attempt_ (ListCompanies user) ;;
  match companies with
  | inr err => ret (grpcFail err)
  | inl companies => list_memberships r companies [] 0
  end.

Definition listAssessments (r : RecruiterRequest) (role user : string) : M Answer :=
  let company := query r "companyId" in
  let listed :=
    respond (λ out : list ListedAssessment * Z, PAssessments out.1 out.2) (ListAssessments
      {| la_CompanyId := company; la_Purpose := query r "purpose"; la_Status := query r "status";
         la_Page := intQuery (query r "page") 1; la_PageSize := intQuery (query r "pageSize") 50 |}) in
  if negb (String.eqb role "admin") then
    if negb (String.eqb company "") then company_guard role user company (ret not_member) listed
    else listAssessmentsForMemberships r user
  else listed.

(** A recruiter's test is a hiring test for no particular courses. *)
Definition as_hiring (a : AssessmentInput) : AssessmentInput :=
  {| ai_Id := ai_Id a; ai_CompanyId := ai_CompanyId a; ai_Title := ai_Title a; ai_Description := ai_Description a; ai_Purpose := "hiring";
     ai_DurationMinutes := ai_DurationMinutes a; ai_PassingMarks := ai_PassingMarks a; ai_NegativeMarking := ai_NegativeMarking a;
     ai_ShuffleQuestions := ai_ShuffleQuestions a; ai_ShuffleOptions := ai_ShuffleOptions a; ai_AllowBacktrack := ai_AllowBacktrack a;
     ai_LockForward := ai_LockForward a; ai_RevealResults := ai_RevealResults a; ai_Proctoring := ai_Proctoring a;
     ai_OpensAt := ai_OpensAt a; ai_ClosesAt := ai_ClosesAt a; ai_MaxAttempts := ai_MaxAttempts a; ai_CourseIds := None |}.

Definition createAssessment (b : Body) (role user : string) : M Answer :=
  decode (bd_assessment b) (λ a,
    let create := respond PId (CreateAssessment user (Some (if negb (String.eqb role "admin") then as_hiring a else a))) in
    if negb (String.eqb (ai_CompanyId a) "") then company_guard role user (ai_CompanyId a) (ret not_member) create
    else if negb (String.eqb role "admin") then ret (refuse 403 "a recruiter must create tests under a company")
    else create).

Definition with_id (id : string) (a : AssessmentInput) : AssessmentInput :=
  {| ai_Id := id; ai_CompanyId := ai_CompanyId a; ai_Title := ai_Title a; ai_Description := ai_Description a; ai_Purpose := ai_Purpose a;
     ai_DurationMinutes := ai_DurationMinutes a; ai_PassingMarks := ai_PassingMarks a; ai_NegativeMarking := ai_NegativeMarking a;
     ai_ShuffleQuestions := ai_ShuffleQuestions a; ai_ShuffleOptions := ai_ShuffleOptions a; ai_AllowBacktrack := ai_AllowBacktrack a;
     ai_LockForward := ai_LockForward a; ai_RevealResults := ai_RevealResults a; ai_Proctoring := ai_Proctoring a;
     ai_OpensAt := ai_OpensAt a; ai_ClosesAt := ai_ClosesAt a; ai_MaxAttempts := ai_MaxAttempts a; ai_CourseIds := ai_CourseIds a |}.

Definition updateAssessment (b : Body) (id : string) : M Answer :=
  decode (bd_assessment b) (λ a, respond (λ _, PEmpty) (UpdateAssessment (Some (with_id id a)))).

Definition publishAssessment (b : Body) (id : string) : M Answer :=
  respond_with publish_fail PPublished (PublishAssessment {| pb_Id := id; pb_Publish := default true (bd_publish b) |}).

Definition of_test (test : string) (s : SectionInput) : SectionInput :=
  {| si_Id := si_Id s; si_AssessmentId := test; si_Title := si_Title s; si_Kind := si_Kind s; si_OrderIndex := si_OrderIndex s;
     si_DurationMinutes := si_DurationMinutes s; si_CutoffMarks := si_CutoffMarks s; si_PickCount := si_PickCount s;
     si_PickTopic := si_PickTopic s; si_PickCourse := si_PickCourse s; si_PickDifficulty := si_PickDifficulty s;
     si_PickMarks := si_PickMarks s; si_PartialCredit := si_PartialCredit s |}.

Definition upsertSection (b : Body) (test : string) : M Answer :=
  decode (bd_section b) (λ s, respond PId (UpsertSection (Some (of_test test s)))).

Definition deleteSection (section : string) : M Answer := respond (λ _, PEmpty) (DeleteSection section).

Definition setSectionQuestions (b : Body) (section : string) : M Answer :=
  decode (bd_questions b) (λ qs, respond (λ _, PEmpty) (SetSectionQuestions {| ss_SectionId := section; ss_Questions := qs |})).

Definition invite (b : Body) (test user : string) : M Answer :=
  decode (bd_invite b) (λ req, respond PInvited (InviteCandidates
    {| ic_AssessmentId := test; ic_ActorId := user; ic_Emails := ic_Emails req; ic_ExpiresAt := ic_ExpiresAt req |})).

Definition listAttempts (r : RecruiterRequest) (test : string) : M Answer :=
  respond PTable (ListAttempts
    {| lt_AssessmentId := test; lt_Status := query r "status"; lt_MinScore := rr_MinScore r; lt_Search := query r "search";
       lt_SortBy := query r "sortBy"; lt_SortDir := query r "sortDir"; lt_Page := intQuery (query r "page") 1;
       lt_PageSize := intQuery (query r "pageSize") 50 |}).

Definition gradeDescriptive (b : Body) (attempt question : string) : M Answer :=
  decode (bd_marks b) (λ marks, respond (λ s : float64 * float64, PMarks s.1 s.2) (GradeDescriptive attempt question marks)).

Definition exportResults (r : RecruiterRequest) (test : string) : M Answer :=
  respond (λ f : string * string, PCsv f.1 f.2) (ExportResults test (query r "shortlistId")).

Definition computeShortlist (b : Body) (test user : string) : M Answer :=
  decode (bd_shortlist b) (λ req, respond PShortlist (ComputeShortlist
    {| cs_AssessmentId := test; cs_ActorId := user; cs_Name := cs_Name req; cs_Criteria := cs_Criteria req; cs_Save := cs_Save req |})).

Definition setDecision (b : Body) (shortlist attempt : string) : M Answer :=
  decode (bd_decision b) (λ d, respond (λ _, PEmpty) (SetCandidateDecision shortlist attempt d.1 d.2)).

(** ** Routing *)

(** [strings.Split(s, "/")] *)
Definition slash_byte : ascii := "/"%char.

Fixpoint split_slash (s : bytes) : list bytes :=
  match s with
  | [] => [[]]
  | a :: r =>
      let rest := split_slash r in
      if Ascii.eqb a slash_byte then [] :: rest
      else match rest with l :: ls => (a :: l) :: ls | [] => [[a]] end
  end.

(** The path below /api/recruiter, and its segments. *)
Definition route_path (r : RecruiterRequest) : string :=
  of_bytes (trim_right (Ascii.eqb slash_byte) (to_bytes (trim_prefix "/api/recruiter" (rq_Path (rr_Request r))))).

Definition segments (path : string) : list string := map of_bytes (split_slash (to_bytes (trim_prefix "/" path))).

(** A method and named segments; [None] stands for an id. *)
Fixpoint fits (pattern : list (option string)) (seg : list string) : bool :=
  match pattern, seg with
  | [], [] => true
  | Some name :: p, s :: t => String.eqb s name && fits p t
  | None :: p, _ :: t => fits p t
  | _, _ => false
  end.

Definition seg_at (i : nat) (seg : list string) : string := nth i seg "".

Definition dispatch (r : RecruiterRequest) (role user : string) : M Answer :=
  let path := route_path r in
  let seg := segments path in
  let b := rr_Body r in
  let is_get := String.eqb (rr_Method r) "GET" in
  let is_post := String.eqb (rr_Method r) "POST" in
  let is_put := String.eqb (rr_Method r) "PUT" in
  let is_patch := String.eqb (rr_Method r) "PATCH" in
  let is_delete := String.eqb (rr_Method r) "DELETE" in
  let test := seg_at 1 seg in
  let on_test next := guard role user test next in
  if String.eqb path "/companies" && is_get then listCompanies role user
  else if String.eqb path "/companies" && is_post then adminOnly role (createCompany b)
  else if fits [Some "companies"; None; Some "members"] seg && is_get then listCompanyMembers role user (seg_at 1 seg)
  else if fits [Some "companies"; None; Some "members"] seg && is_post then adminOnly role (addCompanyMember b (seg_at 1 seg))
  else if String.eqb path "/mcq-bank" && is_get then listMcq r role user
  else if String.eqb path "/mcq-bank" && is_post then upsertMcq b role user
  else if String.eqb path "/mcq-bank/import" && is_post then importMcq b role user
  else if fits [Some "mcq-bank"; None] seg && is_delete then deleteMcq r role user (seg_at 1 seg)
  else if String.eqb path "/assessments" && is_get then listAssessments r role user
  else if String.eqb path "/assessments" && is_post then createAssessment b role user
  else if fits [Some "assessments"; None] seg && is_get then on_test (respond PAssessment (GetAssessment test))
  else if fits [Some "assessments"; None] seg && is_patch then on_test (updateAssessment b test)
  else if fits [Some "assessments"; None] seg && is_delete then on_test (respond (λ _, PEmpty) (DeleteAssessment test))
  else if fits [Some "assessments"; None; Some "publish"] seg && is_post then on_test (publishAssessment b test)
  else if fits [Some "assessments"; None; Some "sections"] seg && is_post then on_test (upsertSection b test)
  else if fits [Some "assessments"; None; Some "sections"; None] seg && is_delete then on_test (deleteSection (seg_at 3 seg))
  else if fits [Some "assessments"; None; Some "sections"; None; Some "questions"] seg && is_put
  then on_test (setSectionQuestions b (seg_at 3 seg))
  else if fits [Some "assessments"; None; Some "invite"] seg && is_post then on_test (invite b test user)
  else if fits [Some "assessments"; None; Some "invites"] seg && is_get then on_test (respond PInvites (ListInvites test))
  else if fits [Some "assessments"; None; Some "attempts"] seg && is_get then on_test (listAttempts r test)
  else if fits [Some "assessments"; None; Some "export.csv"] seg && is_get then on_test (exportResults r test)
  else if fits [Some "attempts"; None; Some "report"] seg && is_get
  then guardAttempt role user (seg_at 1 seg) (respond PReport (GetAttemptReport (seg_at 1 seg)))
  else if fits [Some "attempts"; None; Some "questions"; None] seg && is_patch
  then guardAttempt role user (seg_at 1 seg) (gradeDescriptive b (seg_at 1 seg) (seg_at 3 seg))
  else if fits [Some "assessments"; None; Some "shortlist"] seg && is_post then on_test (computeShortlist b test user)
  else if fits [Some "assessments"; None; Some "shortlists"] seg && is_get then on_test (respond PShortlists (ListShortlists test))
  else if fits [Some "shortlists"; None] seg && is_get
  then guardShortlist role user (seg_at 1 seg) (respond PShortlist (GetShortlist (seg_at 1 seg)))
  else if fits [Some "shortlists"; None; Some "entries"; None] seg && is_patch
  then guardShortlist role user (seg_at 1 seg) (setDecision b (seg_at 1 seg) (seg_at 3 seg))
  else ret (refuse 404 "unknown recruiter endpoint").

(** [ServeHTTP] *)
Definition ServeHTTP (r : RecruiterRequest) : M Answer :=
  let role := RoleFromContext (rr_Request r) in
  let user := UserIDFromContext (rr_Request r) in
  if String.eqb (rr_Method r) "OPTIONS" then ret {| aw_Code := 204; aw_Payload := PEmpty |}
  else if String.eqb user "" then ret (refuse 401 "authentication required")
  else if negb (String.eqb role "recruiter") && negb (String.eqb role "admin") then ret (refuse 403 "recruiter access required")
  else dispatch r role user.
End Recruiter.
