(* ===== verification/Confined.v ===== *)
(** What a recruiter's request can change.

    [touches] and [bank_within] bound the operations, [guard_runs] and
    [acting_runs] say when the desk runs them, and [recruiter_confined] puts
    them together over every route.  The section routes name a section that
    nobody compares with the guarded test ([section_unguarded]). *)

From Stdlib Require Import Ascii.
From S2P Require Import Prelude GoStrings Csv Float64 Strconv GoTime Grading Gateway Service Shop.
From S2P Require Import Store Scoring Attempts Authoring Results Answers Bank Companies Drafts Reports Recruiter.

#[local] Open Scope Z_scope.
#[local] Open Scope repo_scope.

(** ** Reads *)

(** [reads_steps] goes through a method whose statements all leave the
    database; what remains are the statements that choose their own. *)
Ltac reads_steps :=
  respects_steps;
  try (apply respects_statement; [apply _|]; let H := fresh in intros ? ? ? ? H; repeat case_match; simplify_option_eq; done).

Lemma alone_quiet (G : DB → DB → Prop) `{!Reflexive G} e : alone e → quiet_env G e.
Proof. intros He n db. by rewrite He. Qed.

Lemma alone_reads {A} (m : M A) e n db r n' db' : respects eq m → alone e → m e n db = (r, n', db') → db' = db.
Proof. intros Hm He H. symmetry. eapply Hm; [by apply alone_quiet, He|exact H]. Qed.

Section Reads.
Context {PG : Postgres} {PS : PgSearch} {PL : PgCollation} {PR : PgScore}.

Lemma reads_companies u : respects eq (ListCompanies u).
Proof. unfold ListCompanies. reads_steps. Qed.
Lemma reads_members c : respects eq (ListCompanyMembers c).
Proof. unfold ListCompanyMembers. reads_steps. Qed.
Lemma reads_bank req : respects eq (ListMcqQuestions req).
Proof. unfold ListMcqQuestions. reads_steps. Qed.
Lemma reads_tests req : respects eq (ListAssessments req).
Proof. unfold ListAssessments. reads_steps. Qed.
Lemma reads_test id : respects eq (GetAssessment id).
Proof. unfold GetAssessment, loadSections. reads_steps. Qed.
Lemma reads_invites id : respects eq (ListInvites id).
Proof. unfold ListInvites. reads_steps. Qed.
Lemma reads_table req : respects eq (ListAttempts req).
Proof. unfold ListAttempts. reads_steps. Qed.
Lemma reads_report id : respects eq (GetAttemptReport id).
Proof. unfold GetAttemptReport, loadSummary, attemptQuestions, proctorEvents. reads_steps. Qed.
Lemma reads_shortlist id : respects eq (GetShortlist id).
Proof. unfold GetShortlist. reads_steps. Qed.
Lemma reads_shortlists id : respects eq (ListShortlists id).
Proof. unfold ListShortlists. reads_steps. Qed.
Lemma reads_export t s : respects eq (ExportResults t s).
Proof. unfold ExportResults. reads_steps. Qed.
End Reads.

(** ** Writes within a test *)

(** Rows of other tests are as they were; nothing is said of sections. *)
Record touches (test : string) (db db' : DB) : Prop := {
  tc_tests k : k ≠ test → assessments db' !! k = assessments db !! k;
  tc_invites k i : in_assessment_id i ≠ test → assessment_invites db' !! k = Some i ↔ assessment_invites db !! k = Some i;
  tc_attempts k a : at_assessment_id a ≠ test → attempts db' !! k = Some a ↔ attempts db !! k = Some a;
  tc_questions k q : (∃ a, attempts db !! aq_attempt_id q = Some a ∧ at_assessment_id a ≠ test) →
    attempt_questions db' !! k = Some q ↔ attempt_questions db !! k = Some q;
  tc_shortlists k s : sl_assessment_id s ≠ test → shortlists db' !! k = Some s ↔ shortlists db !! k = Some s;
  tc_entries k : (∃ s, shortlists db !! k.1 = Some s ∧ sl_assessment_id s ≠ test) → shortlist_entries db' !! k = shortlist_entries db !! k;
  tc_bank : mcq_questions db' = mcq_questions db ∧ mcq_options db' = mcq_options db;
  tc_people : companies db' = companies db ∧ company_members db' = company_members db ∧ users db' = users db ∧ user_courses db' = user_courses db;
  tc_work : attempt_submissions db' = attempt_submissions db ∧ proctor_events db' = proctor_events db ∧ problem_titles db' = problem_titles db;
}.

#[export] Instance touches_preorder test : PreOrder (touches test).
Proof.
  split; [by intros db|]. intros a b c [T1 I1 A1 Q1 S1 E1 B1 P1 W1] [T2 I2 A2 Q2 S2 E2 B2 P2 W2]. split.
  - intros k Hk. by rewrite T2, T1.
  - intros k i Hi. by rewrite I2, I1.
  - intros k x Hx. by rewrite A2, A1.
  - intros k q (x & Hx & Hne). rewrite Q2, Q1; [done|by exists x|]. exists x. split; [|done]. by apply A1.
  - intros k s Hs. by rewrite S2, S1.
  - intros k (s & Hs & Hne). rewrite E2, E1; [done|by exists s|]. exists s. split; [|done]. by apply S1.
  - destruct B1, B2. split; congruence.
  - destruct P1 as (? & ? & ? & ?), P2 as (? & ? & ? & ?). split_and!; congruence.
  - destruct W1 as (? & ? & ?), W2 as (? & ? & ?). split_and!; congruence.
Qed.

Lemma filter_all {A} (P : A → Prop) `{!∀ x, Decision (P x)} (l : list A) : (∀ x, P x) → filter P l = l.
Proof. intros HP. induction l as [|x l IH]; [done|]. by rewrite filter_cons_True, IH. Qed.

(** The tables of a step, one by one. *)
Ltac touch_tables := split; cbn; intros; try done.

Lemma touches_row test f db : touches test db (with_assessments (update_row test f) db).
Proof. touch_tables. unfold update_row. by rewrite lookup_alter_ne. Qed.

Section Touches.
Context {PG : Postgres} {GF : GoFormat} {PC : PgCase} {RN : Random}.

Lemma update_touches a : respects (touches (ai_Id a)) (UpdateAssessment (Some a)).
Proof.
  unfold UpdateAssessment. respects_steps; (apply respects_statement; [apply _|]; intros st db y db').
  - unfold update_draft. destruct (positive_param _); [|done]. destruct (assessments db !! _); [|by intros [= _ <-]].
    destruct (_ <? _); [|done]. intros [= _ <-]. touch_tables. by rewrite lookup_insert_ne.
  - intros [= _ <-]. apply touches_row.
Qed.

Lemma publish_touches req : respects (touches (pb_Id req)) (PublishAssessment req).
Proof.
  unfold PublishAssessment, GetAssessment, loadSections.
  respects_steps; (apply respects_statement; [apply _|]; intros st db y db'); intros [= _ <-]; apply touches_row.
Qed.

Lemma delete_touches id e n db r n' db' : alone e → DeleteAssessment id e n db = (r, n', db') → touches id db db'.
Proof.
  intros He H. unfold DeleteAssessment, bind at 1 in H.
  destruct (select_alone Pool "count attempts" (λ db, Z.of_nat (length (rows_where (λ _ a, String.eqb (at_assessment_id a) id) (attempts db)))) e n db He)
    as (c & Hc & Hr). rewrite Hc in H. clear Hc. destruct Hr as [->| ->]; [|by injection H as _ _ <-].
  destruct (Z.ltb_spec 0 (Z.of_nat (length (rows_where (λ _ a, String.eqb (at_assessment_id a) id) (attempts db))))) as [|Hnone].
  - eapply respects_statement in H; [exact H|apply _| |by apply alone_quiet]. intros st d y d' [= _ <-]. apply touches_row.
  - assert (Hno : ∀ k a, attempts db !! k = Some a → at_assessment_id a ≠ id).
    { intros k a Hk Ha. assert (Hin : (k, a) ∈ rows_where (λ _ a, String.eqb (at_assessment_id a) id) (attempts db)).
      { apply elem_rows_where. split; [done|]. by apply String.eqb_eq. }
      destruct (rows_where _ _); [by apply elem_of_nil in Hin|cbn in Hnone; lia]. }
    assert (Hdel : touches id db (delete_assessment id db)).
    { assert (Hgone : filter (λ kv : string * AttemptRow, at_assessment_id kv.2 = id) (attempts db) = ∅).
      { apply map_empty. intros k. apply map_lookup_filter_None. right. intros a Ha. cbn. by apply (Hno k). }
      unfold delete_assessment. rewrite Hgone. touch_tables.
      - by rewrite lookup_delete_ne.
      - rewrite map_lookup_filter_Some. cbn. tauto.
      - rewrite map_lookup_filter_Some. cbn. tauto.
      - rewrite map_lookup_filter_Some. cbn. rewrite lookup_empty. tauto.
      - rewrite map_lookup_filter_Some. cbn. tauto.
      - destruct H0 as (s & Hs & Hne). apply option_eq. intros x. rewrite map_lookup_filter_Some. cbn. rewrite lookup_empty, Hs. cbn. naive_solver.
      - assert (Hq : filter (λ kv : string * QuestionRow, is_Some ((∅ : gmap string AttemptRow) !! aq_attempt_id kv.2)) (attempt_questions db) = ∅).
        { apply map_empty. intros k. apply map_lookup_filter_None. right. intros q _. cbn. rewrite lookup_empty. by intros []. }
        rewrite Hq. split_and!; [|by apply filter_all; intros x; rewrite lookup_empty|done].
        apply map_filter_id. intros k s _. cbn. by rewrite lookup_empty. }
    unfold bind, statement in H. rewrite He in H.
    destruct (fault e (S n)); [destruct (bool_decide _)|..]; by injection H as _ _ <-.
Qed.

(** Sections and their lists are the only tables these write. *)
Definition sections_only (db db' : DB) : Prop := ∀ test, touches test db db'.

#[local] Instance sections_only_preorder : PreOrder sections_only.
Proof. split; [by intros db test|]. intros a b c H1 H2 test. transitivity b; [apply H1|apply H2]. Qed.

Ltac in_sections := intros [= _ <-]; intros test; touch_tables.

Lemma section_touches s : respects sections_only (UpsertSection s).
Proof. unfold UpsertSection. respects_steps; (apply respects_statement; [apply _|]; intros st db y db'); [case_match; [|done]|]; in_sections. Qed.

Lemma drop_section_touches id : respects sections_only (DeleteSection id).
Proof. unfold DeleteSection. respects_steps. apply respects_statement; [apply _|]. intros st db y db'. in_sections. Qed.

Lemma insert_list_touches sid qs : ∀ i, respects sections_only (insert_list sid i qs).
Proof.
  induction qs as [|q t IH]; intros i; cbn [insert_list]; [apply respects_ret, _|].
  apply respects_bind; [apply _| |intros; apply IH]. apply respects_statement; [apply _|]. intros st db y db'.
  unfold insert_listed. case_match; [|done]. in_sections.
Qed.

Lemma set_list_touches req : respects sections_only (SetSectionQuestions req).
Proof.
  unfold SetSectionQuestions. respects_steps; [|apply insert_list_touches].
  apply respects_statement; [apply _|]. intros st db y db'. in_sections.
Qed.

Lemma invite_touches req : respects (touches (ic_AssessmentId req)) (InviteCandidates req).
Proof.
  unfold InviteCandidates. generalize {| ir_Invites := []; ir_Skipped := 0 |}. generalize (@nil string).
  induction (ic_Emails req) as [|raw t IH]; intros seen out; cbn [invite_loop]; [apply respects_ret, _|].
  destruct (invitee seen raw) as [email|]; [|apply IH].
  apply respects_bind; [apply _| |intros token; apply respects_bind; [apply _| |intros; apply IH]].
  - intros e n db r n' db' _ H. unfold inviteToken in H. destruct (randomToken n 24); by injection H as _ _ <-.
  - apply respects_statement; [apply _|]. intros st db y db' H. unfold insert_invite in H.
    destruct (invites_of _ email db) as [|[k i] rest] eqn:E.
    + destruct (_ && _ && _) eqn:Eg; [|done]. bool_to_prop. injection H as _ <-. touch_tables.
      split; [|by intros Hj; rewrite lookup_insert_ne by congruence].
      intros [[_ <-]|[_ ?]]%lookup_insert_Some; [|done]. by cbn in *.
    + injection H as _ <-. assert (Hin : (k, i) ∈ invites_of (ic_AssessmentId req) email db) by (rewrite E; apply list_elem_of_here).
      apply elem_rows_where in Hin as [Hi [Ht%String.eqb_eq _]%andb_true_iff]. touch_tables. split.
      * intros [[_ <-]|[_ ?]]%lookup_insert_Some; [|done]. by cbn in *.
      * intros Hj. rewrite lookup_insert_ne; [done|]. intros <-. congruence.
Qed.

Lemma shortlist_touches req : respects (touches (cs_AssessmentId req)) (ComputeShortlist req).
Proof.
  unfold ComputeShortlist. apply respects_bind; [apply _|apply respects_select, _|intros pool]. cbv zeta.
  destruct (negb (cs_Save req)); [apply respects_ret, _|]. unfold saveShortlist. destruct (negb _); [apply respects_fail, _|].
  apply respects_bind; [apply _| |intros; apply respects_ret, _]. apply respects_transaction_whole; [apply _|].
  intros e n db p n' db' H. run_bind H p' n1 db1 Hm. run_stmt Hm. unfold insert_shortlist in Hm.
  destruct (_ && _) eqn:E in Hm; [|done]. bool_to_prop. injection Hm as <- <-. run_bind H u n2 db2 Hen. injection H as _ _ <-.
  apply insert_entries_inv in Hen as (Hdb & _ & Hoth & _). cbn [fst shortlist_entries with_shortlists] in *.
  change (st_id (stamp_at e n) 0) with (fresh e (n + 0)) in *. rewrite Hdb. clear Hdb. touch_tables.
  - split; [|by intros Hs; rewrite lookup_insert_ne by congruence].
    intros [[_ <-]|[_ ?]]%lookup_insert_Some; [|done]. by cbn in *.
  - match goal with Hex : ∃ s, _ |- _ => destruct Hex as (s & Hs & Hne) end. apply Hoth. left. intros Ek. rewrite Ek in Hs. congruence.
Qed.

Lemma decision_touches shortlist attempt decision notes test e n db r n' db' s :
  alone e → shortlists db !! shortlist = Some s → sl_assessment_id s = test →
  SetCandidateDecision shortlist attempt decision notes e n db = (r, n', db') → touches test db db'.
Proof.
  intros He Hs Ht H. unfold SetCandidateDecision in H. destruct (negb _); [by injection H as _ _ <-|].
  assert (Hset : touches test db (with_entries (alter (set_decision decision notes) (shortlist, attempt)) db)).
  { touch_tables. match goal with Hex : ∃ s, _ |- _ => destruct Hex as (s' & Hs' & Hne) end.
    apply lookup_alter_ne. intros <-. cbn in Hs'. congruence. }
  unfold bind, statement in H. rewrite He in H. destruct (fault e n); [destruct (negb _)|..]; by injection H as _ _ <-.
Qed.

(** Marking one question of an attempt. *)
Record marks_one (attempt question : string) (db db' : DB) : Prop := {
  mo_attempts k : k ≠ attempt → attempts db' !! k = attempts db !! k;
  mo_attempt : at_assessment_id <$> attempts db' !! attempt = at_assessment_id <$> attempts db !! attempt;
  mo_questions k : k ≠ question → attempt_questions db' !! k = attempt_questions db !! k;
  mo_question : aq_attempt_id <$> attempt_questions db' !! question = aq_attempt_id <$> attempt_questions db !! question;
  mo_rest : db' = with_attempts (λ _, attempts db') (with_questions (λ _, attempt_questions db') db);
}.

#[local] Instance marks_one_preorder attempt question : PreOrder (marks_one attempt question).
Proof.
  split; [by intros []|]. intros a b c [A1 T1 Q1 U1 R1] [A2 T2 Q2 U2 R2]. split.
  - intros k Hk. by rewrite A2, A1.
  - congruence.
  - intros k Hk. by rewrite Q2, Q1.
  - congruence.
  - rewrite R2, R1. by destruct a.
Qed.

Lemma marks_one_touches attempt question db db' a q :
  attempts db !! attempt = Some a → attempt_questions db !! question = Some q → aq_attempt_id q = attempt →
  marks_one attempt question db db' → touches (at_assessment_id a) db db'.
Proof.
  intros Ha Hq Hqa [A T Q U R]. rewrite Ha in T. rewrite Hq in U. split; try (rewrite R; done).
  - intros k x Hx. destruct (decide (k = attempt)) as [->|Hne]; [|by rewrite A]. rewrite Ha.
    destruct (attempts db' !! attempt) as [a'|]; [|done]. cbn in T. injection T as T. split; intros [= <-]; congruence.
  - intros k x (b & Hb & Hbt). destruct (decide (k = question)) as [->|Hne]; [|by rewrite Q]. rewrite Hq.
    destruct (attempt_questions db' !! question) as [q'|]; [|done]. cbn in U. injection U as U.
    split; intros [= <-]; congruence.
Qed.

Lemma grade_touches attempt question marks test e n db r n' db' a :
  alone e → attempts db !! attempt = Some a → at_assessment_id a = test →
  GradeDescriptive attempt question marks e n db = (r, n', db') → touches test db db'.
Proof.
  intros He Ha <- H. unfold GradeDescriptive, bind at 1 in H.
  match type of H with (match select ?q ?l ?f _ _ _ with _ => _ end) = _ => destruct (select_alone q l f e n db He) as (c & Hc & Hr); rewrite Hc in H; clear Hc end.
  destruct Hr as [->| ->]; [|by injection H as _ _ <-].
  destruct (attempt_questions db !! question) as [q|] eqn:Eq; [|by injection H as _ _ <-].
  destruct (in_attempt attempt question q) eqn:Ei; [|by injection H as _ _ <-]. destruct (is_kind Descriptive q); [|by injection H as _ _ <-].
  apply String.eqb_eq in Ei. eapply marks_one_touches; [exact Ha|exact Eq|exact Ei|].
  revert H. cbn [andb]. destruct (_ || _); [by intros [= _ _ <-]|]. intros H.
  match type of H with ?m e _ _ = _ => assert (Hm : respects (marks_one attempt question) m) end.
  { unfold recompute, loadSummary. respects_steps; (apply respects_statement; [apply _|]; intros st d y d').
    - unfold save_mark. destruct (num_param _ _); [|done]. intros [= _ <-]. split; cbn; try done.
      + intros k Hk. unfold update_row. by rewrite lookup_alter_ne.
      + unfold update_row. rewrite lookup_alter_eq. by destruct (attempt_questions d !! question).
    - unfold save_score. destruct (greatest_param _); [|done]. case_match; [|done]. intros [= _ <-]. split; cbn; try done.
      + intros k Hk. unfold update_row. by rewrite lookup_alter_ne.
      + unfold update_row. rewrite lookup_alter_eq. by destruct (attempts d !! attempt). }
  eapply Hm; [apply alone_quiet; [apply _|exact He]|exact H].
Qed.
End Touches.

(** ** Writes within a company's bank *)

(** Questions of other companies, and the platform's, are as they were, with
    their options. *)
Record bank_within (company : string) (db db' : DB) : Prop := {
  bw_questions k m : mq_company_id m ≠ Some company → mcq_questions db' !! k = Some m ↔ mcq_questions db !! k = Some m;
  bw_options k o : (∃ m, mcq_questions db !! mo_question_id o = Some m ∧ mq_company_id m ≠ Some company) →
    mcq_options db' !! k = Some o ↔ mcq_options db !! k = Some o;
  bw_rest : db' = with_mcq_options (λ _, mcq_options db') (with_mcq_questions (λ _, mcq_questions db') db);
}.

#[export] Instance bank_within_preorder company : PreOrder (bank_within company).
Proof.
  split; [by intros []|]. intros a b c [Q1 O1 R1] [Q2 O2 R2]. split.
  - intros k m Hm. by rewrite Q2, Q1.
  - intros k o (m & Hm & Hc). rewrite O2, O1; [done|by exists m|]. exists m. split; [|done]. by apply Q1.
  - rewrite R2, R1. by destruct a.
Qed.

Lemma upsert_within company req q :
  company ≠ "" → uq_Question req = Some q → mc_CompanyId q = company → mc_Id q = "" ∨ uq_CompanyScope req = company →
  respects (bank_within company) (UpsertMcqQuestion req).
Proof.
  intros Hne Hq Hc Hs. unfold UpsertMcqQuestion. rewrite Hq. destruct (String.eqb _ ""); [apply respects_fail, _|].
  destruct (validateOptions q); [apply respects_fail, _|]. apply respects_transaction_whole; [apply _|].
  intros e n db id n' db' H. run_bind H id' n1 db1 Hm. run_bind H u n2 db2 Hins. injection H as -> _ ->.
  apply store_question_inv in Hm as [(m & Hrow & _ & _ & _ & Hnew & Hedit) Hopt Hrest].
  apply insert_options_inv in Hins as (Hdb & Hkeep & Honly & _).
  assert (Eq : mcq_questions db' = <[id := m]> (mcq_questions db)) by (by rewrite Hdb). 
  assert (Hrow2 : mq_company_id m = Some company ∧ ∀ old, mcq_questions db !! id = Some old → mq_company_id old = Some company).
  { destruct (decide (mc_Id q = "")) as [E|E].
    - destruct (Hnew E) as [Hn [t ->]]. cbn. rewrite Hc. unfold nullable. rewrite (proj2 (String.eqb_neq _ _) Hne). split; [done|]. congruence.
    - destruct (Hedit E) as (_ & old & Hold & Hsc & ->). destruct Hs as [Hs|Hs]; [done|]. rewrite Hs in Hsc.
      apply in_scope_company in Hsc; [|done]. split; [done|]. congruence. }
  destruct Hrow2 as [Hcm Hold]. split.
  - intros k x Hx. rewrite Eq. destruct (decide (k = id)) as [->|Hk]; [|by rewrite lookup_insert_ne].
    rewrite lookup_insert_eq. split; [intros [= <-]; done|]. intros H. by apply Hold in H.
  - intros k o (x & Hx & Hxc). assert (Hid : mo_question_id o ≠ id) by (intros E; rewrite E in Hx; by apply Hold in Hx). split.
    + intros H. destruct (Honly _ _ H) as [H1|H1]; [|done]. by apply Hopt in H1 as [? _].
    + intros H. apply Hkeep, Hopt. by split.
  - rewrite Hdb, Hrest. by destruct db.
Qed.

Lemma retire_within company id : company ≠ "" → respects (bank_within company) (DeleteMcqQuestion id company).
Proof.
  intros Hne. unfold DeleteMcqQuestion. respects_steps. apply respects_statement; [apply _|]. intros st db y db' [= E].
  unfold retire_question in E. destruct (mcq_questions db !! id) as [m|] eqn:Em; [|by injection E as _ <-].
  destruct (in_scope company m) eqn:Es; [|by injection E as _ <-]. injection E as _ <-. apply in_scope_company in Es; [|done]. split; cbn; try done.
  intros k x Hx. destruct (decide (k = id)) as [->|Hk]; [|by rewrite lookup_insert_ne]. rewrite lookup_insert_eq, Em.
  split; intros [= <-]; done.
Qed.

Lemma import_within company req :
  company ≠ "" → bi_CompanyId req = company → (∀ q, Some q ∈ bi_Questions req → mc_CompanyId q = company) →
  respects (bank_within company) (BulkImportMcq req).
Proof.
  intros Hne Hc. unfold BulkImportMcq. intros Hqs. apply respects_bind; [apply _| |intros; apply respects_ret, _].
  generalize {| br_Imported := 0; br_Failed := 0; br_Errors := [] |}. generalize 1. revert Hqs.
  induction (bi_Questions req) as [|[q|] qs IH]; intros Hqs row out; cbn [import_rows]; [apply respects_ret, _| |].
  - apply respects_bind; [apply _|apply respects_attempt|intros; apply IH; intros; apply Hqs; by apply list_elem_of_further].
    eapply upsert_within; [done|reflexivity| |by left]. cbn. rewrite Hc, (Hqs q) by apply list_elem_of_here. by destruct (String.eqb company "").
  - apply IH. intros. apply Hqs. by apply list_elem_of_further.
Qed.

(** ** Guards *)

(** A test of a company the user is a member of. *)
Definition administers (user : string) (db : DB) (test : string) : Prop :=
  ∃ a c, assessments db !! test = Some a ∧ as_company_id a = Some c ∧ c ≠ "" ∧ is_member c user db = true.

Section Guards.
Context {PG : Postgres} {GF : GoFormat} {PC : PgCase} {PS : PgSearch} {PL : PgCollation} {PR : PgScore} {RN : Random}.
Context (e : Env) (He : alone e) (role user : string) (Hrole : role ≠ "admin").

(** The guarded part runs on the same database, for those who may. *)
Lemma guard_runs test next n db r n' db' :
  guard role user test next e n db = (r, n', db') → db' = db ∨ administers user db test ∧ ∃ n1, next e n1 db = (r, n', db').
Proof.
  unfold guard, authorize_test. set (req := {| az_UserId := user |}). intros H.
  destruct (authorize_spec req e n db He) as (x & n1 & Hx & Hd). unfold bind at 1, attempt_ at 1 in H. rewrite Hx in H.
  destruct x as [resp|err]; [|injection H as _ _ <-; by left].
  destruct (au_Allowed resp); cbn [negb] in H; [|injection H as _ _ <-; by left]. right. split; [|by exists n1].
  destruct (proj1 Hd eq_refl) as [Ha|(_ & c & Hc & Hne & Hm)]; [done|]. unfold deciding_company in Hc. cbn in Hc, Hm.
  destruct (String.eqb_spec test "") as [->|Ht]; [by injection Hc as <-|].
  destruct (assessments db !! test) as [a|] eqn:Ea; [|done]. injection Hc as Hc. exists a, c. split_and!; try done.
  unfold derefStr in Hc. cbn in Hc. destruct (as_company_id a); cbn in Hc; congruence.
Qed.

Lemma company_guard_runs company {A} (no next : M A) n db r n' db' :
  company_guard role user company no next e n db = (r, n', db') →
  (∃ n1, no e n1 db = (r, n', db')) ∨ company ≠ "" ∧ is_member company user db = true ∧ ∃ n1, next e n1 db = (r, n', db').
Proof.
  unfold company_guard, authorize_company. set (req := {| az_UserId := user |}). intros H.
  destruct (authorize_spec req e n db He) as (x & n1 & Hx & Hd). unfold bind at 1, attempt_ at 1 in H. rewrite Hx in H.
  destruct x as [resp|err]; [|left; by exists n1]. destruct (au_Allowed resp); [|left; by exists n1]. right.
  destruct (proj1 Hd eq_refl) as [Ha|(_ & c & Hc & Hne & Hm)]; [done|]. unfold deciding_company in Hc. cbn in Hc, Hm. injection Hc as <-.
  split_and!; try done. by exists n1.
Qed.

Lemma listed_companies n db l n' db' c :
  user ≠ "" → ListCompanies user e n db = (inl l, n', db') → c ∈ l → is_member (cp_Id c) user db = true ∧ is_Some (companies db !! cp_Id c).
Proof.
  intros Hu H Hc. unfold ListCompanies in H. run_stmt H. rewrite He in H. injection H as <- _.
  apply list_elem_of_fmap in Hc as ([id row] & -> & Hin). rewrite (order_by_perm _ _) in Hin. apply list_elem_of_omap in Hin as (k & Hk & Hrow).
  destruct (companies db !! k) as [co|] eqn:Eco; [|done]. cbn in Hrow. injection Hrow as -> ->. rewrite (arrange_perm _ _ _) in Hk.
  apply list_elem_of_fmap in Hk as ([k' r'] & -> & Hin). apply elem_rows_where in Hin as [_ Hp]. cbn in *.
  rewrite (proj2 (String.eqb_neq _ _) Hu) in Hp. cbn in Hp. split; [done|]. by rewrite Eco.
Qed.

Lemma acting_runs requested k n db r n' db' :
  user ≠ "" → companies db !! "" = None → acting_for role user requested k e n db = (r, n', db') →
  db' = db ∨ ∃ c n1, c ≠ "" ∧ is_member c user db = true ∧ k c e n1 db = (r, n', db').
Proof.
  intros Hu Hids H. unfold acting_for, recruiterCompany in H. rewrite (proj2 (String.eqb_neq _ _) Hrole) in H.
  destruct (String.eqb_spec requested "") as [->|Hreq]; cbn [negb] in H.
  - unfold bind at 1, bind at 1, attempt_ at 1 in H.
    destruct (ListCompanies user e n db) as [[[l|err] n1] d1] eqn:El.
    + assert (d1 = db) as -> by (eapply alone_reads; [apply reads_companies|exact He|exact El]).
      destruct l as [|c [|c' l]]; [by injection H as _ _ <-; left| |by injection H as _ _ <-; left].
      destruct (listed_companies _ _ _ _ _ c Hu El (list_elem_of_here _ _)) as [Hm [row Hrow]]. cbn in H. right. exists (cp_Id c), n1.
      split_and!; [|done|done]. intros E. rewrite E in Hrow. congruence.
    + assert (d1 = db) as -> by (eapply alone_reads; [apply reads_companies|exact He|exact El]). injection H as _ _ <-. by left.
  - unfold bind at 1 in H. destruct (company_guard _ _ _ _ _ e n db) as [[x n1] d1] eqn:Eg.
    apply company_guard_runs in Eg as [[n2 Hg]|(_ & Hm & n2 & Hg)]; injection Hg as <- -> <-.
    + injection H as _ _ <-. by left.
    + right. by exists requested, n1.
Qed.

Lemma respond_runs {A} failed shown (m : M A) n db r n' db' :
  respond_with failed shown m e n db = (r, n', db') → ∃ x, m e n db = (x, n', db').
Proof.
  unfold respond_with, bind, attempt_. destruct (m e n db) as [[x n1] d1]. intros [= _ <- <-]. by exists x.
Qed.

Lemma respond_within {A} (G : DB → DB → Prop) `{!PreOrder G} failed shown (m : M A) n db r n' db' :
  respects G m → respond_with failed shown m e n db = (r, n', db') → G db db'.
Proof. intros Hm (x & H)%respond_runs. eapply Hm; [apply alone_quiet; [apply _|exact He]|exact H]. Qed.

Lemma decode_runs {A} (body : option A) k n db r n' db' :
  decode body k e n db = (r, n', db') → db' = db ∨ ∃ x, body = Some x ∧ k x e n db = (r, n', db').
Proof. unfold decode. destruct body as [x|]; [right; by exists x|]. intros [= _ _ <-]. by left. Qed.
End Guards.

(** ** Every route *)

(** What a recruiter may have changed: one test of a company of theirs,
    sections apart, the bank of one, or a new hiring test of one. *)
Inductive confined (user : string) (db db' : DB) : Prop :=
  | Unchanged : db' = db → confined user db db'
  | WithinTest test : administers user db test → touches test db db' → confined user db db'
  | WithinBank c : c ≠ "" → is_member c user db = true → bank_within c db db' → confined user db db'
  | NewTest c id a : c ≠ "" → is_member c user db = true → assessments db !! id = None → as_company_id a = Some c →
      as_purpose a = "hiring" → as_status a = "draft" → as_course_ids a = [] → db' = with_assessments (<[id := a]>) db →
      confined user db db'.

Section Routes.
Context {PG : Postgres} {GF : GoFormat} {PC : PgCase} {PS : PgSearch} {PL : PgCollation} {PR : PgScore} {RN : Random}.
Context (e : Env) (He : alone e) (role user : string) (Hrole : role ≠ "admin") (Huser : user ≠ "").

Definition confines (m : M Answer) : Prop :=
  ∀ n db r n' db', companies db !! "" = None → m e n db = (r, n', db') → confined user db db'.

Lemma confines_ret a : confines (ret a).
Proof. intros n db r n' db' _ [= _ _ <-]. by apply Unchanged. Qed.

Lemma confines_respond {A} failed shown (m : M A) : respects eq m → confines (respond_with failed shown m).
Proof. intros Hm n db r n' db' _ H. apply Unchanged. symmetry. by eapply (respond_within e He eq) in H. Qed.

Lemma confines_admin next : confines (adminOnly role next).
Proof. unfold adminOnly. rewrite (proj2 (String.eqb_neq _ _) Hrole). apply confines_ret. Qed.

Lemma confines_decode {A} (body : option A) k : (∀ x, confines (k x)) → confines (decode body k).
Proof. intros Hk n db r n' db' Hids H. apply decode_runs in H as [->|(x & _ & H)]; [by apply Unchanged|]. by eapply Hk. Qed.

Lemma confines_company company no next : confines no → confines next → confines (company_guard role user company no next).
Proof.
  intros H1 H2 n db r n' db' Hids H. apply (company_guard_runs e He role user Hrole) in H as [[n1 H]|(_ & _ & n1 & H)]; [by eapply H1|by eapply H2].
Qed.

Lemma confines_acting requested k :
  (∀ c n db r n' db', c ≠ "" → is_member c user db = true → k c e n db = (r, n', db') → confined user db db') →
  confines (acting_for role user requested k).
Proof.
  intros Hk n db r n' db' Hids H. apply (acting_runs e He role user Hrole) in H as [->|(c & n1 & Hne & Hm & H)]; [by apply Unchanged| |done|done].
  by eapply Hk.
Qed.

Lemma confines_guard test next :
  (∀ n db r n' db', next e n db = (r, n', db') → touches test db db') → confines (guard role user test next).
Proof.
  intros Hn n db r n' db' _ H. apply (guard_runs e He role user Hrole) in H as [->|(Ha & n1 & H)]; [by apply Unchanged|]. apply (WithinTest _ _ _ test); [done|by eapply Hn].
Qed.

(** A guarded handler that answers with an operation bound to the test. *)
Lemma confines_bound {A} test failed shown (m : M A) :
  respects (touches test) m → confines (guard role user test (respond_with failed shown m)).
Proof. intros Hm. apply confines_guard. intros n db r n' db' H. by eapply (respond_within e He (touches test)) in H. Qed.

Lemma confines_read {A} test failed shown (m : M A) : respects eq m → confines (guard role user test (respond_with failed shown m)).
Proof. intros Hm. apply confines_guard. intros n db r n' db' H. eapply (respond_within e He eq) in H; [by subst|exact Hm]. Qed.

Lemma confines_sections {A} test failed shown (m : M A) :
  respects sections_only m → confines (guard role user test (respond_with failed shown m)).
Proof.
  intros Hm. apply confines_guard. intros n db r n' db' (x & H)%respond_runs.
  assert (Hs : sections_only db db') by (eapply Hm; [|exact H]; intros k d; rewrite He; by intros t). apply Hs.
Qed.

Lemma confines_guard_decode {A} test (body : option A) k :
  (∀ x, confines (guard role user test (k x))) → confines (guard role user test (decode body k)).
Proof.
  intros Hk. destruct body as [x|]; [apply Hk|]. apply confines_guard. intros n db r n' db' [= _ _ <-]. done.
Qed.

Lemma confines_attempt attempt next :
  (∀ n db r n' db' a, attempts db !! attempt = Some a → next e n db = (r, n', db') → touches (at_assessment_id a) db db') →
  confines (guardAttempt role user attempt next).
Proof.
  intros Hn n db r n' db' _ H. unfold guardAttempt, bind at 1, attempt_ at 1 in H.
  destruct (GetAttemptReport attempt e n db) as [[[rep|err] n1] d1] eqn:E;
    (assert (d1 = db) as -> by (eapply alone_reads; [apply reads_report|exact He|exact E])); [|injection H as _ _ <-; by apply Unchanged].
  assert (Ha : ∃ a, attempts db !! attempt = Some a ∧ sm_AssessmentId (ar_Summary rep) = at_assessment_id a).
  { unfold GetAttemptReport in E. run_bind E s n2 d2 Hm. unfold loadSummary in Hm. run_bind Hm o n3 d3 Hs. run_read Hs. rewrite He in Hm.
    unfold find_summary in Hm. destruct (attempts db !! attempt) as [a|]; [|done]. destruct (assessments db !! at_assessment_id a); [|done].
    injection Hm as <- _ _. run_bind E qs n4 d4 Hq. run_bind E ev n5 d5 Hev. injection E as <- _ _. by exists a. }
  destruct Ha as (a & Ha & Et). rewrite Et in H. apply (guard_runs e He role user Hrole) in H as [->|(Hadm & n2 & H)]; [by apply Unchanged|].
  apply (WithinTest _ _ _ (at_assessment_id a)); [done|by eapply Hn].
Qed.

Lemma confines_shortlist shortlist next :
  (∀ n db r n' db' s, shortlists db !! shortlist = Some s → next e n db = (r, n', db') → touches (sl_assessment_id s) db db') →
  confines (guardShortlist role user shortlist next).
Proof.
  intros Hn n db r n' db' _ H. unfold guardShortlist, bind at 1, attempt_ at 1 in H.
  destruct (GetShortlist shortlist e n db) as [[[sl|err] n1] d1] eqn:E;
    (assert (d1 = db) as -> by (eapply alone_reads; [apply reads_shortlist|exact He|exact E])); [|injection H as _ _ <-; by apply Unchanged].
  assert (Hs : ∃ s, shortlists db !! shortlist = Some s ∧ sh_AssessmentId sl = sl_assessment_id s).
  { unfold GetShortlist in E. run_bind E o n2 d2 Hm. run_read Hm. rewrite He in E. destruct (shortlists db !! shortlist) as [s|]; [|done].
    run_bind E en n3 d3 Hm. injection E as <- _ _. by exists s. }
  destruct Hs as (s & Hs & Et). rewrite Et in H. apply (guard_runs e He role user Hrole) in H as [->|(Hadm & n2 & H)]; [by apply Unchanged|].
  apply (WithinTest _ _ _ (sl_assessment_id s)); [done|by eapply Hn].
Qed.

(** *** The handlers that write *)

Lemma confines_memberships r l : ∀ out count, confines (list_memberships r l out count).
Proof.
  induction l as [|c t IH]; intros out count; cbn [list_memberships]; [apply confines_ret|].
  intros n db x n' db' Hids H. unfold bind at 1, attempt_ at 1 in H.
  destruct (ListAssessments _ e n db) as [[[[ls k]|err] n1] d1] eqn:E;
    (assert (d1 = db) as -> by (eapply alone_reads; [apply reads_tests|exact He|exact E])); [by eapply IH|].
  injection H as _ _ <-. by apply Unchanged.
Qed.

Lemma confines_list r : confines (listAssessments r role user).
Proof.
  unfold listAssessments, respond. rewrite (proj2 (String.eqb_neq _ _) Hrole). cbn [negb]. destruct (negb _).
  - apply confines_company; [apply confines_ret|apply confines_respond, reads_tests].
  - unfold listAssessmentsForMemberships. intros n db x n' db' Hids H. unfold bind at 1, attempt_ at 1 in H.
    destruct (ListCompanies user e n db) as [[[l|err] n1] d1] eqn:E;
      (assert (d1 = db) as -> by (eapply alone_reads; [apply reads_companies|exact He|exact E])); [by eapply confines_memberships|].
    injection H as _ _ <-. by apply Unchanged.
Qed.

Lemma confines_create b : confines (createAssessment b role user).
Proof.
  unfold createAssessment. rewrite (proj2 (String.eqb_neq _ _) Hrole). cbn [negb]. apply confines_decode. intros a.
  destruct (String.eqb_spec (ai_CompanyId a) "") as [|Hc]; cbn [negb]; [apply confines_ret|]. intros n db r n' db' _ H.
  apply (company_guard_runs e He role user Hrole) in H as [[n1 H]|(_ & Hm & n1 & H)]; [injection H as _ _ <-; by apply Unchanged|].
  apply respond_runs in H as [x H]. unfold CreateAssessment in H.
  destruct (String.eqb _ ""); [injection H as _ _ <-; by apply Unchanged|]. destruct (_ <=? 0); [injection H as _ _ <-; by apply Unchanged|].
  assert (Hnew : ∀ id d, insert_draft (as_hiring a) user (stamp_at e n1) db = Some (id, d) → confined user db d).
  { intros id d Hi. unfold insert_draft in Hi. destruct (num_param _ _); [|done]. destruct (_ && _ && _) eqn:Eg; [|done]. bool_to_prop.
    injection Hi as _ <-. eapply (NewTest _ _ _ (ai_CompanyId a)); try done; cbn; [|done..].
    unfold nullable. by rewrite (proj2 (String.eqb_neq _ _) Hc). }
  unfold statement in H. rewrite He in H. destruct (insert_draft _ _ _ db) as [[id d]|] eqn:E;
    destruct (fault e n1); injection H as _ _ <-; try (by apply Unchanged); by eapply Hnew.
Qed.

(** A bank operation for the company acted for. *)
Lemma confines_bank {A} requested failed shown (m : string → M A) :
  (∀ c, c ≠ "" → respects (bank_within c) (m c)) → confines (acting_for role user requested (λ c, respond_with failed shown (m c))).
Proof.
  intros Hm. apply confines_acting. intros c n db r n' db' Hne Hmem H.
  eapply (respond_within e He (bank_within c)) in H; [|by apply Hm]. by apply (WithinBank _ _ _ c).
Qed.

Lemma confines_upsert b : confines (upsertMcq b role user).
Proof.
  unfold upsertMcq, respond. rewrite (proj2 (String.eqb_neq _ _) Hrole). cbn [negb]. apply confines_decode. intros q.
  apply confines_bank. intros c Hc. eapply upsert_within; [done|reflexivity|done|by right].
Qed.

Lemma confines_import b : confines (importMcq b role user).
Proof.
  unfold importMcq, respond. rewrite (proj2 (String.eqb_neq _ _) Hrole). cbn [negb]. apply confines_decode. intros req.
  apply confines_bank. intros c Hc. apply import_within; [done|done|]. cbn. intros q (x & Hx & _)%list_elem_of_fmap. destruct x as [x|]; [|done]. by injection Hx as ->.
Qed.

Lemma confines_delete r id : confines (deleteMcq r role user id).
Proof.
  unfold deleteMcq, respond. rewrite (proj2 (String.eqb_neq _ _) Hrole). cbn [negb]. apply confines_bank. intros c Hc. by apply retire_within.
Qed.

Lemma confines_bank_list r : confines (listMcq r role user).
Proof.
  unfold listMcq, respond. apply confines_acting. intros c n db x n' db' _ _ H. apply Unchanged. symmetry.
  eapply (respond_within e He eq) in H; [exact H|apply reads_bank].
Qed.

Lemma confines_remove test : confines (guard role user test (respond (λ _, PEmpty) (DeleteAssessment test))).
Proof. apply confines_guard. intros n db r n' db' (x & H)%respond_runs. by eapply delete_touches in H. Qed.

Lemma confines_grade b attempt question : confines (guardAttempt role user attempt (gradeDescriptive b attempt question)).
Proof.
  apply confines_attempt. intros n db r n' db' a Ha H. apply decode_runs in H as [->|(marks & _ & H)]; [done|].
  apply respond_runs in H as [x H]. by eapply grade_touches in H.
Qed.

Lemma confines_decide b shortlist attempt : confines (guardShortlist role user shortlist (setDecision b shortlist attempt)).
Proof.
  apply confines_shortlist. intros n db r n' db' s Hs H. apply decode_runs in H as [->|(d & _ & H)]; [done|].
  apply respond_runs in H as [x H]. by eapply decision_touches in H.
Qed.

Lemma confines_report attempt : confines (guardAttempt role user attempt (respond PReport (GetAttemptReport attempt))).
Proof. apply confines_attempt. intros n db r n' db' a _ H. eapply (respond_within e He eq) in H; [by subst|apply reads_report]. Qed.

Lemma confines_show shortlist : confines (guardShortlist role user shortlist (respond PShortlist (GetShortlist shortlist))).
Proof. apply confines_shortlist. intros n db r n' db' s _ H. eapply (respond_within e He eq) in H; [by subst|apply reads_shortlist]. Qed.

Lemma confines_publish b test : confines (guard role user test (publishAssessment b test)).
Proof. apply confines_bound. apply (publish_touches {| pb_Id := test; pb_Publish := default true (bd_publish b) |}). Qed.

Lemma confines_update b test : confines (guard role user test (updateAssessment b test)).
Proof. apply confines_guard_decode. intros a. apply confines_bound, (update_touches (with_id test a)). Qed.

Lemma confines_invite b test : confines (guard role user test (invite b test user)).
Proof. apply confines_guard_decode. intros req. apply confines_bound, (invite_touches {| ic_AssessmentId := test |}). Qed.

Lemma confines_rank b test : confines (guard role user test (computeShortlist b test user)).
Proof. apply confines_guard_decode. intros req. apply confines_bound, (shortlist_touches {| cs_AssessmentId := test |}). Qed.

Lemma confines_section b test : confines (guard role user test (upsertSection b test)).
Proof. apply confines_guard_decode. intros s. apply confines_sections, section_touches. Qed.

Lemma confines_questions b test section : confines (guard role user test (setSectionQuestions b section)).
Proof. apply confines_guard_decode. intros qs. apply confines_sections, set_list_touches. Qed.

Lemma confines_dispatch r : confines (dispatch r role user).
Proof.
  unfold dispatch. cbv zeta.
  repeat match goal with |- confines (if ?b then _ else _) => destruct b end;
    first
      [ apply confines_ret | apply confines_admin | apply confines_bank_list | apply confines_upsert | apply confines_import
      | apply confines_delete | apply confines_list | apply confines_create | apply confines_remove | apply confines_grade
      | apply confines_decide | apply confines_report | apply confines_show | apply confines_publish | apply confines_update
      | apply confines_invite | apply confines_rank | apply confines_section | apply confines_questions
      | apply confines_respond, reads_companies
      | apply confines_sections, drop_section_touches
      | apply confines_company; [apply confines_ret|apply confines_respond, reads_members]
      | apply confines_read; first [apply reads_test|apply reads_invites|apply reads_table|apply reads_export|apply reads_shortlists] ].
Qed.
End Routes.

Section Desk.
Context {PG : Postgres} {GF : GoFormat} {PC : PgCase} {PS : PgSearch} {PL : PgCollation} {PR : PgScore} {RN : Random}.

(** C11.  Company scoping, over every route: a request of anybody but an admin,
    served alone, whatever of it fails, leaves the database as it was or
    writes - sections and their question lists apart - only to one test of a
    company the caller is a member of, to the bank of one, or adds a draft
    hiring test to one; memberships, companies, other tests, candidates,
    shortlists and banks stay as they were, so a recruiter who belongs to no
    company changes nothing. *)
Theorem recruiter_confined r e n db a n' db' :
  alone e → RoleFromContext (rr_Request r) ≠ "admin" → companies db !! "" = None → ServeHTTP r e n db = (a, n', db') →
  confined (UserIDFromContext (rr_Request r)) db db' ∧ company_members db' = company_members db ∧ companies db' = companies db ∧
  ((∀ c, is_member c (UserIDFromContext (rr_Request r)) db = false) → db' = db).
Proof.
  intros He Hrole Hids H. assert (Hc : confined (UserIDFromContext (rr_Request r)) db db').
  { unfold ServeHTTP in H. destruct (String.eqb (rr_Method r) "OPTIONS"); [injection H as _ _ <-; by apply Unchanged|].
    destruct (String.eqb_spec (UserIDFromContext (rr_Request r)) "") as [|Hu]; [injection H as _ _ <-; by apply Unchanged|].
    destruct (_ && _); [injection H as _ _ <-; by apply Unchanged|]. by eapply confines_dispatch. }
  split; [exact Hc|]. destruct Hc as [->|test Hadm Ht|c Hne Hm Hb|c id t Hne Hm _ _ _ _ _ ->].
  - done.
  - destruct Ht as [_ _ _ _ _ _ _ (H1 & H2 & _) _]. split_and!; [done|done|]. intros Hno. destruct Hadm as (? & c & _ & _ & _ & Hm). by rewrite Hno in Hm.
  - destruct Hb as [_ _ ->]. split_and!; [done|done|]. intros Hno. by rewrite Hno in Hm.
  - split_and!; [done|done|]. intros Hno. by rewrite Hno in Hm.
Qed.

(** *** The sections *)

(** A request to remove a section, under a test. *)
Definition removal (user test section : string) (b : Body) : RecruiterRequest :=
  {| rr_Request := {| rq_Path := "/api/recruiter/assessments/" +:+ test +:+ "/sections/" +:+ section; rq_Headers := ∅;
                      rq_TokenParam := ""; rq_User := Some (user, "recruiter") |};
     rr_Method := "DELETE"; rr_Query := ∅; rr_MinScore := float_zero; rr_Body := b |}.

(** Without faults a member is let through. *)
Lemma authorize_allows user test e n db :
  undisturbed e → administers user db test → test ≠ "" → ∃ n1, authorize_test "recruiter" user test e n db = (inl allowed, n1, db).
Proof.
  intros [Hf Hi] (a & c & Ha & Hc & Hne & Hm) Ht. unfold authorize_test, Authorize. cbn [az_Role az_AssessmentId az_UserId].
  cbn [String.eqb Ascii.eqb Bool.eqb negb]. rewrite (proj2 (String.eqb_neq _ _) Ht). cbn [negb].
  unfold assessmentCompany, select, bind, statement. rewrite Hi, Hf, Ha. cbn [fmap option_fmap option_map]. rewrite Hc. cbn [ret].
  rewrite (proj2 (String.eqb_neq _ _) Hne). unfold member_check. rewrite (proj2 (String.eqb_neq _ _) Hne).
  unfold select, bind, statement. rewrite Hi, Hf, Hm. by eexists.
Qed.

(** A hole in the scoping: the section a recruiter removes need not be one of the test
    their request is checked against; a member of any company with a test can
    remove any section of any test. *)
Theorem section_unguarded user test section b e n db s :
  undisturbed e → administers user db test → user ≠ "" → test ≠ "" →
  segments (route_path (removal user test section b)) = ["assessments"; test; "sections"; section] →
  assessment_sections db !! section = Some s →
  ∃ a n' db', ServeHTTP (removal user test section b) e n db = (inl a, n', db') ∧ aw_Code a = 200 ∧
    assessment_sections db' = delete section (assessment_sections db).
Proof.
  intros He Hadm Hu Ht Hseg Hs. destruct (authorize_allows user test e n db He Hadm Ht) as [n1 Hauth]. destruct He as [Hf Hi].
  unfold ServeHTTP. cbn [rr_Method removal rr_Request UserIDFromContext RoleFromContext rq_User fmap option_fmap option_map default fst snd].
  change (id user) with user. change (id "recruiter") with "recruiter". rewrite (proj2 (String.eqb_neq _ _) Hu). cbn [String.eqb Ascii.eqb Bool.eqb negb andb].
  unfold dispatch. cbv zeta. rewrite Hseg. set (path := route_path _) in *. clearbody path.
  assert (Hpath : ∀ name, segments name ≠ ["assessments"; test; "sections"; section] → String.eqb path name = false).
  { intros name Hname. apply String.eqb_neq. intros ->. done. }
  rewrite !Hpath by (vm_compute; discriminate). cbn -[guard deleteSection]. unfold guard. unfold bind at 1, attempt_ at 1. rewrite Hauth. cbn [negb au_Allowed allowed].
  unfold deleteSection, respond, respond_with, DeleteSection, bind, attempt_, statement. rewrite Hi, Hf. cbn. rewrite Hs. cbn.
  do 3 eexists. split; [reflexivity|]. done.
Qed.
End Desk.
