(* ===== verification/RecruiterRuns.v ===== *)
(** Runs of the recruiter desk, the drafts and the reports on the small
    database of Concrete.v, extended by a second company. *)

From Stdlib Require Import Ascii.
From S2P Require Import Prelude GoStrings Csv Float64 Strconv GoTime Grading Gateway Service Shop.
From S2P Require Import Store Concrete Scoring Attempts Authoring Results Answers Bank Companies Drafts Reports Recruiter Confined BankRuns.

#[local] Open Scope Z_scope.

#[local] Instance quotes_model : GoFormat := {| quote_go := λ s, s |}.
#[local] Instance case_model : PgCase := {| positive_param := numeric_of (10 ^ 9) |}.
#[local] Instance collation_model : PgCollation := {| text_le := String.leb |}.
#[local] Instance score_model : PgScore := {| score_at_least := λ z x, fleb x (num_value z) |}.

#[local] Instance random_model : Random.
Proof.
  refine {| rand_bytes := λ n k, Some (repeat (Z.of_nat n mod 256) k) |}.
  - intros n k b [= <-]. apply repeat_length.
  - intros n k b x [= <-] Hx. apply list_elem_of_In, repeat_spec in Hx as ->. apply Z.mod_pos_bound. lia.
Defined.

Lemma desk_alone start : Companies.alone (calm start).
Proof. done. Qed.

(** ** A second company, its recruiter and its draft *)

Definition demo_draft : AssessmentInput :=
  {| ai_Id := ""; ai_CompanyId := "d"; ai_Title := "Frontend"; ai_Description := ""; ai_Purpose := "practice"; ai_DurationMinutes := 30;
     ai_PassingMarks := 3; ai_NegativeMarking := float_of 25; ai_ShuffleQuestions := true; ai_ShuffleOptions := true;
     ai_AllowBacktrack := true; ai_LockForward := false; ai_RevealResults := true; ai_Proctoring := None;
     ai_OpensAt := ""; ai_ClosesAt := ""; ai_MaxAttempts := 0; ai_CourseIds := Some [" go "; "go"; ""] |}.

Definition demo2 : DB :=
  with_members (<[("d", "s") := "recruiter"]>)
    (with_companies (<["d" := {| co_name := "Delta"; co_slug := "delta"; co_logo_url := ""; co_website := ""; co_created_at := 0 |}]>)
       (with_assessments (<["D" := draft_row demo_draft "s" 25 0]>) demo)).

Lemma authorize_decides_witness :
  ∃ r n', Authorize {| az_UserId := "s"; az_Role := "recruiter"; az_CompanyId := "d"; az_AssessmentId := "T" |} demo_env 0%nat demo2 = (inl r, n', demo2) ∧
    au_Allowed r = false ∧ ¬ may_administer {| az_UserId := "s"; az_Role := "recruiter"; az_CompanyId := "d"; az_AssessmentId := "T" |} demo2.
Proof.
  destruct (authorize_decides {| az_UserId := "s"; az_Role := "recruiter"; az_CompanyId := "d"; az_AssessmentId := "T" |}
              demo_env 0%nat demo2 (desk_alone _)) as (r & n' & E & Hd & _).
  exists (denied "not a member of the owning company"), n'.
  assert (Hr : r = inl (denied "not a member of the owning company")).
  { apply (f_equal (λ x, x.1.1)) in E. vm_compute in E. exact (eq_sym E). }
  subst r. split; [exact E|]. split; [reflexivity|]. intros H. apply Hd in H. discriminate H.
Defined.

(** ** Drafts *)

Lemma demo2_sane : sane demo2.
Proof.
  assert (H : ∀ id a, assessments demo2 !! id = Some a → draft_ok a); [|exact H].
  intros id a H. unfold demo2, demo in H. cbn [assessments with_members with_companies with_assessments] in H.
  apply lookup_insert_Some in H as [[_ <-]|[_ H]]; [|apply lookup_insert_Some in H as [[_ <-]|[_ H]]; [|apply lookup_singleton_Some in H as [_ <-]]].
  all: split; apply (bool_decide_unpack _); vm_compute; exact I.
Qed.

Definition demo_patch : AssessmentInput :=
  {| ai_Id := "D"; ai_CompanyId := ""; ai_Title := ""; ai_Description := ""; ai_Purpose := ""; ai_DurationMinutes := 0;
     ai_PassingMarks := 0; ai_NegativeMarking := float_zero; ai_ShuffleQuestions := false; ai_ShuffleOptions := false;
     ai_AllowBacktrack := false; ai_LockForward := false; ai_RevealResults := false; ai_Proctoring := Some demo_proctoring;
     ai_OpensAt := ""; ai_ClosesAt := ""; ai_MaxAttempts := 0; ai_CourseIds := None |}.


(** ** Invitations, the export, a saved shortlist *)

Lemma demo_unique : unique_invites demo.
Proof.
  intros k l i j Hk Hl _ _. unfold demo in Hk, Hl. cbn [assessment_invites] in Hk, Hl.
  apply lookup_singleton_Some in Hk as [<- _], Hl as [<- _]. reflexivity.
Qed.

Definition demo_mail : InviteCandidatesRequest :=
  {| ic_AssessmentId := "T"; ic_ActorId := "r"; ic_Emails := [" W@x.org"; "v@x.org"; "w@x.org"; "nobody"];
     ic_ExpiresAt := "2025-02-01T00:00:00Z" |}.



Definition demo_ranking : ComputeShortlistRequest :=
  {| cs_AssessmentId := "T"; cs_ActorId := "r"; cs_Name := ""; cs_Criteria := None; cs_Save := true |}.

Lemma demo_placed : entries_placed demo.
Proof. intros k [x Hx]. unfold demo in Hx. cbn [shortlist_entries] in Hx. by rewrite lookup_empty in Hx. Qed.


(** ** The desk *)

Definition no_body : Body :=
  {| bd_company := None; bd_member := None; bd_question := None; bd_import := None; bd_assessment := None; bd_publish := None;
     bd_section := None; bd_questions := None; bd_invite := None; bd_marks := None; bd_shortlist := None; bd_decision := None |}.

Definition patch_body : Body :=
  {| bd_company := None; bd_member := None; bd_question := None; bd_import := None; bd_assessment := Some demo_patch; bd_publish := None;
     bd_section := None; bd_questions := None; bd_invite := None; bd_marks := None; bd_shortlist := None; bd_decision := None |}.

(** The recruiter of the second company at some path. *)
Definition demo_request (meth path : string) (b : Body) : RecruiterRequest :=
  {| rr_Request := {| rq_Path := path; rq_Headers := ∅; rq_TokenParam := ""; rq_User := Some ("s", "recruiter") |};
     rr_Method := meth; rr_Query := ∅; rr_MinScore := float_zero; rr_Body := b |}.

(** They may patch their own test, not another company's. *)
Lemma recruiter_confined_witness :
  ∃ a n' db', ServeHTTP (demo_request "PATCH" "/api/recruiter/assessments/D/" patch_body) demo_env 0%nat demo2 = (inl a, n', db') ∧
    aw_Code a = 200 ∧ confined "s" demo2 db' ∧
    ∃ a2 n2, ServeHTTP (demo_request "PATCH" "/api/recruiter/assessments/T" patch_body) demo_env 0%nat demo2 = (inl a2, n2, demo2) ∧ aw_Code a2 = 403.
Proof.
  destruct (checked_run (λ a _, aw_Code a =? 200)
    (ServeHTTP (demo_request "PATCH" "/api/recruiter/assessments/D/" patch_body) demo_env 0%nat demo2)) as (a & n' & db' & E & HP%Z.eqb_eq);
    [vm_compute; reflexivity|].
  exists a, n', db'. split; [exact E|]. split; [exact HP|]. split.
  - assert (Hrole : RoleFromContext (rr_Request (demo_request "PATCH" "/api/recruiter/assessments/D/" patch_body)) ≠ "admin") by discriminate.
    assert (Hids : companies demo2 !! "" = None) by (vm_compute; reflexivity).
    exact (proj1 (recruiter_confined _ _ _ _ _ _ _ (desk_alone _) Hrole Hids E)).
  - exists (refuse 403 "not a member of the owning company"), 2%nat. split; [|reflexivity]. vm_compute. reflexivity.
Defined.

(** The section of the first company's test falls to the second's recruiter. *)
Lemma section_unguarded_witness :
  ∃ a n' db', ServeHTTP (removal "s" "D" "S2" no_body) demo_env 0%nat demo2 = (inl a, n', db') ∧ aw_Code a = 200 ∧
    assessment_sections db' = delete "S2" (assessment_sections demo2) ∧ ¬ administers "s" demo2 "T".
Proof.
  destruct (section_unguarded "s" "D" "S2" no_body demo_env 0%nat demo2 (demo_section Coding 1) (calm_undisturbed _)) as (a & n' & db' & E & Hc & Hs).
  - exists (draft_row demo_draft "s" 25 0), "d". repeat split; try reflexivity. discriminate.
  - discriminate.
  - discriminate.
  - vm_compute. reflexivity.
  - vm_compute. reflexivity.
  - exists a, n', db'. split; [exact E|]. split; [exact Hc|]. split; [exact Hs|].
    intros (t & c & Ht & Hco & _ & Hm). injection Ht as <-. injection Hco as <-. vm_compute in Hm. discriminate Hm.
Defined.
