(* ===== verification/Rpc.v ===== *)
(** The gRPC service of the assessments
    (services/assessment-service/internal/handler/grpc.go): one handler per
    method of AssessmentServiceServer, on top of the repository, and [call],
    the service as one function of the call.

    [refusal_changes_nothing] is that a call refused for want of permission or
    of attempts left the database as it was. *)

From S2P Require Import Prelude GoStrings Float64 Strconv GoTime Judge Worker Grading Service Shop.
From S2P Require Import Store Scoring Attempts Papers Authoring Results Answers Bank Companies Drafts Available Reports Recruiter Confined.

#[local] Open Scope Z_scope.
#[local] Open Scope repo_scope.

(** A status error: its code, and the error whose text it carries. *)
Inductive RpcCode := Mapped (c : StatusCode) | RpcInvalidArgument.

Record RpcError := { rp_Code : RpcCode; rp_Err : Err }.

Definition wrapped (err : Err) : RpcError := {| rp_Code := Mapped (wrap (Some err)); rp_Err := err |}.

(** [return out, wrap(err)] *)
Definition reply_with {A} (wrong : Err → RpcError) (m : M A) : M (A + RpcError) :=
  r <- attempt_ m ;;
  ret (match r with inl out => inl out | inr err => inr (wrong err) end).

Definition reply {A} : M A → M (A + RpcError) := reply_with wrapped.

Record RunAttemptCodeRequest := { ra_AttemptId : string; ra_UserId : string; ra_QuestionId : string; ra_Language : string; ra_Code : string }.

Record AttemptTestResult := {
  tt_Input : string;
  tt_ExpectedOutput : string;
  tt_ActualOutput : string;
  tt_Status : string;
  tt_ExecutionMs : Z;
  tt_Error : string;
}.

Record RunAttemptCodeResponse := {
  ro_OverallStatus : string;
  ro_TestResults : list AttemptTestResult;
  ro_CompileError : string;
  ro_RuntimeMs : Z;
}.

Record SubmitAttemptCodeRequest := { sq_AttemptId : string; sq_UserId : string; sq_QuestionId : string; sq_Language : string; sq_Code : string }.

Definition attempt_result (tr : TestResult) : AttemptTestResult :=
  {| tt_Input := tr_Input tr; tt_ExpectedOutput := tr_ExpectedOutput tr; tt_ActualOutput := tr_ActualOutput tr;
     tt_Status := tr_Status tr; tt_ExecutionMs := tr_ExecutionMs tr; tt_Error := tr_Error tr |}.

Definition run_response (resp : RunCodeResponse) : RunAttemptCodeResponse :=
  {| ro_OverallStatus := rs_OverallStatus resp; ro_TestResults := map attempt_result (rs_TestResults resp);
     ro_CompileError := rs_CompileError resp; ro_RuntimeMs := rs_Runtime resp |}.

Module Handler.
Section Methods.
Context {PG : Postgres} {GR : GoRand} {GF : GoFormat} {PC : PgCase} {PS : PgSearch} {PL : PgCollation} {PR : PgScore} {RN : Random}.
Context (IsUUID : string → bool).
(* the submission service: problem, language, code to an id; and [RunCode] *)
Context (Submit : string → string → string → string + string) (exec_RunCode : RunCodeRequest → result RunCodeResponse).

(** Companies *)
Definition CreateCompany (req : CreateCompanyRequest) : M (Company + RpcError) := reply (Companies.CreateCompany req).
Definition ListCompanies (userID : string) : M (list Company + RpcError) := reply (Companies.ListCompanies userID).
Definition AddCompanyMember (req : AddCompanyMemberRequest) : M (unit + RpcError) := reply (Companies.AddCompanyMember req).
Definition ListCompanyMembers (companyID : string) : M (list CompanyMember + RpcError) := reply (Companies.ListCompanyMembers companyID).
Definition Authorize (req : AuthorizeRequest) : M (AuthorizeResponse + RpcError) := reply (Companies.Authorize req).

(** The question bank *)
Definition UpsertMcqQuestion (req : UpsertMcqQuestionRequest) : M (string + RpcError) := reply (Bank.UpsertMcqQuestion req).
Definition ListMcqQuestions (req : ListMcqQuestionsRequest) : M (ListMcqQuestionsResponse + RpcError) := reply (Bank.ListMcqQuestions req).
Definition DeleteMcqQuestion (id scope : string) : M (unit + RpcError) := reply (Bank.DeleteMcqQuestion id scope).
Definition BulkImportMcq (req : BulkImportMcqRequest) : M (BulkImportMcqResponse + RpcError) := reply (Bank.BulkImportMcq req).

(** Authoring *)
Definition CreateAssessment (actor : string) (a : option AssessmentInput) : M (string + RpcError) := reply (Drafts.CreateAssessment actor a).
Definition UpdateAssessment (a : option AssessmentInput) : M (unit + RpcError) := reply (Drafts.UpdateAssessment a).
Definition GetAssessment (id : string) : M (Assessment + RpcError) := reply (Attempts.GetAssessment id).
Definition ListAssessments (req : ListAssessmentsRequest) : M ((list ListedAssessment * Z) + RpcError) := reply (Drafts.ListAssessments req).

(** A refused publication is the author's mistake. *)
Definition PublishAssessment (req : PublishAssessmentRequest) : M (PublishAssessmentResponse + RpcError) :=
  reply_with (λ err, if bool_decide (err = ErrNotFound) then wrapped err else {| rp_Code := RpcInvalidArgument; rp_Err := err |})
    (Authoring.PublishAssessment req).

Definition DeleteAssessment (id : string) : M (unit + RpcError) := reply (Authoring.DeleteAssessment id).
Definition UpsertSection (s : option SectionInput) : M (string + RpcError) := reply (Authoring.UpsertSection s).
Definition DeleteSection (id : string) : M (unit + RpcError) := reply (Authoring.DeleteSection id).
Definition SetSectionQuestions (req : SetSectionQuestionsRequest) : M (unit + RpcError) := reply (Authoring.SetSectionQuestions req).

(** Invitations *)
Definition InviteCandidates (req : InviteCandidatesRequest) : M (InviteCandidatesResponse + RpcError) := reply (Reports.InviteCandidates req).
Definition ListInvites (assessmentID : string) : M (list Invite + RpcError) := reply (Reports.ListInvites assessmentID).

(** Taking a test *)
Definition ListAvailableAssessments (req : ListAvailableAssessmentsRequest) : M (list AssessmentSummary + RpcError) :=
  reply (Available.ListAvailableAssessments req).
Definition StartAttempt (req : StartAttemptRequest) : M (AttemptState + RpcError) := reply (HandleStart IsUUID req).
Definition GetAttemptState (attemptID userID : string) : M (AttemptState + RpcError) := reply (Answers.GetAttemptState attemptID userID).
Definition SaveAnswer (req : SaveAnswerRequest) : M (Z + RpcError) := reply (Answers.SaveAnswer req).

Definition RunAttemptCode (req : RunAttemptCodeRequest) : M (RunAttemptCodeResponse + RpcError) :=
  problem <- attempt_ (AttemptCodingQuestion (ra_AttemptId req) (ra_UserId req) (ra_QuestionId req)) ;;
  ret (match problem with
       | inr err => inr (wrapped err)
       | inl problemID =>
           match exec_RunCode {| rc_ProblemId := problemID; rc_Language := ra_Language req; rc_Code := ra_Code req; rc_UserId := ra_UserId req |} with
           | inr _ => inr {| rp_Code := Mapped InternalError; rp_Err := ErrMsg "could not run your code, please try again" |}
           | inl resp => inl (run_response resp)
           end
       end).

Definition SubmitAttemptCode (req : SubmitAttemptCodeRequest) : M ((string * Z) + RpcError) :=
  reply (Answers.SubmitAttemptCode Submit (sq_AttemptId req) (sq_UserId req) (sq_QuestionId req) (sq_Language req) (sq_Code req)).

Definition GetAttemptSubmission (attemptID userID submissionID : string) : M ((string * Z * Z) + RpcError) :=
  reply (GetAttemptSubmissionStatus attemptID userID submissionID).
Definition SubmitAttempt (attemptID userID reason : string) : M (Scoring.AttemptSummary + RpcError) := reply (Answers.SubmitAttempt attemptID userID reason).
Definition RecordProctorEvent (req : RecordProctorEventRequest) : M (RecordProctorEventResponse + RpcError) := reply (Answers.RecordProctorEvent req).
Definition ListMyAttempts (userID : string) : M (list Scoring.AttemptSummary + RpcError) := reply (Scoring.ListMyAttempts userID).
Definition GetAttemptResult (attemptID userID : string) : M (AttemptResult + RpcError) := reply (Answers.GetAttemptResult attemptID userID).

(** Reports and shortlists *)
Definition ListAttempts (req : ListAttemptsRequest) : M (ListAttemptsResponse + RpcError) := reply (Reports.ListAttempts req).
Definition GetAttemptReport (attemptID : string) : M (AttemptReport + RpcError) := reply (Reports.GetAttemptReport attemptID).
Definition GradeDescriptive (attemptID questionID : string) (marks : float64) : M ((float64 * float64) + RpcError) :=
  reply (Scoring.GradeDescriptive attemptID questionID marks).
Definition ComputeShortlist (req : ComputeShortlistRequest) : M (Shortlist + RpcError) := reply (Results.ComputeShortlist req).
Definition ListShortlists (assessmentID : string) : M (list Shortlist + RpcError) := reply (Reports.ListShortlists assessmentID).
Definition GetShortlist (id : string) : M (Shortlist + RpcError) := reply (Reports.GetShortlist id).
Definition SetCandidateDecision (shortlistID attemptID decision notes : string) : M (unit + RpcError) :=
  reply (Results.SetCandidateDecision shortlistID attemptID decision notes).
Definition ExportResults (assessmentID shortlistID : string) : M ((string * string) + RpcError) := reply (Reports.ExportResults assessmentID shortlistID).
End Methods.
End Handler.

(** ** The service *)

(** A call of AssessmentServiceServer. *)
Inductive Call :=
  | CCreateCompany (req : CreateCompanyRequest)
  | CListCompanies (userID : string)
  | CAddCompanyMember (req : AddCompanyMemberRequest)
  | CListCompanyMembers (companyID : string)
  | CAuthorize (req : AuthorizeRequest)
  | CUpsertMcqQuestion (req : UpsertMcqQuestionRequest)
  | CListMcqQuestions (req : ListMcqQuestionsRequest)
  | CDeleteMcqQuestion (id scope : string)
  | CBulkImportMcq (req : BulkImportMcqRequest)
  | CCreateAssessment (actor : string) (a : option AssessmentInput)
  | CUpdateAssessment (a : option AssessmentInput)
  | CGetAssessment (id : string)
  | CListAssessments (req : ListAssessmentsRequest)
  | CPublishAssessment (req : PublishAssessmentRequest)
  | CDeleteAssessment (id : string)
  | CUpsertSection (s : option SectionInput)
  | CDeleteSection (id : string)
  | CSetSectionQuestions (req : SetSectionQuestionsRequest)
  | CInviteCandidates (req : InviteCandidatesRequest)
  | CListInvites (assessmentID : string)
  | CListAvailableAssessments (req : ListAvailableAssessmentsRequest)
  | CStartAttempt (req : StartAttemptRequest)
  | CGetAttemptState (attemptID userID : string)
  | CSaveAnswer (req : SaveAnswerRequest)
  | CRunAttemptCode (req : RunAttemptCodeRequest)
  | CSubmitAttemptCode (req : SubmitAttemptCodeRequest)
  | CGetAttemptSubmission (attemptID userID submissionID : string)
  | CSubmitAttempt (attemptID userID reason : string)
  | CRecordProctorEvent (req : RecordProctorEventRequest)
  | CListMyAttempts (userID : string)
  | CGetAttemptResult (attemptID userID : string)
  | CListAttempts (req : ListAttemptsRequest)
  | CGetAttemptReport (attemptID : string)
  | CGradeDescriptive (attemptID questionID : string) (marks : float64)
  | CComputeShortlist (req : ComputeShortlistRequest)
  | CListShortlists (assessmentID : string)
  | CGetShortlist (id : string)
  | CSetCandidateDecision (shortlistID attemptID decision notes : string)
  | CExportResults (assessmentID shortlistID : string).

(** The status a call ends with; [None] is OK. *)
Definition status {A} (m : M (A + RpcError)) : M (option RpcError) :=
  r <- m ;; ret (match r with inl _ => None | inr err => Some err end).

Section Serve.
Context {PG : Postgres} {GR : GoRand} {GF : GoFormat} {PC : PgCase} {PS : PgSearch} {PL : PgCollation} {PR : PgScore} {RN : Random}.
Context (IsUUID : string → bool).
Context (Submit : string → string → string → string + string) (exec_RunCode : RunCodeRequest → result RunCodeResponse).

Definition call (c : Call) : M (option RpcError) :=
  match c with
  | CCreateCompany req => status (Handler.CreateCompany req)
  | CListCompanies userID => status (Handler.ListCompanies userID)
  | CAddCompanyMember req => status (Handler.AddCompanyMember req)
  | CListCompanyMembers companyID => status (Handler.ListCompanyMembers companyID)
  | CAuthorize req => status (Handler.Authorize req)
  | CUpsertMcqQuestion req => status (Handler.UpsertMcqQuestion req)
  | CListMcqQuestions req => status (Handler.ListMcqQuestions req)
  | CDeleteMcqQuestion id scope => status (Handler.DeleteMcqQuestion id scope)
  | CBulkImportMcq req => status (Handler.BulkImportMcq req)
  | CCreateAssessment actor a => status (Handler.CreateAssessment actor a)
  | CUpdateAssessment a => status (Handler.UpdateAssessment a)
  | CGetAssessment id => status (Handler.GetAssessment id)
  | CListAssessments req => status (Handler.ListAssessments req)
  | CPublishAssessment req => status (Handler.PublishAssessment req)
  | CDeleteAssessment id => status (Handler.DeleteAssessment id)
  | CUpsertSection s => status (Handler.UpsertSection s)
  | CDeleteSection id => status (Handler.DeleteSection id)
  | CSetSectionQuestions req => status (Handler.SetSectionQuestions req)
  | CInviteCandidates req => status (Handler.InviteCandidates req)
  | CListInvites assessmentID => status (Handler.ListInvites assessmentID)
  | CListAvailableAssessments req => status (Handler.ListAvailableAssessments req)
  | CStartAttempt req => status (Handler.StartAttempt IsUUID req)
  | CGetAttemptState attemptID userID => status (Handler.GetAttemptState attemptID userID)
  | CSaveAnswer req => status (Handler.SaveAnswer req)
  | CRunAttemptCode req => status (Handler.RunAttemptCode exec_RunCode req)
  | CSubmitAttemptCode req => status (Handler.SubmitAttemptCode Submit req)
  | CGetAttemptSubmission attemptID userID submissionID => status (Handler.GetAttemptSubmission attemptID userID submissionID)
  | CSubmitAttempt attemptID userID reason => status (Handler.SubmitAttempt attemptID userID reason)
  | CRecordProctorEvent req => status (Handler.RecordProctorEvent req)
  | CListMyAttempts userID => status (Handler.ListMyAttempts userID)
  | CGetAttemptResult attemptID userID => status (Handler.GetAttemptResult attemptID userID)
  | CListAttempts req => status (Handler.ListAttempts req)
  | CGetAttemptReport attemptID => status (Handler.GetAttemptReport attemptID)
  | CGradeDescriptive attemptID questionID marks => status (Handler.GradeDescriptive attemptID questionID marks)
  | CComputeShortlist req => status (Handler.ComputeShortlist req)
  | CListShortlists assessmentID => status (Handler.ListShortlists assessmentID)
  | CGetShortlist id => status (Handler.GetShortlist id)
  | CSetCandidateDecision shortlistID attemptID decision notes => status (Handler.SetCandidateDecision shortlistID attemptID decision notes)
  | CExportResults assessmentID shortlistID => status (Handler.ExportResults assessmentID shortlistID)
  end.
End Serve.

(** ** Refusals *)

Definition refusal (err : Err) : bool :=
  match err with ErrForbidden | ErrNotInvited | ErrNoAttemptsLeft => true | _ => false end.

(** A method that never refuses, and one that refuses before it writes. *)
Definition never {A} (m : M A) : Prop := ∀ e n db err n' db', m e n db = (inr err, n', db') → ¬ refusal err.
Definition polite {A} (m : M A) : Prop :=
  ∀ e n db err n' db', alone e → m e n db = (inr err, n', db') → refusal err → db' = db.

Lemma never_ret {A} (x : A) : never (ret x).
Proof. intros e n db err n' db' H. done. Qed.

Lemma never_fail {A} err : ¬ refusal err → never (A := A) (fail err).
Proof. intros Hr e n db err' n' db' H. by injection H as <- _ _. Qed.

Lemma never_now : never now.
Proof. intros e n db err n' db' H. done. Qed.

Lemma never_seed : never randomSeed.
Proof. intros e n db err n' db' H. unfold randomSeed in H. destruct (seed_bytes e n); [done|]. injection H as <- _ _. by intros []. Qed.

Lemma never_statement {A} q label (f : Stamp → DB → option (A * DB)) : never (statement q label f).
Proof.
  intros e n db err n' db' H. unfold statement in H.
  destruct (fault e n); repeat case_match; simplify_eq; by intros [].
Qed.

Lemma never_select {A} q label (f : DB → A) : never (select q label f).
Proof. apply never_statement. Qed.

Lemma never_bind {A B} (m : M A) (k : A → M B) : never m → (∀ x, never (k x)) → never (bind m k).
Proof.
  intros Hm Hk e n db err n' db' H. unfold bind in H. destruct (m e n db) as [[[x|err1] n1] db1] eqn:E.
  - by eapply Hk.
  - injection H as <- _ _. by eapply Hm.
Qed.

Lemma never_attempt {A} (m : M A) : never (attempt_ m).
Proof. intros e n db err n' db' H. unfold attempt_ in H. by destruct (m e n db) as [[r n1] db1]. Qed.

Lemma never_transaction {A} bl cl (body : M A) : never body → never (transaction bl cl body).
Proof.
  intros Hb e n db err n' db' H. unfold transaction in H.
  destruct (fault e n); [|injection H as <- _ _; by intros []..].
  destruct (body _ _ _) as [[[x|err1] n1] db1] eqn:E; [|injection H as <- _ _; by eapply Hb].
  destruct (fault e n1); [done|injection H as <- _ _; by intros []..].
Qed.

Create HintDb manners.
#[export] Hint Resolve never_ret never_now never_seed never_select never_statement never_attempt : manners.

Lemma polite_never {A} (m : M A) : never m → polite m.
Proof. intros Hm e n db err n' db' _ H Hr. by destruct (Hm _ _ _ _ _ _ H). Qed.

(** Reads first, then what may refuse. *)
Lemma polite_reads {A B} (m : M A) (k : A → M B) : respects eq m → (∀ x, polite (k x)) → polite (bind m k).
Proof.
  intros Hm Hk e n db err n' db' He H Hr. unfold bind in H. destruct (m e n db) as [[[x|err1] n1] db1] eqn:E.
  - rewrite <- (alone_reads _ _ _ _ _ _ _ Hm He E). by eapply Hk.
  - injection H as _ _ <-. by eapply alone_reads.
Qed.

(** What may refuse first, then writes. *)
Lemma polite_writes {A B} (m : M A) (k : A → M B) : polite m → (∀ x, never (k x)) → polite (bind m k).
Proof.
  intros Hm Hk e n db err n' db' He H Hr. unfold bind in H. destruct (m e n db) as [[[x|err1] n1] db1] eqn:E.
  - by destruct (Hk _ _ _ _ _ _ _ H).
  - injection H as <- _ <-. by eapply Hm.
Qed.

(** [never_steps] follows the structure of a method to its statements. *)
Ltac never_steps :=
  repeat first
    [ solve [eauto 2 with manners]
    | apply never_bind; [|intros ?]
    | apply never_transaction
    | apply never_fail
    | progress (cbn beta zeta)
    | match goal with
      | |- never (if ?b then _ else _) => destruct b eqn:?
      | |- never (match ?o with _ => _ end) => destruct o eqn:?
      | |- ¬ Is_true (refusal _) => by intros []
      end ].

Section Never.
Context {PG : Postgres} {GR : GoRand} {GF : GoFormat} {PC : PgCase} {PS : PgSearch} {PL : PgCollation} {PR : PgScore} {RN : Random}.

Lemma never_member company user : never (member_check company user).
Proof. unfold member_check. never_steps. Qed.
#[local] Hint Resolve never_member : manners.
Lemma never_authorize req : never (Authorize req).
Proof. unfold Authorize, assessmentCompany. never_steps. Qed.

Lemma never_options q options : ∀ i, never (insert_options q i options).
Proof. induction options as [|o t IH]; intros i; cbn [insert_options]; never_steps; apply IH. Qed.
#[local] Hint Resolve never_options : manners.
Lemma never_question req : never (UpsertMcqQuestion req).
Proof. unfold UpsertMcqQuestion, store_question. never_steps. Qed.
Lemma never_retire id scope : never (DeleteMcqQuestion id scope).
Proof. unfold DeleteMcqQuestion. never_steps. Qed.
Lemma never_imports req qs : ∀ row out, never (import_rows req row qs out).
Proof. induction qs as [|[q|] t IH]; intros row out; cbn [import_rows]; never_steps; apply IH. Qed.
Lemma never_import req : never (BulkImportMcq req).
Proof. unfold BulkImportMcq. never_steps. apply never_imports. Qed.
Lemma never_bank req : never (ListMcqQuestions req).
Proof. unfold ListMcqQuestions. never_steps. Qed.

Lemma never_create actor a : never (CreateAssessment actor a).
Proof. unfold CreateAssessment. never_steps. Qed.
Lemma never_update a : never (UpdateAssessment a).
Proof. unfold UpdateAssessment. never_steps. Qed.
Lemma never_get id : never (GetAssessment id).
Proof. unfold GetAssessment, loadSections. never_steps. Qed.
#[local] Hint Resolve never_get : manners.
Lemma never_tests req : never (ListAssessments req).
Proof. unfold ListAssessments. never_steps. Qed.
Lemma never_publish req : never (PublishAssessment req).
Proof. unfold PublishAssessment. never_steps. Qed.
Lemma never_delete id : never (DeleteAssessment id).
Proof. unfold DeleteAssessment. never_steps. Qed.
Lemma never_section s : never (UpsertSection s).
Proof. unfold UpsertSection. never_steps. Qed.
Lemma never_drop_section id : never (DeleteSection id).
Proof. unfold DeleteSection. never_steps. Qed.
Lemma never_mapM {A} (f : A → M unit) l : (∀ x, never (f x)) → never (mapM_ f l).
Proof. intros Hf. induction l as [|x l IH]; cbn [mapM_]; never_steps; first [apply Hf|apply IH]. Qed.
Lemma never_list section qs : ∀ i, never (insert_list section i qs).
Proof. induction qs as [|q t IH]; intros i; cbn [insert_list]; never_steps; apply IH. Qed.
Lemma never_questions req : never (SetSectionQuestions req).
Proof. unfold SetSectionQuestions. never_steps; apply never_list. Qed.

Lemma never_token : never inviteToken.
Proof. intros e n db err n' db' H. unfold inviteToken in H. destruct (randomToken n 24); [done|]. injection H as <- _ _. by intros []. Qed.
#[local] Hint Resolve never_token : manners.
Lemma never_invites req emails : ∀ seen out, never (invite_loop req seen emails out).
Proof. induction emails as [|raw t IH]; intros seen out; cbn [invite_loop]; never_steps. Qed.
Lemma never_invite req : never (InviteCandidates req).
Proof. apply never_invites. Qed.
Lemma never_table req : never (ListAttempts req).
Proof. unfold ListAttempts. never_steps. Qed.
Lemma never_summary id : never (loadSummary id).
Proof. unfold loadSummary. never_steps. Qed.
Lemma never_paper id b : never (attemptQuestions id b).
Proof. unfold attemptQuestions. never_steps. Qed.
Lemma never_recompute q id : never (recompute q id).
Proof. unfold recompute. never_steps. Qed.
#[local] Hint Resolve never_summary never_paper never_recompute : manners.
Lemma never_report id : never (GetAttemptReport id).
Proof. unfold GetAttemptReport, proctorEvents. never_steps. Qed.
Lemma never_grade a q m : never (GradeDescriptive a q m).
Proof. unfold GradeDescriptive. never_steps. Qed.
Lemma never_compute req : never (ComputeShortlist req).
Proof. unfold ComputeShortlist, saveShortlist. never_steps; apply never_mapM; intros; apply never_statement. Qed.
Lemma never_decide s a d t : never (SetCandidateDecision s a d t).
Proof. unfold SetCandidateDecision. never_steps. Qed.
Lemma never_shortlists id : never (ListShortlists id).
Proof. unfold ListShortlists. never_steps. Qed.
Lemma never_shortlist id : never (GetShortlist id).
Proof. unfold GetShortlist. never_steps. Qed.
Lemma never_export t s : never (ExportResults t s).
Proof. unfold ExportResults. never_steps. Qed.
Lemma never_available req : never (ListAvailableAssessments req).
Proof. unfold ListAvailableAssessments, userEmail. never_steps. Qed.

Lemma never_load q id : never (loadAttempt q id).
Proof. unfold loadAttempt. never_steps. Qed.
Lemma never_finalize id why : never (FinalizeAttempt id why).
Proof.
  unfold FinalizeAttempt, finalize_body, gradeObjective. never_steps.
  apply never_mapM. intros. apply never_statement.
Qed.
#[local] Hint Resolve never_load never_finalize : manners.

Lemma never_pending id i : never (requireEarlierAnswered id i).
Proof. unfold requireEarlierAnswered. never_steps. Qed.
#[local] Hint Resolve never_pending : manners.

(** ** What may refuse *)

Lemma reads_load q id : respects eq (loadAttempt q id).
Proof. unfold loadAttempt. reads_steps. Qed.

(** Past the check of the owner nothing refuses. *)
Lemma polite_owned {A} id user (k : attemptCtx → M A) :
  (∀ a, never (k a)) → polite (a <- loadAttempt Pool id ;; if negb (String.eqb (cx_UserID a) user) then fail ErrForbidden else k a).
Proof.
  intros Hk. apply polite_reads; [apply reads_load|]. intros a. destruct (negb _); [|by apply polite_never].
  intros e n db err n' db' _ H _. by injection H as _ _ <-.
Qed.

Lemma polite_state id user : polite (GetAttemptState id user).
Proof.
  apply polite_owned. intros a. unfold attemptSections.
  never_steps.
Qed.

Lemma polite_live id user : polite (requireLiveAttempt id user).
Proof. apply polite_owned. intros a. never_steps. Qed.

Lemma polite_save req : polite (SaveAnswer req).
Proof.
  apply polite_writes; [apply polite_live|]. intros a. never_steps.
Qed.

Lemma polite_coding a u q : polite (AttemptCodingQuestion a u q).
Proof. apply polite_writes; [apply polite_live|]. intros x. never_steps. Qed.

Lemma never_record a q s l c : never (RecordCodeSubmission a q s l c).
Proof. unfold RecordCodeSubmission, record_body. never_steps. Qed.
#[local] Hint Resolve never_record : manners.

Lemma polite_code Submit a u q l c : polite (SubmitAttemptCode Submit a u q l c).
Proof. apply polite_writes; [apply polite_coding|]. intros p. never_steps. Qed.

Lemma polite_status a u s : polite (GetAttemptSubmissionStatus a u s).
Proof. apply polite_owned. intros x. never_steps. Qed.

Lemma polite_submit a u why : polite (SubmitAttempt a u why).
Proof.
  apply polite_writes; [apply polite_state|]. intros s. never_steps.
Qed.

Lemma polite_proctor req : polite (RecordProctorEvent req).
Proof. apply polite_owned. intros a. never_steps. Qed.

Lemma polite_result a u : polite (GetAttemptResult a u).
Proof. apply polite_owned. intros x. never_steps. Qed.

Lemma polite_transaction {A} bl cl (body : M A) : polite (transaction bl cl body).
Proof.
  intros e n db err n' db' He H Hr. apply transaction_atomic in H as [->|[-> _]]; [apply He|done].
Qed.

Lemma polite_fail {A} err : polite (A := A) (fail err).
Proof. intros e n db err' n' db' _ H _. by injection H as _ _ <-. Qed.

(** [polite_steps] goes through the reads before a transaction. *)
Ltac polite_steps :=
  repeat first
    [ apply polite_fail
    | apply polite_transaction
    | apply polite_never; solve [never_steps]
    | apply polite_reads; [solve [reads_steps]|intros ?]
    | progress (cbn beta zeta)
    | match goal with
      | |- polite (if ?b then _ else _) => destruct b eqn:?
      | |- polite (match ?o with _ => _ end) => destruct o eqn:?
      end ].

Context (IsUUID : string → bool).

Lemma reads_sections a seed sections : ∀ k paper, respects eq (build_sections a seed sections k paper).
Proof.
  induction sections as [|s t IH]; intros k paper; cbn [build_sections]; [reads_steps|].
  apply respects_bind; [apply _| |intros [picked k1]].
  - unfold pick_section, drawFromBank. reads_steps.
  - destruct (if am_ShuffleQuestions a then _ else _). apply IH.
Qed.
Lemma reads_paper a seed : respects eq (buildPaper a seed).
Proof.
  unfold buildPaper. apply respects_bind; [apply _|apply reads_sections|intros [paper k]]. unfold assignOptionOrder. reads_steps.
Qed.
#[local] Hint Resolve reads_paper : respects.

Lemma polite_start req : polite (StartAttempt IsUUID req).
Proof.
  unfold StartAttempt, GetAssessment, loadSections, practiceAudienceOK, resolveInvite, userEmail. polite_steps.
Qed.

(** The attempt a start answers with belongs to the candidate. *)
Lemma start_owner req e n db id n' db' a :
  alone e → StartAttempt IsUUID req e n db = (inl id, n', db') → find_ctx id db' = Some a → cx_UserID a = sa_UserId req.
Proof.
  intros He H Ha. apply find_ctx_inv in Ha as (at_ & s & Hat & _ & ->). cbn.
  run_bind H live n1 db1 Hm. run_read Hm. rewrite He in H. pose proof (live_attempt_spec IsUUID req db) as Hl.
  destruct (live_attempt _ _ db) as [lid|].
  { injection H as -> _ <-. destruct Hl as (a' & Ha' & _ & Hu & _). congruence. }
  clear Hl. run_bind H a0 n2 db2 Hm. destruct (negb _); [done|]. run_bind H t n3 db3 Hm1. cbv zeta in H.
  destruct (match parseTimeValue (am_OpensAt _) with Some o => _ | None => _ end); [done|].
  destruct (match parseTimeValue (am_ClosesAt _) with Some c => _ | None => _ end); [done|].
  run_bind H u n4 db4 Hm2. run_bind H inv n5 db5 Hm3. run_bind H used n6 db6 Hm4. destruct (_ <=? _); [done|].
  run_bind H seed n7 db7 Hm5. run_bind H paper n8 db8 Hm6. case_bool_decide; [done|].
  apply transaction_inv in H as (n9 & _ & H). apply start_body_inv in H as (max & _ & _ & _ & _ & Hdb & _).
  rewrite Hdb, lookup_insert_eq in Hat. by injection Hat as <-.
Qed.

Lemma polite_handle_start req : polite (HandleStart IsUUID req).
Proof.
  intros e n db err n' db' He H Hr. unfold HandleStart, bind in H.
  destruct (StartAttempt IsUUID req e n db) as [[[id|err1] n1] db1] eqn:E.
  - unfold GetAttemptState, bind at 1 in H. destruct (loadAttempt Pool id e n1 db1) as [[[a|err2] n2] db2] eqn:El.
    + apply loadAttempt_inv in El as (_ & -> & Ha). rewrite He in Ha, H. rewrite (start_owner _ _ _ _ _ _ _ _ He E Ha), String.eqb_refl in H.
      cbn [negb] in H. exfalso. revert Hr. revert H. generalize (interfere e n1 db1). intros d.
      match goal with |- ?m e n2 _ = _ → _ => assert (Hn : never m) by (unfold attemptSections; never_steps) end.
      intros H. by eapply Hn.
    + injection H as <- _ _. by destruct (never_load _ _ _ _ _ _ _ _ El).
  - injection H as <- _ <-. by eapply polite_start.
Qed.
End Never.

#[export] Hint Resolve never_authorize never_question never_retire never_import never_bank never_create never_update never_get
  never_tests never_publish never_delete never_section never_drop_section never_questions never_invite never_table never_report
  never_grade never_compute never_decide never_shortlists never_shortlist never_export never_available : manners.

Definition denial (c : RpcCode) : bool :=
  match c with Mapped (PermissionDenied | ResourceExhausted) => true | _ => false end.

(** A call that leaves the database as it was when it is denied. *)
Definition courteous (m : M (option RpcError)) : Prop :=
  ∀ e n db x n' db', alone e → m e n db = (inl (Some x), n', db') → denial (rp_Code x) → db' = db.

Lemma courteous_reply_with {A} wrong (m : M A) :
  polite m → (∀ err, denial (rp_Code (wrong err)) → refusal err) → courteous (status (reply_with wrong m)).
Proof.
  intros Hm Hw e n db x n' db' He H Hd. unfold status, reply_with, bind, attempt_ in H.
  destruct (m e n db) as [[[y|err] n1] db1] eqn:E; [done|]. injection H as <- _ <-. eapply Hm; [done|exact E|by apply Hw].
Qed.

Lemma courteous_reply {A} (m : M A) : polite m → courteous (status (reply m)).
Proof. intros Hm. apply courteous_reply_with; [done|]. by intros []. Qed.

Section Courtesy.
Context {PG : Postgres} {GR : GoRand} {GF : GoFormat} {PC : PgCase} {PS : PgSearch} {PL : PgCollation} {PR : PgScore} {RN : Random}.
Context (IsUUID : string → bool).
Context (Submit : string → string → string → string + string) (exec_RunCode : RunCodeRequest → result RunCodeResponse).

Lemma courteous_run req : courteous (status (Handler.RunAttemptCode exec_RunCode req)).
Proof.
  intros e n db x n' db' He H Hd. unfold status, Handler.RunAttemptCode, bind, attempt_ in H.
  destruct (AttemptCodingQuestion _ _ _ e n db) as [[[p|err] n1] db1] eqn:E; cbn in H.
  - destruct (exec_RunCode _) as [resp|]; [done|]. by injection H as <- _ _.
  - injection H as <- _ <-. eapply polite_coding; [done|exact E|by destruct err].
Qed.

(** C14.  Whatever method is called: a call that is answered with
    PermissionDenied or ResourceExhausted has changed nothing, whichever of its
    statements failed. *)
Theorem refusal_changes_nothing c e n db x n' db' :
  alone e → call IsUUID Submit exec_RunCode c e n db = (inl (Some x), n', db') → denial (rp_Code x) → db' = db.
Proof.
  intros He H Hd. assert (Hc : courteous (call IsUUID Submit exec_RunCode c)); [|by eapply Hc].
  clear. destruct c; cbn [call];
    first [apply courteous_run | apply courteous_reply_with; [|by intros []]|apply courteous_reply];
    first [apply polite_handle_start|apply polite_state|apply polite_save|apply polite_code|apply polite_status
          |apply polite_submit|apply polite_proctor|apply polite_result|apply polite_never];
    solve [auto with manners | unfold Companies.CreateCompany, Companies.ListCompanies, Companies.AddCompanyMember, Companies.ListCompanyMembers,
      Reports.ListInvites, Scoring.ListMyAttempts; never_steps].
Qed.
End Courtesy.
