(* ===== verification/Guarantee.v ===== *)
(** What no request does to an attempt, whatever runs beside it.

    [Evolves db db'] relates two moments of the database: an attempt keeps its
    identity, deadline and maximum, moves through its statuses in one direction
    only, never gains integrity; a question keeps its place, marks and options
    for good and its answer once the attempt is closed.  Every method of the
    service is shown to respect [Evolves] among requests that respect it, so
    any interleaving of requests does. *)

From S2P Require Import Prelude GoStrings Float64 Strconv Grading Worker Service Shop Store Scoring Attempts Authoring Results Answers.
From S2P Require Import Bank Companies Drafts Available Reports Confined Rpc.

#[local] Open Scope Z_scope.
#[local] Open Scope repo_scope.

(** ** The relation *)

(** The moves of the status column. *)
Definition can_become (s s' : AttemptStatus) : bool :=
  match s with
  | InProgress => negb (bool_decide (s' = Expired))
  | Submitted => settled s'
  | Evaluating | Evaluated => bool_decide (s' = Evaluating) || bool_decide (s' = Evaluated)
  | _ => bool_decide (s' = s)
  end.

Definition closed (a : AttemptRow) : Prop := at_status a ≠ InProgress.

Record attempt_evolves (a a' : AttemptRow) : Prop := {
  ev_identity : (at_assessment_id a', at_user_id a', at_invite_id a', at_attempt_no a', at_seed a')
                = (at_assessment_id a, at_user_id a, at_invite_id a, at_attempt_no a, at_seed a);
  ev_clock : (at_started_at a', at_expires_at a', at_max_score a')
             = (at_started_at a, at_expires_at a, at_max_score a);
  ev_status : can_become (at_status a) (at_status a') = true;
  ev_integrity : 0 ≤ at_integrity_score a → 0 ≤ at_integrity_score a' ≤ at_integrity_score a;
  ev_submitted : closed a → at_submitted_at a' = at_submitted_at a;
}.

(** What the paper fixes about a question, and what the candidate answers. *)
Definition paper_part (q : QuestionRow) :=
  (aq_attempt_id q, aq_section_id q, aq_kind q, aq_mcq_question_id q, aq_problem_id q,
   aq_order_index q, aq_marks q, aq_option_order q).

Definition answer_part (q : QuestionRow) :=
  (aq_selected_options q, aq_text_answer q, aq_time_spent_ms q, aq_visited q, aq_marked_review q).

Definition attempt_closed (db : DB) (attemptID : string) : Prop :=
  ∃ a, attempts db !! attemptID = Some a ∧ closed a.

Definition question_evolves (db : DB) (q q' : QuestionRow) : Prop :=
  paper_part q' = paper_part q ∧
  (attempt_closed db (aq_attempt_id q) → answer_part q' = answer_part q).

Record Evolves (db db' : DB) : Prop := {
  ev_attempts : ∀ id a, attempts db !! id = Some a →
    ∃ a', attempts db' !! id = Some a' ∧ attempt_evolves a a';
  ev_questions : ∀ id q, attempt_questions db !! id = Some q →
    ∃ q', attempt_questions db' !! id = Some q' ∧ question_evolves db q q';
  ev_new : ∀ id q', attempt_questions db' !! id = Some q' → attempt_questions db !! id = None →
    attempts db !! aq_attempt_id q' = None;
}.

Lemma can_become_refl s : can_become s s = true.
Proof. by destruct s. Qed.

Lemma can_become_trans s t u : can_become s t = true → can_become t u = true → can_become s u = true.
Proof. by destruct s, t, u. Qed.

Lemma can_become_closed s t : can_become s t = true → s ≠ InProgress → t ≠ InProgress.
Proof. by destruct s, t. Qed.

Lemma attempt_evolves_refl a : attempt_evolves a a.
Proof. constructor; try done; apply can_become_refl. Qed.

Lemma attempt_evolves_trans a b c : attempt_evolves a b → attempt_evolves b c → attempt_evolves a c.
Proof.
  intros [I1 C1 S1 P1 T1] [I2 C2 S2 P2 T2]. constructor.
  - by rewrite I2.
  - by rewrite C2.
  - by eapply can_become_trans.
  - intros H. specialize (P1 H). specialize (P2 (proj1 P1)). lia.
  - intros H. rewrite T2; [by apply T1|]. by eapply can_become_closed.
Qed.

Lemma closed_evolves db db' id : Evolves db db' → attempt_closed db id → attempt_closed db' id.
Proof.
  intros H (a & Ha & Hc). destruct (ev_attempts _ _ H _ _ Ha) as (a' & Ha' & He).
  exists a'. split; [done|]. eapply can_become_closed; [apply He|done].
Qed.

#[export] Instance evolves_preorder : PreOrder Evolves.
Proof.
  split.
  - intros db. constructor.
    + intros id a Ha. exists a. split; [done|apply attempt_evolves_refl].
    + intros id q Hq. exists q. by repeat split.
    + intros id q H1 H2. congruence.
  - intros d1 d2 d3 H1 H2. constructor.
    + intros id a Ha. destruct (ev_attempts _ _ H1 _ _ Ha) as (b & Hb & E1).
      destruct (ev_attempts _ _ H2 _ _ Hb) as (c & Hc & E2). exists c.
      split; [done|by eapply attempt_evolves_trans].
    + intros id q Hq. destruct (ev_questions _ _ H1 _ _ Hq) as (r & Hr & P1 & A1).
      destruct (ev_questions _ _ H2 _ _ Hr) as (s & Hs & P2 & A2). exists s.
      split; [done|]. split; [by rewrite P2|]. intros Hc. rewrite A2; [by apply A1|].
      assert (E : aq_attempt_id r = aq_attempt_id q) by (unfold paper_part in P1; congruence).
      rewrite E. by eapply closed_evolves.
    + intros id s Hs Hn. destruct (attempt_questions d2 !! id) as [r|] eqn:Hr.
      * destruct (ev_questions _ _ H2 _ _ Hr) as (s' & Hs' & P2 & _).
        assert (s' = s) as -> by congruence.
        assert (E : aq_attempt_id s = aq_attempt_id r) by (unfold paper_part in P2; congruence).
        rewrite E. by eapply ev_new.
      * apply (ev_new _ _ H2) in Hs; [|done].
        destruct (attempts d1 !! aq_attempt_id s) as [a|] eqn:Ha; [|done].
        destruct (ev_attempts _ _ H1 _ _ Ha) as (a' & Ha' & _). congruence.
Qed.

(** ** Single statements *)

(** Changes that touch neither attempts nor questions. *)
Lemma evolves_other db db' :
  attempts db' = attempts db → attempt_questions db' = attempt_questions db → Evolves db db'.
Proof.
  intros Ha Hq. constructor; rewrite ?Ha, ?Hq.
  - intros id a ->. exists a. split; [done|apply attempt_evolves_refl].
  - intros id q ->. exists q. by repeat split.
  - intros id q -> H. congruence.
Qed.

(** A question update that keeps the paper part, and the answer part unless
    the attempt is live. *)
Lemma evolves_update_question id f db :
  (∀ q, attempt_questions db !! id = Some q → question_evolves db q (f q)) →
  Evolves db (with_questions (update_row id f) db).
Proof.
  intros Hf. constructor; simpl.
  - intros aid a Ha. exists a. split; [done|apply attempt_evolves_refl].
  - intros qid q Hq. unfold update_row. destruct (decide (qid = id)) as [->|Hne].
    + exists (f q). rewrite lookup_alter_eq, Hq. split; [done|by apply Hf].
    + exists q. rewrite lookup_alter_ne by done. by repeat split.
  - intros qid q'. unfold update_row. rewrite lookup_alter_Some.
    intros [(-> & q & Hq & _)|[_ Hq]] Hn; congruence.
Qed.

Lemma evolves_update_attempt id f db :
  (∀ a, attempts db !! id = Some a → attempt_evolves a (f a)) →
  Evolves db (with_attempts (update_row id f) db).
Proof.
  intros Hf. constructor; simpl.
  - intros aid a Ha. unfold update_row. destruct (decide (aid = id)) as [->|Hne].
    + exists (f a). rewrite lookup_alter_eq, Ha. split; [done|by apply Hf].
    + exists a. rewrite lookup_alter_ne by done. split; [done|apply attempt_evolves_refl].
  - intros qid q Hq. exists q. by repeat split.
  - intros qid q' H1 H2. congruence.
Qed.

Lemma set_score_evolves now z sections p a : attempt_evolves a (set_score now z sections p a).
Proof.
  constructor; try done; simpl.
  destruct (at_status a) eqn:E; simpl; try done; by destruct p.
Qed.

Lemma update_live_evolves qid aid f db n db' :
  (∀ q, paper_part (f q) = paper_part q) → update_live qid aid f db = (n, db') → Evolves db db'.
Proof.
  intros Hf. unfold update_live. destruct (attempt_questions db !! qid) as [q|] eqn:Hq;
    [|by intros [= <- <-]].
  destruct (String.eqb_spec (aq_attempt_id q) aid) as [Ea|]; [|by intros [= <- <-]]. simpl.
  unfold stillLive. destruct (attempts db !! aid) as [a|] eqn:Ha; [|by intros [= <- <-]].
  case_bool_decide as Hs; [|by intros [= <- <-]]. intros [= <- <-].
  apply evolves_update_question. intros q'' Hq''. simplify_eq. split; [apply Hf|].
  intros (a' & Ha' & Hc). simplify_eq. by destruct Hc.
Qed.

Lemma save_mark_evolves `{!Postgres} id m db x db' : save_mark id m db = Some (x, db') → Evolves db db'.
Proof.
  unfold save_mark. destruct (num_param _ _); [|done]. intros [= <- <-].
  apply evolves_update_question. done.
Qed.

Lemma save_coding_mark_evolves `{!Postgres} id b db x db' :
  save_coding_mark id b db = Some (x, db') → Evolves db db'.
Proof.
  unfold save_coding_mark. destruct (num_param _ _); [|done]. intros [= <- <-].
  apply evolves_update_question. done.
Qed.

Lemma save_score_evolves `{!Postgres} id t s p now db x db' :
  save_score id t s p now db = Some (x, db') → Evolves db db'.
Proof.
  unfold save_score. destruct (greatest_param t) as [z|]; [|done]. cbn zeta.
  destruct (_ <? _); [|done]. intros [= <- <-].
  apply evolves_update_attempt. intros a _. apply set_score_evolves.
Qed.

(** ** The methods *)

Section Methods.
Context {PG : Postgres} {PL : PostgresLaws PG}.

Abbreviation keeps := (respects Evolves).

(** A transaction keeps [Evolves] when its successful runs do. *)
Lemma keeps_transaction {A} bl cl (body : M A) :
  (∀ e n db x n' db', body e n db = (inl x, n', db') → Evolves db db') →
  keeps (transaction bl cl body).
Proof. apply respects_transaction_whole. typeclasses eauto. Qed.

Lemma keeps_read {A} q label (f : Stamp → DB → option A) :
  keeps (statement q label (λ st db, match f st db with Some x => Some (x, db) | None => None end)).
Proof.
  apply respects_statement; [typeclasses eauto|]. intros st db x db'.
  destruct (f st db); [|done]. by intros [= <- <-].
Qed.

Lemma keeps_loadAttempt q id : keeps (loadAttempt q id).
Proof. unfold loadAttempt. respects_steps. Qed.

Lemma keeps_loadSummary id : keeps (loadSummary id).
Proof. unfold loadSummary. respects_steps. Qed.

Lemma keeps_recompute q id : keeps (recompute q id).
Proof.
  unfold recompute. respects_steps.
  apply respects_statement; [typeclasses eauto|]. intros *. apply save_score_evolves.
Qed.

Lemma apply_marks_evolves ms db db' : apply_marks ms db = Some db' → Evolves db db'.
Proof.
  revert db. induction ms as [|[id m] ms IH]; intros db; simpl; [by intros [= <-]|].
  destruct (save_mark id m db) as [[x db1]|] eqn:E; [|done]. intros H.
  etrans; [by eapply save_mark_evolves|by apply IH].
Qed.

Lemma apply_marks_attempts ms db db' : apply_marks ms db = Some db' → attempts db' = attempts db.
Proof.
  revert db. induction ms as [|[id m] ms IH]; intros db; simpl; [by intros [= <-]|].
  unfold save_mark. destruct (num_param _ _); [|done]. intros H. by rewrite (IH _ H).
Qed.

Lemma submit_invite_evolves id db : Evolves db (submit_invite id db).
Proof.
  unfold submit_invite. destruct (attempts db !! id) as [a|]; [|reflexivity].
  destruct (at_invite_id a); [|reflexivity]. by apply evolves_other.
Qed.

Lemma finalize_effect_evolves id reason order t1 t2 a db db' :
  find_ctx id db = Some a → cx_Status a = InProgress →
  finalize_effect id reason order t1 t2 a db = Some db' → Evolves db db'.
Proof.
  intros Ha Hs. apply find_ctx_inv in Ha as (at_ & s & Hat & _ & ->). simpl in Hs.
  unfold finalize_effect. destruct (apply_marks _ _) as [db1|] eqn:Em; [|done].
  pose proof (apply_marks_attempts _ _ _ Em) as Hatt. apply apply_marks_evolves in Em.
  unfold recompute_effect. destruct (save_score _ _ _ _ _ _) as [[x db4]|] eqn:E; [|done].
  intros [= <-]. apply save_score_evolves in E.
  etrans; [exact Em|]. etrans; [|etrans; [apply (submit_invite_evolves id)|exact E]].
  unfold close_attempt. apply evolves_update_attempt. intros a'.
  rewrite Hatt, Hat. intros [= <-]. constructor; simpl; try done.
  rewrite Hs. unfold closing_status. by destruct (String.eqb reason "proctor").
Qed.

Lemma keeps_finalize id reason : keeps (FinalizeAttempt id reason).
Proof.
  unfold FinalizeAttempt. apply respects_bind; [typeclasses eauto| |intros _; apply keeps_loadSummary].
  apply keeps_transaction. intros e n db x n' db' H.
  apply finalize_body_inv in H as (a & Ha & [[_ ->]|(Hs & order & t1 & t2 & _ & H)]); [reflexivity|].
  by eapply finalize_effect_evolves.
Qed.

Hint Resolve keeps_loadAttempt keeps_loadSummary keeps_recompute keeps_finalize : respects.

Ltac keeps_statement := apply respects_statement; [typeclasses eauto|]; intros.

Lemma keeps_apply_graded sub status passed total : keeps (ApplyGradedSubmission sub status passed total).
Proof.
  unfold ApplyGradedSubmission. respects_steps; keeps_statement; simplify_eq.
  - case_match; simplify_eq. by apply evolves_other.
  - reflexivity.
  - by eapply save_coding_mark_evolves.
Qed.

Lemma keeps_grade_descriptive aid qid m : keeps (GradeDescriptive aid qid m).
Proof.
  unfold GradeDescriptive. respects_steps. keeps_statement. by eapply save_mark_evolves.
Qed.

Lemma keeps_expire_loop ids c : keeps (expire_loop ids c).
Proof.
  revert c. induction ids as [|id ids IH]; intros c; simpl; [apply respects_ret; typeclasses eauto|].
  respects_steps; apply IH.
Qed.

Lemma keeps_expire : keeps ExpireDueAttempts.
Proof.
  unfold ExpireDueAttempts. apply respects_bind; [typeclasses eauto| |intros ids; apply keeps_expire_loop].
  keeps_statement. simplify_eq. reflexivity.
Qed.

Lemma keeps_attempt_questions id b : keeps (attemptQuestions id b).
Proof. unfold attemptQuestions. respects_steps. Qed.

Lemma keeps_sections id : keeps (attemptSections id).
Proof. apply respects_select. typeclasses eauto. Qed.

Hint Resolve keeps_attempt_questions keeps_sections : respects.

Lemma keeps_state id u : keeps (GetAttemptState id u).
Proof. unfold GetAttemptState. respects_steps. Qed.

Lemma keeps_require_live id u : keeps (requireLiveAttempt id u).
Proof. unfold requireLiveAttempt. respects_steps. Qed.

Lemma keeps_require_earlier id i : keeps (requireEarlierAnswered id i).
Proof. unfold requireEarlierAnswered. respects_steps. Qed.

Hint Resolve keeps_state keeps_require_live keeps_require_earlier : respects.

Lemma keeps_save_answer req : keeps (SaveAnswer req).
Proof.
  unfold SaveAnswer. respects_steps; keeps_statement.
  - unfold draft_statement in *. destruct (int_param _); simplify_eq.
    eapply update_live_evolves; [|eassumption]; done.
  - unfold selection_statement in *. destruct (uuids _); [|done]. destruct (int_param _); simplify_eq.
    eapply update_live_evolves; [|eassumption]; done.
Qed.

Lemma keeps_coding_question a u q : keeps (AttemptCodingQuestion a u q).
Proof. unfold AttemptCodingQuestion. respects_steps. Qed.

Lemma keeps_record a q s l c : keeps (RecordCodeSubmission a q s l c).
Proof.
  unfold RecordCodeSubmission. respects_steps. unfold record_body. respects_steps. all: keeps_statement.
  - unfold insert_submission in *. destruct (attempt_submissions _ !! _); simplify_eq; [reflexivity|].
    destruct (bool_decide _); simplify_eq. by apply evolves_other.
  - simplify_eq. eapply update_live_evolves; [|eassumption]. done.
Qed.

Lemma keeps_status a u s : keeps (GetAttemptSubmissionStatus a u s).
Proof. unfold GetAttemptSubmissionStatus. respects_steps. Qed.

Lemma penalty_nonneg kind : fleb (S754_zero false) (IntegrityPenalty kind) = true.
Proof.
  unfold IntegrityPenalty. destruct (find _ _) as [[ks p]|] eqn:E; [|by vm_compute].
  apply find_some in E as [E _]. simpl in E. destruct_or!; simplify_eq; by vm_compute.
Qed.

Lemma keeps_proctor req : keeps (RecordProctorEvent req).
Proof.
  unfold RecordProctorEvent. respects_steps. keeps_statement.
  unfold proctor_statement in *. destruct (attempts _ !! _) as [a|] eqn:Ea; [|done].
  destruct (num_param _ _) as [p|] eqn:Ep; [|done]. simplify_eq.
  apply num_param_nonneg in Ep; [|apply penalty_nonneg].
  etrans; [|apply evolves_update_attempt; intros a' Ha'; constructor; try done; simpl].
  - by apply evolves_other.
  - apply can_become_refl.
  - lia.
Qed.

Lemma keeps_result a u : keeps (GetAttemptResult a u).
Proof. unfold GetAttemptResult. respects_steps. Qed.

Lemma keeps_submit a u r : keeps (SubmitAttempt a u r).
Proof. unfold SubmitAttempt. respects_steps. Qed.

Context {GR : GoRand} {GF : GoFormat} (IsUUID : string → bool).

Lemma keeps_build_paper a seed : keeps (buildPaper a seed).
Proof.
  unfold buildPaper. apply respects_bind; [typeclasses eauto| |].
  - generalize (@nil paperQuestion). generalize 0%nat. induction (am_Sections a) as [|s l IH];
      intros k acc; simpl; [apply respects_ret; typeclasses eauto|].
    apply respects_bind; [typeclasses eauto| |].
    + unfold pick_section, drawFromBank. respects_steps.
    + intros [picked k']. destruct (if am_ShuffleQuestions a then _ else _). apply IH.
  - intros [paper k]. unfold assignOptionOrder. respects_steps.
    keeps_statement. simplify_eq. reflexivity.
Qed.

(** A guard that refuses the request. *)
Ltac refuse_step :=
  match goal with
  | |- respects _ (if ?b then _ else _) => destruct b; [apply respects_fail; typeclasses eauto|]
  end.

Lemma keeps_start req : keeps (StartAttempt IsUUID req).
Proof.
  unfold StartAttempt. apply respects_bind; [typeclasses eauto|apply respects_select; typeclasses eauto|].
  intros [id|]; [apply respects_ret; typeclasses eauto|].
  apply respects_bind; [typeclasses eauto| |intros a].
  { unfold GetAssessment, loadSections. respects_steps. }
  refuse_step.
  apply respects_bind; [typeclasses eauto|apply respects_now; typeclasses eauto|intros t].
  refuse_step. refuse_step.
  apply respects_bind; [typeclasses eauto| |intros _].
  { unfold practiceAudienceOK. respects_steps. }
  apply respects_bind; [typeclasses eauto| |intros inv].
  { unfold resolveInvite, userEmail. respects_steps; keeps_statement; simplify_eq; reflexivity. }
  apply respects_bind; [typeclasses eauto|apply respects_select; typeclasses eauto|intros used].
  refuse_step.
  apply respects_bind; [typeclasses eauto|apply respects_seed; typeclasses eauto|intros seed].
  apply respects_bind; [typeclasses eauto|apply keeps_build_paper|intros paper].
  refuse_step.
  apply keeps_transaction. intros e n db x n' db' H.
  apply start_body_inv in H as (max & _ & Hnone & _ & _ & Ha & Hold & Hnew & _).
  constructor.
  - intros id at_ Hat. exists at_. split; [|apply attempt_evolves_refl].
    rewrite Ha, lookup_insert_ne; [done|congruence].
  - intros id q Hq. exists q. split; [by apply Hold|by repeat split].
  - intros id q' Hq' Hn. destruct (Hnew _ _ Hq') as [?|(q & m & _ & _ & ->)]; [congruence|done].
Qed.

(** *** The other methods *)

(** [keeps_aside] is for methods whose statements stay away from attempts. *)
Ltac keeps_aside :=
  respects_steps;
  try (keeps_statement; repeat case_match; simplify_option_eq; first [reflexivity|by apply evolves_other]).

Context {PC : PgCase} {PS : PgSearch} {PO : PgCollation} {PR : PgScore} {RN : Random}.

Lemma keeps_insert_options q options : ∀ i, keeps (insert_options q i options).
Proof. induction options as [|o t IH]; intros i; cbn [insert_options]; [keeps_aside|]. unfold insert_option. keeps_aside. Qed.
Hint Resolve keeps_insert_options : respects.
Lemma keeps_question req : keeps (UpsertMcqQuestion req).
Proof. unfold UpsertMcqQuestion, store_question, insert_question, update_question. keeps_aside. Qed.
Hint Resolve keeps_question : respects.

Lemma keeps_retire id scope : keeps (DeleteMcqQuestion id scope).
Proof. unfold DeleteMcqQuestion, retire_question. keeps_aside. Qed.
Lemma keeps_imports req qs : ∀ row out, keeps (import_rows req row qs out).
Proof. induction qs as [|[q|] t IH]; intros row out; cbn [import_rows]; keeps_aside; apply IH. Qed.
Lemma keeps_import req : keeps (BulkImportMcq req).
Proof. unfold BulkImportMcq. apply respects_bind; [typeclasses eauto|apply keeps_imports|intros out]. keeps_aside. Qed.
Lemma keeps_bank_page req : keeps (ListMcqQuestions req).
Proof. unfold ListMcqQuestions. keeps_aside. Qed.
Lemma keeps_authorize req : keeps (Authorize req).
Proof. unfold Authorize, assessmentCompany, member_check. keeps_aside. Qed.
Lemma keeps_create actor a : keeps (CreateAssessment actor a).
Proof. unfold CreateAssessment, insert_draft. keeps_aside. Qed.
Lemma keeps_update a : keeps (UpdateAssessment a).
Proof. unfold UpdateAssessment, update_draft. keeps_aside. Qed.
Lemma keeps_get id : keeps (GetAssessment id).
Proof. unfold GetAssessment, loadSections. keeps_aside. Qed.
Hint Resolve keeps_get : respects.
Lemma keeps_tests req : keeps (ListAssessments req).
Proof. unfold ListAssessments. keeps_aside. Qed.
Lemma keeps_publish req : keeps (PublishAssessment req).
Proof. unfold PublishAssessment, update_status. keeps_aside. Qed.
Lemma keeps_section s : keeps (UpsertSection s).
Proof. unfold UpsertSection. keeps_aside. Qed.
Lemma keeps_drop_section id : keeps (DeleteSection id).
Proof. unfold DeleteSection. keeps_aside. Qed.
Lemma keeps_list section qs : ∀ i, keeps (insert_list section i qs).
Proof. induction qs as [|q t IH]; intros i; cbn [insert_list]; unfold insert_listed; keeps_aside; apply IH. Qed.
Hint Resolve keeps_list : respects.
Lemma keeps_questions req : keeps (SetSectionQuestions req).
Proof. unfold SetSectionQuestions. keeps_aside. Qed.
Lemma keeps_token : keeps inviteToken.
Proof. intros e n db r n' db' _ H. unfold inviteToken in H. destruct (randomToken n 24); by injection H as _ _ <-. Qed.
Hint Resolve keeps_token : respects.
Lemma keeps_invites req emails : ∀ seen out, keeps (invite_loop req seen emails out).
Proof. induction emails as [|raw t IH]; intros seen out; cbn [invite_loop]; unfold insert_invite; keeps_aside; apply IH. Qed.
Lemma keeps_available req : keeps (ListAvailableAssessments req).
Proof. unfold ListAvailableAssessments, userEmail. keeps_aside. Qed.
Lemma keeps_table req : keeps (ListAttempts req).
Proof. unfold ListAttempts. keeps_aside. Qed.
Lemma keeps_report id : keeps (GetAttemptReport id).
Proof. unfold GetAttemptReport, proctorEvents. keeps_aside. Qed.
Lemma keeps_compute req : keeps (ComputeShortlist req).
Proof. unfold ComputeShortlist, saveShortlist, insert_shortlist, insert_entry. keeps_aside. Qed.
Lemma keeps_decide s a d t : keeps (SetCandidateDecision s a d t).
Proof. unfold SetCandidateDecision. keeps_aside. Qed.
Lemma keeps_shortlists id : keeps (ListShortlists id).
Proof. unfold ListShortlists. keeps_aside. Qed.
Lemma keeps_shortlist id : keeps (GetShortlist id).
Proof. unfold GetShortlist. keeps_aside. Qed.
Lemma keeps_export t s : keeps (ExportResults t s).
Proof. unfold ExportResults. keeps_aside. Qed.

(** What the service does: its gRPC methods, verdicts from the consumer, and
    the sweeper. *)
Inductive Request :=
  | RCall (c : Call)
  | RVerdict (submissionID status : string) (passed total : Z)
  | RSweep.

(** Every request but the removal of a test, which takes its attempts along. *)
Definition spares (r : Request) : Prop := match r with RCall (CDeleteAssessment _) => False | _ => True end.

Context (Submit : string → string → string → string + string) (exec_RunCode : RunCodeRequest → result RunCodeResponse).

Definition discard {A} (m : M A) : M unit := m ;; ret tt.

Definition serve (r : Request) : M unit :=
  match r with
  | RCall c => discard (call IsUUID Submit exec_RunCode c)
  | RVerdict s st p t => ApplyGradedSubmission s st p t
  | RSweep => discard ExpireDueAttempts
  end.

Lemma keeps_discard {A} (m : M A) : keeps m → keeps (discard m).
Proof. intros Hm. unfold discard. respects_steps. Qed.

Lemma keeps_reply {A} wrong (m : M A) : keeps m → keeps (status (reply_with wrong m)).
Proof. intros Hm. unfold status, reply_with. respects_steps. Qed.

Lemma keeps_handle_start req : keeps (HandleStart IsUUID req).
Proof. unfold HandleStart. apply respects_bind; [typeclasses eauto|apply keeps_start|intros; apply keeps_state]. Qed.

Lemma keeps_submit_code a u q l c : keeps (SubmitAttemptCode Submit a u q l c).
Proof.
  unfold SubmitAttemptCode. apply respects_bind; [typeclasses eauto|apply keeps_coding_question|intros p].
  destruct (Submit _ _ _); [|apply respects_fail; typeclasses eauto].
  apply respects_bind; [typeclasses eauto|apply keeps_record|intros t]. apply respects_ret. typeclasses eauto.
Qed.

Lemma keeps_run req : keeps (status (Handler.RunAttemptCode exec_RunCode req)).
Proof.
  unfold status, Handler.RunAttemptCode. apply respects_bind; [typeclasses eauto| |intros x; apply respects_ret; typeclasses eauto].
  apply respects_bind; [typeclasses eauto|apply respects_attempt, keeps_coding_question|intros x; apply respects_ret; typeclasses eauto].
Qed.

Hint Resolve keeps_retire keeps_import keeps_bank_page keeps_authorize keeps_create keeps_update keeps_tests keeps_publish keeps_section
  keeps_drop_section keeps_questions keeps_available keeps_table keeps_report keeps_compute keeps_decide keeps_shortlists keeps_shortlist
  keeps_export keeps_handle_start keeps_submit_code keeps_status keeps_proctor keeps_result keeps_submit keeps_save_answer
  keeps_grade_descriptive : respects.

Lemma keeps_call c : spares (RCall c) → keeps (call IsUUID Submit exec_RunCode c).
Proof.
  destruct c; cbn [call]; intros Hs; try done; first [apply keeps_run|apply keeps_reply];
    first [by eauto 2 with respects typeclass_instances|apply keeps_invites
          |unfold Companies.CreateCompany, insert_company, Companies.ListCompanies, Companies.AddCompanyMember, Companies.ListCompanyMembers,
             Reports.ListInvites, Scoring.ListMyAttempts; keeps_aside].
Qed.

Lemma keeps_serve r : spares r → keeps (serve r).
Proof.
  destruct r; intros Hs; [by apply keeps_discard, keeps_call|apply keeps_apply_graded|apply keeps_discard, keeps_expire].
Qed.
End Methods.

(** ** Any number of requests *)

Section Interleaving.
Context {PG : Postgres} {PL : PostgresLaws PG} {GR : GoRand} {GF : GoFormat} {PC : PgCase} {PS : PgSearch} {PO : PgCollation} {PR : PgScore} {RN : Random}.
Context (IsUUID : string → bool).
Context (Submit : string → string → string → string + string) (exec_RunCode : RunCodeRequest → result RunCodeResponse).

(** A client that serves one request after another, whatever each answers. *)
Definition serve_all (rs : list Request) : M unit :=
  mapM_ (λ r, discard (attempt_ (serve IsUUID Submit exec_RunCode r))) rs.

Lemma keeps_serve_all rs : Forall spares rs → respects Evolves (serve_all rs).
Proof.
  intros Hs. unfold serve_all. apply respects_mapM; [typeclasses eauto|]. intros r Hr.
  apply keeps_discard, respects_attempt, keeps_serve. by eapply Forall_forall in Hs.
Qed.

(** The database after a request was served alone. *)
Definition after (r : Request) (e : Env) (n : nat) (db : DB) : DB := (serve IsUUID Submit exec_RunCode r e n db).2.

(** Environments whose interference is requests served by other replicas of
    the service, to any depth of nesting. *)
Inductive served_beside : Env → Prop :=
  | beside_none e : (∀ n db, interfere e n db = db) → served_beside e
  | beside_requests e (others : nat → list (Request * Env * nat)) :
      (∀ n, Forall (λ o, spares o.1.1 ∧ served_beside o.1.2) (others n)) →
      (∀ n db, interfere e n db = fold_left (λ db o, after o.1.1 o.1.2 o.2 db) (others n) db) →
      served_beside e.

Lemma served_beside_quiet e : served_beside e → quiet_env Evolves e.
Proof.
  revert e. fix IH 2. intros e [e' Hi|e' others Hall Hi] n db; rewrite Hi; [reflexivity|].
  specialize (Hall n). clear Hi. revert db.
  induction Hall as [|[[r eo] k] l Ho Hl IHl]; intros db; simpl; [reflexivity|].
  etrans; [|apply IHl]. unfold after. simpl in Ho. destruct Ho as [Hr Ho].
  destruct (serve IsUUID Submit exec_RunCode r eo k db) as [[x n1] db1] eqn:E. simpl.
  eapply keeps_serve; [exact Hr|apply IH, Ho|exact E].
Qed.



Lemma closed_not_live e n db id a :
  quiet_env Evolves e → attempt_closed db id → find_ctx id (interfere e n db) = Some a →
  cx_Status a ≠ InProgress.
Proof.
  intros He Hc Ha. apply find_ctx_inv in Ha as (at_ & s & Hat & _ & ->).
  destruct (closed_evolves _ _ _ (He n db) Hc) as (a' & Ha' & Hcl). simpl. congruence.
Qed.

Lemma closed_not_stillLive db id : attempt_closed db id → stillLive id db = false.
Proof. intros (a & Ha & Hc). unfold stillLive. rewrite Ha. by apply bool_decide_eq_false. Qed.

Lemma record_closed e n db a q s l c :
  quiet_env Evolves e → attempt_closed db a → ∀ left n' db',
  RecordCodeSubmission a q s l c e n db ≠ (inl left, n', db').
Proof.
  intros He Hc left n' db' H. run_bind H u n1 db1 Ht. apply transaction_inv in Ht as (n2 & -> & Ht).
  run_bind Ht u1 n3 db3 Hm. run_stmt Hm. run_bind Ht k n4 db4 Hu. run_stmt Hu. injection Hu as Hu.
  apply update_live_inv in Hu as [[-> _]|(_ & Hlive & _)]; [done|].
  assert (Hcl : attempt_closed (interfere e n db) a) by (eapply closed_evolves; [apply He|done]).
  assert (E : attempts db3 = attempts (interfere e n db)).
  { unfold insert_submission in Hm. destruct (attempt_submissions _ !! _); [by injection Hm as _ <-|].
    destruct (bool_decide _); [|done]. by injection Hm as _ <-. }
  apply closed_not_stillLive in Hcl. unfold stillLive in Hlive, Hcl. rewrite E in Hlive. congruence.
Qed.

(** On a closed attempt no save and no code submission ever
    succeeds, whatever runs beside it: not through the handlers, nor when the
    submission is recorded after its check passed. *)
Theorem closed_refuses e n db id :
  served_beside e → attempt_closed db id →
  (∀ req left n' db', sv_AttemptId req = id → SaveAnswer req e n db ≠ (inl left, n', db')) ∧
  (∀ Submit' user qid lang code out n' db',
     SubmitAttemptCode Submit' id user qid lang code e n db ≠ (inl out, n', db')) ∧
  (∀ qid sub lang code left n' db',
     RecordCodeSubmission id qid sub lang code e n db ≠ (inl left, n', db')).
Proof.
  intros He%served_beside_quiet Hc. split_and!.
  - intros req left n' db' <- H.
    apply SaveAnswer_inv in H as (a & dbw & q & q' & Ha & _ & Hs & _).
    by eapply closed_not_live in Ha.
  - intros Submit' user qid lang code out n' db' H. run_bind H p n1 db1 Hm.
    run_bind Hm a n2 db2 Hl. apply requireLiveAttempt_inv in Hl as (_ & -> & Ha & _ & Hs & _).
    by eapply closed_not_live in Ha.
  - intros. by apply record_closed.
Qed.

Lemma finalize_closes id reason e n db s n' db' :
  quiet_env Evolves e → FinalizeAttempt id reason e n db = (inl s, n', db') → attempt_closed db' id.
Proof.
  intros He H. run_bind H u n1 db1 Ht. apply transaction_inv in Ht as (n2 & -> & Ht).
  eapply closed_evolves; [by eapply keeps_loadSummary|].
  apply finalize_body_inv in Ht as (a & Ha & Hb).
  apply find_ctx_inv in Ha as (at_ & as_ & Hat & _ & ->).
  destruct Hb as [[Hc ->]|(_ & order & t1 & t2 & _ & Hb)]; [by exists at_|].
  apply finalize_effect_inv in Hb as (_ & _ & _ & z & _ & _ & Hnew); [|done].
  eexists. split; [exact Hnew|]. unfold closed. simpl. unfold closing_status.
  destruct (String.eqb reason "proctor"); simpl; [done|]. by destruct (0 <? _).
Qed.

(** The loop closes every attempt it does not report as failed. *)
Lemma expire_loop_closes ids e : quiet_env Evolves e → ∀ n db c c' n' db',
  expire_loop ids c e n db = (inl c', n', db') →
  ∃ failed, failed ⊆ ids ∧ c' + Z.of_nat (length failed) = c + Z.of_nat (length ids) ∧
    ∀ id, id ∈ ids → id ∉ failed → attempt_closed db' id.
Proof.
  intros He. induction ids as [|id ids IH]; intros n db c c' n' db' H; simpl in H.
  { injection H as <- <- <-. exists []. split_and!; [done|simpl; lia|]. intros id Hid. by apply elem_of_nil in Hid. }
  run_bind H r n1 db1 Hm. unfold attempt_ in Hm.
  destruct (FinalizeAttempt id "timeout" e n db) as [[r0 n0] db0] eqn:E. injection Hm as <- <- <-.
  assert (Hev : Evolves db0 db').
  { destruct r0; by eapply keeps_expire_loop. }
  destruct r0 as [s|err]; apply IH in H as (failed & Hsub & Hlen & Hall).
  - exists failed. split_and!; [set_solver|simpl; lia|].
    intros i [->|Hi]%elem_of_cons Hf; [|by apply Hall].
    eapply closed_evolves; [exact Hev|]. by eapply finalize_closes.
  - exists (id :: failed). split_and!; [set_solver|simpl; lia|].
    intros i [->|Hi]%elem_of_cons Hf; [set_solver|]. apply Hall; set_solver.
Qed.

End Interleaving.
