(* ===== verification/Sound.v ===== *)
(** What every request of the assessment service keeps.

    [service_sound]: whatever calls, verdicts and sweeps are served, in
    whatever interleaving and with whatever failures, the tests stay well
    formed (Drafts.v) and the questions of the bank answerable (Bank.v).  The
    methods fall into those that stay away from both tables ([Aside]), those
    that write tests, and those that write the bank. *)

From S2P Require Import Prelude GoStrings Float64 Strconv Grading Worker Service Shop Store Scoring Attempts Papers Authoring Results Answers.
From S2P Require Import Bank Companies Drafts Available Reports Confined Rpc Guarantee.

#[local] Open Scope Z_scope.
#[local] Open Scope repo_scope.

(** ** Methods that stay away from tests and bank *)

Definition tests_and_bank (db : DB) := (assessments db, mcq_questions db, mcq_options db).

Section Aside.
Context {PG : Postgres} {GR : GoRand} {GF : GoFormat} {PS : PgSearch} {PO : PgCollation} {PC : PgScore} {RN : Random}.
Context (G : DB → DB → Prop) `{!PreOrder G} (aside : ∀ db db', tests_and_bank db' = tests_and_bank db → G db db').

Ltac aside_statement := apply respects_statement; [typeclasses eauto|]; intros.
Ltac aside_steps :=
  respects_steps;
  try (aside_statement; repeat case_match; simplify_option_eq; first [reflexivity|by apply aside]).

Lemma aside_load q id : respects G (loadAttempt q id).
Proof. unfold loadAttempt. aside_steps. Qed.
Lemma aside_summary id : respects G (loadSummary id).
Proof. unfold loadSummary. aside_steps. Qed.
Lemma aside_recompute q id : respects G (recompute q id).
Proof. unfold recompute, save_score. aside_steps. Qed.
Hint Resolve aside_load aside_summary aside_recompute : respects.

Lemma aside_finalize id why : respects G (FinalizeAttempt id why).
Proof.
  unfold FinalizeAttempt, finalize_body, gradeObjective, save_mark, submit_invite. aside_steps.
Qed.
Hint Resolve aside_finalize : respects.

Lemma aside_verdict s st p t : respects G (ApplyGradedSubmission s st p t).
Proof. unfold ApplyGradedSubmission, save_coding_mark. aside_steps. Qed.
Lemma aside_grade a q m : respects G (GradeDescriptive a q m).
Proof. unfold GradeDescriptive, save_mark. aside_steps. Qed.
Lemma aside_sweep : respects G ExpireDueAttempts.
Proof.
  unfold ExpireDueAttempts. apply respects_bind; [typeclasses eauto| |].
  - aside_statement. simplify_eq. reflexivity.
  - intros ids. generalize 0. induction ids as [|id ids IH]; intros c; cbn [expire_loop]; aside_steps; apply IH.
Qed.
Lemma aside_paper id b : respects G (attemptQuestions id b).
Proof. unfold attemptQuestions. aside_steps. Qed.
Hint Resolve aside_paper : respects.
Lemma aside_state id u : respects G (GetAttemptState id u).
Proof. unfold GetAttemptState, attemptSections. aside_steps. Qed.
Lemma aside_live id u : respects G (requireLiveAttempt id u).
Proof. unfold requireLiveAttempt. aside_steps. Qed.
Lemma aside_earlier id i : respects G (requireEarlierAnswered id i).
Proof. unfold requireEarlierAnswered. aside_steps. Qed.
Hint Resolve aside_state aside_live aside_earlier : respects.
Lemma aside_save req : respects G (SaveAnswer req).
Proof. unfold SaveAnswer, draft_statement, selection_statement, update_live. aside_steps. Qed.
Lemma aside_coding a u q : respects G (AttemptCodingQuestion a u q).
Proof. unfold AttemptCodingQuestion. aside_steps. Qed.
Lemma aside_record a q s l c : respects G (RecordCodeSubmission a q s l c).
Proof. unfold RecordCodeSubmission, record_body, insert_submission, update_live. aside_steps. Qed.
Hint Resolve aside_coding aside_record : respects.
Lemma aside_code Submit a u q l c : respects G (SubmitAttemptCode Submit a u q l c).
Proof. unfold SubmitAttemptCode. aside_steps. Qed.
Lemma aside_status a u s : respects G (GetAttemptSubmissionStatus a u s).
Proof. unfold GetAttemptSubmissionStatus. aside_steps. Qed.
Lemma aside_proctor req : respects G (RecordProctorEvent req).
Proof. unfold RecordProctorEvent, proctor_statement. aside_steps. Qed.
Lemma aside_result a u : respects G (GetAttemptResult a u).
Proof. unfold GetAttemptResult. aside_steps. Qed.
Lemma aside_submit a u why : respects G (SubmitAttempt a u why).
Proof. unfold SubmitAttempt. aside_steps. Qed.

Lemma aside_get id : respects G (GetAssessment id).
Proof. unfold GetAssessment, loadSections. aside_steps. Qed.
Lemma aside_sections a seed sections : ∀ k paper, respects G (build_sections a seed sections k paper).
Proof.
  induction sections as [|s t IH]; intros k paper; cbn [build_sections]; [aside_steps|].
  apply respects_bind; [typeclasses eauto| |intros [picked k1]].
  - unfold pick_section, drawFromBank. aside_steps.
  - destruct (if am_ShuffleQuestions a then _ else _). apply IH.
Qed.
Lemma aside_build a seed : respects G (buildPaper a seed).
Proof.
  unfold buildPaper. apply respects_bind; [typeclasses eauto|apply aside_sections|intros [paper k]]. unfold assignOptionOrder. aside_steps.
Qed.
Hint Resolve aside_get aside_build : respects.
Lemma aside_start IsUUID req : respects G (StartAttempt IsUUID req).
Proof.
  unfold StartAttempt, practiceAudienceOK, resolveInvite, userEmail, start_body, insert_attempt, Attempts.insert_question. aside_steps.
Qed.
Hint Resolve aside_start : respects.
Lemma aside_handle_start IsUUID req : respects G (HandleStart IsUUID req).
Proof. unfold HandleStart. aside_steps. Qed.

Lemma aside_token : respects G inviteToken.
Proof. intros e n db r n' db' _ H. unfold inviteToken in H. destruct (randomToken n 24); by injection H as _ _ <-. Qed.
Hint Resolve aside_token : respects.
Lemma aside_invite req : respects G (InviteCandidates req).
Proof.
  unfold InviteCandidates. generalize {| ir_Invites := []; ir_Skipped := 0 |} (@nil string).
  induction (ic_Emails req) as [|raw t IH]; intros out seen; cbn [invite_loop]; unfold insert_invite; aside_steps; apply IH.
Qed.
Lemma aside_compute req : respects G (ComputeShortlist req).
Proof. unfold ComputeShortlist, saveShortlist, insert_shortlist, insert_entry. aside_steps. Qed.
Lemma aside_decide s a d t : respects G (SetCandidateDecision s a d t).
Proof. unfold SetCandidateDecision. aside_steps. Qed.
Lemma aside_company req : respects G (CreateCompany req).
Proof. unfold CreateCompany, insert_company. aside_steps. Qed.
Lemma aside_member req : respects G (AddCompanyMember req).
Proof. unfold AddCompanyMember. aside_steps. Qed.
Lemma aside_section s : respects G (UpsertSection s).
Proof. unfold UpsertSection. aside_steps. Qed.
Lemma aside_drop_section id : respects G (DeleteSection id).
Proof. unfold DeleteSection. aside_steps. Qed.
Lemma aside_list section qs : ∀ i, respects G (insert_list section i qs).
Proof. induction qs as [|q t IH]; intros i; cbn [insert_list]; unfold insert_listed; aside_steps; apply IH. Qed.
Hint Resolve aside_list : respects.
Lemma aside_questions req : respects G (SetSectionQuestions req).
Proof. unfold SetSectionQuestions. aside_steps. Qed.

(** The calls that write neither tests nor bank. *)
Definition elsewhere (c : Call) : bool :=
  match c with
  | CUpsertMcqQuestion _ | CDeleteMcqQuestion _ _ | CBulkImportMcq _
  | CCreateAssessment _ _ | CUpdateAssessment _ | CPublishAssessment _ | CDeleteAssessment _ => false
  | _ => true
  end.

Lemma respects_reply {A} wrong (m : M A) : respects G m → respects G (status (reply_with wrong m)).
Proof. intros Hm. unfold status, reply_with. respects_steps. Qed.

Context {PD : PgCase} (IsUUID : string → bool).
Context (Submit : string → string → string → string + string) (exec_RunCode : RunCodeRequest → result RunCodeResponse).

Lemma aside_run req : respects G (status (Handler.RunAttemptCode exec_RunCode req)).
Proof. unfold status, Handler.RunAttemptCode. aside_steps. Qed.

Hint Resolve aside_grade aside_save aside_code aside_status aside_proctor aside_result aside_submit aside_handle_start aside_invite
  aside_compute aside_decide aside_company aside_member aside_section aside_drop_section aside_questions : respects.

Lemma aside_call c : elsewhere c = true → respects G (call IsUUID Submit exec_RunCode c).
Proof.
  destruct c; cbn [call]; intros Hc; try done; first [apply aside_run|apply respects_reply];
    first [by eauto 2 with respects typeclass_instances
          |unfold Companies.ListCompanies, Companies.ListCompanyMembers, Companies.Authorize, assessmentCompany, member_check, Bank.ListMcqQuestions,
             Drafts.ListAssessments, Reports.ListInvites, Available.ListAvailableAssessments, userEmail, Scoring.ListMyAttempts,
             Reports.ListAttempts, Reports.GetAttemptReport, proctorEvents, Reports.ListShortlists, Reports.GetShortlist, Reports.ExportResults;
           aside_steps].
Qed.
End Aside.

(** ** Tests and bank *)

Definition kept (db db' : DB) : Prop := keeps_sane db db' ∧ keeps_bank db db'.

#[export] Instance kept_preorder : PreOrder kept.
Proof. split; [by intros db|]. intros a b c [H1 H2] [H3 H4]. split; by etrans. Qed.

Lemma kept_aside db db' : tests_and_bank db' = tests_and_bank db → kept db db'.
Proof.
  unfold tests_and_bank. intros [= H1 H2 H3]. split.
  - unfold keeps_sane, sane. by rewrite H1.
  - intros [Hq Ho]. split; unfold question_options in *; by rewrite ?H2, ?H3.
Qed.

Lemma respects_kept {A} (m : M A) : respects keeps_sane m → respects keeps_bank m → respects kept m.
Proof.
  intros Hs Hb e n db r n' db' He H. split; [eapply Hs|eapply Hb]; try exact H; intros k d; apply (He k d).
Qed.

Section Sound.
Context {PG : Postgres} {GR : GoRand} {GF : GoFormat} {PC : PgCase} {PS : PgSearch} {PO : PgCollation} {PR : PgScore} {RN : Random}.

Lemma bank_aside db db' : mcq_questions db' = mcq_questions db → mcq_options db' = mcq_options db → keeps_bank db db'.
Proof. intros H2 H3 [Hq Ho]. split; unfold question_options in *; by rewrite ?H2, ?H3. Qed.

Ltac framed lem :=
  respects_steps;
  try (apply respects_statement; [typeclasses eauto|]; intros; repeat case_match; simplify_option_eq; first [reflexivity|by apply lem]).

Lemma create_kept actor a : respects kept (CreateAssessment actor a).
Proof. apply respects_kept; [apply create_sane|]. unfold CreateAssessment, insert_draft. framed bank_aside. Qed.
Lemma update_kept a : respects kept (UpdateAssessment a).
Proof. apply respects_kept; [apply update_sane|]. unfold UpdateAssessment, update_draft. framed bank_aside. Qed.
Lemma publish_kept req : respects kept (PublishAssessment req).
Proof. apply respects_kept; [apply publish_sane|]. unfold PublishAssessment, GetAssessment, loadSections, update_status. framed bank_aside. Qed.
Lemma delete_kept id : respects kept (DeleteAssessment id).
Proof. apply respects_kept; [apply delete_sane|]. unfold DeleteAssessment, update_status. framed bank_aside. Qed.

Lemma options_sane q options : ∀ i, respects keeps_sane (insert_options q i options).
Proof. induction options as [|o t IH]; intros i; cbn [insert_options]; unfold insert_option; framed keeps_sane_same; apply IH. Qed.
Hint Resolve options_sane : respects.
Lemma question_sane req : respects keeps_sane (UpsertMcqQuestion req).
Proof. unfold UpsertMcqQuestion, store_question, Bank.insert_question, update_question. framed keeps_sane_same. Qed.
Hint Resolve question_sane : respects.
Lemma question_kept req : respects kept (UpsertMcqQuestion req).
Proof. apply respects_kept; [apply question_sane|apply upsert_keeps_bank]. Qed.
Lemma retire_kept id scope : respects kept (DeleteMcqQuestion id scope).
Proof. apply respects_kept; [|apply retire_keeps_bank]. unfold DeleteMcqQuestion, retire_question. framed keeps_sane_same. Qed.
Lemma imports_sane req qs : ∀ row out, respects keeps_sane (import_rows req row qs out).
Proof. induction qs as [|[q|] t IH]; intros row out; cbn [import_rows]; framed keeps_sane_same; apply IH. Qed.
Hint Resolve imports_sane : respects.
Lemma import_kept req : respects kept (BulkImportMcq req).
Proof. apply respects_kept; [|apply import_keeps_bank]. unfold BulkImportMcq. framed keeps_sane_same. Qed.

Context (IsUUID : string → bool).
Context (Submit : string → string → string → string + string) (exec_RunCode : RunCodeRequest → result RunCodeResponse).

Lemma call_kept c : respects kept (call IsUUID Submit exec_RunCode c).
Proof.
  destruct (elsewhere c) eqn:E; [by apply aside_call; [typeclasses eauto|exact kept_aside|]|].
  destruct c; try done; cbn [call]; (apply respects_reply; [typeclasses eauto|]).
  all: first [apply question_kept|apply retire_kept|apply import_kept|apply create_kept|apply update_kept|apply publish_kept|apply delete_kept].
Qed.

Lemma serve_kept r : respects kept (serve IsUUID Submit exec_RunCode r).
Proof.
  destruct r as [c|s st p t|]; cbn [serve]; unfold discard.
  - apply respects_bind; [typeclasses eauto|apply call_kept|intros; apply respects_ret; typeclasses eauto].
  - apply aside_verdict; [typeclasses eauto|exact kept_aside].
  - apply respects_bind; [typeclasses eauto|apply aside_sweep; [typeclasses eauto|exact kept_aside]|intros; apply respects_ret; typeclasses eauto].
Qed.

(** Environments whose interference is requests of any kind, served by other
    replicas, to any depth of nesting. *)
Inductive replicas : Env → Prop :=
  | replicas_none e : (∀ n db, interfere e n db = db) → replicas e
  | replicas_some e (others : nat → list (Request * Env * nat)) :
      (∀ n, Forall (λ o, replicas o.1.2) (others n)) →
      (∀ n db, interfere e n db = fold_left (λ db o, after IsUUID Submit exec_RunCode o.1.1 o.1.2 o.2 db) (others n) db) →
      replicas e.

Lemma replicas_quiet e : replicas e → quiet_env kept e.
Proof.
  revert e. fix IH 2. intros e [e' Hi|e' others Hall Hi] n db; rewrite Hi; [reflexivity|].
  specialize (Hall n). clear Hi. revert db.
  induction Hall as [|[[r eo] k] l Ho Hl IHl]; intros db; simpl; [reflexivity|].
  etrans; [|apply IHl]. unfold after. simpl in Ho.
  destruct (serve IsUUID Submit exec_RunCode r eo k db) as [[x n1] db1] eqn:E. simpl.
  eapply serve_kept; [apply IH, Ho|exact E].
Qed.

End Sound.
