(* ===== verification/Examples.v ===== *)
(** Runs of the service on the small database of Concrete.v, with PostgreSQL's
    conversions and the random numbers modelled there: each of them satisfies
    the hypotheses of a theorem and draws its conclusion. *)

From S2P Require Import Prelude GoStrings Float64 Strconv GoTime Grading Json Worker Store Concrete Scoring.
From S2P Require Import Attempts Papers Authoring Results Consumer Answers Bank Companies Drafts Available Reports BankRuns RecruiterRuns Rpc Guarantee.

#[local] Open Scope Z_scope.

#[local] Existing Instances RecruiterRuns.quotes_model RecruiterRuns.case_model RecruiterRuns.collation_model RecruiterRuns.score_model RecruiterRuns.random_model.

(** ** Times *)

Lemma parseTimeValue_fmtTime_witness :
  parseTimeValue (fmtTime (Some (demo_start + 7))) = Some demo_start.
Proof.
  destruct (parseTimeValue_fmtTime (demo_start + 7)) as [H _];
    [by unfold four_digit_year, demo_start, nanos|].
  rewrite H. reflexivity.
Defined.

(** ** Closing an attempt *)

Lemma FinalizeAttempt_settles_witness :
  ∃ s n' db', FinalizeAttempt "A" "user" demo_env 0%nat demo = (inl s, n', db') ∧
    (∃ a, attempts db' !! "A" = Some a ∧ is_Some (at_submitted_at a)
          ∧ sm_Score s = num_value (at_score a)) ∧
    attempts db' !! "B" = attempts demo !! "B".
Proof.
  run_demo E HP (λ _ _, true) (FinalizeAttempt "A" "user" demo_env 0%nat demo).
  eapply FinalizeAttempt_settles in E as ((a & Ha & _ & Hs & _ & Hm & _) & Ho);
    [|apply calm_undisturbed|reflexivity|reflexivity].
  split; [by exists a|by apply Ho].
Defined.

(** The right choice of a question of four marks. *)
Lemma FinalizeAttempt_grades_witness :
  ∃ s n' db', FinalizeAttempt "A" "user" demo_env 0%nat demo = (inl s, n', db') ∧
    ∃ z q, attempt_questions demo !! "A1" = Some q ∧ attempt_questions db' !! "A1" = Some (set_mark z q).
Proof.
  run_demo E HP (λ _ _, true) (FinalizeAttempt "A" "user" demo_env 0%nat demo).
  pose proof (FinalizeAttempt_grades _ _ _ _ _ _ _ _ _ _ (calm_undisturbed _) E
                eq_refl eq_refl eq_refl "A1" _ eq_refl) as H.
  rewrite bool_decide_eq_true_2 in H
    by (split; [|split]; [vm_compute; reflexivity..|eexists; vm_compute; reflexivity]).
  destruct H as (_ & _ & z & _ & _ & _ & Hq). exists z. eexists. split; [|exact Hq]. reflexivity.
Defined.

Lemma FinalizeAttempt_idempotent_witness :
  ∃ s n' db', FinalizeAttempt "A" "timeout" demo_env 0%nat demo = (inl s, n', db') ∧
    ∃ m', FinalizeAttempt "A" "user" demo_env 40%nat db' = (inl s, m', db').
Proof.
  run_demo E HP (λ _ _, true) (FinalizeAttempt "A" "timeout" demo_env 0%nat demo).
  exact (FinalizeAttempt_idempotent _ _ "user" _ demo_env _ 40%nat _ _ _ _
           (calm_undisturbed _) (calm_undisturbed _) E).
Defined.

(** ** Verdicts *)

Lemma ApplyGradedSubmission_best_witness :
  ∃ u n' db', ApplyGradedSubmission "s1" "Wrong Answer" 2 3 demo_env 0%nat demo = (inl u, n', db') ∧
    ∃ best b, attempt_submissions db' !! best = Some b ∧ is_Some (sb_passed_count b).
Proof.
  run_demo E HP (λ _ _, true) (ApplyGradedSubmission "s1" "Wrong Answer" 2 3 demo_env 0%nat demo).
  destruct x.
  eapply ApplyGradedSubmission_best in E as (best & b & z & Hb & _ & Hp & _);
    [|apply calm_undisturbed|reflexivity..].
  by exists best, b.
Defined.

Lemma GradeDescriptive_bounds_witness :
  ∃ out n' db', GradeDescriptive "A" "A3" (of_Z 4) demo_env 0%nat demo = (inl out, n', db') ∧
    ∃ z q, attempt_questions demo !! "A3" = Some q ∧ attempt_questions db' !! "A3" = Some (set_mark z q).
Proof.
  run_demo E HP (λ _ _, true) (GradeDescriptive "A" "A3" (of_Z 4) demo_env 0%nat demo).
  destruct (GradeDescriptive_bounds _ _ _ _ _ _ _ _ _ _ (calm_undisturbed _) E eq_refl) as [_ H].
  destruct (H _ eq_refl) as (_ & _ & _ & _ & z & _ & Hq). exists z. eexists. split; [|exact Hq]. reflexivity.
Defined.

(** A verdict event as the execution service publishes it. *)
Definition quoted (s : string) : string := of_bytes [quote] +:+ s +:+ of_bytes [quote].

Definition demo_event : string :=
  "{" +:+ quoted "submission_id" +:+ ":" +:+ quoted "s1" +:+ ","
  +:+ quoted "overall_status" +:+ ":" +:+ quoted "Accepted" +:+ ","
  +:+ quoted "passed_count" +:+ ":3," +:+ quoted "total_count" +:+ ":3,"
  +:+ quoted "source" +:+ ":" +:+ quoted "assessment" +:+ "}".

Lemma handle_outcome_witness :
  ∃ o n' db', handle demo_event (Some 1) demo_env 0%nat demo = (inl o, n', db') ∧
    ∃ ev r, decode_event demo_event = Some ev ∧
      ApplyGradedSubmission (ev_SubmissionId ev) (ev_OverallStatus ev) 3 3 demo_env 0%nat demo = (r, n', db') ∧
      (o = Ack ↔ r = inl tt ∨ r = inr ErrSubmissionNotLinked ∧ ¬ (ev_Source ev = "assessment" ∧ ∃ d, Some 1 = Some d ∧ d < 10)).
Proof.
  run_demo E HP (λ _ _, true) (handle demo_event (Some 1) demo_env 0%nat demo).
  apply handle_outcome in E. destruct (decode_event demo_event) as [ev|] eqn:Ev; [|vm_compute in Ev; discriminate Ev].
  destruct E as (r & Hr & Ho & _). exists ev, r. split; [done|]. split; [|exact Ho].
  vm_compute in Ev. injection Ev as <-. exact Hr.
Defined.

(** Every recorded verdict scores a finite mark. *)
Definition exact_marks (db : DB) : bool :=
  bool_decide (map_Forall (λ _ s, match attempt_questions db !! sb_attempt_question_id s with
                     | Some q => bool_decide (fin (submission_score (num_value (aq_marks q)) s))
                     | None => true end = true) (attempt_submissions db)).

Lemma verdict_redelivered_witness :
  ∃ u n' db', ApplyGradedSubmission "s1" "Accepted" 3 3 demo_env 0%nat demo = (inl u, n', db') ∧
    ∃ v m' db'', ApplyGradedSubmission "s1" "Accepted" 3 3 demo_env 50%nat db' = (inl v, m', db'') ∧
      attempt_submissions db'' = attempt_submissions db'.
Proof.
  run_demo E HP (λ _ db, exact_marks db &&
      checked (λ _ _, true) (ApplyGradedSubmission "s1" "Accepted" 3 3 demo_env 50%nat db))
    (ApplyGradedSubmission "s1" "Accepted" 3 3 demo_env 0%nat demo). destruct x.
  apply andb_true_iff in HP as [Hfin H2].
  apply checked_run in H2 as ([] & m' & db'' & E2 & _). exists tt, m', db''. split; [done|].
  eapply (verdict_redelivered _ _ _ _ _ _ _ _ _ _ _ _ _ (calm_undisturbed _) (calm_undisturbed _) E E2).
  intros k s q Hs Hq. apply bool_decide_eq_true in Hfin. specialize (Hfin k s Hs). simpl in Hfin.
  rewrite Hq in Hfin. by apply bool_decide_eq_true in Hfin.
Defined.

(** ** Starting *)

Definition start_request (user : string) : StartAttemptRequest :=
  {| sa_AssessmentId := "T"; sa_UserId := user; sa_InviteToken := "" |}.

Definition any_uuid (_ : string) : bool := true.
Definition demo_submit (_ _ _ : string) : string + string := inl "s9".
Definition demo_exec (_ : Worker.RunCodeRequest) : Worker.result Worker.RunCodeResponse := inr (Worker.Internal, "down").

Lemma buildPaper_spec_witness :
  ∃ paper n' db', buildPaper (authored "T" (demo_test "published") demo) 7 demo_env 0%nat demo
                  = (inl paper, n', db') ∧
    length paper = 2%nat ∧ map pq_OrderIndex paper = [0; 1].
Proof.
  run_demo E Hl (λ paper _, Nat.eqb (length paper) 2)
    (buildPaper (authored "T" (demo_test "published") demo) 7 demo_env 0%nat demo).
  apply Nat.eqb_eq in Hl. split; [done|]. eapply buildPaper_spec in E as (_ & -> & _); [|apply calm_undisturbed].
  by rewrite Hl.
Defined.

Lemma StartAttempt_eligible_witness :
  ∃ id n' db', StartAttempt any_uuid (start_request "v") demo_env 0%nat demo = (inl id, n', db') ∧
    attempts demo !! id = None ∧ ∃ inviteID t, invited (start_request "v") t demo inviteID.
Proof.
  run_demo E Hid (λ id _, bool_decide (attempts demo !! id = None))
    (StartAttempt any_uuid (start_request "v") demo_env 0%nat demo).
  apply bool_decide_eq_true in Hid.
  split; [done|].
  eapply (StartAttempt_eligible any_uuid) in E as [((a & Ha & _) & _)|(_ & _ & a & j & _ & Ha & _ & Hinv & _)];
    [| |apply calm_undisturbed].
  { rewrite Hid in Ha. discriminate Ha. }
  injection Ha as <-. destruct (Hinv eq_refl) as (inviteID & i & _ & H). eauto.
Defined.

Lemma StartAttempt_materializes_witness :
  ∃ id n' db', StartAttempt any_uuid (start_request "v") demo_env 0%nat demo = (inl id, n', db') ∧
    ∃ a, attempts db' = <[id := a]> (attempts demo) ∧ at_status a = InProgress ∧ at_attempt_no a = 1.
Proof.
  run_demo E Hid (λ id _, bool_decide (attempts demo !! id = None))
    (StartAttempt any_uuid (start_request "v") demo_env 0%nat demo).
  apply bool_decide_eq_true in Hid.
  assert (Hx : x ≠ "A") by (intros ->; discriminate Hid).
  eapply (StartAttempt_materializes any_uuid) in E
    as (a & seed & paper & k & k' & _ & Ha & Hs & _ & Hno & _);
    [|apply calm_undisturbed|exact Hid|reflexivity|].
  - exists a. split_and!; [done|done|]. rewrite Hno. vm_compute. reflexivity.
  - intros i r Hr. assert (Hall : map_Forall (λ _ r, aq_attempt_id r = "A") (attempt_questions demo)) by decide_now.
    specialize (Hall _ _ Hr). simpl in Hall. congruence.
Defined.

(** ** Authoring *)

Definition demo_authored : Assessment := authored "N" (demo_test "draft")
  (with_sections (λ _, {[ "S1" := {| se_assessment_id := "N"; se_title := "Part"; se_kind := Mcq;
     se_order_index := 0; se_duration_minutes := None; se_cutoff_marks := 0; se_pick_count := None;
     se_pick_topic := ""; se_pick_difficulty := ""; se_pick_course := ""; se_pick_marks := 0;
     se_partial_credit := false |} ]})
   (with_question_lists (λ _, {[ "L1" := demo_listed "S1" (Some "m1") None 7 0 ]}) demo)).

Lemma validated_paper_total_witness :
  ∃ paper n' db', buildPaper demo_authored 3 demo_env 0%nat demo = (inl paper, n', db') ∧
    sum_marks paper = of_Z 7.
Proof.
  run_demo E HP (λ _ _, true) (buildPaper demo_authored 3 demo_env 0%nat demo).
  eapply (validated_paper_total demo_authored 7 []) in E as (_ & H & _);
    [exact H|vm_compute; reflexivity|vm_compute; reflexivity| |apply calm_undisturbed].
  repeat constructor; vm_compute; done.
Defined.

Definition demo_ready : DB :=
  with_sections (<["S1" := {| se_assessment_id := "N"; se_title := "Part"; se_kind := Mcq;
     se_order_index := 0; se_duration_minutes := None; se_cutoff_marks := 0; se_pick_count := None;
     se_pick_topic := ""; se_pick_difficulty := ""; se_pick_course := ""; se_pick_marks := 0;
     se_partial_credit := false |}]>) demo.

Lemma PublishAssessment_validated_witness :
  ∃ resp n' db', PublishAssessment {| pb_Id := "N"; pb_Publish := true |} demo_env 0%nat demo_ready
                 = (inl resp, n', db') ∧
    pr_Status resp = "published" ∧ ∃ a, assessments db' !! "N" = Some a ∧ as_total_marks a = pr_TotalMarks resp.
Proof.
  run_demo E HP (λ _ _, true) (PublishAssessment {| pb_Id := "N"; pb_Publish := true |} demo_env 0%nat demo_ready).
  eapply PublishAssessment_validated in E as (a & Ha & _ & Hs & ->); [|apply calm_undisturbed].
  split; [done|]. eexists. split; [apply lookup_insert_eq|reflexivity].
Defined.

Lemma DeleteAssessment_keeps_results_witness :
  ∃ u n' db', DeleteAssessment "T" demo_env 0%nat demo = (inl u, n', db') ∧
    attempts db' = attempts demo ∧ ∃ a, assessments db' !! "T" = Some a ∧ as_status a = "archived".
Proof.
  run_demo E HP (λ _ _, true) (DeleteAssessment "T" demo_env 0%nat demo). destruct x.
  eapply DeleteAssessment_keeps_results in E as (Ha & _ & _ & _ & H); [|apply calm_undisturbed].
  split; [done|]. eapply H; [|reflexivity]. exists "A", (demo_attempt "u" InProgress 0). split; reflexivity.
Defined.

Definition demo_list : SetSectionQuestionsRequest :=
  {| ss_SectionId := "S1";
     ss_Questions := [{| qn_Id := ""; qn_McqQuestionId := "m1"; qn_ProblemId := ""; qn_Marks := 0 |}] |}.

Lemma SetSectionQuestions_roundtrip_witness :
  ∃ u n' db', SetSectionQuestions demo_list demo_env 0%nat demo = (inl u, n', db') ∧
    map reference (questions_of_section "S1" db') = map stored (ss_Questions demo_list).
Proof.
  run_demo E HP (λ _ _, true) (SetSectionQuestions demo_list demo_env 0%nat demo). destruct x.
  eapply SetSectionQuestions_roundtrip in E as [H _]; [exact H|apply calm_undisturbed].
Defined.

(** ** Shortlists *)

Definition demo_criteria : ShortlistCriteria :=
  {| MinScorePercent := of_Z 50; SectionCutoffs := ∅; MinIntegrity := of_Z 40; TopN := 1;
     ExcludeFlagged := true |}.

Definition shortlist_request (save : bool) : ComputeShortlistRequest :=
  {| cs_AssessmentId := "T"; cs_ActorId := "hr"; cs_Name := "Round 1"; cs_Criteria := Some demo_criteria;
     cs_Save := save |}.

Lemma demo_rankable : Forall rankable (finished "T" demo).
Proof.
  assert (H : Forall (λ s, fin (sm_Score s) ∧ fin (sm_IntegrityScore s)) (finished "T" demo)) by decide_now.
  exact H.
Qed.

Lemma ComputeShortlist_ranks_witness :
  ∃ out n' db', ComputeShortlist (shortlist_request false) demo_env 0%nat demo = (inl out, n', db') ∧
    db' = demo ∧ shortlist_of demo_criteria (finished "T" demo) out.
Proof.
  run_demo E HP (λ _ _, true) (ComputeShortlist (shortlist_request false) demo_env 0%nat demo).
  eapply ComputeShortlist_ranks in E as (H & _ & Hp); [|apply calm_undisturbed|exact demo_rankable].
  split; [by apply Hp|exact H].
Defined.

Lemma ComputeShortlist_saves_witness :
  ∃ out n' db', ComputeShortlist (shortlist_request true) demo_env 0%nat demo = (inl out, n', db') ∧
    is_Some (shortlists db' !! sh_Id out).
Proof.
  run_demo E HP (λ _ _, true) (ComputeShortlist (shortlist_request true) demo_env 0%nat demo).
  apply ComputeShortlist_saves in E; [|done]. destruct (E eq_refl) as (now & _ & -> & _).
  eexists. apply lookup_insert_eq.
Defined.

(** ** Answering *)

Definition save_request : SaveAnswerRequest :=
  {| sv_AttemptId := "A"; sv_UserId := "u"; sv_QuestionId := "A1"; sv_SelectedOptionIds := ["o2"];
     sv_TextAnswer := ""; sv_TimeSpentMs := 900; sv_MarkedReview := false; sv_ClearAnswer := false;
     sv_Language := ""; sv_Code := "" |}.

(** [demo] before the later questions were opened. *)
Definition demo_opening : DB :=
  with_questions (λ _, {[ "A1" := demo_question "S1" Mcq (Some "m1") None 0 400 [] Ungraded ]}) demo.

Lemma SaveAnswer_guarded_witness :
  ∃ left n' db', SaveAnswer save_request demo_env 0%nat demo_opening = (inl left, n', db') ∧
    ∃ dbw q', db' = with_questions (update_row "A1" (λ _, q')) dbw ∧ stillLive "A" dbw = true.
Proof.
  run_demo E HP (λ _ _, true) (SaveAnswer save_request demo_env 0%nat demo_opening).
  apply SaveAnswer_guarded in E as (a & dbw & q & q' & _ & _ & _ & _ & Hl & _ & _ & _ & Hdb).
  exists dbw, q'. split; [exact Hdb|exact Hl].
Defined.

Lemma SaveAnswer_sequence_witness :
  ∃ left n' db', SaveAnswer save_request demo_env 0%nat demo_opening = (inl left, n', db') ∧
    ∃ q, attempt_questions demo_opening !! "A1" = Some q ∧
      (indices_nonneg "A" demo_opening → earlier_answered "A" (aq_order_index q) demo_opening).
Proof.
  run_demo E HP (λ _ _, true) (SaveAnswer save_request demo_env 0%nat demo_opening).
  eapply SaveAnswer_sequence in E as (a & q & Ha & Hq & Hs & _); [|apply calm_undisturbed].
  exists q. split; [exact Hq|]. apply Hs. injection Ha as <-. reflexivity.
Defined.

Definition proctor_request (kind : string) : RecordProctorEventRequest :=
  {| pr_AttemptId := "A"; pr_UserId := "u"; pr_Kind := kind; pr_Detail := "left the tab" |}.

Lemma RecordProctorEvent_effect_witness :
  ∃ resp n' db', RecordProctorEvent (proctor_request "tab_blur") demo_env 0%nat demo = (inl resp, n', db') ∧
    ∃ a, attempts db' !! "A" = Some a ∧ at_integrity_score a = 9500.
Proof.
  run_demo E HP (λ _ _, true) (RecordProctorEvent (proctor_request "tab_blur") demo_env 0%nat demo).
  eapply RecordProctorEvent_effect in E as (p & a & t & Hp & Ha & Hi & _);
    [|apply calm_undisturbed|reflexivity|reflexivity|reflexivity].
  exists a. split; [exact Ha|]. rewrite Hi. vm_compute in Hp. injection Hp as <-. reflexivity.
Defined.


Lemma candidate_results_withheld_witness :
  ∃ s n' db', SubmitAttempt "A" "u" "" demo_env 0%nat demo = (inl s, n', db') ∧ says_nothing s.
Proof.
  run_demo E Hw (λ s _, resultsWithheld (sm_Purpose s)) (SubmitAttempt "A" "u" "" demo_env 0%nat demo).
  destruct (candidate_results_withheld "u" "A" "" demo_env 0%nat demo) as (_ & H & _).
  exact (H _ _ _ E Hw).
Defined.

(** ** Interleavings *)

(** Before each statement of the pool another replica serves a save. *)
Definition busy_env : Env := {|
  fault := fault demo_env; clock := clock demo_env; fresh := fresh demo_env;
  seed_bytes := seed_bytes demo_env; arrange := arrange demo_env; arrange_perm := arrange_perm demo_env;
  interfere := λ _ db, after any_uuid demo_submit demo_exec (RCall (CSaveAnswer save_request)) demo_env 0%nat db |}.

Lemma busy_served : served_beside any_uuid demo_submit demo_exec busy_env.
Proof.
  apply (beside_requests any_uuid demo_submit demo_exec _ (λ _, [(RCall (CSaveAnswer save_request), demo_env, 0%nat)])).
  - intros _. apply Forall_singleton. split; [done|]. by apply beside_none.
  - intros n db. reflexivity.
Qed.

Definition demo_client : list Request :=
  [RCall (CSaveAnswer save_request); RVerdict "s1" "Accepted" 3 3; RCall (CDeleteMcqQuestion "m1" ""); RCall (CDeleteSection "S1"); RCall (CSubmitAttempt "A" "u" "");
   RCall (CGradeDescriptive "A" "A3" (num_value 100)); RSweep].

Lemma demo_client_spares : Forall spares demo_client.
Proof. repeat constructor. Qed.

Definition demo_over : DB := after any_uuid demo_submit demo_exec (RCall (CSubmitAttempt "A" "u" "")) demo_env 0%nat demo.

Lemma demo_closed : attempt_closed demo_over "A".
Proof.
  assert (H : match attempts demo_over !! "A" with
              | Some a => bool_decide (at_status a = InProgress) | None => true end = false)
    by (vm_compute; reflexivity).
  destruct (attempts demo_over !! "A") as [a|] eqn:Ha; [|discriminate H].
  exists a. split; [exact Ha|]. by apply bool_decide_eq_false in H.
Qed.

Lemma demo_answered :
  ∃ q, attempt_questions demo_over !! "A1" = Some q ∧ aq_attempt_id q = "A" ∧ aq_selected_options q = ["o1"].
Proof.
  assert (H : match attempt_questions demo_over !! "A1" with
              | Some q => bool_decide (aq_attempt_id q = "A") && bool_decide (aq_selected_options q = ["o1"])
              | None => false end = true) by (vm_compute; reflexivity).
  destruct (attempt_questions demo_over !! "A1") as [q|]; [|discriminate H].
  apply andb_true_iff in H as [H1%bool_decide_eq_true H2%bool_decide_eq_true]. by exists q.
Qed.



Lemma closed_refuses_witness :
  ∃ err n' db', SaveAnswer save_request busy_env 0%nat demo_over = (inr err, n', db').
Proof.
  destruct (closed_refuses any_uuid demo_submit demo_exec busy_env 0%nat demo_over "A" busy_served demo_closed) as (H & _).
  destruct (SaveAnswer save_request busy_env 0%nat demo_over) as [[[left|err] n'] db'] eqn:E.
  - exfalso. exact (H save_request left n' db' eq_refl E).
  - exists err, n', db'. reflexivity.
Defined.

(** Two hours on, the sweeper closes what was left open. *)
Definition late_env : Env := calm (demo_start + 7200 * 10 ^ 9).

