(* ===== verification/ServiceRuns.v ===== *)
(** Runs of the assessment service as a whole on the small database of
    Concrete.v: the list of tests, refusals, a mixed sequence of requests, and
    the race between deleting a test and starting it. *)

From S2P Require Import Prelude GoStrings Float64 Strconv GoTime Grading Worker Store Concrete Scoring Attempts Papers Authoring Results Answers.
From S2P Require Import Bank Companies Drafts Available Reports BankRuns RecruiterRuns Rpc Guarantee Sound Examples.

#[local] Open Scope Z_scope.

#[local] Existing Instances RecruiterRuns.quotes_model RecruiterRuns.case_model RecruiterRuns.collation_model RecruiterRuns.score_model RecruiterRuns.random_model.

Lemma demo_sane : sane demo.
Proof.
  intros id a H. unfold demo in H. cbn [assessments] in H. apply lookup_insert_Some in H as [[_ <-]|[_ H]].
  2: apply lookup_singleton_Some in H as [_ <-].
  all: split; apply (bool_decide_unpack _); vm_compute; exact I.
Qed.

(** ** The list of tests *)

Definition list_request (user : string) : ListAvailableAssessmentsRequest := {| lv_UserId := user; lv_Scope := "" |}.

Lemma listing_sound_witness :
  ∃ l n' db', ListAvailableAssessments (list_request "u") demo_env 0%nat demo = (inl l, n', db') ∧ length l = 0%nat ∧ db' = demo.
Proof.
  run_demo E Hl (λ l _, Nat.eqb (length l) 0) (ListAvailableAssessments (list_request "u") demo_env 0%nat demo).
  split; [by apply Nat.eqb_eq|]. eapply (listing_sound any_uuid) in E as [-> _]; [done|apply calm_undisturbed|exact demo_sane].
Defined.

(** One moment. *)
Definition frozen : Env :=
  {| fault := fault demo_env; clock := λ _, demo_start; fresh := fresh demo_env; seed_bytes := seed_bytes demo_env;
     arrange := arrange demo_env; arrange_perm := arrange_perm demo_env; interfere := λ _ db, db |}.

Lemma frozen_undisturbed : undisturbed frozen.
Proof. by split. Qed.


(** ** A refusal *)

Definition stranger : Call := CGetAttemptState "A" "w".

Lemma refusal_changes_nothing_witness :
  ∃ n' db', call any_uuid demo_submit demo_exec stranger demo_env 0%nat demo = (inl (Some (wrapped ErrForbidden)), n', db') ∧ db' = demo.
Proof.
  destruct (call any_uuid demo_submit demo_exec stranger demo_env 0%nat demo) as [[r n'] db'] eqn:E.
  assert (Hr : r = inl (Some (wrapped ErrForbidden))).
  { apply (f_equal (λ x, x.1.1)) in E. vm_compute in E. exact (eq_sym E). }
  subst r. exists n', db'. split; [reflexivity|].
  apply (refusal_changes_nothing any_uuid demo_submit demo_exec stranger demo_env 0%nat demo _ n' db' (desk_alone _) E). exact I.
Defined.

(** ** Requests of every kind *)

Definition demo_day : list Request :=
  [RCall (CUpsertMcqQuestion (demo_author "" "2 + 2?" demo_choices)); RCall (CCreateAssessment "r" (Some demo_draft));
   RCall (CStartAttempt (start_request "v")); RCall (CSaveAnswer save_request); RVerdict "s1" "Accepted" 3 3;
   RCall (CDeleteAssessment "N"); RCall (CDeleteMcqQuestion "m1" ""); RSweep].

Definition demo_night : Env :=
  {| fault := fault demo_env; clock := clock demo_env; fresh := fresh demo_env; seed_bytes := seed_bytes demo_env;
     arrange := arrange demo_env; arrange_perm := arrange_perm demo_env;
     interfere := λ _ db, after any_uuid demo_submit demo_exec (RCall (CDeleteAssessment "N")) demo_env 0%nat db |}.

Lemma demo_replicas : replicas any_uuid demo_submit demo_exec demo_night.
Proof.
  apply (replicas_some any_uuid demo_submit demo_exec _ (λ _, [(RCall (CDeleteAssessment "N"), demo_env, 0%nat)])).
  - intros _. apply Forall_singleton. by apply replicas_none.
  - intros n db. reflexivity.
Qed.


(** ** Deleting a test that is being started *)

(** [DeleteAssessment] counts the attempts and deletes in two statements: a
    start that another replica serves between them is answered with an
    attempt, and the deletion takes it along. *)
Definition unstarted : DB := with_attempts (λ _, ∅) (with_questions (λ _, ∅) demo).

Definition start_between (n : nat) (db : DB) : DB :=
  if Nat.eqb n 1 then after any_uuid demo_submit demo_exec (RCall (CStartAttempt (start_request "v"))) demo_env 10%nat db else db.

Definition deleting : Env :=
  {| fault := fault demo_env; clock := clock demo_env; fresh := fresh demo_env; seed_bytes := seed_bytes demo_env;
     arrange := arrange demo_env; arrange_perm := arrange_perm demo_env; interfere := start_between |}.

Lemma delete_loses_attempt :
  ∃ n' db', DeleteAssessment "T" deleting 0%nat unstarted = (inl tt, n', db') ∧
    map_size (attempts (start_between 1 unstarted)) = 1%nat ∧ attempts db' = ∅.
Proof.
  destruct (checked_run (λ _ db, bool_decide (map_to_list (attempts db) = []))
      (DeleteAssessment "T" deleting 0%nat unstarted)) as ([] & n' & db' & E & Hdb); [vm_compute; reflexivity|].
  exists n', db'. split; [exact E|]. split; [vm_compute; reflexivity|]. apply map_to_list_empty_iff. by apply bool_decide_eq_true in Hdb.
Qed.
