(* ===== verification/Runs.v ===== *)
(** Runs of the submission pipeline on concrete inputs, with PostgreSQL's
    types as they are documented: each satisfies the hypotheses of a theorem
    of Submissions.v or Pipeline.v and draws its conclusion. *)

From S2P Require Import Prelude GoStrings Float64 Strconv GoTime Grading Json Judge Wire PgTypes Worker Service Messages Submissions.
From S2P Require Import Progress.
From S2P Require Import Store Concrete Scoring Attempts Consumer Pipeline.
From Stdlib Require Import Ascii.

#[local] Open Scope Z_scope.

(** ** The types *)

#[export] Instance types_model : PgTypes := {
  pg_uuid := λ s, let t := to_lower s in if IsUUID t then Some t else None;
  pg_text := λ s, if contains_byte zero s then None else Some s;
  jsonb := λ s, match parse s with
                | Some r => if holds_nul r then None else Some s
                | None => None
                end;
  timestamptz_text := λ t, of_bytes (rfc3339 t);
}.

#[export] Instance types_laws : PgLaws types_model.
Proof.
  split; cbn.
  - intros s r -> H. by rewrite H.
  - intros r Hp Hn. rewrite parse_render by done. rewrite Hn. exists (render_string r), r.
    split_and!; [done|by apply parse_render|constructor].
  - intros s t. destruct (contains_byte zero s); [done|]. by intros [= <-].
  - intros s H. by rewrite H.
  - intros s t. destruct (IsUUID (to_lower s)) eqn:E; [|done]. intros [= <-].
    rewrite to_lower_idem. by rewrite E.
Qed.

(** ** Worlds *)

Definition demo_id (n : nat) : string := "54574a34-9a68-4e65-ab9a-af05db4c000" +:+ format_int (Z.of_nat n).

(** Calls fail as [f] says; nothing else happens meanwhile. *)
Definition world {S} (f : nat → Failure) : World S :=
  {| failure := f; time_at := λ n, demo_start + Z.of_nat n * 10 ^ 9; new_id := demo_id;
     row_order := λ _ l, l; row_order_perm := λ _ l, Permutation_refl l; others := λ _ s, s |}.

Definition works : World State := world (λ _, Works).

Lemma works_calm : Service.calm works.
Proof. by split. Qed.

Lemma world_alone {S} f : alone (world (S := S) f).
Proof. done. Qed.

Definition fails_at (k : nat) : World State := world (λ n, if (n =? k)%nat then FailsBefore else Works).

Definition empty : State := {| submissions := ∅; published := []; progress_calls := [] |}.

(** ** Submitting *)

Definition demo_request : SubmitRequest :=
  {| su_ProblemId := "54574a34-9a68-4e65-ab9a-af05db4c0001"; su_Language := "go";
     su_Code := "package main"; su_UserId := "u"; su_Source := "assessment" |}.

(** A success with a result and a state that pass a test. *)
Definition succeeds {S A} (P : A → S → bool) (r : (A + string) * nat * S) : bool :=
  match r.1.1 with inl x => P x r.2 | inr _ => false end.

Lemma succeeds_run {S A} (P : A → S → bool) (r : (A + string) * nat * S) :
  succeeds P r = true → ∃ x n' s', r = (inl x, n', s') ∧ P x s' = true.
Proof. destruct r as [[[x|] n] s]; [|done]. intros H. by exists x, n, s. Qed.

Lemma Submit_enqueues_witness :
  ∃ id n' s', Submit demo_request works 0%nat empty = (inl id, n', s') ∧
    ∃ data, published s' = [("execution.run", data)] ∧ decode_request data = Some (job id demo_request).
Proof.
  destruct (succeeds_run (λ id _, String.eqb id (demo_id 1)) (Submit demo_request works 0%nat empty))
    as (id & n' & s' & E & Hid); [vm_compute; reflexivity|].
  apply String.eqb_eq in Hid. exists id, n', s'. split; [exact E|].
  apply Submit_enqueues in E as (_ & problem & data & _ & _ & Hp & _ & Hd); [|done].
  exists data. split; [exact Hp|]. apply Hd. subst id. unfold request_texts. cbn.
  split_and!; text_now.
Defined.

Lemma Submit_unsent_witness :
  ∃ results msg n' s', Submit demo_request (fails_at 2) 0%nat empty = (inr msg, n', s') ∧
    published s' = [] ∧ parse results = Some RNull ∧ size (submissions s') = 1%nat.
Proof.
  destruct (Submit_unsent demo_request (fails_at 2) 0%nat empty "54574a34-9a68-4e65-ab9a-af05db4c0001")
    as (results & msg & n' & s' & E & Hp & Hr & Hs); [(done || (intros; reflexivity))..|].
  exists results, msg, n', s'. split_and!; [exact E|exact Hp|exact Hr|]. rewrite Hs. reflexivity.
Defined.

(** ** A job and its result *)

Definition demo_case (i : Z) (input expected : string) : TestCase :=
  {| tc_Id := "c" +:+ format_int i; tc_Input := input; tc_ExpectedOutput := expected;
     tc_IsHidden := 1 <=? i; tc_TimeLimitMs := 2000; tc_MemoryLimitMb := 256; tc_OrderIndex := i |}.

Definition demo_cases : list TestCase := [demo_case 0 "1 2" "3"; demo_case 1 "2 5" "7"].

Definition demo_tests (problem : string) (hidden : bool)
  : (list TestCase * option ExecutionSpec) + string := inl (demo_cases, None).

(** The sandbox runs a program that prints [answer] of its input. *)
Definition demo_run (answer : string → string) (n : nat) (req : RunRequest) : RunResult + string :=
  inl {| rr_Stdout := answer (rq_Input req); rr_Stderr := ""; rr_ExitCode := 0; rr_ExecutionMs := 5;
         rr_MemoryKb := 1; rr_TimedOut := false; rr_OOMKilled := false |}.

Definition right_answer (input : string) : string :=
  if String.eqb input "1 2" then "3" else "7".

Definition demo_job (id : string) : SubmitCodeRequest := job id demo_request.

(** A text, decided. *)
Ltac texts_now := repeat first [apply Forall_nil; exact I | apply Forall_cons | split]; text_now.

Definition demo_result (id : string) : ExecutionResult :=
  execute (demo_run right_answer) demo_tests (demo_job id).

Lemma demo_result_texts id :
  text id → execution_texts (demo_result id) ∧ execution_ints (demo_result id).
Proof.
  intros Hid.
  unfold execution_texts, execution_ints, result_ints, result_texts, int64_range.
  assert (E : ∃ trs, er_TestResults (demo_result id) = trs ∧
    Forall (λ t, result_texts t ∧ result_ints t) trs).
  { eexists. split; [reflexivity|]. unfold demo_result.
    rewrite (execute_assessment_results _ _ _ demo_cases None) by reflexivity.
    cbn [case_results demo_cases]. repeat first [apply Forall_nil_2 | apply Forall_cons_2];
      (split; [unfold result_texts; split_and!; text_now|split; (vm_compute; split; [by intros|done])]). }
  destruct E as (trs & -> & Hts).
  split_and!; [exact Hid|text_now|text_now|text_now| |text_now|text_now| |(vm_compute; done)..].
  - eapply Forall_impl; [exact Hts|]. intros t [H _]. exact H.
  - eapply Forall_impl; [exact Hts|]. intros t [_ H]. exact H.
Qed.

(** ** A verdict on its way *)

#[local] Abbreviation demo_message id := (render_string (execution_raw (demo_result id))).
#[local] Abbreviation demo_reply id := (onResult true (demo_message id) works 0%nat empty).

(** The event published for the job. *)
Definition demo_data (id : string) : string :=
  match published (demo_reply id).2 with (_, d) :: _ => d | [] => "" end.

Definition demo_published (id : string) (o : Submissions.Reply) (s' : State) : bool :=
  match o with Acked => bool_decide (published s' = [("submission.graded", demo_data id)]) | _ => false end.

Lemma demo_judged id :
  text id → succeeds (demo_published id) (demo_reply id) = true →
  judged (demo_run right_answer) demo_tests (demo_job id) (demo_data id) works 0%nat empty.
Proof.
  intros Hid H. apply succeeds_run in H as (o & n' & s' & E & Hp).
  destruct (demo_result_texts id Hid) as [Ht Hi].
  destruct o; try discriminate Hp. apply bool_decide_eq_true in Hp.
  split; [exact Ht|]. split; [exact Hi|]. split; [done|]. exists n', s'. split; [exact E|exact Hp].
Qed.

Lemma verdict_arrives_witness :
  ∃ m' db', handle (demo_data "s1") (Some 1) demo_env 0%nat demo = (inl Consumer.Ack, m', db') ∧
    ∃ row', attempt_submissions db' !! "s1" = Some row' ∧ sb_passed_count row' = Some 2 ∧
      sb_total_count row' = Some 2.
Proof.
  destruct (checked_run (λ o _, match o with Consumer.Ack => true | _ => false end)
    (handle (demo_data "s1") (Some 1) demo_env 0%nat demo)) as (o & m' & db' & E & Ho);
    [vm_compute; reflexivity|].
  destruct o; try discriminate Ho. exists m', db'. split; [exact E|].
  destruct (verdict_arrives (demo_run right_answer) demo_tests (demo_job "s1") demo_cases None (demo_data "s1")
    works 0%nat empty (Some 1) demo_env 0%nat demo "s1" demo_submission m' db')
    as (row' & Hrow & Hp & Ht & _); [reflexivity|reflexivity|vm_compute; reflexivity| | |reflexivity|
    vm_compute; reflexivity|exact E|].
  - apply demo_judged; [text_now|vm_compute; reflexivity].
  - apply calm_undisturbed.
  - exists row'. split; [exact Hrow|]. rewrite Hp, Ht. split; vm_compute; reflexivity.
Defined.

Lemma full_marks_witness :
  ∃ m' db', handle (demo_data "s1") (Some 1) demo_env 0%nat demo = (inl Consumer.Ack, m', db') ∧
    ∃ q', attempt_questions db' !! "A2" = Some q' ∧ aq_awarded_marks q' = Some 600.
Proof.
  destruct (checked_run (λ o _, match o with Consumer.Ack => true | _ => false end)
    (handle (demo_data "s1") (Some 1) demo_env 0%nat demo)) as (o & m' & db' & E & Ho);
    [vm_compute; reflexivity|].
  destruct o; try discriminate Ho. exists m', db'. split; [exact E|].
  destruct (full_marks (demo_run right_answer) demo_tests (demo_job "s1") demo_cases None (demo_data "s1")
    works 0%nat empty (Some 1) demo_env 0%nat demo "s1" demo_submission m' db'
    (demo_question "S2" Coding None (Some "p1") 1 600 [] Pending) 6)
    as (q' & Hq & Hm & _); [reflexivity|reflexivity|vm_compute; split; reflexivity| | | |reflexivity|
    vm_compute; reflexivity|exact E|vm_compute; reflexivity|vm_compute; reflexivity|
    vm_compute; split; [by intros|reflexivity]| | |].
  - apply demo_judged; [text_now|vm_compute; reflexivity].
  - intros k tc Hk. apply passes_spec. destruct k as [|[|k]]; [..|destruct k; discriminate Hk];
      injection Hk as <-; vm_compute; reflexivity.
  - apply calm_undisturbed.
  - unfold whole_marks. vm_compute. split_and!; by intros.
  - intros k o Hk _. unfold whole_marks. cbn in Hk. apply lookup_singleton_Some in Hk as [_ <-]. cbn. lia.
  - exists q'. split; [exact Hq|exact Hm].
Defined.

(** ** Verdicts in the submission service *)

(** The submission of the demo request, stored. *)
Definition pending : State :=
  {| submissions := {[ demo_id 1 := stored demo_request (su_ProblemId demo_request) demo_start ]};
     published := []; progress_calls := [] |}.

Lemma demo_id_text : text (demo_id 1).
Proof. text_now. Qed.

Lemma demo_decodes : decode_execution (demo_message (demo_id 1)) = Some (received (demo_result (demo_id 1))).
Proof. apply execution_roundtrip; apply (demo_result_texts (demo_id 1) demo_id_text). Qed.

Definition acked (o : Submissions.Reply) (s' : State) : bool :=
  match o with Acked => true | _ => false end.

(** [run_acked E t] runs the callback [t], which acknowledges. *)
Ltac run_acked E t :=
  let o := fresh in let Ho := fresh in
  destruct (succeeds_run acked t) as (o & ?n' & ?s' & E & Ho); [vm_compute; reflexivity|];
  destruct o; try discriminate Ho; clear Ho.

Lemma onResult_reports_witness :
  ∃ n' s', onResult true (demo_message (demo_id 1)) works 0%nat pending = (inl Acked, n', s') ∧
    progress_calls s' = [] ∧ ∃ l : list TestResult, length l = 2%nat ∧
      (∃ results key, submissions s' =
         alter (set_result "Accepted" 5 1 "" results demo_start) key (submissions pending)).
Proof.
  run_acked E (onResult true (demo_message (demo_id 1)) works 0%nat pending).
  exists n', s'. split; [exact E|].
  destruct (onResult_reports _ _ _ _ _ _ _ _ (world_alone _) demo_decodes E) as (l & El & Hs & Hp & _).
  split; [by apply Hp|]. exists l. split.
  - apply (f_equal length) in El. rewrite !length_map in El. rewrite <- El. vm_compute. reflexivity.
  - destruct (Hs eq_refl) as (results & key & _ & _ & E'). exists results, key. rewrite E'.
    vm_compute in El. reflexivity.
Defined.

Lemma GetSubmission_verdict_witness :
  ∃ n' s', onResult true (demo_message (demo_id 1)) works 0%nat pending = (inl Acked, n', s') ∧
    ∃ sub, GetSubmission (demo_id 1) works 9%nat s' = (inl sub, 10%nat, s') ∧
      sn_Status sub = "Accepted" ∧ sn_Code sub = "package main" ∧
      sn_TestResults sub = map Some (er_TestResults (demo_result (demo_id 1))).
Proof.
  run_acked E (onResult true (demo_message (demo_id 1)) works 0%nat pending).
  exists n', s'. split; [exact E|]. destruct (demo_result_texts (demo_id 1) demo_id_text) as [Ht Hi].
  destruct Ht as (_ & _ & _ & _ & Htr & _). destruct Hi as [Hir _].
  destruct (GetSubmission_verdict true _ _ (er_TestResults (demo_result (demo_id 1))) works 0%nat pending n' s' works 9%nat
    (demo_id 1) (stored demo_request (su_ProblemId demo_request) demo_start)
    (world_alone _) demo_decodes eq_refl Htr Hir) as (sub & Hg & _ & Hst & Hrs & _ & _ & _ & _ & _ & _ & Hc);
    [vm_compute; reflexivity|vm_compute; reflexivity|vm_compute; reflexivity|vm_compute; reflexivity|
     exact E|apply works_calm|].
  exists sub. split; [exact Hg|]. split; [rewrite Hst; vm_compute; reflexivity|].
  split; [rewrite Hc; reflexivity|exact Hrs].
Defined.

Lemma onResult_redelivered_witness :
  ∃ n' s', onResult true (demo_message (demo_id 1)) works 0%nat pending = (inl Acked, n', s') ∧
    ∃ m' s'', onResult true (demo_message (demo_id 1)) works 7%nat s' = (inl Acked, m', s'') ∧
      settled_row <$> submissions s'' = settled_row <$> submissions s' ∧ length (published s'') = 2%nat.
Proof.
  destruct (succeeds_run (λ o s', acked o s' && succeeds (λ o s'', acked o s'' &&
       (length (published s'') =? 2)%nat) (onResult true (demo_message (demo_id 1)) works 7%nat s'))
    (onResult true (demo_message (demo_id 1)) works 0%nat pending)) as (o & n' & s' & E & Ho);
    [vm_compute; reflexivity|].
  apply andb_true_iff in Ho as [Ho H2]. destruct o; try discriminate Ho. exists n', s'. split; [exact E|].
  apply succeeds_run in H2 as (o2 & m' & s'' & E2 & H2). apply andb_true_iff in H2 as [Ho2 Hlen].
  destruct o2; try discriminate Ho2. exists m', s''. split; [exact E2|].
  destruct (onResult_redelivered _ _ _ _ _ _ _ _ _ _ _ (world_alone _) (world_alone _) E E2) as [Hs _].
  split; [exact Hs|by apply Nat.eqb_eq].
Defined.

(** A program that prints U+0000. *)
Definition nul_result : Inbound :=
  {| in_SubmissionId := demo_id 1; in_UserId := "u"; in_ProblemId := "p"; in_OverallStatus := "WrongAnswer";
     in_TestResults := [Some {| tr_TestCaseId := "c0"; tr_Input := ""; tr_ExpectedOutput := "3";
       tr_ActualOutput := of_bytes [zero]; tr_Status := "WrongAnswer"; tr_ExecutionMs := 5;
       tr_MemoryKb := 0; tr_Error := ""; tr_IsHidden := false |}];
     in_CompileError := ""; in_Runtime := 5; in_Memory := 0; in_TotalCases := 1; in_Source := "" |}.

Definition nul_message : string :=
  render_string (RObj
    [("submission_id", RStr (demo_id 1)); ("user_id", RStr "u"); ("problem_id", RStr "p");
     ("overall_status", RStr "WrongAnswer");
     ("test_results", results_raw (omap id (in_TestResults nul_result)));
     ("runtime_ms", int_raw 5); ("memory_kb", int_raw 0); ("total_cases", int_raw 1)]).

Lemma onResult_nul_witness :
  ∃ n', onResult true nul_message works 0%nat pending = (inl Naked, n', pending).
Proof.
  destruct (onResult_nul true nul_message nul_result (omap id (in_TestResults nul_result))
    {| tr_TestCaseId := "c0"; tr_Input := ""; tr_ExpectedOutput := "3";
       tr_ActualOutput := of_bytes [zero]; tr_Status := "WrongAnswer"; tr_ExecutionMs := 5;
       tr_MemoryKb := 0; tr_Error := ""; tr_IsHidden := false |} works 0%nat pending)
    as (n' & s' & E & Hs); [vm_compute; reflexivity|reflexivity|vm_compute; reflexivity| | |reflexivity|].
  - apply Forall_cons_2; [|apply Forall_nil_2]. unfold result_texts. split_and!; text_now.
  - by left.
  - exists n'. rewrite E. by rewrite Hs.
Defined.

Lemma onResult_event_lost_witness :
  ∃ n' s', onResult true (demo_message (demo_id 1)) (fails_at 3) 0%nat pending = (inl Acked, n', s') ∧
    published s' = [].
Proof.
  destruct (onResult_event_lost true (demo_message (demo_id 1)) _ (er_TestResults (demo_result (demo_id 1)))
    (fails_at 3) 0%nat pending (demo_id 1) (stored demo_request (su_ProblemId demo_request) demo_start)
    (render_string (results_raw (er_TestResults (demo_result (demo_id 1)))))
    (world_alone _) (λ k, eq_refl) demo_decodes eq_refl) as (n' & s' & E & Hp & _);
    [vm_compute; reflexivity..|].
  exists n', s'. split; [exact E|exact Hp].
Defined.

Definition demo_listing : ListSubmissionsRequest :=
  {| ls_UserId := "u"; ls_ProblemId := ""; ls_Page := 1; ls_PageSize := 10 |}.

Lemma ListSubmissions_page_witness :
  ∃ resp, ListSubmissions demo_listing works 0%nat pending = (inl resp, 2%nat, pending) ∧
    lr_PageSize resp = 10.
Proof.
  destruct (ListSubmissions_page demo_listing works 0%nat pending) as (rows & resp & E & _ & _ & _ & _ & _ & _ & Hs);
    [apply works_calm|reflexivity|by intros|vm_compute; reflexivity|vm_compute; reflexivity|].
  exists resp. split; [exact E|exact Hs].
Defined.

(** ** Progress *)

Definition demo_problem : string := "54574a34-9a68-4e65-ab9a-af05db4c0001".
Definition demo_set : string := "54574a34-9a68-4e65-ab9a-af05db4c0009".

Definition new_tables : Tables :=
  no_tables {[ demo_problem := {| pm_difficulty := "Easy"; pm_set_id := Some demo_set; pm_xp := 10 |} ]}.

Definition new_store : ProgressStore :=
  {| tables := new_tables; user_cache := ∅; status_cache := ∅ |}.

Definition solve (correct : bool) : UpdateProblemStatusRequest :=
  {| up_UserId := "u"; up_ProblemId := demo_problem; up_SetId := "";
     up_Status := if correct then "Solved" else "InProgress"; up_IsCorrect := correct;
     up_RuntimeMs := if correct then 5 else 0; up_MemoryKb := 0; up_Language := "go"; up_XpEarned := 0 |}.


(** A value that a test accepts. *)
Lemma some_checked {A} (P : A → bool) (o : option A) :
  match o with Some x => P x | None => false end = true → ∃ x, o = Some x ∧ P x = true.
Proof. destruct o as [x|]; [|done]. intros H. by exists x. Qed.

Lemma update_awards_witness :
  ∃ t', update_tables "u" demo_problem (solve true) demo_start demo_start new_tables = Some t' ∧
    total_xp "u" t' = 10 ∧ ur_total_solved (user_row "u" t') = 1.
Proof.
  destruct (some_checked (λ _, true) (update_tables "u" demo_problem (solve true) demo_start demo_start new_tables))
    as (t' & E & _); [vm_compute; reflexivity|].
  exists t'. split; [exact E|].
  destruct (update_awards _ _ _ _ _ _ _ (eq_refl : coherent (solve true)) E) as (meta & r' & Hm & _ & Hx & Hs & _).
  assert (Hmeta : pm_xp meta = 10) by (vm_compute in Hm; injection Hm as <-; reflexivity).
  split; [rewrite Hx|rewrite Hs]; vm_compute; [exact Hmeta|reflexivity].
Defined.

Lemma resubmission_overwrites_runtime_witness :
  ∃ t t' r', update_tables "u" demo_problem (solve true) demo_start demo_start new_tables = Some t ∧
    update_tables "u" demo_problem (solve false) demo_start demo_start t = Some t' ∧
    problem_progress t' !! ("u", demo_problem) = Some r' ∧ pr_status r' = "Solved" ∧ pr_runtime_ms r' = 0.
Proof.
  destruct (some_checked (λ t,
      match update_tables "u" demo_problem (solve false) demo_start demo_start t with Some _ => true | None => false end
      && match problem_progress t !! ("u", demo_problem) with
         | Some r => String.eqb (pr_status r) "Solved" | None => false end)
    (update_tables "u" demo_problem (solve true) demo_start demo_start new_tables))
    as (t & E & Hc); [vm_compute; reflexivity|].
  apply andb_true_iff in Hc as [H1 H2].
  destruct (update_tables "u" demo_problem (solve false) demo_start demo_start t) as [t'|] eqn:E2; [|discriminate H1].
  destruct (problem_progress t !! ("u", demo_problem)) as [r|] eqn:Er; [|discriminate H2].
  apply String.eqb_eq in H2.
  destruct (resubmission_overwrites_runtime _ _ _ _ _ _ _ _ E2 Er H2) as (r' & Hr & Hs & Hrt & _).
  exists t, t', r'. split_and!; done.
Defined.

Lemma race_double_counts_witness :
  ∃ k t1 t2, read_known "u" demo_problem new_tables = Some k ∧
    write_known "u" demo_problem (solve true) k demo_start demo_start new_tables = Some t1 ∧
    write_known "u" demo_problem (solve true) k demo_start demo_start t1 = Some t2 ∧
    ur_total_solved (user_row "u" t2) = count_rows (solved_by "u") (problem_progress t2) + 1.
Proof.
  destruct (some_checked (λ k, match write_known "u" demo_problem (solve true) k demo_start demo_start new_tables with
      | Some t1 => match write_known "u" demo_problem (solve true) k demo_start demo_start t1 with
                   | Some _ => true | None => false end
      | None => false end) (read_known "u" demo_problem new_tables)) as (k & Ek & H); [vm_compute; reflexivity|].
  destruct (write_known "u" demo_problem (solve true) k demo_start demo_start new_tables) as [t1|] eqn:E1;
    [|discriminate H].
  destruct (write_known "u" demo_problem (solve true) k demo_start demo_start t1) as [t2|] eqn:E2; [|discriminate H].
  exists k, t1, t2. split_and!; [done..|].
  by apply (race_double_counts "u" demo_problem (solve true) (solve true) k demo_start demo_start demo_start demo_start
              new_tables t1 t2 eq_refl eq_refl (no_tables_consistent _) eq_refl eq_refl eq_refl Ek).
Defined.

(** The problem was read, and cached, a second before. *)
Definition cached_store : ProgressStore :=
  {| tables := new_tables; user_cache := ∅;
     status_cache := {[ status_key "u" demo_problem :=
       ({| ps_UserId := "u"; ps_ProblemId := demo_problem; ps_Status := "Unsolved"; ps_SolvedAt := "";
           ps_Attempts := 0 |}, demo_start + 59 * 10 ^ 9) ]} |}.

Lemma update_invalidates_witness :
  ∃ xp n1 s1, HandleUpdateProblemStatus (solve true) (world (λ _, Works)) 0%nat cached_store = (inl (inl xp), n1, s1) ∧
    ∃ old n2, HandleGetProblemStatus "u" demo_problem (world (λ _, Works)) n1 s1 = (inl (inl old), n2, s1) ∧
      ps_Status old = "Unsolved".
Proof.
  destruct (HandleUpdateProblemStatus (solve true) (world (λ _, Works)) 0%nat cached_store) as [[r n1] s1] eqn:E.
  assert (Hr : (match r with inl (inl _) => true | _ => false end && (n1 =? 5)%nat) = true).
  { pose proof (f_equal (λ x, match x.1.1 with inl (inl _) => true | _ => false end && (x.1.2 =? 5)%nat) E) as H.
    cbn [fst snd] in H. rewrite <- H. vm_compute. reflexivity. }
  apply andb_true_iff in Hr as [Hr Hn]. apply Nat.eqb_eq in Hn.
  destruct r as [[xp|]|]; try discriminate Hr. exists xp, n1, s1. split; [done|].
  destruct (update_invalidates (λ _, None) (solve true) (world (λ _, Works)) 0%nat cached_store xp n1 s1) as [_ H];
    [by split|reflexivity|exact E|].
  specialize (H _ _ eq_refl). subst n1. eexists _, _. split; [apply H; vm_compute; reflexivity|reflexivity].
Defined.

#[local] Instance update_request_dec : EqDecision UpdateProblemStatusRequest.
Proof. solve_decision. Defined.

(** The same submission in practice. *)
Definition practice_request : SubmitRequest :=
  {| su_ProblemId := su_ProblemId demo_request; su_Language := "go"; su_Code := "package main";
     su_UserId := "u"; su_Source := "" |}.

#[local] Abbreviation practice_message := (render_string (execution_raw
  (execute (demo_run right_answer) demo_tests (job (demo_id 1) practice_request)))).

Definition practice_call : UpdateProblemStatusRequest :=
  {| up_UserId := "u"; up_ProblemId := demo_problem; up_SetId := ""; up_Status := "Solved";
     up_IsCorrect := true; up_RuntimeMs := 5; up_MemoryKb := 1; up_Language := "go"; up_XpEarned := 0 |}.

Lemma awarded_once_witness :
  ∃ s' s'' t1 t2,
    sends_update true practice_message works 0%nat pending s' practice_call ∧
    sends_update true practice_message works 9%nat s' s'' practice_call ∧
    update_tables "u" demo_problem practice_call demo_start demo_start new_tables = Some t1 ∧
    update_tables "u" demo_problem practice_call demo_start demo_start t1 = Some t2 ∧
    total_xp "u" t2 = total_xp "u" t1.
Proof.
  destruct (succeeds_run (λ o s', acked o s' && bool_decide (progress_calls s' = [practice_call]) &&
      succeeds (λ o s'', acked o s'' && bool_decide (progress_calls s'' = [practice_call; practice_call]))
        (onResult true practice_message works 9%nat s'))
    (onResult true practice_message works 0%nat pending)) as (o & n' & s' & E & H); [vm_compute; reflexivity|].
  apply andb_true_iff in H as [H H2]. apply andb_true_iff in H as [Ho Hc].
  destruct o; try discriminate Ho. apply bool_decide_eq_true in Hc.
  apply succeeds_run in H2 as (o2 & m' & s'' & E2 & H2). apply andb_true_iff in H2 as [Ho2 Hc2].
  destruct o2; try discriminate Ho2. apply bool_decide_eq_true in Hc2.
  destruct (some_checked (λ t, match update_tables "u" demo_problem practice_call demo_start demo_start t with
      | Some _ => true | None => false end)
    (update_tables "u" demo_problem practice_call demo_start demo_start new_tables)) as (t1 & U1 & H);
    [vm_compute; reflexivity|].
  destruct (update_tables "u" demo_problem practice_call demo_start demo_start t1) as [t2|] eqn:U2; [|discriminate H].
  assert (D1 : sends_update true practice_message works 0%nat pending s' practice_call) by (split; eauto).
  assert (D2 : sends_update true practice_message works 9%nat s' s'' practice_call)
    by (split; [eauto|by rewrite Hc2, Hc]).
  exists s', s'', t1, t2. split_and!; [exact D1|exact D2|exact U1|exact U2|].
  exact (proj1 (awarded_once true practice_message works works 0%nat 9%nat pending s' s'' practice_call
    practice_call "u" demo_problem demo_start demo_start demo_start demo_start new_tables t1 t2
    (world_alone _) (world_alone _) D1 D2 U1 U2)).
Defined.
